(* ===== verification/_CoqProject ===== *)
-Q . S2P
Prelude.v
CString.v
Interfaces.v
Pool.v
ListT.v
Buddy.v
Paging.v
Boot.v
Vm.v
Sync.v
Spinlock.v
FsDisk.v
BlockDev.v
FsDir.v
Pipe.v
Files.v
Sched.v
Trap.v
Syscall.v
Exec.v
Elf.v
SockRing.v
Checksum.v
EtherCrc.v
Timer.v
Net.v
Ip.v
Arp.v
Stream.v
Dns.v
Dgram.v
Local.v
SysSocket.v
Userlib.v
Shell.v
Programs.v
Screen.v
Keyboard.v
Console.v
MpConfig.v
Pci.v
Rtl8139.v
Loader.v
Cpu.v
Clock.v
