(* ===== verification/Prelude.v ===== *)
(** * babyos2: a verification library

    babyos2 is a small 32-bit x86 kernel in C++ with its own memory management, file system,
    processes, network stack and a few user programs.  This library models its code under
    src/src/ function by function and proves what the parts promise to each other.

    ** How the code is modelled

    Integers keep their width: a [uint32] is a [Z] with the wrap-around [u32] written where the code
    computes with it.  Memory is a function from addresses to bytes ([mem]), or one function per field
    of a structure that lies at many addresses.  Arrays are lists with [zget] and [zset]; an
    access outside an array, through [NULL] or to a freed object is [Fault].  Functions that can fail
    in this way, [panic] or sleep return an [outcome] and are written with [let!].  A spin lock makes
    what it protects one step; where interrupts or other processors matter there is a step relation
    (schedulers, semaphores, console input, timers), and where a call sleeps the call is cut in two
    (sockets).  Code that a component only calls is an interface: a type class whose instances are
    built by the file that models the implementation.

    ** Parts, files and sources

    Foundations
    - [Prelude]: words, bytes, lists indexed by [Z], the failure monad, tactics and hints.
    - [CString]: string.cc (memory and string functions, number printing, vsprintf).
    - [Interfaces]: page allocator and object pool as type classes.
    - [Pool], [ListT]: pool.cc, list.h; the list is a pointer structure that refines a sequence.

    Memory
    - [Buddy]: the page allocator of mm.cc: circular free lists in the free pages, a bitmap per
      order, reference counts; [Paging]: page tables of mm.cc and vm.cc in memory words;
      [Vm]: areas, mmap, munmap, page faults and copy on write of vm.cc; [Boot]: the memory of mm.cc before the
      allocator exists and the first page directory.

    Files
    - [FsDisk]: blocks, bitmap, inodes on disk, reading and writing of fs.cc and inode.cc;
      [BlockDev]: the buffer cache of block_dev.cc and the request queue of hd.cc below it;
      [FsDir]: inode cache, directories, paths, create, link, unlink, chdir;
      [Pipe]: pipe.cc; [Files]: file tables and descriptors of file.cc, file_table.cc, fs.cc, process.cc.

    Processes
    - [Sync]: sem.cc; [Spinlock]: spinlock.cc as instructions of several processors; [Sched]: process.cc, process_mgr.cc, cpu.cc, waitqueue.cc (run queue, several
      processors, fork, exit, wait, signals sent); [Trap]: trap frames and delivery of signals;
      [Syscall]: the tables of syscall.cc and sys_socket.cc, the stubs of userlib.cc, and the way of a signal through [sigreturn];
      [Elf], [Exec]: elf.cc and the first stack of a program from process.cc.

    Network
    - [Checksum]: byte order and checksum of net.cc; [EtherCrc]: the frame check sequence of ethernet.cc; [Timer]: timer_mgr.cc; [Net]: packet buffers
      of net.cc and net_buf.cc, the queue and cache of arp.cc, ethernet.cc; [Arp]: arp.cc over
      time; [Ip]: ip.cc, icmp.cc, udp.cc, tcp.cc as bytes; [Dns]: dns.cc.
    - [SockRing], [Stream], [Dgram], [Local]: the receive ring and the stream, datagram, raw and local
      sockets; [SysSocket]: sys_socket.cc, sockets behind descriptors.

    Machine
    - [Loader]: loadmain.cc, which brings the kernel into memory; [MpConfig]: the processors found by mp_config.cc
      and arch.cc; [Cpu]: descriptor tables and the dispatch of interrupts of cpu.cc, io_apic.cc, local_apic.cc;
      [Clock]: i8254.cc, delay.cc and the calibration of local_apic.cc; [Pci]: pci.cc; [Rtl8139]: rtl8139.cc.

    Users
    - [Screen]: screen.cc and the output side of console.cc; [Keyboard]: keyboard.cc and its table;
      [Console]: line editing and [read] of console.cc.
    - [Userlib]: printing, lines and host names of userlib.cc; [Shell]: shell.cc; [Programs]: cat.cc, cp.cc, ln.cc,
      ls.cc, mv.cc, rm.cc, mkdir.cc and the addresses of ping.cc.

    ** What is proved

    The theorems say under which conditions; where the code is wrong outside them, a lemma shows how, and the
    documentation of the theorem names it.

    - Data structures: pools never hand out overlapping or used objects; lists behave as
      sequences under any run of operations, pipes, socket rings and local connections as queues.
    - Start: the loader puts every segment of the kernel where it belongs (and overwrites the rest of its last sector); the memory left over becomes the allocator's, and the first
      page directory maps the kernel and the devices it should; the enabled processors of the configuration tables are found and started, each with
      its own stack; descriptor tables mean to the processor what they should, an enabled interrupt reaches its driver, and the timers
      run at the rate that was measured, for processors below 4.29 GHz; every PCI device is listed, and the network card hands over each frame once, exactly unless it reaches round the end of the ring.
    - Memory: the allocator starts from an invariant and keeps it; allocation cuts an aligned free
      block, freeing merges buddies and changes nothing else.  Mapping pages changes exactly the
      translations asked for, if there are free pages for the tables that are missing; mmap, munmap, faults and copy on write do to the address space what
      they are meant to do, but for the protection of what munmap leaves above its range.
    - Files: bytes written are read back and everything else is unchanged, paths end on the inode
      the directories lead to, link makes a name findable and touches no other, inodes are in
      the cache once and their blocks are freed with the last reference; the cache and the queue
      below behave as the plain disk above which all this is proved; references to open
      files are counted whatever calls are made.
    - Locks: on any number of processors with interrupts, whatever their critical sections do, at most one activation holds a spin lock, and a lock
      taken with interrupts off is never waited for on the processor that holds it.
    - Processes: on any number of processors, by induction on the steps, no process runs twice, nobody
      ready is forgotten and each process of the queue gets its turn; semaphores admit at most
      their count, in order; wait collects children; a signal handler that returns by its frame gives back the interrupted
      registers, all but [eax], through the system call it ends with; every stub reaches its function with its arguments; programs are loaded byte for byte
      and start with a well-formed stack.
    - Network: the checksum is the one's complement sum, the frame check sequence the polynomial of the standard; the small packet buffers that the kernel sets up are
      disjoint and keep what is put into them (its large ones overlap); address resolution ends; sockets follow the state diagram of TCP, handshakes establish
      connections, a datagram of at least 18 bytes arrives as it was sent; a successful [socket] or [accept] gives a descriptor that was free; a host name is resolved through
      aliases and abbreviated names.
    - Users: the frame buffer shows pixel by pixel the text that was written; what is typed and edited, and not more than 1024 characters
      ahead, is read line by line, in order, whatever interrupts what; the shell runs the words of its line; a copied file is the original.

    Besides these, lemmas named for what they show prove the places where the code does something else than it
    means to (a key that is swallowed, a wake-up that is lost, a block that is marked free); they
    are listed with the findings of the manifest.

    ** Bounds and fuel

    Loops whose end depends on memory contents take fuel and return [None] without enough of it; the theorems
    give the result, so they include that the fuel given is enough: string loops need one more than the
    length of the string ([STR_FUEL] is more than any argument is long), [FOLD_FUEL] = 3 folds any
    32-bit sum, [FILL_FUEL] = 16 blocks hold all packet buffers, names need one more than their labels and
    pointers, a process id is found within one more try than there are processes, waiting for the disk takes
    at most as many interrupts as requests are queued, [accept] as many rounds as the semaphore counts and
    one, integers have at most 16 digits in the bases in use, a segment is loaded in as many rounds as it has sectors and its headers in
    65536, a configuration table of 65535 bytes has at most 8192 entries, the card is emptied in as many rounds as
    frames are pending, a round of the timer chip has at most as many readings as the shortest time between two allows, a copy takes one round more than the file has blocks.
    Loops over a fixed number of entries are structural.

    ** Not modelled

    - Assembly: the boot sector, the entry of the kernel and of interrupts, the switch of stacks; and the order in which [babyos_t::run]
      initialises the parts, which are modelled each from its own initial state.
    - Sequences of accesses to devices whose behaviour is not in the sources: the initialisation of the network card and
      of the old interrupt controllers.  Where a device is modelled ([BlockDev], [Pci], [Rtl8139], [Cpu], [Clock]) it is an
      interface with the behaviour it is documented to have.
    - [exec] as a whole: its parts are [Elf] and [Exec]; it also copies arguments between address spaces.
    - The test commands of the shell, the tests in babyos.cc and fs_test.cc, which nothing calls, init.cc, and the exchange of ping.cc
      with the network: they only call what is modelled.
    - src/algorithm/ and src/back/: earlier versions of the allocator, file system and loader.
    - Nested use of the buffer cache: [BlockDev] covers operations that hold one block at a time. *)
From Stdlib Require Import ZArith ZifyBool Lia.
From stdpp Require Import base option list gmap.

Declare Scope baby_scope.
Delimit Scope baby_scope with baby.
#[global] Open Scope Z_scope.

(** ** Machine integers

    types.h: [uint8], [uint16], [uint32], [int8], [int32].  A machine word is a
    [Z] kept in range by the wrap-around functions below. *)

Definition u8 (z : Z) : Z := z mod 2 ^ 8.
Definition u16 (z : Z) : Z := z mod 2 ^ 16.
Definition u32 (z : Z) : Z := z mod 2 ^ 32.
Definition u64 (z : Z) : Z := z mod 2 ^ 64.

(** Reinterpretation of an unsigned word as a signed one. *)
Definition s8 (z : Z) : Z := let r := z mod 2 ^ 8 in if r <? 2 ^ 7 then r else r - 2 ^ 8.
Definition s32 (z : Z) : Z := let r := z mod 2 ^ 32 in if r <? 2 ^ 31 then r else r - 2 ^ 32.

(** The complement [~x] of a 32-bit word. *)
Definition not32 (z : Z) : Z := 2 ^ 32 - 1 - u32 z.

Definition NULL : Z := 0.

(** ** A failure monad

    Kernel code can stop in three ways that are not a return: it dereferences a
    pointer that designates nothing, it calls [panic], or it sleeps on a
    semaphore.  [outcome] keeps them apart. *)
Inductive outcome (A : Type) : Type :=
| Done (a : A)
| Fault
| Panic
| Blocked.
Arguments Done {A} a.
Arguments Fault {A}.
Arguments Panic {A}.
Arguments Blocked {A}.

Definition obind {A B : Type} (m : outcome A) (k : A -> outcome B) : outcome B :=
  match m with
  | Done a => k a
  | Fault => Fault
  | Panic => Panic
  | Blocked => Blocked
  end.

(** Reading through a pointer: absent means [Fault]. *)
Definition deref {A : Type} (o : option A) : outcome A :=
  match o with Some a => Done a | None => Fault end.

Notation "'let!' x ':=' m 'in' k" := (obind m (fun x => k))
  (at level 10, x name, m at level 100, k at level 200) : baby_scope.
Notation "'let!' ' p ':=' m 'in' k" := (obind m (fun x => match x with p => k end))
  (at level 10, p strict pattern, m at level 100, k at level 200) : baby_scope.
#[global] Open Scope baby_scope.

(** ** Automation *)

(** Boolean tests of the code turned into the propositions they decide. *)
Ltac tests :=
  repeat match goal with
  | H : (_ && _) = true |- _ => apply andb_prop in H; destruct H
  | H : (_ || _) = false |- _ => apply orb_false_elim in H; destruct H
  | H : negb _ = true |- _ => apply negb_true_iff in H
  | H : negb _ = false |- _ => apply negb_false_iff in H
  | H : (_ <? _) = true |- _ => apply Z.ltb_lt in H
  | H : (_ <? _) = false |- _ => apply Z.ltb_ge in H
  | H : (_ <=? _) = true |- _ => apply Z.leb_le in H
  | H : (_ <=? _) = false |- _ => apply Z.leb_gt in H
  | H : (_ =? _) = true |- _ => apply Z.eqb_eq in H
  | H : (_ =? _) = false |- _ => apply Z.eqb_neq in H
  end.

(** Case analysis on the boolean tests of the goal. *)
Ltac split_tests :=
  repeat match goal with
  | |- context [if ?b then _ else _] => destruct b eqn:?; tests; simpl
  end.

(** [lia] with division and remainder by a constant. *)
Ltac divlia := Z.div_mod_to_equations; lia.

(** Peel one layer of [obind] whose head is known. *)
Ltac ostep :=
  match goal with
  | H : obind ?m _ = Done _ |- _ =>
      let E := fresh "E" in destruct m eqn:E; simpl in H; try discriminate H
  end.

Create HintDb words.
Create Rewrite HintDb words.

(** ** Words stay in range *)

Lemma u8_range z : 0 <= u8 z < 2 ^ 8.
Proof. apply Z.mod_pos_bound. lia. Qed.

Lemma u16_range z : 0 <= u16 z < 2 ^ 16.
Proof. apply Z.mod_pos_bound. lia. Qed.

Lemma u32_range z : 0 <= u32 z < 2 ^ 32.
Proof. apply Z.mod_pos_bound. lia. Qed.

Lemma u8_small z : 0 <= z < 2 ^ 8 -> u8 z = z.
Proof. apply Z.mod_small. Qed.

Lemma u16_small z : 0 <= z < 2 ^ 16 -> u16 z = z.
Proof. apply Z.mod_small. Qed.

Lemma u32_small z : 0 <= z < 2 ^ 32 -> u32 z = z.
Proof. apply Z.mod_small. Qed.

Lemma u32_idem z : u32 (u32 z) = u32 z.
Proof. apply Z.mod_mod. lia. Qed.

Lemma s8_inj a b : 0 <= a < 2 ^ 8 -> 0 <= b < 2 ^ 8 -> s8 a = s8 b -> a = b.
Proof.
  intros Ha Hb. unfold s8. rewrite !Z.mod_small by assumption.
  destruct (a <? 2 ^ 7) eqn:?, (b <? 2 ^ 7) eqn:?; tests; lia.
Qed.

Lemma s8_diff_zero a b :
  0 <= a < 2 ^ 8 -> 0 <= b < 2 ^ 8 -> s8 a - s8 b = 0 <-> a = b.
Proof.
  intros Ha Hb. split; [intros; apply s8_inj; auto; lia | intros ->; lia].
Qed.

Lemma s32_small z : 0 <= z < 2 ^ 31 -> s32 z = z.
Proof.
  intros. unfold s32. rewrite Z.mod_small by lia.
  destruct (z <? 2 ^ 31) eqn:?; tests; lia.
Qed.

#[export] Hint Resolve u8_range u16_range u32_range : words.
#[export] Hint Rewrite u8_small u16_small u32_small using lia : words.

Lemma land_high_mask a n : 0 <= n <= 32 -> 0 <= a < 2 ^ 32 -> Z.land a (2 ^ 32 - 2 ^ n) = a - a mod 2 ^ n.
Proof.
  intros Hn Ha.
  replace (2 ^ 32 - 2 ^ n) with (Z.shiftl (Z.ones (32 - n)) n).
  2:{ rewrite Z.shiftl_mul_pow2, Z.ones_equiv by lia.
      replace (2 ^ 32) with (2 ^ (32 - n) * 2 ^ n) by (rewrite <- Z.pow_add_r by lia; f_equal; lia). lia. }
  replace (a - a mod 2 ^ n) with (Z.shiftl (Z.shiftr a n) n).
  2:{ rewrite Z.shiftl_mul_pow2, Z.shiftr_div_pow2 by lia. pose proof (Z.div_mod a (2 ^ n)). lia. }
  apply Z.bits_inj'. intros k Hk. rewrite Z.land_spec, !Z.shiftl_spec by lia.
  destruct (Z_lt_le_dec k n).
  - rewrite !(Z.testbit_neg_r _ (k - n)) by lia. apply andb_false_r.
  - rewrite Z.shiftr_spec by lia. replace (k - n + n) with k by lia.
    destruct (Z_lt_le_dec k 32).
    + rewrite Z.ones_spec_low by lia. apply andb_true_r.
    + rewrite Z.ones_spec_high, andb_false_r by lia. symmetry.
      destruct (Z.eq_dec a 0) as [->|]; [apply Z.bits_0|].
      apply Z.bits_above_log2; [lia|]. apply Z.lt_le_trans with 32; [|lia]. apply Z.log2_lt_pow2; lia.
Qed.

Lemma lor_disjoint a b k : 0 <= k -> 0 <= b < 2 ^ k -> Z.lor (a * 2 ^ k) b = a * 2 ^ k + b.
Proof.
  intros Hk Hb. rewrite <- Z.add_lor_land. rewrite <- (Z.mod_small b (2 ^ k)) at 3 by lia.
  rewrite <- Z.land_ones, <- Z.shiftl_mul_pow2, (Z.land_comm b), Z.land_assoc by lia.
  replace (Z.land (Z.shiftl a k) (Z.ones k)) with 0 by (rewrite Z.land_ones, Z.shiftl_mul_pow2, Z.mod_mul by lia; reflexivity).
  rewrite Z.land_0_l. lia.
Qed.

(** ** Little-endian bytes

    x86 stores a word with its low byte first; the structures the code casts
    onto byte buffers (disk inodes, protocol headers, page tables) are read and
    written through these two functions. *)

Fixpoint le_bytes (n : nat) (z : Z) : list Z :=
  match n with
  | O => []
  | S k => z mod 256 :: le_bytes k (z / 256)
  end.

Fixpoint le_value (bs : list Z) : Z :=
  match bs with
  | [] => 0
  | b :: r => b + 256 * le_value r
  end.

Definition byte_list (bs : list Z) : Prop := Forall (fun b => 0 <= b < 256) bs.

Lemma le_bytes_length n z : length (le_bytes n z) = n.
Proof. revert z; induction n; simpl; auto. Qed.

Lemma le_bytes_byte_list n z : byte_list (le_bytes n z).
Proof.
  revert z; induction n; simpl; constructor; [apply Z.mod_pos_bound; lia | apply IHn].
Qed.

Lemma le_value_bytes n z : le_value (le_bytes n z) = z mod 256 ^ Z.of_nat n.
Proof.
  revert z; induction n; intros z.
  - simpl. rewrite Z.mod_1_r. reflexivity.
  - cbn [le_bytes le_value]. rewrite IHn, Nat2Z.inj_succ, Z.pow_succ_r by lia.
    rewrite Z.rem_mul_r by lia. reflexivity.
Qed.

Lemma le_bytes_value bs : byte_list bs -> le_bytes (length bs) (le_value bs) = bs.
Proof.
  induction 1 as [|b r Hb Hr IH]; simpl; [reflexivity|].
  assert (Hm : (b + 256 * le_value r) mod 256 = b) by divlia.
  assert (Hd : (b + 256 * le_value r) / 256 = le_value r) by divlia.
  rewrite Hm, Hd, IH. reflexivity.
Qed.

Lemma le_value_range e n : byte_list e -> (length e <= n)%nat -> 0 <= le_value e < 256 ^ Z.of_nat n.
Proof.
  intros H. revert n. induction H as [|b e Hb He IH]; intros n Hl; cbn [length le_value] in *; [pose proof (Z.pow_pos_nonneg 256 (Z.of_nat n)); lia|].
  destruct n as [|n]; [lia|]. specialize (IH n ltac:(lia)). replace (Z.of_nat (S n)) with (Z.of_nat n + 1) by lia. rewrite Z.pow_add_r by lia. lia.
Qed.

Lemma byte_list_app a b : byte_list a -> byte_list b -> byte_list (a ++ b).
Proof. apply Forall_app_2. Qed.

Lemma byte_list_cons x a : 0 <= x < 256 -> byte_list a -> byte_list (x :: a).
Proof. intros H1 H2. apply Forall_cons_2; assumption. Qed.

Lemma byte_list_zeros k : byte_list (repeat 0 k).
Proof. induction k; cbn; [apply Forall_nil_2 | apply byte_list_cons; [lia | assumption]]. Qed.

(** Bytes put together out of words, constants and byte strings. *)
Ltac bytes :=
  repeat match goal with
  | |- byte_list (_ ++ _) => apply byte_list_app
  | |- byte_list (le_bytes _ _) => apply le_bytes_byte_list
  | |- byte_list (repeat 0 _) => apply byte_list_zeros
  | |- byte_list [] => apply Forall_nil_2
  | |- byte_list (_ :: _) => apply byte_list_cons; [lia|]
  | |- _ => assumption
  end.

(** ** Lists indexed by [Z]

    An array access [a[i]] with a C integer index; out of range it designates
    no cell. *)
Definition zget {A : Type} (l : list A) (i : Z) : option A :=
  if i <? 0 then None else l !! Z.to_nat i.

Definition zset {A : Type} (l : list A) (i : Z) (x : A) : list A :=
  if i <? 0 then l else <[Z.to_nat i := x]> l.

Definition zlen {A : Type} (l : list A) : Z := Z.of_nat (length l).

Lemma zset_length {A} (l : list A) i x : length (zset l i x) = length l.
Proof. unfold zset. destruct (i <? 0); [reflexivity | apply length_insert]. Qed.

Lemma zget_zset_eq {A} (l : list A) i x : 0 <= i < zlen l -> zget (zset l i x) i = Some x.
Proof.
  intros H. unfold zget, zset, zlen in *. destruct (i <? 0) eqn:?; tests; [lia|].
  apply list_lookup_insert_eq. lia.
Qed.

Lemma zget_zset_ne {A} (l : list A) i j x : 0 <= j -> i <> j -> zget (zset l i x) j = zget l j.
Proof.
  intros Hj H. unfold zget, zset.
  destruct (i <? 0) eqn:?, (j <? 0) eqn:?; tests; try reflexivity.
  apply list_lookup_insert_ne. lia.
Qed.

Lemma zget_Some_range {A} (l : list A) i x : zget l i = Some x -> 0 <= i < zlen l.
Proof.
  unfold zget, zlen. destruct (i <? 0) eqn:?; tests; [discriminate|].
  intros H. apply lookup_lt_Some in H. lia.
Qed.

Lemma zget_in_range {A} (l : list A) i : 0 <= i < zlen l -> exists x, zget l i = Some x.
Proof.
  unfold zget, zlen. intros H. destruct (i <? 0) eqn:?; tests; [lia|].
  apply lookup_lt_is_Some_2. lia.
Qed.

Lemma zlen_nonneg {A} (l : list A) : 0 <= zlen l.
Proof. unfold zlen. lia. Qed.

Lemma zlen_cons {A} (x : A) l : zlen (x :: l) = zlen l + 1.
Proof. unfold zlen. cbn [length]. lia. Qed.

Lemma zlen_app {A} (a b : list A) : zlen (a ++ b) = zlen a + zlen b.
Proof. unfold zlen. rewrite length_app. lia. Qed.

Lemma zget_nonneg {A} (l : list A) i : 0 <= i -> zget l i = l !! Z.to_nat i.
Proof. intros. unfold zget. replace (i <? 0) with false by lia. reflexivity. Qed.

Lemma zget_app {A} (a b : list A) i : zget (a ++ b) i = if decide (i < zlen a) then zget a i else zget b (i - zlen a).
Proof.
  unfold zget, zlen. destruct (i <? 0) eqn:E; tests.
  - rewrite decide_True by lia. reflexivity.
  - case_decide.
    + apply lookup_app_l. lia.
    + replace (i - Z.of_nat (length a) <? 0) with false by lia. rewrite lookup_app_r by lia. f_equal. lia.
Qed.

Lemma zget_cons {A} (x : A) l i : 0 < i -> zget (x :: l) i = zget l (i - 1).
Proof.
  intros H. unfold zget. replace (i <? 0) with false by lia. replace (i - 1 <? 0) with false by lia.
  replace (Z.to_nat i) with (S (Z.to_nat (i - 1))) by lia. reflexivity.
Qed.

Lemma zget_of_nat {A} (l : list A) n : zget l (Z.of_nat n) = l !! n.
Proof. rewrite zget_nonneg by lia. rewrite Nat2Z.id. reflexivity. Qed.

Lemma zget_lookup {A} (l : list A) j x : zget l j = Some x -> l !! Z.to_nat j = Some x /\ 0 <= j.
Proof. intros H. pose proof (zget_Some_range _ _ _ H). rewrite zget_nonneg in H by lia. auto with lia. Qed.

Lemma zset_id {A} (l : list A) i x : zget l i = Some x -> zset l i x = l.
Proof.
  unfold zget, zset. destruct (i <? 0); [discriminate|]. apply list_insert_id.
Qed.

Lemma zset_twice {A} (l : list A) i x y : zset (zset l i x) i y = zset l i y.
Proof. unfold zset. destruct (i <? 0); [reflexivity | apply list_insert_insert_eq]. Qed.

Lemma zset_comm {A} (l : list A) i j x y : 0 <= i -> 0 <= j -> i <> j -> zset (zset l i x) j y = zset (zset l j y) i x.
Proof.
  intros Hi Hj H. unfold zset. replace (i <? 0) with false by lia. replace (j <? 0) with false by lia.
  apply list_insert_insert_ne. lia.
Qed.

Lemma zget_zset_cases {A} (l : list A) i v j x : zget (zset l i v) j = Some x -> (j = i /\ x = v) \/ (j <> i /\ zget l j = Some x).
Proof.
  intros H. pose proof (zget_Some_range _ _ _ H) as Hr. destruct (Z.eq_dec j i) as [->|Hne].
  - left. split; [reflexivity|]. rewrite zget_zset_eq in H; [congruence|]. unfold zlen in *. rewrite zset_length in Hr. lia.
  - right. split; [exact Hne|]. rewrite zget_zset_ne in H by lia. exact H.
Qed.

(** Sums over a list. *)
Definition zsum {A : Type} (g : A -> Z) (l : list A) : Z := foldr (fun x a => g x + a) 0 l.

Lemma zsum_app {A} (g : A -> Z) a b : zsum g (a ++ b) = zsum g a + zsum g b.
Proof. unfold zsum. induction a as [|x a IH]; cbn; lia. Qed.

Lemma zsum_nonneg {A} (g : A -> Z) l : (forall x, 0 <= g x) -> 0 <= zsum g l.
Proof. intros H. unfold zsum. induction l as [|x l IH]; cbn; [|specialize (H x)]; lia. Qed.

Lemma zsum_le {A} (g : A -> Z) k l : (forall x, x ∈ l -> g x <= k) -> zsum g l <= k * zlen l.
Proof.
  unfold zsum, zlen. induction l as [|x l IH]; intros H; cbn [foldr length]; [lia|].
  assert (g x <= k) by (apply H; left). assert (forall y, y ∈ l -> g y <= k) as Hl by (intros; apply H; right; assumption). specialize (IH Hl). lia.
Qed.

Lemma zsum_zset {A} (g : A -> Z) l i x y : zget l i = Some x -> zsum g (zset l i y) = zsum g l - g x + g y.
Proof.
  intros H. apply zget_lookup in H as [H Hi]. unfold zset. replace (i <? 0) with false by lia.
  revert H. generalize (Z.to_nat i). clear. intros n. unfold zsum. revert n.
  induction l as [|z l IH]; intros [|n] H; try discriminate H.
  - injection H as ->. change (<[0%nat:=y]> (x :: l)) with (y :: l). cbn [foldr]. lia.
  - change (<[S n:=y]> (z :: l)) with (z :: <[n:=y]> l). cbn [foldr]. rewrite (IH n H). lia.
Qed.

Lemma zsum_elem {A} (g : A -> Z) l i x : (forall x, 0 <= g x) -> zget l i = Some x -> g x <= zsum g l.
Proof.
  intros Hg H. apply zget_lookup in H as [H _]. revert H. generalize (Z.to_nat i). intros n. revert n. unfold zsum.
  induction l as [|z l IH]; intros [|n] H; cbn in *; simplify_eq.
  - pose proof (zsum_nonneg g l Hg). unfold zsum in *. lia.
  - specialize (IH n H). specialize (Hg z). lia.
Qed.

(** ** Memory

    A memory, or one field of a structure over all the addresses where such a
    structure may lie. *)
Definition mem : Type := Z -> Z.

Definition upd (m : mem) (a v : Z) : mem := fun x => if x =? a then v else m x.

Lemma upd_eq m a v : upd m a v a = v.
Proof. unfold upd. rewrite Z.eqb_refl. reflexivity. Qed.

Lemma upd_ne m a v x : x <> a -> upd m a v x = m x.
Proof. unfold upd. intros H. apply Z.eqb_neq in H. rewrite H. reflexivity. Qed.
