(* ===== verification/CString.v ===== *)
(** * String and memory routines (src/src/string.cc)

    Memory is a total function from addresses to bytes; a [char*] is an address.
    The loops that stop at a NUL byte take fuel and return [None] when it runs
    out; the theorems show that any fuel above the length of the string is
    enough.  [char] is signed on x86, so comparisons subtract [s8] values. *)
From Stdlib Require Import ZArith ZifyBool Lia.
From stdpp Require Import base option list.
From S2P Require Import Prelude.

Definition byte_mem (m : mem) : Prop := forall a, 0 <= m a < 2 ^ 8.

(** [while (n--) *d++ = *s++;] *)
Fixpoint copy_fwd (n : nat) (m : mem) (d s : Z) : mem :=
  match n with
  | O => m
  | S k => copy_fwd k (upd m d (m s)) (d + 1) (s + 1)
  end.

(** [while (n--) *--d = *--s;] *)
Fixpoint copy_bwd (n : nat) (m : mem) (d s : Z) : mem :=
  match n with
  | O => m
  | S k => copy_bwd k (upd m (d - 1) (m (s - 1))) (d - 1) (s - 1)
  end.

Definition memmov (m : mem) (dst src n : Z) : Z * mem :=
  if (src <? dst) && (dst <? src + n)
  then (dst, copy_bwd (Z.to_nat n) m (dst + n) (src + n))
  else (dst, copy_fwd (Z.to_nat n) m dst src).

Definition memcpy (m : mem) (dst src n : Z) : Z * mem := memmov m dst src n.

Fixpoint memset_loop (n : nat) (m : mem) (d c : Z) : mem :=
  match n with
  | O => m
  | S k => memset_loop k (upd m d (Z.land c 255)) (d + 1) c
  end.

Definition memset (m : mem) (dst c n : Z) : Z * mem :=
  (dst, memset_loop (Z.to_nat n) m dst c).

(** [while (--n && *b1 == *b2)]: the argument is [n] before the decrement. *)
Fixpoint memcmp_loop (n : nat) (m : mem) (b1 b2 : Z) : Z * Z :=
  match n with
  | O => (b1, b2)
  | S O => (b1, b2)
  | S k => if m b1 =? m b2 then memcmp_loop k m (b1 + 1) (b2 + 1) else (b1, b2)
  end.

Definition memcmp (m : mem) (b1 b2 n : Z) : Z :=
  if n =? 0 then 0
  else let '(p1, p2) := memcmp_loop (Z.to_nat n) m b1 b2 in s8 (m p1) - s8 (m p2).

(** [while ( *src) *d++ = *src++;]: the memory and the final [d]. *)
Fixpoint strcpy_loop (fuel : nat) (m : mem) (d src : Z) : option (mem * Z) :=
  match fuel with
  | O => None
  | S k => if m src =? 0 then Some (m, d)
           else strcpy_loop k (upd m d (m src)) (d + 1) (src + 1)
  end.

Definition strcpy (fuel : nat) (m : mem) (dst src : Z) : option (Z * mem) :=
  match strcpy_loop fuel m dst src with
  | Some (m', d) => Some (dst, upd m' d 0)
  | None => None
  end.

(** [while (--n >= 0 && *src) *d++ = *src++;] *)
Fixpoint strncpy_loop (n : nat) (m : mem) (d src : Z) : mem * Z :=
  match n with
  | O => (m, d)
  | S k => if m src =? 0 then (m, d)
           else strncpy_loop k (upd m d (m src)) (d + 1) (src + 1)
  end.

Definition strncpy (m : mem) (dst src n : Z) : Z * mem :=
  let '(m', d) := strncpy_loop (Z.to_nat n) m dst src in (dst, upd m' d 0).

Fixpoint strcmp (fuel : nat) (m : mem) (s1 s2 : Z) : option Z :=
  match fuel with
  | O => None
  | S k => if negb (m s1 =? 0) && negb (m s2 =? 0) && (m s1 =? m s2)
           then strcmp k m (s1 + 1) (s2 + 1)
           else Some (s8 (m s1) - s8 (m s2))
  end.

Fixpoint strlen (fuel : nat) (m : mem) (s : Z) : option Z :=
  match fuel with
  | O => None
  | S k => if m s =? 0 then Some 0
           else match strlen k m (s + 1) with Some l => Some (l + 1) | None => None end
  end.

(** [while ( *s1 && *s2 && *s1 == *s2 && --n >= 0)]: where the loop stops and the
    value of [n] there. *)
Fixpoint strncmp_loop (n : nat) (m : mem) (s1 s2 : Z) : Z * Z * Z :=
  if negb (m s1 =? 0) && negb (m s2 =? 0) && (m s1 =? m s2)
  then match n with
       | O => (s1, s2, -1)
       | S k => strncmp_loop k m (s1 + 1) (s2 + 1)
       end
  else (s1, s2, Z.of_nat n).

Definition strncmp (m : mem) (s1 s2 n : Z) : Z :=
  if n <? 0 then s8 (m s1) - s8 (m s2)
  else let '(p1, p2, n') := strncmp_loop (Z.to_nat n) m s1 s2 in
       if n' =? 0 then 0 else s8 (m p1) - s8 (m p2).

(** [strcat] copies up to the NUL of [src] and does not write a NUL itself. *)
Definition strcat (fuel : nat) (m : mem) (dst src : Z) : option (Z * mem) :=
  match strlen fuel m dst with
  | None => None
  | Some l => match strcpy_loop fuel m (dst + l) src with
              | Some (m', _) => Some (dst, m')
              | None => None
              end
  end.

Definition is_digit (c : Z) : bool := (48 <=? c) && (c <=? 57).

(** The table [digits] of [sprint_int]: 0..9 then a..f. *)
Definition digit_char (d : Z) : Z := if d <? 10 then 48 + d else 87 + d.

(** [do { buf[i++] = digits[num % base]; num /= base; } while (num != 0);] *)
Fixpoint int_digits (fuel : nat) (num base : Z) : option (list Z) :=
  match fuel with
  | O => None
  | S k => let d := digit_char (num mod base) in
           let num' := num / base in
           if num' =? 0 then Some [d]
           else match int_digits k num' base with
                | Some r => Some (d :: r)
                | None => None
                end
  end.

(** Write a list of bytes at [p]. *)
Fixpoint put_bytes (m : mem) (p : Z) (bs : list Z) : mem :=
  match bs with
  | [] => m
  | b :: r => put_bytes (upd m p b) (p + 1) r
  end.

(** The bytes [sprint_int] writes: padding, then [buf] from its last byte to
    its first.  [base] is 10 or 16 at every call, so 16 digits of fuel are more
    than [buf] needs. *)
Definition int_text (n width base : Z) (sign : bool) : option (list Z) :=
  let neg := sign && (n <? 0) in
  let num := if neg then u32 (- n) else u32 n in
  match int_digits 16 num base with
  | None => None
  | Some ds =>
      let buf := if neg then ds ++ [45] else ds in
      let i := zlen buf in
      let w := if width <? i then i else width in
      let pad := if base =? 16 then 48 else 32 in
      Some (replicate (Z.to_nat (w - i)) pad ++ rev buf)
  end.

Definition sprint_int (m : mem) (buffer n width base : Z) (sign : bool) : option (Z * mem) :=
  if base <=? 0 then Some (-1, m)
  else match int_text n width base sign with
       | None => None
       | Some t => Some (zlen t, put_bytes m buffer t)
       end.

Definition sprint_str (fuel : nat) (m : mem) (buffer s width : Z) : option (Z * mem) :=
  if s =? NULL then Some (0, m)
  else match strlen fuel m s with
       | None => None
       | Some len =>
           let w := if width <? len then len else width in
           match strcat fuel m buffer s with
           | None => None
           | Some (_, m') =>
               Some (w, put_bytes m' (buffer + len) (replicate (Z.to_nat (w - len)) 32))
           end
       end.

(** [while (c != '\0' && is_digit(c)) { width = width*10 + c - '0'; c = fmt[++i]; }]
    starting at index [i]: the width, the final index and the final character. *)
Fixpoint scan_width (fuel : nat) (m : mem) (fmt i width : Z) : option (Z * Z * Z) :=
  match fuel with
  | O => None
  | S k => let c := m (fmt + i) in
           if negb (c =? 0) && is_digit c
           then scan_width k m fmt (i + 1) (s32 (width * 10 + c - 48))
           else Some (width, i, c)
  end.

(** One conversion: [c] is the character after [%] and the width.  The words of
    the variable argument list are [ap]; the result has the new total, memory
    and remaining arguments.  No argument left is [None]. *)
Definition vsprintf_conv (fuel : nat) (m : mem) (buffer total width c : Z) (ap : list Z)
  : option (Z * mem * list Z) :=
  if (c =? 100) || (c =? 117) || (c =? 120) || (c =? 112) then
    match ap with
    | [] => None
    | a :: ap' =>
        let base := if (c =? 100) || (c =? 117) then 10 else 16 in
        match sprint_int m (buffer + total) (s32 a) width base (c =? 100) with
        | Some (k, m') => Some (total + k, m', ap')
        | None => None
        end
    end
  else if c =? 99 then
    match ap with
    | [] => None
    | a :: ap' => Some (total + 1, upd m (buffer + total) (Z.land a 255), ap')
    end
  else if c =? 115 then
    match ap with
    | [] => None
    | a :: ap' =>
        match sprint_str fuel m (buffer + total) a width with
        | Some (k, m') => Some (total + k, m', ap')
        | None => None
        end
    end
  else if c =? 37 then Some (total + 1, upd m (buffer + total) 37, ap)
  else Some (total + 2, upd (upd m (buffer + total) 37) (buffer + total + 1) c, ap).

Fixpoint vsprintf_loop (fuel : nat) (m : mem) (buffer fmt i total : Z) (ap : list Z)
  : option (Z * mem) :=
  match fuel with
  | O => None
  | S k =>
      let c := m (fmt + i) in
      if c =? 0 then Some (total, m)
      else if negb (c =? 37) then
        vsprintf_loop k (upd m (buffer + total) c) buffer fmt (i + 1) (total + 1) ap
      else if m (fmt + (i + 1)) =? 0 then Some (total, m)
      else match scan_width k m fmt (i + 1) 0 with
           | None => None
           | Some (width, j, c') =>
               if c' =? 0 then Some (total, m)
               else match vsprintf_conv k m buffer total width c' ap with
                    | None => None
                    | Some (total', m', ap') =>
                        vsprintf_loop k m' buffer fmt (j + 1) total' ap'
                    end
           end
  end.

Definition vsprintf (fuel : nat) (m : mem) (buffer fmt : Z) (ap : list Z) : option (Z * mem) :=
  let m0 := upd m buffer 0 in
  if fmt =? NULL then Some (0, m0)
  else vsprintf_loop fuel m0 buffer fmt 0 0 ap.

(** [sprintf] collects its variable arguments and calls [vsprintf]. *)
Definition sprintf (fuel : nat) (m : mem) (buffer fmt : Z) (args : list Z) : option (Z * mem) :=
  vsprintf fuel m buffer fmt args.

(** ** Specification vocabulary *)

(** The NUL-terminated string at [p]. *)
Fixpoint cstr (m : mem) (p : Z) (s : list Z) : Prop :=
  match s with
  | [] => m p = 0
  | c :: r => m p = c /\ c <> 0 /\ cstr m (p + 1) r
  end.

Definition char_digit (c : Z) : option Z :=
  if is_digit c then Some (c - 48)
  else if (97 <=? c) && (c <=? 102) then Some (c - 87) else None.

(** Value of a digit string, most significant digit first. *)
Fixpoint digits_value (base acc : Z) (t : list Z) : option Z :=
  match t with
  | [] => Some acc
  | c :: r => match char_digit c with
              | Some d => digits_value base (acc * base + d) r
              | None => None
              end
  end.

(** Reading a number back: leading blanks, an optional minus sign, digits. *)
Fixpoint parse_int (base : Z) (t : list Z) : option Z :=
  match t with
  | [] => None
  | c :: r => if c =? 32 then parse_int base r
              else if c =? 45 then option_map Z.opp (digits_value base 0 r)
              else digits_value base 0 t
  end.

(** ** Lemmas *)

Create HintDb cstring.
Create Rewrite HintDb cstring.
#[export] Hint Rewrite upd_eq : cstring.
#[export] Hint Rewrite upd_ne using lia : cstring.

(** Forward copying is right when no byte is overwritten before it is read. *)
Lemma copy_fwd_spec n m d s x :
  (d <= s \/ s + Z.of_nat n <= d) ->
  copy_fwd n m d s x = if (d <=? x) && (x <? d + Z.of_nat n) then m (s + (x - d)) else m x.
Proof.
  revert m d s. induction n as [|n IH]; intros m d s H.
  - simpl. split_tests; auto; lia.
  - cbn [copy_fwd]. rewrite IH by lia. unfold upd.
    destruct ((d + 1 <=? x) && (x <? d + 1 + Z.of_nat n)) eqn:E1.
    + tests. replace ((d <=? x) && (x <? d + Z.of_nat (S n))) with true by (symmetry; lia).
      replace (s + 1 + (x - (d + 1)) =? d) with false by (symmetry; lia).
      f_equal. lia.
    + destruct (x =? d) eqn:E2; tests.
      * subst x. replace ((d <=? d) && (d <? d + Z.of_nat (S n))) with true by (symmetry; lia).
        f_equal. lia.
      * replace ((d <=? x) && (x <? d + Z.of_nat (S n))) with false by (symmetry; lia). reflexivity.
Qed.

(** Backward copying, with end pointers, is right when the source starts below. *)
Lemma copy_bwd_spec n m d s x :
  s <= d ->
  copy_bwd n m d s x = if (d - Z.of_nat n <=? x) && (x <? d) then m (s + (x - d)) else m x.
Proof.
  revert m d s. induction n as [|n IH]; intros m d s H.
  - simpl. split_tests; auto; lia.
  - cbn [copy_bwd]. rewrite IH by lia. unfold upd.
    destruct ((d - 1 - Z.of_nat n <=? x) && (x <? d - 1)) eqn:E1.
    + tests. replace ((d - Z.of_nat (S n) <=? x) && (x <? d)) with true by (symmetry; lia).
      replace (s - 1 + (x - (d - 1)) =? d - 1) with false by (symmetry; lia).
      f_equal. lia.
    + destruct (x =? d - 1) eqn:E2; tests.
      * subst x. replace ((d - Z.of_nat (S n) <=? d - 1) && (d - 1 <? d)) with true by (symmetry; lia).
        f_equal. lia.
      * replace ((d - Z.of_nat (S n) <=? x) && (x <? d)) with false by (symmetry; lia). reflexivity.
Qed.

(** [memmov] copies the [n] source bytes as they were before the call to the
    destination, whether or not the two ranges overlap, changes no other byte
    and returns the destination. *)
Theorem memmov_correct (m : mem) (dst src n x : Z) (Hn : 0 <= n) :
  fst (memmov m dst src n) = dst /\
  snd (memmov m dst src n) x =
    (if (dst <=? x) && (x <? dst + n) then m (src + (x - dst)) else m x).
Proof.
  unfold memmov. destruct ((src <? dst) && (dst <? src + n)) eqn:E; simpl; split; auto.
  - tests. rewrite copy_bwd_spec by lia. rewrite Z2Nat.id by lia.
    replace (dst + n - n) with dst by lia.
    destruct ((dst <=? x) && (x <? dst + n)); [f_equal; lia | reflexivity].
  - rewrite copy_fwd_spec by lia. rewrite Z2Nat.id by lia. reflexivity.
Qed.

Lemma memset_loop_spec n m d c x :
  memset_loop n m d c x =
    if (d <=? x) && (x <? d + Z.of_nat n) then Z.land c 255 else m x.
Proof.
  revert m d. induction n as [|n IH]; intros m d.
  - simpl. split_tests; auto; lia.
  - cbn [memset_loop]. rewrite IH. unfold upd.
    destruct ((d + 1 <=? x) && (x <? d + 1 + Z.of_nat n)) eqn:E1; tests.
    + replace ((d <=? x) && (x <? d + Z.of_nat (S n))) with true by (symmetry; lia). reflexivity.
    + destruct (x =? d) eqn:E2; tests.
      * replace ((d <=? x) && (x <? d + Z.of_nat (S n))) with true by (symmetry; lia). reflexivity.
      * replace ((d <=? x) && (x <? d + Z.of_nat (S n))) with false by (symmetry; lia). reflexivity.
Qed.

Lemma memcmp_loop_spec k m b1 b2 :
  byte_mem m ->
  let '(p1, p2) := memcmp_loop (S k) m b1 b2 in
  s8 (m p1) - s8 (m p2) = 0 <-> (forall i, 0 <= i <= Z.of_nat k -> m (b1 + i) = m (b2 + i)).
Proof.
  intros Hm. revert b1 b2. induction k as [|k IH]; intros b1 b2.
  - cbn [memcmp_loop]. rewrite s8_diff_zero by apply Hm. split; intros H.
    + intros i Hi. replace i with 0 by lia. rewrite !Z.add_0_r. exact H.
    + specialize (H 0). rewrite !Z.add_0_r in H. apply H. lia.
  - change (memcmp_loop (S (S k)) m b1 b2) with
      (if m b1 =? m b2 then memcmp_loop (S k) m (b1 + 1) (b2 + 1) else (b1, b2)).
    destruct (m b1 =? m b2) eqn:E; tests.
    + specialize (IH (b1 + 1) (b2 + 1)). destruct (memcmp_loop (S k) m (b1 + 1) (b2 + 1)).
      rewrite IH. split; intros H i Hi.
      * destruct (Z.eq_dec i 0) as [->|]; [rewrite !Z.add_0_r; exact E|].
        specialize (H (i - 1)). replace (b1 + i) with (b1 + 1 + (i - 1)) by lia.
        replace (b2 + i) with (b2 + 1 + (i - 1)) by lia. apply H. lia.
      * specialize (H (i + 1)). replace (b1 + 1 + i) with (b1 + (i + 1)) by lia.
        replace (b2 + 1 + i) with (b2 + (i + 1)) by lia. apply H. lia.
    + rewrite s8_diff_zero by apply Hm. split; intros H; [contradiction|].
      specialize (H 0). rewrite !Z.add_0_r in H. apply H. lia.
Qed.

Lemma memcmp_zero_iff m b1 b2 n :
  byte_mem m -> 0 <= n ->
  memcmp m b1 b2 n = 0 <-> (forall i, 0 <= i < n -> m (b1 + i) = m (b2 + i)).
Proof.
  intros Hm Hn. unfold memcmp. destruct (n =? 0) eqn:E; tests.
  - split; auto. lia.
  - destruct (Z.to_nat n) as [|k] eqn:Ek; [lia|].
    pose proof (memcmp_loop_spec k m b1 b2 Hm) as H.
    destruct (memcmp_loop (S k) m b1 b2). rewrite H.
    split; intros H' i Hi; apply H'; lia.
Qed.

(** A write outside a string, or a NUL on its terminator, leaves it unchanged. *)
Lemma cstr_upd_frame m b v s : forall a,
  cstr m a s -> (b < a \/ a + zlen s < b \/ (b = a + zlen s /\ v = 0)) ->
  cstr (upd m b v) a s.
Proof.
  unfold zlen. induction s as [|c s IH]; simpl; intros a H Hb.
  - destruct (Z.eq_dec a b) as [->|]; [|rewrite upd_ne by lia; exact H].
    rewrite upd_eq. lia.
  - destruct H as (H1 & H2 & H3). rewrite upd_ne by lia. repeat split; auto. apply IH; auto. lia.
Qed.

Lemma byte_mem_put bs : forall m p, byte_mem m -> byte_list bs -> byte_mem (put_bytes m p bs).
Proof.
  induction bs as [|b bs IH]; intros m p Hm Hb; [exact Hm|]. inversion Hb; subst.
  apply IH; auto. intros a. unfold upd. destruct (a =? p); [lia | apply Hm].
Qed.

Lemma strlen_spec m s : forall fuel p,
  cstr m p s -> (length s < fuel)%nat -> strlen fuel m p = Some (zlen s).
Proof.
  induction s as [|c s IH]; intros [|fuel] p H Hf; simpl in *; try lia.
  - rewrite H. reflexivity.
  - destruct H as (-> & Hc & H). apply Z.eqb_neq in Hc. rewrite Hc, (IH fuel _ H) by lia.
    unfold zlen. simpl. f_equal. lia.
Qed.

Lemma strcmp_spec m s : byte_mem m -> forall fuel t p q,
  cstr m p s -> cstr m q t -> (length s < fuel)%nat ->
  exists r, strcmp fuel m p q = Some r /\ (r = 0 <-> s = t).
Proof.
  intros Hm. induction s as [|c s IH]; intros [|fuel] t p q Hp Hq Hf; simpl in *; try lia.
  - rewrite Hp. simpl. eexists; split; [reflexivity|].
    rewrite s8_diff_zero by (apply Hm || lia).
    destruct t as [|d t]; simpl in Hq; [intuition congruence|].
    destruct Hq as (-> & Hd & _). split; [intros; congruence | discriminate].
  - destruct Hp as (Ep & Hc & Hp). rewrite Ep. replace (c =? 0) with false by (symmetry; lia).
    destruct t as [|d t]; simpl in Hq.
    + rewrite Hq. simpl. eexists; split; [reflexivity|].
      rewrite s8_diff_zero by (rewrite <- ?Ep; apply Hm || lia). split; [congruence | discriminate].
    + destruct Hq as (Eq & Hd & Hq). rewrite Eq. replace (d =? 0) with false by (symmetry; lia).
      simpl. destruct (c =? d) eqn:E; tests.
      * subst d. destruct (IH fuel t (p + 1) (q + 1) Hp Hq) as (r & Hr & Hiff); [lia|].
        exists r. split; [exact Hr|]. rewrite Hiff. split; congruence.
      * eexists; split; [reflexivity|].
        rewrite s8_diff_zero by (rewrite <- ?Ep, <- ?Eq; apply Hm). split; congruence.
Qed.

Lemma strncmp_loop_spec m : byte_mem m -> forall n s t p q,
  cstr m p s -> cstr m q t ->
  let '(p1, p2, n') := strncmp_loop n m p q in
  (if n' =? 0 then 0 else s8 (m p1) - s8 (m p2)) = 0 <-> take n s = take n t.
Proof.
  intros Hm. induction n as [|n IH]; intros s t p q Hp Hq.
  - cbn [strncmp_loop]. destruct (negb (m p =? 0) && negb (m q =? 0) && (m p =? m q)) eqn:E; simpl.
    + tests. rewrite s8_diff_zero by apply Hm. rewrite !take_0. tauto.
    + rewrite !take_0. tauto.
  - cbn [strncmp_loop]. destruct (negb (m p =? 0) && negb (m q =? 0) && (m p =? m q)) eqn:E.
    + tests. destruct s as [|c s], t as [|d t]; simpl in Hp, Hq; try contradiction.
      destruct Hp as (Ep & _ & Hp), Hq as (Eq & _ & Hq).
      specialize (IH s t (p + 1) (q + 1) Hp Hq).
      destruct (strncmp_loop n m (p + 1) (q + 1)) as [[p1 p2] n']. rewrite IH.
      simpl. split; [intros ->; congruence | congruence].
    + replace (Z.of_nat (S n) =? 0) with false by (symmetry; lia).
      rewrite s8_diff_zero by apply Hm.
      destruct s as [|c s], t as [|d t]; simpl in Hp, Hq |- *; intuition (try congruence).
      destruct (m p =? 0) eqn:E1, (m q =? 0) eqn:E2, (m p =? m q) eqn:E3; tests; simpl in E; congruence.
Qed.

(** [strcmp] and [strncmp] decide equality of NUL-terminated strings:
    [strcmp] returns (whatever fuel above the length of its first argument) a
    value that is 0 exactly for equal strings, and [strncmp] is 0 exactly when
    the first [n] characters agree. *)
Theorem strcmp_strncmp_correct (m : mem) (s t : list Z) (p q n : Z) (fuel : nat)
  (Hm : byte_mem m) (Hp : cstr m p s) (Hq : cstr m q t) (Hn : 0 <= n)
  (Hf : (length s < fuel)%nat) :
  (exists r, strcmp fuel m p q = Some r /\ (r = 0 <-> s = t)) /\
  (strncmp m p q n = 0 <-> take (Z.to_nat n) s = take (Z.to_nat n) t).
Proof.
  split; [eapply strcmp_spec; eauto|].
  unfold strncmp. destruct (n <? 0) eqn:E; tests; [lia|].
  pose proof (strncmp_loop_spec m Hm (Z.to_nat n) s t p q Hp Hq) as H.
  destruct (strncmp_loop (Z.to_nat n) m p q) as [[p1 p2] n']. exact H.
Qed.

Lemma put_bytes_frame bs : forall m p x,
  (x < p \/ p + zlen bs <= x) -> put_bytes m p bs x = m x.
Proof.
  unfold zlen. induction bs as [|b bs IH]; intros m p x H; [reflexivity|].
  simpl in *. rewrite IH by lia. apply upd_ne. lia.
Qed.

Lemma put_bytes_at bs : forall m p i b,
  bs !! i = Some b -> put_bytes m p bs (p + Z.of_nat i) = b.
Proof.
  induction bs as [|b' bs IH]; intros m p i b H; [discriminate|].
  destruct i as [|i]; simpl in *.
  - injection H as ->. rewrite put_bytes_frame by lia. rewrite Z.add_0_r. apply upd_eq.
  - rewrite <- (IH (upd m p b') (p + 1) i b H). f_equal. lia.
Qed.

(** [strncpy] writes one byte more than its bound allows: the terminating NUL of
    a source of at least [n] characters lands at [dst + n]. *)
Lemma strncpy_loop_long m : forall n d src,
  (forall i, 0 <= i < Z.of_nat n -> m (src + i) <> 0) ->
  (src + Z.of_nat n <= d \/ d + Z.of_nat n <= src) ->
  snd (strncpy_loop n m d src) = d + Z.of_nat n.
Proof.
  intros n. revert m. induction n as [|n IH]; intros m d src H Hd; [simpl; lia|].
  cbn [strncpy_loop]. replace (m src =? 0) with false.
  2:{ specialize (H 0). rewrite Z.add_0_r in H. symmetry. apply Z.eqb_neq. apply H. lia. }
  rewrite IH; [lia | | lia].
  intros i Hi. rewrite upd_ne by lia. replace (src + 1 + i) with (src + (i + 1)) by lia.
  apply H. lia.
Qed.

Lemma strncpy_overrun (m : mem) (dst src n : Z) :
  0 <= n -> (forall i, 0 <= i < n -> m (src + i) <> 0) ->
  (src + n <= dst \/ dst + n <= src) ->
  snd (strncpy m dst src n) (dst + n) = 0.
Proof.
  intros Hn H Hd. unfold strncpy.
  pose proof (strncpy_loop_long m (Z.to_nat n) dst src) as L.
  destruct (strncpy_loop (Z.to_nat n) m dst src) as [m' d]. simpl in *.
  rewrite L by (try intros; rewrite ?Z2Nat.id in * by lia; auto).
  rewrite Z2Nat.id by lia. apply upd_eq.
Qed.

(** *** Numbers *)

Lemma char_digit_char d : 0 <= d < 16 -> char_digit (digit_char d) = Some d.
Proof.
  intros H. unfold digit_char, char_digit, is_digit.
  destruct (d <? 10) eqn:E; tests.
  - replace ((48 <=? 48 + d) && (48 + d <=? 57)) with true by lia. f_equal. lia.
  - replace ((48 <=? 87 + d) && (87 + d <=? 57)) with false by lia.
    replace ((97 <=? 87 + d) && (87 + d <=? 102)) with true by lia. f_equal. lia.
Qed.

Lemma digit_char_visible d : 0 <= d < 16 -> digit_char d <> 32 /\ digit_char d <> 45.
Proof. unfold digit_char. intros H. destruct (d <? 10) eqn:?; tests; lia. Qed.

Lemma digits_value_app base t1 t2 : forall acc,
  digits_value base acc (t1 ++ t2) =
  match digits_value base acc t1 with Some a => digits_value base a t2 | None => None end.
Proof.
  induction t1 as [|c t1 IH]; intros acc; simpl; [reflexivity|].
  destruct (char_digit c); auto.
Qed.

Lemma digits_value_zeros base n : digits_value base 0 (replicate n 48) = Some 0.
Proof. induction n; simpl; auto. Qed.

Definition visible (t : list Z) : Prop := Forall (fun c => c <> 32 /\ c <> 45) t.

Lemma int_digits_spec base : 2 <= base <= 16 -> forall fuel num,
  0 <= num < base ^ Z.of_nat fuel -> (0 < fuel)%nat ->
  exists ds, int_digits fuel num base = Some ds /\ ds <> [] /\
    visible ds /\ zlen ds <= Z.of_nat fuel /\
    digits_value base 0 (rev ds) = Some num.
Proof.
  intros Hb. induction fuel as [|fuel IH]; intros num Hn Hf; [lia|].
  assert (Hd : 0 <= num mod base < 16) by (pose proof (Z.mod_pos_bound num base); lia).
  cbn [int_digits]. destruct (num / base =? 0) eqn:E; tests.
  - exists [digit_char (num mod base)]. repeat split; try discriminate.
    + constructor; [apply digit_char_visible, Hd | constructor].
    + unfold zlen. simpl. lia.
    + simpl. rewrite char_digit_char by exact Hd. f_equal.
      rewrite Z.mod_small; [lia|]. apply Z.div_small_iff in E; lia.
  - assert (Hq : 0 <= num / base < base ^ Z.of_nat fuel).
    { rewrite Nat2Z.inj_succ, Z.pow_succ_r in Hn by lia. split.
      - apply Z.div_pos; lia.
      - apply Z.div_lt_upper_bound; lia. }
    destruct fuel as [|fuel'].
    { change (base ^ Z.of_nat 0) with 1 in Hq. lia. }
    destruct (IH (num / base) Hq) as (ds & Eds & Hne & Hv & Hl & Hval); [lia|].
    rewrite Eds. exists (digit_char (num mod base) :: ds). repeat split; try discriminate.
    + constructor; [apply digit_char_visible, Hd | exact Hv].
    + unfold zlen in *. simpl length. lia.
    + simpl rev. rewrite digits_value_app, Hval. simpl.
      rewrite char_digit_char by exact Hd. f_equal.
      pose proof (Z.div_mod num base). lia.
Qed.

Lemma visible_rev ds : visible ds -> visible (rev ds).
Proof. apply Forall_rev. Qed.

Lemma parse_int_visible base t : t <> [] -> visible t -> parse_int base t = digits_value base 0 t.
Proof.
  intros Hne Hv. destruct t as [|c t]; [contradiction|]. inversion Hv as [|? ? [H1 H2] _]; subst.
  simpl. replace (c =? 32) with false by lia. replace (c =? 45) with false by lia. reflexivity.
Qed.

Lemma parse_int_blanks base n t : parse_int base (replicate n 32 ++ t) = parse_int base t.
Proof. induction n; simpl; auto. Qed.

(** The printed number without its padding. *)
Lemma int_text_body n base sign :
  (base = 10 \/ base = 16) -> - 2 ^ 31 <= n < 2 ^ 31 ->
  exists ds, int_digits 16 (if sign && (n <? 0) then u32 (- n) else u32 n) base = Some ds /\
    ds <> [] /\ visible ds /\
    digits_value base 0 (rev ds) = Some (if sign && (n <? 0) then - n else u32 n).
Proof.
  intros Hb Hn. set (num := if sign && (n <? 0) then u32 (- n) else u32 n).
  assert (Hr : 0 <= num < 2 ^ 32) by (unfold num; destruct (sign && (n <? 0)); apply u32_range).
  destruct (int_digits_spec base ltac:(lia) 16 num) as (ds & E & Hne & Hv & _ & Hval); [| lia |].
  { split; [lia|]. destruct Hb; subst base; simpl Z.of_nat; lia. }
  exists ds. repeat split; auto. rewrite Hval. f_equal. unfold num.
  destruct (sign && (n <? 0)) eqn:E'; [|reflexivity]. tests. apply u32_small. lia.
Qed.

(** printing a 32-bit integer with [sprint_int] (signed or unsigned decimal,
    unsigned hexadecimal, any field width) writes at [buffer] a text that reads
    back as the same number, and returns the number of bytes written, which is
    at least the requested width. *)
Theorem sprint_int_roundtrip (m : mem) (buffer n width base : Z) (sign : bool)
  (Hb : base = 10 \/ (base = 16 /\ sign = false)) (Hn : - 2 ^ 31 <= n < 2 ^ 31) :
  exists t, sprint_int m buffer n width base sign = Some (zlen t, put_bytes m buffer t) /\
    parse_int base t = Some (if sign then n else u32 n) /\ width <= zlen t.
Proof.
  destruct (int_text_body n base sign) as (ds & E & Hne & Hv & Hval); [tauto | exact Hn |].
  unfold sprint_int, int_text. rewrite E.
  replace (base <=? 0) with false by (destruct Hb as [->|[-> _]]; reflexivity).
  eexists. split; [reflexivity|]. split.
  - set (pad := replicate _ _).
    assert (Hne' : rev ds <> []) by (intros H; apply (f_equal (@rev Z)) in H; rewrite rev_involutive in H; auto).
    destruct Hb as [-> | [-> ->]].
    + subst pad. simpl (10 =? 16). cbn iota. rewrite parse_int_blanks.
      destruct (sign && (n <? 0)) eqn:Es.
      * rewrite rev_app_distr. simpl. rewrite Hval. simpl. tests. destruct sign; [f_equal; lia | discriminate].
      * rewrite parse_int_visible, Hval by (auto using visible_rev). f_equal.
        destruct sign; simpl in Es; tests; [apply u32_small; lia | reflexivity].
    + subst pad. simpl. rewrite parse_int_visible.
      * rewrite digits_value_app, digits_value_zeros. exact Hval.
      * intros H. apply app_nil in H as [_ H]. auto.
      * apply Forall_app. split; [apply Forall_replicate; lia | apply visible_rev, Hv].
  - unfold zlen. rewrite length_app, length_replicate, length_rev.
    destruct (width <? _) eqn:Ew; tests; lia.
Qed.

(** *** Formatting *)

Lemma vsprintf_loop_literal buffer fmt : forall s fuel m i total ap,
  cstr m (fmt + i) s -> Forall (fun c => c <> 37) s -> (length s < fuel)%nat ->
  (buffer + total + zlen s <= fmt + i \/ fmt + i + zlen s < buffer + total) ->
  exists m', vsprintf_loop fuel m buffer fmt i total ap = Some (total + zlen s, m') /\
    forall x, m' x = put_bytes m (buffer + total) s x.
Proof.
  unfold zlen. induction s as [|c s IH]; intros [|fuel] m i total ap Hs Hp Hf Hd; simpl in Hf; try lia.
  - simpl in *. rewrite Hs. simpl. eexists; split; [f_equal; f_equal; lia | reflexivity].
  - simpl in Hs. destruct Hs as (Ec & Hc & Hs). inversion Hp; subst.
    cbn [vsprintf_loop]. replace (m (fmt + i) =? 0) with false by lia.
    replace (m (fmt + i) =? 37) with false by lia. cbn [negb].
    cbn [length] in Hd.
    destruct (IH fuel (upd m (buffer + total) (m (fmt + i))) (i + 1) (total + 1) ap) as (m' & E & Hm').
    + replace (fmt + (i + 1)) with (fmt + i + 1) by lia.
      apply cstr_upd_frame; [exact Hs | unfold zlen; lia].
    + assumption.
    + lia.
    + lia.
    + rewrite E. eexists; split; [f_equal; f_equal; cbn [length]; lia|].
      intros x. rewrite Hm'. cbn [put_bytes]. f_equal. lia.
Qed.

(** a format string without conversions is copied unchanged: [vsprintf]
    terminates, returns its length and leaves exactly its characters in the
    buffer (the buffer must not overlap the format). *)
Theorem vsprintf_literal (m : mem) (buffer fmt : Z) (c : Z) (s : list Z) (ap : list Z) (fuel : nat)
  (Hs : cstr m fmt (c :: s)) (Hp : Forall (fun x => x <> 37) (c :: s)) (Hnull : fmt <> NULL)
  (Hf : (length (c :: s) < fuel)%nat)
  (Hd : buffer + zlen (c :: s) <= fmt \/ fmt + zlen (c :: s) < buffer) :
  exists m', vsprintf fuel m buffer fmt ap = Some (zlen (c :: s), m') /\
    forall x, m' x = put_bytes m buffer (c :: s) x.
Proof.
  unfold vsprintf. replace (fmt =? NULL) with false by lia.
  assert (Hs0 : cstr (upd m buffer 0) (fmt + 0) (c :: s)).
  { rewrite Z.add_0_r. apply cstr_upd_frame; [exact Hs | lia]. }
  destruct (vsprintf_loop_literal buffer fmt (c :: s) fuel (upd m buffer 0) 0 0 ap Hs0 Hp Hf) as (m' & E & Hm').
  { lia. }
  exists m'. split; [exact E|]. intros x. rewrite Hm', Z.add_0_r. cbn [put_bytes].
  destruct (Z_lt_le_dec x (buffer + 1)); [|destruct (Z_lt_le_dec x (buffer + 1 + zlen s))].
  - rewrite !put_bytes_frame by lia. unfold upd. destruct (x =? buffer); reflexivity.
  - assert (Hi : exists b, s !! Z.to_nat (x - (buffer + 1)) = Some b)
      by (apply lookup_lt_is_Some_2; unfold zlen in *; lia).
    destruct Hi as [b Hi]. replace x with (buffer + 1 + Z.of_nat (Z.to_nat (x - (buffer + 1)))) by lia.
    rewrite !(put_bytes_at s _ _ _ b Hi). reflexivity.
  - rewrite !put_bytes_frame by lia. rewrite !upd_ne by lia. reflexivity.
Qed.

(** ** Witnesses *)

(** Two strings at 100 and 200 in an otherwise zero memory. *)
Definition demo_mem : mem := put_bytes (put_bytes (fun _ => 0) 100 [104; 105; 33]) 200 [104; 105].

Lemma demo_mem_bytes : byte_mem demo_mem.
Proof.
  apply byte_mem_put; [apply byte_mem_put|]; [intros a; lia | |]; repeat constructor; lia.
Qed.

Lemma memmov_correct_witness :
  snd (memmov demo_mem 101 100 3) 103 = 33 /\ snd (memmov demo_mem 101 100 3) 104 = 0.
Proof.
  split.
  - rewrite (proj2 (memmov_correct demo_mem 101 100 3 103 ltac:(lia))). vm_compute. reflexivity.
  - rewrite (proj2 (memmov_correct demo_mem 101 100 3 104 ltac:(lia))). vm_compute. reflexivity.
Defined.

Lemma strcmp_strncmp_correct_witness :
  (exists r, strcmp 8 demo_mem 100 200 = Some r /\ (r = 0 <-> [104; 105; 33] = [104; 105])) /\
  (strncmp demo_mem 100 200 2 = 0 <-> [104; 105] = [104; 105]).
Proof.
  apply (strcmp_strncmp_correct demo_mem [104; 105; 33] [104; 105] 100 200 2 8).
  - apply demo_mem_bytes.
  - vm_compute. repeat split; lia.
  - vm_compute. repeat split; lia.
  - lia.
  - simpl. lia.
Defined.

Lemma sprint_int_roundtrip_witness :
  exists t, sprint_int demo_mem 300 (-42) 6 10 true = Some (zlen t, put_bytes demo_mem 300 t) /\
    parse_int 10 t = Some (-42) /\ 6 <= zlen t.
Proof. apply (sprint_int_roundtrip demo_mem 300 (-42) 6 10 true); [left; reflexivity | lia]. Defined.

Lemma vsprintf_literal_witness :
  exists m', vsprintf 9 demo_mem 300 100 [] = Some (3, m') /\
    forall x, m' x = put_bytes demo_mem 300 [104; 105; 33] x.
Proof.
  apply (vsprintf_literal demo_mem 300 100 104 [105; 33] [] 9).
  - vm_compute. repeat split; lia.
  - repeat constructor; lia.
  - vm_compute. discriminate.
  - simpl. lia.
  - right. vm_compute. reflexivity.
Defined.
