(* ===== verification/Interfaces.v ===== *)
(** * Interfaces between components

    What one component of the kernel promises to another, as type classes: the
    page allocator to the object pools, the object pools to the lists.  Clients
    are verified against the class; the files that model the implementations
    build the instances. *)
From Stdlib Require Import ZArith ZifyBool Lia.
From stdpp Require Import base option list gmap.
From S2P Require Import Prelude.

Definition PAGE_SIZE : Z := 4096.

(** [os()->get_mm()->alloc_pages(0)] (mm.cc): a page address, or [NULL].
    [page_inv g A] says that the allocator state [g] is consistent with the
    pages [A] being in use. *)
Class PageSource (G : Type) : Type := {
  alloc_page : G -> Z * G;
  page_inv : G -> gset Z -> Prop;
  alloc_page_spec : forall g A p g',
    page_inv g A -> alloc_page g = (p, g') ->
    (p = NULL /\ page_inv g' A) \/
    (0 < p /\ p mod PAGE_SIZE = 0 /\ p + PAGE_SIZE <= 2 ^ 32 /\ (p ∉ A) /\ page_inv g' ({[p]} ∪ A))
}.

(** [object_pool_t] (pool.h): fixed-size objects.  [pool_inv p A] says that the
    pool is consistent with the objects [A] being in use. *)
Class ObjectPool (P : Type) : Type := {
  pool_alloc : P -> outcome (Z * P);
  pool_free : P -> Z -> P;
  pool_inv : P -> gset Z -> Prop;
  pool_alloc_spec : forall p A x p',
    pool_inv p A -> pool_alloc p = Done (x, p') ->
    0 < x /\ (x ∉ A) /\ pool_inv p' ({[x]} ∪ A);
  pool_free_spec : forall p A x,
    pool_inv p A -> x ∈ A -> pool_inv (pool_free p x) (A ∖ {[x]})
}.
