(* ===== verification/Pool.v ===== *)
(** * Object pools (src/src/pool.cc, pool.h)

    A pool hands out objects of one size, carved out of pages.  A free object
    holds the address of the next free object in its first word: [m_links] maps
    each free object to that word.  The spin lock makes each operation one
    atomic step. *)
From Stdlib Require Import ZArith ZifyBool Lia.
From stdpp Require Import base option list gmap.
From S2P Require Import Prelude Interfaces.

Definition SMALL_POOL_SIZE : Z := 64.

Record object_pool := mk_object_pool {
  m_obj_size : Z;
  m_available : Z;
  m_free_list : Z;
  m_links : gmap Z Z
}.

Definition pool_init (obj_size : Z) : outcome object_pool :=
  if obj_size =? 0 then Panic
  else Done (mk_object_pool obj_size 0 NULL ∅).

Definition free_object_nolock (p : object_pool) (o : Z) : object_pool :=
  let next := if m_free_list p =? NULL then NULL else m_free_list p in
  mk_object_pool (m_obj_size p) (u32 (m_available p + 1)) o (<[o := next]> (m_links p)).

Definition free_object (p : object_pool) (o : Z) : object_pool := free_object_nolock p o.

(** [while (mem + m_obj_size <= end) { free_object_nolock(mem); mem += m_obj_size; }] *)
Fixpoint carve (fuel : nat) (p : object_pool) (mem end_ : Z) : object_pool :=
  match fuel with
  | O => p
  | S k => if mem + m_obj_size p <=? end_
           then carve k (free_object_nolock p mem) (mem + m_obj_size p) end_
           else p
  end.

Definition get_available (p : object_pool) : Z := m_available p.

Section Alloc.
Context {G : Type} `{PageSource G}.

(** With no page left [alloc_pages] returns [NULL] and the carving loop writes
    through it; with an object larger than a page the free list stays [NULL]
    and the head is read through it.  Both are faults.  A page holds at most
    [PAGE_SIZE] objects, so that much fuel is enough.  [mem + PAGE_SIZE] does not
    wrap: the pages of [mm_t] end below the windows of the interrupt controllers. *)
Definition alloc_from_pool (p : object_pool) (g : G) : outcome (Z * object_pool * G) :=
  let! pg := (if m_free_list p =? NULL
              then let '(mem, g') := alloc_page g in
                   if mem =? NULL then Fault
                   else Done (carve (Z.to_nat PAGE_SIZE + 1) p mem (mem + PAGE_SIZE), g')
              else Done (p, g)) in
  let '(p1, g1) := pg in
  let obj := m_free_list p1 in
  let! next := deref (m_links p1 !! obj) in
  Done (obj, mk_object_pool (m_obj_size p1) (u32 (m_available p1 - 1)) next
               (delete obj (m_links p1)), g1).

End Alloc.

(** ** Invariant *)

(** The free list as a sequence: [fl] is what one finds following the links. *)
Fixpoint chain (links : gmap Z Z) (head : Z) (fl : list Z) : Prop :=
  match fl with
  | [] => head = NULL
  | o :: r => head = o /\ 0 < o /\ exists n, links !! o = Some n /\ chain links n r
  end.

(** [x] is one of the slots of a page of [pages]. *)
Definition slot_of (size : Z) (pages : gset Z) (x : Z) : Prop :=
  exists pg k, pg ∈ pages /\ x = pg + k * size /\ 0 <= k /\ (k + 1) * size <= PAGE_SIZE.

Record pool_ok (p : object_pool) (fl : list Z) (pages A : gset Z) : Prop := {
  ok_size : 4 <= m_obj_size p;
  ok_chain : chain (m_links p) (m_free_list p) fl;
  ok_nodup : NoDup fl;
  ok_avail : m_available p = u32 (zlen fl);
  ok_pages : forall pg, pg ∈ pages -> 0 < pg /\ pg mod PAGE_SIZE = 0;
  ok_slots : forall x, x ∈ A \/ x ∈ fl -> slot_of (m_obj_size p) pages x;
  ok_sep : forall x, x ∈ A -> x ∉ fl
}.

(** ** Lemmas *)

Lemma chain_insert links o v head fl :
  o ∉ fl -> chain links head fl -> chain (<[o := v]> links) head fl.
Proof.
  revert head. induction fl as [|x fl IH]; intros head Hn H; simpl in *; [exact H|].
  destruct H as (-> & Hx & n & Hl & H). repeat split; auto.
  exists n. rewrite lookup_insert_ne by set_solver. split; [exact Hl | apply IH; set_solver].
Qed.

Lemma chain_delete links o head fl :
  o ∉ fl -> chain links head fl -> chain (delete o links) head fl.
Proof.
  revert head. induction fl as [|x fl IH]; intros head Hn H; simpl in *; [exact H|].
  destruct H as (-> & Hx & n & Hl & H). repeat split; auto.
  exists n. rewrite lookup_delete_ne by set_solver. split; [exact Hl | apply IH; set_solver].
Qed.

Lemma chain_pos links head fl x : chain links head fl -> x ∈ fl -> 0 < x.
Proof.
  revert head. induction fl as [|y fl IH]; intros head H Hx; [set_solver|].
  destruct H as (_ & Hy & n & _ & H). apply elem_of_cons in Hx as [->|Hx]; eauto.
Qed.

Lemma chain_head_null links head fl :
  chain links head fl -> (head = NULL <-> fl = []).
Proof.
  destruct fl; simpl; [intuition|]. intros (-> & H & _). unfold NULL. split; [lia | discriminate].
Qed.

(** Slots of distinct addresses do not overlap. *)
Lemma slots_apart size pages x y :
  4 <= size -> (forall pg, pg ∈ pages -> 0 < pg /\ pg mod PAGE_SIZE = 0) ->
  slot_of size pages x -> slot_of size pages y -> x <> y ->
  x + size <= y \/ y + size <= x.
Proof.
  unfold PAGE_SIZE.
  intros Hs Hp (p1 & k1 & Hp1 & -> & ? & ?) (p2 & k2 & Hp2 & -> & ? & ?) Hne.
  destruct (Hp _ Hp1) as [_ Ha1], (Hp _ Hp2) as [_ Ha2]. unfold PAGE_SIZE in *.
  destruct (Z.eq_dec p1 p2) as [->|Hpp].
  - destruct (Z_lt_le_dec k1 k2); [left; nia|]. destruct (Z.eq_dec k1 k2); [subst; lia | right; nia].
  - assert (p1 + 4096 <= p2 \/ p2 + 4096 <= p1) by divlia. nia.
Qed.

Lemma free_object_ok p fl pages A x :
  pool_ok p fl pages A -> x ∈ A -> pool_ok (free_object p x) (x :: fl) pages (A ∖ {[x]}).
Proof.
  intros [Hs Hc Hn Ha Hp Hsl Hsep] Hx.
  assert (Hnin : x ∉ fl) by auto.
  assert (Hpos : 0 < x).
  { destruct (Hsl x (or_introl Hx)) as (pg & k & Hpg & -> & ? & ?). destruct (Hp _ Hpg). nia. }
  unfold free_object, free_object_nolock. constructor; simpl; auto.
  - repeat split; auto. eexists. rewrite lookup_insert_eq. split; [reflexivity|].
    replace (if m_free_list p =? NULL then NULL else m_free_list p) with (m_free_list p)
      by (destruct (m_free_list p =? NULL) eqn:?; tests; auto).
    apply chain_insert; auto.
  - constructor; auto.
  - rewrite Ha. unfold zlen. simpl length. unfold u32. rewrite Zplus_mod_idemp_l. f_equal. lia.
  - intros y Hy. apply Hsl. set_solver.
  - intros y Hy. set_solver.
Qed.

(** The carving loop, started at slot [k] of a page none of whose remaining
    slots is known to the pool. *)
Lemma carve_ok pages A pg : forall fuel p fl k,
  pool_ok p fl pages A -> pg ∈ pages -> 0 <= k ->
  (forall j, k <= j -> (j + 1) * m_obj_size p <= PAGE_SIZE ->
     (pg + j * m_obj_size p ∉ fl) /\ (pg + j * m_obj_size p ∉ A)) ->
  exists fl', m_obj_size (carve fuel p (pg + k * m_obj_size p) (pg + PAGE_SIZE)) = m_obj_size p /\
    pool_ok (carve fuel p (pg + k * m_obj_size p) (pg + PAGE_SIZE)) fl' pages A /\
    (fl <> [] -> fl' <> []) /\
    ((0 < fuel)%nat -> (k + 1) * m_obj_size p <= PAGE_SIZE -> fl' <> []).
Proof.
  induction fuel as [|fuel IH]; intros p fl k Hok Hpg Hk Hfresh; cbn [carve].
  { exists fl. split_and!; auto. intros Hc. exfalso. lia. }
  destruct (_ <=? _) eqn:E; tests.
  2:{ exists fl. split_and!; auto. intros _ Hc. exfalso. lia. }
  set (x := pg + k * m_obj_size p) in *.
  assert (Hsz : (k + 1) * m_obj_size p <= PAGE_SIZE) by (unfold x in *; nia).
  destruct (Hfresh k ltac:(lia) Hsz) as [Hx1 Hx2]. fold x in Hx1, Hx2.
  assert (Hok' : pool_ok (free_object_nolock p x) (x :: fl) pages A).
  { assert (HA : pool_ok p fl pages ({[x]} ∪ A)).
    { destruct Hok as [Hs Hc Hn Ha Hp Hsl Hsep]. constructor; auto.
      - intros y [Hy|Hy]; [|auto]. apply elem_of_union in Hy as [Hy|Hy]; [|auto].
        apply elem_of_singleton in Hy as ->. exists pg, k. auto.
      - intros y Hy. apply elem_of_union in Hy as [Hy|Hy]; [|auto].
        apply elem_of_singleton in Hy as ->. exact Hx1. }
    apply free_object_ok with (x := x) in HA; [|set_solver].
    replace (({[x]} ∪ A) ∖ {[x]}) with A in HA by set_solver. exact HA. }
  specialize (IH (free_object_nolock p x) (x :: fl) (k + 1) Hok' Hpg ltac:(lia)).
  simpl m_obj_size in IH.
  destruct IH as (fl' & Es & Hok2 & Hne & _).
  { intros j Hj Hj'. destruct (Hfresh j ltac:(lia) Hj') as [H1 H2]. split; [|exact H2].
    apply not_elem_of_cons. split; [|exact H1]. unfold x. destruct Hok. nia. }
  replace (x + m_obj_size p) with (pg + (k + 1) * m_obj_size p) by (unfold x; lia).
  exists fl'. split_and!; auto; intros; apply Hne; discriminate.
Qed.

(** Taking the head of a non-empty free list. *)
Lemma pool_take_ok p o fl pages A :
  pool_ok p (o :: fl) pages A ->
  exists n, m_free_list p = o /\ m_links p !! o = Some n /\ 0 < o /\ o ∉ A /\
    pool_ok (mk_object_pool (m_obj_size p) (u32 (m_available p - 1)) n (delete o (m_links p)))
      fl pages ({[o]} ∪ A).
Proof.
  intros [Hs (Hh & Ho & n & Hl & Hc) Hn Ha Hp Hsl Hsep]. exists n.
  apply NoDup_cons in Hn as [Hnin Hn].
  assert (HoA : o ∉ A) by (intros HoA; apply (Hsep _ HoA); set_solver).
  repeat split; auto; simpl.
  - apply chain_delete; auto.
  - rewrite Ha. unfold zlen. simpl length. unfold u32. rewrite Zminus_mod_idemp_l. f_equal. lia.
  - destruct (Hp pg H); auto.
  - destruct (Hp pg H); auto.
  - intros x Hx. apply Hsl. set_solver.
  - intros x Hx. apply elem_of_union in Hx as [Hx|Hx]; [apply elem_of_singleton in Hx as ->; auto|].
    intros Hx'. apply (Hsep _ Hx). set_solver.
Qed.

Definition pool_state_ok {G} `{PageSource G} (p : object_pool) (g : G) (A : gset Z) : Prop :=
  exists fl pages, pool_ok p fl pages A /\ page_inv g pages.

Lemma pool_init_ok {G} `{PageSource G} (size : Z) (g : G) p :
  4 <= size -> page_inv g ∅ -> pool_init size = Done p -> pool_state_ok p g ∅.
Proof.
  intros Hs Hg. unfold pool_init. destruct (size =? 0) eqn:E; [discriminate|]. intros [= <-].
  exists [], ∅. split; [|exact Hg]. constructor; simpl; auto.
  - constructor.
  - intros pg Hpg. set_solver.
  - intros x [Hx|Hx]; set_solver.
  - set_solver.
Qed.

(** A fresh page extends the free list. *)
Lemma refill_ok {G} `{PageSource G} p (g g' : G) pages A mem :
  pool_ok p [] pages A -> page_inv g pages -> alloc_page g = (mem, g') -> mem <> NULL ->
  exists fl, pool_ok (carve (Z.to_nat PAGE_SIZE + 1) p mem (mem + PAGE_SIZE)) fl ({[mem]} ∪ pages) A /\
    page_inv g' ({[mem]} ∪ pages) /\
    m_obj_size (carve (Z.to_nat PAGE_SIZE + 1) p mem (mem + PAGE_SIZE)) = m_obj_size p /\
    (m_obj_size p <= PAGE_SIZE -> fl <> []).
Proof.
  intros Hok Hg Ea Hm. destruct (alloc_page_spec _ _ _ _ Hg Ea) as [[-> _]|(H1 & H2 & _ & H4 & H5)];
    [contradiction|].
  assert (Hok' : pool_ok p [] ({[mem]} ∪ pages) A).
  { destruct Hok as [Hs Hc Hn Ha Hp Hsl Hsep]. constructor; auto.
    - intros pg Hpg. apply elem_of_union in Hpg as [Hpg|Hpg]; [|auto].
      apply elem_of_singleton in Hpg as ->. auto.
    - intros x Hx. destruct (Hsl x Hx) as (pg & k & Hpg & ?). exists pg, k. set_solver. }
  destruct (carve_ok ({[mem]} ∪ pages) A mem (Z.to_nat PAGE_SIZE + 1) p [] 0 Hok')
    as (fl & Es & Hok2 & _ & Hne); [set_solver | lia | |].
  - intros j Hj Hj'. split; [apply not_elem_of_nil|]. intros HA.
    destruct (ok_slots _ _ _ _ Hok _ (or_introl HA)) as (pg & k & Hpg & E & Hk & Hk2).
    destruct (ok_pages _ _ _ _ Hok _ Hpg) as [Hp1 Hp2]. pose proof (ok_size _ _ _ _ Hok) as Hs.
    destruct (Z.eq_dec pg mem) as [->|Hne]; [contradiction|].
    unfold PAGE_SIZE in *.
    assert (mem + 4096 <= pg \/ pg + 4096 <= mem) by divlia. clear H2 Hp2. nia.
  - rewrite Z.mul_0_l, Z.add_0_r in *. exists fl. split_and!; auto.
    intros Hsz. apply Hne; lia.
Qed.

Lemma alloc_from_pool_total {G} `{PageSource G} (p : object_pool) (g : G) (A : gset Z)
  (Hok : pool_state_ok p g A) (Hsize : m_obj_size p <= PAGE_SIZE)
  (Hmem : m_free_list p <> NULL \/ fst (alloc_page g) <> NULL) :
  exists x p' g', alloc_from_pool p g = Done (x, p', g') /\
    0 < x /\ (x ∉ A) /\
    (forall y, y ∈ A -> x + m_obj_size p <= y \/ y + m_obj_size p <= x) /\
    m_obj_size p' = m_obj_size p /\ pool_state_ok p' g' ({[x]} ∪ A).
Proof.
  destruct Hok as (fl & pages & Hok & Hg). unfold alloc_from_pool.
  assert (Hstep : exists p1 g1 o fl1 pages1,
    (if m_free_list p =? NULL
     then let '(mem, g') := alloc_page g in
          if mem =? NULL then Fault
          else Done (carve (Z.to_nat PAGE_SIZE + 1) p mem (mem + PAGE_SIZE), g')
     else Done (p, g)) = Done (p1, g1) /\ m_obj_size p1 = m_obj_size p /\
    pool_ok p1 (o :: fl1) pages1 A /\ page_inv g1 pages1).
  { pose proof (chain_head_null _ _ _ (ok_chain _ _ _ _ Hok)) as Hnull.
    destruct (m_free_list p =? NULL) eqn:E; tests.
    - apply Hnull in E as ->. destruct (alloc_page g) as [mem g'] eqn:Ea. simpl in Hmem.
      destruct (mem =? NULL) eqn:Em; tests; [tauto|].
      destruct (refill_ok p g g' pages A mem Hok Hg Ea Em) as (fl' & Hok' & Hg' & Es & Hne).
      destruct fl' as [|o fl']; [exfalso; apply Hne; auto|].
      do 5 eexists. split_and!; eauto.
    - destruct fl as [|o fl]; [tauto|]. do 5 eexists. split_and!; eauto. }
  destruct Hstep as (p1 & g1 & o & fl1 & pages1 & -> & Es & Hok1 & Hg1). simpl.
  destruct (pool_take_ok p1 o fl1 pages1 A Hok1) as (n & -> & -> & Ho & HoA & Hok2). simpl.
  do 3 eexists. split; [reflexivity|]. split_and!; auto; [|exists fl1, pages1; auto].
  intros y Hy. rewrite <- Es. apply (slots_apart _ pages1).
  - apply Hok1.
  - apply Hok1.
  - apply Hok1. right. set_solver.
  - apply Hok1. auto.
  - intros ->. contradiction.
Qed.

Lemma alloc_from_pool_sound {G} `{PageSource G} p (g : G) A x p' g' :
  pool_state_ok p g A -> m_obj_size p <= PAGE_SIZE ->
  alloc_from_pool p g = Done (x, p', g') ->
  0 < x /\ (x ∉ A) /\ m_obj_size p' = m_obj_size p /\ pool_state_ok p' g' ({[x]} ∪ A).
Proof.
  intros Hok Hs E.
  assert (Hmem : m_free_list p <> NULL \/ fst (alloc_page g) <> NULL).
  { unfold alloc_from_pool in E. destruct (m_free_list p =? NULL) eqn:E1; tests; [|auto].
    destruct (alloc_page g) as [mem g0]. destruct (mem =? NULL) eqn:E2; tests; [discriminate|auto]. }
  destruct (alloc_from_pool_total p g A Hok Hs Hmem) as (x1 & p1 & g1 & E1 & H1 & H2 & _ & H3 & H4).
  rewrite E in E1. injection E1 as -> -> ->. auto.
Qed.

(** C1: object allocation is correct: from a consistent pool, if the free list is
    not empty or the page allocator still has a page, [alloc_from_pool] returns
    an object that is not in use, lies in one of the pool's pages, does not
    overlap any object in use, and leaves the pool consistent. *)
Theorem alloc_from_pool_correct {G} `{PageSource G} (p : object_pool) (g : G) (A : gset Z)
  (Hok : pool_state_ok p g A) (Hsize : m_obj_size p <= PAGE_SIZE)
  (Hmem : m_free_list p <> NULL \/ fst (alloc_page g) <> NULL) :
  exists x p' g', alloc_from_pool p g = Done (x, p', g') /\
    0 < x /\ (x ∉ A) /\
    (forall y, y ∈ A -> x + m_obj_size p <= y \/ y + m_obj_size p <= x) /\
    m_obj_size p' = m_obj_size p /\ pool_state_ok p' g' ({[x]} ∪ A).
Proof. exact (alloc_from_pool_total p g A Hok Hsize Hmem). Qed.

(** The pool discharges the interface the lists use. *)
#[export] Program Instance pool_object_pool {G} `{PageSource G} : ObjectPool (object_pool * G) := {
  pool_alloc := fun pg => let! r := alloc_from_pool (fst pg) (snd pg) in
                          let '(x, p', g') := r in Done (x, (p', g'));
  pool_free := fun pg x => (free_object (fst pg) x, snd pg);
  pool_inv := fun pg A => pool_state_ok (fst pg) (snd pg) A /\ m_obj_size (fst pg) <= PAGE_SIZE
}.
Next Obligation.
  intros G HG [p g] A x [p' g'] [Hok Hs] E. simpl in *.
  destruct (alloc_from_pool p g) as [[[x1 p1] g1]| | |] eqn:E1; simpl in E; try discriminate.
  injection E as -> -> ->.
  destruct (alloc_from_pool_sound _ _ _ _ _ _ Hok Hs E1) as (? & ? & Es & ?).
  rewrite Es. auto.
Qed.
Next Obligation.
  intros G HG [p g] A x [(fl & pages & Hok & Hg) Hs] Hx. simpl in *. split; [|exact Hs].
  exists (x :: fl), pages. split; [apply free_object_ok; auto | exact Hg].
Qed.

(** ** Witness: a page source that hands out sixteen consecutive pages *)

Definition bump_alloc (n : Z) : Z * Z :=
  if n <? 16 then ((n + 1) * PAGE_SIZE, n + 1) else (NULL, n).

#[export] Program Instance bump_source : PageSource Z := {
  alloc_page := bump_alloc;
  page_inv := fun n A => 0 <= n /\ forall p, p ∈ A -> p <= n * PAGE_SIZE
}.
Next Obligation.
  intros n A p n' [Hn HA]. unfold bump_alloc, PAGE_SIZE in *. destruct (n <? 16) eqn:E; tests.
  - intros [= <- <-]. right. split_and!; try lia.
    + apply Z.mod_mul. lia.
    + intros Hin. apply HA in Hin. lia.
    + intros q Hq. apply elem_of_union in Hq as [Hq|Hq].
      * apply elem_of_singleton in Hq as ->. lia.
      * apply HA in Hq. lia.
  - intros [= <- <-]. left. auto.
Qed.

Lemma alloc_from_pool_correct_witness :
  exists x p' g', alloc_from_pool (mk_object_pool 64 0 NULL ∅) 0 = Done (x, p', g') /\
    0 < x /\ (x ∉ (∅ : gset Z)) /\
    (forall y, y ∈ (∅ : gset Z) -> x + 64 <= y \/ y + 64 <= x) /\
    m_obj_size p' = 64 /\ pool_state_ok p' g' ({[x]} ∪ ∅).
Proof.
  apply (alloc_from_pool_correct (mk_object_pool 64 0 NULL ∅) 0 ∅).
  - apply (pool_init_ok 64 0); [lia | | reflexivity].
    split; [lia|]. intros p Hp. apply not_elem_of_empty in Hp. destruct Hp.
  - vm_compute. discriminate.
  - right. vm_compute. discriminate.
Defined.
