(* ===== verification/ListT.v ===== *)
(** * Intrusive-node doubly linked lists (src/src/list.h)

    [list_t<T>] owns a chain of nodes reached through [m_head] and [m_tail]; the
    nodes come from an object pool.  A pointer is an address, [m_nodes] is the
    part of memory that holds the nodes, and an access to a node that is not
    there (a freed one, or [NULL]) is a [Fault].

    The refinement theorem relates this pointer program to a plain sequence.
    The representation predicate leaves the [m_prev] field of the first node
    unconstrained, because [erase] leaves it dangling when it removes the head. *)
From Stdlib Require Import ZArith ZifyBool Lia.
From stdpp Require Import base option list gmap.
From S2P Require Import Prelude Interfaces Pool.

Record list_node (T : Type) := mk_node {
  m_data : T;
  m_next : Z;
  m_prev : Z
}.
Arguments mk_node {T}.
Arguments m_data {T}.
Arguments m_next {T}.
Arguments m_prev {T}.

Record list_t (T P : Type) := mk_list {
  m_head : Z;
  m_tail : Z;
  m_size : Z;
  m_pool : P;
  m_nodes : gmap Z (list_node T)
}.
Arguments mk_list {T P}.
Arguments m_head {T P}.
Arguments m_tail {T P}.
Arguments m_size {T P}.
Arguments m_pool {T P}.
Arguments m_nodes {T P}.

Section ListOps.
Context {T P : Type} `{EqDecision T} `{ObjectPool P}.
Implicit Types (l : list_t T P) (data : T).

(** Field access and assignment through a node pointer. *)
Definition get_node l (p : Z) : outcome (list_node T) := deref (m_nodes l !! p).

Definition set_nodes l (h : gmap Z (list_node T)) : list_t T P :=
  mk_list (m_head l) (m_tail l) (m_size l) (m_pool l) h.

Definition set_ends l (head tail : Z) : list_t T P :=
  mk_list head tail (m_size l) (m_pool l) (m_nodes l).

Definition set_size l (n : Z) : list_t T P :=
  mk_list (m_head l) (m_tail l) (u32 n) (m_pool l) (m_nodes l).

Definition set_next l (p v : Z) : outcome (list_t T P) :=
  let! nd := get_node l p in
  Done (set_nodes l (<[p := mk_node (m_data nd) v (m_prev nd)]> (m_nodes l))).

Definition set_prev l (p v : Z) : outcome (list_t T P) :=
  let! nd := get_node l p in
  Done (set_nodes l (<[p := mk_node (m_data nd) (m_next nd) v]> (m_nodes l))).

(** [list_t::init]: the pool is the one chosen by the size of a node. *)
Definition list_init (pool : P) : list_t T P := mk_list NULL NULL 0 pool ∅.

(** [alloc_node] also runs [node->init(data)]. *)
Definition alloc_node l data : outcome (Z * list_t T P) :=
  let! r := pool_alloc (m_pool l) in
  let '(node, pool') := r in
  Done (node, mk_list (m_head l) (m_tail l) (m_size l) pool'
                (<[node := mk_node data NULL NULL]> (m_nodes l))).

Definition free_node l (node : Z) : list_t T P :=
  mk_list (m_head l) (m_tail l) (m_size l) (pool_free (m_pool l) node) (delete node (m_nodes l)).

Definition empty l : bool := m_size l =? 0.

Definition size l : Z := m_size l.

Definition push_front l data : outcome (bool * list_t T P) :=
  let! r := alloc_node l data in
  let '(node, l) := r in
  if node =? NULL then Done (false, l)
  else
    let! l := (if (m_head l =? NULL) && (m_tail l =? NULL) then Done (set_ends l node node)
               else let! l := set_next l node (m_head l) in
                    let! l := set_prev l (m_head l) node in
                    Done (set_ends l node (m_tail l))) in
    Done (true, set_size l (m_size l + 1)).

Definition push_back l data : outcome (bool * list_t T P) :=
  let! r := alloc_node l data in
  let '(node, l) := r in
  if node =? NULL then Done (false, l)
  else
    let! l := (if (m_head l =? NULL) && (m_tail l =? NULL) then Done (set_ends l node node)
               else let! l := set_next l (m_tail l) node in
                    let! l := set_prev l node (m_tail l) in
                    Done (set_ends l (m_head l) node)) in
    Done (true, set_size l (m_size l + 1)).

Definition pop_back l : outcome (bool * list_t T P) :=
  if m_size l =? 0 then Done (false, l)
  else
    let del := m_tail l in
    let l := set_size l (m_size l - 1) in
    let! l := (if m_size l =? 0 then Done (set_ends l NULL NULL)
               else let! nd := get_node l (m_tail l) in
                    let l := set_ends l (m_head l) (m_prev nd) in
                    set_next l (m_tail l) NULL) in
    Done (true, free_node l del).

Definition pop_front l : outcome (bool * list_t T P) :=
  if m_size l =? 0 then Done (false, l)
  else
    let del := m_head l in
    let l := set_size l (m_size l - 1) in
    let! l := (if m_size l =? 0 then Done (set_ends l NULL NULL)
               else let! nd := get_node l (m_head l) in
                    let l := set_ends l (m_next nd) (m_tail l) in
                    set_prev l (m_head l) NULL) in
    Done (true, free_node l del).

(** [insert] before the iterator [it]; the result is the new iterator. *)
Definition insert l (it : Z) data : outcome (Z * list_t T P) :=
  if it =? NULL then
    let! r := push_back l data in Done (m_tail (snd r), snd r)
  else
    let! itn := get_node l it in
    if m_prev itn =? NULL then
      let! r := push_front l data in Done (m_head (snd r), snd r)
    else
      let! r := alloc_node l data in
      let '(node, l) := r in
      if node =? NULL then Done (NULL, l)
      else
        let! itn := get_node l it in
        let! l := set_prev l node (m_prev itn) in
        let! l := set_next l node it in
        let! l := set_next l (m_prev itn) node in
        let! l := set_prev l it node in
        Done (node, set_size l (m_size l + 1)).

Definition erase l (it : Z) : outcome (Z * list_t T P) :=
  if m_size l =? 0 then Done (it, l)
  else
    let l := set_size l (m_size l - 1) in
    if m_size l =? 0 then Done (NULL, free_node (set_ends l NULL NULL) it)
    else if m_head l =? it then
      let! nd := get_node l (m_head l) in
      let l := set_ends l (m_next nd) (m_tail l) in
      Done (m_head l, free_node l it)
    else if m_tail l =? it then
      let! nd := get_node l (m_tail l) in
      let l := set_ends l (m_head l) (m_prev nd) in
      let! l := set_next l (m_tail l) NULL in
      Done (m_tail l, free_node l it)
    else
      let! nd := get_node l it in
      let! l := (if negb (m_prev nd =? NULL) then set_next l (m_prev nd) (m_next nd) else Done l) in
      let! nd := get_node l it in
      let! l := (if negb (m_next nd =? NULL) then set_prev l (m_next nd) (m_prev nd) else Done l) in
      let! nd := get_node l it in
      Done (m_next nd, free_node l it).

Definition begin_ l : Z := m_head l.
Definition end_ l : Z := NULL.

(** [while (it != end() && *it != data) it++;]: at most [m_size] steps in a
    well-formed list, so the number of nodes is enough fuel. *)
Fixpoint find_loop (fuel : nat) l (it : Z) data : outcome Z :=
  if it =? NULL then Done it
  else match fuel with
       | O => Fault
       | S k => let! nd := get_node l it in
                if decide (m_data nd = data) then Done it
                else find_loop k l (m_next nd) data
       end.

Definition find l data : outcome Z := find_loop (Datatypes.S (base.size (m_nodes l))) l (begin_ l) data.

(** [~list_t]: free every node. *)
Fixpoint destroy_loop (fuel : nat) l (p : Z) : outcome (list_t T P) :=
  if p =? NULL then Done l
  else match fuel with
       | O => Fault
       | S k => let! nd := get_node l p in
                destroy_loop k (free_node l p) (m_next nd)
       end.

Definition destroy l : outcome (list_t T P) :=
  let! l := destroy_loop (Datatypes.S (base.size (m_nodes l))) l (m_head l) in
  Done (set_size (set_ends l NULL NULL) 0).

(** [operator =]: an empty list over the pool of the other one (the nodes of every
    list of the kernel are small enough for the shared pools), then a [push_back]
    per node. *)
Fixpoint copy_loop (fuel : nat) (src dst : list_t T P) (p : Z) : outcome (list_t T P) :=
  if p =? NULL then Done dst
  else match fuel with
       | O => Fault
       | S k => let! nd := get_node src p in
                let! r := push_back dst (m_data nd) in
                copy_loop k src (snd r) (m_next nd)
       end.

Definition assign (src : list_t T P) : outcome (list_t T P) :=
  copy_loop (Datatypes.S (base.size (m_nodes src))) src (list_init (m_pool src)) (m_head src).

(** What the clients of the kernel do with a list ([wait_queue_t::remove],
    [timer_mgr_t::remove_timer], [release_process], ...): find, then erase if
    found. *)
Definition erase_found l data : outcome (list_t T P) :=
  let! it := find l data in
  if it =? end_ l then Done l
  else let! r := erase l it in Done (snd r).

End ListOps.

(** ** The abstract sequence and the operations on it *)

Inductive list_op (T : Type) :=
| PushFront (x : T)
| PushBack (x : T)
| PopFront
| PopBack
| EraseFound (x : T).
Arguments PushFront {T}.
Arguments PushBack {T}.
Arguments PopFront {T}.
Arguments PopBack {T}.
Arguments EraseFound {T}.

Fixpoint remove_first {T} `{EqDecision T} (x : T) (xs : list T) : list T :=
  match xs with
  | [] => []
  | y :: r => if decide (y = x) then r else y :: remove_first x r
  end.

Definition spec_op {T} `{EqDecision T} (op : list_op T) (xs : list T) : list T :=
  match op with
  | PushFront x => x :: xs
  | PushBack x => xs ++ [x]
  | PopFront => tail xs
  | PopBack => take (length xs - 1) xs
  | EraseFound x => remove_first x xs
  end.

Definition run_op {T P} `{EqDecision T} `{ObjectPool P} (l : list_t T P) (op : list_op T)
  : outcome (list_t T P) :=
  match op with
  | PushFront x => let! r := push_front l x in Done (snd r)
  | PushBack x => let! r := push_back l x in Done (snd r)
  | PopFront => let! r := pop_front l in Done (snd r)
  | PopBack => let! r := pop_back l in Done (snd r)
  | EraseFound x => erase_found l x
  end.

Fixpoint run_ops {T P} `{EqDecision T} `{ObjectPool P} (l : list_t T P) (ops : list (list_op T))
  : outcome (list_t T P) :=
  match ops with
  | [] => Done l
  | op :: r => let! l' := run_op l op in run_ops l' r
  end.

(** ** Representation *)

Section Rep.
Context {T P : Type} `{EqDecision T} `{ObjectPool P}.

Definition hd_ptr (s : list (Z * T)) (nxt : Z) : Z :=
  match s with [] => nxt | (p, _) :: _ => p end.

Definition last_ptr (prv : option Z) (s : list (Z * T)) : option Z :=
  match last s with Some (p, _) => Some p | None => prv end.

(** A run of nodes; the first [m_prev] is [prv] when that is given, the last
    [m_next] is [nxt]. *)
Fixpoint seg (h : gmap Z (list_node T)) (prv : option Z) (s : list (Z * T)) (nxt : Z) : Prop :=
  match s with
  | [] => True
  | (p, x) :: r =>
      exists nd, h !! p = Some nd /\ m_data nd = x /\ m_next nd = hd_ptr r nxt /\
        match prv with None => True | Some q => m_prev nd = q end /\
        seg h (Some p) r nxt
  end.

Record list_rep (l : list_t T P) (s : list (Z * T)) (A : gset Z) : Prop := {
  rep_nodup : NoDup (s.*1);
  rep_pos : forall p, p ∈ s.*1 -> 0 < p;
  rep_seg : seg (m_nodes l) None s NULL;
  rep_head : m_head l = hd_ptr s NULL;
  rep_tail : m_tail l = default NULL (last_ptr None s);
  rep_size : m_size l = zlen s;
  rep_bound : zlen s < 2 ^ 32;
  rep_dom : dom (m_nodes l) = list_to_set (s.*1);
  rep_pool : pool_inv (m_pool l) A;
  rep_sub : forall p, p ∈ s.*1 -> p ∈ A
}.

End Rep.

Arguments last_ptr : simpl never.

(** ** Lemmas on runs of nodes *)

Lemma zlen_snoc {B} (b : B) r : zlen (r ++ [b]) = zlen r + 1.
Proof. rewrite zlen_app. reflexivity. Qed.

Section SegLemmas.
Context {T : Type}.
Implicit Types (s : list (Z * T)) (h : gmap Z (list_node T)).

Lemma hd_ptr_app s1 s2 nxt : hd_ptr (s1 ++ s2) nxt = hd_ptr s1 (hd_ptr s2 nxt).
Proof. destruct s1 as [|[p x] s1]; reflexivity. Qed.

Lemma last_ptr_app prv s1 s2 : last_ptr prv (s1 ++ s2) = last_ptr (last_ptr prv s1) s2.
Proof.
  unfold last_ptr. rewrite last_app. destruct (last s2) as [[p x]|]; [reflexivity|].
  destruct (last s1) as [[p x]|]; reflexivity.
Qed.

Lemma last_ptr_cons prv p x s : last_ptr prv ((p, x) :: s) = last_ptr (Some p) s.
Proof. apply (last_ptr_app prv [(p, x)] s). Qed.

Lemma seg_app h prv s1 s2 nxt :
  seg h prv (s1 ++ s2) nxt <-> seg h prv s1 (hd_ptr s2 nxt) /\ seg h (last_ptr prv s1) s2 nxt.
Proof.
  revert prv. induction s1 as [|[p x] s1 IH]; intros prv; simpl.
  - unfold last_ptr; simpl; tauto.
  - rewrite last_ptr_cons. split.
    + intros (nd & ? & ? & E & ? & Hs). apply IH in Hs as [Hs1 Hs2].
      rewrite hd_ptr_app in E. split; [exists nd; auto | exact Hs2].
    + intros [(nd & ? & ? & E & ? & Hs1) Hs2]. exists nd. rewrite hd_ptr_app. split_and!; auto.
      apply IH. auto.
Qed.

Lemma seg_insert h prv s nxt p nd : p ∉ s.*1 -> seg h prv s nxt -> seg (<[p := nd]> h) prv s nxt.
Proof.
  revert prv. induction s as [|[q x] s IH]; intros prv Hp; simpl; [auto|].
  intros (n & Hn & ? & ? & ? & Hs). exists n. simpl in Hp.
  rewrite lookup_insert_ne by set_solver. split_and!; auto. apply IH; set_solver.
Qed.

Lemma seg_delete h prv s nxt p : p ∉ s.*1 -> seg h prv s nxt -> seg (delete p h) prv s nxt.
Proof.
  revert prv. induction s as [|[q x] s IH]; intros prv Hp; simpl; [auto|].
  intros (n & Hn & ? & ? & ? & Hs). exists n. simpl in Hp.
  rewrite lookup_delete_ne by set_solver. split_and!; auto. apply IH; set_solver.
Qed.

(** Forgetting the constraint on the first [m_prev]. *)
Lemma seg_weaken h prv s nxt : seg h prv s nxt -> seg h None s nxt.
Proof. destruct s as [|[p x] s]; simpl; [auto|]. intros (nd & ?). exists nd. tauto. Qed.

(** Only the nodes of the run matter. *)
Lemma seg_ext h h' prv s nxt :
  (forall p, p ∈ s.*1 -> h' !! p = h !! p) -> seg h prv s nxt -> seg h' prv s nxt.
Proof.
  revert prv. induction s as [|[q x] s IH]; intros prv He; simpl in *; [auto|].
  intros (n & Hn & ? & ? & ? & Hs). exists n. rewrite He by set_solver.
  split_and!; auto. apply IH; set_solver.
Qed.

Lemma fst_snoc (s : list (Z * T)) p x : (s ++ [(p, x)]).*1 = s.*1 ++ [p].
Proof. rewrite fmap_app. reflexivity. Qed.

(** A non-empty list split at its last node. *)
Lemma snoc_cases s : s = [] \/ exists s' p x, s = s' ++ [(p, x)].
Proof.
  destruct (decide (s = [])) as [->|Hne]; [auto|]. right.
  destruct (exists_last Hne) as (s' & [p x] & ->). eauto.
Qed.

Lemma last_ptr_snoc prv s p x : last_ptr prv (s ++ [(p, x)]) = Some p.
Proof. rewrite last_ptr_app. reflexivity. Qed.

Lemma last_ptr_in prv s p : last_ptr None s = Some p -> p ∈ s.*1 /\ last_ptr prv s = Some p.
Proof.
  destruct (snoc_cases s) as [->|(s' & q & x & ->)]; [discriminate|].
  rewrite !last_ptr_snoc. intros [= ->]. split; [|reflexivity].
  rewrite fst_snoc. set_solver.
Qed.

Lemma hd_ptr_in s p : hd_ptr s NULL = p -> p <> NULL -> p ∈ s.*1.
Proof. destruct s as [|[q x] s]; simpl; [congruence|]. intros -> _. set_solver. Qed.

End SegLemmas.


(** ** Each operation on a represented list *)

Section OpLemmas.
Context {T P : Type} `{EqDecision T} `{ObjectPool P}.
Implicit Types (l : list_t T P) (s : list (Z * T)).

(** The list after [alloc_node]: a detached node [p]. *)
Lemma alloc_node_rep l s A x :
  list_rep l s A ->
  (exists p pool', 0 < p /\ (p ∉ s.*1) /\ pool_inv pool' ({[p]} ∪ A) /\
     alloc_node l x = Done (p, mk_list (m_head l) (m_tail l) (m_size l) pool'
                                 (<[p := mk_node x NULL NULL]> (m_nodes l)))) \/
  ~ (exists r, pool_alloc (m_pool l) = Done r).
Proof.
  intros R. unfold alloc_node.
  destruct (pool_alloc (m_pool l)) as [[p pool']| | |] eqn:E; simpl.
  2-4: right; intros [r Hr]; discriminate.
  left. destruct (pool_alloc_spec _ _ _ _ (rep_pool _ _ _ R) E) as (Hp & HA & HI).
  exists p, pool'. split_and!; auto. intros Hin. apply HA, (rep_sub _ _ _ R), Hin.
Qed.

(** The facts about a list extended by a fresh pointer that do not depend on
    where it is linked. *)
Lemma rep_extend l s A p x :
  list_rep l s A -> 0 < p -> (p ∉ s.*1) -> zlen s + 1 < 2 ^ 32 ->
  u32 (m_size l + 1) = zlen s + 1 /\ NoDup (p :: s.*1) /\
  (forall r, r ∈ p :: s.*1 -> 0 < r) /\ (forall r, r ∈ p :: s.*1 -> r ∈ {[p]} ∪ A) /\
  dom (<[p := mk_node x NULL NULL]> (m_nodes l)) = {[p]} ∪ list_to_set (s.*1).
Proof.
  intros R Hp Hnin Hb. split_and!.
  - rewrite (rep_size _ _ _ R). apply u32_small. unfold zlen in *. lia.
  - constructor; [exact Hnin | apply (rep_nodup _ _ _ R)].
  - intros r Hr. apply elem_of_cons in Hr as [->|Hr]; [exact Hp | apply (rep_pos _ _ _ R), Hr].
  - intros r Hr. apply elem_of_cons in Hr as [->|Hr]; [set_solver|].
    apply elem_of_union_r, (rep_sub _ _ _ R), Hr.
  - rewrite dom_insert_L, (rep_dom _ _ _ R). reflexivity.
Qed.

Lemma rep_empty_iff l s A : list_rep l s A -> (m_size l = 0 <-> s = []).
Proof.
  intros R. rewrite (rep_size _ _ _ R). unfold zlen. destruct s; simpl; split; try lia; congruence.
Qed.

Lemma rep_head_node l p x s A :
  list_rep l ((p, x) :: s) A ->
  exists nd, m_nodes l !! p = Some nd /\ m_data nd = x /\ m_next nd = hd_ptr s NULL /\
    (p ∉ s.*1) /\ 0 < p /\ p ∈ A /\ NoDup (s.*1) /\ seg (m_nodes l) (Some p) s NULL.
Proof.
  intros R. destruct (rep_seg _ _ _ R) as (nd & ? & ? & ? & _ & ?). exists nd.
  pose proof (rep_nodup _ _ _ R) as Hnd. simpl in Hnd. apply NoDup_cons in Hnd as [? ?].
  split_and!; auto; [apply (rep_pos _ _ _ R) | apply (rep_sub _ _ _ R)]; set_solver.
Qed.

Lemma rep_tail_node l s p x A :
  list_rep l (s ++ [(p, x)]) A ->
  exists nd, m_nodes l !! p = Some nd /\ m_data nd = x /\ m_next nd = NULL /\
    m_tail l = p /\ (p ∉ s.*1) /\ 0 < p /\ p ∈ A /\ NoDup (s.*1) /\
    seg (m_nodes l) None s p /\
    match last_ptr None s with None => True | Some q => m_prev nd = q end.
Proof.
  intros R. pose proof (rep_seg _ _ _ R) as Hs. apply seg_app in Hs as [Hs (nd & ? & ? & ? & ? & _)].
  exists nd. pose proof (rep_nodup _ _ _ R) as Hnd. rewrite fst_snoc in Hnd.
  apply NoDup_app in Hnd as (? & Hd & _).
  assert (Hin : p ∈ (s ++ [(p, x)]).*1) by (rewrite fst_snoc; set_solver).
  pose proof (rep_tail _ _ _ R) as Ht. rewrite last_ptr_snoc in Ht.
  split_and!; auto; [| apply (rep_pos _ _ _ R), Hin | apply (rep_sub _ _ _ R), Hin].
  intros Hp. apply (Hd _ Hp). set_solver.
Qed.

Lemma push_front_rep l s A x :
  list_rep l s A -> zlen s + 1 < 2 ^ 32 ->
  (exists p l', push_front l x = Done (true, l') /\ list_rep l' ((p, x) :: s) ({[p]} ∪ A)) \/
  ~ (exists r, pool_alloc (m_pool l) = Done r).
Proof.
  intros R Hb. destruct (alloc_node_rep l s A x R) as [(p & pool' & Hp & Hnin & Hpool & E)|]; [left|auto].
  destruct (rep_extend l s A p x R Hp Hnin Hb) as (Hu & Hnd & Hpos & Hsub & Hdom).
  unfold push_front. rewrite E. simpl. replace (p =? NULL) with false by (unfold NULL; lia).
  rewrite (rep_head _ _ _ R), (rep_tail _ _ _ R). exists p.
  destruct s as [|[q y] s].
  - eexists. split; [reflexivity|]. constructor; simpl; rewrite ?zlen_cons; auto.
    exists (mk_node x NULL NULL). rewrite lookup_insert_eq. auto.
  - destruct (rep_head_node _ _ _ _ _ R) as (nd & Hn & Hx & Hnx & Hq & Hq0 & _ & _ & Hseg).
    assert (Hqp : q <> p) by (intros ->; apply Hnin; simpl; set_solver). simpl hd_ptr.
    replace ((q =? NULL) && _) with false by (unfold NULL; lia).
    unfold set_next, set_prev, get_node. simpl.
    rewrite lookup_insert_eq. simpl. rewrite lookup_insert_ne, lookup_insert_ne, Hn by auto. simpl.
    eexists. split; [reflexivity|].
    constructor; simpl; rewrite ?zlen_cons in *; rewrite ?last_ptr_cons; auto.
    + eexists. rewrite lookup_insert_ne, lookup_insert_eq by auto. split_and!; try done.
      eexists. rewrite lookup_insert_eq. split_and!; try done.
      eapply seg_ext; [|exact Hseg]. intros r Hr.
      assert (r <> q /\ r <> p) as [? ?] by (simpl in Hnin; set_solver). simplify_map_eq. reflexivity.
    + rewrite !dom_insert_L, (rep_dom _ _ _ R). simpl. set_solver.
Qed.

Lemma push_back_rep l s A x :
  list_rep l s A -> zlen s + 1 < 2 ^ 32 ->
  (exists p l', push_back l x = Done (true, l') /\ list_rep l' (s ++ [(p, x)]) ({[p]} ∪ A)) \/
  ~ (exists r, pool_alloc (m_pool l) = Done r).
Proof.
  intros R Hb. destruct (alloc_node_rep l s A x R) as [(p & pool' & Hp & Hnin & Hpool & E)|]; [left|auto].
  destruct (rep_extend l s A p x R Hp Hnin Hb) as (Hu & Hnd & Hpos & Hsub & Hdom).
  unfold push_back. rewrite E. simpl. replace (p =? NULL) with false by (unfold NULL; lia).
  rewrite (rep_head _ _ _ R), (rep_tail _ _ _ R). exists p.
  destruct (snoc_cases s) as [->|(s' & q & y & ->)].
  - eexists. split; [reflexivity|]. constructor; simpl; rewrite ?zlen_cons; auto.
    exists (mk_node x NULL NULL). rewrite lookup_insert_eq. auto.
  - destruct (rep_tail_node _ _ _ _ _ R) as (nd & Hn & Hx & Hnx & Ht & Hq & Hq0 & _ & _ & Hseg & Hpv).
    rewrite last_ptr_snoc. rewrite fst_snoc in *. assert (Hqp : q <> p) by set_solver. simpl default.
    replace (_ && (q =? NULL)) with false by (unfold NULL; lia).
    unfold set_next, set_prev, get_node. simpl.
    rewrite lookup_insert_ne, Hn by auto. simpl.
    rewrite lookup_insert_ne, lookup_insert_eq by auto. simpl.
    eexists. split; [reflexivity|].
    constructor; simpl; rewrite ?zlen_snoc in *; rewrite ?fst_snoc, ?fmap_app, ?last_ptr_snoc; auto.
    + rewrite <- Permutation_cons_append. exact Hnd.
    + intros r Hr. apply Hpos. set_solver.
    + rewrite <- app_assoc. apply seg_app. split; [|simpl; eexists; split_and!].
      * eapply seg_ext; [|exact Hseg]. intros r Hr.
        assert (r <> q /\ r <> p) as [? ?] by set_solver. simplify_map_eq. reflexivity.
      * rewrite lookup_insert_ne, lookup_insert_eq by auto. reflexivity.
      * done.
      * done.
      * exact Hpv.
      * eexists. rewrite lookup_insert_eq. done.
    + rewrite <- app_assoc, !hd_ptr_app. destruct s' as [|[? ?]]; reflexivity.
    + rewrite !dom_insert_L, (rep_dom _ _ _ R), fst_snoc. set_solver.
    + intros r Hr. apply Hsub. set_solver.
Qed.

(** Removing a pointer from the list and giving it back to the pool. *)
Lemma rep_shrink l s s' A p :
  list_rep l s A -> s.*1 ≡ₚ p :: s'.*1 ->
  u32 (m_size l - 1) = zlen s' /\ zlen s' < 2 ^ 32 /\ NoDup (s'.*1) /\
  (forall r, r ∈ s'.*1 -> 0 < r) /\ (forall r, r ∈ s'.*1 -> r ∈ A ∖ {[p]}) /\
  dom (m_nodes l) = {[p]} ∪ list_to_set (s'.*1) /\ (p ∉ s'.*1) /\
  pool_inv (pool_free (m_pool l) p) (A ∖ {[p]}).
Proof.
  intros R Hperm. pose proof (rep_nodup _ _ _ R) as Hnd. rewrite Hperm in Hnd.
  apply NoDup_cons in Hnd as [Hp Hnd].
  assert (Hl : zlen s = zlen s' + 1).
  { apply Permutation_length in Hperm. simpl in Hperm. rewrite !length_fmap in Hperm. unfold zlen. lia. }
  pose proof (rep_bound _ _ _ R). assert (0 <= zlen s') by (unfold zlen; lia).
  split_and!; auto.
  - rewrite (rep_size _ _ _ R), Hl, u32_small; lia.
  - lia.
  - intros r Hr. apply (rep_pos _ _ _ R). rewrite Hperm. set_solver.
  - intros r Hr. apply elem_of_difference. split; [|set_solver].
    apply (rep_sub _ _ _ R). rewrite Hperm. set_solver.
  - rewrite (rep_dom _ _ _ R). rewrite (list_to_set_perm_L _ _ Hperm). reflexivity.
  - apply pool_free_spec; [apply (rep_pool _ _ _ R)|]. apply (rep_sub _ _ _ R). rewrite Hperm. set_solver.
Qed.

Lemma pop_front_rep l p x s A :
  list_rep l ((p, x) :: s) A ->
  exists l', pop_front l = Done (true, l') /\ list_rep l' s (A ∖ {[p]}).
Proof.
  intros R. destruct (rep_head_node _ _ _ _ _ R) as (nd & Hn & Hx & Hnx & Hp & Hp0 & _ & _ & Hseg).
  destruct (rep_shrink l _ s A p R) as (Hu & Hb & Hnd & Hpos & Hsub & Hdom & _ & Hpool); [reflexivity|].
  unfold pop_front. replace (m_size l =? 0) with false
    by (rewrite (rep_size _ _ _ R), zlen_cons; unfold zlen; lia).
  simpl. rewrite Hu, (rep_head _ _ _ R). simpl. destruct s as [|[q y] s].
  - simpl. eexists. split; [reflexivity|]. constructor; simpl; auto.
    rewrite dom_delete_L, Hdom. set_solver.
  - replace (zlen _ =? 0) with false by (rewrite zlen_cons; unfold zlen; lia).
    unfold get_node. simpl. rewrite Hn. simpl.
    destruct Hseg as (nq & Hnq & Hy & Hnqx & Hnqp & Hseg). rewrite Hnx. simpl.
    unfold set_prev, get_node. simpl. rewrite Hnq. simpl.
    assert (Hpq : p <> q) by set_solver.
    eexists. split; [reflexivity|]. constructor; simpl; auto.
    + eexists. rewrite lookup_delete_ne, lookup_insert_eq by auto. split_and!; [done..|].
      simpl in Hnd. apply NoDup_cons in Hnd as [Hq _].
      eapply seg_ext; [|exact Hseg]. intros r Hr. assert (r <> p /\ r <> q) as [? ?] by set_solver.
      simplify_map_eq. reflexivity.
    + rewrite (rep_tail _ _ _ R), !last_ptr_cons.
      destruct (snoc_cases s) as [->|(? & ? & ? & ->)]; [reflexivity | rewrite !last_ptr_snoc; reflexivity].
    + rewrite dom_delete_L, dom_insert_L, Hdom. simpl in *. set_solver.
Qed.

(** [m_tail = m_tail->m_prev; m_tail->m_next = NULL] and freeing the old tail:
    shared by [pop_back] and by [erase] at the tail. *)
Lemma unlink_tail l s q y p x A (sz : Z) :
  list_rep l ((s ++ [(q, y)]) ++ [(p, x)]) A -> u32 sz = zlen (s ++ [(q, y)]) ->
  exists nd nq, m_nodes l !! p = Some nd /\ m_prev nd = q /\ m_nodes l !! q = Some nq /\
    list_rep (free_node (set_nodes (set_ends (set_size l sz) (m_head l) q)
               (<[q := mk_node (m_data nq) NULL (m_prev nq)]> (m_nodes l))) p)
             (s ++ [(q, y)]) (A ∖ {[p]}).
Proof.
  intros R Hsz. destruct (rep_tail_node _ _ _ _ _ R) as (nd & Hn & Hx & Hnx & Ht & Hp & Hp0 & _ & Hnd & Hseg & Hpv).
  rewrite last_ptr_snoc in Hpv. rewrite fst_snoc in Hp, Hnd.
  destruct (rep_shrink l _ (s ++ [(q, y)]) A p R) as (Hu & Hb & Hnd' & Hpos & Hsub & Hdom & _ & Hpool).
  { rewrite fst_snoc. symmetry. apply Permutation_cons_append. }
  apply seg_app in Hseg as [Hseg (nq & Hnq & Hy & Hnqx & Hnqp & _)].
  exists nd, nq. split_and!; auto.
  assert (Hpq : p <> q) by set_solver.
  constructor; simpl; rewrite ?last_ptr_snoc; auto.
  - apply seg_app. split; [|eexists; rewrite lookup_delete_ne, lookup_insert_eq by auto; done].
    apply NoDup_app in Hnd as (_ & Hd & _).
    eapply seg_ext; [|exact Hseg]. intros r Hr.
    assert (r <> p) by set_solver. assert (r <> q) by (intros ->; apply (Hd _ Hr); set_solver).
    simplify_map_eq. reflexivity.
  - rewrite (rep_head _ _ _ R), !hd_ptr_app. destruct s as [|[? ?]]; reflexivity.
  - rewrite dom_delete_L, dom_insert_L, Hdom, fst_snoc. set_solver.
Qed.

Lemma pop_back_rep l s p x A :
  list_rep l (s ++ [(p, x)]) A ->
  exists l', pop_back l = Done (true, l') /\ list_rep l' s (A ∖ {[p]}).
Proof.
  intros R. destruct (rep_shrink l _ s A p R) as (Hu & Hb & Hnd & Hpos & Hsub & Hdom & _ & Hpool).
  { rewrite fst_snoc. symmetry. apply Permutation_cons_append. }
  unfold pop_back. replace (m_size l =? 0) with false
    by (rewrite (rep_size _ _ _ R), zlen_snoc; unfold zlen; lia).
  destruct (rep_tail_node _ _ _ _ _ R) as (nd & Hn & _ & _ & Ht & _).
  simpl. rewrite Hu. destruct (snoc_cases s) as [->|(s' & q & y & ->)].
  - simpl. rewrite Ht. eexists. split; [reflexivity|]. constructor; simpl; auto.
    rewrite dom_delete_L, Hdom. set_solver.
  - replace (zlen _ =? 0) with false by (rewrite zlen_snoc; unfold zlen; lia).
    destruct (unlink_tail l s' q y p x A (m_size l - 1) R Hu) as (nd' & nq & Hn' & <- & Hnq & R').
    unfold get_node. simpl. rewrite Ht, Hn'. simpl. unfold set_next, get_node. simpl. rewrite Hnq. simpl.
    eexists. split; [reflexivity | exact R'].
Qed.

Lemma erase_head_rep l p x s A :
  list_rep l ((p, x) :: s) A ->
  exists it l', erase l p = Done (it, l') /\ list_rep l' s (A ∖ {[p]}) /\ it = hd_ptr s NULL.
Proof.
  intros R. destruct (rep_head_node _ _ _ _ _ R) as (nd & Hn & Hx & Hnx & Hp & Hp0 & _ & _ & Hseg).
  destruct (rep_shrink l _ s A p R) as (Hu & Hb & Hnd & Hpos & Hsub & Hdom & _ & Hpool); [reflexivity|].
  unfold erase. replace (m_size l =? 0) with false
    by (rewrite (rep_size _ _ _ R), zlen_cons; unfold zlen; lia).
  simpl. rewrite Hu. destruct s as [|[q y] s].
  - simpl. do 2 eexists. split; [reflexivity|]. split; [|reflexivity]. constructor; simpl; auto.
    rewrite dom_delete_L, Hdom. set_solver.
  - replace (zlen _ =? 0) with false by (rewrite zlen_cons; unfold zlen; lia).
    rewrite (rep_head _ _ _ R). simpl. rewrite Z.eqb_refl. unfold get_node. simpl. rewrite Hn. simpl.
    do 2 eexists. split; [reflexivity|]. split; [|exact Hnx]. constructor; simpl; auto.
    + apply seg_weaken in Hseg. simpl in Hseg.
      destruct Hseg as (nq & Hnq & Hy & Hnqx & _ & Hseg). simpl in Hnd, Hp.
      exists nq. rewrite lookup_delete_ne by set_solver. split_and!; auto.
      apply seg_delete; [set_solver | exact Hseg].
    + rewrite (rep_tail _ _ _ R), !last_ptr_cons.
      destruct (snoc_cases s) as [->|(? & ? & ? & ->)]; [reflexivity | rewrite !last_ptr_snoc; reflexivity].
    + rewrite dom_delete_L, Hdom. simpl in *. set_solver.
Qed.

Lemma erase_tail_rep l s q y p x A :
  list_rep l ((s ++ [(q, y)]) ++ [(p, x)]) A ->
  exists it l', erase l p = Done (it, l') /\ list_rep l' (s ++ [(q, y)]) (A ∖ {[p]}) /\ it = q.
Proof.
  intros R. destruct (rep_shrink l _ (s ++ [(q, y)]) A p R) as (Hu & Hb & Hnd & Hpos & Hsub & Hdom & Hp & Hpool).
  { rewrite fst_snoc. symmetry. apply Permutation_cons_append. }
  unfold erase. replace (m_size l =? 0) with false
    by (rewrite (rep_size _ _ _ R), zlen_snoc; unfold zlen; lia).
  destruct (rep_tail_node _ _ _ _ _ R) as (nd & Hn & _ & _ & Ht & _).
  simpl. rewrite Hu. replace (zlen _ =? 0) with false by (rewrite zlen_snoc; unfold zlen; lia).
  assert (Hhd : m_head l <> p).
  { rewrite (rep_head _ _ _ R), !hd_ptr_app. rewrite fst_snoc in Hp. simpl.
    destruct s as [|[r z] s]; simpl in *; set_solver. }
  replace (m_head l =? p) with false by lia. replace (m_tail l =? p) with true by lia.
  destruct (unlink_tail l s q y p x A (m_size l - 1) R Hu) as (nd' & nq & Hn' & <- & Hnq & R').
  unfold get_node. simpl. rewrite Ht, Hn'. simpl. unfold set_next, get_node. simpl. rewrite Hnq. simpl.
  do 2 eexists. split; [reflexivity|]. split; [exact R' | reflexivity].
Qed.

Lemma erase_middle_rep l s1 q y p x r z s2 A :
  list_rep l ((s1 ++ [(q, y)]) ++ (p, x) :: (r, z) :: s2) A ->
  exists it l', erase l p = Done (it, l') /\
    list_rep l' ((s1 ++ [(q, y)]) ++ (r, z) :: s2) (A ∖ {[p]}) /\ it = r.
Proof.
  intros R. destruct (rep_shrink l _ ((s1 ++ [(q, y)]) ++ (r, z) :: s2) A p R)
    as (Hu & Hb & Hnd & Hpos & Hsub & Hdom & Hp & Hpool).
  { rewrite !fmap_app. simpl. rewrite <- Permutation_middle. reflexivity. }
  pose proof Hnd as HN.
  pose proof (rep_seg _ _ _ R) as Hs. apply seg_app in Hs as [Hs1 Hs2].
  rewrite last_ptr_snoc in Hs2. destruct Hs2 as (np & Hnp & Hx & Hnx & Hpv & nr & Hnr & Hz & Hrx & Hrp & Hs2).
  apply seg_app in Hs1 as [Hs1 (nq & Hnq & Hy & Hqx & Hqp & _)].
  rewrite fmap_app, fst_snoc in Hnd, Hp, Hpos. simpl in Hnd, Hp, Hpos, Hnx.
  assert (0 < q /\ 0 < r) as [Hq0 Hr0] by (split; apply Hpos; set_solver).
  apply NoDup_app in Hnd as (Hnd1 & Hd & Hnd2). apply NoDup_app in Hnd1 as (_ & Hd1 & _).
  apply NoDup_cons in Hnd2 as [Hr2 _].
  assert (Hqr : q <> r) by (intros ->; apply (Hd r); set_solver).
  assert (Hpq : p <> q) by set_solver. assert (Hpr : p <> r) by set_solver.
  unfold erase. replace (m_size l =? 0) with false
    by (rewrite (rep_size _ _ _ R); unfold zlen; rewrite length_app; simpl; lia).
  simpl. rewrite Hu. replace (zlen _ =? 0) with false by (unfold zlen; rewrite length_app; simpl; lia).
  assert (Hhd : m_head l <> p).
  { rewrite (rep_head _ _ _ R), !hd_ptr_app. destruct s1 as [|[? ?] s1]; simpl in *; set_solver. }
  assert (Htl : m_tail l <> p).
  { rewrite (rep_tail _ _ _ R). destruct (snoc_cases s2) as [->|(s2' & t & w & ->)].
    - rewrite last_ptr_app, !last_ptr_cons. unfold last_ptr. simpl. congruence.
    - rewrite !app_comm_cons, app_assoc, last_ptr_snoc. simpl. rewrite fst_snoc in Hp. set_solver. }
  replace (m_head l =? p) with false by lia. replace (m_tail l =? p) with false by lia.
  unfold set_next, set_prev, get_node. simpl. rewrite Hnp. simpl. rewrite Hpv, Hnx.
  replace (q =? NULL) with false by (unfold NULL; lia). simpl. rewrite Hnq. simpl.
  rewrite lookup_insert_ne, Hnp by auto. simpl. rewrite Hnx.
  replace (r =? NULL) with false by (unfold NULL; lia). simpl.
  rewrite lookup_insert_ne, Hnr by auto. simpl. rewrite !lookup_insert_ne, Hnp by auto. simpl.
  do 2 eexists. split; [reflexivity|]. split; [|exact Hnx].
  constructor; simpl; rewrite ?fmap_app, ?fst_snoc; auto.
  - rewrite fmap_app, fst_snoc in HN. exact HN.
  - apply seg_app. rewrite last_ptr_snoc. split; [apply seg_app; split|].
    + eapply seg_ext; [|exact Hs1]. intros t Ht.
      assert (t <> q) by (intros ->; apply (Hd1 _ Ht); set_solver).
      assert (t <> r) by (intros ->; apply (Hd r); set_solver).
      assert (t <> p) by set_solver. simplify_map_eq. reflexivity.
    + eexists. rewrite lookup_delete_ne, lookup_insert_ne, lookup_insert_eq by auto. done.
    + eexists. rewrite lookup_delete_ne, lookup_insert_eq by auto. split_and!; [done..|].
      eapply seg_ext; [|exact Hs2]. intros t Ht.
      assert (t <> q) by (intros ->; apply (Hd q); set_solver).
      assert (t <> r) by set_solver. assert (t <> p) by set_solver. simplify_map_eq. reflexivity.
  - rewrite (rep_head _ _ _ R), !hd_ptr_app. destruct s1 as [|[? ?]]; reflexivity.
  - rewrite (rep_tail _ _ _ R), !last_ptr_app. rewrite !last_ptr_cons.
    destruct (snoc_cases s2) as [->|(s2' & t & w & ->)]; [reflexivity | rewrite !last_ptr_snoc; reflexivity].
  - rewrite dom_delete_L, !dom_insert_L, Hdom, fmap_app, fst_snoc. simpl. set_solver.
  - intros t Ht. apply Hsub. rewrite fmap_app, fst_snoc. exact Ht.
Qed.

Lemma erase_rep l s1 p x s2 A :
  list_rep l (s1 ++ (p, x) :: s2) A ->
  exists it l', erase l p = Done (it, l') /\ list_rep l' (s1 ++ s2) (A ∖ {[p]}).
Proof.
  intros R. destruct (snoc_cases s1) as [->|(s1' & q & y & ->)].
  - destruct (erase_head_rep _ _ _ _ _ R) as (it & l' & ? & ? & _). eauto.
  - destruct s2 as [|[r z] s2].
    + destruct (erase_tail_rep _ _ _ _ _ _ _ R) as (it & l' & ? & ? & _). rewrite app_nil_r. eauto.
    + destruct (erase_middle_rep _ _ _ _ _ _ _ _ _ _ R) as (it & l' & ? & ? & _). eauto.
Qed.

Lemma find_loop_seg l x : forall s prv fuel,
  seg (m_nodes l) prv s NULL -> (forall p, p ∈ s.*1 -> 0 < p) -> (length s < fuel)%nat ->
  exists it, find_loop fuel l (hd_ptr s NULL) x = Done it /\
    ((it = NULL /\ (x ∉ s.*2)) \/
     (exists s1 s2, s = s1 ++ (it, x) :: s2 /\ (x ∉ s1.*2))).
Proof.
  induction s as [|[p y] s IH]; intros prv fuel Hs Hpos Hf.
  - exists NULL. destruct fuel; simpl; split; auto; left; split; auto; set_solver.
  - destruct fuel as [|fuel]; [simpl in Hf; lia|]. destruct Hs as (nd & Hn & Hy & Hnx & _ & Hs).
    simpl. replace (p =? NULL) with false by (pose proof (Hpos p ltac:(set_solver)); unfold NULL; lia).
    unfold get_node. rewrite Hn. simpl. rewrite Hy. destruct (decide (y = x)) as [->|Hne].
    + exists p. split; [reflexivity|]. right. exists [], s. split; [reflexivity | set_solver].
    + rewrite Hnx. destruct (IH (Some p) fuel Hs) as (it & E & Hit); [set_solver | simpl in Hf; lia |].
      exists it. split; [exact E|]. destruct Hit as [[-> Hni]|(s1 & s2 & -> & Hni)].
      * left. split; [reflexivity|]. simpl. set_solver.
      * right. exists ((p, y) :: s1), s2. split; [reflexivity|]. simpl. set_solver.
Qed.

Lemma rep_nodes_size l s A : list_rep l s A -> base.size (m_nodes l) = length s.
Proof.
  intros R. rewrite <- size_dom, (rep_dom _ _ _ R), size_list_to_set by apply R. apply length_fmap.
Qed.

Lemma copy_loop_runs src : forall s prv fuel dst,
  seg (m_nodes src) prv s NULL -> (forall p, p ∈ s.*1 -> 0 < p) -> (length s < fuel)%nat ->
  copy_loop fuel src dst (hd_ptr s NULL) = run_ops dst (PushBack <$> s.*2).
Proof.
  induction s as [|[p y] s IH]; intros prv fuel dst Hs Hpos Hf.
  - destruct fuel; reflexivity.
  - destruct fuel as [|fuel]; [simpl in Hf; lia|]. destruct Hs as (nd & Hn & Hy & Hnx & _ & Hs).
    simpl. replace (p =? NULL) with false by (pose proof (Hpos p ltac:(set_solver)); unfold NULL; lia).
    unfold get_node. rewrite Hn. simpl. rewrite Hy, Hnx. destruct (push_back dst y) as [[b l]| | |]; try reflexivity.
    simpl. apply (IH (Some p)); [exact Hs | set_solver | simpl in Hf; lia].
Qed.

Lemma assign_runs l s A : list_rep l s A -> assign l = run_ops (list_init (m_pool l)) (PushBack <$> s.*2).
Proof.
  intros R. unfold assign. rewrite (rep_head _ _ _ R).
  apply (copy_loop_runs l s None); [apply R | apply R | rewrite (rep_nodes_size _ _ _ R); lia].
Qed.

Lemma find_rep l s A x :
  list_rep l s A ->
  exists it, find l x = Done it /\
    ((it = NULL /\ (x ∉ s.*2)) \/
     (exists s1 s2, s = s1 ++ (it, x) :: s2 /\ (x ∉ s1.*2))).
Proof.
  intros R. unfold find, begin_. rewrite (rep_head _ _ _ R).
  apply (find_loop_seg l x s None); [apply R | apply R |].
  rewrite (rep_nodes_size _ _ _ R). lia.
Qed.

Lemma remove_first_notin (x : T) xs : x ∉ xs -> remove_first x xs = xs.
Proof.
  induction xs as [|y xs IH]; simpl; intros Hx; [reflexivity|].
  destruct (decide (y = x)) as [->|]; [set_solver|]. rewrite IH by set_solver. reflexivity.
Qed.

Lemma remove_first_app (x : T) xs ys : x ∉ xs -> remove_first x (xs ++ x :: ys) = xs ++ ys.
Proof.
  induction xs as [|y xs IH]; simpl; intros Hx.
  - destruct (decide (x = x)); [reflexivity | contradiction].
  - destruct (decide (y = x)) as [->|]; [set_solver|]. rewrite IH by set_solver. reflexivity.
Qed.

Lemma erase_found_rep l s A x :
  list_rep l s A ->
  exists l' s' A', erase_found l x = Done l' /\ list_rep l' s' A' /\ s'.*2 = remove_first x (s.*2).
Proof.
  intros R. destruct (find_rep l s A x R) as (it & E & Hit). unfold erase_found, end_. rewrite E. simpl.
  destruct Hit as [[-> Hni]|(s1 & s2 & -> & Hni)].
  - simpl. exists l, s, A. rewrite remove_first_notin by exact Hni. auto.
  - replace (it =? NULL) with false
      by (pose proof (rep_pos _ _ _ R it ltac:(rewrite fmap_app; set_solver)); unfold NULL; lia).
    destruct (erase_rep _ _ _ _ _ _ R) as (it' & l' & -> & R'). simpl.
    exists l', (s1 ++ s2), (A ∖ {[it]}). split_and!; auto.
    rewrite !fmap_app. simpl. rewrite remove_first_app by exact Hni. reflexivity.
Qed.

End OpLemmas.

(** ** Refinement *)

Definition spec_ops {T} `{EqDecision T} (ops : list (list_op T)) (xs : list T) : list T :=
  fold_left (fun xs op => spec_op op xs) ops xs.

Section Refinement.
Context {T P : Type} `{EqDecision T} `{ObjectPool P}.
Implicit Types (l : list_t T P).

Definition exhausted (p : P) : Prop := ~ exists r, pool_alloc p = Done r.

Lemma spec_op_length (op : list_op T) xs : (length (spec_op op xs) <= S (length xs))%nat.
Proof.
  assert (Hrf : forall x ys, (length (remove_first x ys) <= length (ys : list T))%nat).
  { intros x ys. induction ys as [|y ys IH]; simpl; [lia|]. destruct (decide (y = x)); simpl; lia. }
  destruct op; simpl; rewrite ?length_app, ?length_take; simpl; try lia.
  - destruct xs; simpl; lia.
  - pose proof (Hrf x xs). lia.
Qed.

(** One operation on a represented list. *)
Lemma run_op_rep l s A op :
  list_rep l s A -> zlen s + 1 < 2 ^ 32 ->
  (exists l' s' A', run_op l op = Done l' /\ list_rep l' s' A' /\ s'.*2 = spec_op op (s.*2)) \/
  exhausted (m_pool l).
Proof.
  intros R Hb. destruct op as [x|x| | |x]; simpl.
  - destruct (push_front_rep l s A x R Hb) as [(p & l' & -> & R')|?]; [left|auto].
    do 3 eexists. split_and!; [reflexivity | exact R' | reflexivity].
  - destruct (push_back_rep l s A x R Hb) as [(p & l' & -> & R')|?]; [left|auto].
    do 3 eexists. split_and!; [reflexivity | exact R' |]. rewrite fmap_app. reflexivity.
  - left. destruct s as [|[p x] s].
    + unfold pop_front. rewrite (rep_size _ _ _ R). simpl. do 3 eexists. split_and!; eauto.
    + destruct (pop_front_rep l p x s A R) as (l' & -> & R'). simpl. do 3 eexists. split_and!; eauto.
  - left. destruct (snoc_cases s) as [->|(s' & p & x & ->)].
    + unfold pop_back. rewrite (rep_size _ _ _ R). simpl. do 3 eexists. split_and!; eauto.
    + destruct (pop_back_rep l s' p x A R) as (l' & -> & R'). simpl. do 3 eexists. split_and!; eauto.
      rewrite fmap_app, length_app, take_app_le by (simpl; lia). simpl. rewrite take_ge by (simpl; lia). reflexivity.
  - left. exact (erase_found_rep l s A x R).
Qed.

Lemma run_ops_rep : forall ops l s A,
  list_rep l s A -> zlen s + zlen ops < 2 ^ 32 ->
  (exists l' s' A', run_ops l ops = Done l' /\ list_rep l' s' A' /\ s'.*2 = spec_ops ops (s.*2)) \/
  (exists done_ rest l' s' A', ops = done_ ++ rest /\ run_ops l done_ = Done l' /\
     list_rep l' s' A' /\ s'.*2 = spec_ops done_ (s.*2) /\ exhausted (m_pool l')).
Proof.
  induction ops as [|op ops IH]; intros l s A R Hb.
  - left. exists l, s, A. auto.
  - assert (Hb1 : zlen s + 1 < 2 ^ 32) by (unfold zlen in *; simpl length in Hb; lia).
    destruct (run_op_rep l s A op R Hb1) as [(l1 & s1 & A1 & E & R1 & Es)|Hx].
    2:{ right. exists [], (op :: ops), l, s, A. auto. }
    assert (Hl : (length s1 <= S (length s))%nat).
    { rewrite <- (length_fmap snd s1), Es, <- (length_fmap snd s). apply spec_op_length. }
    destruct (IH l1 s1 A1 R1) as [(l' & s' & A' & E' & R' & Es')|(d & rest & l' & s' & A' & -> & E' & R' & Es' & Hx)].
    { unfold zlen in *. simpl length in Hb. lia. }
    + left. exists l', s', A'. simpl. rewrite E. simpl. rewrite E'. unfold spec_ops in *. simpl.
      rewrite <- Es. auto.
    + right. exists (op :: d), rest, l', s', A'. simpl. rewrite E. simpl. rewrite E'.
      unfold spec_ops in *. simpl. rewrite <- Es. auto.
Qed.

(** Copying a list gives a list with the same elements. *)
Lemma spec_push_backs (xs ys : list T) : spec_ops (PushBack <$> ys) xs = xs ++ ys.
Proof.
  unfold spec_ops. revert xs. induction ys as [|y ys IH]; intros xs; simpl; [rewrite app_nil_r; reflexivity|].
  rewrite IH, <- app_assoc. reflexivity.
Qed.

Lemma assign_rep l s A : list_rep l s A ->
  (exists l' s' A', assign l = Done l' /\ list_rep l' s' A' /\ s'.*2 = s.*2) \/
  (exists p A', pool_inv p A' /\ exhausted p).
Proof.
  intros R. rewrite (assign_runs l s A R).
  destruct (run_ops_rep (PushBack <$> s.*2) (list_init (m_pool l)) [] A)
    as [(l' & s' & A' & E & R' & Es)|(d & rest & l' & s' & A' & _ & _ & R' & _ & Hx)].
  - constructor; simpl; auto; try set_solver; [constructor | apply R].
  - unfold zlen. rewrite !length_fmap. simpl. pose proof (rep_bound _ _ _ R) as Hb. unfold zlen in Hb. lia.
  - left. exists l', s', A'. rewrite spec_push_backs in Es. auto.
  - right. exists (m_pool l'), A'. split; [apply R' | exact Hx].
Qed.

End Refinement.

(** C2: [list_t] implements a sequence.  Any succession of push, pop and
    find-then-erase operations on a well-formed list runs without a wild access
    and ends in a well-formed list holding what the same operations do to a
    plain sequence; the only other way out is that the pool has nothing left to
    give, and then the operations before that point did as specified. *)
Theorem list_t_refines_sequence {T P} `{EqDecision T} `{ObjectPool P}
  (ops : list (list_op T)) (l : list_t T P) (s : list (Z * T)) (A : gset Z)
  (R : list_rep l s A) (Hbound : zlen s + zlen ops < 2 ^ 32) :
  (exists l' s' A', run_ops l ops = Done l' /\ list_rep l' s' A' /\ s'.*2 = spec_ops ops (s.*2)) \/
  (exists done_ rest l' s' A', ops = done_ ++ rest /\ run_ops l done_ = Done l' /\
     list_rep l' s' A' /\ s'.*2 = spec_ops done_ (s.*2) /\ exhausted (m_pool l')).
Proof. exact (run_ops_rep ops l s A R Hbound). Qed.

(** An empty list over the pool of [Pool] and the pages of [bump_source]. *)
Definition demo_pool : object_pool * Z := (mk_object_pool 64 0 NULL ∅, 0).
Definition demo_list : list_t Z (object_pool * Z) := list_init demo_pool.

Lemma list_init_rep {T P} `{EqDecision T} `{ObjectPool P} (pool : P) :
  pool_inv pool ∅ -> list_rep (list_init pool : list_t T P) [] ∅.
Proof. intros Hp. constructor; simpl; auto; try set_solver. constructor. Qed.

Lemma demo_pool_inv : pool_inv demo_pool ∅.
Proof.
  split; [|vm_compute; discriminate]. apply (pool_init_ok 64 0); [lia | | reflexivity].
  split; [lia|]. intros p Hp. apply not_elem_of_empty in Hp. destruct Hp.
Qed.

Lemma list_t_refines_sequence_witness :
  (exists l' s' A', run_ops demo_list [PushBack 1; PushBack 2; PushFront 3; EraseFound 2; PopBack] = Done l' /\
     list_rep l' s' A' /\
     s'.*2 = spec_ops [PushBack 1; PushBack 2; PushFront 3; EraseFound 2; PopBack] []) \/
  (exists done_ rest l' s' A', [PushBack 1; PushBack 2; PushFront 3; EraseFound 2; PopBack] = done_ ++ rest /\
     run_ops demo_list done_ = Done l' /\
     list_rep l' s' A' /\ s'.*2 = spec_ops done_ [] /\ exhausted (m_pool l')).
Proof.
  apply (list_t_refines_sequence [PushBack 1; PushBack 2; PushFront 3; EraseFound 2; PopBack] demo_list [] ∅).
  - apply list_init_rep, demo_pool_inv.
  - vm_compute. reflexivity.
Defined.

(** The elements met going forward from the head. *)
Fixpoint walk {T P} (fuel : nat) (l : list_t T P) (p : Z) : list T :=
  match fuel with
  | O => []
  | S k => match m_nodes l !! p with
           | Some nd => m_data nd :: walk k l (m_next nd)
           | None => []
           end
  end.

Definition insert_at_begin {T P} `{ObjectPool P} (l : list_t T P) (x : T) : outcome (list_t T P) :=
  let! r := insert l (begin_ l) x in Done (snd r).

(** What a client can see of a list: its size and its elements in order. *)
Definition observe {T P} (l : list_t T P) : Z * list T := (m_size l, walk 5 l (m_head l)).

(** the exception to the above, on a concrete run: erasing the head leaves
    [m_prev] of the new head pointing at the freed node, and [insert] tests that
    field to see whether it is at the front.  After two pushes and the erasure
    of the first element, inserting at [begin()] counts a second element in
    [m_size] that no traversal meets. *)
Theorem insert_after_head_erase_is_lost :
  (let! l := run_ops demo_list [PushBack 1; PushBack 2; EraseFound 1] in Done (observe l)) = Done (1, [2]) /\
  (let! l := run_ops demo_list [PushBack 1; PushBack 2; EraseFound 1] in
   let! l' := insert_at_begin l 3 in Done (observe l')) = Done (2, [2]).
Proof. split; vm_compute; reflexivity. Qed.
