(* ===== verification/Buddy.v ===== *)
(** * The buddy page allocator (src/src/mm.cc, mm.h, math.cc, x86.h, atomic.h)

    Free blocks of [2^order] pages are kept in circular doubly linked lists, one
    per order, whose entries lie in the free pages themselves and whose heads are
    [m_free_area.free_list].  [fl_next] and [fl_prev] are the two link fields
    over all addresses.  A bitmap per order has one bit per pair of buddies;
    [bits] is the set of the bits that are set, each by its absolute bit address.
    [m_pages] holds a reference count per physical page. *)
From Stdlib Require Import ZArith ZifyBool Lia.
From stdpp Require Import base option list gmap.
From S2P Require Import Prelude Interfaces.

Definition PAGE_SHIFT : Z := 12.
Definition PAGE_MASK : Z := not32 (PAGE_SIZE - 1).
Definition KERNEL_BASE : Z := 0xc0000000.
Definition MAX_ORDER : Z := 6.

Definition VA2PA (x : Z) : Z := u32 (x - KERNEL_BASE).
Definition PA2VA (x : Z) : Z := u32 (x + KERNEL_BASE).
Definition PAGE_ALIGN (addr : Z) : Z := Z.land (u32 (addr + PAGE_SIZE - 1)) PAGE_MASK.
Definition MAP_NR (addr : Z) : Z := Z.shiftr addr PAGE_SHIFT.

(** [math_t] *)
Fixpoint pow_loop (n : nat) (x ret : Z) : Z :=
  match n with
  | O => ret
  | S k => pow_loop k x (u32 (ret * x))
  end.

Definition pow (x p : Z) : Z := pow_loop (Z.to_nat p) x 1.
Definition min (a b : Z) : Z := if a <? b then a else b.
Definition max (a b : Z) : Z := if a >? b then a else b.

(** [while (num < n) { num *= x; ret++; }]; for [x >= 2] thirty-two rounds take
    [num] past any [int32]. *)
Fixpoint log_loop (fuel : nat) (x n num ret : Z) : Z :=
  match fuel with
  | O => ret
  | S k => if num <? n then log_loop k x n (s32 (num * x)) (ret + 1) else ret
  end.

Definition log (x n : Z) : Z := log_loop 33 x n 1 0.

Record mm_t := mk_mm {
  fl_next : mem;
  fl_prev : mem;
  free_list_addr : Z;
  free_list_map : mem;
  bits : gset Z;
  base : Z;
  m_pages : gmap Z Z;
  m_mem_start : Z;
  m_mem_end : Z;
  m_free_page_num : Z
}.

Definition set_links (m : mm_t) (n p : mem) : mm_t :=
  mk_mm n p (free_list_addr m) (free_list_map m) (bits m) (base m) (m_pages m)
    (m_mem_start m) (m_mem_end m) (m_free_page_num m).

Definition set_bits (m : mm_t) (b : gset Z) : mm_t :=
  mk_mm (fl_next m) (fl_prev m) (free_list_addr m) (free_list_map m) b (base m) (m_pages m)
    (m_mem_start m) (m_mem_end m) (m_free_page_num m).

Definition set_pages (m : mm_t) (r : gmap Z Z) : mm_t :=
  mk_mm (fl_next m) (fl_prev m) (free_list_addr m) (free_list_map m) (bits m) (base m) r
    (m_mem_start m) (m_mem_end m) (m_free_page_num m).

Definition set_num (m : mm_t) (n : Z) : mm_t :=
  mk_mm (fl_next m) (fl_prev m) (free_list_addr m) (free_list_map m) (bits m) (base m) (m_pages m)
    (m_mem_start m) (m_mem_end m) n.

Definition set_start (m : mm_t) (a : Z) : mm_t :=
  mk_mm (fl_next m) (fl_prev m) (free_list_addr m) (free_list_map m) (bits m) (base m) (m_pages m)
    a (m_mem_end m) (m_free_page_num m).

(** [m_free_area.free_list + order]: a [free_list_t] is twelve bytes. *)
Definition free_list (m : mm_t) (order : Z) : Z := free_list_addr m + 12 * order.

Definition add_to_head (m : mm_t) (head entry : Z) : mm_t :=
  let p1 := upd (fl_prev m) entry head in
  let n1 := upd (fl_next m) entry (fl_next m head) in
  let p2 := upd p1 (n1 head) entry in
  let n2 := upd n1 head entry in
  set_links m n2 p2.

Definition remove_head (m : mm_t) (head entry : Z) : mm_t :=
  let p1 := upd (fl_prev m) (fl_next m entry) (fl_prev m entry) in
  let n1 := upd (fl_next m) (p1 entry) (fl_next m entry) in
  set_links m n1 p1.

(** [btcl nr, (addr)]: complement a bit, return what it was. *)
Definition change_bit (m : mm_t) (nr addr : Z) : bool * mm_t :=
  let b := 8 * addr + nr in
  if decide (b ∈ bits m) then (true, set_bits m (bits m ∖ {[b]}))
  else (false, set_bits m ({[b]} ∪ bits m)).

Definition boot_mem_alloc (m : mm_t) (size page_align : Z) : Z * mm_t :=
  let m := if negb (page_align =? 0) then set_start m (PAGE_ALIGN (m_mem_start m)) else m in
  (m_mem_start m, set_start m (u32 (m_mem_start m + size))).

(** [m_pages[phy_addr >> PAGE_SHIFT].ref] *)
Definition inc_page_ref (m : mm_t) (phy_addr : Z) : outcome mm_t :=
  let i := Z.shiftr phy_addr PAGE_SHIFT in
  let! c := deref (m_pages m !! i) in
  Done (set_pages m (<[i := s32 (c + 1)]> (m_pages m))).

Definition dec_page_ref (m : mm_t) (phy_addr : Z) : outcome (bool * mm_t) :=
  let i := Z.shiftr phy_addr PAGE_SHIFT in
  let! c := deref (m_pages m !! i) in
  if c <=? 0 then Panic
  else Done (s32 (c - 1) =? 0, set_pages m (<[i := s32 (c - 1)]> (m_pages m))).

Definition get_page_ref (m : mm_t) (phy_addr : Z) : outcome Z :=
  deref (m_pages m !! Z.shiftr phy_addr PAGE_SHIFT).

Definition get_buddy (m : mm_t) (addr mask : Z) : Z :=
  u32 (Z.lxor (u32 (addr - base m)) (u32 (- mask)) + base m).

Definition mark_used (m : mm_t) (addr order : Z) : mm_t :=
  snd (change_bit m (Z.shiftr (MAP_NR (u32 (addr - base m))) (1 + order)) (free_list_map m order)).

(** The merging loop of [free_pages]; it runs at most [MAX_ORDER] times. *)
Fixpoint free_loop (fuel : nat) (m : mm_t) (order index mask address : Z) : mm_t * Z * Z :=
  match fuel with
  | O => (m, order, address)
  | S k =>
      if order <? MAX_ORDER then
        let '(old, m) := change_bit m index (free_list_map m order) in
        if negb old then (m, order, address)
        else
          let buddy := get_buddy m address mask in
          let m := remove_head m (free_list m order) buddy in
          let mask := u32 (Z.shiftl mask 1) in
          free_loop k m (order + 1) (Z.shiftr index 1) mask (Z.land address mask)
      else (m, order, address)
  end.

Definition free_pages (m : mm_t) (addr order : Z) : outcome mm_t :=
  let! r := dec_page_ref m (VA2PA addr) in
  let '(zero, m) := r in
  if negb zero then Done m
  else
    let m := set_num m (s32 (m_free_page_num m + pow 2 order)) in
    let index := Z.shiftr (MAP_NR (u32 (addr - base m))) (1 + order) in
    let mask := u32 (Z.shiftl PAGE_MASK order) in
    let address := Z.land addr mask in
    let '(m, order, address) := free_loop (Z.to_nat MAX_ORDER + 1) m order index mask address in
    Done (add_to_head m (free_list m order) address).

(** [while (low < high)] of [expand]. *)
Fixpoint split_loop (fuel : nat) (m : mm_t) (addr low high size : Z) : mm_t * Z :=
  match fuel with
  | O => (m, addr)
  | S k =>
      if low <? high then
        let high := high - 1 in
        let size := Z.shiftr size 1 in
        let m := add_to_head m (free_list m high) addr in
        let m := mark_used m addr high in
        split_loop k m (u32 (size + addr)) low high size
      else (m, addr)
  end.

(** [for (i = 0; i < pow(2, low); i++, p += PAGE_SIZE) inc_page_ref(VA2PA(p));] *)
Fixpoint inc_refs (n : nat) (m : mm_t) (p : Z) : outcome mm_t :=
  match n with
  | O => Done m
  | S k => let! m := inc_page_ref m (VA2PA p) in inc_refs k m (u32 (p + PAGE_SIZE))
  end.

Definition expand (m : mm_t) (addr low high : Z) : outcome (Z * mm_t) :=
  let size := u32 (Z.shiftl PAGE_SIZE high) in
  let '(m, addr) := split_loop (Z.to_nat (high - low)) m addr low high size in
  let! m := inc_refs (Z.to_nat (pow 2 low)) m addr in
  Done (addr, m).

(** [do { ... new_order++; queue++; } while (new_order <= MAX_ORDER)] *)
Fixpoint alloc_loop (fuel : nat) (m : mm_t) (order new_order : Z) : outcome (Z * mm_t) :=
  match fuel with
  | O => Done (NULL, m)
  | S k =>
      let queue := free_list m new_order in
      let next := fl_next m queue in
      if negb (queue =? next) then
        let n1 := upd (fl_next m) queue (fl_next m next) in
        let p1 := upd (fl_prev m) (n1 next) queue in
        let m := mark_used (set_links m n1 p1) next new_order in
        expand m next order new_order
      else if new_order + 1 <=? MAX_ORDER then alloc_loop k m order (new_order + 1)
      else Done (NULL, m)
  end.

Definition alloc_pages (m : mm_t) (order : Z) : outcome (Z * mm_t) :=
  let m := set_num m (s32 (m_free_page_num m - pow 2 order)) in
  alloc_loop (Z.to_nat MAX_ORDER + 1) m order order.

(** [for (p = base; p < m_mem_end; p += PAGE_SIZE) free_pages(p, 0);] *)
Fixpoint free_boot_loop (n : nat) (m : mm_t) (p : Z) : outcome mm_t :=
  match n with
  | O => Done m
  | S k => if p <? m_mem_end m
           then let! m := free_pages m p 0 in free_boot_loop k m (p + PAGE_SIZE)
           else Done m
  end.

Definition free_boot_mem (m : mm_t) : outcome mm_t :=
  let m := set_num m 0 in
  free_boot_loop (Z.to_nat ((m_mem_end m - base m) / PAGE_SIZE + 1)) m (base m).

(** [init_pages]: one counter per page from the bottom of physical memory. *)
Fixpoint set_refs (n : nat) (r : gmap Z Z) (i : Z) : gmap Z Z :=
  match n with
  | O => r
  | S k => set_refs k (<[i := 1]> r) (i + 1)
  end.

Definition init_pages (m : mm_t) : mm_t :=
  let page_num := u32 (m_mem_end m - KERNEL_BASE) / PAGE_SIZE in
  let size := u32 (page_num * 4) in
  let '(_, m) := boot_mem_alloc m size 0 in
  set_pages m (set_refs (Z.to_nat page_num) (m_pages m) 0).

(** One round of the loop of [init_free_area]. *)
Definition bitmap_size (mem_start mem_end i : Z) : Z :=
  let s := Z.shiftr (u32 (mem_end - mem_start)) (PAGE_SHIFT + i) in
  let s := Z.shiftr (u32 (s + 7)) 3 in
  Z.land (u32 (s + 4 - 1)) (not32 (4 - 1)).

Definition init_order (m : mm_t) (mask i : Z) : mm_t * Z :=
  let h := free_list m i in
  let mask := u32 (mask + mask) in
  let mem_end := Z.land (m_mem_end m) mask in
  let sz := bitmap_size (m_mem_start m) mem_end i in
  (mk_mm (upd (fl_next m) h h) (upd (fl_prev m) h h) (free_list_addr m)
     (upd (free_list_map m) i (m_mem_start m))
     (filter (fun b => ~ (8 * m_mem_start m <= b < 8 * (m_mem_start m + sz))) (bits m))
     (base m) (m_pages m) (u32 (m_mem_start m + sz)) mem_end (m_free_page_num m), mask).

Fixpoint init_orders (n : nat) (m : mm_t) (mask i : Z) : mm_t * Z :=
  match n with
  | O => (m, mask)
  | S k => let '(m, mask) := init_order m mask i in init_orders k m mask (i + 1)
  end.

Definition set_base (m : mm_t) (b : Z) : mm_t :=
  mk_mm (fl_next m) (fl_prev m) (free_list_addr m) (free_list_map m) (bits m) b (m_pages m)
    (m_mem_start m) (m_mem_end m) (m_free_page_num m).

Definition init_free_area (m : mm_t) : outcome mm_t :=
  let '(m, mask) := init_orders (Z.to_nat MAX_ORDER + 1) m PAGE_MASK 0 in
  let m := init_pages m in
  free_boot_mem (set_base m (Z.land (u32 (m_mem_start m + not32 mask)) mask)).

(** ** Blocks *)

(** The size in bytes of a block of [order]. *)
Definition bsize (o : Z) : Z := PAGE_SIZE * 2 ^ o.

Definition covers (o a x : Z) : Prop := a <= x < a + bsize o.

(** A place where a block of order [o] may lie. *)
Definition block_in (m : mm_t) (o a : Z) : Prop :=
  base m <= a /\ a + bsize o <= m_mem_end m /\ (a - base m) mod bsize o = 0.

(** [x] lies in a block that one of the lists [F] holds. *)
Definition free_at (F : Z -> list Z) (x : Z) : Prop :=
  exists o a, 0 <= o <= MAX_ORDER /\ a ∈ F o /\ covers o a x.

Definition apart (o1 a1 o2 a2 : Z) : Prop := a1 + bsize o1 <= a2 \/ a2 + bsize o2 <= a1.

Definition fset (F : Z -> list Z) (o : Z) (l : list Z) : Z -> list Z :=
  fun j => if j =? o then l else F j.

(** Consecutive elements point at each other. *)
Fixpoint linked (n p : mem) (a : Z) (l : list Z) : Prop :=
  match l with
  | [] => True
  | b :: r => n a = b /\ p b = a /\ linked n p b r
  end.

Definition circ (n p : mem) (h : Z) (l : list Z) : Prop := linked n p h (l ++ [h]).

(** The two buddies of pair number [i] of order [o]. *)
Definition low (m : mm_t) (o i : Z) : Z := base m + i * bsize (o + 1).
Definition high (m : mm_t) (o i : Z) : Z := low m o i + bsize o.
Definition pair_in (m : mm_t) (o i : Z) : Prop := 0 <= i /\ low m o i + bsize (o + 1) <= m_mem_end m.
Definition bit_addr (m : mm_t) (o i : Z) : Z := 8 * free_list_map m o + i.

(** Where things lie: the managed memory is a whole number of the largest pairs
    of blocks, the list heads are outside it, each bitmap ends before the next
    one begins and every managed page has a counter. *)
Record geometry (m : mm_t) : Prop := {
  geo_base : KERNEL_BASE <= base m /\ base m mod bsize (MAX_ORDER + 1) = 0;
  geo_end : base m <= m_mem_end m < 2 ^ 32 /\ m_mem_end m mod bsize (MAX_ORDER + 1) = 0;
  geo_heads : 0 < free_list_addr m /\ free_list_addr m + 12 * (MAX_ORDER + 1) <= base m;
  geo_maps : forall o o', 0 <= o < o' -> o' <= MAX_ORDER ->
    bit_addr m o ((m_mem_end m - base m) / bsize (o + 1)) <= bit_addr m o' 0;
  geo_pages : forall x, base m <= x < m_mem_end m ->
    is_Some (m_pages m !! ((x - KERNEL_BASE) / PAGE_SIZE))
}.

Record lists_ok (m : mm_t) (F : Z -> list Z) : Prop := {
  lo_circ : forall o, 0 <= o <= MAX_ORDER -> circ (fl_next m) (fl_prev m) (free_list m o) (F o);
  lo_in : forall o a, 0 <= o <= MAX_ORDER -> a ∈ F o -> block_in m o a;
  lo_nodup : forall o, 0 <= o <= MAX_ORDER -> NoDup (F o);
  lo_apart : forall o1 a1 o2 a2, 0 <= o1 <= MAX_ORDER -> 0 <= o2 <= MAX_ORDER ->
    a1 ∈ F o1 -> a2 ∈ F o2 -> (o1, a1) <> (o2, a2) -> apart o1 a1 o2 a2
}.

(** Below the top order two buddies are never both free, and the bit of their
    pair tells whether one of them is. *)
Definition pair_ok (m : mm_t) (F : Z -> list Z) (o i : Z) : Prop :=
  (bit_addr m o i ∈ bits m <-> (low m o i ∈ F o \/ high m o i ∈ F o)) /\
  ~ (low m o i ∈ F o /\ high m o i ∈ F o).

Definition bits_ok (m : mm_t) (F : Z -> list Z) : Prop :=
  forall o i, 0 <= o < MAX_ORDER -> pair_in m o i -> pair_ok m F o i.

(** The allocator state [m] represents the lists of free blocks [F]. *)
Record buddy_ok (m : mm_t) (F : Z -> list Z) : Prop := {
  bo_geo : geometry m;
  bo_lists : lists_ok m F;
  bo_bits : bits_ok m F
}.

(** ** Arithmetic of blocks and masks *)

Lemma bsize_pow o : 0 <= o -> bsize o = 2 ^ (12 + o).
Proof. intros. unfold bsize, PAGE_SIZE. rewrite Z.pow_add_r by lia. reflexivity. Qed.

Lemma bsize_pos o : 0 <= o -> 4096 <= bsize o.
Proof. intros. unfold bsize, PAGE_SIZE. pose proof (Z.pow_pos_nonneg 2 o). lia. Qed.

Lemma bsize_succ o : 0 <= o -> bsize (o + 1) = 2 * bsize o.
Proof. intros. unfold bsize. rewrite Z.pow_add_r by lia. change (2 ^ 1) with 2. lia. Qed.

Lemma bsize_divide o : 0 <= o <= MAX_ORDER -> (bsize (o + 1) | bsize (MAX_ORDER + 1)).
Proof.
  intros. unfold MAX_ORDER in *. exists (2 ^ (6 - o)). rewrite !bsize_pow, <- Z.pow_add_r by lia.
  f_equal. lia.
Qed.

(** Rounding down to a block of order [o]. *)
Lemma order_cases o : 0 <= o <= 7 -> o = 0 \/ o = 1 \/ o = 2 \/ o = 3 \/ o = 4 \/ o = 5 \/ o = 6 \/ o = 7.
Proof. lia. Qed.

Lemma mask_value o : 0 <= o <= 7 -> u32 (Z.shiftl PAGE_MASK o) = 2 ^ 32 - bsize o.
Proof. intros H. destruct (order_cases o H) as [|[|[|[|[|[|[|]]]]]]]; subst; reflexivity. Qed.

Lemma mask_next o : 0 <= o <= 6 -> u32 (Z.shiftl (2 ^ 32 - bsize o) 1) = 2 ^ 32 - bsize (o + 1).
Proof.
  intros. rewrite <- !mask_value by lia. destruct (order_cases o) as [|[|[|[|[|[|[|]]]]]]]; [lia| subst; reflexivity..|lia].
Qed.

Lemma round_down a o : 0 <= o <= 7 -> 0 <= a < 2 ^ 32 -> Z.land a (2 ^ 32 - bsize o) = a - a mod bsize o.
Proof. intros. rewrite bsize_pow by lia. apply land_high_mask; lia. Qed.

Lemma neg_mask o : 0 <= o <= MAX_ORDER -> u32 (- (2 ^ 32 - bsize o)) = bsize o.
Proof.
  unfold MAX_ORDER. intros H. destruct (order_cases o) as [|[|[|[|[|[|[|]]]]]]]; try lia; subst; reflexivity.
Qed.

Lemma lxor_low k n : 0 <= n -> 0 <= k -> Z.lxor (2 * k * 2 ^ n) (2 ^ n) = (2 * k + 1) * 2 ^ n.
Proof.
  intros. rewrite <- Z.add_nocarry_lxor; [lia|].
  apply Z.bits_inj'. intros j Hj. rewrite Z.land_spec, Z.bits_0, Z.pow2_bits_eqb by lia.
  destruct (n =? j) eqn:E; [|apply andb_false_r]. tests. subst j.
  replace (2 * k * 2 ^ n) with (k * 2 ^ (n + 1)) by (rewrite Z.pow_add_r by lia; change (2^1) with 2; lia).
  rewrite Z.mul_pow2_bits_low by lia. reflexivity.
Qed.

Lemma lxor_high k n : 0 <= n -> 0 <= k -> Z.lxor ((2 * k + 1) * 2 ^ n) (2 ^ n) = 2 * k * 2 ^ n.
Proof.
  intros. rewrite <- lxor_low by lia. rewrite Z.lxor_assoc, Z.lxor_nilpotent. apply Z.lxor_0_r.
Qed.

Lemma pow2_value o : 0 <= o <= MAX_ORDER -> pow 2 o = 2 ^ o.
Proof.
  unfold MAX_ORDER. intros H. destruct (order_cases o) as [|[|[|[|[|[|[|]]]]]]]; try lia; subst; reflexivity.
Qed.

(** ** Pairs of buddies *)

Section Geometry.
Context (m : mm_t) (G : geometry m).

Lemma geo_mod o : 0 <= o <= MAX_ORDER ->
  base m mod bsize (o + 1) = 0 /\ exists E, 0 <= E /\ m_mem_end m = base m + E * bsize (o + 1).
Proof.
  intros Ho. destruct (geo_base _ G) as [_ Hb], (geo_end _ G) as [He Hm].
  pose proof (bsize_divide o Ho) as Hd. pose proof (bsize_pos (o + 1)). pose proof (bsize_pos 7).
  change (MAX_ORDER + 1) with 7 in *.
  apply Z.mod_divide in Hb; [|lia]. apply Z.mod_divide in Hm; [|lia].
  split; [apply Z.mod_divide; [lia|]; eapply Z.divide_trans; eauto|].
  assert (Hs : (bsize (o + 1) | m_mem_end m - base m))
    by (apply Z.divide_sub_r; eapply Z.divide_trans; eauto).
  destruct Hs as [E HE]. exists E. split; [nia | lia].
Qed.

Lemma block_range o a : 0 <= o -> block_in m o a -> 0 < a < 2 ^ 32 /\ KERNEL_BASE <= a.
Proof.
  intros Ho (H1 & H2 & _). destruct (geo_base _ G) as [Hb _], (geo_end _ G) as [He _].
  pose proof (bsize_pos o Ho). unfold KERNEL_BASE in *. lia.
Qed.

Lemma low_in o i : 0 <= o < MAX_ORDER -> pair_in m o i ->
  block_in m o (low m o i) /\ block_in m o (high m o i) /\ block_in m (o + 1) (low m o i).
Proof.
  intros Ho [Hi He]. pose proof (bsize_pos o ltac:(lia)). pose proof (bsize_succ o ltac:(lia)) as Hs.
  unfold block_in, high, low in *. rewrite Hs in *.
  replace (base m + i * (2 * bsize o) - base m) with (i * (2 * bsize o)) by lia.
  replace (base m + i * (2 * bsize o) + bsize o - base m) with ((2 * i + 1) * bsize o) by lia.
  rewrite !Z.mod_mul by lia. replace (i * (2 * bsize o)) with (2 * i * bsize o) by lia.
  rewrite Z.mod_mul by lia. nia.
Qed.

Lemma block_cases o a : 0 <= o <= MAX_ORDER -> block_in m o a ->
  exists i, pair_in m o i /\ (a - base m) / bsize (o + 1) = i /\ (a = low m o i \/ a = high m o i).
Proof.
  intros Ho (H1 & H2 & H3). destruct (geo_mod o ltac:(unfold MAX_ORDER in *; lia)) as (_ & E & HE0 & HE).
  pose proof (bsize_pos o ltac:(lia)). pose proof (bsize_succ o ltac:(lia)) as Hs.
  apply Z.mod_divide in H3 as [k Hk]; [|lia].
  exists (k / 2). unfold pair_in, low, high. rewrite Hs in *.
  assert (Hk2 : k = 2 * (k / 2) \/ k = 2 * (k / 2) + 1) by divlia.
  assert (Hq : (a - base m) / (2 * bsize o) = k / 2).
  { rewrite Hk, (Z.mul_comm 2), <- Z.div_div, Z.div_mul by lia. reflexivity. }
  assert (0 <= k) by nia. assert (k + 1 <= 2 * E) by nia.
  assert (0 <= k / 2 /\ k / 2 + 1 <= E) as [? ?] by divlia.
  split; [split; [lia | nia] | split; [exact Hq|]].
  unfold low. rewrite Hs. destruct Hk2; [left | right]; nia.
Qed.

Lemma index_value o a : 0 <= o -> block_in m o a ->
  Z.shiftr (MAP_NR (u32 (a - base m))) (1 + o) = (a - base m) / bsize (o + 1).
Proof.
  intros Ho Hb. pose proof (block_range o a Ho Hb). destruct Hb as (H1 & _).
  destruct (geo_base _ G) as [Hk _]. unfold KERNEL_BASE in *.
  rewrite u32_small by lia. unfold MAP_NR, PAGE_SHIFT.
  rewrite Z.shiftr_shiftr, Z.shiftr_div_pow2, bsize_pow by lia. do 2 f_equal. lia.
Qed.

Lemma buddy_low o i : 0 <= o < MAX_ORDER -> pair_in m o i ->
  get_buddy m (low m o i) (2 ^ 32 - bsize o) = high m o i.
Proof.
  intros Ho Hp. destruct (low_in o i Ho Hp) as (Hl & Hh & _).
  pose proof (block_range o _ ltac:(lia) Hl) as R1. pose proof (block_range o _ ltac:(lia) Hh) as R2.
  destruct (geo_base _ G) as [Hk _]. destruct Hp as [Hi _]. pose proof (bsize_pos o ltac:(lia)).
  unfold get_buddy, high, low, KERNEL_BASE in *. pose proof (bsize_succ o ltac:(lia)) as Hs.
  replace (base m + i * bsize (o + 1) - base m) with (2 * i * bsize o) by lia.
  rewrite (u32_small (2 * i * bsize o)) by lia.
  rewrite neg_mask, (bsize_pow o) by (unfold MAX_ORDER in *; lia). rewrite lxor_low by lia. rewrite <- (bsize_pow o) by lia.
  rewrite u32_small; lia.
Qed.

Lemma buddy_high o i : 0 <= o < MAX_ORDER -> pair_in m o i ->
  get_buddy m (high m o i) (2 ^ 32 - bsize o) = low m o i.
Proof.
  intros Ho Hp. destruct (low_in o i Ho Hp) as (Hl & Hh & _).
  pose proof (block_range o _ ltac:(lia) Hl) as R1. pose proof (block_range o _ ltac:(lia) Hh) as R2.
  destruct (geo_base _ G) as [Hk _]. destruct Hp as [Hi _]. pose proof (bsize_pos o ltac:(lia)).
  unfold get_buddy, high, low, KERNEL_BASE in *. pose proof (bsize_succ o ltac:(lia)) as Hs.
  replace (base m + i * bsize (o + 1) + bsize o - base m) with ((2 * i + 1) * bsize o) by lia.
  rewrite (u32_small ((2 * i + 1) * bsize o)) by lia.
  rewrite neg_mask, (bsize_pow o) by (unfold MAX_ORDER in *; lia). rewrite lxor_high by lia. rewrite <- (bsize_pow o) by lia.
  rewrite u32_small; lia.
Qed.

Lemma round_low o i a : 0 <= o < MAX_ORDER -> pair_in m o i -> a = low m o i \/ a = high m o i ->
  Z.land a (2 ^ 32 - bsize (o + 1)) = low m o i.
Proof.
  intros Ho Hp Ha. destruct (low_in o i Ho Hp) as (Hl & Hh & _).
  pose proof (block_range o _ ltac:(lia) Hl) as R1. pose proof (block_range o _ ltac:(lia) Hh) as R2.
  destruct (geo_mod o ltac:(unfold MAX_ORDER in *; lia)) as [Hb _].
  pose proof (bsize_pos o ltac:(lia)). pose proof (bsize_succ o ltac:(lia)) as Hs.
  rewrite round_down by (unfold MAX_ORDER in *; destruct Ha; subst; lia).
  apply Z.mod_divide in Hb as [k Hk]; [|lia].
  destruct Ha as [->| ->]; unfold high, low; rewrite Hk.
  - replace (k * bsize (o + 1) + i * bsize (o + 1)) with ((k + i) * bsize (o + 1)) by lia.
    rewrite Z.mod_mul; lia.
  - replace (k * bsize (o + 1) + i * bsize (o + 1) + bsize o) with (bsize o + (k + i) * bsize (o + 1)) by lia.
    rewrite Z.mod_add, Z.mod_small; lia.
Qed.

(** A block is already rounded. *)
Lemma round_block o a : 0 <= o <= MAX_ORDER -> block_in m o a ->
  Z.land a (2 ^ 32 - bsize o) = a.
Proof.
  intros Ho Hb. pose proof (block_range o _ ltac:(lia) Hb) as R. destruct Hb as (_ & _ & Ha).
  destruct (geo_mod o Ho) as [Hb _]. pose proof (bsize_pos o ltac:(lia)).
  rewrite round_down by (unfold MAX_ORDER in *; lia). rewrite bsize_succ in Hb by lia.
  apply Z.mod_divide in Hb as [k Hk]; [|lia]. apply Z.mod_divide in Ha as [j Hj]; [|lia].
  replace a with ((2 * k + j) * bsize o) at 2 by lia. rewrite Z.mod_mul; lia.
Qed.

(** Bits of different pairs are different bits. *)
Lemma bit_addr_inj o i o' i' : 0 <= o < MAX_ORDER -> pair_in m o i -> 0 <= o' <= MAX_ORDER ->
  0 <= i' -> low m o' i' < m_mem_end m -> bit_addr m o i = bit_addr m o' i' -> o = o' /\ i = i'.
Proof.
  intros Ho [Hi Hp] Ho' Hi' Hp' E. pose proof (bsize_pos (o + 1) ltac:(lia)). pose proof (bsize_pos (o' + 1) ltac:(lia)).
  unfold low in *.
  assert (Hlt : i < (m_mem_end m - base m) / bsize (o + 1)) by (assert (i + 1 <= (m_mem_end m - base m) / bsize (o + 1)) by (apply Z.div_le_lower_bound; nia); lia).
  destruct (geo_mod o' ltac:(lia)) as (_ & E' & HE0 & HE).
  assert (Hlt' : i' < (m_mem_end m - base m) / bsize (o' + 1)).
  { replace (m_mem_end m - base m) with (E' * bsize (o' + 1)) by lia. rewrite Z.div_mul by lia. nia. }
  unfold bit_addr in *. destruct (Z.lt_trichotomy o o') as [Hlo|[->|Hlo]].
  - pose proof (geo_maps _ G o o' ltac:(lia) ltac:(lia)) as Hm. unfold bit_addr in Hm. lia.
  - lia.
  - pose proof (geo_maps _ G o' o ltac:(lia) ltac:(lia)) as Hm. unfold bit_addr in Hm. lia.
Qed.

End Geometry.

(** ** Circular lists *)

Lemma rev_case {A} (l : list A) : l = [] \/ exists l' x, l = l' ++ [x].
Proof. induction l as [|y l _] using rev_ind; eauto. Qed.

Lemma linked_app n p a l1 b l2 :
  linked n p a (l1 ++ b :: l2) <-> linked n p a (l1 ++ [b]) /\ linked n p b l2.
Proof.
  revert a. induction l1 as [|c l1 IH]; intros a; simpl; [tauto|]. rewrite IH. tauto.
Qed.

Lemma linked_ext n p n' p' a l z :
  (forall x, x ∈ a :: l -> n' x = n x) -> (forall x, x ∈ l ++ [z] -> p' x = p x) ->
  linked n p a (l ++ [z]) -> linked n' p' a (l ++ [z]).
Proof.
  revert a. induction l as [|b l IH]; intros a Hn Hp; simpl.
  - rewrite Hn, Hp by set_solver. auto.
  - intros (<- & Hb & H). rewrite Hn, (Hp (n a)) by set_solver. split_and!; auto.
    apply IH; [set_solver | | exact H]. intros x Hx. apply Hp. set_solver.
Qed.

Lemma circ_ext n p n' p' h l :
  (forall x, x ∈ h :: l -> n' x = n x /\ p' x = p x) -> circ n p h l -> circ n' p' h l.
Proof.
  intros He. apply linked_ext; intros x Hx; apply He; set_solver.
Qed.

Lemma circ_next_in n p h l : circ n p h l -> n h ∈ h :: l.
Proof. destruct l; intros (H & _); rewrite H; set_solver. Qed.

Lemma circ_empty n p h l : circ n p h l -> (h ∉ l) -> (n h = h <-> l = []).
Proof.
  destruct l as [|a l]; intros (H & _) Hn; [tauto|]. rewrite H. split; [intros ->; set_solver | discriminate].
Qed.

Lemma circ_add n p h l e :
  circ n p h l -> NoDup (h :: l) -> (e ∉ h :: l) ->
  circ (upd (upd n e (n h)) h e) (upd (upd p e h) (n h) e) h (e :: l).
Proof.
  intros Hc Hnd He. assert (Hen : e <> n h) by (pose proof (circ_next_in _ _ _ _ Hc); set_solver).
  assert (Heh : e <> h) by set_solver. unfold circ in *.
  destruct l as [|f l]; simpl in *; destruct Hc as (Hf & Hp & Hl).
  - rewrite Hf. rewrite !upd_eq, (upd_ne _ h e e), upd_eq, (upd_ne _ h e e), upd_eq by congruence. auto.
  - rewrite Hf in *. rewrite !upd_eq, (upd_ne _ f e e), upd_eq, (upd_ne _ h e e), upd_eq by congruence.
    split_and!; auto. apply NoDup_cons in Hnd as [Hh Hnd]. apply NoDup_cons in Hnd as [Hfl _].
    eapply linked_ext; [| |exact Hl]; intros x Hx.
    + rewrite !upd_ne by set_solver. reflexivity.
    + assert (x <> f) by (apply elem_of_app in Hx; set_solver). rewrite !upd_ne by set_solver. reflexivity.
Qed.

Lemma circ_neighbours n p h l1 e l2 :
  circ n p h (l1 ++ e :: l2) ->
  n e = hd h l2 /\ p e = List.last l1 h.
Proof.
  unfold circ. rewrite <- app_assoc. simpl. rewrite linked_app. intros [H1 H2]. split.
  - destruct l2 as [|f l2]; simpl in *; tauto.
  - clear H2. revert h H1. induction l1 as [|a l1 IH]; intros h; simpl; [tauto|].
    intros (_ & _ & H). rewrite (IH a H). destruct l1; [reflexivity|]. simpl.
    clear. revert z. induction l1; intros z; [reflexivity | apply IHl1].
Qed.

Lemma circ_remove n p h l1 e l2 :
  circ n p h (l1 ++ e :: l2) -> NoDup (h :: l1 ++ e :: l2) ->
  circ (upd n (p e) (n e)) (upd p (n e) (p e)) h (l1 ++ l2).
Proof.
  intros Hc Hnd. destruct (circ_neighbours _ _ _ _ _ _ Hc) as [Hne Hpe].
  unfold circ in *. rewrite <- app_assoc in *. simpl in Hc. apply linked_app in Hc as [H1 H2].
  apply NoDup_cons in Hnd as [Hh Hnd]. apply NoDup_app in Hnd as (Hnd1 & Hd & Hnd2).
  apply NoDup_cons in Hnd2 as [He2 Hnd2].
  assert (Hfront : forall f, n e = f -> (f ∉ l1) ->
    linked (upd n (p e) (n e)) (upd p (n e) (p e)) h (l1 ++ [f])).
  { intros f Hf Hf1. rewrite Hf. destruct (rev_case l1) as [->|(l & z & ->)].
    - simpl in *. rewrite Hpe, !upd_eq. auto.
    - rewrite List.last_last in Hpe. rewrite <- app_assoc in *. simpl in *.
      apply linked_app in H1 as [H1 _]. apply linked_app. rewrite Hpe.
      apply NoDup_app in Hnd1 as (_ & Hz & _). split.
      + eapply linked_ext; [| |exact H1]; intros x Hx; rewrite upd_ne; try reflexivity; set_solver.
      + simpl. rewrite !upd_eq. auto. }
  assert (Hz : p e ∈ h :: l1).
  { rewrite Hpe. destruct (rev_case l1) as [->|(l & z & ->)]; [set_solver|]. rewrite List.last_last. set_solver. }
  destruct l2 as [|f l2]; simpl in *; destruct H2 as (Hf & Hpf & H2).
  - rewrite Hne in *. apply Hfront; auto. set_solver.
  - apply linked_app. split; [apply Hfront; auto; set_solver|].
    apply NoDup_cons in Hnd2 as [Hf2 Hnd2]. rewrite Hne in *.
    eapply linked_ext; [| |exact H2]; intros x Hx; rewrite upd_ne; try reflexivity; set_solver.
Qed.

(** ** The seven lists together *)

Lemma fset_eq F o l : fset F o l o = l.
Proof. unfold fset. rewrite Z.eqb_refl. reflexivity. Qed.

Lemma fset_ne F o l j : j <> o -> fset F o l j = F j.
Proof. intros H. unfold fset. apply Z.eqb_neq in H. rewrite H. reflexivity. Qed.

(** Taking an entry out of its circular list. *)
Definition unlink (m : mm_t) (a : Z) : mm_t :=
  set_links m (upd (fl_next m) (fl_prev m a) (fl_next m a))
              (upd (fl_prev m) (fl_next m a) (fl_prev m a)).

(** A block that no list holds and that overlaps none they hold. *)
Definition loose (F : Z -> list Z) (o a : Z) : Prop :=
  forall o' b, 0 <= o' <= MAX_ORDER -> b ∈ F o' -> apart o a o' b.

Section Lists.
Context (m : mm_t) (F : Z -> list Z) (G : geometry m) (L : lists_ok m F).

Lemma head_ne_block o a : 0 <= o <= MAX_ORDER -> base m <= a -> free_list m o <> a.
Proof. intros Ho Ha. destruct (geo_heads _ G). unfold free_list. unfold MAX_ORDER in *. lia. Qed.

Lemma elems_ne o j x y : 0 <= o <= MAX_ORDER -> 0 <= j <= MAX_ORDER -> j <> o ->
  x ∈ free_list m j :: F j -> y ∈ free_list m o :: F o -> x <> y.
Proof.
  intros Ho Hj Hne Hx Hy. apply elem_of_cons in Hx. apply elem_of_cons in Hy.
  destruct Hx as [->|Hx], Hy as [->|Hy].
  - unfold free_list. lia.
  - apply head_ne_block; auto. apply (lo_in _ _ L o); auto.
  - apply not_eq_sym, head_ne_block; auto. apply (lo_in _ _ L j); auto.
  - intros ->. pose proof (lo_apart _ _ L j y o y Hj Ho Hx Hy ltac:(congruence)) as Ha.
    pose proof (bsize_pos o ltac:(lia)). pose proof (bsize_pos j ltac:(lia)). unfold apart in Ha. lia.
Qed.

Lemma nodup_head o : 0 <= o <= MAX_ORDER -> NoDup (free_list m o :: F o).
Proof.
  intros Ho. constructor; [|apply L; exact Ho]. intros Hin.
  apply (head_ne_block o (free_list m o)); auto. apply (lo_in _ _ L o); auto.
Qed.

Lemma loose_notin o a j : 0 <= o <= MAX_ORDER -> 0 <= j <= MAX_ORDER -> block_in m o a -> loose F o a ->
  a ∉ free_list m j :: F j.
Proof.
  intros Ho Hj (Hb & _) Hl Hin. apply elem_of_cons in Hin as [->|Hin].
  - eapply (head_ne_block j); eauto.
  - pose proof (Hl _ _ Hj Hin) as Ha. pose proof (bsize_pos o ltac:(lia)). pose proof (bsize_pos j ltac:(lia)).
    unfold apart in Ha. lia.
Qed.

Lemma lists_add o a : 0 <= o <= MAX_ORDER -> block_in m o a -> loose F o a ->
  lists_ok (add_to_head m (free_list m o) a) (fset F o (a :: F o)).
Proof.
  intros Ho Hb Hl. pose proof (loose_notin o a o Ho Ho Hb Hl) as Hn.
  unfold add_to_head. rewrite (upd_ne _ a _ (free_list m o)) by set_solver.
  constructor; simpl.
  - intros j Hj. change (free_list _ j) with (free_list m j). destruct (Z.eq_dec j o) as [->|Hne].
    + rewrite fset_eq. apply circ_add; auto; [apply L; auto | apply nodup_head; auto].
    + rewrite fset_ne by auto. eapply circ_ext; [|apply L; exact Hj]. intros x Hx.
      pose proof (circ_next_in _ _ _ _ (lo_circ _ _ L o Ho)) as Hf.
      pose proof (loose_notin o a j Ho Hj Hb Hl) as Hnj.
      assert (x <> a) by (intros ->; contradiction).
      rewrite !upd_ne; auto; apply (elems_ne o j); auto; left.
  - intros j b Hj. destruct (Z.eq_dec j o) as [->|Hne]; [rewrite fset_eq | rewrite fset_ne by auto].
    + intros Hin. apply elem_of_cons in Hin as [->|Hin]; [exact Hb | apply (lo_in _ _ L o); auto].
    + apply (lo_in _ _ L j); auto.
  - intros j Hj. destruct (Z.eq_dec j o) as [->|Hne]; [rewrite fset_eq | rewrite fset_ne by auto; apply L; auto].
    constructor; [set_solver | apply L; auto].
  - intros o1 a1 o2 a2 H1 H2. assert (Hsym : forall p x q y, apart p x q y -> apart q y p x)
      by (unfold apart; intros; lia).
    assert (Hin : forall j b, b ∈ fset F o (a :: F o) j -> (j = o /\ b = a) \/ b ∈ F j).
    { intros j b. destruct (Z.eq_dec j o) as [->|Hne]; [rewrite fset_eq | rewrite fset_ne by auto]; set_solver. }
    intros I1 I2 Hne. apply Hin in I1. apply Hin in I2.
    destruct I1 as [[-> ->]|I1], I2 as [[-> ->]|I2].
    + congruence.
    + apply Hl; auto.
    + apply Hsym, Hl; auto.
    + apply (lo_apart _ _ L); auto.
Qed.

Lemma lists_remove o l1 a l2 : 0 <= o <= MAX_ORDER -> F o = l1 ++ a :: l2 ->
  lists_ok (unlink m a) (fset F o (l1 ++ l2)) /\ loose (fset F o (l1 ++ l2)) o a.
Proof.
  intros Ho HF. pose proof (lo_circ _ _ L o Ho) as Hc. rewrite HF in Hc.
  pose proof (nodup_head o Ho) as Hnd. rewrite HF in Hnd.
  destruct (circ_neighbours _ _ _ _ _ _ Hc) as [Hne Hpe].
  assert (Hsub : forall j b, b ∈ fset F o (l1 ++ l2) j -> b ∈ F j).
  { intros j b. destruct (Z.eq_dec j o) as [->|Hj]; [rewrite fset_eq, HF | rewrite fset_ne by auto]; set_solver. }
  split; [constructor; simpl|].
  - intros j Hj. change (free_list _ j) with (free_list m j). destruct (Z.eq_dec j o) as [->|Hjo].
    + rewrite fset_eq. apply circ_remove; auto.
    + rewrite fset_ne by auto. eapply circ_ext; [|apply L; exact Hj]. intros x Hx.
      assert (Hn1 : fl_next m a ∈ free_list m o :: F o).
      { rewrite Hne, HF. destruct l2; simpl; set_solver. }
      assert (Hp1 : fl_prev m a ∈ free_list m o :: F o).
      { rewrite Hpe, HF. destruct (rev_case l1) as [->|(l & z & ->)]; [|rewrite List.last_last]; set_solver. }
      rewrite !upd_ne; auto; apply (elems_ne o j); auto.
  - intros j b Hj Hb. apply (lo_in _ _ L j b Hj (Hsub _ _ Hb)).
  - intros j Hj. destruct (Z.eq_dec j o) as [->|Hjo]; [rewrite fset_eq | rewrite fset_ne by auto; apply L; auto].
    pose proof (lo_nodup _ _ L o Ho) as Hd. rewrite HF, <- Permutation_middle in Hd. apply NoDup_cons in Hd. tauto.
  - intros o1 a1 o2 a2 H1 H2 I1 I2. apply (lo_apart _ _ L); auto.
  - intros j b Hj Hb. apply (lo_apart _ _ L); auto; [rewrite HF; set_solver|].
    intros [= <- <-]. rewrite fset_eq in Hb. pose proof (lo_nodup _ _ L o Ho) as Hd.
    rewrite HF, <- Permutation_middle in Hd. apply NoDup_cons in Hd. tauto.
Qed.

End Lists.

(** ** Giving a block to a list, taking one from a list *)

(** What no operation of the allocator moves. *)
Definition same_place (m m' : mm_t) : Prop :=
  base m' = base m /\ m_mem_end m' = m_mem_end m /\ free_list_addr m' = free_list_addr m /\
  free_list_map m' = free_list_map m.

Lemma same_place_trans m1 m2 m3 : same_place m1 m2 -> same_place m2 m3 -> same_place m1 m3.
Proof. unfold same_place. intros (-> & -> & -> & ->) (-> & -> & -> & ->). auto. Qed.

Definition toggle (m : mm_t) (o i : Z) : mm_t := snd (change_bit m i (free_list_map m o)).

Lemma toggle_in m o i b :
  b ∈ bits (toggle m o i) <->
  (b = bit_addr m o i /\ (b ∉ bits m)) \/ (b <> bit_addr m o i /\ b ∈ bits m).
Proof.
  unfold toggle, change_bit, bit_addr. destruct (decide _); simpl; set_solver.
Qed.

Lemma change_bit_eq m o i :
  change_bit m i (free_list_map m o) = (bool_decide (bit_addr m o i ∈ bits m), toggle m o i).
Proof.
  unfold toggle, change_bit, bit_addr. destruct (decide _) as [H|H]; simpl;
    [rewrite bool_decide_true by exact H | rewrite bool_decide_false by exact H]; reflexivity.
Qed.

Lemma toggle_same m o i : same_place m (toggle m o i) /\ m_pages (toggle m o i) = m_pages m.
Proof. unfold toggle, change_bit. destruct (decide _); simpl; repeat split. Qed.

Lemma toggle_links m o i : fl_next (toggle m o i) = fl_next m /\ fl_prev (toggle m o i) = fl_prev m.
Proof. unfold toggle, change_bit. destruct (decide _); simpl; repeat split. Qed.

Lemma geometry_same m m' : same_place m m' -> m_pages m' = m_pages m -> geometry m -> geometry m'.
Proof.
  intros (E1 & E2 & E3 & E4) E5 [H1 H2 H3 H4 H5].
  constructor; unfold bit_addr in *; rewrite ?E1, ?E2, ?E3, ?E4, ?E5; auto.
Qed.

Lemma lists_same m m' F : same_place m m' -> fl_next m' = fl_next m -> fl_prev m' = fl_prev m ->
  lists_ok m F -> lists_ok m' F.
Proof.
  intros (E1 & E2 & E3 & E4) E5 E6 [H1 H2 H3 H4].
  constructor; unfold block_in, free_list in *; rewrite ?E1, ?E2, ?E3, ?E4, ?E5, ?E6; auto.
Qed.

Lemma bits_same m m' F : same_place m m' -> bits m' = bits m -> bits_ok m F -> bits_ok m' F.
Proof.
  intros (E1 & E2 & E3 & E4) E5 H o i Ho. unfold pair_in, pair_ok, bit_addr, high, low in *.
  rewrite E1, E2, E4, E5. apply (H o i Ho).
Qed.

Lemma buddy_ok_same m m' F : same_place m m' -> m_pages m' = m_pages m -> fl_next m' = fl_next m ->
  fl_prev m' = fl_prev m -> bits m' = bits m -> buddy_ok m F -> buddy_ok m' F.
Proof.
  intros Hs Hp Hn Hv Hb [G L B].
  split; [eapply geometry_same | eapply lists_same | eapply bits_same]; eauto.
Qed.

(** Changing one list and one bit: only the pair concerned has to be looked at. *)
Lemma bits_update m m' F o i l :
  geometry m -> bits_ok m F -> same_place m m' -> 0 <= o <= MAX_ORDER -> 0 <= i -> low m o i < m_mem_end m ->
  bits m' = bits (toggle m o i) ->
  (forall b, b <> low m o i -> b <> high m o i -> (b ∈ l <-> b ∈ F o)) ->
  (o < MAX_ORDER -> pair_in m o i -> (bit_addr m o i ∉ bits m) <-> (low m o i ∈ l \/ high m o i ∈ l)) ->
  (o < MAX_ORDER -> pair_in m o i -> ~ (low m o i ∈ l /\ high m o i ∈ l)) ->
  bits_ok m' (fset F o l).
Proof.
  intros G B (E1 & E2 & E3 & E4) Ho Hi Hlt Eb Hl Hbit Hboth o' i' Ho' Hp'.
  assert (Hpm : pair_in m o' i') by (unfold pair_in, low in *; rewrite <- E1, <- E2; exact Hp').
  assert (Elow : low m' o' i' = low m o' i') by (unfold low; rewrite E1; reflexivity).
  assert (Ehigh : high m' o' i' = high m o' i') by (unfold high; rewrite Elow; reflexivity).
  unfold pair_ok, bit_addr at 1. rewrite Elow, Ehigh, E4, Eb, toggle_in. fold (bit_addr m o' i').
  destruct (decide (o' = o /\ i' = i)) as [[-> ->]|Hne].
  - rewrite fset_eq. specialize (Hbit ltac:(lia) Hpm). specialize (Hboth ltac:(lia) Hpm). tauto.
  - assert (Hba : bit_addr m o' i' <> bit_addr m o i).
    { intros E. apply Hne. apply (bit_addr_inj m G o' i' o i); auto. }
    specialize (B o' i' Ho' Hpm). unfold pair_ok in B. destruct (Z.eq_dec o' o) as [->|Hoo].
    + rewrite fset_eq. assert (i' <> i) by tauto.
      pose proof (bsize_pos o ltac:(lia)). pose proof (bsize_succ o ltac:(lia)).
      unfold high, low in *. rewrite !Hl by nia. tauto.
    + rewrite fset_ne by auto. tauto.
Qed.

Lemma free_at_add F o a x : 0 <= o <= MAX_ORDER ->
  free_at (fset F o (a :: F o)) x <-> free_at F x \/ covers o a x.
Proof.
  intros Ho. unfold free_at. split.
  - intros (j & b & Hj & Hb & Hc). destruct (Z.eq_dec j o) as [->|Hne].
    + rewrite fset_eq in Hb. apply elem_of_cons in Hb as [->|Hb]; eauto 6.
    + rewrite fset_ne in Hb by auto. eauto 6.
  - intros [(j & b & Hj & Hb & Hc)|Hc].
    + exists j, b. split_and!; try tauto. destruct (Z.eq_dec j o) as [->|Hne];
        [rewrite fset_eq; set_solver | rewrite fset_ne by auto; auto].
    + exists o, a. rewrite fset_eq. split_and!; try tauto. set_solver.
Qed.

Lemma free_at_take F o l1 a l2 x : 0 <= o <= MAX_ORDER -> F o = l1 ++ a :: l2 ->
  free_at F x <-> free_at (fset F o (l1 ++ l2)) x \/ covers o a x.
Proof.
  intros Ho HF. unfold free_at. split.
  - intros (j & b & Hj & Hb & Hc). destruct (Z.eq_dec j o) as [->|Hne].
    + rewrite HF in Hb. destruct (decide (b = a)) as [->|]; [auto|]. left. exists o, b.
      rewrite fset_eq. split_and!; try tauto. set_solver.
    + left. exists j, b. rewrite fset_ne by auto. auto.
  - intros [(j & b & Hj & Hb & Hc)|Hc].
    + exists j, b. split_and!; try tauto. destruct (Z.eq_dec j o) as [->|Hne];
        [rewrite fset_eq in Hb; rewrite HF; set_solver | rewrite fset_ne in Hb by auto; auto].
    + exists o, a. split_and!; try tauto. rewrite HF. set_solver.
Qed.

Lemma loose_not_free F o a x : loose F o a -> 0 <= o -> covers o a x -> ~ free_at F x.
Proof.
  intros Hl Ho Hc (j & b & Hj & Hb & Hc'). specialize (Hl j b Hj Hb). unfold apart, covers in *. lia.
Qed.

Lemma give_top m F a : buddy_ok m F -> block_in m MAX_ORDER a -> loose F MAX_ORDER a ->
  buddy_ok (add_to_head m (free_list m MAX_ORDER) a) (fset F MAX_ORDER (a :: F MAX_ORDER)).
Proof.
  intros [G L B] Hb Hl. split.
  - eapply geometry_same; [| |exact G]; repeat split.
  - apply lists_add; auto. unfold MAX_ORDER. lia.
  - intros o i Ho Hp. specialize (B o i Ho Hp). unfold pair_ok in *. rewrite fset_ne by (unfold MAX_ORDER in *; lia).
    exact B.
Qed.

Lemma give_ok m F o a b i : buddy_ok m F -> 0 <= o < MAX_ORDER -> pair_in m o i ->
  (a = low m o i /\ b = high m o i) \/ (a = high m o i /\ b = low m o i) ->
  loose F o a -> (b ∉ F o) ->
  buddy_ok (add_to_head (toggle m o i) (free_list m o) a) (fset F o (a :: F o)).
Proof.
  intros [G L B] Ho Hp Hab Hl Hb. destruct (low_in m o i Ho Hp) as (Hlo & Hhi & _).
  destruct (toggle_same m o i) as [Hs Hpg]. destruct (toggle_links m o i) as [Hn Hv].
  assert (G' : geometry (toggle m o i)) by (eapply geometry_same; eauto).
  assert (L' : lists_ok (toggle m o i) F) by (eapply lists_same; eauto).
  assert (Ha : block_in m o a) by (destruct Hab as [[-> _]|[-> _]]; auto).
  assert (Han : a ∉ F o).
  { pose proof (loose_notin m F G o a o) as H. intros Hin. apply H; auto; try lia. right. exact Hin. }
  split.
  - eapply geometry_same; [| |exact G']; repeat split.
  - replace (free_list m o) with (free_list (toggle m o i) o)
      by (unfold free_list; destruct Hs as (_ & _ & -> & _); reflexivity).
    apply lists_add; auto; [lia|]. unfold block_in. destruct Hs as (-> & -> & _). exact Ha.
  - pose proof (bsize_pos o ltac:(lia)). pose proof (bsize_pos (o + 1) ltac:(lia)).
    pose proof (B o i Ho Hp) as [B1 B2].
    apply (bits_update m _ F o i); auto; try lia; try (destruct Hp; unfold low in *; lia).
    + intros c H1 H2. destruct Hab as [[-> ->]|[-> ->]]; set_solver.
    + intros _ _. rewrite B1. destruct Hab as [[-> ->]|[-> ->]]; set_solver.
    + intros _ _. unfold high in *. destruct Hab as [[-> ->]|[-> ->]]; rewrite !elem_of_cons; intros [[?|?] [?|?]]; try lia; tauto.
Qed.

Lemma take_ok m F o l1 a l2 i : buddy_ok m F -> 0 <= o <= MAX_ORDER -> F o = l1 ++ a :: l2 ->
  i = (a - base m) / bsize (o + 1) ->
  buddy_ok (toggle (unlink m a) o i) (fset F o (l1 ++ l2)) /\ loose (fset F o (l1 ++ l2)) o a.
Proof.
  intros [G L B] Ho HF ->. destruct (lists_remove m F G L o l1 a l2 Ho HF) as [L' Hl]. split; [|exact Hl].
  set (m1 := unlink m a) in *. set (i := (a - base m) / bsize (o + 1)).
  assert (G1 : geometry m1) by (eapply geometry_same; [| |exact G]; repeat split).
  destruct (toggle_same m1 o i) as [Hs Hpg]. destruct (toggle_links m1 o i) as [Hn Hv].
  assert (Ha : block_in m o a) by (apply (lo_in _ _ L); auto; rewrite HF; set_solver).
  pose proof (bsize_pos o ltac:(lia)). pose proof (bsize_pos (o + 1) ltac:(lia)).
  split; [eapply geometry_same; eauto | eapply lists_same; eauto |].
  pose proof (lo_nodup _ _ L o Ho) as Hd. rewrite HF, <- Permutation_middle in Hd. apply NoDup_cons in Hd as [Hd _].
  destruct (block_cases m G o a Ho Ha) as (i' & Hp & Ei & Hab). fold i in Ei. subst i'.
  apply (bits_update m _ F o i); auto; try (destruct Hp; unfold low in *; lia).
  - unfold toggle, change_bit. simpl. destruct (decide _); reflexivity.
  - intros b H1 H2. rewrite HF. assert (b <> a) by (destruct Hab; congruence). set_solver.
  - intros Ho' _. destruct (B o i ltac:(lia) Hp) as [B1 B2]. rewrite B1, HF.
    destruct Hab as [E|E]; rewrite HF, E in *; set_solver.
  - intros Ho' _. destruct (B o i ltac:(lia) Hp) as [B1 B2]. rewrite HF in B2. set_solver.
Qed.

(** ** Freeing *)

Lemma next_ne m F o a : geometry m -> lists_ok m F -> 0 <= o <= MAX_ORDER -> a ∈ F o -> fl_next m a <> a.
Proof.
  intros G L Ho Ha. apply list_elem_of_split in Ha as (l1 & l2 & HF).
  pose proof (lo_circ _ _ L o Ho) as Hc. pose proof (nodup_head m F G L o Ho) as Hnd. rewrite HF in *.
  destruct (circ_neighbours _ _ _ _ _ _ Hc) as [-> _]. apply NoDup_cons in Hnd as [Hh Hnd].
  apply NoDup_app in Hnd as (_ & _ & Hnd). apply NoDup_cons in Hnd as [Ha _].
  destruct l2; simpl; set_solver.
Qed.

Lemma remove_head_toggle m F o a i h : geometry m -> lists_ok m F -> 0 <= o <= MAX_ORDER -> a ∈ F o ->
  remove_head (toggle m o i) h a = toggle (unlink m a) o i.
Proof.
  intros G L Ho Ha. pose proof (next_ne m F o a G L Ho Ha) as Hne.
  unfold remove_head, toggle, change_bit, unlink. simpl. destruct (decide _); simpl;
    rewrite upd_ne by auto; reflexivity.
Qed.

Lemma block_same m m' o a : same_place m m' -> block_in m o a -> block_in m' o a.
Proof. unfold block_in. intros (-> & -> & _). auto. Qed.

(** The two buddies make up the pair. *)
Lemma covers_pair m o i a b x : 0 <= o ->
  (a = low m o i /\ b = high m o i) \/ (a = high m o i /\ b = low m o i) ->
  covers (o + 1) (low m o i) x <-> covers o a x \/ covers o b x.
Proof.
  intros Ho H. unfold covers. rewrite bsize_succ by lia. pose proof (bsize_pos o Ho).
  destruct H as [[-> ->]|[-> ->]]; unfold high; lia.
Qed.

Lemma loose_pair F m o i a b : 0 <= o ->
  (a = low m o i /\ b = high m o i) \/ (a = high m o i /\ b = low m o i) ->
  loose F o a -> loose F o b -> (forall o' c, 0 <= o' <= MAX_ORDER -> c ∈ F o' -> c <> high m o i) ->
  loose F (o + 1) (low m o i).
Proof.
  intros Ho Hab H1 H2 Hc o' c Ho' Hin. specialize (H1 o' c Ho' Hin). specialize (H2 o' c Ho' Hin).
  pose proof (bsize_pos o Ho). pose proof (bsize_pos o' ltac:(lia)). specialize (Hc o' c Ho' Hin).
  unfold apart in *. rewrite bsize_succ by lia. unfold high in *.
  destruct Hab as [[-> ->]|[-> ->]]; lia.
Qed.

Definition merged (m : mm_t) (F : Z -> list Z) (o a : Z) (r : mm_t * Z * Z) : Prop :=
  let '(m', o', a') := r in
  let m'' := add_to_head m' (free_list m' o') a' in
  exists F', buddy_ok m'' F' /\ same_place m m'' /\ m_pages m'' = m_pages m /\
    (forall x, free_at F' x <-> free_at F x \/ covers o a x).

Lemma taken_same m a o i :
  same_place m (toggle (unlink m a) o i) /\ m_pages (toggle (unlink m a) o i) = m_pages m.
Proof. apply (toggle_same (unlink m a)). Qed.

(** One round of the loop, when the buddy is free: it leaves its list, and the
    pair is a block of the next order that nothing overlaps. *)
Lemma merge_step m F o a i b :
  buddy_ok m F -> 0 <= o < MAX_ORDER -> pair_in m o i -> loose F o a -> b ∈ F o ->
  (a = low m o i /\ b = high m o i) \/ (a = high m o i /\ b = low m o i) ->
  exists F', buddy_ok (toggle (unlink m b) o i) F' /\ loose F' (o + 1) (low m o i) /\
    (forall x, free_at F' x \/ covers (o + 1) (low m o i) x <-> free_at F x \/ covers o a x).
Proof.
  intros HB Ho Hp Hl Hbin Hb. pose proof HB as [G L B]. pose proof Hbin as HF.
  apply list_elem_of_split in HF as (l1 & l2 & HF).
  assert (Hbb : block_in m o b) by (apply (lo_in _ _ L); auto; lia).
  assert (Hib : i = (b - base m) / bsize (o + 1)).
  { destruct (block_cases m G o b ltac:(lia) Hbb) as (i' & _ & -> & Hi').
    pose proof (bsize_pos o ltac:(lia)). pose proof (bsize_succ o ltac:(lia)).
    unfold high, low in *. destruct Hb as [[-> ->]|[-> ->]], Hi'; nia. }
  destruct (take_ok m F o l1 b l2 i HB ltac:(lia) HF Hib) as [HB' Hlb].
  assert (Hsub : forall j c, c ∈ fset F o (l1 ++ l2) j -> c ∈ F j).
  { intros j c. destruct (Z.eq_dec j o) as [->|Hj]; [rewrite fset_eq, HF | rewrite fset_ne by auto]; set_solver. }
  exists (fset F o (l1 ++ l2)). split_and!; auto.
  - eapply loose_pair; eauto; [lia | intros o' c Ho' Hc; apply Hl; auto |].
    intros o' c Ho' Hc ->. pose proof (bsize_pos o ltac:(lia)). pose proof (bsize_pos o' ltac:(lia)).
    specialize (Hlb o' _ Ho' Hc). specialize (Hl o' _ Ho' (Hsub _ _ Hc)).
    unfold apart in *. destruct Hb as [[-> ->]|[-> ->]]; lia.
  - intros x. rewrite (covers_pair m o i a b x) by (auto; lia). rewrite (free_at_take F o l1 b l2 x) by (auto; lia).
    tauto.
Qed.

Lemma free_merge : forall fuel m F o a,
  buddy_ok m F -> 0 <= o <= MAX_ORDER -> block_in m o a -> loose F o a ->
  MAX_ORDER - o < Z.of_nat fuel ->
  merged m F o a (free_loop fuel m o ((a - base m) / bsize (o + 1)) (2 ^ 32 - bsize o) a).
Proof.
  induction fuel as [|fuel IH]; intros m F o a HB Ho Ha Hl Hf; [lia|]. cbn [free_loop].
  destruct (o <? MAX_ORDER) eqn:Eo; tests.
  2:{ assert (o = MAX_ORDER) as -> by lia. exists (fset F MAX_ORDER (a :: F MAX_ORDER)).
      split_and!; try reflexivity; [apply give_top; auto | repeat split | intros x; apply free_at_add; lia]. }
  pose proof HB as [G L B].
  destruct (block_cases m G o a Ho Ha) as (i & Hp & Ei & Hab). rewrite Ei, change_bit_eq.
  destruct (toggle_same m o i) as [Hs Hpg].
  assert (exists b, (a = low m o i /\ b = high m o i) \/ (a = high m o i /\ b = low m o i)) as [b Hb]
    by (destruct Hab as [->| ->]; eauto).
  assert (Han : a ∉ F o).
  { intros Hin. apply (loose_notin m F G o a o); auto. right. exact Hin. }
  destruct (B o i ltac:(lia) Hp) as [B1 B2].
  case_bool_decide as Hbit; simpl.
  - assert (Hbin : b ∈ F o) by (apply B1 in Hbit; destruct Hb as [[-> ->]|[-> ->]]; tauto).
    assert (Hbuddy : get_buddy (toggle m o i) a (2 ^ 32 - bsize o) = b).
    { transitivity (get_buddy m a (2 ^ 32 - bsize o)).
      - unfold get_buddy. destruct Hs as (-> & _). reflexivity.
      - destruct Hb as [[-> ->]|[-> ->]]; [apply buddy_low | apply buddy_high]; auto; lia. }
    rewrite Hbuddy, (remove_head_toggle m F) by auto.
    rewrite mask_next, (round_low m G o i a) by (unfold MAX_ORDER in *; auto; lia).
    destruct (merge_step m F o a i b HB ltac:(lia) Hp Hl Hbin Hb) as (F1 & HB1 & Hl1 & Hfree).
    destruct (taken_same m b o i) as [Hs1 Hpg1]. set (m1 := toggle (unlink m b) o i) in *.
    destruct (low_in m o i ltac:(lia) Hp) as (_ & _ & Hlow).
    specialize (IH m1 F1 (o + 1) (low m o i) HB1 ltac:(lia) (block_same _ _ _ _ Hs1 Hlow) Hl1 ltac:(lia)).
    replace ((low m o i - base m1) / bsize (o + 1 + 1)) with (Z.shiftr i 1) in IH.
    2:{ destruct Hs1 as (-> & _). unfold low. rewrite (bsize_succ (o + 1)), Z.shiftr_div_pow2 by lia.
        pose proof (bsize_pos (o + 1) ltac:(lia)). change (2 ^ 1) with 2.
        replace (base m + i * bsize (o + 1) - base m) with (i * bsize (o + 1)) by lia.
        rewrite Z.div_mul_cancel_r; lia. }
    destruct (free_loop _ _ _ _ _ _) as [[m' o'] a']. destruct IH as (F' & HB' & Hs' & Hpg' & Hfr').
    exists F'. split_and!; auto; [eapply same_place_trans; eauto | congruence |].
    intros x. rewrite Hfr'. apply Hfree.
  - exists (fset F o (a :: F o)). replace (free_list (toggle m o i) o) with (free_list m o)
      by (unfold free_list; destruct Hs as (_ & _ & -> & _); reflexivity).
    split_and!; auto; [|intros x; apply free_at_add; lia].
    eapply give_ok; eauto; [lia|]. destruct Hb as [[-> ->]|[-> ->]]; tauto.
Qed.

#[local] Arguments free_loop : simpl never.
#[local] Arguments Z.to_nat : simpl never.

(** The number of the physical page that holds the virtual address [x]. *)
Definition page_of (x : Z) : Z := (x - KERNEL_BASE) / PAGE_SIZE.

Lemma page_index x : KERNEL_BASE <= x < 2 ^ 32 -> Z.shiftr (VA2PA x) PAGE_SHIFT = page_of x.
Proof.
  intros Hx. unfold VA2PA, page_of, PAGE_SHIFT, KERNEL_BASE in *. rewrite u32_small by lia.
  rewrite Z.shiftr_div_pow2 by lia. reflexivity.
Qed.

Lemma buddy_ok_pages m F r : buddy_ok m F ->
  (forall i, is_Some (m_pages m !! i) -> is_Some (r !! i)) -> buddy_ok (set_pages m r) F.
Proof.
  intros [[H1 H2 H3 H4 H5] L B] Hr. split; [|apply (lists_same m); auto; repeat split | exact B].
  constructor; auto.
Qed.

Lemma insert_is_some (r : gmap Z Z) i v j : is_Some (r !! j) -> is_Some (<[i := v]> r !! j).
Proof.
  intros H. destruct (decide (i = j)) as [->|Hne];
    [rewrite lookup_insert_eq; eauto | rewrite lookup_insert_ne by auto; exact H].
Qed.

Lemma s32_id z : - 2 ^ 31 <= z < 2 ^ 31 -> s32 z = z.
Proof. intros. unfold s32. destruct (_ <? _) eqn:E; tests; divlia. Qed.

Lemma free_pages_spec m F addr o c :
  buddy_ok m F -> 0 <= o <= MAX_ORDER -> block_in m o addr -> loose F o addr ->
  m_pages m !! page_of addr = Some c -> 1 <= c < 2 ^ 31 ->
  exists m' F', free_pages m addr o = Done m' /\ buddy_ok m' F' /\ same_place m m' /\
    m_pages m' = <[page_of addr := c - 1]> (m_pages m) /\
    (forall x, free_at F' x <-> free_at F x \/ (c = 1 /\ covers o addr x)).
Proof.
  intros HB Ho Ha Hl Hc Hc1. pose proof (bo_geo _ _ HB) as G.
  destruct (block_range m G o addr ltac:(lia) Ha) as [R1 R2].
  unfold free_pages, dec_page_ref. rewrite page_index, Hc by lia. simpl.
  replace (c <=? 0) with false by lia. simpl. rewrite s32_id by lia.
  set (m1 := set_pages m _).
  assert (HB1 : buddy_ok m1 F) by (apply buddy_ok_pages; auto; intros; apply insert_is_some; auto).
  destruct (c - 1 =? 0) eqn:E; tests; simpl.
  - set (m2 := set_num m1 _).
    assert (HB2 : buddy_ok m2 F) by (apply (buddy_ok_same m1); auto; repeat split).
    change (base m1) with (base m). rewrite (index_value m G) by (auto; lia). rewrite mask_value by (unfold MAX_ORDER in *; lia).
    rewrite (round_block m G) by auto.
    pose proof (free_merge (Z.to_nat MAX_ORDER + 1) m2 F o addr HB2 Ho Ha Hl ltac:(unfold MAX_ORDER in *; lia)) as Hm.
    change (base m2) with (base m) in Hm.
    destruct (free_loop _ _ _ _ _ _) as [[m' o'] a']. destruct Hm as (F' & H1 & H2 & H3 & H4).
    do 2 eexists. split_and!; [reflexivity | exact H1 | exact H2 | exact H3 |].
    intros x. rewrite H4. intuition lia.
  - exists m1, F. split_and!; auto; [repeat split|]. intros x. intuition lia.
Qed.

(** ** Allocating *)

Lemma mark_used_value m o a : geometry m -> 0 <= o -> block_in m o a ->
  mark_used m a o = toggle m o ((a - base m) / bsize (o + 1)).
Proof. intros G Ho Ha. unfold mark_used, toggle. rewrite index_value by auto. reflexivity. Qed.

Lemma add_toggle m h a o i : toggle (add_to_head m h a) o i = add_to_head (toggle m o i) h a.
Proof. unfold toggle, change_bit. simpl. destruct (decide _); reflexivity. Qed.

(** The lower half of a loose block goes to its list, the upper half stays loose. *)
Lemma split_step m F o a : buddy_ok m F -> 0 <= o < MAX_ORDER -> block_in m (o + 1) a -> loose F (o + 1) a ->
  let m' := mark_used (add_to_head m (free_list m o) a) a o in
  let F' := fset F o (a :: F o) in
  buddy_ok m' F' /\ same_place m m' /\ m_pages m' = m_pages m /\ block_in m o (a + bsize o) /\
  loose F' o (a + bsize o) /\
  (forall x, free_at F x \/ covers (o + 1) a x <-> free_at F' x \/ covers o (a + bsize o) x).
Proof.
  intros HB Ho Ha Hl m' F'. pose proof HB as [G L B].
  pose proof (bsize_pos o ltac:(lia)). pose proof (bsize_succ o ltac:(lia)) as Hs.
  pose proof Ha as (Ha1 & Ha2 & Ha3). apply Z.mod_divide in Ha3 as [i Hi]; [|lia].
  assert (Ea : a = low m o i) by (unfold low; lia).
  assert (Hp : pair_in m o i) by (split; [nia | lia]).
  destruct (low_in m o i Ho Hp) as (Hlo & Hhi & _). rewrite <- Ea in Hlo.
  assert (Eh : high m o i = a + bsize o) by (unfold high; lia). rewrite Eh in Hhi.
  assert (Hidx : (a - base m) / bsize (o + 1) = i) by (rewrite Hi; apply Z.div_mul; lia).
  assert (Em : m' = add_to_head (toggle m o i) (free_list m o) a).
  { unfold m'. rewrite mark_used_value; [|eapply geometry_same; [| |exact G]; repeat split | lia | exact Hlo].
    simpl. rewrite Hidx. apply add_toggle. }
  assert (Hla : loose F o a) by (intros o' b Ho' Hb; specialize (Hl o' b Ho' Hb); unfold apart in *; lia).
  destruct (toggle_same m o i) as [Hsp Hpg].
  split_and!.
  - rewrite Em. apply (give_ok m F o a (high m o i) i); auto.
    rewrite Eh. intros Hin. specialize (Hl o _ ltac:(lia) Hin). unfold apart in Hl. lia.
  - rewrite Em. exact Hsp.
  - rewrite Em. exact Hpg.
  - exact Hhi.
  - intros o' b Ho' Hb. assert (Hbb : (o' = o /\ b = a) \/ b ∈ F o').
    { unfold F' in Hb. destruct (Z.eq_dec o' o) as [->|Hne]; [rewrite fset_eq in Hb | rewrite fset_ne in Hb by auto]; set_solver. }
    destruct Hbb as [[-> ->]|Hbb]; [unfold apart; lia|]. specialize (Hl o' b Ho' Hbb). unfold apart in *. lia.
  - intros x. unfold F'. rewrite free_at_add by lia. unfold covers. rewrite Hs. intuition lia.
Qed.

Lemma split_ok : forall fuel m F a lo hi,
  buddy_ok m F -> 0 <= lo <= hi -> hi <= MAX_ORDER -> block_in m hi a -> loose F hi a ->
  Z.of_nat fuel = hi - lo ->
  exists m' a' F', split_loop fuel m a lo hi (bsize hi) = (m', a') /\
    buddy_ok m' F' /\ same_place m m' /\ m_pages m' = m_pages m /\ block_in m lo a' /\ loose F' lo a' /\
    (forall x, free_at F x \/ covers hi a x <-> free_at F' x \/ covers lo a' x).
Proof.
  induction fuel as [|fuel IH]; intros m F a lo hi HB Hlo Hhi Ha Hl Hf; cbn [split_loop].
  { assert (hi = lo) as -> by lia. exists m, a, F. split_and!; auto; try tauto; repeat split. }
  replace (lo <? hi) with true by lia.
  replace hi with (hi - 1 + 1) in Ha, Hl by lia.
  assert (Hsz : bsize hi = 2 * bsize (hi - 1)).
  { replace hi with (hi - 1 + 1) at 1 by lia. apply bsize_succ. lia. }
  assert (Esz : Z.shiftr (bsize hi) 1 = bsize (hi - 1)).
  { rewrite Z.shiftr_div_pow2 by lia. change (2 ^ 1) with 2. rewrite Hsz, Z.mul_comm. apply Z.div_mul. lia. }
  destruct (split_step m F (hi - 1) a HB ltac:(lia) Ha Hl) as (HB1 & Hs1 & Hp1 & Hb1 & Hl1 & Hfree1).
  pose proof (block_range m (bo_geo _ _ HB) (hi - 1) _ ltac:(lia) Hb1) as [R _].
  rewrite Esz, (Z.add_comm _ a), u32_small by lia.
  set (m1 := mark_used _ _ _) in *. set (F1 := fset _ _ _) in *.
  destruct (IH m1 F1 (a + bsize (hi - 1)) lo (hi - 1) HB1 ltac:(lia) ltac:(lia)
              (block_same _ _ _ _ Hs1 Hb1) Hl1 ltac:(lia)) as (m' & a' & F' & E & HB' & Hs' & Hp' & Hb' & Hl' & Hfree').
  exists m', a', F'. split_and!; auto.
  - eapply same_place_trans; eauto.
  - congruence.
  - unfold block_in in *. destruct Hs1 as (E1 & E2 & _). rewrite E1, E2 in Hb'. exact Hb'.
  - intros x. rewrite <- Hfree', <- Hfree1. replace (hi - 1 + 1) with hi by lia. tauto.
Qed.

(** What [inc_refs] leaves in the table of counters. *)
Definition counted (p : Z) (n : nat) (r r' : gmap Z Z) : Prop :=
  forall i, r' !! i = if decide (page_of p <= i < page_of p + Z.of_nat n)
                      then (fun c => s32 (c + 1)) <$> r !! i else r !! i.

Lemma page_of_next p : page_of (p + PAGE_SIZE) = page_of p + 1.
Proof. unfold page_of, PAGE_SIZE. divlia. Qed.

Lemma inc_refs_ok : forall n m p,
  KERNEL_BASE <= p -> p + Z.of_nat n * PAGE_SIZE < 2 ^ 32 ->
  (forall i, page_of p <= i < page_of p + Z.of_nat n -> is_Some (m_pages m !! i)) ->
  exists r, inc_refs n m p = Done (set_pages m r) /\ counted p n (m_pages m) r.
Proof.
  induction n as [|n IH]; intros m p Hk Hp Hs; cbn [inc_refs].
  - exists (m_pages m). split; [destruct m; reflexivity|]. intros i. rewrite decide_False by lia. reflexivity.
  - unfold PAGE_SIZE in Hp. unfold inc_page_ref. rewrite page_index by (unfold PAGE_SIZE; lia).
    destruct (Hs (page_of p) ltac:(lia)) as [c Hc]. rewrite Hc. cbn [deref obind].
    rewrite u32_small by (unfold KERNEL_BASE, PAGE_SIZE in *; lia).
    destruct (IH (set_pages m (<[page_of p:=s32 (c + 1)]> (m_pages m))) (p + PAGE_SIZE)) as (r & E & Hr);
      [unfold PAGE_SIZE; lia | unfold PAGE_SIZE; lia | |].
    + intros i Hi. rewrite page_of_next in Hi. simpl. apply insert_is_some, Hs. lia.
    + rewrite E. exists r. split; [reflexivity|]. intros i. rewrite Hr, page_of_next. simpl m_pages.
      destruct (decide (i = page_of p)) as [->|Hne].
      * rewrite decide_False, decide_True by lia. rewrite lookup_insert_eq, Hc. reflexivity.
      * rewrite lookup_insert_ne by auto.
        destruct (decide (page_of p + 1 <= i < page_of p + 1 + Z.of_nat n));
          [rewrite decide_True by lia | rewrite decide_False by lia]; reflexivity.
Qed.

(** What an allocation of [order] does: it cuts a free block out, or finds none. *)
Definition allocated (m : mm_t) (F : Z -> list Z) (order p : Z) (m' : mm_t) (F' : Z -> list Z) : Prop :=
  buddy_ok m' F' /\ same_place m m' /\
  ((p = NULL /\ F' = F /\ m_pages m' = m_pages m /\ forall j, order <= j <= MAX_ORDER -> F j = []) \/
   (block_in m order p /\ (forall x, covers order p x -> free_at F x) /\
    (forall x, free_at F' x <-> free_at F x /\ ~ covers order p x) /\
    counted p (Z.to_nat (2 ^ order)) (m_pages m) (m_pages m'))).

Lemma expand_ok m F a lo hi :
  buddy_ok m F -> 0 <= lo <= hi -> hi <= MAX_ORDER -> block_in m hi a -> loose F hi a ->
  exists p m' F', expand m a lo hi = Done (p, m') /\ buddy_ok m' F' /\ same_place m m' /\
    block_in m lo p /\ loose F' lo p /\
    (forall x, free_at F x \/ covers hi a x <-> free_at F' x \/ covers lo p x) /\
    counted p (Z.to_nat (2 ^ lo)) (m_pages m) (m_pages m').
Proof.
  intros HB Hlo Hhi Ha Hl. unfold expand.
  replace (u32 (Z.shiftl PAGE_SIZE hi)) with (bsize hi)
    by (unfold MAX_ORDER in *; destruct (order_cases hi) as [|[|[|[|[|[|[|]]]]]]]; try lia; subst; reflexivity).
  destruct (split_ok (Z.to_nat (hi - lo)) m F a lo hi HB Hlo Hhi Ha Hl ltac:(lia))
    as (m1 & p & F' & -> & HB1 & Hs1 & Hp1 & Hb & Hl' & Hfree).
  rewrite pow2_value by lia. pose proof (bo_geo _ _ HB) as G. destruct (geo_base _ G) as [Hkb _].
  pose proof (Z.pow_pos_nonneg 2 lo). destruct (geo_end _ G) as [He _].
  destruct Hb as (Hb1 & Hb2 & Hb3). unfold bsize in Hb2.
  destruct (inc_refs_ok (Z.to_nat (2 ^ lo)) m1 p) as (r & -> & Hr); [lia | lia | |].
  { intros i Hi. rewrite Hp1.
    replace i with (page_of (KERNEL_BASE + i * PAGE_SIZE)) by (unfold page_of, PAGE_SIZE; divlia).
    apply (geo_pages _ G). unfold page_of, PAGE_SIZE in *.
    assert (Hal : p mod 4096 = 0).
    { destruct (geo_mod m G lo ltac:(lia)) as [Hbm _]. unfold bsize, PAGE_SIZE in *.
      apply Z.mod_divide in Hbm as [k1 Hk1]; [|lia]. apply Z.mod_divide in Hb3 as [k2 Hk2]; [|lia].
      rewrite Z.pow_add_r in Hk1 by lia. change (2 ^ 1) with 2 in Hk1.
      replace p with ((k1 * (2 ^ lo * 2) + k2 * 2 ^ lo) * 4096) by lia. apply Z.mod_mul. lia. }
    unfold KERNEL_BASE in *. divlia. }
  cbn [obind]. exists p, (set_pages m1 r), F'. rewrite <- Hp1. split_and!; auto.
  - apply buddy_ok_pages; auto. intros i Hi. specialize (Hr i).
    destruct (decide _); rewrite Hr; [|exact Hi]. destruct Hi as [c ->]. simpl. eauto.
  - unfold block_in, bsize. auto.
Qed.

Lemma alloc_loop_ok : forall fuel m F order n,
  buddy_ok m F -> 0 <= order <= n -> n <= MAX_ORDER -> MAX_ORDER - n < Z.of_nat fuel ->
  (forall j, order <= j < n -> F j = []) ->
  exists p m' F', alloc_loop fuel m order n = Done (p, m') /\ allocated m F order p m' F'.
Proof.
  induction fuel as [|fuel IH]; intros m F order n HB Ho Hn Hf Hempty; [lia|]. cbn [alloc_loop].
  pose proof HB as [G L B]. pose proof (lo_circ _ _ L n ltac:(lia)) as Hc.
  pose proof (nodup_head m F G L n ltac:(lia)) as Hnd.
  destruct (F n) as [|a l] eqn:HF.
  - destruct Hc as [-> _]. rewrite Z.eqb_refl. cbn [negb].
    assert (Hempty' : forall j, order <= j < n + 1 -> F j = []).
    { intros j Hj. destruct (Z.eq_dec j n) as [->|]; [exact HF | apply Hempty; lia]. }
    destruct (n + 1 <=? MAX_ORDER) eqn:E; tests.
    + destruct (IH m F order (n + 1) HB ltac:(lia) ltac:(lia) ltac:(lia) Hempty') as (p & m' & F' & E' & HA). eauto.
    + exists NULL, m, F. split; [reflexivity|]. split_and!; auto; [repeat split|].
      left. split_and!; auto. intros j Hj. apply Hempty'. lia.
  - destruct Hc as (Hn1 & Hp1 & Hc). rewrite Hn1.
    replace (free_list m n =? a) with false by (apply NoDup_cons in Hnd; destruct Hnd; symmetry; apply Z.eqb_neq; set_solver).
    cbn [negb]. assert (Ha : block_in m n a) by (apply (lo_in _ _ L); [lia | rewrite HF; set_solver]).
    replace (set_links m _ _) with (unlink m a).
    2:{ unfold unlink. rewrite Hp1, upd_ne; [reflexivity|]. apply NoDup_cons in Hnd. set_solver. }
    destruct (take_ok m F n [] a l _ HB ltac:(lia) HF eq_refl) as [HB1 Hl1].
    rewrite mark_used_value; [|eapply geometry_same; [| |exact G]; repeat split | lia | exact Ha].
    change (base (unlink m a)) with (base m).
    destruct (taken_same m a n ((a - base m) / bsize (n + 1))) as [Hs1 Hpg1].
    set (m1 := toggle _ _ _) in *. set (F1 := fset _ _ _) in *.
    destruct (expand_ok m1 F1 a order n HB1 Ho Hn (block_same _ _ _ _ Hs1 Ha) Hl1)
      as (p & m' & F' & -> & HB' & Hs' & Hb & Hl' & Hfree & Hcnt).
    exists p, m', F'. split; [reflexivity|]. split_and!; auto; [eapply same_place_trans; eauto|].
    right. rewrite <- Hpg1. unfold block_in in *. destruct Hs1 as (E1 & E2 & _). rewrite E1, E2 in Hb.
    assert (Hall : forall x, free_at F x <-> free_at F' x \/ covers order p x).
    { intros x. rewrite <- Hfree. apply (free_at_take F n [] a l x); [lia | exact HF]. }
    split_and!; try tauto.
    + intros x Hx. apply Hall. auto.
    + intros x. rewrite Hall. pose proof (loose_not_free F' order p x Hl' ltac:(lia)). tauto.
Qed.

Lemma alloc_pages_spec m F order :
  buddy_ok m F -> 0 <= order <= MAX_ORDER ->
  exists p m' F', alloc_pages m order = Done (p, m') /\ allocated m F order p m' F'.
Proof.
  intros HB Ho. unfold alloc_pages. set (m1 := set_num m _).
  assert (HB1 : buddy_ok m1 F) by (apply (buddy_ok_same m); auto; repeat split).
  apply (alloc_loop_ok (Z.to_nat MAX_ORDER + 1) m1 F order order HB1); unfold MAX_ORDER in *; lia || auto.
Qed.

(** ** The page source *)

(** Every free page has a zero reference count. *)
Definition refs_ok (m : mm_t) (F : Z -> list Z) : Prop :=
  forall x, free_at F x -> m_pages m !! page_of x = Some 0.

Lemma block_mod m o a : geometry m -> 0 <= o <= MAX_ORDER -> block_in m o a -> a mod PAGE_SIZE = 0.
Proof.
  intros G Ho (_ & _ & Hb3). destruct (geo_mod m G o Ho) as [Hbm _].
  pose proof (Z.pow_pos_nonneg 2 o). unfold bsize, PAGE_SIZE in *.
  apply Z.mod_divide in Hbm as [k1 Hk1]; [|rewrite Z.pow_add_r by lia; lia].
  apply Z.mod_divide in Hb3 as [k2 Hk2]; [|lia].
  rewrite Z.pow_add_r in Hk1 by lia. change (2 ^ 1) with 2 in Hk1.
  replace a with ((k1 * (2 ^ o * 2) + k2 * 2 ^ o) * 4096) by lia. apply Z.mod_mul. lia.
Qed.

(** [alloc_pages(0)] as the pools see it. *)
Definition alloc_one_page (m : mm_t) : Z * mm_t :=
  match alloc_pages m 0 with Done r => r | _ => (NULL, m) end.

Definition pages_in_use (m : mm_t) (A : gset Z) : Prop :=
  exists F, buddy_ok m F /\ forall p, p ∈ A -> ~ free_at F p.

#[export] Program Instance buddy_page_source : PageSource mm_t := {
  alloc_page := alloc_one_page;
  page_inv := pages_in_use
}.
Next Obligation.
  intros m A p m' (F & HB & HA) E. unfold alloc_one_page in E.
  destruct (alloc_pages_spec m F 0 HB ltac:(unfold MAX_ORDER; lia)) as (q & m1 & F1 & Eq & HB1 & Hs & Hcase).
  rewrite Eq in E. injection E as -> ->. destruct Hcase as [(-> & -> & _)|(Hb & Hin & Hfree & _)].
  - left. split; [reflexivity|]. exists F. auto.
  - right. pose proof (bo_geo _ _ HB) as G. destruct (block_range m G 0 p ltac:(lia) Hb) as [R _].
    pose proof (block_mod m 0 p G ltac:(unfold MAX_ORDER; lia) Hb) as Hmod.
    assert (Hc : covers 0 p p) by (unfold covers; pose proof (bsize_pos 0 ltac:(lia)); lia).
    destruct Hb as (_ & Hb & _). destruct (geo_end _ G) as [He _]. change (bsize 0) with PAGE_SIZE in Hb.
    split_and!; auto; try lia.
    + intros Hp. apply (HA _ Hp), Hin, Hc.
    + exists F1. split; [exact HB1|]. intros x Hx. rewrite Hfree. apply elem_of_union in Hx as [Hx|Hx].
      * apply elem_of_singleton in Hx as ->. tauto.
      * specialize (HA x Hx). tauto.
Qed.

(** ** Allocate, then free *)

Lemma page_block m o p x : geometry m -> 0 <= o <= MAX_ORDER -> block_in m o p -> covers o p x ->
  page_of p <= page_of x < page_of p + 2 ^ o.
Proof.
  intros G Ho Hb Hc. pose proof (block_mod m o p G Ho Hb) as Hm. destruct (geo_base _ G) as [Hk _].
  destruct Hb as (Hb & _). unfold covers, bsize, page_of, PAGE_SIZE in *.
  rewrite (Z.mul_comm 4096) in Hc. generalize dependent (2 ^ o). intros n Hc.
  unfold KERNEL_BASE in *. divlia.
Qed.

Lemma page_block_conv m o p x : geometry m -> 0 <= o <= MAX_ORDER -> block_in m o p ->
  page_of p <= page_of x < page_of p + 2 ^ o -> covers o p x.
Proof.
  intros G Ho Hb Hc. pose proof (block_mod m o p G Ho Hb) as Hm. destruct (geo_base _ G) as [Hk _].
  destruct Hb as (Hb & _). unfold covers, bsize, page_of, PAGE_SIZE in *.
  rewrite (Z.mul_comm 4096). generalize dependent (2 ^ o). intros n Hc.
  unfold KERNEL_BASE in *. divlia.
Qed.

(** After an allocation the pages of the block have one reference and the other
    free pages still have none. *)
Lemma allocated_refs m F o p m' F' : buddy_ok m F -> 0 <= o <= MAX_ORDER ->
  allocated m F o p m' F' -> p <> NULL -> refs_ok m F ->
  refs_ok m' F' /\ (forall x, covers o p x -> m_pages m' !! page_of x = Some 1).
Proof.
  intros HB Ho (_ & _ & [(-> & _)|(Hb & Hin & Hfree & Hcnt)]) Hp Hr; [contradiction|].
  pose proof (bo_geo _ _ HB) as G. pose proof (Z.pow_pos_nonneg 2 o).
  split; intros x Hx; rewrite Hcnt.
  - apply Hfree in Hx as [Hx Hnc]. rewrite decide_False; [apply Hr, Hx|].
    rewrite Z2Nat.id by lia. intros Hc. apply Hnc. eapply page_block_conv; eauto.
  - rewrite decide_True by (rewrite Z2Nat.id by lia; eapply page_block; eauto).
    rewrite (Hr x (Hin x Hx)). reflexivity.
Qed.

Lemma carved_loose F F1 o p : 0 <= o ->
  (forall x, free_at F1 x <-> free_at F x /\ ~ covers o p x) -> loose F1 o p.
Proof.
  intros Ho Hfree o' b Ho' Hb'. pose proof (bsize_pos o Ho).
  destruct (Z_lt_le_dec b (p + bsize o)) as [H1|]; [|unfold apart; lia].
  destruct (Z_lt_le_dec p (b + bsize o')) as [H2|]; [|unfold apart; lia]. exfalso.
  pose proof (bsize_pos o' ltac:(lia)).
  assert (Hx : free_at F1 (Z.max p b)) by (exists o', b; unfold covers; split_and!; auto; lia).
  apply Hfree in Hx as [_ Hx]. apply Hx. unfold covers. lia.
Qed.

Lemma alloc_free_roundtrip m F o p m1 :
  buddy_ok m F -> refs_ok m F -> 0 <= o <= MAX_ORDER -> alloc_pages m o = Done (p, m1) -> p <> NULL ->
  exists m2 F2, free_pages m1 p o = Done m2 /\ buddy_ok m2 F2 /\ (forall x, free_at F2 x <-> free_at F x) /\
    (o = 0 -> refs_ok m2 F2) /\
    (1 <= o -> free_at F2 (p + PAGE_SIZE) /\ m_pages m2 !! page_of (p + PAGE_SIZE) = Some 1).
Proof.
  intros HB Hr Ho E Hp.
  destruct (alloc_pages_spec m F o HB Ho) as (q & m1' & F1 & E1 & HA). rewrite E in E1. injection E1 as <- <-.
  destruct (allocated_refs m F o p m1 F1 HB Ho HA Hp Hr) as [Hr1 Hc1].
  destruct HA as (HB1 & Hs & [(? & _)|(Hb & Hin & Hfree & Hcnt)]); [contradiction|].
  pose proof (bsize_pos o ltac:(lia)) as Hbs. pose proof (bo_geo _ _ HB) as G.
  assert (Hb1 : block_in m1 o p) by (eapply block_same; eauto).
  assert (Hl : loose F1 o p) by (apply (carved_loose F); auto; lia).
  assert (Hpp : m_pages m1 !! page_of p = Some 1) by (apply Hc1; unfold covers; lia).
  destruct (free_pages_spec m1 F1 p o 1 HB1 Ho Hb1 Hl Hpp ltac:(lia)) as (m2 & F2 & E2 & HB2 & Hs2 & Hpg2 & Hfree2).
  assert (Hiff : forall x, free_at F2 x <-> free_at F x).
  { intros x. rewrite Hfree2, Hfree. pose proof (Hin x). unfold covers in *.
    destruct (decide (p <= x < p + bsize o)); tauto. }
  exists m2, F2. split_and!; auto.
  - intros -> x Hx. rewrite Hpg2. destruct (decide (page_of p = page_of x)) as [<-|Hne];
      [apply lookup_insert_eq|]. rewrite lookup_insert_ne by auto. apply Hr1, Hfree.
    split; [apply Hiff, Hx|]. intros Hc. apply Hne. pose proof (page_block m 0 p x G ltac:(lia) Hb Hc). lia.
  - intros Ho1. assert (Hcov : covers o p (p + PAGE_SIZE)).
    { unfold covers, bsize, PAGE_SIZE. pose proof (Z.pow_le_mono_r 2 1 o). lia. }
    split; [apply Hiff, Hin, Hcov|]. rewrite Hpg2, page_of_next, lookup_insert_ne by lia.
    rewrite <- page_of_next. apply Hc1, Hcov.
Qed.

(** ** Initialisation *)

(** What [init_free_area] is entered with: the kernel image ends at [m_mem_start],
    the list heads lie in it, and at least 4MB of memory follow it. *)
Record boot_state (m : mm_t) : Prop := {
  boot_heads : 0 < free_list_addr m /\ free_list_addr m + 12 * (MAX_ORDER + 1) <= m_mem_start m;
  boot_start : KERNEL_BASE <= m_mem_start m;
  boot_room : m_mem_start m + 2 ^ 22 <= m_mem_end m;
  boot_end : m_mem_end m < 2 ^ 32
}.

(** After [i] rounds of the loop, having started in [m0]. *)
Record init_inv (m0 m : mm_t) (i : Z) : Prop := {
  ii_addr : free_list_addr m = free_list_addr m0;
  ii_mod : 1 <= i -> m_mem_end m mod bsize i = 0;
  ii_end : m_mem_end m0 - bsize (i + 1) <= m_mem_end m <= m_mem_end m0;
  ii_start : m_mem_start m0 <= m_mem_start m <= m_mem_start m0 + i * 2 ^ 16;
  ii_links : forall j, 0 <= j < i ->
    fl_next m (free_list m j) = free_list m j /\ fl_prev m (free_list m j) = free_list m j;
  ii_map : forall j, 0 <= j < i -> m_mem_start m0 <= free_list_map m j;
  ii_last : forall j e b, 0 <= j < i -> m_mem_start m <= b <= e -> e <= m_mem_end m ->
    8 * free_list_map m j + (e - b) / bsize (j + 1) <= 8 * m_mem_start m;
  ii_maps : forall j j' e b, 0 <= j < j' -> j' < i -> m_mem_start m <= b <= e -> e <= m_mem_end m ->
    8 * free_list_map m j + (e - b) / bsize (j + 1) <= 8 * free_list_map m j';
  ii_bits : forall b, 8 * m_mem_start m0 <= b < 8 * m_mem_start m -> b ∉ bits m
}.

Lemma bitmap_size_ok s e i : 0 <= i <= MAX_ORDER -> KERNEL_BASE <= s <= e -> e < 2 ^ 32 ->
  (e - s) / bsize i <= 8 * bitmap_size s e i /\ 0 <= bitmap_size s e i <= 2 ^ 16.
Proof.
  intros Hi Hs He. unfold bitmap_size, PAGE_SHIFT, KERNEL_BASE in *.
  rewrite (u32_small (e - s)), (Z.shiftr_div_pow2 (e - s)) by lia. rewrite <- bsize_pow by lia.
  pose proof (bsize_pos i ltac:(lia)).
  assert (Hq : 0 <= (e - s) / bsize i <= 2 ^ 18).
  { split; [apply Z.div_pos; lia|]. apply Z.lt_succ_r, Z.div_lt_upper_bound; lia. }
  generalize dependent ((e - s) / bsize i). intros q Hq.
  rewrite (u32_small (q + 7)), Z.shiftr_div_pow2 by lia. change (2 ^ 3) with 8.
  assert (0 <= (q + 7) / 8 < 2 ^ 16) by divlia.
  change (not32 (4 - 1)) with (2 ^ 32 - 2 ^ 2). rewrite u32_small, land_high_mask by lia.
  change (2 ^ 2) with 4. divlia.
Qed.

Lemma div_shrink a b o : 0 <= o -> 0 <= a <= b -> a / bsize (o + 1) <= b / bsize o.
Proof.
  intros Ho Hab. rewrite bsize_succ by lia. pose proof (bsize_pos o Ho).
  transitivity (a / bsize o); [|apply Z.div_le_mono; lia].
  apply Z.div_le_compat_l; lia.
Qed.

Lemma init_order_ok m0 m i : boot_state m0 -> 0 <= i <= MAX_ORDER -> init_inv m0 m i ->
  exists m', init_order m (2 ^ 32 - bsize i) i = (m', 2 ^ 32 - bsize (i + 1)) /\ init_inv m0 m' (i + 1).
Proof.
  intros [Bh Bs Br Be] Hi I. pose proof (ii_start _ _ _ I) as Hst. pose proof (ii_end _ _ _ I) as Hen.
  pose proof (bsize_pos i ltac:(lia)). pose proof (bsize_succ i ltac:(lia)) as E1.
  pose proof (bsize_succ (i + 1) ltac:(lia)) as E2.
  assert (Hb7 : bsize (i + 1 + 1) <= 2 ^ 20).
  { rewrite bsize_pow by lia. apply Z.pow_le_mono_r; unfold MAX_ORDER in *; lia. }
  unfold MAX_ORDER, KERNEL_BASE in *.
  unfold init_order. replace (u32 (2 ^ 32 - bsize i + (2 ^ 32 - bsize i))) with (2 ^ 32 - bsize (i + 1)).
  2:{ destruct (order_cases i) as [|[|[|[|[|[|[|]]]]]]]; try lia; subst; reflexivity. }
  rewrite round_down by lia. set (e := m_mem_end m - m_mem_end m mod bsize (i + 1)).
  pose proof (Z.mod_pos_bound (m_mem_end m) (bsize (i + 1)) ltac:(lia)) as Hmod.
  assert (He : m_mem_start m <= e /\ e <= m_mem_end m) by (unfold e; lia).
  destruct (bitmap_size_ok (m_mem_start m) e i) as [Hq Hsz]; unfold MAX_ORDER, KERNEL_BASE in *; try lia.
  set (sz := bitmap_size (m_mem_start m) e i) in *.
  rewrite u32_small by lia. eexists. split; [reflexivity|]. constructor; cbn [m_mem_end m_mem_start free_list_addr fl_next fl_prev free_list_map bits].
  - apply I.
  - intros _. unfold e. rewrite Zminus_mod_idemp_r, Z.sub_diag. apply Z.mod_0_l. lia.
  - unfold e. lia.
  - lia.
  - intros j Hj. change (free_list _ j) with (free_list m j). destruct (Z.eq_dec j i) as [->|Hne].
    + rewrite !upd_eq. auto.
    + rewrite !upd_ne by (unfold free_list; lia). apply I. lia.
  - intros j Hj. destruct (Z.eq_dec j i) as [->|Hne]; [rewrite upd_eq; lia | rewrite upd_ne by lia; apply I; lia].
  - intros j x b Hj Hb Hx. destruct (Z.eq_dec j i) as [->|Hne].
    + rewrite upd_eq. pose proof (div_shrink (x - b) (e - m_mem_start m) i). lia.
    + rewrite upd_ne by lia. pose proof (ii_last _ _ _ I j x b). lia.
  - intros j j' x b Hj Hj' Hb Hx. rewrite (upd_ne _ i _ j) by lia. destruct (Z.eq_dec j' i) as [->|Hne].
    + rewrite upd_eq. apply (ii_last _ _ _ I); lia.
    + rewrite upd_ne by lia. apply (ii_maps _ _ _ I); lia.
  - intros b Hb Hin. apply elem_of_filter in Hin as [Hnb Hin].
    destruct (Z_lt_le_dec b (8 * m_mem_start m)); [|lia]. apply (ii_bits _ _ _ I b); auto. lia.
Qed.

Lemma init_orders_ok : forall n m0 m i, boot_state m0 -> init_inv m0 m i -> 0 <= i ->
  i + Z.of_nat n = MAX_ORDER + 1 ->
  exists m', init_orders n m (2 ^ 32 - bsize i) i = (m', 2 ^ 32 - bsize (MAX_ORDER + 1)) /\
    init_inv m0 m' (MAX_ORDER + 1).
Proof.
  induction n as [|n IH]; intros m0 m i HB I Hi Hn; cbn [init_orders].
  - assert (i = MAX_ORDER + 1) as -> by lia. eauto.
  - destruct (init_order_ok m0 m i HB ltac:(lia) I) as (m1 & -> & I1).
    apply IH; auto; lia.
Qed.

Lemma init_inv_start m : 0 <= m_mem_start m -> init_inv m m 0.
Proof.
  intros. pose proof (bsize_pos 1 ltac:(lia)). constructor; intros; try lia; try reflexivity.
  change (0 + 1) with 1. lia.
Qed.

Lemma set_refs_lookup : forall n r i k,
  set_refs n r i !! k = if decide (i <= k < i + Z.of_nat n) then Some 1 else r !! k.
Proof.
  induction n as [|n IH]; intros r i k; cbn [set_refs].
  - rewrite decide_False by lia. reflexivity.
  - rewrite IH. destruct (decide (k = i)) as [->|Hne].
    + rewrite decide_False, decide_True by lia. apply lookup_insert_eq.
    + rewrite lookup_insert_ne by auto.
      destruct (decide (i + 1 <= k < i + 1 + Z.of_nat n));
        [rewrite decide_True by lia | rewrite decide_False by lia]; reflexivity.
Qed.

Lemma free_boot_ok : forall n m F p,
  buddy_ok m F -> refs_ok m F -> base m <= p <= m_mem_end m -> (p - base m) mod PAGE_SIZE = 0 ->
  (forall x, free_at F x <-> base m <= x < p) ->
  (forall x, p <= x < m_mem_end m -> m_pages m !! page_of x = Some 1) ->
  (m_mem_end m - p) / PAGE_SIZE < Z.of_nat n ->
  exists m' F', free_boot_loop n m p = Done m' /\ buddy_ok m' F' /\ refs_ok m' F' /\ same_place m m' /\
    (forall x, free_at F' x <-> base m <= x < m_mem_end m).
Proof.
  induction n as [|n IH]; intros m F p HB Hr Hp Hmod Hfree Hone Hf; cbn [free_boot_loop].
  { unfold PAGE_SIZE in Hf. exfalso. divlia. }
  pose proof (bo_geo _ _ HB) as G. destruct (geo_mod m G 0 ltac:(unfold MAX_ORDER; lia)) as (Hb0 & E & HE0 & HE).
  change (bsize (0 + 1)) with 8192 in *.
  destruct (p <? m_mem_end m) eqn:Ep; tests.
  2:{ exists m, F. split_and!; auto; [repeat split|]. intros x. rewrite Hfree. assert (p = m_mem_end m) by lia. lia. }
  assert (Hblk : block_in m 0 p).
  { unfold block_in. change (bsize 0) with 4096. unfold PAGE_SIZE in *. split_and!; [lia | divlia | exact Hmod]. }
  assert (Hl : loose F 0 p).
  { intros o b Ho Hb. pose proof (bsize_pos o ltac:(lia)).
    assert (H1 : free_at F (b + bsize o - 1)) by (exists o, b; unfold covers; split_and!; auto; lia).
    apply Hfree in H1. unfold apart. lia. }
  destruct (free_pages_spec m F p 0 1 HB ltac:(unfold MAX_ORDER; lia) Hblk Hl (Hone p ltac:(lia)) ltac:(lia))
    as (m1 & F1 & -> & HB1 & Hs1 & Hpg1 & Hfree1).
  cbn [obind]. pose proof Hs1 as (Eb & Ee & _).
  assert (Hpage : forall x, base m <= x < p \/ p + PAGE_SIZE <= x < m_mem_end m -> page_of x <> page_of p).
  { pose proof (block_mod m 0 p G ltac:(unfold MAX_ORDER; lia) Hblk) as Hm0. destruct (geo_base _ G) as [Hk _].
    intros x Hx. unfold page_of, PAGE_SIZE, KERNEL_BASE in *. divlia. }
  assert (Hfree2 : forall x, free_at F1 x <-> base m <= x < p + PAGE_SIZE).
  { intros x. rewrite Hfree1, Hfree. unfold covers. change (bsize 0) with PAGE_SIZE. unfold PAGE_SIZE. lia. }
  destruct (IH m1 F1 (p + PAGE_SIZE) HB1) as (m' & F' & -> & HB' & Hr' & Hs' & Hfree'); rewrite ?Eb, ?Ee; auto.
  - intros x Hx. apply Hfree2 in Hx. rewrite Hpg1. destruct (decide (page_of x = page_of p)) as [->|Hne];
      [apply lookup_insert_eq|]. rewrite lookup_insert_ne by auto. apply Hr, Hfree.
    destruct (Z_lt_le_dec x p); [lia|]. exfalso. apply Hne.
    pose proof (page_block m 0 p x G ltac:(unfold MAX_ORDER; lia) Hblk) as Hpb. unfold covers in Hpb.
    change (bsize 0) with PAGE_SIZE in Hpb. change (2 ^ 0) with 1 in Hpb. lia.
  - unfold PAGE_SIZE in *. divlia.
  - unfold PAGE_SIZE in *. divlia.
  - intros x Hx. rewrite Hpg1, lookup_insert_ne by (apply not_eq_sym, Hpage; lia). apply Hone.
    unfold PAGE_SIZE in *. lia.
  - unfold PAGE_SIZE in *. divlia.
  - exists m', F'. rewrite Eb, Ee in Hfree'. split_and!; auto. eapply same_place_trans; eauto.
Qed.

(** The lists and bitmaps the loop of [init_free_area] leaves represent no free
    block at all. *)
Lemma init_empty m0 m b r : boot_state m0 -> init_inv m0 m (MAX_ORDER + 1) ->
  m_mem_start m <= b <= m_mem_end m -> b mod bsize (MAX_ORDER + 1) = 0 ->
  (forall x, b <= x < m_mem_end m -> is_Some (r !! page_of x)) ->
  buddy_ok (set_base (set_pages m r) b) (fun _ => []).
Proof.
  intros [Bh Bs Br Be] I Hb Hm Hr. pose proof (ii_start _ _ _ I) as Hst. pose proof (ii_end _ _ _ I) as Hen.
  split.
  - constructor; cbn [base m_mem_end free_list_addr m_pages set_base set_pages].
    + unfold KERNEL_BASE in *. split; [lia | exact Hm].
    + split; [lia|]. apply I. unfold MAX_ORDER. lia.
    + rewrite (ii_addr _ _ _ I). lia.
    + intros o o' Ho Ho'. unfold bit_addr. simpl. pose proof (ii_maps _ _ _ I o o' (m_mem_end m) b). lia.
    + exact Hr.
  - constructor; try (intros; set_solver); [|intros; constructor].
    intros o Ho. destruct (ii_links _ _ _ I o ltac:(lia)) as [H1 H2]. repeat split; [exact H1 | exact H2].
  - intros o i Ho [Hi Hp]. split; [|intros [H _]; revert H; apply not_elem_of_nil].
    split; [|intros [H|H]; exfalso; revert H; apply not_elem_of_nil]. intros Hin. exfalso.
    unfold low in *. simpl in Hp. revert Hin. unfold bit_addr. simpl. apply (ii_bits _ _ _ I).
    pose proof (ii_map _ _ _ I o ltac:(lia)). pose proof (ii_last _ _ _ I o (m_mem_end m) b ltac:(lia) ltac:(lia) ltac:(lia)).
    pose proof (bsize_pos (o + 1) ltac:(lia)).
    assert (i + 1 <= (m_mem_end m - b) / bsize (o + 1)) by (apply Z.div_le_lower_bound; nia). lia.
Qed.

Lemma init_free_area_spec m : boot_state m ->
  exists m' F, init_free_area m = Done m' /\ buddy_ok m' F /\ refs_ok m' F /\
    (forall x, free_at F x <-> base m' <= x < m_mem_end m') /\
    m_mem_start m <= base m' < m_mem_end m' /\ m_mem_end m - 2 ^ 20 <= m_mem_end m' <= m_mem_end m.
Proof.
  intros HB. pose proof HB as [Bh Bs Br Be]. unfold KERNEL_BASE in *.
  destruct (init_orders_ok (Z.to_nat MAX_ORDER + 1) m m 0 HB (init_inv_start m ltac:(lia)) ltac:(lia) ltac:(reflexivity))
    as (m1 & E & I).
  unfold init_free_area. change PAGE_MASK with (2 ^ 32 - bsize 0). rewrite E.
  pose proof (ii_start _ _ _ I) as Hst. pose proof (ii_end _ _ _ I) as Hen. pose proof (ii_mod _ _ _ I) as Hmod.
  change (bsize (MAX_ORDER + 1)) with (2 ^ 19) in *. change (bsize (MAX_ORDER + 1 + 1)) with (2 ^ 20) in *.
  unfold MAX_ORDER in Hst, Hmod.
  unfold init_pages, boot_mem_alloc, KERNEL_BASE, PAGE_SIZE. cbn [negb Z.eqb m_mem_start set_start m_pages].
  rewrite (u32_small (m_mem_end m1 - _)) by lia.
  set (np := (m_mem_end m1 - 3221225472) / 4096). assert (Hnp : 0 <= np <= 2 ^ 18) by (unfold np; divlia).
  rewrite (u32_small (np * 4)), (u32_small (m_mem_start m1 + _)) by lia.
  set (r := set_refs _ _ _). cbn [m_mem_start set_pages].
  change (not32 (2 ^ 32 - 2 ^ 19)) with (2 ^ 19 - 1).
  rewrite (u32_small (m_mem_start m1 + np * 4 + _)), land_high_mask by lia.
  set (b := m_mem_start m1 + np * 4 + (2 ^ 19 - 1) - _).
  assert (Hb : m_mem_start m1 <= b < m_mem_end m1 /\ b mod 2 ^ 19 = 0) by (unfold b; divlia).
  assert (Hr : forall x, b <= x < m_mem_end m1 -> r !! page_of x = Some 1).
  { intros x Hx. unfold r. rewrite set_refs_lookup, decide_True; [reflexivity|].
    unfold page_of, np, KERNEL_BASE, PAGE_SIZE. divlia. }
  assert (HB0 : buddy_ok (set_base (set_pages m1 r) b) (fun _ => [])).
  { apply (init_empty m); auto; try tauto; [lia|]. intros x Hx. rewrite Hr by lia. eauto. }
  unfold free_boot_mem. set (m2 := set_num _ 0).
  assert (HB2 : buddy_ok m2 (fun _ => [])) by (eapply buddy_ok_same; [..|exact HB0]; repeat split).
  destruct (free_boot_ok (Z.to_nat ((m_mem_end m2 - base m2) / PAGE_SIZE + 1)) m2 (fun _ => []) (base m2))
    as (m' & F & E' & HB' & Hr' & (Eb & Ee & _) & Hfree); auto.
  - intros x (o & a & _ & Ha & _). exfalso. revert Ha. apply not_elem_of_nil.
  - simpl. lia.
  - rewrite Z.sub_diag. reflexivity.
  - intros x. split; [|lia]. intros (o & a & _ & Ha & _). exfalso. revert Ha. apply not_elem_of_nil.
  - assert (0 <= (m_mem_end m2 - base m2) / PAGE_SIZE) by (apply Z.div_pos; simpl; unfold PAGE_SIZE; lia). lia.
  - exists m', F. rewrite Eb, Ee. simpl. split_and!; auto; lia.
Qed.

(** ** The allocator is correct *)

(** [init_free_area] establishes the allocator: from the state the kernel
    boots in it returns, with lists and bitmaps that represent exactly the memory
    between [base] and [m_mem_end] as free, every counter there at zero, and the
    bitmaps not overlapping each other. *)
Theorem init_free_area_correct (m : mm_t) (Hboot : boot_state m) :
  exists m' F, init_free_area m = Done m' /\ buddy_ok m' F /\ refs_ok m' F /\
    (forall x, free_at F x <-> base m' <= x < m_mem_end m') /\
    m_mem_start m <= base m' < m_mem_end m' /\ m_mem_end m - 2 ^ 20 <= m_mem_end m' <= m_mem_end m.
Proof. exact (init_free_area_spec m Hboot). Qed.

(** C3: [alloc_pages] is correct: it returns (never faults), keeps the
    allocator's invariant, and either some block of the requested order, aligned,
    entirely free before and not free afterwards, nothing else changing, with one
    more reference on each of its pages; or [NULL], and then no list of the order
    or above it holds a block. *)
Theorem alloc_pages_correct (m : mm_t) (F : Z -> list Z) (order : Z)
  (Hok : buddy_ok m F) (Horder : 0 <= order <= MAX_ORDER) :
  exists p m' F', alloc_pages m order = Done (p, m') /\ allocated m F order p m' F'.
Proof. exact (alloc_pages_spec m F order Hok Horder). Qed.

(** C4: [free_pages] is correct: for a block that does not overlap the free ones
    it drops one reference of the first page; when that was the last one the
    block, merged with its free buddies, becomes free and nothing else changes;
    otherwise nothing becomes free. *)
Theorem free_pages_correct (m : mm_t) (F : Z -> list Z) (addr o c : Z)
  (Hok : buddy_ok m F) (Ho : 0 <= o <= MAX_ORDER) (Hin : block_in m o addr) (Hl : loose F o addr)
  (Hc : m_pages m !! page_of addr = Some c) (Hc1 : 1 <= c < 2 ^ 31) :
  exists m' F', free_pages m addr o = Done m' /\ buddy_ok m' F' /\ same_place m m' /\
    m_pages m' = <[page_of addr := c - 1]> (m_pages m) /\
    (forall x, free_at F' x <-> free_at F x \/ (c = 1 /\ covers o addr x)).
Proof. exact (free_pages_spec m F addr o c Hok Ho Hin Hl Hc Hc1). Qed.

(** allocating and freeing restores the free memory.  For single pages it
    also restores the counters; for a larger block only the first page's counter
    is dropped, so the second page is free again with a count of one. *)
Theorem alloc_then_free (m : mm_t) (F : Z -> list Z) (o p : Z) (m1 : mm_t)
  (Hok : buddy_ok m F) (Hrefs : refs_ok m F) (Ho : 0 <= o <= MAX_ORDER)
  (Halloc : alloc_pages m o = Done (p, m1)) (Hp : p <> NULL) :
  exists m2 F2, free_pages m1 p o = Done m2 /\ buddy_ok m2 F2 /\ (forall x, free_at F2 x <-> free_at F x) /\
    (o = 0 -> refs_ok m2 F2) /\
    (1 <= o -> free_at F2 (p + PAGE_SIZE) /\ m_pages m2 !! page_of (p + PAGE_SIZE) = Some 1).
Proof. exact (alloc_free_roundtrip m F o p m1 Hok Hrefs Ho Halloc Hp). Qed.

(** A machine with 8MB, the kernel image ending at 2MB. *)
Definition boot_mm : mm_t :=
  mk_mm (fun _ => 0) (fun _ => 0) 0xc0180000 (fun _ => 0) ∅ 0 ∅ 0xc0200000 0xc0800000 0.

Lemma boot_mm_ok : boot_state boot_mm.
Proof. constructor; simpl; unfold KERNEL_BASE, MAX_ORDER; lia. Qed.

Lemma init_free_area_correct_witness :
  exists m' F, init_free_area boot_mm = Done m' /\ buddy_ok m' F /\ refs_ok m' F /\
    (forall x, free_at F x <-> base m' <= x < m_mem_end m') /\
    m_mem_start boot_mm <= base m' < m_mem_end m' /\ m_mem_end boot_mm - 2 ^ 20 <= m_mem_end m' <= m_mem_end boot_mm.
Proof.
  apply (init_free_area_correct boot_mm).
  constructor; simpl; unfold KERNEL_BASE, MAX_ORDER; lia.
Defined.

Lemma alloc_pages_correct_witness :
  exists m F p m' F', init_free_area boot_mm = Done m /\
    alloc_pages m 2 = Done (p, m') /\ allocated m F 2 p m' F'.
Proof.
  destruct (init_free_area_spec boot_mm boot_mm_ok) as (m & F & E & HB & _).
  destruct (alloc_pages_correct m F 2 HB ltac:(unfold MAX_ORDER; lia)) as (p & m' & F' & H).
  exists m, F, p, m', F'. split; [exact E | exact H].
Defined.

(** In the booted state a page can be had, and it then has one reference. *)
Lemma boot_alloc_page : exists m F p m1 F1, init_free_area boot_mm = Done m /\ buddy_ok m F /\ refs_ok m F /\
  alloc_pages m 0 = Done (p, m1) /\ p <> NULL /\ buddy_ok m1 F1 /\ block_in m1 0 p /\ loose F1 0 p /\
  m_pages m1 !! page_of p = Some 1.
Proof.
  destruct (init_free_area_spec boot_mm boot_mm_ok) as (m & F & E & HB & Hr & Hfree & H1 & H2).
  assert (Ho : 0 <= 0 <= MAX_ORDER) by (unfold MAX_ORDER; lia).
  destruct (alloc_pages_spec m F 0 HB Ho) as (p & m1 & F1 & Ea & HA).
  pose proof HA as (HB1 & Hs & [(-> & _ & _ & Hempty)|(Hb & _ & Hfr & _)]).
  - exfalso. destruct (proj2 (Hfree (base m)) ltac:(lia)) as (o & a & Hoo & Hin & _).
    rewrite (Hempty o Hoo) in Hin. revert Hin. apply not_elem_of_nil.
  - assert (Hp : p <> NULL) by (pose proof (block_range m (bo_geo _ _ HB) 0 p ltac:(lia) Hb); unfold NULL; lia).
    destruct (allocated_refs m F 0 p m1 F1 HB Ho HA Hp Hr) as [_ Hc1].
    exists m, F, p, m1, F1. split; [exact E|]. split_and!; auto.
    + eapply block_same; eauto.
    + apply (carved_loose F); auto; lia.
    + apply Hc1. unfold covers. pose proof (bsize_pos 0). lia.
Qed.

Lemma free_pages_correct_witness :
  exists m1 F1 p m' F', free_pages m1 p 0 = Done m' /\ buddy_ok m' F' /\ same_place m1 m' /\
    m_pages m' = <[page_of p := 1 - 1]> (m_pages m1) /\
    (forall x, free_at F' x <-> free_at F1 x \/ (1 = 1 /\ covers 0 p x)).
Proof.
  destruct boot_alloc_page as (m & F & p & m1 & F1 & _ & _ & _ & _ & _ & HB1 & Hb & Hl & Hc).
  exists m1, F1, p. apply (free_pages_correct m1 F1 p 0 1 HB1); auto; unfold MAX_ORDER; lia.
Defined.

Lemma alloc_then_free_witness :
  exists m F p m1 m2 F2, alloc_pages m 0 = Done (p, m1) /\ free_pages m1 p 0 = Done m2 /\ buddy_ok m2 F2 /\
    (forall x, free_at F2 x <-> free_at F x) /\ (0 = 0 -> refs_ok m2 F2) /\
    (1 <= 0 -> free_at F2 (p + PAGE_SIZE) /\ m_pages m2 !! page_of (p + PAGE_SIZE) = Some 1).
Proof.
  destruct boot_alloc_page as (m & F & p & m1 & F1 & _ & HB & Hr & Ea & Hp & _).
  destruct (alloc_then_free m F 0 p m1 HB Hr ltac:(unfold MAX_ORDER; lia) Ea Hp) as (m2 & F2 & H).
  exists m, F, p, m1, m2, F2. split; [exact Ea | exact H].
Defined.
