(* ===== verification/Paging.v ===== *)
(** * Page tables (src/src/mm.cc, src/src/vm.cc)

    Page directories and tables are pages of 32-bit words.  [words] is memory by
    the word, indexed by the kernel virtual address of the word; physical
    addresses reach it through [PA2VA].  The allocator state is the [mm_t] of
    [Buddy].  A reload of [cr3] has no effect on this state. *)
From Stdlib Require Import ZArith ZifyBool Lia.
From stdpp Require Import base option list gmap.
From S2P Require Import Prelude Interfaces Buddy.

Definition PTE_P : Z := 1.
Definition PTE_W : Z := 2.
Definition PTE_U : Z := 4.
Definition NR_PTE_PER_PAGE : Z := 1024.
Definition USER_PDES : Z := 768.

Definition PD_INDEX (va : Z) : Z := Z.land (Z.shiftr va 22) 0x3ff.
Definition PT_INDEX (va : Z) : Z := Z.land (Z.shiftr va 12) 0x3ff.

(** [return -1] of a function that returns [uint32]. *)
Definition MINUS1 : Z := 2 ^ 32 - 1.

Record machine := mk_machine {
  words : mem;
  mm : mm_t
}.

Definition set_word (s : machine) (a v : Z) : machine := mk_machine (upd (words s) a v) (mm s).
Definition set_mm (s : machine) (m : mm_t) : machine := mk_machine (words s) m.

(** [pg_dir[i]], [table[i]] *)
Definition entry (s : machine) (table i : Z) : Z := words s (table + 4 * i).
Definition set_entry (s : machine) (table i v : Z) : machine := set_word s (table + 4 * i) v.

Definition present (e : Z) : bool := negb (Z.land e PTE_P =? 0).

(** [memset(table, 0, PAGE_SIZE)] *)
Fixpoint clear_words (n : nat) (w : mem) (a : Z) : mem :=
  match n with
  | O => w
  | S k => clear_words k (upd w a 0) (a + 4)
  end.

(** [memcpy(dst, src, PAGE_SIZE)] *)
Fixpoint copy_words (n : nat) (w : mem) (dst src : Z) : mem :=
  match n with
  | O => w
  | S k => copy_words k (upd w dst (w src)) (dst + 4) (src + 4)
  end.

Definition clear_page (s : machine) (a : Z) : machine :=
  mk_machine (clear_words (Z.to_nat NR_PTE_PER_PAGE) (words s) a) (mm s).

Definition memcpy_page (s : machine) (dst src : Z) : machine :=
  mk_machine (copy_words (Z.to_nat NR_PTE_PER_PAGE) (words s) dst src) (mm s).

(** The table a directory entry points at. *)
Definition table_of (pde : Z) : Z := PA2VA (Z.land pde PAGE_MASK).

(** The [for] loop of [map_pages]: at most one table's worth of entries. *)
Fixpoint fill_table (fuel : nat) (s : machine) (table i v e pa perm : Z) : machine * Z * Z :=
  match fuel with
  | O => (s, v, pa)
  | S k =>
      if (i <? NR_PTE_PER_PAGE) && (v <? e) then
        fill_table k (set_entry s table i (Z.lor (Z.lor pa PTE_P) perm)) table (i + 1)
          (u32 (v + PAGE_SIZE)) e (u32 (pa + PAGE_SIZE)) perm
      else (s, v, pa)
  end.

(** The [while] loop of [map_pages]; a page directory has 1024 entries. *)
Fixpoint map_loop (fuel : nat) (s : machine) (pde v e pa perm : Z) : outcome machine :=
  if negb (v <? e) then Done s
  else match fuel with
       | O => Fault
       | S k =>
           let! r := (if present (words s pde) then Done (s, table_of (words s pde))
                      else let! a := alloc_pages (mm s) 0 in
                           let '(pg_table, m) := a in
                           if pg_table =? NULL then Fault
                           else let s := clear_page (set_mm s m) pg_table in
                                Done (set_word s pde (Z.lor (Z.lor (Z.lor (VA2PA pg_table) PTE_P) PTE_W) 4), pg_table)) in
           let '(s, pg_table) := r in
           let '(s, v, pa) := fill_table (Z.to_nat NR_PTE_PER_PAGE) s pg_table (PT_INDEX v) v e pa perm in
           map_loop k s (pde + 4) v e pa perm
       end.

Definition map_pages (s : machine) (pg_dir va pa size perm : Z) : outcome machine :=
  let v := Z.land va PAGE_MASK in
  let e := Z.land (u32 (va + size)) PAGE_MASK in
  map_loop 1025 s (pg_dir + 4 * PD_INDEX va) v e (Z.land pa PAGE_MASK) perm.

(** [!table[i] & PTE_P] is [(!table[i]) & 1]: true exactly when the entry is zero. *)
Definition not_entry_and_p (e : Z) : bool := e =? 0.

Definition va_2_pa (s : machine) (pg_dir va : Z) : Z :=
  if KERNEL_BASE <=? va then VA2PA va
  else
    let pde := entry s pg_dir (PD_INDEX va) in
    if negb (present pde) then MINUS1
    else
      let table := table_of pde in
      if not_entry_and_p (entry s table (PT_INDEX va)) then MINUS1
      else
        let offset := u32 (va - Z.land va PAGE_MASK) in
        u32 (Z.land (entry s table (PT_INDEX va)) PAGE_MASK + offset).

Definition copy_page (s : machine) (pg_dir dst src : Z) : machine :=
  let dst := PA2VA (Z.land (va_2_pa s pg_dir dst) PAGE_MASK) in
  let src := PA2VA (Z.land (va_2_pa s pg_dir src) PAGE_MASK) in
  memcpy_page s dst src.

Definition make_pte_write (s : machine) (pg_dir va : Z) : machine :=
  if KERNEL_BASE <=? va then s
  else
    let pde := entry s pg_dir (PD_INDEX va) in
    if negb (present pde) then s
    else
      let table := table_of pde in
      if not_entry_and_p (entry s table (PT_INDEX va)) then s
      else set_entry s table (PT_INDEX va) (Z.lor (entry s table (PT_INDEX va)) PTE_W).

(** The inner loop of [copy_page_table]: one more reference per present page, and
    the entry write-protected. *)
Fixpoint share_table (n : nat) (s : machine) (table j : Z) : outcome machine :=
  match n with
  | O => Done s
  | S k =>
      let e := entry s table j in
      let! s := (if present e
                 then let! m := inc_page_ref (mm s) (Z.land e PAGE_MASK) in
                      Done (set_entry (set_mm s m) table j (Z.land e (not32 PTE_W)))
                 else Done s) in
      share_table k s table (j + 1)
  end.

(** The outer loop, over the user part of the directory; [false] is the [-1]. *)
Fixpoint copy_tables (n : nat) (s : machine) (new_dir pg_dir i : Z) : outcome (bool * machine) :=
  match n with
  | O => Done (true, s)
  | S k =>
      let pde := entry s pg_dir i in
      if negb (present pde) then copy_tables k s new_dir pg_dir (i + 1)
      else
        let table := table_of pde in
        let! a := alloc_pages (mm s) 0 in
        let '(new_table, m) := a in
        let s := set_mm s m in
        if new_table =? NULL then Done (false, s)
        else
          let! s := share_table (Z.to_nat NR_PTE_PER_PAGE) s table 0 in
          let s := memcpy_page s new_table table in
          let s := set_entry s new_dir i (Z.lor (VA2PA new_table) (Z.land (entry s pg_dir i) (not32 PAGE_MASK))) in
          copy_tables k s new_dir pg_dir (i + 1)
  end.

(** The result is the new directory, [NULL] for the [-1]. *)
Definition copy_page_table (s : machine) (pg_dir : Z) : outcome (Z * bool * machine) :=
  let! a := alloc_pages (mm s) 0 in
  let '(new_dir, m) := a in
  let s := set_mm s m in
  if new_dir =? NULL then Done (NULL, false, s)
  else
    let s := memcpy_page s new_dir pg_dir in
    let! r := copy_tables (Z.to_nat USER_PDES) s new_dir pg_dir 0 in
    Done (new_dir, fst r, snd r).

Fixpoint free_range_loop (fuel : nat) (s : machine) (pg_dir addr end_ : Z) : outcome machine :=
  match fuel with
  | O => Done s
  | S k =>
      if addr <? end_ then
        let pa := va_2_pa s pg_dir addr in
        let! s := (if negb (pa =? MINUS1)
                   then let! m := free_pages (mm s) (PA2VA pa) 0 in Done (set_mm s m)
                   else Done s) in
        free_range_loop k s pg_dir (u32 (addr + PAGE_SIZE)) end_
      else Done s
  end.

(** Enough rounds for the whole range: it has at most [(end - start) / PAGE_SIZE + 1] pages. *)
Definition free_page_range (s : machine) (pg_dir start end_ : Z) : outcome machine :=
  free_range_loop (Z.to_nat ((end_ - start) / PAGE_SIZE + 2)) s pg_dir (Z.land start PAGE_MASK) end_.

Fixpoint free_tables (n : nat) (s : machine) (pg_dir i : Z) : outcome machine :=
  match n with
  | O => Done s
  | S k =>
      let pde := entry s pg_dir i in
      if negb (present pde) then free_tables k s pg_dir (i + 1)
      else
        let! m := free_pages (mm s) (table_of pde) 0 in
        free_tables k (set_entry (set_mm s m) pg_dir i 0) pg_dir (i + 1)
  end.

Definition free_page_table (s : machine) (pg_dir : Z) : outcome machine :=
  free_tables (Z.to_nat USER_PDES) s pg_dir 0.

(** ** What a directory means *)

(** The page-table entry the hardware walk finds for [va]; zero without a table. *)
Definition pte_at (s : machine) (dir va : Z) : Z :=
  let pde := entry s dir (PD_INDEX va) in
  if present pde then entry s (table_of pde) (PT_INDEX va) else 0.

(** A page of kernel memory that is known to be in use. *)
Definition page_in (A : gset Z) (a : Z) : Prop :=
  a ∈ A /\ 0 < a /\ a mod PAGE_SIZE = 0 /\ a + PAGE_SIZE <= 2 ^ 32.

(** The directory and its tables are distinct pages of [A]. *)
Record dir_shape (s : machine) (dir : Z) (A : gset Z) : Prop := {
  ds_dir : page_in A dir;
  ds_table : forall i, 0 <= i < 1024 -> present (entry s dir i) = true ->
    page_in A (table_of (entry s dir i)) /\ table_of (entry s dir i) <> dir;
  ds_inj : forall i j, 0 <= i < 1024 -> 0 <= j < 1024 -> i <> j ->
    present (entry s dir i) = true -> present (entry s dir j) = true ->
    table_of (entry s dir i) <> table_of (entry s dir j)
}.

(** The same, with [A] the pages that the allocator has given out. *)
Record dir_ok (s : machine) (dir : Z) (A : gset Z) : Prop := {
  dk_inv : pages_in_use (mm s) A;
  dk_dir : page_in A dir;
  dk_table : forall i, 0 <= i < 1024 -> present (entry s dir i) = true ->
    page_in A (table_of (entry s dir i)) /\ table_of (entry s dir i) <> dir;
  dk_inj : forall i j, 0 <= i < 1024 -> 0 <= j < 1024 -> i <> j ->
    present (entry s dir i) = true -> present (entry s dir j) = true ->
    table_of (entry s dir i) <> table_of (entry s dir j)
}.

(** ** Words, masks and indices *)

Lemma mask12 : PAGE_MASK = 2 ^ 32 - 2 ^ 12.
Proof. reflexivity. Qed.

Lemma page_round a : 0 <= a < 2 ^ 32 -> Z.land a PAGE_MASK = a - a mod PAGE_SIZE.
Proof. intros. rewrite mask12, land_high_mask by lia. reflexivity. Qed.

Lemma pd_index v : 0 <= v < 2 ^ 32 -> PD_INDEX v = v / 2 ^ 22.
Proof.
  intros. unfold PD_INDEX. change 0x3ff with (Z.ones 10). rewrite Z.land_ones, Z.shiftr_div_pow2 by lia.
  apply Z.mod_small. divlia.
Qed.

Lemma pt_index v : PT_INDEX v = (v / 2 ^ 12) mod 1024.
Proof.
  unfold PT_INDEX. change 0x3ff with (Z.ones 10). rewrite Z.land_ones, Z.shiftr_div_pow2 by lia. reflexivity.
Qed.

Lemma pd_range v : 0 <= v < 2 ^ 32 -> 0 <= PD_INDEX v < 1024.
Proof. intros. rewrite pd_index by lia. divlia. Qed.

Lemma pt_range v : 0 <= PT_INDEX v < 1024.
Proof. rewrite pt_index. apply Z.mod_pos_bound. lia. Qed.

(** A page-aligned address or-ed with flag bits. *)
Lemma lor_flags a f : a mod PAGE_SIZE = 0 -> 0 <= f < PAGE_SIZE -> Z.lor a f = a + f.
Proof.
  unfold PAGE_SIZE. intros Ha Hf. apply Z.mod_divide in Ha as [k ->]; [|lia].
  assert (Hl : Z.land (k * 4096) f = 0).
  { change 4096 with (2 ^ 12) in *. apply Z.bits_inj'. intros j Hj. rewrite Z.land_spec, Z.bits_0.
    destruct (Z_lt_le_dec j 12); [rewrite Z.mul_pow2_bits_low by lia; reflexivity|].
    destruct (Z.eq_dec f 0) as [->|]; [rewrite Z.bits_0; apply andb_false_r|].
    rewrite (Z.bits_above_log2 f); [apply andb_false_r | lia |].
    apply Z.lt_le_trans with 12; [apply Z.log2_lt_pow2; lia | lia]. }
  rewrite <- Z.lxor_lor, <- Z.add_nocarry_lxor by exact Hl. reflexivity.
Qed.

Lemma pa_va p : 0 <= p < 2 ^ 32 -> PA2VA (VA2PA p) = p.
Proof.
  intros. unfold PA2VA, VA2PA, u32. rewrite Zplus_mod_idemp_l.
  replace (p - KERNEL_BASE + KERNEL_BASE) with p by lia. apply Z.mod_small. lia.
Qed.

Lemma va_pa p : 0 <= p < 2 ^ 32 -> VA2PA (PA2VA p) = p.
Proof.
  intros. unfold PA2VA, VA2PA, u32. rewrite Zminus_mod_idemp_l.
  replace (p + KERNEL_BASE - KERNEL_BASE) with p by lia. apply Z.mod_small. lia.
Qed.

Lemma va2pa_mod p : p mod PAGE_SIZE = 0 -> VA2PA p mod PAGE_SIZE = 0.
Proof. unfold VA2PA, PAGE_SIZE, u32, KERNEL_BASE. intros. divlia. Qed.

(** A directory entry made of a page and flags designates that page. *)
Lemma pde_flags p f : 0 < p -> p mod PAGE_SIZE = 0 -> p + PAGE_SIZE <= 2 ^ 32 -> 0 <= f < PAGE_SIZE -> f mod 2 = 1 ->
  present (Z.lor (VA2PA p) f) = true /\ table_of (Z.lor (VA2PA p) f) = p.
Proof.
  intros Hp Hm He Hf Ho. pose proof (va2pa_mod p Hm) as Hm'. pose proof (u32_range (p - KERNEL_BASE)) as R.
  fold (VA2PA p) in R. rewrite lor_flags by assumption. split.
  - unfold present. apply negb_true_iff, Z.eqb_neq. change PTE_P with (Z.ones 1). rewrite Z.land_ones by lia.
    change (2 ^ 1) with 2. unfold PAGE_SIZE in *. divlia.
  - unfold table_of. unfold PAGE_SIZE in *. rewrite page_round by (unfold PAGE_SIZE; divlia).
    replace (VA2PA p + f - (VA2PA p + f) mod PAGE_SIZE) with (VA2PA p) by (unfold PAGE_SIZE; divlia).
    apply pa_va. lia.
Qed.

(** The directory entry [map_pages] writes designates the table it allocated. *)
Lemma new_pde p : 0 < p -> p mod PAGE_SIZE = 0 -> p + PAGE_SIZE <= 2 ^ 32 ->
  let pde := Z.lor (Z.lor (Z.lor (VA2PA p) PTE_P) PTE_W) 4 in
  present pde = true /\ table_of pde = p.
Proof.
  intros Hp Hm He pde. unfold pde. rewrite <- !Z.lor_assoc. change (Z.lor PTE_P (Z.lor PTE_W 4)) with 7.
  apply pde_flags; auto. unfold PAGE_SIZE. lia.
Qed.

Lemma clear_words_frame : forall n w a x, (x < a \/ a + 4 * Z.of_nat n <= x) -> clear_words n w a x = w x.
Proof.
  induction n as [|n IH]; intros w a x H; simpl; [reflexivity|]. rewrite IH by lia. apply upd_ne. lia.
Qed.

Lemma clear_words_at : forall n w a j, 0 <= j < Z.of_nat n -> clear_words n w a (a + 4 * j) = 0.
Proof.
  induction n as [|n IH]; intros w a j H; [lia|]. simpl. destruct (Z.eq_dec j 0) as [->|].
  - rewrite clear_words_frame by lia. rewrite Z.mul_0_r, Z.add_0_r. apply upd_eq.
  - replace (a + 4 * j) with (a + 4 + 4 * (j - 1)) by lia. apply IH. lia.
Qed.

Lemma copy_words_frame : forall n w d s x, (x < d \/ d + 4 * Z.of_nat n <= x) -> copy_words n w d s x = w x.
Proof.
  induction n as [|n IH]; intros w d s x H; simpl; [reflexivity|]. rewrite IH by lia. apply upd_ne. lia.
Qed.

Lemma copy_words_at : forall n w d s j, 0 <= j < Z.of_nat n ->
  (d + 4 * Z.of_nat n <= s \/ s + 4 * Z.of_nat n <= d) -> copy_words n w d s (d + 4 * j) = w (s + 4 * j).
Proof.
  induction n as [|n IH]; intros w d s j H Hd; [lia|]. simpl. destruct (Z.eq_dec j 0) as [->|].
  - rewrite copy_words_frame by lia. rewrite !Z.mul_0_r, !Z.add_0_r. apply upd_eq.
  - replace (d + 4 * j) with (d + 4 + 4 * (j - 1)) by lia. rewrite IH by lia.
    replace (s + 4 + 4 * (j - 1)) with (s + 4 * j) by lia. apply upd_ne. lia.
Qed.

Lemma memcpy_page_at s d src j : 0 <= j < 1024 -> (d + 4096 <= src \/ src + 4096 <= d) ->
  entry (memcpy_page s d src) d j = entry s src j.
Proof.
  intros Hj Hd. unfold entry, memcpy_page. cbn [words]. apply copy_words_at; unfold NR_PTE_PER_PAGE; lia.
Qed.

(** Words of different pages are different words. *)
Lemma pages_apart A a b i j : page_in A a -> page_in A b -> a <> b -> 0 <= i < 1024 -> 0 <= j < 1024 ->
  a + 4 * i <> b + 4 * j.
Proof. unfold page_in, PAGE_SIZE. intros (_ & _ & Ha & _) (_ & _ & Hb & _) Hne Hi Hj. divlia. Qed.

Lemma page_disjoint A a b : page_in A a -> page_in A b -> a <> b -> a + 4096 <= b \/ b + 4096 <= a.
Proof. unfold page_in, PAGE_SIZE. intros (_ & _ & Ha & _) (_ & _ & Hb & _) Hne. divlia. Qed.

(** [alloc_pages(0)] from the interface's point of view. *)
Lemma alloc_page0 m A : pages_in_use m A ->
  exists p m', alloc_pages m 0 = Done (p, m') /\
    ((p = NULL /\ pages_in_use m' A) \/
     (p <> NULL /\ KERNEL_BASE <= p /\ (p ∉ A) /\ page_in ({[p]} ∪ A) p /\ pages_in_use m' ({[p]} ∪ A))).
Proof.
  intros H. pose proof H as (F & HB & _).
  destruct (alloc_pages_spec m F 0 HB ltac:(unfold MAX_ORDER; lia)) as (p & m' & F' & E & _ & _ & Hcase).
  assert (Hk : p = NULL \/ KERNEL_BASE <= p).
  { destruct Hcase as [(-> & _)|(Hb & _)]; [auto|]. right. apply (block_range m (bo_geo _ _ HB) 0 p); auto. lia. }
  exists p, m'. split; [exact E|].
  destruct (@alloc_page_spec mm_t buddy_page_source m A p m' H) as [[-> H']|(H1 & H2 & H3 & H4 & H5)].
  - simpl. unfold alloc_one_page. rewrite E. reflexivity.
  - left. auto.
  - right. split_and!; auto; [unfold NULL; lia | unfold NULL in Hk; lia |].
    unfold page_in. split_and!; auto. set_solver.
Qed.

#[local] Arguments clear_words : simpl never.
#[local] Arguments copy_words : simpl never.
#[local] Arguments Z.to_nat : simpl never.

(** ** Enough free pages *)

(** At least [k] pages are free, and none of [A] is. *)
Definition room (m : mm_t) (A : gset Z) (k : nat) : Prop :=
  exists F xs, buddy_ok m F /\ (forall p, p ∈ A -> ~ free_at F p) /\ NoDup xs /\ length xs = k /\
    forall x, x ∈ xs -> x mod PAGE_SIZE = 0 /\ free_at F x.

Lemma room_inv m A k : room m A k -> pages_in_use m A.
Proof. intros (F & xs & HB & HA & _). exists F. auto. Qed.

(** Removing the one page-aligned address a page covers. *)
Lemma drop_page p (xs : list Z) : NoDup xs -> exists ys, NoDup ys /\ (length xs <= S (length ys))%nat /\
  forall x, x ∈ ys -> x ∈ xs /\ x <> p.
Proof.
  intros Hnd. destruct (decide (p ∈ xs)) as [Hin|Hin].
  - apply list_elem_of_split in Hin as (l1 & l2 & ->). exists (l1 ++ l2).
    rewrite <- Permutation_middle in Hnd. apply NoDup_cons in Hnd as [Hp Hnd].
    split_and!; auto; [rewrite !length_app; simpl; lia|].
    intros x Hx. split; [set_solver | intros ->; contradiction].
  - exists xs. split_and!; auto. intros x Hx. split; [exact Hx | intros ->; contradiction].
Qed.

Lemma take_room F A m k ys : buddy_ok m F -> (forall p, p ∈ A -> ~ free_at F p) -> NoDup ys -> (k <= length ys)%nat ->
  (forall x, x ∈ ys -> x mod PAGE_SIZE = 0 /\ free_at F x) -> room m A k.
Proof.
  intros HB HA Hnd Hl Hx. exists F, (take k ys). split_and!; auto.
  - rewrite <- (take_drop k ys) in Hnd. apply NoDup_app in Hnd. tauto.
  - rewrite length_take. lia.
  - intros x Hin. apply Hx. rewrite <- (take_drop k ys). set_solver.
Qed.

Lemma room_less m A j k : room m A (j + k) -> room m A k.
Proof.
  intros (F & xs & HB & HA & Hnd & Hl & Hx). apply (take_room F A m k xs); auto. lia.
Qed.

Lemma room_alloc m A k : room m A (S k) ->
  exists p m', alloc_pages m 0 = Done (p, m') /\ p <> NULL /\ KERNEL_BASE <= p /\ (p ∉ A) /\
    page_in ({[p]} ∪ A) p /\ room m' ({[p]} ∪ A) k /\
    (forall i, m_pages m' !! i = if decide (i = page_of p) then (fun c => s32 (c + 1)) <$> m_pages m !! i else m_pages m !! i).
Proof.
  intros (F & xs & HB & HA & Hnd & Hl & Hx). assert (Ho : 0 <= 0 <= MAX_ORDER) by (unfold MAX_ORDER; lia).
  destruct (alloc_pages_spec m F 0 HB Ho) as (p & m' & F' & E & HB' & Hs & Hc).
  destruct (alloc_page0 m A (room_inv m A (S k) (ex_intro _ F (ex_intro _ xs (conj HB (conj HA (conj Hnd (conj Hl Hx))))))))
    as (q & mq & Eq & Hq). rewrite E in Eq. injection Eq as <- <-.
  destruct Hc as [(-> & _ & _ & Hempty)|(Hb & _ & Hfree & Hcnt)].
  - exfalso. destruct xs as [|x xs]; [discriminate|]. destruct (Hx x ltac:(set_solver)) as (_ & o & a & Hoo & Ha & _).
    rewrite (Hempty o Hoo) in Ha. revert Ha. apply not_elem_of_nil.
  - destruct Hq as [[-> _]|(Hp & Hpk & HpA & Hpin & _)].
    { pose proof (block_range m (bo_geo _ _ HB) 0 NULL ltac:(lia) Hb). unfold NULL in *. lia. }
    exists p, m'. split_and!; auto.
    + destruct (drop_page p xs Hnd) as (ys & Hnd' & Hl' & Hys).
      apply (take_room F' _ m' k ys HB'); auto; [|rewrite Hl in Hl'; lia|].
      * intros y Hy. rewrite Hfree. apply elem_of_union in Hy as [Hy|Hy].
        -- apply elem_of_singleton in Hy as ->. intros [_ Hc]. apply Hc. unfold covers. pose proof (bsize_pos 0). lia.
        -- specialize (HA y Hy). tauto.
      * intros y Hy. destruct (Hys y Hy) as [Hy1 Hy2]. destruct (Hx y Hy1) as [Hym Hyf]. split; [exact Hym|].
        apply Hfree. split; [exact Hyf|]. intros Hcov. apply Hy2.
        pose proof (block_mod m 0 p (bo_geo _ _ HB) Ho Hb) as Hpm. unfold covers in Hcov.
        change (bsize 0) with 4096 in Hcov. unfold PAGE_SIZE in *. divlia.
    + intros i. rewrite Hcnt. change (Z.of_nat (Z.to_nat (2 ^ 0))) with 1.
      destruct (decide (i = page_of p)) as [->|]; [rewrite decide_True by lia | rewrite decide_False by lia]; reflexivity.
Qed.

(** The links determine the free lists, so that [room] counts the free pages. *)
Lemma linked_det n p h : forall l l' a, linked n p a (l ++ [h]) -> linked n p a (l' ++ [h]) -> h ∉ l -> h ∉ l' -> l = l'.
Proof.
  induction l as [|x l IH]; intros [|x' l'] a H H' Hn Hn'; cbn in H, H'; [reflexivity| | |].
  - exfalso. apply Hn'. destruct H as [E _], H' as [E' _]. replace x' with h by congruence. set_solver.
  - exfalso. apply Hn. destruct H as [E _], H' as [E' _]. replace x with h by congruence. set_solver.
  - destruct H as (E & _ & H), H' as (E' & _ & H'). assert (x' = x) as -> by congruence. f_equal.
    apply not_elem_of_cons in Hn as [_ Hn], Hn' as [_ Hn']. eapply IH; eauto.
Qed.

Lemma lists_det m F F' o : buddy_ok m F -> buddy_ok m F' -> 0 <= o <= MAX_ORDER -> F o = F' o.
Proof.
  intros H H' Ho. pose proof (bo_geo _ _ H) as G.
  apply (linked_det (fl_next m) (fl_prev m) (free_list m o) _ _ (free_list m o)).
  - apply (lo_circ _ _ (bo_lists _ _ H)); auto.
  - apply (lo_circ _ _ (bo_lists _ _ H')); auto.
  - apply NoDup_cons_1_1. apply (nodup_head m F G (bo_lists _ _ H) o Ho).
  - apply NoDup_cons_1_1. apply (nodup_head m F' G (bo_lists _ _ H') o Ho).
Qed.

Lemma room_pages m A A' k : room m A k -> pages_in_use m A' -> room m A' k.
Proof.
  intros (F & xs & HB & _ & Hnd & Hl & Hx) (F' & HB' & HA'). exists F', xs. split_and!; auto.
  intros x Hin. destruct (Hx x Hin) as [Hm (o & a & Ho & Ha & Hc)]. split; [exact Hm|]. exists o, a.
  rewrite <- (lists_det m F F' o) by auto. auto.
Qed.

(** A page the allocator gives out is one of the pages it manages. *)
Lemma alloc_block m A k p m' : room m A (S k) -> alloc_pages m 0 = Done (p, m') -> block_in m' 0 p.
Proof.
  intros (F & xs & HB & _ & _ & Hl & Hx) E.
  destruct (alloc_pages_spec m F 0 HB ltac:(unfold MAX_ORDER; lia)) as (q & m1 & F' & E1 & HB' & Hs & Hc).
  rewrite E in E1. injection E1 as <- <-. destruct Hc as [(_ & _ & _ & Hempty)|(Hb & _)]; [|eapply block_same; eauto].
  exfalso. destruct xs as [|x xs]; [discriminate|]. destruct (Hx x ltac:(set_solver)) as (_ & o & a & Hoo & Ha & _).
  rewrite (Hempty o Hoo) in Ha. revert Ha. apply not_elem_of_nil.
Qed.

Lemma boot_room : exists m, init_free_area boot_mm = Done m /\ room m ∅ 8 /\
  forall x, base m <= x < m_mem_end m -> m_pages m !! page_of x = Some 0.
Proof.
  destruct (init_free_area_spec boot_mm boot_mm_ok) as (m & F & E & HB & Hr & Hfree & H1 & H2).
  exists m. split; [exact E|]. pose proof (bo_geo _ _ HB) as G.
  destruct (geo_mod m G MAX_ORDER ltac:(unfold MAX_ORDER; lia)) as (Hb & n & Hn & He).
  change (bsize (MAX_ORDER + 1)) with (2 ^ 19) in *.
  split; [|intros x Hx; apply Hr, Hfree, Hx].
  exists F, (map (fun i => base m + 4096 * i) [0; 1; 2; 3; 4; 5; 6; 7]). split_and!; auto.
  - intros p Hp. apply not_elem_of_empty in Hp. destruct Hp.
  - assert (Inj eq eq (fun i => base m + 4096 * i)) by (intros ? ?; lia).
    apply (NoDup_fmap_2 (fun i => base m + 4096 * i) [0; 1; 2; 3; 4; 5; 6; 7]).
    apply (bool_decide_unpack _). reflexivity.
  - intros x Hx. assert (Hi : exists i, 0 <= i < 8 /\ x = base m + 4096 * i).
    { cbn [map] in Hx. rewrite !elem_of_cons, elem_of_nil in Hx.
      destruct Hx as [->|[->|[->|[->|[->|[->|[->|[->|[]]]]]]]]]; eexists; split; try reflexivity; lia. }
    destruct Hi as (i & Hi & ->). unfold PAGE_SIZE. split; [divlia|]. apply Hfree. lia.
Qed.

(** ** [map_pages] *)

Lemma fill_table_ok : forall fuel s t i v e pa perm n,
  0 <= i <= 1024 -> 1024 - i <= Z.of_nat fuel -> 0 <= v <= e -> e < 2 ^ 32 ->
  v mod PAGE_SIZE = 0 -> e mod PAGE_SIZE = 0 -> 0 <= pa < 2 ^ 32 ->
  n = Z.min (1024 - i) ((e - v) / PAGE_SIZE) ->
  exists s', fill_table fuel s t i v e pa perm = (s', v + n * PAGE_SIZE, u32 (pa + n * PAGE_SIZE)) /\
    mm s' = mm s /\
    (forall j, i <= j < i + n -> words s' (t + 4 * j) = Z.lor (Z.lor (u32 (pa + (j - i) * PAGE_SIZE)) PTE_P) perm) /\
    (forall x, (forall j, i <= j < i + n -> x <> t + 4 * j) -> words s' x = words s x).
Proof.
  induction fuel as [|fuel IH]; intros s t i v e pa perm n Hi Hf Hv He Hvm Hem Hpa Hn; cbn [fill_table].
  - assert (n = 0) as -> by (unfold PAGE_SIZE in *; divlia). exists s.
    rewrite Z.mul_0_l, !Z.add_0_r, u32_small by lia. split_and!; auto. intros; lia.
  - destruct ((i <? NR_PTE_PER_PAGE) && (v <? e)) eqn:E; unfold NR_PTE_PER_PAGE in E.
    + tests. assert (Hn1 : 1 <= n) by (unfold PAGE_SIZE in *; divlia).
      assert (Hve : v + PAGE_SIZE <= e) by (unfold PAGE_SIZE in *; divlia).
      rewrite (u32_small (v + PAGE_SIZE)) by (unfold PAGE_SIZE in *; lia).
      destruct (IH (set_entry s t i (Z.lor (Z.lor pa PTE_P) perm)) t (i + 1) (v + PAGE_SIZE) e
                  (u32 (pa + PAGE_SIZE)) perm (n - 1)) as (s' & Es & Hm & Hin & Hout);
        try solve [lia | apply u32_range | unfold PAGE_SIZE in *; divlia].
      * exists s'. rewrite Es. split_and!.
        -- f_equal; [f_equal; lia|]. unfold u32. rewrite Zplus_mod_idemp_l. f_equal. lia.
        -- exact Hm.
        -- intros j Hj. destruct (Z.eq_dec j i) as [->|Hne].
           ++ rewrite Hout by (intros; lia). simpl. rewrite upd_eq, Z.sub_diag, Z.mul_0_l, Z.add_0_r, u32_small by lia.
              reflexivity.
           ++ rewrite Hin by lia. do 2 f_equal. unfold u32. rewrite Zplus_mod_idemp_l. f_equal. lia.
        -- intros x Hx. rewrite Hout by (intros; apply Hx; lia). simpl. apply upd_ne, Hx. lia.
    + assert (n = 0) as -> by (unfold PAGE_SIZE in *; divlia). exists s.
      rewrite Z.mul_0_l, !Z.add_0_r, u32_small by lia. split_and!; auto. intros; lia.
Qed.

Lemma dir_ok_split s dir A : dir_ok s dir A <-> pages_in_use (mm s) A /\ dir_shape s dir A.
Proof.
  split; [intros D; split; [apply D|constructor; apply D]|]. intros [H D]. constructor; [exact H|apply D..].
Qed.

Lemma shape_entry_table A s dir i j k : dir_shape s dir A -> 0 <= i < 1024 -> 0 <= j < 1024 -> 0 <= k < 1024 ->
  present (entry s dir i) = true -> dir + 4 * k <> table_of (entry s dir i) + 4 * j.
Proof.
  intros D Hi Hj Hk Hp. destruct (ds_table _ _ _ D i Hi Hp) as [Ht Hne].
  apply (pages_apart A); auto. apply D.
Qed.

(** A directory whose own page is unchanged keeps its shape, and stays well formed if the
    allocator is unchanged too. *)
Lemma dir_shape_frame s s' dir A : dir_shape s dir A ->
  (forall i, 0 <= i < 1024 -> entry s' dir i = entry s dir i) -> dir_shape s' dir A.
Proof.
  intros D Ed. constructor.
  - apply D.
  - intros i Hi. rewrite Ed by auto. apply D; auto.
  - intros i j Hi Hj. rewrite !Ed by auto. apply D; auto.
Qed.

Lemma dir_ok_frame s s' dir A : dir_ok s dir A -> mm s' = mm s ->
  (forall i, 0 <= i < 1024 -> entry s' dir i = entry s dir i) -> dir_ok s' dir A.
Proof.
  rewrite !dir_ok_split. intros [H D] Em Ed. rewrite Em. split; [exact H|]. eapply dir_shape_frame; eauto.
Qed.

Definition get_table (s : machine) (pde : Z) : outcome (machine * Z) :=
  if present (words s pde) then Done (s, table_of (words s pde))
  else let! a := alloc_pages (mm s) 0 in
       let '(pg_table, m) := a in
       if pg_table =? NULL then Fault
       else let s := clear_page (set_mm s m) pg_table in
            Done (set_word s pde (Z.lor (Z.lor (Z.lor (VA2PA pg_table) PTE_P) PTE_W) 4), pg_table).

(** [a] is none of the tables of the directory. *)
Definition not_table (s : machine) (dir a : Z) : Prop :=
  forall i, 0 <= i < 1024 -> present (entry s dir i) = true -> table_of (entry s dir i) <> a.

(** How many of the [n] directory entries from [i] on have no table yet. *)
Fixpoint missing (s : machine) (dir i : Z) (n : nat) : nat :=
  match n with
  | O => O
  | S n => ((if present (entry s dir i) then 0 else 1) + missing s dir (i + 1) n)%nat
  end.

(** How many tables have to be made to map the addresses from [v] up to [e]. *)
Definition tables_missing (s : machine) (dir v e : Z) : nat :=
  if v <? e then missing s dir (PD_INDEX v) (Z.to_nat (PD_INDEX (e - 1) - PD_INDEX v + 1)) else O.

(** What finding or making a table for entry [i] leaves alone. *)
Definition same_meaning (s s' : machine) (dir : Z) (A : gset Z) : Prop :=
  (forall x, 0 <= x < 2 ^ 32 -> pte_at s' dir x = pte_at s dir x) /\
  (forall a, page_in A a -> a <> dir -> forall j, 0 <= j < 1024 -> entry s' a j = entry s a j) /\
  (forall a, page_in A a -> not_table s dir a -> not_table s' dir a).

(** The directory entry of a new, cleared table. *)
Definition add_table (s : machine) (pde pg_table : Z) : machine :=
  set_word (clear_page s pg_table) pde (Z.lor (Z.lor (Z.lor (VA2PA pg_table) PTE_P) PTE_W) 4).

(** A new table in a page that was not in use does not change what the directory means. *)
Lemma add_table_ok s dir A i p : dir_shape s dir A -> 0 <= i < 1024 -> present (entry s dir i) = false ->
  p ∉ A -> page_in ({[p]} ∪ A) p ->
  let s' := add_table s (dir + 4 * i) p in
  table_of (entry s' dir i) = p /\ present (entry s' dir i) = true /\ dir_shape s' dir ({[p]} ∪ A) /\
  (forall j, 0 <= j < 1024 -> j <> i -> entry s' dir j = entry s dir j) /\ same_meaning s s' dir A.
Proof.
  intros D Hi Ep HpA Hin' s'. pose proof Hin' as (_ & Hp0 & Hpm & Hpe).
  destruct (new_pde p Hp0 Hpm Hpe) as [Hpres Htab]. unfold add_table in s'.
  set (pde := Z.lor _ 4) in *.
  assert (Hlift : forall a, page_in A a -> page_in ({[p]} ∪ A) a /\ a <> p).
  { intros a (Ha & Hr). split; [split; [set_solver | exact Hr] | intros ->; contradiction]. }
  destruct (Hlift dir (ds_dir _ _ _ D)) as [Hdir Hdp].
  assert (Hold : forall a j, page_in A a -> 0 <= j < 1024 -> a + 4 * j <> dir + 4 * i -> entry s' a j = entry s a j).
  { intros a j Ha Hj Hne. destruct (Hlift a Ha) as [Ha' Hap]. unfold entry, s', set_word, clear_page. simpl.
    rewrite upd_ne by auto. apply clear_words_frame.
    destruct (page_disjoint _ a p Ha' Hin' Hap); unfold NR_PTE_PER_PAGE; lia. }
  assert (Hnew : entry s' dir i = pde) by apply upd_eq.
  assert (Hzero : forall j, 0 <= j < 1024 -> entry s' p j = 0).
  { intros j Hj. unfold entry, s', set_word, clear_page. simpl. rewrite upd_ne.
    - apply clear_words_at. unfold NR_PTE_PER_PAGE. lia.
    - apply (pages_apart _ p dir j i Hin' Hdir); auto. }
  assert (Hdirs : forall j, 0 <= j < 1024 -> j <> i -> entry s' dir j = entry s dir j)
    by (intros; apply Hold; auto; [apply D | lia]).
  assert (Htables : forall k j, 0 <= k < 1024 -> 0 <= j < 1024 -> present (entry s dir k) = true ->
    entry s' (table_of (entry s dir k)) j = entry s (table_of (entry s dir k)) j).
  { intros k j Hk Hj Hpk. apply Hold; auto; [apply D; auto|]. apply not_eq_sym. eapply shape_entry_table; eauto. }
  rewrite Hnew, Htab. split; [reflexivity|]. split; [exact Hpres|]. split; [|split; [exact Hdirs | split; [|split]]].
  - constructor; [exact Hdir | |].
    + intros k Hk Hpk. destruct (Z.eq_dec k i) as [->|Hne]; [rewrite Hnew, Htab; auto|].
      rewrite Hdirs in * by auto. destruct (ds_table _ _ _ D k Hk Hpk) as [Ht1 Ht2]. split; [apply Hlift, Ht1 | exact Ht2].
    + intros k j Hk Hj Hkj Hpk Hpj. destruct (Z.eq_dec k i) as [->|Hki], (Z.eq_dec j i) as [->|Hji];
        rewrite ?Hnew, ?Htab; try rewrite !Hdirs in * by auto; try congruence.
      * intros Eq. apply (Hlift _ (proj1 (ds_table _ _ _ D j Hj Hpj))). auto.
      * intros Eq. apply (Hlift _ (proj1 (ds_table _ _ _ D k Hk Hpk))). auto.
      * apply D; auto.
  - intros x Hx. unfold pte_at. pose proof (pd_range x Hx). pose proof (pt_range x).
    destruct (Z.eq_dec (PD_INDEX x) i) as [->|Hne].
    + rewrite Hnew, Hpres, Htab, Ep. apply Hzero. auto.
    + rewrite Hdirs by auto. destruct (present (entry s dir (PD_INDEX x))) eqn:Epx; auto.
  - intros a Ha Had j Hj. apply Hold; auto. apply (pages_apart A); auto. apply D.
  - intros a Ha Hnt k Hk Hpk. destruct (Z.eq_dec k i) as [->|Hne].
    + rewrite Hnew, Htab. apply not_eq_sym, Hlift, Ha.
    + rewrite Hdirs in * by auto. apply Hnt; auto.
Qed.

(** Finding or making the table of a directory entry does not change what the
    directory means. *)
Lemma get_table_ok s dir A i : dir_ok s dir A -> 0 <= i < 1024 ->
  (exists s' A', get_table s (dir + 4 * i) = Done (s', table_of (entry s' dir i)) /\ dir_ok s' dir A' /\ A ⊆ A' /\
     present (entry s' dir i) = true /\
     (forall x, 0 <= x < 2 ^ 32 -> pte_at s' dir x = pte_at s dir x) /\
     (forall a, page_in A a -> a <> dir -> forall j, 0 <= j < 1024 -> entry s' a j = entry s a j) /\
     (forall a, page_in A a -> not_table s dir a -> not_table s' dir a) /\
     (forall j, 0 <= j < 1024 -> j <> i -> entry s' dir j = entry s dir j) /\
     (forall k, room (mm s) A ((if present (entry s dir i) then 0 else 1) + k) -> room (mm s') A' k)) \/
  (get_table s (dir + 4 * i) = Fault /\ present (entry s dir i) = false /\ forall k, ~ room (mm s) A (S k)).
Proof.
  intros D Hi. unfold get_table. fold (entry s dir i). destruct (present (entry s dir i)) eqn:Ep.
  { left. exists s, A. split_and!; auto. }
  destruct (alloc_page0 (mm s) A (dk_inv _ _ _ D)) as (p & m' & E & [[-> H]|(Hp & _ & HpA & Hin & Hinv)]); rewrite E; simpl.
  { right. split_and!; auto. intros k R. destruct (room_alloc _ _ _ R) as (q & mq & Eq & Hq & _). congruence. }
  left. replace (p =? NULL) with false by lia. apply dir_ok_split in D as [_ D].
  destruct (add_table_ok (set_mm s m') dir A i p) as (Htab & Hpres & Hshape & Hdirs & H1 & H2 & H3); auto.
  { eapply dir_shape_frame; [exact D|]. reflexivity. }
  exists (add_table (set_mm s m') (dir + 4 * i) p), ({[p]} ∪ A). rewrite Htab. split; [reflexivity|].
  split; [apply dir_ok_split; split; assumption|]. split; [set_solver|]. split; [exact Hpres|].
  split_and!; auto. intros k R. destruct (room_alloc _ _ _ R) as (q & mq & Eq & _ & _ & _ & _ & R' & _).
  rewrite E in Eq. injection Eq as <- <-. exact R'.
Qed.

(** The entries of one table, as far as the range or the table goes. *)
Lemma fill_shape s dir A v e pa perm : dir_shape s dir A -> 0 <= v < e -> e < 2 ^ 32 ->
  v mod PAGE_SIZE = 0 -> e mod PAGE_SIZE = 0 -> 0 <= pa < 2 ^ 32 ->
  present (entry s dir (PD_INDEX v)) = true ->
  let t := table_of (entry s dir (PD_INDEX v)) in
  exists s' v', fill_table (Z.to_nat NR_PTE_PER_PAGE) s t (PT_INDEX v) v e pa perm = (s', v', u32 (pa + (v' - v))) /\
    v < v' <= e /\ v' mod PAGE_SIZE = 0 /\ ((v' = e /\ PD_INDEX (e - 1) = PD_INDEX v) \/ (v' mod 2 ^ 22 = 0 /\ PD_INDEX v' = PD_INDEX v + 1)) /\
    dir_shape s' dir A /\ mm s' = mm s /\
    (forall x, 0 <= x < 2 ^ 32 -> pte_at s' dir x =
       if decide (v <= x < v') then Z.lor (Z.lor (u32 (pa + (x / 4096 * 4096 - v))) PTE_P) perm else pte_at s dir x) /\
    (forall a, page_in A a -> t <> a -> forall j, 0 <= j < 1024 -> entry s' a j = entry s a j).
Proof.
  intros D Hv He Hvm Hem Hpa Hp t.
  pose proof (pd_range v ltac:(lia)) as Hpd. pose proof (pt_range v) as Hpt.
  destruct (ds_table _ _ _ D _ Hpd Hp) as [Ht Htd]. fold t in Ht, Htd.
  remember (Z.min (1024 - PT_INDEX v) ((e - v) / PAGE_SIZE)) as n eqn:En.
  destruct (fill_table_ok (Z.to_nat NR_PTE_PER_PAGE) s t (PT_INDEX v) v e pa perm n)
    as (s' & E & Em & Hin & Hout); try solve [lia | unfold NR_PTE_PER_PAGE; lia | reflexivity].
  assert (Hn : 1 <= n /\ n <= 1024 - PT_INDEX v /\ v + n * 4096 <= e) by (unfold PAGE_SIZE in *; divlia).
  exists s', (v + n * PAGE_SIZE). rewrite E.
  assert (Hframe : forall a, page_in A a -> t <> a -> forall j, 0 <= j < 1024 -> entry s' a j = entry s a j).
  { intros a Ha Hne j Hj. apply Hout. intros k Hk. apply (pages_apart A); auto. lia. }
  assert (Hdir : forall j, 0 <= j < 1024 -> entry s' dir j = entry s dir j) by (intros; apply Hframe; auto; apply D).
  rewrite pt_index in *. unfold PAGE_SIZE in *.
  split_and!; try lia.
  - f_equal. f_equal. lia.
  - divlia.
  - rewrite !pd_index by lia.
    destruct (Z.min_spec (1024 - (v / 2 ^ 12) mod 1024) ((e - v) / 4096)) as [[_ E1]|[_ E1]];
      rewrite <- En in E1; rewrite E1.
    + right. clear - Hvm. divlia.
    + left. split; [clear - Hvm Hem; divlia|]. rewrite E1 in Hn. clear - Hvm Hem Hv Hn. divlia.
  - eapply dir_shape_frame; eauto.
  - exact Em.
  - intros x Hx. unfold pte_at. pose proof (pd_range x Hx) as Hpx. pose proof (pt_range x) as Hptx. rewrite Hdir by auto.
    destruct (decide (v <= x < v + n * 4096)) as [Hxin|Hxout].
    + assert (Epd : PD_INDEX x = PD_INDEX v) by (rewrite !pd_index by lia; divlia).
      rewrite Epd, Hp. fold t. unfold entry. rewrite Hin by (rewrite pt_index; divlia).
      do 3 f_equal. rewrite pt_index. divlia.
    + destruct (present (entry s dir (PD_INDEX x))) eqn:Epx; [|reflexivity].
      destruct (Z.eq_dec (PD_INDEX x) (PD_INDEX v)) as [Epd|Hne].
      * rewrite Epd. fold t. apply Hout. intros j Hj Eq. apply Hxout.
        assert (Ej : PT_INDEX x = j) by lia. rewrite pt_index in Ej. rewrite !pd_index in Epd by lia. divlia.
      * apply Hframe; auto; [apply D; auto|]. apply not_eq_sym, D; auto.
  - exact Hframe.
Qed.

Lemma fill_ok s dir A v e pa perm : dir_ok s dir A -> 0 <= v < e -> e < 2 ^ 32 ->
  v mod PAGE_SIZE = 0 -> e mod PAGE_SIZE = 0 -> 0 <= pa < 2 ^ 32 ->
  present (entry s dir (PD_INDEX v)) = true ->
  let t := table_of (entry s dir (PD_INDEX v)) in
  exists s' v', fill_table (Z.to_nat NR_PTE_PER_PAGE) s t (PT_INDEX v) v e pa perm = (s', v', u32 (pa + (v' - v))) /\
    v < v' <= e /\ v' mod PAGE_SIZE = 0 /\ ((v' = e /\ PD_INDEX (e - 1) = PD_INDEX v) \/ (v' mod 2 ^ 22 = 0 /\ PD_INDEX v' = PD_INDEX v + 1)) /\
    dir_ok s' dir A /\ mm s' = mm s /\
    (forall x, 0 <= x < 2 ^ 32 -> pte_at s' dir x =
       if decide (v <= x < v') then Z.lor (Z.lor (u32 (pa + (x / 4096 * 4096 - v))) PTE_P) perm else pte_at s dir x) /\
    (forall a, page_in A a -> t <> a -> forall j, 0 <= j < 1024 -> entry s' a j = entry s a j).
Proof.
  intros D Hv He Hvm Hem Hpa Hp t. apply dir_ok_split in D as [HA D].
  destruct (fill_shape s dir A v e pa perm D Hv He Hvm Hem Hpa Hp) as (s' & v' & E & H1 & H2 & H3 & D' & Em & H4 & H5).
  exists s', v'. split_and!; try assumption; try lia. apply dir_ok_split. rewrite Em. split; assumption.
Qed.

Lemma map_loop_unfold k s pde v e pa perm : v < e ->
  map_loop (S k) s pde v e pa perm =
  (let! r := get_table s pde in
   let '(s, pg_table) := r in
   let '(s, v, pa) := fill_table (Z.to_nat NR_PTE_PER_PAGE) s pg_table (PT_INDEX v) v e pa perm in
   map_loop k s (pde + 4) v e pa perm).
Proof. intros H. cbn [map_loop]. replace (v <? e) with true by lia. reflexivity. Qed.

Lemma map_loop_end fuel s pde v e pa perm : v = e -> map_loop fuel s pde v e pa perm = Done s.
Proof. intros ->. destruct fuel; cbn [map_loop]; replace (e <? e) with false by lia; reflexivity. Qed.

(** What mapping [v .. e) onto the frames from [pa] on does to a directory. *)
Definition mapped (s : machine) (dir : Z) (A : gset Z) (v e pa perm : Z) (s' : machine) : Prop :=
  exists A', dir_ok s' dir A' /\ A ⊆ A' /\
    (forall x, 0 <= x < 2 ^ 32 -> pte_at s' dir x =
       if decide (v <= x < e) then Z.lor (Z.lor (u32 (pa + (x / 4096 * 4096 - v))) PTE_P) perm else pte_at s dir x) /\
    (forall a, page_in A a -> a <> dir -> not_table s dir a -> forall j, 0 <= j < 1024 -> entry s' a j = entry s a j).

Lemma missing_ext s s' dir : forall n i, (forall j, i <= j < i + Z.of_nat n -> entry s' dir j = entry s dir j) ->
  missing s' dir i n = missing s dir i n.
Proof.
  induction n as [|n IH]; intros i H; [reflexivity|]. cbn [missing]. rewrite H by lia. f_equal. apply IH. intros; apply H; lia.
Qed.

(** The tables needed from [v] on: that of [v] itself, and those of the addresses behind it. *)
Lemma tables_missing_step s s' dir v v2 e : 0 <= v < v2 -> v2 <= e -> e < 2 ^ 32 -> 
  (v2 = e /\ PD_INDEX (e - 1) = PD_INDEX v \/ v2 mod 2 ^ 22 = 0 /\ PD_INDEX v2 = PD_INDEX v + 1) ->
  (forall j, 0 <= j < 1024 -> j <> PD_INDEX v -> entry s' dir j = entry s dir j) ->
  tables_missing s dir v e = ((if present (entry s dir (PD_INDEX v)) then 0 else 1) + tables_missing s' dir v2 e)%nat.
Proof.
  intros Hv H2 He Hc Hd. unfold tables_missing. replace (v <? e) with true by lia.
  pose proof (pd_range v ltac:(lia)) as R. pose proof (pd_range (e - 1) ltac:(lia)) as Re. rewrite !pd_index in * by lia.
  destruct Hc as [[-> E]|[E0 E]].
  - rewrite E. replace (e <? e) with false by lia. replace (Z.to_nat _) with 1%nat by lia. cbn [missing]. lia.
  - destruct (v2 <? e) eqn:El; tests.
    + assert (Hle : v2 / 2 ^ 22 <= (e - 1) / 2 ^ 22) by (apply Z.div_le_mono; lia).
      replace (Z.to_nat ((e - 1) / 2 ^ 22 - v / 2 ^ 22 + 1)) with (S (Z.to_nat ((e - 1) / 2 ^ 22 - v2 / 2 ^ 22 + 1))) by lia.
      cbn [missing]. rewrite E. f_equal. symmetry. apply missing_ext. intros j Hj. apply Hd; lia.
    + replace e with v2 by lia. assert (E1 : (v2 - 1) / 2 ^ 22 = v / 2 ^ 22) by divlia.
      rewrite E1. replace (Z.to_nat _) with 1%nat by lia. cbn [missing]. lia.
Qed.

Lemma page_in_mono A A' a : A ⊆ A' -> page_in A a -> page_in A' a.
Proof. intros Hs (H1 & H2). split; [set_solver | exact H2]. Qed.

Lemma map_loop_ok : forall fuel s dir A pde v e pa perm,
  dir_ok s dir A -> 0 <= v <= e -> e < 2 ^ 32 -> v mod PAGE_SIZE = 0 -> e mod PAGE_SIZE = 0 ->
  0 <= pa < 2 ^ 32 -> (v = e \/ (pde = dir + 4 * PD_INDEX v /\ 1024 - PD_INDEX v <= Z.of_nat fuel)) ->
  (exists s', map_loop fuel s pde v e pa perm = Done s' /\ mapped s dir A v e pa perm s') \/
  (map_loop fuel s pde v e pa perm = Fault /\ ~ room (mm s) A (tables_missing s dir v e)).
Proof.
  induction fuel as [|fuel IH]; intros s dir A pde v e pa perm D Hv He Hvm Hem Hpa Hc;
    (destruct (Z.eq_dec v e) as [->|Hne];
     [left; exists s; split; [apply map_loop_end; reflexivity|]; exists A; split_and!; auto;
      intros x Hx; rewrite decide_False by lia; reflexivity|]);
    destruct Hc as [|[-> Hf]]; try contradiction.
  { pose proof (pd_range v ltac:(lia)). lia. }
  rewrite map_loop_unfold by lia. pose proof (pd_range v ltac:(lia)) as Hpd.
  destruct (get_table_ok s dir A (PD_INDEX v) D Hpd)
    as [(s1 & A1 & E1 & D1 & Hsub & Hp1 & Hpte1 & Hfr1 & Hnt1 & Hde1 & Hroom1)|(E1 & Ep & Ho)]; rewrite E1; cbn [obind].
  2:{ right. split; [reflexivity|]. unfold tables_missing. replace (v <? e) with true by lia.
      assert (PD_INDEX v <= PD_INDEX (e - 1)) by (rewrite !pd_index by lia; apply Z.div_le_mono; lia).
      replace (Z.to_nat _) with (S (Z.to_nat (PD_INDEX (e - 1) - PD_INDEX v))) by lia. cbn [missing]. rewrite Ep. apply Ho. }
  destruct (fill_ok s1 dir A1 v e pa perm D1 ltac:(lia) He Hvm Hem Hpa Hp1)
    as (s2 & v2 & E2 & Hv2 & Hvm2 & Hnext & D2 & Em2 & Hpte2 & Hfr2). rewrite E2.
  assert (Hd2 : forall i, 0 <= i < 1024 -> entry s2 dir i = entry s1 dir i)
    by (intros i Hi; apply Hfr2; [apply D1 | apply (dk_table _ _ _ D1 _ Hpd Hp1) | exact Hi]).
  assert (Hc2 : v2 = e \/ (dir + 4 * PD_INDEX v + 4 = dir + 4 * PD_INDEX v2 /\ 1024 - PD_INDEX v2 <= Z.of_nat fuel))
    by (destruct Hnext as [[E _]|[_ E]]; [left; exact E | right; lia]).
  destruct (IH s2 dir A1 _ v2 e (u32 (pa + (v2 - v))) perm D2 ltac:(lia) He Hvm2 Hem ltac:(apply u32_range) Hc2)
    as [(s3 & E3 & A3 & D3 & Hsub3 & Hpte3 & Hfr3)|[E3 Ho]].
  - left. exists s3. split; [exact E3|]. exists A3.
    split; [exact D3 | split; [transitivity A1; assumption | split]].
    + intros x Hx. rewrite Hpte3, Hpte2, Hpte1 by auto.
      destruct (decide (v2 <= x < e)).
      * rewrite decide_True by lia. do 2 f_equal. unfold u32. rewrite Zplus_mod_idemp_l. f_equal. lia.
      * destruct (decide (v <= x < v2)); [rewrite decide_True by lia | rewrite decide_False by lia]; reflexivity.
    + intros a Ha Had Hnt j Hj. pose proof (page_in_mono _ _ _ Hsub Ha) as Ha1.
      specialize (Hnt1 a Ha Hnt). rewrite (Hfr3 a Ha1 Had); [| |exact Hj].
      * rewrite (Hfr2 a Ha1 (Hnt1 _ Hpd Hp1) j Hj). apply Hfr1; assumption.
      * intros i Hi. rewrite (Hd2 i Hi). apply (Hnt1 i Hi).
  - right. split; [exact E3|]. intros R. apply Ho. rewrite Em2. apply Hroom1.
    rewrite <- (tables_missing_step s s2 dir v v2 e); auto; try lia.
    intros j Hj Hji. rewrite Hd2 by exact Hj. auto.
Qed.

Lemma map_pages_ok s dir A va pa size perm :
  dir_ok s dir A -> 0 <= va -> 0 <= size -> va + size < 2 ^ 32 -> 0 <= pa < 2 ^ 32 ->
  let v := va / 4096 * 4096 in
  let e := (va + size) / 4096 * 4096 in
  (exists s', map_pages s dir va pa size perm = Done s' /\ mapped s dir A v e (pa / 4096 * 4096) perm s') \/
  (map_pages s dir va pa size perm = Fault /\ ~ room (mm s) A (tables_missing s dir v e)).
Proof.
  intros D Hva Hsz Hend Hpa v e. unfold map_pages. rewrite u32_small by lia. rewrite !page_round by lia.
  replace (va - va mod PAGE_SIZE) with v by (unfold v, PAGE_SIZE; divlia).
  replace (va + size - (va + size) mod PAGE_SIZE) with e by (unfold e, PAGE_SIZE; divlia).
  replace (pa - pa mod PAGE_SIZE) with (pa / 4096 * 4096) by (unfold PAGE_SIZE; divlia).
  replace (PD_INDEX va) with (PD_INDEX v) by (rewrite !pd_index by (unfold v; divlia); unfold v; divlia).
  pose proof (pd_range v ltac:(unfold v; divlia)).
  apply map_loop_ok; auto; unfold v, e, PAGE_SIZE in *; try divlia.
Qed.

(** One page takes at most one table. *)
Lemma tables_one s dir v : 0 <= v -> v + PAGE_SIZE < 2 ^ 32 -> v mod PAGE_SIZE = 0 ->
  (tables_missing s dir v (v + PAGE_SIZE) <= 1)%nat.
Proof.
  intros H0 H1 Hm. unfold tables_missing, PAGE_SIZE in *. replace (v <? v + 4096) with true by lia.
  assert (E : PD_INDEX (v + 4096 - 1) = PD_INDEX v) by (rewrite !pd_index by lia; divlia).
  rewrite E. replace (Z.to_nat _) with 1%nat by lia. cbn [missing]. destruct (present _); lia.
Qed.

(** ** Unmapping *)

Lemma va_2_pa_value s dir va : 0 <= va < KERNEL_BASE ->
  va_2_pa s dir va = if pte_at s dir va =? 0 then MINUS1
                     else u32 (Z.land (pte_at s dir va) PAGE_MASK + va mod PAGE_SIZE).
Proof.
  intros Hva. unfold va_2_pa, pte_at, not_entry_and_p. replace (KERNEL_BASE <=? va) with false by lia.
  destruct (present _) eqn:E; simpl; [|reflexivity]. destruct (_ =? 0); [reflexivity|].
  unfold KERNEL_BASE in Hva. rewrite (page_round va) by lia.
  replace (va - (va - va mod PAGE_SIZE)) with (va mod PAGE_SIZE) by lia.
  rewrite (u32_small (va mod PAGE_SIZE)); [reflexivity|]. unfold PAGE_SIZE. divlia.
Qed.

(** The kernel address of the frame an entry designates. *)
Definition frame_of (pte : Z) : Z := PA2VA (Z.land pte PAGE_MASK).

Lemma land_mask_range p : 0 <= p -> 0 <= Z.land p PAGE_MASK < 2 ^ 32 /\ Z.land p PAGE_MASK mod PAGE_SIZE = 0.
Proof.
  intros Hp. assert (E : Z.land p PAGE_MASK = Z.land (p mod 2 ^ 32) PAGE_MASK).
  { rewrite <- Z.land_ones by lia. rewrite <- Z.land_assoc. reflexivity. }
  pose proof (Z.mod_pos_bound p (2 ^ 32) ltac:(lia)). rewrite E, page_round by lia. unfold PAGE_SIZE. divlia.
Qed.

Lemma va_2_pa_frame s dir va : 0 <= va < KERNEL_BASE -> va mod PAGE_SIZE = 0 -> 0 <= pte_at s dir va ->
  (pte_at s dir va = 0 /\ va_2_pa s dir va = MINUS1) \/
  (pte_at s dir va <> 0 /\ va_2_pa s dir va <> MINUS1 /\ PA2VA (va_2_pa s dir va) = frame_of (pte_at s dir va)).
Proof.
  intros Hva Hm Hp. rewrite va_2_pa_value by auto. destruct (land_mask_range _ Hp) as [Hr Hrm].
  destruct (_ =? 0) eqn:E; tests; [left; auto|]. right. rewrite Hm, Z.add_0_r, u32_small by lia.
  split; [exact E|]. split; [|reflexivity]. unfold MINUS1, PAGE_SIZE in *. intros Eq. rewrite Eq in Hrm. discriminate.
Qed.

(** A managed page that is not free overlaps no free block. *)
Lemma used_page_loose m F f : buddy_ok m F -> block_in m 0 f -> ~ free_at F f -> loose F 0 f.
Proof.
  intros HB Hf Hn o b Ho Hb. pose proof (bo_geo _ _ HB) as G.
  pose proof (block_mod m 0 f G ltac:(unfold MAX_ORDER; lia) Hf) as Hfm.
  pose proof (block_mod m o b G Ho (lo_in _ _ (bo_lists _ _ HB) o b Ho Hb)) as Hbm.
  destruct (Z_le_gt_dec (f + bsize 0) b) as [|H1]; [left; assumption|].
  destruct (Z_le_gt_dec (b + bsize o) f) as [|H2]; [right; assumption|]. exfalso.
  apply Hn. exists o, b. split; [exact Ho | split; [exact Hb|]]. unfold covers. split; [|lia].
  change (bsize 0) with 4096 in H1. unfold PAGE_SIZE in *. divlia.
Qed.

(** The pages of [start, end) that are mapped lie on distinct frames in use. *)
Record frames_ok (s : machine) (dir : Z) (F : Z -> list Z) (start end_ : Z) : Prop := {
  fo_used : forall x, start <= x < end_ -> x mod PAGE_SIZE = 0 -> pte_at s dir x <> 0 ->
    let f := frame_of (pte_at s dir x) in
    block_in (mm s) 0 f /\ ~ free_at F f /\ exists c, m_pages (mm s) !! page_of f = Some c /\ 1 <= c < 2 ^ 31;
  fo_inj : forall x y, start <= x < end_ -> start <= y < end_ -> x mod PAGE_SIZE = 0 -> y mod PAGE_SIZE = 0 ->
    x <> y -> pte_at s dir x <> 0 -> pte_at s dir y <> 0 ->
    frame_of (pte_at s dir x) <> frame_of (pte_at s dir y)
}.

(** Every frame mapped in [start, end) lost one reference, no other counter changed. *)
Definition dropped (s s' : machine) (dir start end_ : Z) : Prop :=
  (forall x, start <= x < end_ -> x mod PAGE_SIZE = 0 -> pte_at s dir x <> 0 ->
     m_pages (mm s') !! page_of (frame_of (pte_at s dir x)) =
     (fun c => c - 1) <$> m_pages (mm s) !! page_of (frame_of (pte_at s dir x))) /\
  (forall i, (forall x, start <= x < end_ -> x mod PAGE_SIZE = 0 -> pte_at s dir x <> 0 ->
                i <> page_of (frame_of (pte_at s dir x))) -> m_pages (mm s') !! i = m_pages (mm s) !! i).

Lemma page_of_inj m a b : geometry m -> block_in m 0 a -> block_in m 0 b -> page_of a = page_of b -> a = b.
Proof.
  intros G Ha Hb E. pose proof (block_mod m 0 a G ltac:(unfold MAX_ORDER; lia) Ha).
  pose proof (block_mod m 0 b G ltac:(unfold MAX_ORDER; lia) Hb). unfold page_of, PAGE_SIZE in *. divlia.
Qed.

Lemma pte_at_words s s' dir x : words s' = words s -> pte_at s' dir x = pte_at s dir x.
Proof. intros E. unfold pte_at, entry. rewrite E. reflexivity. Qed.

(** Freeing the frame of one page. *)
Lemma free_frame s dir F a end_ : buddy_ok (mm s) F -> frames_ok s dir F a end_ -> a < end_ -> a mod PAGE_SIZE = 0 ->
  pte_at s dir a <> 0 ->
  let f := frame_of (pte_at s dir a) in
  exists m F', free_pages (mm s) f 0 = Done m /\ buddy_ok m F' /\
    frames_ok (set_mm s m) dir F' (a + PAGE_SIZE) end_ /\
    m_pages m !! page_of f = (fun c => c - 1) <$> m_pages (mm s) !! page_of f /\
    (forall i, i <> page_of f -> m_pages m !! i = m_pages (mm s) !! i).
Proof.
  intros HB [Hu Hi] Ha Hm Hp f. destruct (Hu a ltac:(lia) Hm Hp) as (Hb & Hn & c & Hc & Hc1). fold f in Hb, Hn, Hc.
  destruct (free_pages_spec (mm s) F f 0 c HB ltac:(unfold MAX_ORDER; lia) Hb (used_page_loose _ _ _ HB Hb Hn) Hc Hc1)
    as (m & F' & E & HB' & Hs & Hpg & Hfree).
  exists m, F'. rewrite Hc, Hpg. split_and!; auto; [| apply lookup_insert_eq | intros; apply lookup_insert_ne; auto].
  constructor; unfold PAGE_SIZE in *; cbn [mm set_mm].
  - intros x Hx Hxm Hxp. rewrite (pte_at_words s) in * by reflexivity.
    assert (Hne : frame_of (pte_at s dir x) <> f) by (apply Hi; auto; lia).
    destruct (Hu x ltac:(lia) Hxm Hxp) as (Hbx & Hnx & cx & Hcx & Hcx1). split_and!.
    + eapply block_same; eauto.
    + rewrite Hfree. intros [|[_ Hcov]]; [contradiction|]. apply Hne.
      apply (page_of_inj (mm s)); auto; [apply HB|].
      pose proof (page_block (mm s) 0 f _ (bo_geo _ _ HB) ltac:(unfold MAX_ORDER; lia) Hb Hcov). lia.
    + exists cx. rewrite Hpg, lookup_insert_ne; [auto|]. intros Eq. apply Hne. symmetry.
      apply (page_of_inj (mm s)); auto. apply HB.
  - intros x y Hx Hy Hxm Hym Hxy. rewrite !(pte_at_words s) by reflexivity. apply Hi; auto; lia.
Qed.

Lemma dropped_step s m dir a end_ s' : a < end_ -> a mod PAGE_SIZE = 0 -> words s' = words s ->
  (pte_at s dir a = 0 -> m = mm s) ->
  (pte_at s dir a <> 0 ->
     m_pages m !! page_of (frame_of (pte_at s dir a)) =
       (fun c => c - 1) <$> m_pages (mm s) !! page_of (frame_of (pte_at s dir a)) /\
     (forall i, i <> page_of (frame_of (pte_at s dir a)) -> m_pages m !! i = m_pages (mm s) !! i) /\
     (forall x, a < x < end_ -> x mod PAGE_SIZE = 0 -> pte_at s dir x <> 0 ->
        page_of (frame_of (pte_at s dir x)) <> page_of (frame_of (pte_at s dir a)))) ->
  dropped (set_mm s m) s' dir (a + PAGE_SIZE) end_ -> dropped s s' dir a end_.
Proof.
  intros Ha Hm Ew H0 H1 [D1 D2]. cbn [mm set_mm] in *.
  assert (Hnext : forall x, a <= x < end_ -> x mod PAGE_SIZE = 0 -> x = a \/ a + PAGE_SIZE <= x < end_)
    by (intros; unfold PAGE_SIZE in *; divlia).
  assert (Ep : forall x, pte_at (set_mm s m) dir x = pte_at s dir x) by (intros; apply pte_at_words; reflexivity).
  destruct (Z.eq_dec (pte_at s dir a) 0) as [E|E].
  - specialize (H0 E). subst m. split.
    + intros x Hx Hxm Hxp. destruct (Hnext x Hx Hxm) as [->|Hx']; [contradiction|].
      specialize (D1 x Hx' Hxm). rewrite Ep in D1. auto.
    + intros i Hi. apply D2. intros x Hx Hxm. rewrite Ep. apply Hi; unfold PAGE_SIZE in *; auto; lia.
  - destruct (H1 E) as (A1 & A2 & A3). split.
    + intros x Hx Hxm Hxp. destruct (Hnext x Hx Hxm) as [->|Hx'].
      * rewrite D2; [exact A1|]. intros y Hy Hym. rewrite Ep. intros Hyp. apply not_eq_sym, A3; unfold PAGE_SIZE in *; auto; lia.
      * specialize (D1 x Hx' Hxm). rewrite Ep in D1. rewrite (D1 Hxp). f_equal. apply A2.
        apply A3; unfold PAGE_SIZE in *; auto; lia.
    + intros i Hi. rewrite D2; [apply A2, Hi; auto; lia|]. intros x Hx Hxm. rewrite Ep.
      apply Hi; unfold PAGE_SIZE in *; auto; lia.
Qed.

Lemma dropped_nil s dir a end_ : end_ <= a -> dropped s s dir a end_.
Proof. intros H. split; [intros; lia | auto]. Qed.

Lemma free_range_ok : forall fuel s dir F a end_,
  buddy_ok (mm s) F -> frames_ok s dir F a end_ -> (forall x, 0 <= pte_at s dir x) ->
  0 <= a -> a mod PAGE_SIZE = 0 -> end_ <= KERNEL_BASE -> end_ - a <= Z.of_nat fuel * PAGE_SIZE ->
  exists s' F', free_range_loop fuel s dir a end_ = Done s' /\ words s' = words s /\ buddy_ok (mm s') F' /\
    dropped s s' dir a end_.
Proof.
  induction fuel as [|fuel IH]; intros s dir F a end_ HB HF Hpos Ha Hm He Hf; cbn [free_range_loop].
  { exists s, F. split_and!; auto. apply dropped_nil. lia. }
  destruct (a <? end_) eqn:E; tests; [|exists s, F; split_and!; auto; apply dropped_nil; lia].
  unfold KERNEL_BASE, PAGE_SIZE in *. rewrite u32_small by lia.
  destruct (va_2_pa_frame s dir a ltac:(unfold KERNEL_BASE; lia) Hm (Hpos a)) as [[E0 ->]|(E0 & E1 & E2)].
  - rewrite Z.eqb_refl. cbn [negb obind].
    destruct (IH s dir F (a + 4096) end_) as (s' & F' & -> & Ew & HB' & Hd); auto; try divlia.
    { destruct HF as [Hu Hi]. constructor; intros; [apply Hu | apply Hi]; auto; lia. }
    exists s', F'. split_and!; auto. apply (dropped_step s (mm s)); auto; try (intros; contradiction).
  - replace (_ =? MINUS1) with false by lia. cbn [negb]. rewrite E2.
    destruct (free_frame s dir F a end_ HB HF ltac:(lia) Hm E0) as (m & F1 & E3 & HB1 & HF1 & P1 & P2).
    rewrite E3. cbn [obind].
    destruct (IH (set_mm s m) dir F1 (a + 4096) end_) as (s' & F' & -> & Ew & HB' & Hd); auto; try divlia.
    exists s', F'. split; [reflexivity|]. split; [exact Ew|]. split; [exact HB'|].
    apply (dropped_step s m); [lia | exact Hm | exact Ew | intros; contradiction | | exact Hd].
    intros _. split; [exact P1 | split; [exact P2|]]. intros x Hx Hxm Hxp Eq.
    destruct (fo_used _ _ _ _ _ HF x ltac:(lia) Hxm Hxp) as (Hbx & _).
    destruct (fo_used _ _ _ _ _ HF a ltac:(lia) Hm E0) as (Hba & _).
    refine (fo_inj _ _ _ _ _ HF x a ltac:(lia) ltac:(lia) Hxm Hm ltac:(lia) Hxp E0 _).
    exact (page_of_inj (mm s) _ _ (bo_geo _ _ HB) Hbx Hba Eq).
Qed.

Lemma free_page_range_ok s dir F start end_ :
  buddy_ok (mm s) F -> frames_ok s dir F start end_ -> (forall x, 0 <= pte_at s dir x) ->
  0 <= start <= end_ -> start mod PAGE_SIZE = 0 -> end_ <= KERNEL_BASE ->
  exists s' F', free_page_range s dir start end_ = Done s' /\ words s' = words s /\ buddy_ok (mm s') F' /\
    dropped s s' dir start end_.
Proof.
  intros HB HF Hpos Hs Hm He. unfold free_page_range, KERNEL_BASE in *. rewrite page_round by lia.
  rewrite Hm, Z.sub_0_r. apply (free_range_ok _ s dir F); auto; unfold KERNEL_BASE; try lia.
  unfold PAGE_SIZE. divlia.
Qed.

(** ** Mapping one page whose table exists *)

Lemma map_one s dir va pa perm : 0 <= va -> va + PAGE_SIZE < 2 ^ 32 ->
  present (entry s dir (PD_INDEX va)) = true ->
  map_pages s dir va pa PAGE_SIZE perm =
  Done (set_entry s (table_of (entry s dir (PD_INDEX va))) (PT_INDEX va)
          (Z.lor (Z.lor (Z.land pa PAGE_MASK) PTE_P) perm)).
Proof.
  intros Hva He Hp. unfold map_pages, PAGE_SIZE in *. rewrite (u32_small (va + 4096)), (page_round va), (page_round (va + 4096)) by lia.
  unfold PAGE_SIZE. set (v := va - va mod 4096).
  replace (va + 4096 - (va + 4096) mod 4096) with (v + 4096) by (unfold v; divlia).
  assert (Ept : PT_INDEX v = PT_INDEX va) by (rewrite !pt_index; unfold v; divlia).
  rewrite map_loop_unfold by lia. unfold get_table. fold (entry s dir (PD_INDEX va)). rewrite Hp. cbn [obind].
  replace (Z.to_nat NR_PTE_PER_PAGE) with (S (S (Z.to_nat 1022))) by reflexivity.
  generalize (Z.to_nat 1022) as k. intros k. cbn [fill_table].
  pose proof (pt_range v). assert (Hvr : 0 <= v /\ v <= va) by (unfold v; divlia).
  unfold NR_PTE_PER_PAGE, PAGE_SIZE. rewrite (u32_small (v + 4096)) by lia.
  replace ((PT_INDEX v <? 1024) && (v <? v + 4096)) with true by lia.
  replace ((PT_INDEX v + 1 <? 1024) && (v + 4096 <? v + 4096)) with false by lia.
  rewrite map_loop_end by reflexivity. rewrite Ept. reflexivity.
Qed.

Lemma entry_set_eq s t i v : entry (set_entry s t i v) t i = v.
Proof. apply upd_eq. Qed.

Lemma entry_set_ne s t i v t' i' : t' + 4 * i' <> t + 4 * i -> entry (set_entry s t i v) t' i' = entry s t' i'.
Proof. intros H. unfold entry, set_entry, set_word. apply (upd_ne (words s)). exact H. Qed.

(** Setting an entry of one of the tables changes one page's translation. *)
Lemma set_pte s dir A va pte : dir_ok s dir A -> 0 <= va < 2 ^ 32 ->
  present (entry s dir (PD_INDEX va)) = true ->
  let s' := set_entry s (table_of (entry s dir (PD_INDEX va))) (PT_INDEX va) pte in
  dir_ok s' dir A /\
  forall x, 0 <= x < 2 ^ 32 -> pte_at s' dir x = if decide (x / 4096 = va / 4096) then pte else pte_at s dir x.
Proof.
  intros D Hva Hp s'. pose proof (pd_range va Hva) as Hpd. pose proof (pt_range va) as Hpt.
  destruct (dk_table _ _ _ D _ Hpd Hp) as [Ht Htd]. set (t := table_of _) in *.
  assert (Hdir : forall j, 0 <= j < 1024 -> entry s' dir j = entry s dir j).
  { intros j Hj. apply entry_set_ne. apply dir_ok_split in D as [_ D]; eapply shape_entry_table; eauto. }
  split; [eapply dir_ok_frame; eauto|]. intros x Hx. unfold pte_at.
  pose proof (pd_range x Hx) as Hpx. pose proof (pt_range x) as Hptx. rewrite Hdir by auto.
  destruct (decide (x / 4096 = va / 4096)) as [E|E].
  - assert (Epd : PD_INDEX x = PD_INDEX va) by (rewrite !pd_index by lia; divlia).
    assert (Ept : PT_INDEX x = PT_INDEX va) by (rewrite !pt_index; change (2 ^ 12) with 4096; congruence).
    rewrite Epd, Ept, Hp. apply entry_set_eq.
  - destruct (present (entry s dir (PD_INDEX x))) eqn:Epx; [|reflexivity]. apply entry_set_ne.
    destruct (Z.eq_dec (PD_INDEX x) (PD_INDEX va)) as [Epd|Hne].
    + rewrite Epd. fold t. intros Eq. apply E. assert (Ept : PT_INDEX x = PT_INDEX va) by lia.
      rewrite !pt_index in Ept. rewrite !pd_index in Epd by lia. divlia.
    + apply (pages_apart A); auto; [apply D; auto|]. apply D; auto.
Qed.

(** ** Mapping is correct *)

(** C5: [map_pages] is correct: on a directory whose tables are distinct pages in
    use, with at least as many free pages as the range has directory entries without
    a table, it returns; every page from that of [va] up to that of [va + size] (not
    included) is then mapped to consecutive frames from [pa] on with the given
    permissions, every other address keeps its translation, missing tables are
    fresh zeroed pages, and no page in use other than the directory and its tables
    is written.  With fewer free pages it may also write through the null pointer
    the allocator returned; it does nothing else. *)
Theorem map_pages_correct (s : machine) (dir : Z) (A : gset Z) (va pa size perm : Z)
  (Hdir : dir_ok s dir A) (Hva : 0 <= va) (Hsize : 0 <= size) (Hend : va + size < 2 ^ 32) (Hpa : 0 <= pa < 2 ^ 32) :
  let v := va / 4096 * 4096 in
  let e := (va + size) / 4096 * 4096 in
  let done := exists s', map_pages s dir va pa size perm = Done s' /\ mapped s dir A v e (pa / 4096 * 4096) perm s' in
  (room (mm s) A (tables_missing s dir v e) -> done) /\
  (~ room (mm s) A (tables_missing s dir v e) -> done \/ map_pages s dir va pa size perm = Fault).
Proof.
  intros v e done. destruct (map_pages_ok s dir A va pa size perm Hdir Hva Hsize Hend Hpa) as [H|[E H]].
  - split; [auto | left; exact H].
  - split; [intros R; destruct (H R) | intros _; right; exact E].
Qed.

(** An empty directory on the first page the booted allocator gives out. *)
Lemma boot_dir : exists m p, dir_ok (mk_machine (fun _ => 0) m) p {[p]}.
Proof.
  destruct boot_alloc_page as (m & F & p & m1 & F1 & _ & HB & _ & _ & _ & HB1 & Hb & Hl & _).
  exists m1, p. pose proof (bo_geo _ _ HB1) as G. pose proof (block_range m1 G 0 p ltac:(lia) Hb) as [R _].
  pose proof (block_mod m1 0 p G ltac:(unfold MAX_ORDER; lia) Hb) as Hm.
  constructor; try discriminate.
  - exists F1. split; [exact HB1|]. intros q Hq. apply elem_of_singleton in Hq as ->.
    apply (loose_not_free _ 0 p); auto; [lia|]. unfold covers. pose proof (bsize_pos 0). lia.
  - split; [set_solver|]. split_and!; auto; try lia. unfold PAGE_SIZE in *. divlia.
Qed.

(** The same with seven pages left. *)
Lemma boot_dir_room : exists m p, dir_ok (mk_machine (fun _ => 0) m) p {[p]} /\ room m {[p]} 7.
Proof.
  destruct boot_room as (m0 & _ & R0 & _).
  destruct (room_alloc m0 ∅ 7 R0) as (d & m1 & _ & _ & _ & _ & Hd & R1 & _). rewrite (right_id_L ∅ (∪)) in *.
  exists m1, d. split; [|exact R1]. constructor; try discriminate; [apply (room_inv _ _ _ R1) | exact Hd].
Qed.

(** Eight megabytes from 0x8048000 on take three tables; there is room for seven. *)
Lemma map_pages_correct_witness : exists m p s',
  let s := mk_machine (fun _ => 0) m in
  map_pages s p 0x8048000 0x1000000 0x800000 6 = Done s' /\
  mapped s p {[p]} (0x8048000 / 4096 * 4096) ((0x8048000 + 0x800000) / 4096 * 4096) (0x1000000 / 4096 * 4096) 6 s'.
Proof.
  destruct boot_dir_room as (m & p & D & R).
  destruct (map_pages_correct (mk_machine (fun _ => 0) m) p {[p]} 0x8048000 0x1000000 0x800000 6 D) as [H _]; try lia.
  destruct H as (s' & E & H); [exact (room_less _ _ 4 3 R)|]. exists m, p, s'. exact (conj E H).
Defined.
