(* ===== verification/Boot.v ===== *)
(** * Memory at boot time (src/src/mm.cc)

    [mm_t::init]: the memory map that the loader left behind ([init_mem_range]), the
    kernel's page directory, built before there is a page allocator out of memory
    that is taken from the end of the kernel image ([boot_mem_alloc], [boot_map_pages],
    [init_paging]), and then the allocator ([init_free_area], of [Buddy]).  The state is
    the one of [Paging]; addresses that the linker script or the screen driver give
    ([data], [end], the frame buffer, its page table) are arguments. *)
From Stdlib Require Import ZArith ZifyBool Lia.
From stdpp Require Import base option list gmap.
From S2P Require Import Prelude Interfaces Buddy Paging.

Definition MB : Z := 2 ^ 20.
Definition EXTENED_MEM : Z := 0x100000.
Definition KERNEL_LOAD : Z := KERNEL_BASE + EXTENED_MEM.
Definition APIC_BASE : Z := 0xfee00000.
Definition IO_APIC_BASE : Z := 0xfec00000.

(** The three members of [address_range_t] that are looked at. *)
Record address_range := mk_range { r_base_addr_low : Z; r_length_low : Z; r_type : Z }.

(** [m_usable_phy_mem_start], [m_usable_phy_mem_end]: the last usable range above 1MB. *)
Definition usable_range (ranges : list address_range) (init : Z * Z) : Z * Z :=
  foldl (fun acc r => if (r_type r =? 1) && (1 * MB <=? r_base_addr_low r)
                      then (r_base_addr_low r, u32 (r_base_addr_low r + r_length_low r)) else acc) init ranges.

Definition set_range (m : mm_t) (a e : Z) : mm_t :=
  mk_mm (fl_next m) (fl_prev m) (free_list_addr m) (free_list_map m) (bits m) (base m) (m_pages m) a e (m_free_page_num m).

(** [end_] is the end of the kernel image; the two members are zero before. *)
Definition init_mem_range (m : mm_t) (end_ : Z) (ranges : list address_range) : mm_t :=
  set_range m end_ (PA2VA (usable_range ranges (0, 0)).2).

(** The body of the loop of [boot_map_pages] up to the table. *)
Definition boot_get_table (s : machine) (pde : Z) : machine * Z :=
  if present (words s pde) then (s, table_of (words s pde))
  else let '(pg_table, m) := boot_mem_alloc (mm s) PAGE_SIZE 1 in
       let s := clear_page (set_mm s m) pg_table in
       (set_word s pde (Z.lor (Z.lor (Z.lor (VA2PA pg_table) PTE_P) PTE_W) 4), pg_table).

(** The [while] loop; a page directory has 1024 entries. *)
Fixpoint boot_map_loop (fuel : nat) (s : machine) (pde v e pa perm : Z) : outcome machine :=
  if negb (v <? e) then Done s
  else match fuel with
       | O => Fault
       | S k =>
           let '(s, pg_table) := boot_get_table s pde in
           let '(s, v, pa) := fill_table (Z.to_nat NR_PTE_PER_PAGE) s pg_table (PT_INDEX v) v e pa perm in
           boot_map_loop k s (pde + 4) v e pa perm
       end.

Definition boot_map_pages (s : machine) (pg_dir va pa size perm : Z) : outcome machine :=
  let v := Z.land va PAGE_MASK in
  let e := Z.land (u32 (va + size)) PAGE_MASK in
  boot_map_loop 1025 s (pg_dir + 4 * PD_INDEX va) v e (Z.land pa PAGE_MASK) perm.

(** The page tables of the frame buffer and of the interrupt controllers. *)
Definition map_devices (s : machine) (pg_dir vram entry_pg_table_vram : Z) : machine :=
  let s := set_entry s pg_dir (Z.shiftr vram 22) (Z.lor (VA2PA entry_pg_table_vram) (Z.lor PTE_P PTE_W)) in
  let '(pg_table_apic, m) := boot_mem_alloc (mm s) PAGE_SIZE 1 in
  let s := set_mm s m in
  let s := set_entry s pg_table_apic (PT_INDEX APIC_BASE) (Z.lor APIC_BASE (Z.lor PTE_P PTE_W)) in
  let s := set_entry s pg_table_apic (PT_INDEX IO_APIC_BASE) (Z.lor IO_APIC_BASE (Z.lor PTE_P PTE_W)) in
  set_entry s pg_dir (PD_INDEX APIC_BASE) (Z.lor (VA2PA pg_table_apic) (Z.lor PTE_P PTE_W)).

(** [init_paging]: the page directory and the state; [test_page_mapping] only reads. *)
Definition init_paging (s : machine) (data vram entry_pg_table_vram : Z) : outcome (Z * machine) :=
  let '(pg_dir, m) := boot_mem_alloc (mm s) PAGE_SIZE 1 in
  let s := clear_page (set_mm s m) pg_dir in
  let! s := boot_map_pages s pg_dir KERNEL_BASE 0 EXTENED_MEM PTE_W in
  let! s := boot_map_pages s pg_dir KERNEL_LOAD (VA2PA KERNEL_LOAD) (u32 (VA2PA data - VA2PA KERNEL_LOAD)) 0 in
  let! s := boot_map_pages s pg_dir data (VA2PA data) (u32 (VA2PA (m_mem_end (mm s)) - VA2PA data)) PTE_W in
  Done (pg_dir, map_devices s pg_dir vram entry_pg_table_vram).

(** [mm_t::init] *)
Definition init (s : machine) (end_ data vram entry_pg_table_vram : Z) (ranges : list address_range) : outcome (Z * machine) :=
  let s := set_mm s (init_mem_range (mm s) end_ ranges) in
  let! r := init_paging s data vram entry_pg_table_vram in
  let '(pg_dir, s) := r in
  let! m := init_free_area (mm s) in
  Done (pg_dir, set_mm s m).

(** ** Memory taken from the end of the image *)

Section boot_memory.
Variable lo : Z.

(** The pages of [A] were taken from [lo] on, below [m_mem_start]; [k] more fit. *)
Record boot_ok (s : machine) (dir : Z) (A : gset Z) (k : Z) : Prop := {
  bk_shape : dir_shape s dir A;
  bk_below : forall a, a ∈ A -> a + PAGE_SIZE <= m_mem_start (mm s);
  bk_above : lo <= m_mem_start (mm s) /\ forall a, a ∈ A -> lo <= a;
  bk_start : 0 < m_mem_start (mm s) /\ m_mem_start (mm s) mod PAGE_SIZE = 0;
  bk_room : 0 <= k /\ m_mem_start (mm s) + k * PAGE_SIZE < 2 ^ 32
}.

(** Nothing of the allocator but [m_mem_start] changed, and that by at most [k] pages. *)
Definition taken (m m' : mm_t) (k : Z) : Prop :=
  m' = set_start m (m_mem_start m') /\ m_mem_start m <= m_mem_start m' <= m_mem_start m + k * PAGE_SIZE.

Lemma page_align_bounds a : 0 <= a -> a + PAGE_SIZE <= 2 ^ 32 ->
  PAGE_ALIGN a mod PAGE_SIZE = 0 /\ a <= PAGE_ALIGN a < a + PAGE_SIZE.
Proof.
  intros H0 H. unfold PAGE_ALIGN. rewrite u32_small by (unfold PAGE_SIZE in *; lia).
  rewrite page_round by (unfold PAGE_SIZE in *; lia). unfold PAGE_SIZE in *. divlia.
Qed.

Lemma page_align_aligned a : 0 <= a -> a + PAGE_SIZE <= 2 ^ 32 -> a mod PAGE_SIZE = 0 -> PAGE_ALIGN a = a.
Proof. intros H0 H Hm. destruct (page_align_bounds a H0 H). unfold PAGE_SIZE in *. divlia. Qed.

Lemma taken_refl m : taken m m 0.
Proof. split; [destruct m; reflexivity|lia]. Qed.

Lemma taken_trans m1 m2 m3 k1 k2 : taken m1 m2 k1 -> taken m2 m3 k2 -> taken m1 m3 (k1 + k2).
Proof. intros [E1 H1] [E2 H2]. split; [rewrite E2; rewrite E1; reflexivity|lia]. Qed.

Lemma taken_mono m1 m2 k1 k2 : k1 <= k2 -> taken m1 m2 k1 -> taken m1 m2 k2.
Proof. intros H [E H1]. split; [exact E|unfold PAGE_SIZE in *; lia]. Qed.

(** The pages below [lo] are as they were. *)
Definition image_kept (s s' : machine) : Prop :=
  forall a j, 0 < a -> a mod PAGE_SIZE = 0 -> a + PAGE_SIZE <= lo -> 0 <= j < 1024 -> entry s' a j = entry s a j.

(** A page from aligned memory. *)
Lemma boot_page m k : 0 < m_mem_start m -> m_mem_start m mod PAGE_SIZE = 0 -> 1 <= k -> m_mem_start m + k * PAGE_SIZE < 2 ^ 32 ->
  boot_mem_alloc m PAGE_SIZE 1 = (m_mem_start m, set_start m (m_mem_start m + PAGE_SIZE)).
Proof.
  intros H0 Hm Hk H. unfold boot_mem_alloc. cbn [Z.eqb negb]. rewrite page_align_aligned by (unfold PAGE_SIZE in *; lia).
  cbn [m_mem_start set_start]. rewrite u32_small by (unfold PAGE_SIZE in *; lia). reflexivity.
Qed.

Lemma boot_get_table_ok s dir A i k : boot_ok s dir A (k + 1) -> 0 <= k -> 0 <= i < 1024 ->
  exists s' A', boot_get_table s (dir + 4 * i) = (s', table_of (entry s' dir i)) /\ boot_ok s' dir A' k /\ A ⊆ A' /\
    present (entry s' dir i) = true /\ taken (mm s) (mm s') 1 /\ image_kept s s' /\ same_meaning s s' dir A.
Proof.
  intros [D B [L0 L] [S0 Sm] [K R]] Hk Hi. unfold boot_get_table. fold (entry s dir i). destruct (present (entry s dir i)) eqn:Ep.
  - exists s, A. split; [reflexivity|]. split; [constructor; auto; unfold PAGE_SIZE in *; lia|]. split; [reflexivity|]. split; [exact Ep|].
    split; [apply (taken_mono _ _ 0); [lia|apply taken_refl]|]. split; [intros ? ? ? ? ? ?; reflexivity|]. split; [reflexivity|]. split; [reflexivity|]. auto.
  - rewrite (boot_page (mm s) (k + 1) S0 Sm ltac:(lia) R). set (p := m_mem_start (mm s)) in *.
    assert (Hp : p ∉ A) by (intros H; specialize (B p H); unfold PAGE_SIZE in *; lia).
    destruct (add_table_ok (set_mm s (set_start (mm s) (p + PAGE_SIZE))) dir A i p) as (Ht & Hpr & Hs & _ & Hsame); auto.
    { eapply dir_shape_frame; [exact D|]. reflexivity. }
    { split; [apply elem_of_union_l, elem_of_singleton_2; reflexivity|]. unfold PAGE_SIZE in *. lia. }
    exists (add_table (set_mm s (set_start (mm s) (p + PAGE_SIZE))) (dir + 4 * i) p), ({[p]} ∪ A). rewrite Ht. split; [reflexivity|].
    split; [|split; [apply union_subseteq_r|split; [exact Hpr|split; [|split; [|exact Hsame]]]]].
    + constructor; [exact Hs| | | |]; cbn [mm add_table set_word clear_page set_mm set_start m_mem_start].
      * intros a Ha. apply elem_of_union in Ha as [->%elem_of_singleton|Ha]; [lia|]. specialize (B a Ha). fold p in B. unfold PAGE_SIZE in *. lia.
      * fold p in L0. split; [unfold PAGE_SIZE; lia|]. intros a Ha. apply elem_of_union in Ha as [->%elem_of_singleton|Ha]; [exact L0|apply L, Ha].
      * unfold PAGE_SIZE in *. split; [lia|divlia].
      * unfold PAGE_SIZE in *. lia.
    + split; [reflexivity|]. cbn [mm add_table set_word clear_page set_mm set_start m_mem_start]. fold p. unfold PAGE_SIZE. lia.
    + intros a j Ha Ham Hal Hj. destruct (ds_dir _ _ _ D) as (Hd & _). specialize (L dir Hd). fold p in L0. unfold PAGE_SIZE in *.
      unfold entry, add_table, set_word, clear_page. cbn [words set_mm]. rewrite upd_ne by lia. apply clear_words_frame. lia.
Qed.

(** What a mapping at boot time does to the directory, with at most [n] pages taken. *)
Record boot_mapped (s : machine) (dir : Z) (A : gset Z) (k v e pa perm : Z) (s' : machine) (A' : gset Z) (n : Z) : Prop := {
  bm_ok : boot_ok s' dir A' (k - n);
  bm_sub : A ⊆ A';
  bm_taken : taken (mm s) (mm s') n;
  bm_kept : image_kept s s';
  bm_pte : forall x, 0 <= x < 2 ^ 32 -> pte_at s' dir x =
    if decide (v <= x < e) then Z.lor (Z.lor (u32 (pa + (x / 4096 * 4096 - v))) PTE_P) perm else pte_at s dir x
}.

Lemma boot_ok_mono s dir A k k' : 0 <= k' <= k -> boot_ok s dir A k -> boot_ok s dir A k'.
Proof. intros H [D B L S [K R]]. constructor; auto. unfold PAGE_SIZE in *. lia. Qed.

Lemma boot_mapped_refl s dir A k v pa perm : boot_ok s dir A k -> boot_mapped s dir A k v v pa perm s A 0.
Proof.
  intros D. constructor; [rewrite Z.sub_0_r; exact D|reflexivity|apply taken_refl|intros ? ? ? ? ? ?; reflexivity|].
  intros x Hx. rewrite decide_False by lia. reflexivity.
Qed.

Lemma boot_mapped_mono s dir A k v e pa perm s' A' n n' : n <= n' <= k ->
  boot_mapped s dir A k v e pa perm s' A' n -> boot_mapped s dir A k v e pa perm s' A' n'.
Proof. intros H [D S T I P]. constructor; auto; [eapply boot_ok_mono; [|exact D]; lia|eapply taken_mono; [|exact T]; lia]. Qed.

Lemma boot_mapped_trans s dir A k v v2 e pa perm s2 A2 s3 A3 n1 n2 : v <= v2 <= e ->
  boot_mapped s dir A k v v2 pa perm s2 A2 n1 -> boot_mapped s2 dir A2 (k - n1) v2 e (u32 (pa + (v2 - v))) perm s3 A3 n2 ->
  boot_mapped s dir A k v e pa perm s3 A3 (n1 + n2).
Proof.
  intros Hv [D1 S1 T1 I1 P1] [D2 S2 T2 I2 P2]. constructor.
  - replace (k - (n1 + n2)) with (k - n1 - n2) by lia. exact D2.
  - etransitivity; eassumption.
  - eapply taken_trans; eassumption.
  - intros a j Ha Hm Hl Hj. rewrite I2, I1 by assumption. reflexivity.
  - intros x Hx. rewrite P2, P1 by exact Hx. destruct (decide (v2 <= x < e)).
    + rewrite decide_True by lia. do 2 f_equal. unfold u32. rewrite Zplus_mod_idemp_l. f_equal. lia.
    + destruct (decide (v <= x < v2)); [rewrite decide_True by lia | rewrite decide_False by lia]; reflexivity.
Qed.

Lemma boot_map_loop_end fuel s pde v e pa perm : v = e -> boot_map_loop fuel s pde v e pa perm = Done s.
Proof. intros ->. destruct fuel; cbn [boot_map_loop]; replace (e <? e) with false by lia; reflexivity. Qed.

(** Filling a table does not touch the image either. *)
Lemma fill_image s dir A v e pa perm k s' v' pa' : boot_ok s dir A k -> 0 <= v < e -> e < 2 ^ 32 ->
  v mod PAGE_SIZE = 0 -> e mod PAGE_SIZE = 0 -> 0 <= pa < 2 ^ 32 -> present (entry s dir (PD_INDEX v)) = true ->
  fill_table (Z.to_nat NR_PTE_PER_PAGE) s (table_of (entry s dir (PD_INDEX v))) (PT_INDEX v) v e pa perm = (s', v', pa') ->
  image_kept s s'.
Proof.
  intros [D B [L0 L] S R] Hv He Hvm Hem Hpa Hp E a j Ha Ham Hal Hj.
  destruct (ds_table _ _ _ D (PD_INDEX v) (pd_range v ltac:(lia)) Hp) as [Ht _].
  assert (D' : dir_shape s dir ({[a]} ∪ A)).
  { constructor; [eapply page_in_mono; [apply union_subseteq_r|apply D]| |apply D].
    intros i Hi Hpi. destruct (ds_table _ _ _ D i Hi Hpi) as [H1 H2]. split; [eapply page_in_mono; [apply union_subseteq_r|exact H1]|exact H2]. }
  destruct (fill_shape s dir _ v e pa perm D' Hv He Hvm Hem Hpa Hp) as (s2 & v2 & E2 & _ & _ & _ & _ & _ & _ & F).
  rewrite E in E2. injection E2 as -> _ _. apply F; [| |exact Hj].
  - split; [apply elem_of_union_l, elem_of_singleton_2; reflexivity|]. unfold PAGE_SIZE in *. pose proof (bk_room _ _ _ _ (Build_boot_ok _ _ _ _ D B (conj L0 L) S R)). unfold PAGE_SIZE in *. lia.
  - destruct Ht as [Ht _]. specialize (L _ Ht). unfold PAGE_SIZE in *. lia.
Qed.

(** The directory entries that the range [v .. e) touches. *)
Definition tables (v e : Z) : Z := (e + 2 ^ 22 - 1) / 2 ^ 22 - v / 2 ^ 22.

(** A mapping takes at most one page per directory entry that it touches. *)
Lemma boot_map_loop_ok : forall fuel s dir A pde v e pa perm k,
  boot_ok s dir A k -> tables v e <= k -> 0 <= v <= e -> e < 2 ^ 32 -> v mod PAGE_SIZE = 0 -> e mod PAGE_SIZE = 0 ->
  0 <= pa < 2 ^ 32 -> (v = e \/ (pde = dir + 4 * PD_INDEX v /\ 1024 - PD_INDEX v <= Z.of_nat fuel)) ->
  exists s' A', boot_map_loop fuel s pde v e pa perm = Done s' /\ boot_mapped s dir A k v e pa perm s' A' (tables v e).
Proof.
  induction fuel as [|fuel IH]; intros s dir A pde v e pa perm k D Hk Hv He Hvm Hem Hpa Hc;
    (destruct (Z.eq_dec v e) as [->|Hne];
     [exists s, A; split; [apply boot_map_loop_end; reflexivity|];
      apply (boot_mapped_mono _ _ _ _ _ _ _ _ _ _ 0); [unfold tables in *; divlia|apply boot_mapped_refl; assumption]|]);
    destruct Hc as [|[-> Hf]]; try contradiction.
  { pose proof (pd_range v ltac:(lia)). lia. }
  cbn [boot_map_loop]. replace (v <? e) with true by lia. cbn [negb]. pose proof (pd_range v ltac:(lia)) as Hpd.
  assert (Ht : 1 <= tables v e) by (unfold tables; divlia).
  destruct (boot_get_table_ok s dir A (PD_INDEX v) (k - 1)) as (s1 & A1 & E1 & D1 & Hsub & Hp1 & T1 & I1 & Hpte1 & _);
    [replace (k - 1 + 1) with k by lia; exact D|lia|exact Hpd|]. rewrite E1.
  destruct (fill_shape s1 dir A1 v e pa perm (bk_shape _ _ _ _ D1) ltac:(lia) He Hvm Hem Hpa Hp1)
    as (s2 & v2 & E2 & Hv2 & Hvm2 & Hnext & D2 & Em & Hpte2 & Hfr2). rewrite E2.
  assert (M : boot_mapped s dir A k v v2 pa perm s2 A1 1).
  { constructor; [destruct D1; constructor; rewrite ?Em; assumption|exact Hsub|rewrite Em; exact T1| |].
    { intros a j Ha Ham Hal Hj. rewrite <- (I1 a j) by assumption.
      apply (fill_image s1 dir A1 v e pa perm (k - 1)) with (s' := s2) (v' := v2) (pa' := u32 (pa + (v2 - v))); auto; lia. }
    intros x Hx. rewrite Hpte2, Hpte1 by exact Hx. reflexivity. }
  destruct Hnext as [[-> _]|[Hb Ei]].
  - exists s2, A1. split; [apply boot_map_loop_end; reflexivity|]. eapply boot_mapped_mono; [|exact M]. lia.
  - assert (Ht2 : tables v2 e = tables v e - 1) by (rewrite !pd_index in Ei by lia; unfold tables; lia).
    destruct (IH s2 dir A1 (dir + 4 * PD_INDEX v + 4) v2 e (u32 (pa + (v2 - v))) perm (k - 1)) as (s3 & A3 & E3 & M3);
      try assumption; try lia; [apply M|apply u32_range|].
    exists s3, A3. split; [exact E3|]. replace (tables v e) with (1 + tables v2 e) by lia.
    eapply boot_mapped_trans; [|exact M|exact M3]. lia.
Qed.

Lemma boot_map_pages_ok s dir A va pa size perm k :
  boot_ok s dir A k -> 0 <= va -> 0 <= size -> va + size < 2 ^ 32 -> 0 <= pa < 2 ^ 32 -> va mod PAGE_SIZE = 0 ->
  let e := (va + size) / 4096 * 4096 in tables va e <= k ->
  exists s' A', boot_map_pages s dir va pa size perm = Done s' /\ boot_mapped s dir A k va e (pa / 4096 * 4096) perm s' A' (tables va e).
Proof.
  intros D Hva Hsz Hend Hpa Hm e Hk. unfold boot_map_pages. rewrite u32_small by lia. rewrite !page_round by lia.
  rewrite Hm, Z.sub_0_r. replace (va + size - (va + size) mod PAGE_SIZE) with e by (unfold e, PAGE_SIZE; divlia).
  replace (pa - pa mod PAGE_SIZE) with (pa / 4096 * 4096) by (unfold PAGE_SIZE; divlia).
  pose proof (pd_range va ltac:(lia)). apply boot_map_loop_ok; auto; unfold e, PAGE_SIZE in *; try divlia.
Qed.

(** ** Devices *)

(** The entries that [map_devices] writes are the only words that it changes. *)
Lemma map_devices_words s dir A vram ev : boot_ok s dir A 1 -> 0 <= vram < 2 ^ 32 ->
  let p := m_mem_start (mm s) in
  let s' := map_devices s dir vram ev in
  mm s' = set_start (mm s) (p + PAGE_SIZE) /\
  (forall a j, 0 <= j < 1024 -> a mod PAGE_SIZE = 0 -> a <> dir -> a <> p -> entry s' a j = entry s a j) /\
  (forall j, 0 <= j < 1024 -> j <> PD_INDEX vram -> j <> PD_INDEX APIC_BASE -> entry s' dir j = entry s dir j) /\
  (PD_INDEX vram <> PD_INDEX APIC_BASE -> entry s' dir (PD_INDEX vram) = Z.lor (VA2PA ev) 3) /\
  entry s' dir (PD_INDEX APIC_BASE) = Z.lor (VA2PA p) 3 /\
  entry s' p (PT_INDEX APIC_BASE) = Z.lor APIC_BASE 3 /\ entry s' p (PT_INDEX IO_APIC_BASE) = Z.lor IO_APIC_BASE 3.
Proof.
  intros [D B [L0 L] [S0 Sm] [K R]] Hv p s'. destruct (ds_dir _ _ _ D) as (Hd & Hd0 & Hdm & Hde). specialize (B dir Hd).
  assert (Ei : Z.shiftr vram 22 = PD_INDEX vram) by (rewrite pd_index, Z.shiftr_div_pow2 by lia; reflexivity).
  pose proof (pd_range vram Hv) as Hi. pose proof (pd_range APIC_BASE ltac:(unfold APIC_BASE; lia)) as Hi'.
  pose proof (pt_range APIC_BASE) as Ht1. pose proof (pt_range IO_APIC_BASE) as Ht2.
  unfold s', map_devices. rewrite Ei. cbn [mm set_entry set_word]. rewrite (boot_page (mm s) 1 S0 Sm ltac:(lia) R). fold p.
  unfold entry. cbn [mm words set_entry set_word set_mm]. change (Z.lor PTE_P PTE_W) with 3.
  split; [reflexivity|]. fold p in B, Sm. unfold PAGE_SIZE in *.
  split_and!; intros; rewrite ?upd_eq; try reflexivity; repeat (rewrite upd_ne by first [divlia|lia]); rewrite ?upd_eq; try reflexivity.
  rewrite upd_ne by (change (PT_INDEX IO_APIC_BASE) with 0; change (PT_INDEX APIC_BASE) with 512; lia). apply upd_eq.
Qed.

End boot_memory.

(** ** The kernel's page directory *)

(** What the linker script and the drivers give: the image from [KERNEL_LOAD] on, its data
    from a page boundary [data] on, all of it below [m_mem_start]; memory up to
    [m_mem_end], below the 4MB of the frame buffer and those of the interrupt controllers;
    the page table of the frame buffer in the image. *)
Record layout (s : machine) (data vram ev : Z) : Prop := {
  ly_data : data mod PAGE_SIZE = 0 /\ KERNEL_LOAD <= data <= m_mem_start (mm s);
  ly_end : m_mem_start (mm s) <= m_mem_end (mm s) <= IO_APIC_BASE;
  ly_vram : m_mem_end (mm s) <= vram / 2 ^ 22 * 2 ^ 22 /\ vram < 2 ^ 32 /\ PD_INDEX vram <> PD_INDEX APIC_BASE;
  ly_table : ev mod PAGE_SIZE = 0 /\ KERNEL_BASE <= ev /\ ev + PAGE_SIZE <= m_mem_start (mm s)
}.

(** The entry of a page of kernel memory: mapped onto itself less [KERNEL_BASE], and
    writable unless it holds code or constants. *)
Definition kernel_pte (data x : Z) : Z :=
  Z.lor (Z.lor (VA2PA (x / 4096 * 4096)) PTE_P) (if decide (KERNEL_LOAD <= x < data) then 0 else PTE_W).

(** The empty directory. *)
Lemma new_dir_ok s data vram ev : layout s data vram ev ->
  exists dir s0, boot_mem_alloc (mm s) PAGE_SIZE 1 = (dir, set_start (mm s) (dir + PAGE_SIZE)) /\
    clear_page (set_mm s (set_start (mm s) (dir + PAGE_SIZE))) dir = s0 /\
    boot_ok (m_mem_start (mm s)) s0 dir {[dir]} 600 /\ m_mem_start (mm s) <= dir < m_mem_start (mm s) + PAGE_SIZE /\
    image_kept (m_mem_start (mm s)) s s0 /\ forall x, 0 <= x < 2 ^ 32 -> pte_at s0 dir x = 0.
Proof.
  intros [[Hdm Hd] He Hv Ht]. unfold IO_APIC_BASE, KERNEL_LOAD, KERNEL_BASE, EXTENED_MEM in *.
  destruct (page_align_bounds (m_mem_start (mm s))) as [Hm Hb]; [lia|unfold PAGE_SIZE; lia|].
  exists (PAGE_ALIGN (m_mem_start (mm s))), (clear_page (set_mm s (set_start (mm s) (PAGE_ALIGN (m_mem_start (mm s)) + PAGE_SIZE))) (PAGE_ALIGN (m_mem_start (mm s)))).
  set (dir := PAGE_ALIGN _) in *. remember (clear_page _ _) as s0 eqn:E0. unfold PAGE_SIZE in *.
  assert (Hz : forall i, 0 <= i < 1024 -> present (entry s0 dir i) = false).
  { intros i Hi. rewrite E0. unfold entry, clear_page. cbn [words set_mm]. rewrite clear_words_at by (unfold NR_PTE_PER_PAGE; lia). reflexivity. }
  assert (Em : mm s0 = set_start (mm s) (dir + 4096)) by (rewrite E0; reflexivity).
  assert (Hk : image_kept (m_mem_start (mm s)) s s0).
  { intros a j Ha Ham Hal Hj. rewrite E0. unfold entry, clear_page. cbn [words set_mm]. unfold PAGE_SIZE in *. apply clear_words_frame. lia. }
  split; [|split; [reflexivity|split; [|split; [lia|split; [exact Hk|]]]]].
  - unfold boot_mem_alloc. cbn [Z.eqb negb]. fold dir. cbn [m_mem_start set_start]. rewrite u32_small by lia. reflexivity.
  - constructor; rewrite ?Em; cbn [set_start m_mem_start]; unfold PAGE_SIZE.
    + constructor; [split; [apply elem_of_singleton_2; reflexivity|unfold PAGE_SIZE; lia]| |].
      * intros i Hi Hp. rewrite Hz in Hp by exact Hi. discriminate.
      * intros i j Hi Hj Hne Hp. rewrite Hz in Hp by exact Hi. discriminate.
    + intros a ->%elem_of_singleton. lia.
    + split; [lia|]. intros a ->%elem_of_singleton. lia.
    + split; [lia|divlia].
    + lia.
  - intros x Hx. unfold pte_at. rewrite Hz by (apply pd_range, Hx). reflexivity.
Qed.

(** The three mappings. *)
Lemma kernel_ranges_ok s data vram ev : layout s data vram ev ->
  exists dir A s3 n, 0 <= n < 600 /\ boot_ok (m_mem_start (mm s)) s3 dir A (600 - n) /\
    init_paging s data vram ev = Done (dir, map_devices s3 dir vram ev) /\
    taken (set_start (mm s) (dir + PAGE_SIZE)) (mm s3) n /\ image_kept (m_mem_start (mm s)) s s3 /\
    m_mem_start (mm s) <= dir < m_mem_start (mm s) + PAGE_SIZE /\
    forall x, 0 <= x < 2 ^ 32 -> pte_at s3 dir x =
      if decide (KERNEL_BASE <= x < m_mem_end (mm s) / 4096 * 4096) then kernel_pte data x else 0.
Proof.
  intros Hl. destruct (new_dir_ok s data vram ev Hl) as (dir & s0 & Ea & E0 & B0 & Hdir & I0 & P0).
  destruct Hl as [[Hdm Hd] He _ _]. set (lo := m_mem_start (mm s)) in *. set (end_ := m_mem_end (mm s)) in *.
  assert (K1 : KERNEL_BASE = 3221225472) by reflexivity. assert (K2 : KERNEL_LOAD = KERNEL_BASE + 1048576) by reflexivity.
  assert (K3 : EXTENED_MEM = 1048576) by reflexivity. assert (K4 : IO_APIC_BASE = 4273995776) by reflexivity. rewrite K4 in He.
  assert (VP : forall x, KERNEL_BASE <= x < 2 ^ 32 -> VA2PA x = x - KERNEL_BASE) by (intros x Hx; unfold VA2PA; apply u32_small; lia).
  unfold init_paging. rewrite Ea, E0.
  destruct (boot_map_pages_ok lo s0 dir {[dir]} KERNEL_BASE 0 EXTENED_MEM PTE_W 600 B0) as (s1 & A1 & E1 & [B1 _ T1 I1 P1]);
    [lia..|rewrite K1; reflexivity|rewrite K1, K3; vm_compute; discriminate|]. rewrite E1. cbn [obind].
  set (n1 := tables KERNEL_BASE _) in *. assert (N1 : n1 = 1) by reflexivity.
  replace (u32 (VA2PA data - VA2PA KERNEL_LOAD)) with (data - KERNEL_LOAD) by (rewrite !VP by lia; rewrite u32_small by lia; lia).
  destruct (boot_map_pages_ok lo s1 dir A1 KERNEL_LOAD (VA2PA KERNEL_LOAD) (data - KERNEL_LOAD) 0 (600 - n1) B1) as (s2 & A2 & E2 & [B2 _ T2 I2 P2]);
    [lia|lia|lia|rewrite VP by lia; lia|rewrite K2, K1; reflexivity|unfold tables; divlia|]. rewrite E2. cbn [obind].
  replace ((KERNEL_LOAD + (data - KERNEL_LOAD)) / 4096 * 4096) with data in * by (unfold PAGE_SIZE in Hdm; divlia).
  set (n2 := tables KERNEL_LOAD _) in *. assert (N2 : 0 <= n2 <= 260) by (unfold n2, tables; divlia).
  assert (Eend : m_mem_end (mm s2) = end_) by (rewrite (proj1 T2), (proj1 T1), <- E0; reflexivity). rewrite Eend.
  replace (u32 (VA2PA end_ - VA2PA data)) with (end_ - data) by (rewrite !VP by lia; rewrite u32_small by lia; lia).
  destruct (boot_map_pages_ok lo s2 dir A2 data (VA2PA data) (end_ - data) PTE_W (600 - n1 - n2) B2) as (s3 & A3 & E3 & [B3 _ T3 I3 P3]);
    [lia|lia|lia|rewrite VP by lia; lia|exact Hdm|unfold tables; divlia|]. rewrite E3. cbn [obind].
  replace (data + (end_ - data)) with end_ in * by lia. set (n3 := tables data _) in *. assert (N3 : 0 <= n3 <= 260) by (unfold n3, tables; divlia).
  exists dir, A3, s3, (n1 + n2 + n3). split; [lia|]. split; [replace (600 - (n1 + n2 + n3)) with (600 - n1 - n2 - n3) by lia; exact B3|].
  split; [reflexivity|]. split; [|split; [|split; [exact Hdir|]]].
  - eapply taken_trans; [eapply taken_trans; [|exact T2]|exact T3]. rewrite <- E0 in T1. exact T1.
  - intros a j H1 H2 H3 H4. rewrite (I3 a j), (I2 a j), (I1 a j), (I0 a j) by assumption. reflexivity.
  - intros x Hx. rewrite P3, P2, P1, P0 by exact Hx. unfold kernel_pte. rewrite K3 in *. unfold PAGE_SIZE in *.
    replace ((KERNEL_BASE + 1048576) / 4096 * 4096) with KERNEL_LOAD by (rewrite K2, K1; reflexivity).
    rewrite (VP data), (VP KERNEL_LOAD) by lia.
    repeat case_decide; try (exfalso; divlia); try reflexivity; rewrite VP by divlia; rewrite u32_small by divlia; f_equal; f_equal; divlia.
Qed.

(** What is true of the directory in the end: [paged s s' dir data vram ev]. *)
Record paged (s s' : machine) (dir data vram ev : Z) : Prop := {
  pg_kernel : forall x, KERNEL_BASE <= x < m_mem_end (mm s) / 4096 * 4096 -> pte_at s' dir x = kernel_pte data x;
  pg_user : forall x, 0 <= x < KERNEL_BASE -> pte_at s' dir x = 0;
  pg_vram : forall x, 0 <= x < 2 ^ 32 -> PD_INDEX x = PD_INDEX vram -> pte_at s' dir x = entry s ev (PT_INDEX x);
  pg_apic : pte_at s' dir APIC_BASE = Z.lor APIC_BASE 3 /\ pte_at s' dir IO_APIC_BASE = Z.lor IO_APIC_BASE 3;
  pg_tables : m_mem_start (mm s) <= dir /\ dir + PAGE_SIZE <= m_mem_start (mm s') /\
    forall i, 0 <= i < 1024 -> present (entry s' dir i) = true -> table_of (entry s' dir i) + PAGE_SIZE <= m_mem_start (mm s');
  pg_mm : mm s' = set_start (mm s) (m_mem_start (mm s')) /\ m_mem_start (mm s) < m_mem_start (mm s') <= m_mem_start (mm s) + 2 ^ 22
}.

(** The device tables added to a directory whose entries for them are free. *)
Lemma map_devices_pte lo s dir A vram ev x : boot_ok lo s dir A 1 -> 0 <= vram < 2 ^ 32 -> 0 <= x < 2 ^ 32 ->
  PD_INDEX x <> PD_INDEX vram -> PD_INDEX x <> PD_INDEX APIC_BASE ->
  pte_at (map_devices s dir vram ev) dir x = pte_at s dir x.
Proof.
  intros B Hv Hx H1 H2. destruct (map_devices_words lo s dir A vram ev B Hv) as (_ & Fo & Fd & _).
  pose proof (pd_range x Hx) as Hi. pose proof (pt_range x) as Hj. unfold pte_at. rewrite Fd by assumption.
  destruct (present (entry s dir (PD_INDEX x))) eqn:E; [|reflexivity].
  destruct (ds_table _ _ _ (bk_shape _ _ _ _ _ B) _ Hi E) as [(Ht & _ & Hm & _) Hd].
  apply Fo; auto. pose proof (bk_below _ _ _ _ _ B _ Ht). unfold PAGE_SIZE in *. lia.
Qed.

Lemma init_paging_spec s data vram ev : layout s data vram ev ->
  exists dir s', init_paging s data vram ev = Done (dir, s') /\ paged s s' dir data vram ev.
Proof.
  intros Hl. destruct (kernel_ranges_ok s data vram ev Hl) as (dir & A & s3 & n & Hn & B & E & T & I & Hdir & P).
  exists dir, (map_devices s3 dir vram ev). split; [exact E|].
  destruct Hl as [[Hdm Hd] He (Hv1 & Hv2 & Hv3) (Hem & Hek & Hel)].
  assert (Hv : 0 <= vram < 2 ^ 32) by (split; [|exact Hv2]; unfold KERNEL_LOAD, KERNEL_BASE, EXTENED_MEM in *; divlia).
  apply (boot_ok_mono _ _ _ _ _ 1) in B; [|lia]. pose proof (map_devices_words _ s3 dir A vram ev B Hv) as (Em & Fo & Fd & Fv & Fa & Fp1 & Fp2).
  pose proof (fun x => map_devices_pte _ s3 dir A vram ev x B Hv) as Pd. destruct T as [T1 T2]. cbn [m_mem_start set_start] in T2.
  set (s' := map_devices _ _ _ _) in *. set (p := m_mem_start (mm s3)) in *.
  destruct (bk_start _ _ _ _ _ B) as [_ Hpm]. pose proof (bk_room _ _ _ _ _ B) as [_ R]. fold p in Hpm, R.
  assert (Kp : present (Z.lor (VA2PA p) 3) = true /\ table_of (Z.lor (VA2PA p) 3) = p)
    by (apply pde_flags; unfold PAGE_SIZE, KERNEL_LOAD, KERNEL_BASE, EXTENED_MEM in *; first [assumption|reflexivity|lia]).
  assert (Ke : present (Z.lor (VA2PA ev) 3) = true /\ table_of (Z.lor (VA2PA ev) 3) = ev)
    by (apply pde_flags; unfold PAGE_SIZE, KERNEL_LOAD, KERNEL_BASE, EXTENED_MEM in *; first [assumption|reflexivity|lia]).
  destruct Kp as [Kp1 Kp2], Ke as [Ke1 Ke2]. assert (Ai : PD_INDEX APIC_BASE = 1019) by reflexivity.
  assert (Out : forall x, 0 <= x < m_mem_end (mm s) -> PD_INDEX x <> PD_INDEX vram /\ PD_INDEX x <> PD_INDEX APIC_BASE).
  { intros x Hx. unfold IO_APIC_BASE in *. rewrite Ai, !pd_index by lia. split; divlia. }
  constructor.
  - intros x Hx. rewrite Pd, P; [rewrite decide_True by lia; reflexivity|unfold KERNEL_BASE, IO_APIC_BASE in *; divlia|unfold KERNEL_BASE, IO_APIC_BASE in *; divlia|apply Out..];
      unfold KERNEL_BASE in *; divlia.
  - intros x Hx. rewrite Pd, P; [rewrite decide_False by lia; reflexivity|unfold KERNEL_BASE in *; lia|unfold KERNEL_BASE in *; lia|apply Out..];
      unfold KERNEL_LOAD, EXTENED_MEM, KERNEL_BASE in *; lia.
  - intros x Hx Ex. unfold pte_at. rewrite Ex, Fv, Ke1, Ke2 by exact Hv3. pose proof (pt_range x).
    rewrite Fo, I; auto; unfold PAGE_SIZE, KERNEL_BASE in *; lia.
  - unfold pte_at. change (PD_INDEX IO_APIC_BASE) with (PD_INDEX APIC_BASE). rewrite Fa, Kp1, Kp2. split; assumption.
  - rewrite Em. cbn [m_mem_start set_start]. fold p. split; [lia|]. split; [unfold PAGE_SIZE in *; lia|]. intros i Hi Hp.
    destruct (Z.eq_dec i (PD_INDEX APIC_BASE)) as [->|]; [rewrite Fa, Kp2; lia|].
    destruct (Z.eq_dec i (PD_INDEX vram)) as [->|]; [rewrite Fv, Ke2 by exact Hv3; unfold PAGE_SIZE in *; lia|].
    rewrite Fd in Hp |- * by assumption. destruct (ds_table _ _ _ (bk_shape _ _ _ _ _ B) _ Hi Hp) as [(Ht & _) _].
    pose proof (bk_below _ _ _ _ _ B _ Ht) as Hb. fold p in Hb. unfold PAGE_SIZE in *. lia.
  - rewrite Em, T1. cbn [m_mem_start set_start]. fold p. unfold PAGE_SIZE in *. split; [reflexivity|lia].
Qed.

(** ** Theorems *)

(** C32: [mm_t::init] returns, from the state the loader leaves, with a page directory and an
    allocator that agree: all memory of the kernel is mapped onto itself less
    [KERNEL_BASE], its code and constants read-only, nothing is mapped below, the frame
    buffer through its own table and the interrupt controllers onto themselves; the
    allocator's lists and bitmaps represent the memory from [base] to [m_mem_end] as free;
    every free page is mapped and writable, and neither the directory nor any of its tables
    nor the kernel image is free. *)
Theorem init_correct (s : machine) (end_ data vram ev : Z) (ranges : list address_range)
  (Hlayout : layout (set_mm s (init_mem_range (mm s) end_ ranges)) data vram ev)
  (Hheads : 0 < free_list_addr (mm s) /\ free_list_addr (mm s) + 12 * (MAX_ORDER + 1) <= end_)
  (Hroom : end_ + 2 ^ 23 <= PA2VA (usable_range ranges (0, 0)).2) :
  exists dir s' F, init s end_ data vram ev ranges = Done (dir, s') /\
    (forall x, KERNEL_BASE <= x < PA2VA (usable_range ranges (0, 0)).2 / 4096 * 4096 -> pte_at s' dir x = kernel_pte data x) /\
    (forall x, 0 <= x < KERNEL_BASE -> pte_at s' dir x = 0) /\
    (forall x, 0 <= x < 2 ^ 32 -> PD_INDEX x = PD_INDEX vram -> pte_at s' dir x = entry s ev (PT_INDEX x)) /\
    pte_at s' dir APIC_BASE = Z.lor APIC_BASE 3 /\ pte_at s' dir IO_APIC_BASE = Z.lor IO_APIC_BASE 3 /\
    buddy_ok (mm s') F /\ refs_ok (mm s') F /\
    (forall x, free_at F x <-> base (mm s') <= x < m_mem_end (mm s')) /\
    (forall x, free_at F x -> pte_at s' dir x = Z.lor (Z.lor (VA2PA (x / 4096 * 4096)) PTE_P) PTE_W) /\
    end_ <= dir /\ dir + PAGE_SIZE <= base (mm s') /\
    (forall i, 0 <= i < 1024 -> present (entry s' dir i) = true -> table_of (entry s' dir i) + PAGE_SIZE <= base (mm s')).
Proof.
  unfold init. set (s0 := set_mm s _) in *. set (top := PA2VA _) in *.
  assert (E0 : m_mem_start (mm s0) = end_ /\ m_mem_end (mm s0) = top /\ free_list_addr (mm s0) = free_list_addr (mm s)) by (split_and!; reflexivity).
  destruct E0 as (Es & Ee & Ef).
  destruct (init_paging_spec s0 data vram ev Hlayout) as (dir & s1 & E1 & [Pk Pu Pv [Pa Pi] (Pd1 & Pd2 & Pt) [Pm1 Pm2]]).
  rewrite E1. cbn [obind]. rewrite Es, Ee in *. destruct Hlayout as [[_ Hd] He _ _]. rewrite Es, Ee in *.
  assert (B : boot_state (mm s1)).
  { unfold MAX_ORDER, KERNEL_LOAD, KERNEL_BASE, EXTENED_MEM, IO_APIC_BASE in *. constructor; rewrite Pm1; cbn [free_list_addr m_mem_start m_mem_end set_start];
      rewrite ?Ef, ?Ee; unfold MAX_ORDER, KERNEL_BASE; lia. }
  destruct (init_free_area_spec (mm s1) B) as (m & F & E2 & HB & HR & HF & Hb & Hm). rewrite E2. cbn [obind].
  assert (Em : m_mem_end (mm s1) = top) by (rewrite Pm1; exact Ee). rewrite Em in Hm.
  exists dir, (set_mm s1 m), F. cbn [mm set_mm]. split; [reflexivity|]. split; [exact Pk|]. split; [exact Pu|].
  split; [exact Pv|]. split; [exact Pa|]. split; [exact Pi|]. split; [exact HB|]. split; [exact HR|]. split; [exact HF|].
  split; [|split; [exact Pd1|split; [lia|]]].
  - intros x Hx. apply HF in Hx as Hr. change (pte_at (set_mm s1 m) dir x) with (pte_at s1 dir x).
    unfold KERNEL_LOAD, EXTENED_MEM, KERNEL_BASE in *.
    destruct (geo_end _ (bo_geo _ _ HB)) as [_ Hend]. change (bsize (MAX_ORDER + 1)) with 524288 in Hend.
    rewrite Pk by divlia. unfold kernel_pte. rewrite decide_False by (unfold KERNEL_LOAD, KERNEL_BASE, EXTENED_MEM; lia). reflexivity.
  - intros i Hi Hp. specialize (Pt i Hi Hp). change (entry (set_mm s1 m) dir i) with (entry s1 dir i). lia.
Qed.

(** The table of the interrupt controllers is not cleared: an entry but the two that are
    set keeps whatever the memory held. *)
Theorem apic_table_not_cleared lo s dir A vram ev j : boot_ok lo s dir A 1 -> 0 <= vram < 2 ^ 32 -> 0 <= j < 1024 ->
  j <> PT_INDEX APIC_BASE -> j <> PT_INDEX IO_APIC_BASE ->
  let p := m_mem_start (mm s) in
  table_of (entry (map_devices s dir vram ev) dir (PD_INDEX APIC_BASE)) = p /\ entry (map_devices s dir vram ev) p j = entry s p j.
Proof.
  intros B Hv Hj H1 H2 p. destruct (map_devices_words lo s dir A vram ev B Hv) as (_ & _ & _ & _ & Fa & _).
  destruct B as [D Bl _ [S0 Sm] [K R]]. fold p in Fa, S0, Sm, R. destruct (ds_dir _ _ _ D) as (Hd & _ & Hdm & _). specialize (Bl dir Hd). fold p in Bl.
  pose proof (pd_range vram Hv) as Hi. pose proof (pd_range APIC_BASE ltac:(unfold APIC_BASE; lia)) as Hi'.
  assert (Ei : Z.shiftr vram 22 = PD_INDEX vram) by (rewrite pd_index, Z.shiftr_div_pow2 by lia; reflexivity).
  split; [rewrite Fa; apply pde_flags; unfold PAGE_SIZE in *; first [assumption|reflexivity|lia]|].
  unfold map_devices. rewrite Ei. cbn [mm set_entry set_word]. rewrite (boot_page (mm s) 1 S0 Sm ltac:(lia) R). fold p.
  unfold entry. cbn [mm words set_entry set_word set_mm]. unfold PAGE_SIZE in *. repeat (rewrite upd_ne by first [lia|divlia]). reflexivity.
Qed.

(** The last usable range above 1MB decides: memory between two of them counts as usable. *)
Theorem usable_range_last ranges r : r_type r = 1 -> MB <= r_base_addr_low r ->
  forall init rest, Forall (fun q => r_type q <> 1 \/ r_base_addr_low q < MB) rest ->
  usable_range (ranges ++ r :: rest) init = (r_base_addr_low r, u32 (r_base_addr_low r + r_length_low r)).
Proof.
  intros H1 H2 init rest Hr. unfold usable_range. rewrite foldl_app. cbn [foldl].
  replace ((r_type r =? 1) && (1 * MB <=? r_base_addr_low r)) with true by lia.
  induction Hr as [|q rest Hq Hr IH]; [reflexivity|]. cbn [foldl].
  replace ((r_type q =? 1) && (1 * MB <=? r_base_addr_low q)) with false by lia. exact IH.
Qed.

Definition two_ranges : list address_range :=
  [mk_range 0x100000 0x700000 1; mk_range 0x800000 0x1800000 2; mk_range 0x2000000 0x1000000 1].

Example hole_is_usable : m_mem_end (init_mem_range boot_mm 0xc0200000 two_ranges) = 0xc3000000.
Proof. reflexivity. Qed.

(** Witness: 128MB, the image of 2MB with its data from 0xc0150000 on. *)
Definition boot_ranges : list address_range :=
  [mk_range 0 0x9fc00 1; mk_range 0x9fc00 0x400 2; mk_range 0x100000 0x7ee0000 1; mk_range 0x7fe0000 0x20000 2].

Definition boot_machine : machine := mk_machine (fun _ => 0) boot_mm.

Lemma boot_layout : layout (set_mm boot_machine (init_mem_range (mm boot_machine) 0xc0200000 boot_ranges)) 0xc0150000 0xe0000000 0xc0190000.
Proof.
  constructor.
  - split; [reflexivity|]. split; discriminate.
  - split; discriminate.
  - split; [discriminate|]. split; [reflexivity|discriminate].
  - split; [reflexivity|]. split; discriminate.
Qed.

Lemma init_correct_witness : exists dir s' F,
  init boot_machine 0xc0200000 0xc0150000 0xe0000000 0xc0190000 boot_ranges = Done (dir, s') /\
  pte_at s' dir 0xc0100000 = 0x100001 /\ pte_at s' dir 0xc0150000 = 0x150003 /\ pte_at s' dir 0x8048000 = 0 /\ buddy_ok (mm s') F.
Proof.
  destruct (init_correct boot_machine 0xc0200000 0xc0150000 0xe0000000 0xc0190000 boot_ranges boot_layout) as
    (dir & s' & F & E & Hk & Hu & _ & _ & _ & HB & _).
  - split; [reflexivity|discriminate].
  - discriminate.
  - exists dir, s', F. split; [exact E|]. split; [rewrite Hk by (split; [discriminate|reflexivity]); reflexivity|].
    split; [rewrite Hk by (split; [discriminate|reflexivity]); reflexivity|]. split; [apply Hu; split; [discriminate|reflexivity]|exact HB].
Defined.
