(* ===== verification/Vm.v ===== *)
(** * Virtual memory areas and page faults (src/src/vm.cc, vm.h)

    [vmm_t::m_mmap] is a singly linked list of areas that nothing else points
    into; it is a Rocq list here.  The areas come from an object pool whose
    objects keep whatever was in them before: [vma_alloc] returns such an object,
    with arbitrary contents.  The page-table part of each operation works on the
    [machine] of [Paging]. *)
From Stdlib Require Import ZArith ZifyBool Lia.
From stdpp Require Import base option list gmap.
From S2P Require Import Prelude Interfaces Buddy Paging.

Definition USER_VM_SIZE : Z := 0xc0000000.
Definition VM_UNMAPPED_BASE : Z := USER_VM_SIZE / 3.
Definition MAP_FIXED : Z := 0x10.
Definition VM_READ : Z := 1.
Definition VM_WRITE : Z := 2.
Definition VM_EXEC : Z := 4.
Definition VM_STACK : Z := 0x177.

Record vm_area := mk_vma {
  m_start : Z;
  m_end : Z;
  m_page_prot : Z;
  m_flags : Z
}.

Definition set_start (v : vm_area) (a : Z) : vm_area := mk_vma a (m_end v) (m_page_prot v) (m_flags v).
Definition set_end (v : vm_area) (a : Z) : vm_area := mk_vma (m_start v) a (m_page_prot v) (m_flags v).

(** The pool of areas, [os()->get_obj_pool(VMA_POOL)]. *)
Class VmaPool (V : Type) : Type := {
  vma_alloc : V -> outcome (option vm_area * V);
  vma_free : V -> vm_area -> V
}.

(** ** Operations on the list of areas *)

Fixpoint find_vma (l : list vm_area) (addr : Z) : option vm_area :=
  match l with
  | [] => None
  | vma :: r => if addr <? m_end vma then Some vma else find_vma r addr
  end.

(** The overload that also gives [prev]: the areas passed over, the one found and
    those after it. *)
Fixpoint find_vma_prev (before l : list vm_area) (addr : Z) : option (list vm_area * vm_area * list vm_area) :=
  match l with
  | [] => None
  | vma :: r => if addr <? m_end vma then Some (before, vma, r) else find_vma_prev (before ++ [vma]) r addr
  end.

(** The list from the area found on. *)
Fixpoint find_vma_rest (l : list vm_area) (addr : Z) : list vm_area :=
  match l with
  | [] => []
  | vma :: r => if addr <? m_end vma then l else find_vma_rest r addr
  end.

Fixpoint unmapped_loop (l : list vm_area) (addr len : Z) : Z :=
  match l with
  | [] => addr
  | vma :: r =>
      if u32 (USER_VM_SIZE - len) <? addr then 0
      else if u32 (addr + len) <=? m_start vma then addr
      else unmapped_loop r (m_end vma) len
  end.

Definition get_unmapped_area (l : list vm_area) (len : Z) : Z :=
  unmapped_loop (find_vma_rest l VM_UNMAPPED_BASE) VM_UNMAPPED_BASE len.

(** The search loop of [insert_vma]: the areas before [p], and [p] on. *)
Fixpoint insert_point (before l : list vm_area) (end_ : Z) : list vm_area * list vm_area :=
  match l with
  | [] => (before, [])
  | p :: r => if m_start p >=? end_ then (before, l) else insert_point (before ++ [p]) r end_
  end.

Definition same_attr (a b : vm_area) : bool :=
  (m_page_prot a =? m_page_prot b) && (m_flags a =? m_flags b).

Section Areas.
Context {V : Type} `{VmaPool V}.

Definition merge_next (before : list vm_area) (vma : vm_area) (after : list vm_area) (g : V)
  : list vm_area * V :=
  match after with
  | p :: r => if (m_end vma =? m_start p) && same_attr vma p
              then (before ++ set_end vma (m_end p) :: r, vma_free g p)
              else (before ++ vma :: after, g)
  | [] => (before ++ [vma], g)
  end.

(** [false] is the [-1]: the area overlaps one of the list. *)
Definition insert_vma (l : list vm_area) (vma : vm_area) (g : V) : bool * list vm_area * V :=
  let '(before, after) := insert_point [] l (m_end vma) in
  match last before with
  | None => let '(l, g) := merge_next before vma after g in (true, l, g)
  | Some prev =>
      if m_end prev >? m_start vma then (false, l, g)
      else
        let '(l, g) :=
          if (m_end prev =? m_start vma) && same_attr prev vma
          then merge_next (removelast before) (set_end prev (m_end vma)) after (vma_free g vma)
          else merge_next before vma after g in
        (true, l, g)
  end.

(** The middle part of [do_mmap]: the address to use, or none. *)
Definition mmap_choose (l : list vm_area) (addr len flags : Z) : option Z :=
  if negb (Z.land flags MAP_FIXED =? 0) then
    if negb (Z.land addr (not32 PAGE_MASK) =? 0) then None
    else match find_vma l addr with
         | Some p => if m_start p <? u32 (addr + len) then None else Some addr
         | None => Some addr
         end
  else
    let addr := get_unmapped_area l len in
    if addr =? 0 then None else Some addr.

Definition do_mmap (l : list vm_area) (g : V) (addr len prot flags : Z) : outcome (Z * list vm_area * V) :=
  let len := PAGE_ALIGN len in
  if len =? 0 then Done (addr, l, g)
  else if (USER_VM_SIZE <? len) || (USER_VM_SIZE <? addr) || (u32 (USER_VM_SIZE - len) <? addr)
  then Done (MINUS1, l, g)
  else
    match mmap_choose l addr len flags with
    | None => Done (MINUS1, l, g)
    | Some addr =>
        let! a := vma_alloc g in
        match a with
        | (None, g) => Done (MINUS1, l, g)
        | (Some _, g) =>
            let vma := mk_vma addr (u32 (addr + len)) prot
                         (Z.land prot (Z.lor (Z.lor VM_READ VM_WRITE) VM_EXEC)) in
            match insert_vma l vma g with
            | (true, l, g) => Done (addr, l, g)
            | (false, l, g) => Done (MINUS1, l, g)
            end
        end
    end.

(** [remove_vma(vma, prev)]: [before] ends with [prev]. *)
Definition remove_vma (before : list vm_area) (vma : vm_area) (after : list vm_area) (g : V) : list vm_area * V :=
  (before ++ after, vma_free g vma).

(** The list part of [do_munmap], once the area is found: split it in two and drop
    the empty parts.  [junk] is what the new object holds. *)
Definition split_vma (before : list vm_area) (vma : vm_area) (after : list vm_area) (junk : vm_area)
  (addr len : Z) (g : V) : list vm_area * V :=
  let vma_new := mk_vma (u32 (addr + len)) (m_end vma) (m_page_prot junk) (m_flags junk) in
  let vma := set_end vma addr in
  let '(before1, g) :=
    if m_start vma =? m_end vma
    then (before, snd (remove_vma before vma (vma_new :: after) g))
    else (before ++ [vma], g) in
  if m_start vma_new =? m_end vma_new
  then remove_vma before1 vma_new after g
  else (before1 ++ vma_new :: after, g).

Definition do_munmap (l : list vm_area) (g : V) (s : machine) (dir addr len : Z)
  : outcome (Z * list vm_area * V * machine) :=
  if negb (Z.land addr (not32 PAGE_MASK) =? 0) || (USER_VM_SIZE <? addr) || (u32 (USER_VM_SIZE - addr) <? len)
  then Done (MINUS1, l, g, s)
  else
    let len := PAGE_ALIGN len in
    if len =? 0 then Done (0, l, g, s)
    else match find_vma_prev [] l addr with
         | None => Done (MINUS1, l, g, s)
         | Some (before, vma, after) =>
             if (addr <? m_start vma) || (m_end vma <? u32 (addr + len)) then Done (MINUS1, l, g, s)
             else
               let! a := vma_alloc g in
               match a with
               | (None, g) => Done (MINUS1, l, g, s)
               | (Some junk, g) =>
                   let '(l, g) := split_vma before vma after junk addr len g in
                   let! s := free_page_range s dir addr (u32 (addr + len)) in
                   Done (0, l, g, s)
               end
         end.

(** [copy_vma]: a fresh list with the same contents; [false] is the [-1]. *)
Fixpoint copy_vma (mmap : list vm_area) (g : V) : outcome (bool * list vm_area * V) :=
  match mmap with
  | [] => Done (true, [], g)
  | p :: r =>
      let! a := vma_alloc g in
      match a with
      | (None, g) => Done (false, [], g)
      | (Some _, g) =>
          let! c := copy_vma r g in
          let '(ok, l, g) := c in Done (ok, p :: l, g)
      end
  end.

(** [vmm_t::copy]: the tables first, then the areas. *)
Definition vmm_copy (s : machine) (dir : Z) (mmap : list vm_area) (g : V)
  : outcome (Z * Z * list vm_area * V * machine) :=
  let! t := copy_page_table s dir in
  let '(new_dir, ok, s) := t in
  if negb ok then Done (MINUS1, new_dir, [], g, s)
  else
    let! c := copy_vma mmap g in
    let '(ok, l, g) := c in
    Done (if ok then 0 else MINUS1, new_dir, l, g, s).

(** ** Faults *)

Definition do_protection_fault (s : machine) (dir : Z) (vma : vm_area) (addr write : Z) : outcome (Z * machine) :=
  let pa := va_2_pa s dir addr in
  if pa =? MINUS1 then Done (MINUS1, s)
  else if negb (write =? 0) && (Z.land (m_flags vma) VM_WRITE =? 0) then Done (MINUS1, s)
  else
    let! ref := get_page_ref (mm s) pa in
    if ref =? 1 then Done (0, make_pte_write s dir addr)
    else
      let! a := alloc_pages (mm s) 0 in
      let '(mem, m) := a in
      let s := copy_page (set_mm s m) dir mem addr in
      let! m := free_pages (mm s) (PA2VA pa) 0 in
      let! s := map_pages (set_mm s m) dir addr (VA2PA mem) PAGE_SIZE (Z.lor PTE_W PTE_U) in
      Done (0, s).

(** [expand_stack] moves the start of the area found down to the page of [addr]. *)
Definition expand_stack (before : list vm_area) (vma : vm_area) (after : list vm_area) (addr : Z)
  : list vm_area * vm_area :=
  let vma := set_start vma (Z.land addr PAGE_MASK) in (before ++ vma :: after, vma).

Inductive fault_result :=
| Handled (ret : Z)
| Killed.

(** [good_area:] *)
Definition good_area (l : list vm_area) (s : machine) (dir : Z) (vma : vm_area) (addr err : Z)
  : outcome (fault_result * list vm_area * machine) :=
  if m_start vma <=? addr then
    if negb (Z.land err 1 =? 0) then
      let! r := do_protection_fault s dir vma addr (Z.land err 2) in
      Done (Handled (fst r), l, snd r)
    else
      let! a := alloc_pages (mm s) 0 in
      let '(mem, m) := a in
      let! s := map_pages (set_mm s m) dir (Z.land addr PAGE_MASK) (VA2PA mem) PAGE_SIZE (Z.lor PTE_W PTE_U) in
      Done (Handled 0, l, s)
  else Done (Handled 0, l, s).

(** [addr] is [cr2], [err] and [esp] come from the trap frame; [Killed] is
    [current->exit()]. *)
Definition do_page_fault (l : list vm_area) (s : machine) (dir addr err esp : Z)
  : outcome (fault_result * list vm_area * machine) :=
  match find_vma_prev [] l addr with
  | None => Done (Killed, l, s)
  | Some (before, vma, after) =>
      if addr <? m_start vma then
        if negb (Z.land err 4 =? 0) && negb (Z.land (m_flags vma) VM_STACK =? 0) && (esp <=? u32 (addr + 32))
        then let '(l, vma) := expand_stack before vma after addr in good_area l s dir vma addr err
        else Done (Killed, l, s)
      else good_area l s dir vma addr err
  end.

Fixpoint free_areas (l : list vm_area) (s : machine) (dir : Z) : outcome machine :=
  match l with
  | [] => Done s
  | vma :: r => let! s := free_page_range s dir (m_start vma) (m_end vma) in free_areas r s dir
  end.

Definition release (l : list vm_area) (g : V) (s : machine) (dir : Z) : outcome (list vm_area * V * machine) :=
  let! s := free_areas l s dir in
  let! s := free_page_table s dir in
  Done ([], fold_left vma_free l g, s).

End Areas.

(** ** What a list of areas means *)

(** The areas are non-empty, in order, apart, above [lo] and in user space. *)
Fixpoint areas_ok (lo : Z) (l : list vm_area) : Prop :=
  match l with
  | [] => True
  | v :: r => lo <= m_start v /\ m_start v < m_end v /\ m_end v <= USER_VM_SIZE /\ areas_ok (m_end v) r
  end.

(** The protection and flags of the address [x], if it is in an area. *)
Definition attr (l : list vm_area) (x : Z) : option (Z * Z) :=
  match find_vma l x with
  | Some v => if m_start v <=? x then Some (m_page_prot v, m_flags v) else None
  | None => None
  end.

Fixpoint end_of (lo : Z) (l : list vm_area) : Z :=
  match l with [] => lo | v :: r => end_of (m_end v) r end.

Lemma attr_cons v r x :
  attr (v :: r) x = if x <? m_end v then (if m_start v <=? x then Some (m_page_prot v, m_flags v) else None)
                    else attr r x.
Proof. unfold attr. simpl. destruct (x <? m_end v); reflexivity. Qed.

Lemma areas_app lo l1 l2 : areas_ok lo (l1 ++ l2) <-> areas_ok lo l1 /\ areas_ok (end_of lo l1) l2.
Proof. revert lo. induction l1 as [|v l1 IH]; intros lo; simpl; [tauto|]. rewrite IH. tauto. Qed.

Lemma end_of_app lo l1 l2 : end_of lo (l1 ++ l2) = end_of (end_of lo l1) l2.
Proof. revert lo. induction l1 as [|v l1 IH]; intros lo; simpl; auto. Qed.

Lemma end_of_ge lo l : areas_ok lo l -> lo <= end_of lo l.
Proof. revert lo. induction l as [|v l IH]; intros lo; simpl; [lia|]. intros (? & ? & ? & H). apply IH in H. lia. Qed.

Lemma end_of_le lo l : areas_ok lo l -> lo <= USER_VM_SIZE -> end_of lo l <= USER_VM_SIZE.
Proof. revert lo. induction l as [|v l IH]; intros lo; simpl; [lia|]. intros (? & ? & ? & H) _. apply IH in H; lia. Qed.

Lemma attr_low lo l x : areas_ok lo l -> x < lo -> attr l x = None.
Proof.
  destruct l as [|v l]; simpl; [reflexivity|]. intros (? & ? & ? & _) Hx. rewrite attr_cons.
  replace (x <? m_end v) with true by lia. replace (m_start v <=? x) with false by lia. reflexivity.
Qed.

Lemma attr_high lo l x : areas_ok lo l -> end_of lo l <= x -> attr l x = None.
Proof.
  revert lo. induction l as [|v l IH]; intros lo H Hx; [reflexivity|]. simpl in *. destruct H as (? & ? & ? & H).
  rewrite attr_cons. pose proof (end_of_ge _ _ H). replace (x <? m_end v) with false by lia. eapply IH; eauto.
Qed.

Lemma attr_app lo l1 l2 x : areas_ok lo (l1 ++ l2) ->
  attr (l1 ++ l2) x = if x <? end_of lo l1 then attr l1 x else attr l2 x.
Proof.
  revert lo. induction l1 as [|v l1 IH]; intros lo H; simpl in *.
  - destruct (x <? lo) eqn:E; tests; [|reflexivity]. eapply attr_low; eauto.
  - destruct H as (? & ? & ? & H). rewrite !attr_cons, (IH _ H).
    pose proof (end_of_ge _ _ (proj1 (proj1 (areas_app _ _ _) H))).
    destruct (x <? m_end v) eqn:E1; tests; [|reflexivity].
    replace (x <? end_of (m_end v) l1) with true by lia. reflexivity.
Qed.

Lemma end_of_snoc lo l v : end_of lo (l ++ [v]) = m_end v.
Proof. rewrite end_of_app. reflexivity. Qed.

(** Joining two adjacent areas with the same attributes changes nothing. *)
Lemma merge_attr lo b u v a : areas_ok lo (b ++ u :: v :: a) -> m_end u = m_start v -> same_attr u v = true ->
  areas_ok lo (b ++ set_end u (m_end v) :: a) /\
  forall x, attr (b ++ set_end u (m_end v) :: a) x = attr (b ++ u :: v :: a) x.
Proof.
  unfold same_attr. intros H E S. apply andb_prop in S as [S1 S2]. apply Z.eqb_eq in S1, S2.
  pose proof H as H0. apply areas_app in H as [Hb Ha]. simpl in Ha.
  assert (Hok : areas_ok lo (b ++ set_end u (m_end v) :: a)).
  { apply areas_app. split; [exact Hb|]. simpl. intuition lia. }
  split; [exact Hok|]. intros x. rewrite (attr_app lo b _ x Hok), (attr_app lo b _ x H0), !attr_cons. simpl.
  destruct (x <? end_of lo b) eqn:E0; [reflexivity|].
  destruct (x <? m_end v) eqn:E1, (x <? m_end u) eqn:E2; tests; try lia; try reflexivity.
  rewrite S1, S2. replace (m_start u <=? x) with true by lia. replace (m_start v <=? x) with true by lia. reflexivity.
Qed.

(** Putting an area into a gap. *)
Lemma gap_attr lo b v a : areas_ok lo (b ++ a) -> end_of lo b <= m_start v -> m_start v < m_end v ->
  m_end v <= USER_VM_SIZE -> (forall p r, a = p :: r -> m_end v <= m_start p) ->
  areas_ok lo (b ++ v :: a) /\
  (forall x, m_start v <= x < m_end v -> attr (b ++ a) x = None) /\
  forall x, attr (b ++ v :: a) x =
    if decide (m_start v <= x < m_end v) then Some (m_page_prot v, m_flags v) else attr (b ++ a) x.
Proof.
  intros H Hs Hse He Hp. pose proof H as H0. apply areas_app in H as [Hb Ha].
  assert (Ha' : areas_ok (m_end v) a).
  { destruct a as [|p r]; simpl in *; [exact I|]. specialize (Hp p r eq_refl). intuition. }
  assert (Hok : areas_ok lo (b ++ v :: a)) by (apply areas_app; split; [exact Hb|]; simpl; auto).
  split; [exact Hok|]. split.
  - intros x Hx. rewrite (attr_app lo b a x H0). replace (x <? end_of lo b) with false by lia.
    apply (attr_low (m_end v)); auto; lia.
  - intros x. rewrite (attr_app lo b _ x Hok), (attr_app lo b _ x H0), attr_cons.
    destruct (x <? end_of lo b) eqn:E0; tests; [rewrite decide_False by lia; reflexivity|].
    destruct (x <? m_end v) eqn:E1; tests; [|rewrite decide_False by lia; reflexivity].
    destruct (m_start v <=? x) eqn:E2; tests; [rewrite decide_True by lia; reflexivity|].
    rewrite decide_False by lia. symmetry. apply (attr_low (m_end v)); auto.
Qed.

Lemma insert_point_ok : forall l before e,
  exists b a, insert_point before l e = (before ++ b, a) /\ l = b ++ a /\
    (forall v, v ∈ b -> m_start v < e) /\ (forall p r, a = p :: r -> e <= m_start p).
Proof.
  induction l as [|p l IH]; intros before e; simpl.
  - exists [], []. rewrite app_nil_r. split_and!; auto; [set_solver | discriminate].
  - destruct (m_start p >=? e) eqn:E.
    + exists [], (p :: l). rewrite app_nil_r. split_and!; auto; [set_solver|]. intros ? ? [= <- <-]. lia.
    + destruct (IH (before ++ [p]) e) as (b & a & E1 & -> & H1 & H2). exists (p :: b), a.
      rewrite E1, <- app_assoc. split_and!; auto. intros v Hv. apply elem_of_cons in Hv as [->|Hv]; [lia | auto].
Qed.

Section AreaLemmas.
Context {V : Type} `{VmaPool V}.

Lemma merge_next_ok lo b v a (g : V) : areas_ok lo (b ++ v :: a) ->
  exists l' g', merge_next b v a g = (l', g') /\ areas_ok lo l' /\ forall x, attr l' x = attr (b ++ v :: a) x.
Proof.
  intros Hok. unfold merge_next. destruct a as [|p r]; [eauto|].
  destruct ((m_end v =? m_start p) && same_attr v p) eqn:E; [|eauto 6].
  apply andb_prop in E as [E1 E2]. tests. destruct (merge_attr lo b v p r Hok E1 E2) as [H1 H2]. eauto 6.
Qed.

Lemma last_snoc_case (l : list vm_area) :
  (l = [] /\ last l = None) \/ exists l' v, l = l' ++ [v] /\ last l = Some v /\ removelast l = l'.
Proof.
  induction l as [|v l _] using rev_ind; [left; auto|]. right. exists l, v.
  rewrite last_snoc, removelast_last. auto.
Qed.

Lemma insert_vma_ok lo l v (g : V) : areas_ok lo l -> lo <= m_start v -> m_start v < m_end v -> m_end v <= USER_VM_SIZE ->
  (exists l' g', insert_vma l v g = (true, l', g') /\ areas_ok lo l' /\
     (forall x, m_start v <= x < m_end v -> attr l x = None) /\
     forall x, attr l' x = if decide (m_start v <= x < m_end v) then Some (m_page_prot v, m_flags v) else attr l x) \/
  (insert_vma l v g = (false, l, g) /\ exists x, m_start v <= x < m_end v /\ attr l x <> None).
Proof.
  intros Hok Hlo Hse He. unfold insert_vma.
  destruct (insert_point_ok l [] (m_end v)) as (b & a & -> & -> & Hb & Ha). simpl.
  destruct (last_snoc_case b) as [[-> ->]|(b' & prev & -> & -> & Hrl)].
  - left. destruct (gap_attr lo [] v a Hok Hlo Hse He Ha) as (H1 & H2 & H3).
    destruct (merge_next_ok lo [] v a g H1) as (l' & g' & -> & H4 & H5).
    exists l', g'. split_and!; auto. intros x. rewrite H5. apply H3.
  - rewrite Hrl. destruct (m_end prev >? m_start v) eqn:E.
    + right. split; [reflexivity|]. apply areas_app in Hok as [Hb' Ha'].
      pose proof Hb' as Hb''. apply areas_app in Hb'' as [Hp1 Hp2]. simpl in Hp2.
      specialize (Hb prev ltac:(set_solver)). exists (Z.max (m_start v) (m_start prev)). split; [lia|].
      rewrite (attr_app lo (b' ++ [prev]) a) by (apply areas_app; auto). rewrite end_of_snoc.
      replace (_ <? m_end prev) with true by lia. rewrite (attr_app lo b' [prev]) by auto.
      replace (_ <? end_of lo b') with false by lia. rewrite attr_cons.
      replace (_ <? m_end prev) with true by lia. replace (m_start prev <=? _) with true by lia. discriminate.
    + left. assert (Hs : end_of lo (b' ++ [prev]) <= m_start v) by (rewrite end_of_snoc; lia).
      destruct (gap_attr lo (b' ++ [prev]) v a Hok Hs Hse He Ha) as (H1 & H2 & H3).
      destruct ((m_end prev =? m_start v) && same_attr prev v) eqn:E2.
      * apply andb_prop in E2 as [E3 E4]. tests. pose proof H1 as H1'. rewrite <- app_assoc in H1'. simpl in H1'.
        destruct (merge_attr lo b' prev v a H1' E3 E4) as [H5 H6].
        destruct (merge_next_ok lo b' (set_end prev (m_end v)) a (vma_free g v) H5) as (l' & g' & -> & H7 & H8).
        exists l', g'. split_and!; auto. intros x. rewrite H8, H6, <- H3, <- app_assoc. reflexivity.
      * destruct (merge_next_ok lo (b' ++ [prev]) v a g H1) as (l' & g' & -> & H4 & H5).
        exists l', g'. split_and!; auto. intros x. rewrite H5. apply H3.
Qed.

End AreaLemmas.

(** ** [do_mmap] *)

Lemma find_vma_rest_ok lo l x : areas_ok lo l -> 0 <= lo -> areas_ok 0 (find_vma_rest l x).
Proof.
  revert lo. induction l as [|v l IH]; intros lo Hok Hlo; [exact I|]. cbn [find_vma_rest].
  destruct (x <? m_end v); simpl in Hok |- *; [intuition lia|]. destruct Hok as (? & ? & _ & H). apply (IH (m_end v)); auto; lia.
Qed.

Lemma unmapped_loop_nonneg len : forall l addr, areas_ok 0 l -> 0 <= addr -> 0 <= unmapped_loop l addr len.
Proof.
  induction l as [|v l IH]; intros addr Hok Ha; cbn [unmapped_loop]; [exact Ha|].
  destruct (_ <? addr); [lia|]. destruct (_ <=? m_start v); [exact Ha|]. simpl in Hok.
  destruct Hok as (? & ? & _ & H). apply IH; [|lia]. destruct l as [|w l]; simpl in *; intuition lia.
Qed.

Lemma page_align_range len : 0 <= len -> 0 <= PAGE_ALIGN len < 2 ^ 32 /\ PAGE_ALIGN len mod PAGE_SIZE = 0.
Proof.
  intros. unfold PAGE_ALIGN. pose proof (u32_range (len + PAGE_SIZE - 1)) as R. rewrite page_round by exact R.
  generalize dependent (u32 (len + PAGE_SIZE - 1)). intros X R. unfold PAGE_SIZE. split; [divlia|]. rewrite Zminus_mod_idemp_r, Z.sub_diag. reflexivity.
Qed.

Lemma find_vma_start l x p : find_vma l x = Some p -> x < m_end p /\ p ∈ l.
Proof.
  induction l as [|v l IH]; simpl; [discriminate|]. destruct (x <? m_end v) eqn:E; tests.
  - intros [= <-]. split; [exact E | set_solver].
  - intros H. apply IH in H as [H1 H2]. split; [exact H1 | set_solver].
Qed.

(** Seen from the first area that ends after [addr]: it starts below [e] exactly
    when something is mapped in [addr, e). *)
Lemma find_vma_attr lo l addr e p : areas_ok lo l -> addr < e -> find_vma l addr = Some p -> m_start p < e ->
  exists x, addr <= x < e /\ attr l x <> None.
Proof.
  revert lo. induction l as [|v l IH]; intros lo Hok He Hf Hs; [discriminate|]. simpl in Hf, Hok.
  destruct Hok as (? & ? & _ & Hok). destruct (addr <? m_end v) eqn:E; tests.
  - injection Hf as <-. exists (Z.max addr (m_start v)). split; [lia|]. rewrite attr_cons.
    replace (_ <? m_end v) with true by lia. replace (m_start v <=? _) with true by lia. discriminate.
  - destruct (IH _ Hok He Hf Hs) as (x & Hx & Ha). exists x. split; [exact Hx|]. rewrite attr_cons.
    replace (x <? m_end v) with false by lia. exact Ha.
Qed.

(** Where [do_mmap] wants to put the area. *)
Definition mmap_place (l : list vm_area) (addr len flags : Z) : Z :=
  if negb (Z.land flags MAP_FIXED =? 0) then addr else get_unmapped_area l len.

(** Why it may not go there. *)
Definition mmap_refused (l : list vm_area) (addr len flags : Z) : Prop :=
  mmap_place l addr len flags = 0 \/ Z.land addr (not32 PAGE_MASK) <> 0 \/
  exists x, mmap_place l addr len flags <= x < mmap_place l addr len flags + len /\ attr l x <> None.

Lemma mmap_choose_spec l addr len flags : areas_ok 0 l -> 0 <= addr -> 0 < len -> addr + len < 2 ^ 32 ->
  mmap_choose l addr len flags = Some (mmap_place l addr len flags) \/
  (mmap_choose l addr len flags = None /\ mmap_refused l addr len flags).
Proof.
  intros Hok Ha Hl Hend. unfold mmap_choose, mmap_refused, mmap_place.
  destruct (negb (Z.land flags MAP_FIXED =? 0)) eqn:Ef.
  - destruct (negb (Z.land addr _ =? 0)) eqn:Em; tests; [right; auto|].
    destruct (find_vma l addr) as [p|] eqn:Efv; [|left; auto].
    rewrite u32_small by lia. destruct (m_start p <? addr + len) eqn:Ep; tests; [|left; auto].
    right. split; [reflexivity|]. right; right. apply (find_vma_attr 0 l addr (addr + len) p); auto; lia.
  - destruct (get_unmapped_area l len =? 0) eqn:Eg; tests; [right; auto | left; auto].
Qed.

Lemma mmap_place_nonneg l addr len flags : areas_ok 0 l -> 0 <= addr -> 0 <= mmap_place l addr len flags.
Proof.
  intros Hok Ha. unfold mmap_place, get_unmapped_area. destruct (negb _); [lia|].
  apply unmapped_loop_nonneg; [|vm_compute; discriminate]. apply (find_vma_rest_ok 0); auto; lia.
Qed.

(** What a successful [do_mmap] does to the areas. *)
Definition mmap_done (l : list vm_area) (r len prot : Z) (l' : list vm_area) : Prop :=
  areas_ok 0 l' /\ r + len <= USER_VM_SIZE /\ (forall x, r <= x < r + len -> attr l x = None) /\
  forall x, attr l' x = if decide (r <= x < r + len) then Some (prot, Z.land prot 7) else attr l x.

Section Mmap.
Context {V : Type} `{VmaPool V}.

Lemma do_mmap_spec l (g : V) addr len prot flags a g1 :
  areas_ok 0 l -> 0 <= addr < 2 ^ 32 -> 0 <= len -> vma_alloc g = Done (a, g1) ->
  (Z.land flags MAP_FIXED = 0 -> get_unmapped_area l (PAGE_ALIGN len) + PAGE_ALIGN len <= USER_VM_SIZE) ->
  exists r l' g', do_mmap l g addr len prot flags = Done (r, l', g') /\
    ((PAGE_ALIGN len = 0 /\ r = addr /\ l' = l) \/
     (r = MINUS1 /\ l' = l /\
      (a = None \/ USER_VM_SIZE - PAGE_ALIGN len < addr \/ mmap_refused l addr (PAGE_ALIGN len) flags)) \/
     (r = mmap_place l addr (PAGE_ALIGN len) flags /\ mmap_done l r (PAGE_ALIGN len) prot l')).
Proof.
  intros Hok Ha Hl Halloc Hroom. unfold do_mmap. destruct (page_align_range len Hl) as [Hr _].
  set (n := PAGE_ALIGN len) in *. destruct (n =? 0) eqn:En; tests; [do 3 eexists; split; [reflexivity|]; left; auto|].
  destruct ((USER_VM_SIZE <? n) || (USER_VM_SIZE <? addr) || (u32 (USER_VM_SIZE - n) <? addr)) eqn:Er.
  { do 3 eexists. split; [reflexivity|]. right; left. split_and!; auto. right; left.
    unfold USER_VM_SIZE in *. destruct (Z_lt_le_dec 0xc0000000 n); [lia|]. rewrite u32_small in Er by lia. lia. }
  unfold USER_VM_SIZE in *. destruct (Z_lt_le_dec 0xc0000000 n); [lia|]. rewrite u32_small in Er by lia.
  pose proof (mmap_place_nonneg l addr n flags Hok ltac:(lia)) as Hp0.
  assert (Hpe : mmap_place l addr n flags + n <= 0xc0000000).
  { unfold mmap_place. destruct (Z.land flags MAP_FIXED =? 0) eqn:Ef; tests; simpl; [apply Hroom; auto | lia]. }
  destruct (mmap_choose_spec l addr n flags Hok) as [->|[-> Hwhy]]; try lia;
    [|do 3 eexists; split; [reflexivity|]; right; left; auto 7].
  rewrite Halloc. cbn [obind]. destruct a as [junk|]; [|do 3 eexists; split; [reflexivity|]; right; left; auto 7].
  set (place := mmap_place l addr n flags) in *.
  rewrite (u32_small (place + n)) by lia. change (Z.lor (Z.lor VM_READ VM_WRITE) VM_EXEC) with 7.
  destruct (insert_vma_ok 0 l (mk_vma place (place + n) prot (Z.land prot 7)) g1 Hok)
    as [(l' & g' & -> & I1 & I2 & I3)|[-> Hx]]; unfold USER_VM_SIZE; simpl in *; try lia.
  - do 3 eexists. split; [reflexivity|]. right; right. split; [reflexivity|]. unfold mmap_done, USER_VM_SIZE. auto.
  - do 3 eexists. split; [reflexivity|]. right; left. unfold mmap_refused. auto 7.
Qed.

End Mmap.

(** ** [do_munmap] *)

Lemma find_vma_prev_ok : forall l before addr,
  match find_vma_prev before l addr with
  | Some (b, v, a) => exists b', b = before ++ b' /\ l = b' ++ v :: a /\ addr < m_end v /\ find_vma l addr = Some v
  | None => find_vma l addr = None
  end.
Proof.
  induction l as [|v l IH]; intros before addr; simpl; [reflexivity|].
  destruct (addr <? m_end v) eqn:E; tests.
  - exists []. rewrite app_nil_r. auto.
  - specialize (IH (before ++ [v]) addr). destruct (find_vma_prev _ l addr) as [[[b w] a]|]; [|exact IH].
    destruct IH as (b' & -> & -> & H1 & H2). exists (v :: b'). rewrite <- app_assoc. auto.
Qed.

(** Replacing an area by others that lie within it. *)
Lemma replace_area b v a mid : areas_ok 0 (b ++ v :: a) -> areas_ok (end_of 0 b) mid ->
  end_of (end_of 0 b) mid <= m_end v ->
  areas_ok 0 (b ++ mid ++ a) /\
  forall x, attr (b ++ mid ++ a) x =
    if x <? end_of 0 b then attr b x else if x <? m_end v then attr mid x else attr a x.
Proof.
  intros Hok Hm Hme. apply areas_app in Hok as [Hb Hva]. simpl in Hva. destruct Hva as (Hv1 & Hv2 & Hv3 & Ha).
  assert (Ha' : areas_ok (end_of (end_of 0 b) mid) a).
  { destruct a as [|p r]; simpl in *; [exact I|]. intuition lia. }
  assert (Hoks : areas_ok 0 (b ++ mid ++ a)) by (rewrite !areas_app; auto). split; [exact Hoks|].
  intros x. rewrite (attr_app 0 b _ x Hoks). destruct (x <? end_of 0 b) eqn:E0; [reflexivity|].
  rewrite (attr_app (end_of 0 b) mid a x) by (apply areas_app; auto).
  destruct (x <? end_of (end_of 0 b) mid) eqn:E1, (x <? m_end v) eqn:E2; tests; try lia; try reflexivity.
  rewrite (attr_high _ _ _ Hm E1). apply (attr_low (m_end v)); auto.
Qed.

(** What is left of an area when [addr, addr + n) is cut out of it. *)
Definition remains (v junk : vm_area) (addr n : Z) : list vm_area :=
  (if m_start v =? addr then [] else [set_end v addr]) ++
  (if addr + n =? m_end v then [] else [mk_vma (addr + n) (m_end v) (m_page_prot junk) (m_flags junk)]).

Lemma remains_ok lo v junk addr n : lo <= m_start v -> m_end v <= USER_VM_SIZE ->
  m_start v <= addr -> addr + n <= m_end v -> 0 < n ->
  areas_ok lo (remains v junk addr n) /\ end_of lo (remains v junk addr n) <= m_end v /\
  forall x, x < m_end v -> attr (remains v junk addr n) x =
    if decide (m_start v <= x < addr) then Some (m_page_prot v, m_flags v)
    else if decide (addr + n <= x) then Some (m_page_prot junk, m_flags junk) else None.
Proof.
  intros. unfold remains. destruct (m_start v =? addr) eqn:E1, (addr + n =? m_end v) eqn:E2; tests; simpl;
    (split; [repeat split; lia | split; [lia|]]); intros x Hx; rewrite ?attr_cons; unfold attr; simpl;
    repeat case_decide; try lia;
    repeat match goal with |- context [if ?c then _ else _] => destruct c eqn:? end; tests; try lia; reflexivity.
Qed.

(** What the code leaves: nothing in the range, in what is left of the area above it the
    attributes of the recycled object (vm.cc copies none into it), the old ones elsewhere. *)
Definition left_attr (l : list vm_area) (v junk : vm_area) (addr n x : Z) : option (Z * Z) :=
  if decide (addr <= x < addr + n) then None
  else if decide (addr + n <= x < m_end v) then Some (m_page_prot junk, m_flags junk)
  else attr l x.

Section Munmap.
Context {V : Type} `{VmaPool V}.

Lemma split_vma_ok b v a junk addr n (g : V) :
  areas_ok 0 (b ++ v :: a) -> m_start v <= addr -> addr + n <= m_end v -> 0 < n ->
  exists l' g', split_vma b v a junk addr n g = (l', g') /\ areas_ok 0 l' /\
    forall x, attr l' x = left_attr (b ++ v :: a) v junk addr n x.
Proof.
  intros Hok Hs He Hn. pose proof Hok as Hok0. apply areas_app in Hok0 as [Hb Hva]. simpl in Hva.
  destruct Hva as (Hv1 & Hv2 & Hv3 & Ha). pose proof (end_of_ge _ _ Hb) as Hb0.
  destruct (remains_ok (end_of 0 b) v junk addr n Hv1 Hv3 Hs He Hn) as (R1 & R2 & R3).
  destruct (replace_area b v a _ Hok R1 R2) as [S1 S2].
  assert (E : exists g', split_vma b v a junk addr n g = (b ++ remains v junk addr n ++ a, g')).
  { unfold split_vma, remove_vma, remains, USER_VM_SIZE in *. rewrite u32_small by lia. simpl.
    destruct (m_start v =? addr), (addr + n =? m_end v); simpl; rewrite <- ?app_assoc; eauto. }
  destruct E as [g' E]. exists (b ++ remains v junk addr n ++ a), g'. split; [exact E|]. split; [exact S1|].
  intros x. rewrite S2. unfold left_attr. rewrite (attr_app 0 b _ x Hok), attr_cons.
  destruct (x <? end_of 0 b) eqn:E0; tests; [repeat case_decide; try lia; reflexivity|].
  destruct (x <? m_end v) eqn:E1; tests; [|repeat case_decide; try lia; reflexivity].
  rewrite R3 by exact E1. repeat case_decide; destruct (m_start v <=? x) eqn:E2; tests; try lia; reflexivity.
Qed.

(** The range and only the range is unmapped, and no address outside it changes its
    attributes, those of [v] above the range excepted. *)
Definition cut_out (l l' : list vm_area) (v : vm_area) (addr n : Z) : Prop :=
  (forall x, attr l' x = None <-> attr l x = None \/ addr <= x < addr + n) /\
  (forall x, ~ addr <= x < m_end v -> attr l' x = attr l x).

Lemma left_attr_cut l l' v junk addr n : (forall x, attr l' x = left_attr l v junk addr n x) ->
  (forall x, m_start v <= x < m_end v -> attr l x <> None) -> m_start v <= addr -> addr + n <= m_end v -> 0 < n ->
  cut_out l l' v addr n.
Proof.
  intros Hl Hv Hs He Hn. split; intros x; rewrite Hl; unfold left_attr; repeat case_decide; try tauto; try lia.
  split; [discriminate|]. intros [Hx|Hx]; [|lia]. destruct (Hv x ltac:(lia) Hx).
Qed.

(** The attributes of an area of the list are those of its addresses. *)
Lemma attr_in_area b v a x : areas_ok 0 (b ++ v :: a) -> m_start v <= x < m_end v -> attr (b ++ v :: a) x <> None.
Proof.
  intros Hok Hx. rewrite (attr_app 0 b _ x Hok), attr_cons. apply areas_app in Hok as [Hb Hva]. simpl in Hva.
  replace (x <? end_of 0 b) with false by lia. replace (x <? m_end v) with true by lia.
  replace (m_start v <=? x) with true by lia. discriminate.
Qed.

(** When [do_munmap] declines: the arguments are not page-aligned or in user
    space, the range is not inside one area, or the pool has no object. *)
Definition munmap_declined (l : list vm_area) (addr len : Z) (a : option vm_area) : Prop :=
  a = None \/ Z.land addr (not32 PAGE_MASK) <> 0 \/ USER_VM_SIZE < addr + len \/
  (exists x, addr <= x < addr + PAGE_ALIGN len /\ attr l x = None) \/
  (exists v, find_vma l addr = Some v /\ m_start v <= addr /\ m_end v < addr + PAGE_ALIGN len).

Lemma mask_aligned addr : 0 <= addr < 2 ^ 32 -> Z.land addr (not32 PAGE_MASK) = 0 -> addr mod PAGE_SIZE = 0.
Proof. intros _ E. change (not32 PAGE_MASK) with (Z.ones 12) in E. rewrite Z.land_ones in E by lia. exact E. Qed.

Lemma do_munmap_spec l (g : V) s dir F addr len a g1 :
  areas_ok 0 l -> 0 <= addr < 2 ^ 32 -> 0 <= len -> vma_alloc g = Done (a, g1) ->
  buddy_ok (mm s) F -> frames_ok s dir F addr (addr + PAGE_ALIGN len) -> (forall x, 0 <= pte_at s dir x) ->
  exists r l' g' s', do_munmap l g s dir addr len = Done (r, l', g', s') /\
    ((r = MINUS1 /\ l' = l /\ s' = s /\ munmap_declined l addr len a) \/
     (r = 0 /\ PAGE_ALIGN len = 0 /\ l' = l /\ s' = s) \/
     (r = 0 /\ exists v F', find_vma l addr = Some v /\
      m_start v <= addr /\ addr + PAGE_ALIGN len <= m_end v /\ areas_ok 0 l' /\
      cut_out l l' v addr (PAGE_ALIGN len) /\
      buddy_ok (mm s') F' /\ dropped s s' dir addr (addr + PAGE_ALIGN len) /\ words s' = words s)).
Proof.
  intros Hok Haddr Hlen Halloc HB HF Hpos. unfold do_munmap, munmap_declined.
  destruct (_ || _) eqn:Er.
  { do 4 eexists. split; [reflexivity|]. left. split_and!; auto. unfold USER_VM_SIZE in *.
    destruct (Z_lt_le_dec 0xc0000000 addr); [lia|]. rewrite u32_small in Er by lia.
    destruct (Z.eq_dec (Z.land addr (not32 PAGE_MASK)) 0) as [E|E]; [|auto]. lia. }
  apply orb_false_elim in Er as [Er E3]. apply orb_false_elim in Er as [E1 E2]. tests.
  pose proof (mask_aligned addr Haddr E1) as Hal.
  unfold USER_VM_SIZE in *. rewrite u32_small in E3 by lia.
  destruct (page_align_range len Hlen) as [Hr Hrm]. set (n := PAGE_ALIGN len) in *.
  destruct (n =? 0) eqn:En; tests; [do 4 eexists; split; [reflexivity|]; right; left; auto|].
  pose proof (find_vma_prev_ok l [] addr) as Hf. destruct (find_vma_prev [] l addr) as [[[b v] a']|].
  2:{ do 4 eexists. split; [reflexivity|]. left. split_and!; auto. do 3 right. left. exists addr. split; [lia|].
      unfold attr. rewrite Hf. reflexivity. }
  destruct Hf as (b' & -> & -> & Hav & Hfv). simpl in *.
  assert (Hv : m_end v <= 0xc0000000) by (apply areas_app in Hok; simpl in Hok; unfold USER_VM_SIZE in Hok; intuition).
  assert (Hn32 : addr + n < 2 ^ 32).
  { unfold n, PAGE_ALIGN, PAGE_SIZE in *. pose proof (u32_range (len + 4096 - 1)). rewrite u32_small in * by lia.
    rewrite page_round by lia. unfold PAGE_SIZE. divlia. }
  rewrite (u32_small (addr + n)) by lia.
  destruct ((addr <? m_start v) || (m_end v <? addr + n)) eqn:E.
  { do 4 eexists. split; [reflexivity|]. left. split_and!; auto. do 3 right.
    destruct (Z_lt_le_dec addr (m_start v)).
    - left. exists addr. split; [lia|]. unfold attr. rewrite Hfv. replace (m_start v <=? addr) with false by lia. reflexivity.
    - right. exists v. split_and!; auto. lia. }
  apply orb_false_elim in E as [E4 E5]. tests. rewrite Halloc. cbn [obind].
  destruct a as [junk|]; [|do 4 eexists; split; [reflexivity|]; left; auto 7].
  destruct (split_vma_ok b' v a' junk addr n g1 Hok E4 ltac:(lia) ltac:(lia)) as (l' & g' & -> & S1 & S2).
  destruct (free_page_range_ok s dir F addr (addr + n) HB HF Hpos) as (s' & F' & -> & Ew & HB' & Hd);
    try (unfold KERNEL_BASE; lia); auto.
  cbn [obind]. do 4 eexists. split; [reflexivity|]. right; right. split; [reflexivity|].
  exists v, F'. split_and!; auto.
  apply (left_attr_cut _ _ v junk addr n S2); auto; try lia. intros x. apply attr_in_area, Hok.
Qed.

End Munmap.

(** ** Faults *)

Lemma table_present s dir va : pte_at s dir va <> 0 -> present (entry s dir (PD_INDEX va)) = true.
Proof. unfold pte_at. destruct (present _); [reflexivity | congruence]. Qed.

(** The physical address of a mapped user address: its frame plus the offset. *)
Lemma va_2_pa_mapped s dir va : 0 <= va < KERNEL_BASE -> 0 <= pte_at s dir va -> pte_at s dir va <> 0 ->
  va_2_pa s dir va = Z.land (pte_at s dir va) PAGE_MASK + va mod PAGE_SIZE.
Proof.
  intros Hva Hp Hne. rewrite va_2_pa_value by auto. replace (_ =? 0) with false by lia.
  destruct (land_mask_range _ Hp) as [Hr Hm]. apply u32_small. unfold PAGE_SIZE in *. divlia.
Qed.

Lemma land_frame_offset f x : 0 <= f < 2 ^ 32 -> f mod PAGE_SIZE = 0 -> Z.land (f + x mod PAGE_SIZE) PAGE_MASK = f.
Proof.
  intros Hf Hm. unfold PAGE_SIZE in *. rewrite page_round by divlia. unfold PAGE_SIZE. divlia.
Qed.

Lemma not_minus1 f x : 0 <= f -> f mod PAGE_SIZE = 0 -> f + x mod PAGE_SIZE = MINUS1 -> x mod PAGE_SIZE = 4095.
Proof. unfold MINUS1, PAGE_SIZE. intros. divlia. Qed.

(** A write to a page that nobody else references makes it writable in place. *)
Lemma write_unshared s dir A vma addr write c :
  dir_ok s dir A -> 0 <= addr < KERNEL_BASE -> 0 < pte_at s dir addr -> va_2_pa s dir addr <> MINUS1 ->
  (write = 0 \/ Z.land (m_flags vma) VM_WRITE <> 0) ->
  get_page_ref (mm s) (va_2_pa s dir addr) = Done c -> c = 1 ->
  exists s', do_protection_fault s dir vma addr write = Done (0, s') /\ mm s' = mm s /\ dir_ok s' dir A /\
    (forall x, 0 <= x < 2 ^ 32 -> pte_at s' dir x =
      if decide (x / 4096 = addr / 4096) then Z.lor (pte_at s dir addr) PTE_W else pte_at s dir x) /\
    (forall a j, page_in A a -> not_table s dir a -> 0 <= j < 1024 -> entry s' a j = entry s a j).
Proof.
  intros D Ha Hp Hm Hw Hc ->. unfold do_protection_fault. replace (_ =? MINUS1) with false by lia.
  replace (negb (write =? 0) && (Z.land (m_flags vma) VM_WRITE =? 0)) with false by lia.
  rewrite Hc. cbn [obind]. rewrite Z.eqb_refl. pose proof (table_present s dir addr ltac:(lia)) as Ht.
  unfold make_pte_write, not_entry_and_p. replace (KERNEL_BASE <=? addr) with false by lia. rewrite Ht. cbn [negb].
  assert (Ep : pte_at s dir addr = entry s (table_of (entry s dir (PD_INDEX addr))) (PT_INDEX addr))
    by (unfold pte_at; rewrite Ht; reflexivity).
  rewrite <- Ep. replace (pte_at s dir addr =? 0) with false by lia.
  unfold KERNEL_BASE in Ha. destruct (set_pte s dir A addr (Z.lor (pte_at s dir addr) PTE_W) D ltac:(lia) Ht) as [D' Hx].
  eexists. split; [reflexivity|]. split; [reflexivity|]. split; [exact D' | split; [exact Hx|]].
  intros a j Pa Hnt Hj. pose proof (pd_range addr ltac:(lia)) as Hpd. apply entry_set_ne.
  apply (pages_apart A); auto; [apply (dk_table _ _ _ D _ Hpd Ht) | apply not_eq_sym, Hnt; auto | apply pt_range].
Qed.

Lemma free_shared m f c : KERNEL_BASE <= f < 2 ^ 32 -> m_pages m !! page_of f = Some c -> 2 <= c < 2 ^ 31 ->
  free_pages m f 0 = Done (set_pages m (<[page_of f := c - 1]> (m_pages m))).
Proof.
  intros Hf Hc Hc2. unfold free_pages, dec_page_ref. rewrite page_index, Hc by auto. cbn [obind deref].
  replace (c <=? 0) with false by lia. rewrite s32_id by lia. cbn [obind].
  replace (c - 1 =? 0) with false by lia. reflexivity.
Qed.

Lemma page_of_offset f x : f mod PAGE_SIZE = 0 -> page_of (f + x mod PAGE_SIZE) = page_of f.
Proof. unfold page_of, PAGE_SIZE, KERNEL_BASE. intros. divlia. Qed.

(** Writing a fresh page leaves what a directory means alone. *)
Lemma fresh_page_frame s s' dir A p m' : dir_ok s dir A -> (p ∉ A) -> page_in ({[p]} ∪ A) p ->
  pages_in_use m' ({[p]} ∪ A) -> mm s' = m' ->
  (forall a, (a < p \/ p + 4096 <= a) -> words s' a = words s a) ->
  dir_ok s' dir ({[p]} ∪ A) /\ (forall x, 0 <= x < 2 ^ 32 -> pte_at s' dir x = pte_at s dir x) /\
  (forall a j, page_in A a -> 0 <= j < 1024 -> entry s' a j = entry s a j).
Proof.
  intros D Hn Hp Hinv Em Hw.
  assert (Hlift : forall a, page_in A a -> page_in ({[p]} ∪ A) a /\ a <> p).
  { intros a (Ha & Hr). split; [split; [set_solver | exact Hr] | intros ->; contradiction]. }
  assert (Hold : forall a j, page_in A a -> 0 <= j < 1024 -> entry s' a j = entry s a j).
  { intros a j Ha Hj. destruct (Hlift a Ha) as [Ha' Hne]. apply Hw.
    destruct (page_disjoint _ a p Ha' Hp Hne); lia. }
  assert (Hdir : forall j, 0 <= j < 1024 -> entry s' dir j = entry s dir j) by (intros; apply Hold; auto; apply D).
  split; [|split; [|exact Hold]].
  - constructor; [rewrite Em; exact Hinv | apply Hlift, D | |].
    + intros i Hi. rewrite Hdir by auto. intros Hpi. destruct (dk_table _ _ _ D i Hi Hpi). split; [apply Hlift | ]; auto.
    + intros i j Hi Hj. rewrite !Hdir by auto. apply D; auto.
  - intros x Hx. unfold pte_at. rewrite Hdir by (apply pd_range; auto).
    destruct (present (entry s dir (PD_INDEX x))) eqn:E; [|reflexivity].
    apply Hold; [apply (dk_table _ _ _ D); auto; apply pd_range; auto | apply pt_range].
Qed.

Lemma new_pte p : p mod PAGE_SIZE = 0 -> 0 < p -> p + PAGE_SIZE <= 2 ^ 32 ->
  Z.lor (Z.lor (Z.land (VA2PA p) PAGE_MASK) PTE_P) (Z.lor PTE_W PTE_U) = VA2PA p + 7.
Proof.
  intros Hm Hp He. pose proof (va2pa_mod p Hm) as Hm'. pose proof (u32_range (p - KERNEL_BASE)) as R. fold (VA2PA p) in R.
  rewrite page_round, Hm', Z.sub_0_r by exact R. rewrite <- Z.lor_assoc. change (Z.lor PTE_P (Z.lor PTE_W PTE_U)) with 7.
  apply lor_flags; auto. unfold PAGE_SIZE. lia.
Qed.

(** One reference more on the allocated page, the other counters unchanged. *)
Lemma alloc_page_counts m F p m' : buddy_ok m F -> alloc_pages m 0 = Done (p, m') -> p <> NULL ->
  forall i, i <> page_of p -> m_pages m' !! i = m_pages m !! i.
Proof.
  intros HB E Hp i Hi. destruct (alloc_pages_spec m F 0 HB ltac:(unfold MAX_ORDER; lia)) as (q & m1 & F1 & E1 & _ & _ & Hc).
  rewrite E in E1. injection E1 as <- <-. destruct Hc as [(? & _)|(_ & _ & _ & Hcnt)]; [contradiction|].
  rewrite Hcnt. change (Z.of_nat (Z.to_nat (2 ^ 0))) with 1. rewrite decide_False by lia. reflexivity.
Qed.

(** The frame of a mapped page, as a page in use of kernel memory. *)
Record user_frame (s : machine) (dir : Z) (A : gset Z) (f c : Z) : Prop := {
  sf_page : page_in A f;
  sf_kernel : KERNEL_BASE <= f;
  sf_dir : f <> dir;
  sf_table : not_table s dir f;
  sf_count : m_pages (mm s) !! page_of f = Some c;
  sf_counted : 1 <= c < 2 ^ 31
}.

Lemma frame_pa pte f : 0 <= pte -> frame_of pte = f -> KERNEL_BASE <= f < 2 ^ 32 -> Z.land pte PAGE_MASK = f - KERNEL_BASE.
Proof.
  intros Hp <- Hf. destruct (land_mask_range _ Hp) as [Hr _]. unfold frame_of in *.
  rewrite <- (va_pa (Z.land pte PAGE_MASK)) at 1 by exact Hr. unfold VA2PA at 1. apply u32_small. unfold KERNEL_BASE in *. lia.
Qed.

(** The reference count the fault handler looks up is that of the frame. *)
Lemma frame_lookup s dir A addr f c : 0 <= addr < KERNEL_BASE -> 0 < pte_at s dir addr ->
  frame_of (pte_at s dir addr) = f -> user_frame s dir A f c ->
  va_2_pa s dir addr = f - KERNEL_BASE + addr mod PAGE_SIZE /\ va_2_pa s dir addr <> MINUS1 /\
  get_page_ref (mm s) (va_2_pa s dir addr) = Done c.
Proof.
  intros Ha Hp Hf [Sp Sk Sd St Sc Ss]. pose proof Sp as (HfA & Sp0 & Spm & Spe).
  assert (Hpa : va_2_pa s dir addr = f - KERNEL_BASE + addr mod PAGE_SIZE).
  { rewrite va_2_pa_mapped by lia. rewrite (frame_pa _ f) by (unfold PAGE_SIZE in *; auto; lia). reflexivity. }
  assert (Hoff : 0 <= addr mod PAGE_SIZE < PAGE_SIZE) by (apply Z.mod_pos_bound; reflexivity).
  split; [exact Hpa|]. split; [rewrite Hpa; unfold MINUS1, KERNEL_BASE, PAGE_SIZE in *; lia|].
  unfold get_page_ref. replace (Z.shiftr (va_2_pa s dir addr) PAGE_SHIFT) with (page_of f); [rewrite Sc; reflexivity|].
  rewrite Hpa. unfold page_of, PAGE_SHIFT, PAGE_SIZE, KERNEL_BASE in *. rewrite Z.shiftr_div_pow2 by lia.
  change (2 ^ 12) with 4096. divlia.
Qed.

(** Copying the frame of [addr] into the fresh page [p]. *)
Lemma copy_page_value s dir p addr f : KERNEL_BASE <= p -> p mod PAGE_SIZE = 0 -> p + PAGE_SIZE <= 2 ^ 32 ->
  0 <= addr < KERNEL_BASE -> 0 < pte_at s dir addr -> frame_of (pte_at s dir addr) = f ->
  copy_page s dir p addr = memcpy_page s p f.
Proof.
  intros Hk Hm He Ha Hp Hf. unfold copy_page. rewrite (va_2_pa_mapped s dir addr) by lia.
  destruct (land_mask_range (pte_at s dir addr) ltac:(lia)) as [Hr Hrm]. rewrite land_frame_offset by auto.
  unfold frame_of in Hf. rewrite Hf. unfold va_2_pa. replace (KERNEL_BASE <=? p) with true by lia.
  pose proof (u32_range (p - KERNEL_BASE)) as R. fold (VA2PA p) in R.
  rewrite page_round, (va2pa_mod p Hm), Z.sub_0_r by exact R.
  unfold PAGE_SIZE, KERNEL_BASE in *. rewrite pa_va by lia. reflexivity.
Qed.

#[local] Opaque copy_words.

Lemma page_in_add A p a : page_in A a -> page_in ({[p]} ∪ A) a.
Proof. apply page_in_mono. set_solver. Qed.

(** The state just before the new page is mapped. *)
Definition cow_copied (s : machine) (f p c : Z) (m1 : mm_t) : machine :=
  set_mm (memcpy_page (set_mm s m1) p f) (set_pages m1 (<[page_of f := c - 1]> (m_pages m1))).

Lemma cow_front s dir A vma addr write f c p m1 :
  dir_ok s dir A -> 0 <= addr < KERNEL_BASE -> 0 < pte_at s dir addr -> frame_of (pte_at s dir addr) = f ->
  user_frame s dir A f c -> 2 <= c -> (write = 0 \/ Z.land (m_flags vma) VM_WRITE <> 0) ->
  alloc_pages (mm s) 0 = Done (p, m1) -> KERNEL_BASE <= p -> (p ∉ A) -> page_in ({[p]} ∪ A) p ->
  do_protection_fault s dir vma addr write =
  (let! s' := map_pages (cow_copied s f p c m1) dir addr (VA2PA p) PAGE_SIZE (Z.lor PTE_W PTE_U) in Done (0, s')).
Proof.
  intros D Ha Hp Hf S Hc2 Hw Ealloc Hpk HpA Hpin. destruct (frame_lookup s dir A addr f c Ha Hp Hf S) as (Hpa & Hpm1 & Href).
  destruct S as [Sp Sk Sd St Sc Ss]. pose proof Sp as (HfA & Sp0 & Spm & Spe). pose proof Hpin as (_ & Hp0 & Hpm & Hpe).
  assert (Hoff : 0 <= addr mod PAGE_SIZE < PAGE_SIZE) by (apply Z.mod_pos_bound; reflexivity).
  assert (Hva : PA2VA (va_2_pa s dir addr) = f + addr mod PAGE_SIZE).
  { rewrite Hpa. unfold PA2VA, PAGE_SIZE in *. rewrite u32_small; lia. }
  destruct (dk_inv _ _ _ D) as (F & HB & _).
  assert (Hpf : page_of f <> page_of p).
  { intros Eq. apply HpA. replace p with f; [exact HfA|]. unfold page_of, PAGE_SIZE, KERNEL_BASE in *. divlia. }
  pose proof (alloc_page_counts _ _ _ _ HB Ealloc ltac:(unfold NULL; lia) (page_of f) Hpf) as Hcf. rewrite Sc in Hcf.
  unfold do_protection_fault. replace (_ =? MINUS1) with false by lia.
  replace (negb (write =? 0) && (Z.land (m_flags vma) VM_WRITE =? 0)) with false by lia.
  rewrite Href. cbn [obind]. replace (c =? 1) with false by lia. rewrite Ealloc. cbn [obind].
  rewrite (copy_page_value _ dir p addr f) by auto. rewrite Hva.
  rewrite (free_shared _ _ c); [|unfold PAGE_SIZE in *; lia | rewrite page_of_offset by exact Spm; exact Hcf | lia].
  rewrite page_of_offset by exact Spm. reflexivity.
Qed.

Lemma write_shared s dir A vma addr write f c p m1 :
  dir_ok s dir A -> 0 <= addr < KERNEL_BASE -> 0 < pte_at s dir addr -> frame_of (pte_at s dir addr) = f ->
  user_frame s dir A f c -> 2 <= c -> (write = 0 \/ Z.land (m_flags vma) VM_WRITE <> 0) ->
  alloc_pages (mm s) 0 = Done (p, m1) -> p <> NULL ->
  exists s', do_protection_fault s dir vma addr write = Done (0, s') /\ (p ∉ A) /\ dir_ok s' dir ({[p]} ∪ A) /\
    (forall x, 0 <= x < 2 ^ 32 -> pte_at s' dir x =
       if decide (x / 4096 = addr / 4096) then VA2PA p + 7 else pte_at s dir x) /\
    (forall j, 0 <= j < 1024 -> entry s' p j = entry s f j) /\
    m_pages (mm s') !! page_of f = Some (c - 1).
Proof.
  intros D Ha Hp Hf S Hc2 Hw Ealloc Hnn.
  destruct (alloc_page0 (mm s) A (dk_inv _ _ _ D)) as (q & m' & E & Hq). rewrite Ealloc in E. injection E as <- <-.
  destruct Hq as [[? _]|(_ & Hpk & HpA & Hpin & Hinv)]; [contradiction|]. pose proof Hpin as (_ & Hp0 & Hpm & Hpe).
  rewrite (cow_front s dir A vma addr write f c p m1) by assumption.
  set (s3 := cow_copied s f p c m1).
  assert (Hinv2 : pages_in_use (mm s3) ({[p]} ∪ A)).
  { destruct Hinv as (F1 & HB1 & HA1). exists F1. split; [|exact HA1].
    apply buddy_ok_pages; auto. intros; apply insert_is_some; auto. }
  destruct (fresh_page_frame s s3 dir A p _ D HpA Hpin Hinv2 eq_refl) as (D3 & Hpte3 & Hold3).
  { intros a Hr. apply (copy_words_frame (Z.to_nat NR_PTE_PER_PAGE)). unfold NR_PTE_PER_PAGE. lia. }
  assert (Ha32 : 0 <= addr < 2 ^ 32) by (unfold KERNEL_BASE in Ha; lia).
  assert (Ht : present (entry s3 dir (PD_INDEX addr)) = true) by (apply table_present; rewrite Hpte3; auto; lia).
  rewrite map_one by (unfold PAGE_SIZE, KERNEL_BASE in *; auto; lia). cbn [obind].
  rewrite new_pte by auto. destruct (set_pte s3 dir _ addr (VA2PA p + 7) D3 Ha32 Ht) as [D4 Hpte4].
  eexists. split; [reflexivity|]. split; [exact HpA|]. split; [exact D4|]. split; [|split].
  - intros x Hx. rewrite Hpte4, Hpte3 by auto. reflexivity.
  - intros j Hj. pose proof (sf_page _ _ _ _ _ S) as Sp.
    assert (Hfp : f <> p) by (intros ->; apply HpA, Sp).
    destruct (dk_table _ _ _ D (PD_INDEX addr) (pd_range _ Ha32)) as [Tp _]; [apply table_present; lia|].
    assert (Hpd : entry s3 dir (PD_INDEX addr) = entry s dir (PD_INDEX addr))
      by (apply Hold3; [apply D | apply pd_range, Ha32]).
    rewrite entry_set_ne.
    + pose proof (page_in_add A p f Sp) as Sp'.
      change (entry s3 p j) with (entry (memcpy_page (set_mm s m1) p f) p j). change (entry s f j) with (entry (set_mm s m1) f j).
      apply memcpy_page_at; [exact Hj|]. destruct (page_disjoint _ f p Sp' Hpin Hfp); lia.
    + rewrite Hpd. apply (pages_apart ({[p]} ∪ A) _ _ _ _ Hpin (page_in_add _ _ _ Tp)); [|exact Hj | apply pt_range].
      intros Eq. apply HpA. rewrite Eq. apply Tp.
  - apply lookup_insert_eq.
Qed.

(** No page yet at an address of an area: the fault maps a fresh one. *)
Lemma fault_maps_page l s dir A addr err esp b v a p m1 :
  dir_ok s dir A -> find_vma_prev [] l addr = Some (b, v, a) -> m_start v <= addr -> 0 <= addr < KERNEL_BASE ->
  Z.land err 1 = 0 -> alloc_pages (mm s) 0 = Done (p, m1) -> p <> NULL ->
  (exists s' A', do_page_fault l s dir addr err esp = Done (Handled 0, l, s') /\ dir_ok s' dir A' /\
     ({[p]} ∪ A ⊆ A') /\
     forall x, 0 <= x < 2 ^ 32 -> pte_at s' dir x =
       if decide (x / 4096 = addr / 4096) then VA2PA p + 7 else pte_at s dir x) \/
  (do_page_fault l s dir addr err esp = Fault /\ ~ room (mm s) A 2).
Proof.
  intros D Hf Hs Ha He Ealloc Hnn. unfold do_page_fault, good_area. rewrite Hf.
  replace (addr <? m_start v) with false by lia. replace (m_start v <=? addr) with true by lia.
  rewrite He. cbn [negb Z.eqb]. rewrite Ealloc. cbn [obind].
  destruct (alloc_page0 (mm s) A (dk_inv _ _ _ D)) as (q & m' & E & Hq). rewrite Ealloc in E. injection E as <- <-.
  destruct Hq as [[? _]|(_ & Hpk & HpA & Hpin & Hinv)]; [contradiction|]. pose proof Hpin as (_ & Hp0 & Hpm & Hpe).
  destruct (fresh_page_frame s (set_mm s m1) dir A p m1 D HpA Hpin Hinv eq_refl (fun _ _ => eq_refl)) as (D1 & Hpte1 & _).
  pose proof (u32_range (p - KERNEL_BASE)) as R. fold (VA2PA p) in R. unfold KERNEL_BASE in Ha.
  rewrite (page_round addr) by lia.
  destruct (map_pages_ok (set_mm s m1) dir _ (addr - addr mod PAGE_SIZE) (VA2PA p) PAGE_SIZE (Z.lor PTE_W PTE_U) D1)
    as [(s' & -> & A' & D' & Hsub & Hpte & _)|[-> Hout]]; try (unfold PAGE_SIZE in *; divlia); cbn [obind].
  - left. exists s', A'. split; [reflexivity|]. split; [exact D' | split; [exact Hsub|]].
    intros x Hx. rewrite Hpte, Hpte1 by exact Hx. unfold PAGE_SIZE in *.
    case_decide as H1; case_decide as H2; try (exfalso; divlia); [|reflexivity].
    assert (E : VA2PA p / 4096 * 4096 = VA2PA p) by (pose proof (va2pa_mod p Hpm) as Hm; unfold PAGE_SIZE in Hm; divlia).
    rewrite E. replace (VA2PA p + (x / 4096 * 4096 - (addr - addr mod 4096) / 4096 * 4096)) with (VA2PA p) by divlia.
    rewrite u32_small by exact R. rewrite <- (new_pte p) by assumption.
    rewrite page_round, (va2pa_mod p Hpm), Z.sub_0_r by exact R. reflexivity.
  - right. split; [reflexivity|]. intros R2. apply Hout.
    destruct (room_alloc _ _ _ R2) as (q & mq & Eq & _ & _ & _ & _ & R1 & _). rewrite Ealloc in Eq. injection Eq as <- <-.
    set (w := addr - addr mod PAGE_SIZE) in *. assert (Hw : w mod PAGE_SIZE = 0) by (unfold w, PAGE_SIZE; divlia).
    replace (w / 4096 * 4096) with w by (unfold PAGE_SIZE in Hw; divlia).
    replace ((w + PAGE_SIZE) / 4096 * 4096) with (w + PAGE_SIZE) by (unfold PAGE_SIZE in *; divlia).
    pose proof (tables_one (set_mm s m1) dir w ltac:(unfold w, PAGE_SIZE; divlia) ltac:(unfold w, PAGE_SIZE; divlia) Hw).
    apply (room_less _ _ (1 - tables_missing (set_mm s m1) dir w (w + PAGE_SIZE))). replace (_ + _)%nat with 1%nat by lia. exact R1.
Qed.

(** ** Virtual memory is correct *)


(** C7: [do_munmap] declines with [-1] and changes nothing, when the pool has no object, the
    arguments are not aligned or not in user space, or the range is not inside one area; or it
    returns 0, and then: an address is mapped afterwards exactly when it was before and is not
    in the range, every address keeps its attributes except those of the same area above the
    range, the list stays ordered and disjoint, each frame mapped in the range loses one
    reference, a frame without references becomes free, no other counter changes and no memory
    is written.  Two defects bound the statement: what is left of the area above the range takes
    the attributes of the recycled object ([munmap_changes_protection]), and as no memory is
    written the page tables still translate the range. *)
Theorem do_munmap_correct {V} `{VmaPool V} (l : list vm_area) (g : V) (s : machine) (dir : Z) (F : Z -> list Z)
  (addr len : Z) (a : option vm_area) (g1 : V)
  (Hok : areas_ok 0 l) (Haddr : 0 <= addr < 2 ^ 32) (Hlen : 0 <= len) (Halloc : vma_alloc g = Done (a, g1))
  (Hmm : buddy_ok (mm s) F) (Hframes : frames_ok s dir F addr (addr + PAGE_ALIGN len))
  (Hpos : forall x, 0 <= pte_at s dir x) :
  exists r l' g' s', do_munmap l g s dir addr len = Done (r, l', g', s') /\
    ((r = MINUS1 /\ l' = l /\ s' = s /\ munmap_declined l addr len a) \/
     (r = 0 /\ PAGE_ALIGN len = 0 /\ l' = l /\ s' = s) \/
     (r = 0 /\ exists v F', find_vma l addr = Some v /\
      m_start v <= addr /\ addr + PAGE_ALIGN len <= m_end v /\ areas_ok 0 l' /\
      cut_out l l' v addr (PAGE_ALIGN len) /\
      buddy_ok (mm s') F' /\ dropped s s' dir addr (addr + PAGE_ALIGN len) /\ words s' = words s)).
Proof. exact (do_munmap_spec l g s dir F addr len a g1 Hok Haddr Hlen Halloc Hmm Hframes Hpos). Qed.

(** a fault at an address of an area that has no page maps a fresh page there,
    present, writable and for the user, changes no other translation, and leaves
    the areas alone; or it faults for want of a page for a table. *)
Theorem page_fault_maps_fresh_page (l : list vm_area) (s : machine) (dir : Z) (A : gset Z) (addr err esp : Z)
  (b : list vm_area) (v : vm_area) (a : list vm_area) (p : Z) (m1 : mm_t)
  (Hdir : dir_ok s dir A) (Hfind : find_vma_prev [] l addr = Some (b, v, a)) (Hstart : m_start v <= addr)
  (Haddr : 0 <= addr < KERNEL_BASE) (Herr : Z.land err 1 = 0)
  (Halloc : alloc_pages (mm s) 0 = Done (p, m1)) (Hp : p <> NULL) :
  (exists s' A', do_page_fault l s dir addr err esp = Done (Handled 0, l, s') /\ dir_ok s' dir A' /\
     ({[p]} ∪ A ⊆ A') /\
     forall x, 0 <= x < 2 ^ 32 -> pte_at s' dir x =
       if decide (x / 4096 = addr / 4096) then VA2PA p + 7 else pte_at s dir x) \/
  (do_page_fault l s dir addr err esp = Fault /\ ~ room (mm s) A 2).
Proof. exact (fault_maps_page l s dir A addr err esp b v a p m1 Hdir Hfind Hstart Haddr Herr Halloc Hp). Qed.

(** C8: copy on write is correct.  A write to a page of an area that is not writable is
    refused and changes nothing.  Otherwise, on a fault at a mapped address: when its frame
    has one reference, the page is made writable in place, the allocator and the contents
    of the frame untouched; when it has more, and a page is free, the faulting address space
    gets its own page with the same contents, mapped writable at that address, and the old
    frame one reference less.  No other address changes its translation. *)
Theorem copy_on_write_correct (s : machine) (dir : Z) (A : gset Z) (vma : vm_area) (addr write f c : Z)
  (Hdir : dir_ok s dir A) (Haddr : 0 <= addr < KERNEL_BASE) (Hpte : 0 < pte_at s dir addr)
  (Hframe : frame_of (pte_at s dir addr) = f) (Hused : user_frame s dir A f c) :
  let allowed := write = 0 \/ Z.land (m_flags vma) VM_WRITE <> 0 in
  (~ allowed -> do_protection_fault s dir vma addr write = Done (MINUS1, s)) /\
  (allowed -> c = 1 -> exists s', do_protection_fault s dir vma addr write = Done (0, s') /\ mm s' = mm s /\ dir_ok s' dir A /\
    (forall x, 0 <= x < 2 ^ 32 -> pte_at s' dir x =
       if decide (x / 4096 = addr / 4096) then Z.lor (pte_at s dir addr) PTE_W else pte_at s dir x) /\
    (forall j, 0 <= j < 1024 -> entry s' f j = entry s f j)) /\
  (allowed -> 2 <= c -> forall p m1, alloc_pages (mm s) 0 = Done (p, m1) -> p <> NULL ->
    exists s', do_protection_fault s dir vma addr write = Done (0, s') /\ (p ∉ A) /\ dir_ok s' dir ({[p]} ∪ A) /\
    (forall x, 0 <= x < 2 ^ 32 -> pte_at s' dir x =
       if decide (x / 4096 = addr / 4096) then VA2PA p + 7 else pte_at s dir x) /\
    (forall j, 0 <= j < 1024 -> entry s' p j = entry s f j) /\
    m_pages (mm s') !! page_of f = Some (c - 1)).
Proof.
  intros allowed. destruct (frame_lookup s dir A addr f c Haddr Hpte Hframe Hused) as (Hpa & Hne & Href). split_and!.
  - intros Hn. unfold do_protection_fault, allowed in *. replace (_ =? MINUS1) with false by lia.
    replace (negb (write =? 0) && (Z.land (m_flags vma) VM_WRITE =? 0)) with true by lia. reflexivity.
  - intros Hw Hc. destruct (write_unshared s dir A vma addr write c Hdir Haddr Hpte Hne Hw Href Hc) as (s' & E & Em & D & Hx & Hk).
    exists s'. split_and!; auto. intros j Hj. apply Hk; auto; apply Hused.
  - intros Hw Hc p m1 Ea Hp. exact (write_shared s dir A vma addr write f c p m1 Hdir Haddr Hpte Hframe Hused Hc Hw Ea Hp).
Qed.

(** A pool that always has an object, whose last user was a read-only area. *)
#[export] Instance endless_pool : VmaPool unit := {
  vma_alloc := fun g => Done (Some (mk_vma 0 0 1 1), g);
  vma_free := fun g _ => g
}.

(** the search for a free range can leave user space: with everything from
    the search base up to the top of user space mapped (the stack area ends
    there), [do_mmap] does not fail but maps the first page of kernel space. *)
Theorem do_mmap_leaves_user_space :
  let l := [mk_vma VM_UNMAPPED_BASE USER_VM_SIZE 3 3] in
  areas_ok 0 l /\
  do_mmap l tt 0 4096 1 0 = Done (USER_VM_SIZE, l ++ [mk_vma USER_VM_SIZE (USER_VM_SIZE + 4096) 1 1], tt).
Proof. split; [repeat split; vm_compute; discriminate | vm_compute; reflexivity]. Qed.

(** unmapping the second page of an area of eight readable, writable and executable pages
    turns the six above it into whatever the recycled object was last used for. *)
Theorem munmap_changes_protection :
  split_vma [] (mk_vma 0x8048000 0x8050000 7 7) [] (mk_vma 0 0 1 1) 0x8049000 4096 tt =
  ([mk_vma 0x8048000 0x8049000 7 7; mk_vma 0x804a000 0x8050000 1 1], tt).
Proof. reflexivity. Qed.

(** ** Witnesses *)

Definition demo_areas : list vm_area := [mk_vma 0x8048000 0x8050000 7 7].


(** A directory [d] whose first entry points at the table [t], whose first entry
    points at the frame [f]. *)
Definition flags7 (p : Z) : Z := Z.lor (Z.lor (Z.lor (VA2PA p) PTE_P) PTE_W) 4.

Definition demo_words (d t f : Z) : mem :=
  fun a => if a =? d then flags7 t else if a =? t then flags7 f else 0.

Lemma demo_dir_ok m d t f A : pages_in_use m A -> page_in A d -> page_in A t -> page_in A f -> d <> t -> f <> t ->
  let s := mk_machine (demo_words d t f) m in
  dir_ok s d A /\ pte_at s d 100 = flags7 f /\ not_table s d f.
Proof.
  intros Hinv Hd Ht Hf Hdt Hft s.
  destruct Ht as (HtA & Ht0 & Htm & Hte). destruct (new_pde t Ht0 Htm Hte) as [Hp Htab]. fold (flags7 t) in Hp, Htab.
  assert (H0 : entry s d 0 = flags7 t).
  { unfold entry, s, demo_words. cbn [words]. replace (d + 4 * 0 =? d) with true by lia. reflexivity. }
  assert (Hi : forall i, 0 < i < 1024 -> entry s d i = 0).
  { intros i Hi. unfold entry, s, demo_words. cbn [words]. replace (d + 4 * i =? d) with false by lia.
    replace (d + 4 * i =? t) with false; [reflexivity|]. symmetry. apply Z.eqb_neq.
    pose proof (pages_apart A d t i 0 Hd ltac:(unfold page_in; auto) Hdt). lia. }
  assert (Hpi : forall i, 0 <= i < 1024 -> present (entry s d i) = true -> i = 0).
  { intros i Hr Hpi. destruct (Z.eq_dec i 0); [assumption|]. rewrite Hi in Hpi by lia. discriminate. }
  split_and!.
  - constructor; auto.
    + intros i Hr Hpr. rewrite (Hpi i Hr Hpr), H0, Htab. unfold page_in. auto.
    + intros i j Hr1 Hr2 Hij Hp1 Hp2. rewrite (Hpi i Hr1 Hp1), (Hpi j Hr2 Hp2) in Hij. lia.
  - unfold pte_at. change (PD_INDEX 100) with 0. change (PT_INDEX 100) with 0. rewrite H0, Hp, Htab.
    unfold entry, s, demo_words. cbn [words]. replace (t + 4 * 0 =? d) with false by lia.
    replace (t + 4 * 0 =? t) with true by lia. reflexivity.
  - intros i Hr Hpr. rewrite (Hpi i Hr Hpr), H0, Htab. auto.
Qed.

Lemma room_set_pages m A k r : room m A k -> (forall i, is_Some (m_pages m !! i) -> is_Some (r !! i)) ->
  room (set_pages m r) A k.
Proof.
  intros (F & xs & HB & H) Hr. exists F, xs. split; [apply buddy_ok_pages; auto | exact H].
Qed.

Lemma flags7_pos p : 0 < p -> p mod PAGE_SIZE = 0 -> p + PAGE_SIZE <= 2 ^ 32 -> 0 < flags7 p.
Proof.
  intros H1 H2 H3. destruct (new_pde p H1 H2 H3) as [Hp _]. fold (flags7 p) in Hp.
  assert (0 <= flags7 p).
  { unfold flags7. rewrite !Z.lor_nonneg. pose proof (u32_range (p - KERNEL_BASE)). unfold VA2PA, PTE_P, PTE_W. lia. }
  destruct (Z.eq_dec (flags7 p) 0) as [E|]; [rewrite E in Hp; discriminate | lia].
Qed.

(** The scenario of a mapped page: a directory, a table and a frame with [c]
    references, and a page left for a copy. *)
Lemma frame_scenario c : 1 <= c < 2 ^ 31 -> exists s d A f p m1,
  dir_ok s d A /\ pte_at s d 100 = flags7 f /\ 0 < flags7 f /\ frame_of (flags7 f) = f /\ user_frame s d A f c /\
  block_in (mm s) 0 f /\ (forall x, 0 <= pte_at s d x) /\ alloc_pages (mm s) 0 = Done (p, m1) /\ p <> NULL.
Proof.
  intros Hc. destruct boot_room as (m0 & _ & R0 & Hc0).
  destruct (room_alloc m0 ∅ 7 R0) as (d & m1 & _ & Hd0 & _ & Hd1 & Hd & R1 & C1).
  destruct (room_alloc m1 _ 6 R1) as (t & m2 & _ & Ht0 & _ & Ht1 & Ht & R2 & C2).
  destruct (room_alloc m2 _ 5 R2) as (f & m3 & Ef & Hf0 & Hfk & Hf1 & Hf & R3 & C3).
  pose proof (alloc_block _ _ _ _ _ R2 Ef) as Hblk.
  set (A := {[f]} ∪ ({[t]} ∪ ({[d]} ∪ ∅))) in *.
  pose proof (room_set_pages m3 A 5 (<[page_of f := c]> (m_pages m3)) R3
                (fun i => insert_is_some (m_pages m3) (page_of f) c i)) as R4.
  destruct (room_alloc _ _ 4 R4) as (p & m5 & Ea & Hp0 & _).
  assert (Pt : page_in A t) by (apply page_in_add, Ht). assert (Pd : page_in A d) by (apply page_in_add, page_in_add, Hd).
  assert (Htd : d <> t) by (intros ->; apply Ht1, Hd). assert (Hft : f <> t) by (intros ->; apply Hf1, Ht).
  assert (Hfd : f <> d) by (intros ->; apply Hf1; apply page_in_add; exact Hd).
  set (m4 := set_pages m3 _) in *.
  destruct (demo_dir_ok m4 d t f A (room_inv _ _ _ R4) Pd Pt Hf Htd Hft) as (D & Hpte & Hnt).
  pose proof Hf as (_ & Hf00 & Hfm & Hfe). destruct (new_pde f Hf00 Hfm Hfe) as [Hp1 Hp2]. fold (flags7 f) in Hp1, Hp2.
  pose proof Pt as (_ & Ht00 & Htm & Hte). pose proof (flags7_pos t Ht00 Htm Hte) as Ft.
  pose proof (flags7_pos f Hf00 Hfm Hfe) as Ff.
  exists (mk_machine (demo_words d t f) m4), d, A, f, p, m5. split_and!; auto.
  - constructor; auto. apply lookup_insert_eq.
  - intros x. unfold pte_at, entry, demo_words. cbn [words].
    destruct (present _); [|lia]. repeat match goal with |- context [if ?b then _ else _] => destruct b end; lia.
Qed.

(** The first page of an area is unmapped: its frame loses its only reference, the
    other area keeps its attributes. *)
Lemma do_munmap_correct_witness :
  let l := [mk_vma 0 0x2000 7 7; mk_vma 0x3000 0x5000 5 5] in
  exists s d f F l' g' s' F', m_pages (mm s) !! page_of f = Some 1 /\ frame_of (pte_at s d 0) = f /\ buddy_ok (mm s) F /\
    do_munmap l tt s d 0 4096 = Done (0, l', g', s') /\ buddy_ok (mm s') F' /\
    attr l' 0 = None /\ attr l' 0x1000 <> None /\ attr l' 0x4000 = Some (5, 5) /\
    m_pages (mm s') !! page_of f = Some 0.
Proof.
  intros l. destruct (frame_scenario 1 ltac:(lia)) as (s & d & A & f & p & m1 & D & Hpte & H0 & Hf & Hs & Hblk & Hpos & _).
  destruct (dk_inv _ _ _ D) as (F & HB & HA). change (pte_at s d 100) with (pte_at s d 0) in Hpte.
  assert (Hfr : frames_ok s d F 0 (0 + PAGE_ALIGN 4096)).
  { change (0 + PAGE_ALIGN 4096) with 4096. constructor.
    - intros x Hx Hm _. assert (x = 0) as -> by (unfold PAGE_SIZE in Hm; divlia). cbv zeta. rewrite Hpte, Hf.
      split_and!; auto; [apply HA, Hs | exists 1; split; [apply Hs | lia]].
    - intros x y Hx Hy Hxm Hym Hne. exfalso. unfold PAGE_SIZE in *. divlia. }
  destruct (do_munmap_correct l tt s d F 0 4096 (Some (mk_vma 0 0 1 1)) tt) as (r & l' & g' & s' & E & H);
    [repeat split; vm_compute; discriminate | lia | lia | reflexivity | exact HB | exact Hfr | exact Hpos |].
  destruct H as [(-> & _ & _ & Hdec)|[(_ & Hz & _)|(-> & v & F' & Hv & _ & _ & _ & (C1 & C2) & HB' & (Hd & _) & _)]].
  - exfalso. destruct Hdec as [Hx|[Hx|[Hx|[(x & Hx & Ha)|(v & Hv & _ & Hlt)]]]]; try discriminate; try (apply Hx; reflexivity).
    + change (0 + PAGE_ALIGN 4096) with 4096 in Hx. revert Ha. unfold l. rewrite attr_cons. cbn [m_end m_start].
      replace (x <? 0x2000) with true by lia. replace (0 <=? x) with true by lia. discriminate.
    + vm_compute in Hv. injection Hv as <-. discriminate.
  - discriminate.
  - vm_compute in Hv. injection Hv as <-. exists s, d, f, F, l', g', s', F'. split; [apply Hs|].
    split; [rewrite Hpte; exact Hf|]. split; [exact HB|]. split; [exact E|]. split; [exact HB'|].
    change (0 + PAGE_ALIGN 4096) with 4096 in *. split_and!.
    + apply C1. right. lia.
    + intros Hx. apply C1 in Hx as [Hx|Hx]; [discriminate | lia].
    + rewrite C2 by (cbn [m_end]; lia). reflexivity.
    + pose proof (Hd 0 ltac:(lia) eq_refl ltac:(rewrite Hpte; lia)) as Hd0. rewrite Hpte, Hf in Hd0.
      rewrite Hd0, (sf_count _ _ _ _ _ Hs). reflexivity.
Defined.

(** Both cases: a frame with two references is copied, one with a single reference is made
    writable in place. *)
Lemma copy_on_write_correct_witness :
  (exists s d (A : gset Z) f p s', m_pages (mm s) !! page_of f = Some 2 /\ frame_of (pte_at s d 100) = f /\
     do_protection_fault s d (mk_vma 0 4096 3 3) 100 2 = Done (0, s') /\ (p ∉ A) /\ f ∈ A /\
     pte_at s' d 100 = VA2PA p + 7 /\ (forall j, 0 <= j < 1024 -> entry s' p j = entry s f j) /\
     m_pages (mm s') !! page_of f = Some (2 - 1)) /\
  (exists s d f s', m_pages (mm s) !! page_of f = Some 1 /\ frame_of (pte_at s d 100) = f /\
     do_protection_fault s d (mk_vma 0 4096 3 3) 100 2 = Done (0, s') /\ mm s' = mm s /\
     pte_at s' d 100 = Z.lor (pte_at s d 100) PTE_W /\ (forall j, 0 <= j < 1024 -> entry s' f j = entry s f j)).
Proof.
  assert (Hw : 2 = 0 \/ Z.land (m_flags (mk_vma 0 4096 3 3)) VM_WRITE <> 0) by (right; vm_compute; discriminate).
  split.
  - destruct (frame_scenario 2 ltac:(lia)) as (s & d & A & f & p & m1 & D & Hpte & H0 & Hf & Hs & _ & _ & Ea & Hp).
    destruct (copy_on_write_correct s d A (mk_vma 0 4096 3 3) 100 2 f 2 D ltac:(unfold KERNEL_BASE; lia)
                ltac:(rewrite Hpte; exact H0) ltac:(rewrite Hpte; exact Hf) Hs) as (_ & _ & H).
    destruct (H Hw ltac:(lia) p m1 Ea Hp) as (s' & E & HpA & _ & Hx & Hc & Hn).
    exists s, d, A, f, p, s'. rewrite Hpte. pose proof (Hx 100 ltac:(lia)) as H100. split_and!; auto; apply Hs.
  - destruct (frame_scenario 1 ltac:(lia)) as (s & d & A & f & p & m1 & D & Hpte & H0 & Hf & Hs & _).
    destruct (copy_on_write_correct s d A (mk_vma 0 4096 3 3) 100 2 f 1 D ltac:(unfold KERNEL_BASE; lia)
                ltac:(rewrite Hpte; exact H0) ltac:(rewrite Hpte; exact Hf) Hs) as (_ & H & _).
    destruct (H Hw eq_refl) as (s' & E & Em & _ & Hx & Hk).
    exists s, d, f, s'. pose proof (Hx 100 ltac:(lia)) as H100. rewrite Hpte in *. split_and!; auto; apply Hs.
Defined.

Lemma page_fault_maps_fresh_page_witness : exists s d A p m1,
  alloc_pages (mm s) 0 = Done (p, m1) /\
  ((exists s' A', do_page_fault demo_areas s d 0x8049123 6 0xbfffff00 = Done (Handled 0, demo_areas, s') /\ dir_ok s' d A' /\
     ({[p]} ∪ A ⊆ A') /\
     forall x, 0 <= x < 2 ^ 32 -> pte_at s' d x =
       if decide (x / 4096 = 0x8049123 / 4096) then VA2PA p + 7 else pte_at s d x) \/
   (do_page_fault demo_areas s d 0x8049123 6 0xbfffff00 = Fault /\ ~ room (mm s) A 2)).
Proof.
  destruct (frame_scenario 1 ltac:(lia)) as (s & d & A & f & p & m1 & D & _ & _ & _ & _ & _ & _ & Ea & Hp).
  exists s, d, A, p, m1. split; [exact Ea|].
  apply (page_fault_maps_fresh_page demo_areas s d A 0x8049123 6 0xbfffff00 [] (mk_vma 0x8048000 0x8050000 7 7) [] p m1 D);
    [reflexivity | simpl; lia | unfold KERNEL_BASE; lia | reflexivity | exact Ea | exact Hp].
Defined.
