(* ===== verification/Sync.v ===== *)
(** * Semaphores (src/src/sem.cc, sem.h)

    [down] and [up] run under the semaphore's spinlock, so each is one step of the
    system.  A process that finds the count at zero is appended to the wait list and
    sleeps until its waiter's [m_up] is set; [up] sets it for the first waiter
    instead of raising the count. *)
From Stdlib Require Import ZArith ZifyBool Lia.
From stdpp Require Import base option list gmap.
From S2P Require Import Prelude.

Record semaphore := mk_sem {
  m_count : Z;
  m_wait_list : list Z
}.

(** [semaphore_t::init] *)
Definition sem_init (count : Z) : semaphore := mk_sem count [].

(** [down] by process [p]: whether it goes on at once, or waits in [down_common]. *)
Definition down (s : semaphore) (p : Z) : bool * semaphore :=
  if 0 <? m_count s then (true, mk_sem (m_count s - 1) (m_wait_list s))
  else (false, mk_sem (m_count s) (m_wait_list s ++ [p])).

(** [up]: the process that [up_common] wakes, if any. *)
Definition up (s : semaphore) : option Z * semaphore :=
  match m_wait_list s with
  | [] => (None, mk_sem (u32 (m_count s + 1)) [])
  | p :: r => (Some p, mk_sem (m_count s) r)
  end.

(** ** A process alone

    A computation that finds the count at zero, with nobody to raise it, stops. *)
Definition down1 (c : Z) : outcome Z := if 0 <? c then Done (c - 1) else Blocked.
Definition up1 (c : Z) : Z := u32 (c + 1).

(** ** Processes that share a semaphore

    [granted]: waiters whose [m_up] is set and that have not run yet; [inside]: processes
    that came back from [down] and have not called [up]. *)
Record system := mk_sys {
  y_sem : semaphore;
  y_granted : gset Z;
  y_inside : gset Z
}.

Inductive event :=
| Enters (p : Z)
| Waits (p : Z)
| Wakes (p : Z)
| Leaves (p : Z) (next : option Z).

Definition busy (y : system) (p : Z) : Prop := p ∈ m_wait_list (y_sem y) \/ p ∈ y_granted y \/ p ∈ y_inside y.

Inductive step (y : system) : event -> system -> Prop :=
| step_enters p s : ~ busy y p -> down (y_sem y) p = (true, s) ->
    step y (Enters p) (mk_sys s (y_granted y) ({[p]} ∪ y_inside y))
| step_waits p s : ~ busy y p -> down (y_sem y) p = (false, s) ->
    step y (Waits p) (mk_sys s (y_granted y) (y_inside y))
| step_wakes p : p ∈ y_granted y ->
    step y (Wakes p) (mk_sys (y_sem y) (y_granted y ∖ {[p]}) ({[p]} ∪ y_inside y))
| step_leaves p q s : p ∈ y_inside y -> up (y_sem y) = (q, s) ->
    step y (Leaves p q) (mk_sys s (match q with Some w => {[w]} ∪ y_granted y | None => y_granted y end) (y_inside y ∖ {[p]})).

Inductive run (n : Z) : list event -> system -> Prop :=
| run_init : run n [] (mk_sys (sem_init n) ∅ ∅)
| run_step t e y y' : run n t y -> step y e y' -> run n (t ++ [e]) y'.

(** The processes in the order in which they began to wait, and were let in. *)
Definition waited (t : list event) : list Z := omap (fun e => match e with Waits p => Some p | _ => None end) t.
Definition let_in (t : list event) : list Z := omap (fun e => match e with Leaves _ q => q | _ => None end) t.

Record sem_inv (n : Z) (t : list event) (y : system) : Prop := {
  si_count : 0 <= m_count (y_sem y);
  si_idle : 0 < m_count (y_sem y) -> m_wait_list (y_sem y) = [];
  si_sum : Z.of_nat (size (y_granted y)) + Z.of_nat (size (y_inside y)) + m_count (y_sem y) = n;
  si_nodup : NoDup (m_wait_list (y_sem y));
  si_wait : forall p, p ∈ m_wait_list (y_sem y) -> p ∉ y_granted y /\ p ∉ y_inside y;
  si_disj : y_granted y ## y_inside y;
  si_fifo : waited t = let_in t ++ m_wait_list (y_sem y)
}.

Lemma size_add (X : gset Z) p : p ∉ X -> size ({[p]} ∪ X) = S (size X).
Proof. intros H. rewrite size_union, size_singleton by set_solver. reflexivity. Qed.

Lemma size_remove (X : gset Z) p : p ∈ X -> size X = S (size (X ∖ {[p]})).
Proof.
  intros H. rewrite <- (size_add (X ∖ {[p]}) p) by set_solver. f_equal. apply set_eq. intros q.
  rewrite elem_of_union, elem_of_difference, elem_of_singleton. destruct (decide (q = p)) as [->|]; tauto.
Qed.

Lemma waited_snoc t e : waited (t ++ [e]) = waited t ++ match e with Waits p => [p] | _ => [] end.
Proof. unfold waited. rewrite omap_app. f_equal. destruct e; reflexivity. Qed.

Lemma let_in_snoc t e : let_in (t ++ [e]) = let_in t ++ match e with Leaves _ (Some q) => [q] | _ => [] end.
Proof. unfold let_in. rewrite omap_app. f_equal. destruct e as [| | |p [q|]]; reflexivity. Qed.

Lemma step_inv n t y e y' : n < 2 ^ 32 -> sem_inv n t y -> step y e y' -> sem_inv n (t ++ [e]) y'.
Proof.
  intros Hn [C I S N W D F] Hs. destruct Hs as [p s Hb Hd|p s Hb Hd|p Hg|p q s Hp Hu].
  - unfold down in Hd. destruct (0 <? m_count (y_sem y)) eqn:E; tests; [|discriminate]. injection Hd as <-. unfold busy in Hb.
    constructor; cbn in *; auto; try lia; rewrite ?waited_snoc, ?let_in_snoc, ?app_nil_r; auto.
    + rewrite size_add by tauto. lia.
    + intros w Hw. rewrite I in Hw by lia. inversion Hw.
    + set_solver.
  - unfold down in Hd. destruct (0 <? m_count (y_sem y)) eqn:E; tests; [discriminate|]. injection Hd as <-. unfold busy in Hb.
    constructor; cbn in *; auto; try lia.
    + apply NoDup_app. split; [exact N|]. split; [|apply NoDup_singleton]. intros w Hw Hin. apply list_elem_of_singleton in Hin. subst w. tauto.
    + intros w Hw. apply elem_of_app in Hw as [Hw|Hw]; [apply W, Hw|]. apply list_elem_of_singleton in Hw as ->. tauto.
    + rewrite waited_snoc, let_in_snoc, app_nil_r, F, app_assoc. reflexivity.
  - constructor; cbn in *; auto; rewrite ?waited_snoc, ?let_in_snoc, ?app_nil_r; auto.
    + assert (p ∉ y_inside y) by set_solver. rewrite size_add by assumption. rewrite (size_remove (y_granted y) p Hg) in S. lia.
    + intros w Hw. destruct (W w Hw) as [Hwg Hwi]. assert (w <> p) by (intros ->; tauto). set_solver.
    + set_solver.
  - unfold up in Hu. destruct (m_wait_list (y_sem y)) as [|w r] eqn:Ew; injection Hu as <- <-.
    + rewrite (size_remove (y_inside y) p Hp) in S. constructor; cbn in *; auto; rewrite ?waited_snoc, ?let_in_snoc, ?app_nil_r, ?F, ?app_nil_r; auto.
      * apply u32_range.
      * rewrite u32_small by lia. lia.
      * intros x Hx. inversion Hx.
      * set_solver.
    + rewrite (size_remove (y_inside y) p Hp) in S. destruct (W w ltac:(left)) as [Hwg Hwi]. apply NoDup_cons in N as [Nw N].
      constructor; cbn in *; auto; rewrite ?waited_snoc, ?let_in_snoc, ?F, ?app_nil_r; auto.
      * intros H. specialize (I H). discriminate.
      * rewrite size_add by assumption. lia.
      * intros x Hx. destruct (W x ltac:(right; exact Hx)) as [Hxg Hxi]. assert (x <> w) by (intros ->; tauto). set_solver.
      * set_solver.
      * rewrite <- app_assoc. reflexivity.
Qed.

Lemma run_inv n t y : 0 <= n < 2 ^ 32 -> run n t y -> sem_inv n t y.
Proof.
  intros Hn H. induction H as [|t e y y' H IH Hs].
  - assert (E0 : size (∅ : gset Z) = 0%nat) by apply size_empty.
    constructor; cbn [y_sem y_granted y_inside sem_init m_count m_wait_list]; try lia; try (rewrite E0; lia); try reflexivity.
    + constructor.
    + intros p Hp. inversion Hp.
    + set_solver.
  - eapply step_inv; eauto. lia.
Qed.

(** C12: A semaphore that starts at [n].  In every state that can be reached by
    processes that leave only after they entered, at most [n] processes are inside
    or have been let in; a free place means that nobody waits; and the waiters are
    let in in the order in which they began to wait. *)
Theorem semaphore_correct n t y : 0 <= n < 2 ^ 32 -> run n t y ->
  Z.of_nat (size (y_granted y)) + Z.of_nat (size (y_inside y)) <= n /\
  (Z.of_nat (size (y_granted y)) + Z.of_nat (size (y_inside y)) < n -> m_wait_list (y_sem y) = []) /\
  waited t = let_in t ++ m_wait_list (y_sem y).
Proof.
  intros Hn Hr. destruct (run_inv n t y Hn Hr) as [C I S N W D F]. split; [lia|]. split; [intros H; apply I; lia | exact F].
Qed.

(** Two processes and a lock: the second waits, and is let in when the first leaves. *)
Definition lock_held : system := mk_sys (mk_sem 0 []) ∅ {[1]}.
Definition lock_wanted : system := mk_sys (mk_sem 0 [2]) ∅ {[1]}.
Definition lock_passed : system := mk_sys (mk_sem 0 []) {[2]} ∅.

Lemma step_to y e y1 y2 : step y e y1 -> y_sem y1 = y_sem y2 -> y_granted y1 = y_granted y2 -> y_inside y1 = y_inside y2 -> step y e y2.
Proof. destruct y1, y2. cbn. intros H -> -> ->. exact H. Qed.

Lemma lock_passed_run : run 1 [Enters 1; Waits 2; Leaves 1 (Some 2)] lock_passed.
Proof.
  apply (run_step 1 [Enters 1; Waits 2] _ lock_wanted).
  - apply (run_step 1 [Enters 1] _ lock_held).
    + apply (run_step 1 [] _ _ _ (run_init 1)). eapply step_to; [apply (step_enters _ 1 (mk_sem 0 [])); [|reflexivity]|..];
        [|reflexivity | reflexivity | cbn; set_solver]. intros [H|[H|H]]; [inversion H | set_solver | set_solver].
    + eapply step_to; [apply (step_waits _ 2 (mk_sem 0 [2])); [|reflexivity]|..]; [|reflexivity..].
      intros [H|[H|H]]; [inversion H | set_solver | set_solver].
  - eapply step_to; [apply (step_leaves _ 1 (Some 2) (mk_sem 0 [])); [set_solver | reflexivity]|..]; [reflexivity | cbn; set_solver | cbn; set_solver].
Qed.

Lemma semaphore_correct_witness : Z.of_nat (size (y_granted lock_passed)) + Z.of_nat (size (y_inside lock_passed)) <= 1.
Proof. exact (proj1 (semaphore_correct 1 _ lock_passed ltac:(lia) lock_passed_run)). Defined.
