(* ===== verification/Spinlock.v ===== *)
(** * Spinlocks and interrupts (src/src/spinlock.cc, spinlock.h)

    The lock is one word that every processor reaches; taking it is a loop around
    [xchg], giving it back a test and a store.  The functions of [spinlock_t] are
    sequences of the instructions whose order matters: each one is a step of one
    processor, and steps of the processors interleave in any way.  A processor runs a
    stack of activations: the code that was interrupted, and on top of it the interrupt
    handlers, which may use the same lock.  Memory is sequentially consistent, which is
    what [__sync_synchronize] and [wmb] around the critical section provide. *)
From Stdlib Require Import ZArith ZifyBool Lia.
From stdpp Require Import base option list.
From S2P Require Import Prelude.

(** [IXchg]: one turn of [while (xchg(&m_locked, 1) != 0);].  [IHolding]: the test of
    [unlock], which leaves out the store that follows when it fails.  [ISave], [IRestore]:
    [local_irq_save] up to its [cli], and [local_irq_restore].  [IOther]: any instruction of the
    kernel that touches neither this lock nor the interrupt flag, for example one on another lock. *)
Inductive instr := IXchg | IHolding | IClear | ICli | ISti | ISave | IRestore | IOther.

#[export] Instance instr_eq_dec : EqDecision instr.
Proof. solve_decision. Defined.

Definition lock : list instr := [IXchg].
Definition unlock : list instr := [IHolding; IClear].
Definition lock_irq : list instr := ICli :: lock.
Definition unlock_irq : list instr := unlock ++ [ISti].
Definition lock_irqsave : list instr := ISave :: ICli :: lock.
Definition unlock_irqrestore : list instr := unlock ++ [IRestore].

(** [holding] *)
Definition holding (locked : Z) : bool := locked =? 1.

(** The three ways the kernel takes a lock and gives it back; the last one is [locker_t]. *)
Inductive mode := Plain | Irq | Irqsave.

Definition taking (md : mode) : list instr := match md with Plain => lock | Irq => lock_irq | Irqsave => lock_irqsave end.

Definition giving (md : mode) : list instr := match md with Plain => unlock | Irq => unlock_irq | Irqsave => unlock_irqrestore end.

(** A critical section with the code that runs in it. *)
Definition session (md : mode) (body : list instr) : list instr := taking md ++ body ++ giving md.

(** The code of a section may be any but a use of the lock itself: it may take other locks, and
    turn interrupts off and on, as [lock_irq] and [unlock_irq] of an inner lock do. *)
Definition neutral (i : instr) : bool := match i with IOther | ICli | ISti => true | _ => false end.

(** What is left to run of a function, and the flags that it saved. *)
Record activation := mk_act { a_code : list instr; a_flags : bool }.

Record processor := mk_cpu { c_if : bool; c_stack : list activation }.

Record machine := mk_machine { m_locked : Z; m_cpus : list processor }.

(** One instruction: the word, the interrupt flag and the activation afterwards. *)
Definition exec (locked : Z) (ifl : bool) (a : activation) : option (Z * bool * activation) :=
  match a_code a with
  | [] => None
  | IXchg :: k => Some (1, ifl, mk_act (if locked =? 0 then k else IXchg :: k) (a_flags a))
  | IHolding :: k => Some (locked, ifl, mk_act (if holding locked then k else drop 1 k) (a_flags a))
  | IClear :: k => Some (0, ifl, mk_act k (a_flags a))
  | ICli :: k => Some (locked, false, mk_act k (a_flags a))
  | ISti :: k => Some (locked, true, mk_act k (a_flags a))
  | ISave :: k => Some (locked, ifl, mk_act k ifl)
  | IRestore :: k => Some (locked, a_flags a, mk_act k (a_flags a))
  | IOther :: k => Some (locked, ifl, mk_act k (a_flags a))
  end.

Definition set_cpu (m : machine) (i : nat) (c : processor) : list processor := <[i := c]> (m_cpus m).

(** [Start]: code outside any critical section begins to take the lock.  [Interrupt]: the
    processor enters a handler through an interrupt gate, which clears the flag;
    [Return]: [iret] gives back the flags of what was interrupted. *)
Inductive label := Start (i : nat) (md : mode) (body : list instr) | Exec (i : nat) | Interrupt (i : nat) | Return (i : nat).

#[export] Instance mode_eq_dec : EqDecision mode.
Proof. solve_decision. Defined.

#[export] Instance label_eq_dec : EqDecision label.
Proof. solve_decision. Defined.

Section machine_steps.
(** The sections that occur. *)
Variable allowed : mode -> list instr -> Prop.

Inductive step (m : machine) : label -> machine -> Prop :=
| step_start i c a r md body : m_cpus m !! i = Some c -> c_stack c = a :: r -> a_code a = [] -> allowed md body -> Forall neutral body ->
    step m (Start i md body) (mk_machine (m_locked m) (set_cpu m i (mk_cpu (c_if c) (mk_act (session md body) (a_flags a) :: r))))
| step_exec i c a r l f a' : m_cpus m !! i = Some c -> c_stack c = a :: r -> exec (m_locked m) (c_if c) a = Some (l, f, a') ->
    step m (Exec i) (mk_machine l (set_cpu m i (mk_cpu f (a' :: r))))
| step_interrupt i c : m_cpus m !! i = Some c -> c_if c = true ->
    step m (Interrupt i) (mk_machine (m_locked m) (set_cpu m i (mk_cpu false (mk_act [] false :: c_stack c))))
| step_return i c a b r : m_cpus m !! i = Some c -> c_stack c = a :: b :: r -> a_code a = [] ->
    step m (Return i) (mk_machine (m_locked m) (set_cpu m i (mk_cpu true (b :: r)))).

Inductive steps (m : machine) : list label -> machine -> Prop :=
| steps_nil : steps m [] m
| steps_snoc t l m1 m2 : steps m t m1 -> step m1 l m2 -> steps m (t ++ [l]) m2.
End machine_steps.

(** [init], with the interrupt flag of every processor. *)
Definition start (ifs : list bool) : machine := mk_machine 0 ((fun f => mk_cpu f [mk_act [] false]) <$> ifs).

(** An activation that came back from [lock] and has not stored into the word yet. *)
Definition holds (a : activation) : bool := bool_decide (IClear ∈ a_code a) && negb (bool_decide (IXchg ∈ a_code a)).

(** An activation that must not be interrupted: it holds the lock or is about to. *)
Definition critical (a : activation) : bool :=
  holds a || match a_code a with IXchg :: _ => true | _ => false end.

Definition holders (c : processor) : nat := length (filter holds (c_stack c)).

(** ** The code that is left *)

Definition is_tail (P : mode -> list instr -> Prop) (a : activation) : Prop :=
  exists md body n, P md body /\ Forall neutral body /\ a_code a = drop n (session md body).

Lemma giving_eq md : exists e, giving md = IHolding :: IClear :: e /\ e = match md with Plain => [] | Irq => [ISti] | Irqsave => [IRestore] end.
Proof. destruct md; eauto. Qed.

(** Where an activation is: before the lock is taken, in the body, in front of the store, behind it. *)
Lemma tail_cases P a : is_tail P a -> exists md body, P md body /\ Forall neutral body /\
  (a_code a = taking md ++ body ++ giving md \/ a_code a = drop 1 (taking md) ++ body ++ giving md /\ md <> Plain \/
   a_code a = drop 2 (taking md) ++ body ++ giving md /\ md = Irqsave \/
   (exists k, a_code a = drop k body ++ giving md) \/
   a_code a = drop 1 (giving md) \/ a_code a = drop 2 (giving md) \/ a_code a = []).
Proof.
  intros (md & body & n & Hp & Hb & E). exists md, body. split; [exact Hp | split; [exact Hb|]]. unfold session in E.
  destruct (decide (n < length (taking md))%nat) as [L|L].
  - rewrite drop_app_le in E by lia. destruct md; cbn in L; destruct n as [|[|[|n]]]; try lia; auto using eq_refl; intuition discriminate.
  - rewrite drop_app_ge in E by lia. do 3 right. destruct (decide (n - length (taking md) <= length body)%nat) as [L2|L2].
    + left. exists (n - length (taking md))%nat. rewrite drop_app_le in E by lia. exact E.
    + right. rewrite drop_app_ge in E by lia. destruct (n - length (taking md) - length body)%nat as [|[|[|k]]] eqn:Ek; try lia; [tauto..|].
      right. right. rewrite E. apply skipn_all2. destruct md; cbn; lia.
Qed.

Section holding_code.
Implicit Types (k b : list instr) (fl : bool).

Lemma neutral_cases i : neutral i -> i = IOther \/ i = ICli \/ i = ISti.
Proof. destruct i; cbn; tauto. Qed.

Lemma holds_cons i k fl : i <> IXchg -> i <> IClear -> holds (mk_act (i :: k) fl) = holds (mk_act k fl).
Proof.
  intros H1 H2. unfold holds. cbn [a_code]. rewrite (bool_decide_ext (IClear ∈ i :: k) (IClear ∈ k)), (bool_decide_ext (IXchg ∈ i :: k) (IXchg ∈ k)); [reflexivity|..];
    rewrite elem_of_cons; intuition congruence.
Qed.

Lemma holds_xchg k fl : holds (mk_act (IXchg :: k) fl) = false.
Proof. unfold holds. cbn [a_code]. rewrite (bool_decide_eq_true_2 (IXchg ∈ IXchg :: k)) by left. apply andb_false_r. Qed.

(** In the body and in front of [unlock] the lock is held. *)
Lemma holds_body b md fl : Forall neutral b -> holds (mk_act (b ++ giving md) fl) = true.
Proof.
  induction 1 as [|i b Hi _ IH]; [destruct md; reflexivity|]. change ((i :: b) ++ giving md) with (i :: b ++ giving md).
  rewrite holds_cons; [exact IH|..]; destruct (neutral_cases i Hi) as [->|[->| ->]]; discriminate.
Qed.
End holding_code.

Ltac tail_split H :=
  let md := fresh "md" in let body := fresh "body" in let Hn := fresh "Hn" in let j := fresh "j" in
  apply tail_cases in H as (md & body & ? & Hn & H);
  destruct H as [H|[[H ?]|[[H ?]|[[j H]|H]]]];
  [destruct md; cbn [taking lock lock_irq lock_irqsave drop app] in H
  |destruct md; [congruence|..]; cbn [taking lock lock_irq lock_irqsave drop app] in H
  |subst md; cbn [taking lock lock_irq lock_irqsave drop app] in H
  |apply (Forall_drop _ j) in Hn; let q := fresh "q" in let Hq := fresh "Hq" in remember (drop j body) as q eqn:Hq in Hn, H; destruct Hn as [|? ? Hn0 Hn]; [destruct md; cbn in H|destruct (neutral_cases _ Hn0) as [->|[->| ->]]; cbn [app] in H]
  |destruct md; cbn in H; repeat match type of H with _ \/ _ => destruct H as [H|H] end].

Lemma exec_tail P l f a l' f' a' : is_tail P a -> exec l f a = Some (l', f', a') -> is_tail P a'.
Proof.
  intros (md & body & n & Hp & Hb & E) H. unfold exec in H.
  assert (Hd : forall i k, a_code a = i :: k -> k = drop (S n) (session md body)).
  { intros i k Hk. rewrite E in Hk. rewrite <- Nat.add_1_r, <- drop_drop, Hk. reflexivity. }
  destruct (a_code a) as [|i k] eqn:Ek; [discriminate|].
  assert (Hk := Hd i k eq_refl).
  assert (T : forall q n', q = drop n' (session md body) -> is_tail P (mk_act q (a_flags a)) /\ forall fl, is_tail P (mk_act q fl)).
  { intros q n' Hq. split; [|intros fl]; exists md, body, n'; auto. }
  destruct (T (i :: k) n E) as [T0 _]. destruct (T k (S n) Hk) as [T1 T1']. destruct (T (drop 1 k) (S n + 1)%nat ltac:(rewrite <- drop_drop, <- Hk; reflexivity)) as [T2 _].
  destruct i; injection H as <- <- <-; try case_match; auto.
Qed.

(** ** Counting the holders *)

Lemma sum_insert {A} (f : A -> nat) (l : list A) i x y :
  l !! i = Some x -> (sum_list_with f (<[i := y]> l) + f x = sum_list_with f l + f y)%nat.
Proof.
  revert i. induction l as [|z l IH]; intros [|i] H; try discriminate.
  - injection H as ->. cbn. lia.
  - specialize (IH i H). change (<[S i := y]> (z :: l)) with (z :: <[i := y]> l). cbn [sum_list_with]. lia.
Qed.

Lemma sum_two {A} (f : A -> nat) (l : list A) i j x y :
  i <> j -> l !! i = Some x -> l !! j = Some y -> (f x + f y <= sum_list_with f l)%nat.
Proof.
  revert i j. induction l as [|z l IH]; intros [|i] [|j] Hne Hi Hj; try discriminate; try lia.
  - injection Hi as ->. cbn in Hj; apply list_elem_of_lookup_2 in Hj. pose proof (sum_list_with_in y f l Hj). cbn. lia.
  - injection Hj as ->. cbn in Hi; apply list_elem_of_lookup_2 in Hi. pose proof (sum_list_with_in x f l Hi). cbn. lia.
  - specialize (IH i j ltac:(lia) Hi Hj). cbn. lia.
Qed.

(** The word says how many activations hold the lock. *)
Record lock_inv (P : mode -> list instr -> Prop) (m : machine) : Prop := {
  li_locked : m_locked m = 0 \/ m_locked m = 1;
  li_count : Z.of_nat (sum_list_with holders (m_cpus m)) = m_locked m;
  li_code : forall i c, m_cpus m !! i = Some c -> Forall (is_tail P) (c_stack c)
}.

Definition held (a : activation) : nat := if holds a then 1 else 0.

Lemma holders_cons f a r : holders (mk_cpu f (a :: r)) = (held a + length (filter holds r))%nat.
Proof. unfold holders, held. cbn [c_stack]. rewrite filter_cons. case_decide as H; destruct (holds a); cbn in *; try reflexivity; tauto. Qed.

Ltac spin := unfold held; repeat rewrite holds_cons by discriminate; rewrite ?holds_xchg, ?(holds_body _ Plain), ?(holds_body _ Irq), ?(holds_body _ Irqsave), ?holds_body by assumption.

(** An instruction changes the word by what it changes in the activation. *)
Lemma exec_count P l f a l' f' a' : is_tail P a -> l = 0 \/ l = 1 -> Z.of_nat (held a) <= l -> exec l f a = Some (l', f', a') ->
  (l' = 0 \/ l' = 1) /\ l' + Z.of_nat (held a) = l + Z.of_nat (held a').
Proof.
  intros Ht Hl Hh He. destruct a as [k fl]. unfold exec in He. cbn [a_code a_flags] in He. tail_split Ht; cbn [a_code] in Ht; subst k;
    try discriminate; cbn [app] in He; destruct Hl as [-> | ->]; injection He as <- <- <-; revert Hh; spin; cbn [Z.eqb holding Pos.eqb app drop]; spin; vm_compute; intuition congruence.
Qed.

Lemma lookup_set_cpu m i c j d : m_cpus m !! i = Some c -> set_cpu m i d !! j = if decide (j = i) then Some d else m_cpus m !! j.
Proof.
  intros Hi. unfold set_cpu. case_decide as E.
  - subst j. apply list_lookup_insert_eq. apply lookup_lt_Some in Hi. exact Hi.
  - apply list_lookup_insert_ne. congruence.
Qed.

Lemma replace_cpu_inv P m i c c' l' : lock_inv P m -> m_cpus m !! i = Some c -> l' = 0 \/ l' = 1 ->
  l' + Z.of_nat (holders c) = m_locked m + Z.of_nat (holders c') -> Forall (is_tail P) (c_stack c') ->
  lock_inv P (mk_machine l' (set_cpu m i c')).
Proof.
  intros [L C T] Hi Hl Hc Ht. constructor; cbn [m_locked m_cpus]; [exact Hl| |].
  - unfold set_cpu. pose proof (sum_insert holders (m_cpus m) i c c' Hi). lia.
  - intros j d. rewrite (lookup_set_cpu m i c j c' Hi). case_decide; [congruence|apply T].
Qed.

Lemma tail_nil P md fl : P md [] -> is_tail P (mk_act [] fl).
Proof. intros H. exists md, [], 9%nat. split; [exact H | split; [constructor|]]. destruct md; reflexivity. Qed.

Lemma step_lock_inv P m l m' : (exists md, P md []) -> lock_inv P m -> step P m l m' -> lock_inv P m'.
Proof.
  intros [md0 Hp] I H. assert (T := li_code _ _ I). assert (L := li_locked _ _ I).
  destruct H as [i c a r md body Hi Hs Ha Hm Hb|i c a r l f a' Hi Hs He|i c Hi Hf|i c a b r Hi Hs Ha];
    eapply replace_cpu_inv; eauto; specialize (T i c Hi); destruct c as [fl st]; try (cbn in Hs; subst st);
    try (apply Forall_cons in T as [Ta T]); cbn [c_stack c_if] in *.
  - rewrite !holders_cons. destruct a as [k fa]. cbn in Ha. subst k. destruct md; unfold session; cbn [taking lock lock_irq lock_irqsave app]; spin; reflexivity.
  - constructor; [|exact T]. exists md, body, 0%nat. auto.
  - apply list_elem_of_lookup_2 in Hi as Hin. apply (sum_list_with_in _ holders) in Hin.
    pose proof (li_count _ _ I) as C.
    rewrite holders_cons in Hin. eapply exec_count in He as [H1 _]; eauto. lia.
  - apply list_elem_of_lookup_2 in Hi as Hin. apply (sum_list_with_in _ holders) in Hin. pose proof (li_count _ _ I) as C.
    rewrite holders_cons in Hin |- *. rewrite holders_cons. eapply exec_count in He as [_ H1]; eauto; lia.
  - constructor; [|exact T]. eapply exec_tail; eauto.
  - constructor; [|exact T]. eapply tail_nil; eauto.
  - rewrite (holders_cons fl a). unfold held, holds. rewrite Ha. reflexivity.
  - exact T.
Qed.

(** Any use of the lock, and the uses that keep interrupts out: taken with interrupts off, and nothing
    in the section turns them on. *)
Definition any_mode (md : mode) (body : list instr) : Prop := True.
Definition irqs_off (md : mode) (body : list instr) : Prop := md <> Plain /\ ISti ∉ body.

Lemma irqs_off_nil : exists md, irqs_off md [].
Proof. exists Irq. split; [discriminate | apply not_elem_of_nil]. Qed.

Lemma start_lock_inv P ifs : (exists md, P md []) -> lock_inv P (start ifs).
Proof.
  intros [md Hp]. constructor; cbn [m_locked m_cpus start]; [tauto| |].
  - induction ifs; [reflexivity|]. rewrite fmap_cons. cbn [sum_list_with]. rewrite <- IHifs. reflexivity.
  - intros i c H. apply list_lookup_fmap_Some in H as (f & -> & _). repeat constructor. eapply tail_nil; eauto.
Qed.

Lemma steps_lock_inv P ifs t m : (exists md, P md []) -> steps P (start ifs) t m -> lock_inv P m.
Proof.
  intros Hp H. remember (start ifs) as m0. induction H as [|t l m1 m2 H IH Hs]; subst.
  - apply start_lock_inv, Hp.
  - eapply step_lock_inv; eauto.
Qed.

Lemma filter_two (l : list activation) p q a b :
  l !! p = Some a -> l !! q = Some b -> holds a = true -> holds b = true -> p <> q -> (2 <= length (filter holds l))%nat.
Proof.
  intros Hp Hq Ha Hb Hne.
  assert (G : forall l p q a b, l !! p = Some a -> l !! q = Some b -> holds a = true -> holds b = true -> (p < q)%nat -> (2 <= length (filter holds l))%nat).
  { clear. intros l p q a b Hp Hq Ha Hb Hlt. rewrite <- (take_drop_middle l p a Hp), filter_app, filter_cons, length_app.
    case_decide as D; [|rewrite Ha in D; cbn in D; tauto]. cbn [length].
    assert (Hin : b ∈ filter holds (drop (S p) l)).
    { apply list_elem_of_filter. rewrite Hb. split; [exact I|]. apply list_elem_of_lookup. exists (q - S p)%nat. rewrite lookup_drop. rewrite <- Hq. f_equal. lia. }
    apply list_elem_of_lookup_1 in Hin as [n Hn]. apply lookup_lt_Some in Hn. lia. }
  destruct (Nat.lt_total p q) as [Hlt|[He|Hlt]]; [|congruence|]; eauto.
Qed.

Lemma holder_counts c a : a ∈ c_stack c -> holds a = true -> (1 <= holders c)%nat.
Proof.
  intros Hin Ha. assert (H : a ∈ filter holds (c_stack c)) by (apply list_elem_of_filter; rewrite Ha; split; [exact I|exact Hin]).
  apply list_elem_of_lookup_1 in H as [n Hn]. apply lookup_lt_Some in Hn. unfold holders. lia.
Qed.

Lemma holder_locked P m i c a : lock_inv P m -> m_cpus m !! i = Some c -> a ∈ c_stack c -> holds a = true -> m_locked m = 1.
Proof.
  intros I Hi Hin Ha. pose proof (holder_counts c a Hin Ha). apply list_elem_of_lookup_2 in Hi.
  apply (sum_list_with_in _ holders) in Hi. pose proof (li_count _ _ I). destruct (li_locked _ _ I); lia.
Qed.

Lemma locked_holder P m : lock_inv P m -> m_locked m = 1 -> exists i c a, m_cpus m !! i = Some c /\ a ∈ c_stack c /\ holds a = true.
Proof.
  intros I Hl. pose proof (li_count _ _ I) as C. rewrite Hl in C. clear I Hl. induction (m_cpus m) as [|d l IH]; [cbn in C; lia|].
  destruct (filter holds (c_stack d)) as [|a k] eqn:E.
  - destruct IH as (i & c & b & Hi & Hb); [cbn [sum_list_with] in C; unfold holders at 1 in C; rewrite E in C; exact C|].
    exists (S i), c, b. auto.
  - exists 0%nat, d, a. assert (Hin : a ∈ filter holds (c_stack d)) by (rewrite E; left).
    apply list_elem_of_filter in Hin as [Ha Hin]. split; [reflexivity|]. split; [exact Hin|]. destruct (holds a); [reflexivity|destruct Ha].
Qed.

Lemma holder_unique P m i c p a j d q b : lock_inv P m ->
  m_cpus m !! i = Some c -> c_stack c !! p = Some a -> holds a = true ->
  m_cpus m !! j = Some d -> c_stack d !! q = Some b -> holds b = true -> i = j /\ p = q.
Proof.
  intros I Hi Hp Ha Hj Hq Hb. pose proof (li_count _ _ I) as C. assert (L : m_locked m <= 1) by (destruct (li_locked _ _ I); lia).
  pose proof (holder_counts c a (list_elem_of_lookup_2 _ _ _ Hp) Ha). pose proof (holder_counts d b (list_elem_of_lookup_2 _ _ _ Hq) Hb).
  assert (i = j) as <-.
  { destruct (decide (i = j)) as [|Hne]; [assumption|]. pose proof (sum_two holders _ i j c d Hne Hi Hj). lia. }
  split; [reflexivity|]. replace d with c in * by congruence. destruct (decide (p = q)) as [|Hne]; [assumption|].
  pose proof (filter_two _ p q a b Hp Hq Ha Hb Hne). apply list_elem_of_lookup_2, (sum_list_with_in _ holders) in Hi. unfold holders at 1 in Hi. lia.
Qed.

(** ** Interrupts stay out of critical sections *)

Definition shielded (c : processor) : Prop :=
  match c_stack c with
  | [] => True
  | a :: r => (critical a = true -> c_if c = false) /\ Forall (fun b => critical b = false) r
  end.

Lemma in_body (body q : list instr) i j : i :: q = drop j body -> i ∈ body.
Proof. intros H. rewrite <- (take_drop j body), <- H. apply elem_of_app. right. left. Qed.

Lemma critical_code i k fl : critical (mk_act (i :: k) fl) = holds (mk_act (i :: k) fl) || bool_decide (i = IXchg).
Proof. unfold critical. cbn [a_code]. destruct i; reflexivity. Qed.

Lemma exec_shielded l f a l' f' a' : is_tail irqs_off a -> (critical a = true -> f = false) ->
  exec l f a = Some (l', f', a') -> critical a' = true -> f' = false.
Proof.
  intros Ht Hc He. destruct a as [k fl]. unfold exec in He. cbn [a_code a_flags] in He.
  tail_split Ht; cbn [a_code] in Ht; subst k; try discriminate; try (exfalso; firstorder congruence);
    cbn [app] in He; injection He as <- <- <-; auto; try (intros _; apply Hc; rewrite critical_code; spin; reflexivity);
    try (vm_compute; discriminate); try (destruct (holding l); vm_compute; discriminate).
  all: try (exfalso; match goal with H : irqs_off _ _ |- _ => apply (proj2 H); eapply in_body; eassumption end).
  rewrite critical_code. spin. discriminate.
Qed.

Lemma step_shielded m l m' : lock_inv irqs_off m -> (forall i c, m_cpus m !! i = Some c -> shielded c) -> step irqs_off m l m' ->
  forall i c, m_cpus m' !! i = Some c -> shielded c.
Proof.
  intros Hinv S H. assert (T := li_code _ _ Hinv).
  assert (R : forall i c d l0, m_cpus m !! i = Some c -> (shielded c -> Forall (is_tail irqs_off) (c_stack c) -> shielded d) ->
    forall j e, m_cpus (mk_machine l0 (set_cpu m i d)) !! j = Some e -> shielded e).
  { intros i c d l0 Hi Hd j e. cbn [m_cpus]. rewrite (lookup_set_cpu m i c j d Hi). case_decide as E; intros He; [|eapply S, He].
    injection He as <-. eauto. }
  destruct H as [i c a r md body Hi Hs Ha Hm Hb|i c a r l f a' Hi Hs He|i c Hi Hf|i c a b r Hi Hs Ha];
    apply (R i c); auto; unfold shielded; cbn [c_stack c_if]; rewrite ?Hs; intros [Hc Hr] Ht || intros Hc Ht.
  - split; [|exact Hr]. destruct Hm as [Hm _]. destruct md; [congruence|..]; unfold session; cbn [taking lock lock_irq lock_irqsave app]; rewrite critical_code; spin; discriminate.
  - split; [|exact Hr]. apply Forall_cons in Ht as [Ha _]. eapply exec_shielded; eauto.
  - split; [reflexivity|]. destruct (c_stack c) as [|a r]; [constructor|]. destruct Hc as [Hc Hr]. constructor; [|exact Hr].
    destruct (critical a); [|reflexivity]. rewrite Hc in Hf; congruence.
  - apply Forall_cons in Hr as [Hb Hr]. split; [congruence|exact Hr].
Qed.

Lemma steps_shielded ifs t m : steps irqs_off (start ifs) t m -> forall i c, m_cpus m !! i = Some c -> shielded c.
Proof.
  intros H. remember (start ifs) as m0. induction H as [|t l m1 m2 H IH Hs]; subst.
  - intros i c Hc. apply list_lookup_fmap_Some in Hc as (f & -> & _). split; [discriminate|constructor].
  - eapply step_shielded; eauto. eapply steps_lock_inv; eauto. apply irqs_off_nil.
Qed.

(** A critical activation is the one that runs, with interrupts off. *)
Lemma critical_on_top c a : shielded c -> a ∈ c_stack c -> critical a = true -> exists r, c_stack c = a :: r /\ c_if c = false.
Proof.
  unfold shielded. intros Hs Hin Ha. destruct (c_stack c) as [|b r]; [inversion Hin|]. destruct Hs as [Hb Hr].
  apply elem_of_cons in Hin as [->|Hin]; [eauto|]. rewrite Forall_forall in Hr. rewrite (Hr a Hin) in Ha. discriminate.
Qed.

Lemma steps_app P m t1 m1 t2 m2 : steps P m t1 m1 -> steps P m1 t2 m2 -> steps P m (t1 ++ t2) m2.
Proof.
  intros H1 H2. induction H2 as [|t l m3 m4 H2 IH Hs]; [rewrite app_nil_r; exact H1|].
  rewrite app_assoc. econstructor; eauto.
Qed.

Lemma holds_critical a : holds a = true -> critical a = true.
Proof. unfold critical. intros ->. reflexivity. Qed.

Lemma xchg_critical a k : a_code a = IXchg :: k -> critical a = true.
Proof. unfold critical. intros ->. apply orb_true_r. Qed.

Lemma tail_at_holding P a k : is_tail P a -> a_code a = IHolding :: k -> holds a = true.
Proof.
  intros Ht E. destruct a as [k0 f0]. cbn [a_code] in E. tail_split Ht; cbn [a_code] in Ht; subst k0; try discriminate E; reflexivity.
Qed.

(** Nothing but its own instructions touches a processor that holds the lock or waits for it. *)
Lemma critical_undisturbed P m i c a r l m' : m_cpus m !! i = Some c -> c_stack c = a :: r -> c_if c = false -> critical a = true ->
  step P m l m' -> l = Exec i \/ m_cpus m' !! i = Some c.
Proof.
  intros Hi Hs Hf Ha Hst. destruct (decide (l = Exec i)) as [|Hne]; [tauto|]. right.
  destruct Hst as [n e b r' md body Hn Hr Hb _ _|n e b r' l f b' Hn Hr He|n e Hn Hfl|n e b b' r' Hn Hr Hb]; cbn [m_cpus];
    rewrite (lookup_set_cpu m n e i _ Hn); (case_decide as E; [subst n; exfalso|exact Hi]); try congruence;
    replace e with c in * by congruence; rewrite Hs in Hr; injection Hr as <- Hr; unfold critical, holds in Ha; rewrite Hb in Ha; discriminate.
Qed.

(** ** The steps as a function *)

Definition next (m : machine) (l : label) : option machine :=
  match l with
  | Start i md body =>
      c ← m_cpus m !! i;
      match c_stack c with
      | mk_act [] fl :: r => Some (mk_machine (m_locked m) (set_cpu m i (mk_cpu (c_if c) (mk_act (session md body) fl :: r))))
      | _ => None
      end
  | Exec i =>
      c ← m_cpus m !! i;
      match c_stack c with
      | a :: r => '(l', f, a') ← exec (m_locked m) (c_if c) a; Some (mk_machine l' (set_cpu m i (mk_cpu f (a' :: r))))
      | [] => None
      end
  | Interrupt i =>
      c ← m_cpus m !! i;
      if c_if c then Some (mk_machine (m_locked m) (set_cpu m i (mk_cpu false (mk_act [] false :: c_stack c)))) else None
  | Return i =>
      c ← m_cpus m !! i;
      match c_stack c with
      | mk_act [] _ :: b :: r => Some (mk_machine (m_locked m) (set_cpu m i (mk_cpu true (b :: r))))
      | _ => None
      end
  end.

Fixpoint play (m : machine) (t : list label) : option machine :=
  match t with
  | [] => Some m
  | l :: t' => m1 ← next m l; play m1 t'
  end.

Definition uses (P : mode -> list instr -> Prop) (l : label) : Prop := match l with Start _ md body => P md body /\ Forall neutral body | _ => True end.

Lemma next_step P m l m' : uses P l -> next m l = Some m' -> step P m l m'.
Proof.
  intros Hu H. destruct l as [i md body|i|i|i]; cbn [next] in H; apply bind_Some in H as (c & Hi & H).
  - destruct (c_stack c) as [|[[|] fl] r] eqn:Hs; try discriminate. injection H as <-. destruct Hu. eapply (step_start P m i c (mk_act [] fl)); eauto.
  - destruct (c_stack c) as [|a r] eqn:Hs; [discriminate|]. apply bind_Some in H as ([[l' f] a'] & He & H). injection H as <-. econstructor; eauto.
  - destruct (c_if c) eqn:Hf; [|discriminate]. injection H as <-. constructor; assumption.
  - destruct (c_stack c) as [|[[|] fl] [|b r]] eqn:Hs; try discriminate. injection H as <-. econstructor; eauto.
Qed.

Lemma play_steps P m t m' : Forall (uses P) t -> play m t = Some m' -> steps P m t m'.
Proof.
  revert m. induction t as [|l t IH]; intros m Hu H.
  - injection H as <-. constructor.
  - apply Forall_cons in Hu as [Hl Hu]. apply bind_Some in H as (m1 & H1 & H).
    apply (steps_app P m [l] m1 t m'); [|auto]. apply (steps_snoc _ _ [] l m); [constructor|]. apply next_step; assumption.
Qed.

(** ** Theorems *)

(** C33: [spinlock_t] excludes: however the processors and their interrupt handlers use the
    lock and however their instructions interleave, at most one activation of the whole
    machine is between [lock] and [unlock]; the word is 1 exactly when there is one; and
    [unlock] always finds the lock held, so its complaint is never printed. *)
Theorem lock_excludes ifs t m : steps any_mode (start ifs) t m ->
  (m_locked m = 1 <-> exists i c a, m_cpus m !! i = Some c /\ a ∈ c_stack c /\ holds a = true) /\
  (forall i c p a j d q b,
    m_cpus m !! i = Some c -> c_stack c !! p = Some a -> holds a = true ->
    m_cpus m !! j = Some d -> c_stack d !! q = Some b -> holds b = true -> i = j /\ p = q) /\
  (forall i c a k, m_cpus m !! i = Some c -> a ∈ c_stack c -> a_code a = IHolding :: k -> holding (m_locked m) = true).
Proof.
  intros H. assert (I := steps_lock_inv any_mode ifs t m (ex_intro _ Plain Logic.I) H). split; [split|split].
  - apply locked_holder with (P := any_mode), I.
  - intros (i & c & a & Hi & Hin & Ha). eapply holder_locked; eauto.
  - intros. eapply (holder_unique any_mode m i c p a j d q b); eauto.
  - intros i c a k Hi Hin Ha. assert (Ht := li_code _ _ I i c Hi). rewrite Forall_forall in Ht. specialize (Ht a Hin).
    assert (Hh : holds a = true) by (eapply tail_at_holding; eauto).
    unfold holding. rewrite (holder_locked any_mode m i c a) by assumption. reflexivity.
Qed.

(** C34: With interrupts off ([lock_irq], [lock_irqsave], [locker_t], and nothing in the section that turns
    them on) a processor never waits for itself: whoever holds the lock or spins for it is what its
    processor runs, with interrupts off, and no step of the machine but its own instructions
    touches that processor; and where a processor spins and the lock is taken, the holder is what
    another processor runs.  With [lock] alone, or with the [unlock_irq] of an inner lock, this fails
    ([plain_lock_deadlocks], [inner_unlock_irq_lets_handlers_in]). *)
Theorem never_waits_for_itself ifs t m i c a : steps irqs_off (start ifs) t m ->
  m_cpus m !! i = Some c -> a ∈ c_stack c -> holds a = true \/ (exists k, a_code a = IXchg :: k) ->
  (exists r, c_stack c = a :: r /\ c_if c = false) /\
  (forall l m', step irqs_off m l m' -> l = Exec i \/ m_cpus m' !! i = Some c) /\
  (m_locked m = 1 -> holds a = false ->
    exists j d b r, j <> i /\ m_cpus m !! j = Some d /\ c_stack d = b :: r /\ c_if d = false /\ holds b = true).
Proof.
  intros H Hi Hin Ha. assert (I := steps_lock_inv irqs_off ifs t m irqs_off_nil H). assert (S := steps_shielded ifs t m H).
  assert (Hc : critical a = true) by (destruct Ha as [Ha|[k Ha]]; [apply holds_critical, Ha | eapply xchg_critical, Ha]).
  destruct (critical_on_top c a (S i c Hi) Hin Hc) as (r & Hs & Hf). split; [eauto | split; [intros; eapply critical_undisturbed; eauto|]].
  intros Hl Hn. destruct (locked_holder _ m I Hl) as (j & d & b & Hj & Hb & Hbh).
  destruct (critical_on_top d b (S j d Hj) Hb (holds_critical b Hbh)) as (rb & Hsb & Hfb).
  exists j, d, b, rb. split; [|auto]. intros ->. replace d with c in * by congruence. rewrite Hs in Hsb. injection Hsb as -> _. congruence.
Qed.

(** [lock] alone does not keep handlers out: a handler that wants the lock its own
    processor holds spins for ever, whatever the other processors do. *)
Theorem plain_lock_deadlocks P m t m' i c a b r k : (exists md, P md []) -> lock_inv P m -> steps P m t m' ->
  m_cpus m !! i = Some c -> c_stack c = a :: b :: r -> c_if c = false -> a_code a = IXchg :: k -> holds b = true ->
  m_locked m' = 1 /\ m_cpus m' !! i = Some c.
Proof.
  intros Hp I0 H Hi Hs Hf Ha Hb.
  assert (lock_inv P m' /\ m_cpus m' !! i = Some c) as [I Hc].
  { induction H as [|t l m1 m2 H IH Hst]; [auto|]. destruct IH as [I1 Hi1].
    split; [eapply step_lock_inv; eauto|]. assert (L : m_locked m1 = 1) by (eapply (holder_locked P m1 i c b); eauto; rewrite Hs; right; left).
    destruct Hst as [n e x y md body Hn Hr Hx _ _|n e x y l f x' Hn Hr He|n e Hn Hfl|n e x x' y Hn Hr Hx]; cbn [m_cpus];
      rewrite (lookup_set_cpu m1 n e i _ Hn); (case_decide as E; [subst n|exact Hi1]); replace e with c in * by congruence;
      try congruence; rewrite Hs in Hr; injection Hr as <- <-; try congruence.
    unfold exec in He. rewrite Ha, L in He. injection He as <- <- <-. destruct c as [fc sc], a as [ka fa]. cbn in *. congruence. }
  split; [|exact Hc]. eapply (holder_locked P m' i c b); eauto. rewrite Hs. right. left.
Qed.

(** A processor whose thread holds the lock by [lock] alone and that took an interrupt. *)
Definition deadlocked : machine :=
  mk_machine 1 [mk_cpu false [mk_act (session Plain []) false; mk_act unlock false]].

Lemma deadlock_reached : steps any_mode (start [true]) [Start 0 Plain []; Exec 0; Interrupt 0; Start 0 Plain []] deadlocked.
Proof. apply play_steps; [repeat constructor|reflexivity]. Qed.

(** An inner [lock_irq] with its [unlock_irq] turns interrupts on inside the section of the outer
    lock, and a handler of the same processor can wait for it for ever. *)
Lemma inner_unlock_irq_lets_handlers_in : exists t c a b k,
  steps any_mode (start [true]) t (mk_machine 1 [c]) /\ c_stack c = [a; b] /\ c_if c = false /\ a_code a = IXchg :: k /\ holds b = true.
Proof.
  exists [Start 0 Irqsave [ICli; IOther; ISti]; Exec 0; Exec 0; Exec 0; Exec 0; Exec 0; Exec 0; Interrupt 0; Start 0 Irqsave []; Exec 0; Exec 0].
  do 4 eexists. split; [apply play_steps; [repeat constructor|reflexivity] | repeat split].
Qed.

(** A whole session, alone: [locker_t] gives back the interrupt flag it found, [unlock_irq]
    turns interrupts on. *)
Fixpoint run_session (fuel : nat) (l : Z) (f : bool) (a : activation) : option (Z * bool) :=
  match fuel with
  | O => None
  | S n => match exec l f a with
           | None => Some (l, f)
           | Some (l', f', a') => run_session n l' f' a'
           end
  end.

Lemma run_body n fl md : forall f k, run_session (n + k) 1 f (mk_act (replicate n IOther ++ giving md) fl) = run_session k 1 f (mk_act (giving md) fl).
Proof. induction n as [|n IH]; intros f k; [reflexivity|]. apply IH. Qed.

Lemma run_more k : forall n l f a r, run_session k l f a = Some r -> (k <= n)%nat -> run_session n l f a = Some r.
Proof.
  induction k as [|k IH]; intros n l f a r H L; [discriminate H|]. destruct n as [|n]; [lia|]. cbn [run_session] in H |- *.
  destruct (exec l f a) as [[[l' f'] a']|]; [|exact H]. apply (IH n _ _ _ _ H). lia.
Qed.

Theorem session_restores_flags n f fl :
  run_session (n + 9) 0 f (mk_act (session Irqsave (replicate n IOther)) fl) = Some (0, f) /\
  run_session (n + 9) 0 f (mk_act (session Plain (replicate n IOther)) fl) = Some (0, f) /\
  run_session (n + 9) 0 f (mk_act (session Irq (replicate n IOther)) fl) = Some (0, true).
Proof.
  repeat split; [apply (run_more (S (S (S (n + 4)))))|apply (run_more (S (n + 4)))|apply (run_more (S (S (n + 4))))]; try lia.
  - apply (run_body n f Irqsave false 4).
  - apply (run_body n fl Plain f 4).
  - apply (run_body n fl Irq false 4).
Qed.

(** Witnesses: two processors, the second of which spins while the first holds the lock and runs its section. *)
Definition contended : machine :=
  mk_machine 1 [mk_cpu false [mk_act (IOther :: unlock_irqrestore) true]; mk_cpu false [mk_act (lock ++ unlock_irqrestore) true]].

Definition contention : list label := [Start 0 Irqsave [IOther; IOther]; Exec 0; Exec 0; Exec 0; Exec 0; Start 1 Irqsave []; Exec 1; Exec 1; Exec 1].

Lemma contention_reached P : P Irqsave [IOther; IOther] -> P Irqsave [] -> steps P (start [true; true]) contention contended.
Proof. intros H1 H2. apply play_steps; [|reflexivity]. repeat constructor; assumption. Qed.

Lemma lock_excludes_witness : exists i c a, m_cpus contended !! i = Some c /\ a ∈ c_stack c /\ holds a = true.
Proof. apply (lock_excludes [true; true] contention contended (contention_reached any_mode I I)). reflexivity. Defined.

Lemma contention_irqs_off : steps irqs_off (start [true; true]) contention contended.
Proof. apply contention_reached; (split; [discriminate|]); intros Q; apply list_elem_of_In in Q; cbn in Q; intuition discriminate. Qed.

Lemma never_waits_for_itself_witness : exists j d b r, j <> 1%nat /\ m_cpus contended !! j = Some d /\ c_stack d = b :: r /\ c_if d = false /\ holds b = true.
Proof.
  apply (never_waits_for_itself [true; true] contention contended 1
    (mk_cpu false [mk_act (lock ++ unlock_irqrestore) true]) (mk_act (lock ++ unlock_irqrestore) true) contention_irqs_off);
    [reflexivity | left | right; exists unlock_irqrestore; reflexivity | reflexivity | reflexivity].
Defined.

Lemma plain_lock_deadlocks_witness m' t : steps any_mode deadlocked t m' -> m_locked m' = 1.
Proof.
  intros H. assert (Hi := steps_lock_inv any_mode [true] _ _ (ex_intro _ Plain I) deadlock_reached).
  eapply (plain_lock_deadlocks any_mode deadlocked t m' 0); eauto; try reflexivity. exists Plain. exact I.
Qed.
