(* ===== verification/FsDisk.v ===== *)
(** * The disk side of the file system (src/src/fs.cc, inode.cc)

    A block device is a function from block numbers to blocks of [BSIZE] bytes:
    what [block_dev_t::read] delivers and [block_dev_t::write] stores.  Buffers are
    filled by a read, changed, written back and released before anything else
    touches the same block, so a read is a copy here and a write replaces the
    block. *)
From Stdlib Require Import ZArith ZifyBool Lia.
From stdpp Require Import base option list gmap.
From S2P Require Import Prelude.

Definition BSIZE : Z := 512.
Definition NDIRECT : Z := 12.
Definition NINDIRECT : Z := BSIZE / 4.
Definition MAX_FILE_SIZE : Z := NDIRECT + NINDIRECT.
Definition DISK_INODE_SIZE : Z := 64.

Definition disk : Type := Z -> list Z.

Definition dset (d : disk) (lba : Z) (b : list Z) : disk := fun x => if x =? lba then b else d x.

(** A byte of a buffer, and [memcpy] into a buffer. *)
Definition bget (b : list Z) (i : Z) : Z := default 0 (zget b i).
Definition splice (b : list Z) (off : Z) (src : list Z) : list Z :=
  take (Z.to_nat off) b ++ src ++ drop (Z.to_nat off + length src) b.
Definition slice (b : list Z) (off n : Z) : list Z := take (Z.to_nat n) (drop (Z.to_nat off) b).

(** Words of a buffer, little endian. *)
Definition rd16 (b : list Z) (off : Z) : Z := le_value (slice b off 2).
Definition rd32 (b : list Z) (off : Z) : Z := le_value (slice b off 4).
Definition wr16 (b : list Z) (off v : Z) : list Z := splice b off (le_bytes 2 v).
Definition wr32 (b : list Z) (off v : Z) : list Z := splice b off (le_bytes 4 v).

(** ** Super block and bitmap *)

Record super_block := mk_sb {
  sb_size : Z;
  sb_nblocks : Z;
  sb_ninodes : Z
}.

Definition m_super_block_lba : Z := 1.
Definition m_inode_lba : Z := 2.

Definition read_super_block (d : disk) : super_block :=
  let b := d m_super_block_lba in mk_sb (rd32 b 0) (rd32 b 4) (rd32 b 8).

Definition inode_block (id : Z) : Z := m_inode_lba + id / (BSIZE / DISK_INODE_SIZE).
Definition inode_offset (id : Z) : Z := id mod (BSIZE / DISK_INODE_SIZE).

Definition bitmap_block (d : disk) : Z := u32 (3 + u32 (sb_ninodes (read_super_block d) * DISK_INODE_SIZE) / BSIZE).

Definition zero_block (d : disk) (block : Z) : disk := dset d block (repeat 0 (Z.to_nat BSIZE)).

(** [b->m_buffer[bit / 8] & (1 << (bit % 8))] *)
Definition bit_get (b : list Z) (bit : Z) : bool :=
  negb (Z.land (bget b (bit / 8)) (Z.shiftl 1 (bit mod 8)) =? 0).
Definition bit_set (b : list Z) (bit : Z) : list Z :=
  splice b (bit / 8) [Z.lor (bget b (bit / 8)) (Z.shiftl 1 (bit mod 8))].
Definition bit_clear (b : list Z) (bit : Z) : list Z :=
  splice b (bit / 8) [Z.land (bget b (bit / 8)) (Z.lxor 255 (Z.shiftl 1 (bit mod 8)))].

(** The inner loop of [alloc_block]: the first clear bit below [n]. *)
Fixpoint find_clear (fuel : nat) (b : list Z) (bit n : Z) : option Z :=
  match fuel with
  | O => None
  | S k => if bit <? n then if bit_get b bit then find_clear k b (bit + 1) n else Some bit else None
  end.

(** The outer loop, one bitmap block per round. *)
Fixpoint alloc_block_loop (fuel : nat) (d : disk) (nblocks i index : Z) : Z * disk :=
  match fuel with
  | O => (0, d)
  | S k =>
      if i <? nblocks then
        let b := d index in
        let n := if nblocks <? u32 (i + BSIZE * 8) then u32 (nblocks - i) else BSIZE * 8 in
        match find_clear (Z.to_nat (BSIZE * 8)) b 0 n with
        | Some bit => (i + bit, zero_block (dset d index (bit_set b bit)) (i + bit))
        | None => alloc_block_loop k d nblocks (u32 (i + BSIZE * 8)) (index + 1)
        end
      else (0, d)
  end.

(** Zero when no bit is clear.  The number of rounds is the number of bitmap blocks. *)
Definition alloc_block (d : disk) : Z * disk :=
  let sb := read_super_block d in
  let index := bitmap_block d in
  alloc_block_loop (Z.to_nat (sb_nblocks sb / (BSIZE * 8) + 1)) d (sb_nblocks sb) 0 index.

Definition free_block (d : disk) (lba : Z) : disk :=
  let index := bitmap_block d in
  let block := lba / (BSIZE * 8) in
  let offset := lba mod (BSIZE * 8) in
  let b := d (index + block) in
  if bit_get b offset then dset d (index + block) (bit_clear b offset) else d.

(** ** Inodes *)

Definition I_TYPE_DIR : Z := 1.
Definition I_TYPE_FILE : Z := 2.
Definition I_TYPE_DEV : Z := 3.

(** The in-memory inode: the identity and reference count of the cache slot, the
    count of its lock's semaphore, and the copy of the disk inode. *)
Record inode := mk_inode {
  i_dev : Z;
  i_inum : Z;
  i_ref : Z;
  i_valid : Z;
  i_sem : Z;
  i_type : Z;
  i_major : Z;
  i_minor : Z;
  i_nlinks : Z;
  i_size : Z;
  i_addrs : list Z
}.

Definition with_addrs (x : inode) (a : list Z) : inode :=
  mk_inode (i_dev x) (i_inum x) (i_ref x) (i_valid x) (i_sem x) (i_type x) (i_major x) (i_minor x) (i_nlinks x) (i_size x) a.
Definition with_size (x : inode) (n : Z) : inode :=
  mk_inode (i_dev x) (i_inum x) (i_ref x) (i_valid x) (i_sem x) (i_type x) (i_major x) (i_minor x) (i_nlinks x) n (i_addrs x).

Definition addr_at (x : inode) (i : Z) : Z := bget (i_addrs x) i.

(** The 64 bytes of a [disk_inode_t]. *)
Definition dinode_bytes (x : inode) : list Z :=
  le_bytes 2 (i_type x) ++ le_bytes 2 (i_major x) ++ le_bytes 2 (i_minor x) ++ le_bytes 2 (i_nlinks x) ++
  le_bytes 4 (i_size x) ++ mjoin (le_bytes 4 <$> i_addrs x).

Definition write_to_disk (d : disk) (x : inode) : disk :=
  let block := i_inum x / (BSIZE / DISK_INODE_SIZE) + 2 in
  let offset := i_inum x mod (BSIZE / DISK_INODE_SIZE) in
  dset d block (splice (d block) (offset * DISK_INODE_SIZE) (dinode_bytes x)).

Definition read_from_disk (d : disk) (x : inode) (id : Z) : inode :=
  if i_valid x =? 0 then
    let b := d (inode_block id) in
    let o := inode_offset id * DISK_INODE_SIZE in
    mk_inode (i_dev x) (i_inum x) (i_ref x) 1 (i_sem x) (rd16 b o) (rd16 b (o + 2)) (rd16 b (o + 4)) (rd16 b (o + 6))
      (rd32 b (o + 8)) (map (fun k => rd32 b (o + 12 + 4 * k)) [0; 1; 2; 3; 4; 5; 6; 7; 8; 9; 10; 11; 12])
  else x.

(** [block_map]: the block that holds block number [block] of the file, allocated
    if need be. *)
Definition block_map (d : disk) (x : inode) (block : Z) : outcome (Z * inode * disk) :=
  if block <? NDIRECT then
    let '(x, d) := if addr_at x block =? 0
                   then let '(lba, d) := alloc_block d in (with_addrs x (zset (i_addrs x) block lba), d)
                   else (x, d) in
    Done (addr_at x block, x, d)
  else
    let '(x, d) := if addr_at x NDIRECT =? 0
                   then let '(lba, d) := alloc_block d in (with_addrs x (zset (i_addrs x) NDIRECT lba), d)
                   else (x, d) in
    if NINDIRECT <=? block - NDIRECT then Fault
    else
      let ind := addr_at x NDIRECT in
      let b := d ind in
      let lba := rd32 b (4 * (block - NDIRECT)) in
      if lba =? 0 then
        let '(lba, d) := alloc_block d in
        Done (lba, x, dset d ind (wr32 b (4 * (block - NDIRECT)) lba))
      else Done (lba, x, d).

Fixpoint read_loop (fuel : nat) (d : disk) (x : inode) (offset left : Z) : outcome (list Z * inode * disk) :=
  match fuel with
  | O => Done ([], x, d)
  | S k =>
      if 0 <? left then
        let! r := block_map d x (offset / BSIZE) in
        let '(lba, x, d) := r in
        let nbyte := Z.min (BSIZE - offset mod BSIZE) left in
        let bytes := slice (d lba) (offset mod BSIZE) nbyte in
        let! t := read_loop k d x (u32 (offset + nbyte)) (left - nbyte) in
        let '(rest, x, d) := t in
        Done (bytes ++ rest, x, d)
      else Done ([], x, d)
  end.

Fixpoint write_loop (fuel : nat) (d : disk) (x : inode) (offset : Z) (src : list Z) : outcome (inode * disk) :=
  match fuel with
  | O => Done (x, d)
  | S k =>
      if 0 <? zlen src then
        let! r := block_map d x (offset / BSIZE) in
        let '(lba, x, d) := r in
        let nbyte := Z.min (BSIZE - offset mod BSIZE) (zlen src) in
        let d := dset d lba (splice (d lba) (offset mod BSIZE) (take (Z.to_nat nbyte) src)) in
        write_loop k d x (u32 (offset + nbyte)) (drop (Z.to_nat nbyte) src)
      else Done (x, d)
  end.

(** Enough rounds for [n] bytes: each but the first moves a whole block. *)
Definition rounds (n : Z) : nat := Z.to_nat (n / BSIZE + 2).

Section Devices.
(** [os()->get_dev(major)]: the operations of a character device. *)
Context (dev_read : Z -> option (Z -> outcome (Z * list Z))) (dev_write : Z -> option (list Z -> outcome Z)).

(** The count read (or -1) and the bytes. *)
Definition read_inode (d : disk) (x : inode) (offset size : Z) : outcome (Z * list Z * inode * disk) :=
  if i_type x =? I_TYPE_DEV then
    match dev_read (i_major x) with
    | None => Done (-1, [], x, d)
    | Some op => let! r := op size in Done (fst r, snd r, x, d)
    end
  else if i_size x <? offset then Done (-1, [], x, d)
  else
    let size := if i_size x <? u32 (offset + size) then i_size x - offset else size in
    let! r := read_loop (rounds size) d x offset size in
    let '(bytes, x, d) := r in
    Done (size, bytes, x, d).

Definition write_inode (d : disk) (x : inode) (src : list Z) (offset : Z) : outcome (Z * inode * disk) :=
  if i_type x =? I_TYPE_DEV then
    match dev_write (i_major x) with
    | None => Done (-1, x, d)
    | Some op => let! r := op src in Done (r, x, d)
    end
  else if i_size x <? offset then Done (-1, x, d)
  else if MAX_FILE_SIZE * BSIZE <? u32 (offset + zlen src) then Done (-1, x, d)
  else
    let! r := write_loop (rounds (zlen src)) d x offset src in
    let '(x, d) := r in
    let offset := u32 (offset + zlen src) in
    if (0 <? zlen src) && (i_size x <? offset)
    then let x := with_size x offset in Done (zlen src, x, write_to_disk d x)
    else Done (zlen src, x, d).

End Devices.

(** ** Buffers *)

Lemma splice_length b off src : 0 <= off -> off + zlen src <= zlen b -> length (splice b off src) = length b.
Proof.
  unfold splice, zlen. intros. rewrite !length_app, length_take, length_drop. lia.
Qed.

Lemma bget_splice b off src i : 0 <= off -> off + zlen src <= zlen b -> 0 <= i ->
  bget (splice b off src) i = if decide (off <= i < off + zlen src) then bget src (i - off) else bget b i.
Proof.
  unfold bget, splice, zlen. intros Ho Hl Hi. rewrite !(zget_nonneg _ i) by lia.
  assert (Ht : length (take (Z.to_nat off) b) = Z.to_nat off) by (rewrite length_take; lia).
  case_decide.
  - rewrite zget_nonneg by lia. rewrite lookup_app_r, lookup_app_l by (rewrite ?Ht; lia). do 2 f_equal. rewrite Ht. lia.
  - destruct (Z_lt_le_dec i off).
    + rewrite lookup_app_l by (rewrite Ht; lia). rewrite lookup_take, decide_True by lia. reflexivity.
    + rewrite lookup_app_r, lookup_app_r by (rewrite ?Ht; lia). rewrite lookup_drop. do 2 f_equal. rewrite Ht. lia.
Qed.

Lemma slice_seq b : forall n off, 0 <= off -> off + Z.of_nat n <= zlen b ->
  take n (drop (Z.to_nat off) b) = bget b <$> seqZ off (Z.of_nat n).
Proof.
  induction n as [|n IH]; intros off Ho Hl; [reflexivity|].
  rewrite Nat2Z.inj_succ, seqZ_cons by lia. rewrite Z.pred_succ. cbn [fmap list_fmap].
  unfold zlen in Hl. destruct (lookup_lt_is_Some_2 b (Z.to_nat off)) as [v Hv]; [lia|].
  rewrite (drop_S b v (Z.to_nat off) Hv). cbn [take]. f_equal.
  - unfold bget. rewrite zget_nonneg, Hv by lia. reflexivity.
  - replace (S (Z.to_nat off)) with (Z.to_nat (Z.succ off)) by lia. apply IH; unfold zlen; lia.
Qed.

Lemma slice_bytes b off n : 0 <= off -> 0 <= n -> off + n <= zlen b -> slice b off n = bget b <$> seqZ off n.
Proof. intros. unfold slice. rewrite slice_seq by lia. rewrite Z2Nat.id by lia. reflexivity. Qed.

Lemma slice_splice b off src : 0 <= off -> off + zlen src <= zlen b -> slice (splice b off src) off (zlen src) = src.
Proof.
  intros Ho Hl. unfold slice, splice, zlen in *.
  rewrite drop_app_length' by (rewrite length_take; lia). rewrite take_app_length' by lia. reflexivity.
Qed.

Lemma slice_splice_ne b off src o n : 0 <= off -> off + zlen src <= zlen b -> 0 <= o -> 0 <= n -> o + n <= zlen b ->
  (o + n <= off \/ off + zlen src <= o) -> slice (splice b off src) o n = slice b o n.
Proof.
  intros Hoff Hl Ho Hn Hon Hd. pose proof (splice_length b off src Hoff Hl) as Hlen.
  rewrite !slice_bytes by (unfold zlen in *; lia). apply list_fmap_ext. intros i x Hx.
  apply lookup_seqZ in Hx as [-> Hx]. rewrite bget_splice by lia. rewrite decide_False by lia. reflexivity.
Qed.

Lemma byte_list_bget b i : byte_list b -> 0 <= bget b i < 256.
Proof.
  intros H. unfold bget. destruct (zget b i) eqn:E; simpl; [|lia]. unfold zget in E.
  destruct (i <? 0); [discriminate|]. eapply Forall_lookup_1 in H; eauto.
Qed.

Lemma byte_list_splice b off src : byte_list b -> byte_list src -> byte_list (splice b off src).
Proof.
  intros Hb Hs. unfold splice. apply Forall_app. split; [apply Forall_take, Hb|].
  apply Forall_app. split; [exact Hs | apply Forall_drop, Hb].
Qed.

(** ** Bits *)

Lemma bit_get_testbit b bit : bit_get b bit = Z.testbit (bget b (bit / 8)) (bit mod 8).
Proof.
  unfold bit_get. pose proof (Z.mod_pos_bound bit 8 ltac:(lia)) as Hk. generalize dependent (bit mod 8).
  intros k Hk. generalize (bget b (bit / 8)). intros v. rewrite Z.shiftl_1_l.
  destruct (Z.testbit v k) eqn:E.
  - apply negb_true_iff, Z.eqb_neq. intros H. apply (f_equal (fun z => Z.testbit z k)) in H.
    rewrite Z.land_spec, E, Z.pow2_bits_true, Z.bits_0 in H by lia. discriminate.
  - apply negb_false_iff, Z.eqb_eq. apply Z.bits_inj'. intros j Hj. rewrite Z.land_spec, Z.bits_0.
    rewrite Z.pow2_bits_eqb by lia. destruct (k =? j) eqn:Ej; [|apply andb_false_r].
    apply Z.eqb_eq in Ej as <-. rewrite E. reflexivity.
Qed.

Lemma lor_byte v k : 0 <= v < 256 -> 0 <= k < 8 -> 0 <= Z.lor v (Z.shiftl 1 k) < 256.
Proof.
  intros Hv Hk. rewrite Z.shiftl_1_l. assert (Hn : 0 <= Z.lor v (2 ^ k)) by (apply Z.lor_nonneg; lia).
  split; [exact Hn|]. change 256 with (2 ^ 8). destruct (Z.eq_dec (Z.lor v (2 ^ k)) 0) as [->|]; [lia|].
  apply Z.log2_lt_pow2; [lia|]. rewrite Z.log2_lor by lia. rewrite Z.log2_pow2 by lia.
  apply Z.max_lub_lt; [|lia]. destruct (Z.eq_dec v 0) as [->|]; [simpl; lia|]. apply Z.log2_lt_pow2; lia.
Qed.

Lemma bit_set_ok b bit bit' : length b = 512%nat -> 0 <= bit < 4096 -> 0 <= bit' < 4096 ->
  bit_get (bit_set b bit) bit' = (bit' =? bit) || bit_get b bit'.
Proof.
  intros Hb Hbit Hbit'. rewrite !bit_get_testbit. unfold bit_set.
  rewrite bget_splice by (unfold zlen; simpl; rewrite ?Hb; divlia).
  replace (zlen [_]) with 1 by reflexivity. case_decide as Hd.
  - assert (E8 : bit' / 8 = bit / 8) by lia. rewrite E8, Z.sub_diag. unfold bget at 1. simpl.
    rewrite Z.lor_spec, Z.shiftl_1_l, Z.pow2_bits_eqb by divlia.
    replace (bit mod 8 =? bit' mod 8) with (bit' =? bit); [apply orb_comm|].
    destruct (bit' =? bit) eqn:E; symmetry; [apply Z.eqb_eq | apply Z.eqb_neq]; divlia.
  - replace (bit' =? bit) with false; [reflexivity|]. symmetry. apply Z.eqb_neq. intros ->. lia.
Qed.

Lemma bit_set_length b bit : length b = 512%nat -> 0 <= bit < 4096 -> length (bit_set b bit) = 512%nat.
Proof. intros Hb Hbit. unfold bit_set. rewrite splice_length; [exact Hb | divlia | unfold zlen; simpl; rewrite Hb; divlia]. Qed.

Lemma bit_set_bytes b bit : byte_list b -> byte_list (bit_set b bit).
Proof.
  intros Hb. apply byte_list_splice; [exact Hb|]. constructor; [|constructor].
  apply lor_byte; [apply byte_list_bget, Hb | apply Z.mod_pos_bound; lia].
Qed.

Lemma find_clear_ok b n : forall fuel bit, 0 <= bit -> n - bit <= Z.of_nat fuel ->
  match find_clear fuel b bit n with
  | Some r => bit <= r < n /\ bit_get b r = false
  | None => forall r, bit <= r < n -> bit_get b r = true
  end.
Proof.
  induction fuel as [|fuel IH]; intros bit Hb Hf; cbn [find_clear]; [intros; lia|].
  destruct (bit <? n) eqn:E; tests; [|intros; lia]. destruct (bit_get b bit) eqn:Eb; [|auto with lia].
  specialize (IH (bit + 1) ltac:(lia) ltac:(lia)). destruct (find_clear fuel b (bit + 1) n); [intuition lia|].
  intros r Hr. destruct (Z.eq_dec r bit) as [->|]; [exact Eb | apply IH; lia].
Qed.

(** ** A well-formed disk *)

Definition nblocks (d : disk) : Z := sb_nblocks (read_super_block d).

(** The first block after the bitmap. *)
Definition meta_end (d : disk) : Z := bitmap_block d + nblocks d / 4096 + 1.

Definition marked (d : disk) (lba : Z) : bool := bit_get (d (bitmap_block d + lba / 4096)) (lba mod 4096).

(** Every block is [BSIZE] bytes; the super block, the inodes and the bitmap are
    marked as used and fit on the disk; the inodes have less than 4 GB, so that their size in
    bytes fits in 32 bits. *)
Record disk_ok (d : disk) : Prop := {
  dk_block : forall lba, length (d lba) = 512%nat /\ byte_list (d lba);
  dk_size : 0 < nblocks d < 2 ^ 31;
  dk_inodes : 0 <= sb_ninodes (read_super_block d) < 2 ^ 26;
  dk_meta : meta_end d <= nblocks d;
  dk_marked : forall lba, 0 <= lba < meta_end d -> marked d lba = true
}.

Lemma dset_eq d a b : dset d a b a = b.
Proof. unfold dset. rewrite Z.eqb_refl. reflexivity. Qed.

Lemma dset_ne d a b x : x <> a -> dset d a b x = d x.
Proof. unfold dset. intros H. apply Z.eqb_neq in H. rewrite H. reflexivity. Qed.

Lemma bitmap_block_eq d : 0 <= sb_ninodes (read_super_block d) < 2 ^ 26 ->
  bitmap_block d = 3 + sb_ninodes (read_super_block d) / 8.
Proof.
  intros H. unfold bitmap_block, DISK_INODE_SIZE, BSIZE. rewrite (u32_small (_ * 64)) by lia.
  rewrite u32_small by divlia. divlia.
Qed.

Lemma bitmap_ge d : disk_ok d -> 3 <= bitmap_block d.
Proof. intros D. rewrite bitmap_block_eq by apply D. pose proof (dk_inodes _ D). divlia. Qed.

(** Nothing of the layout depends on blocks other than the super block. *)
Lemma layout_same d d' : d' 1 = d 1 ->
  read_super_block d' = read_super_block d /\ bitmap_block d' = bitmap_block d /\ nblocks d' = nblocks d /\
  meta_end d' = meta_end d.
Proof.
  intros E. assert (Es : read_super_block d' = read_super_block d)
    by (unfold read_super_block, m_super_block_lba; rewrite E; reflexivity).
  unfold meta_end, nblocks, bitmap_block. rewrite Es. auto.
Qed.

(** What marking and clearing one block does. *)
Definition allocated_block (d : disk) (lba : Z) (d' : disk) : Prop :=
  meta_end d <= lba < nblocks d /\ marked d lba = false /\ disk_ok d' /\ d' 1 = d 1 /\
  (forall x, 0 <= x < nblocks d -> marked d' x = (x =? lba) || marked d x) /\
  d' lba = repeat 0 (Z.to_nat BSIZE) /\
  (forall x, x <> lba -> x < bitmap_block d \/ meta_end d <= x -> d' x = d x).

Lemma zero_bytes : length (repeat 0 (Z.to_nat BSIZE)) = 512%nat /\ byte_list (repeat 0 (Z.to_nat BSIZE)).
Proof.
  split; [apply repeat_length|]. apply Forall_forall. intros x Hx. apply list_elem_of_In, repeat_spec in Hx. lia.
Qed.

Lemma mark_block_ok d i bit : disk_ok d -> 0 <= bit < 4096 -> 0 <= i -> i mod 4096 = 0 -> i + bit < nblocks d ->
  let index := bitmap_block d + i / 4096 in
  bit_get (d index) bit = false ->
  allocated_block d (i + bit) (zero_block (dset d index (bit_set (d index) bit)) (i + bit)).
Proof.
  intros D Hbit Hi Him Hn index Hclear. set (lba := i + bit).
  pose proof (bitmap_ge d D) as Hb3. destruct (dk_block _ D index) as [Hl Hby].
  assert (Ediv : lba / 4096 = i / 4096) by (unfold lba; divlia). assert (Emod : lba mod 4096 = bit) by (unfold lba; divlia).
  assert (Hmk : marked d lba = false) by (unfold marked; rewrite Ediv, Emod; exact Hclear).
  assert (Hmeta : meta_end d <= lba).
  { destruct (Z_lt_le_dec lba (meta_end d)); [|assumption]. rewrite (dk_marked _ D lba) in Hmk by (unfold lba; lia). discriminate. }
  assert (Hidx : bitmap_block d <= index < meta_end d).
  { unfold index, meta_end. pose proof (Z.div_le_mono lba (nblocks d) 4096). pose proof (Z.div_pos i 4096). lia. }
  set (d' := zero_block _ lba).
  assert (Hd' : forall x, d' x = if x =? lba then repeat 0 (Z.to_nat BSIZE) else if x =? index then bit_set (d index) bit else d x)
    by reflexivity.
  assert (Hsb : d' 1 = d 1) by (rewrite Hd'; replace (1 =? lba) with false by lia; replace (1 =? index) with false by lia; reflexivity).
  destruct (layout_same d d' Hsb) as (Es & Eb & En & Em).
  assert (Hmarks : forall x, 0 <= x < nblocks d -> marked d' x = (x =? lba) || marked d x).
  { intros x Hx. unfold marked. rewrite Eb, Hd'.
    pose proof (Z.div_le_mono x (nblocks d) 4096). pose proof (Z.div_pos x 4096).
    replace (bitmap_block d + x / 4096 =? lba) with false by (unfold meta_end in *; lia).
    destruct (bitmap_block d + x / 4096 =? index) eqn:E.
    - rewrite bit_set_ok by (auto; divlia).
      replace (bitmap_block d + x / 4096) with index by lia. f_equal.
      destruct (x =? lba) eqn:Ex; [apply Z.eqb_eq | apply Z.eqb_neq]; unfold lba, index in *; divlia.
    - replace (x =? lba) with false; [reflexivity|]. symmetry. apply Z.eqb_neq. unfold lba, index in *. divlia. }
  split; [lia|]. split; [exact Hmk|]. split; [|split; [exact Hsb | split; [exact Hmarks | split]]].
  - constructor; rewrite ?En, ?Em, ?Es; try apply D.
    + intros x. rewrite Hd'. destruct (x =? lba); [apply zero_bytes|]. destruct (x =? index); [|apply D].
      split; [apply bit_set_length; auto | apply bit_set_bytes; auto].
    + intros x Hx. pose proof (dk_meta _ D). rewrite Hmarks by lia. rewrite (dk_marked _ D x Hx). apply orb_true_r.
  - rewrite Hd', Z.eqb_refl. reflexivity.
  - intros x Hx Hr. rewrite Hd'. replace (x =? lba) with false by lia. replace (x =? index) with false by lia. reflexivity.
Qed.

Definition full (d : disk) : Prop := forall x, 0 <= x < nblocks d -> marked d x = true.

Lemma alloc_loop_spec d : disk_ok d -> forall fuel i,
  0 <= i -> i mod 4096 = 0 -> i <= nblocks d + 4096 -> nblocks d - i <= Z.of_nat fuel * 4096 ->
  (forall x, 0 <= x < Z.min i (nblocks d) -> marked d x = true) ->
  let '(lba, d') := alloc_block_loop fuel d (nblocks d) i (bitmap_block d + i / 4096) in
  (lba = 0 /\ d' = d /\ full d) \/ allocated_block d lba d'.
Proof.
  intros D. pose proof (dk_size _ D) as Hn. induction fuel as [|fuel IH]; intros i Hi Him Hile Hf Hall; cbn [alloc_block_loop].
  { left. split_and!; auto. intros x Hx. apply Hall. lia. }
  destruct (i <? nblocks d) eqn:E; tests; [|left; split_and!; auto; intros x Hx; apply Hall; lia].
  unfold BSIZE. rewrite !u32_small by lia. change (512 * 8) with 4096.
  set (n := if nblocks d <? i + 4096 then nblocks d - i else 4096).
  assert (Hn4 : 0 <= n <= 4096 /\ i + n <= nblocks d /\ (n = 4096 \/ i + n = nblocks d))
    by (unfold n; destruct (nblocks d <? i + 4096) eqn:En; tests; lia).
  pose proof (find_clear_ok (d (bitmap_block d + i / 4096)) n (Z.to_nat 4096) 0 ltac:(lia) ltac:(lia)) as Hfc.
  destruct (find_clear (Z.to_nat 4096) _ 0 n) as [bit|].
  - right. destruct Hfc as [Hbit Hclear]. apply mark_block_ok; auto; lia.
  - replace (bitmap_block d + i / 4096 + 1) with (bitmap_block d + (i + 4096) / 4096) by divlia.
    apply IH; try lia; [divlia|]. intros x Hx. destruct (Z_lt_le_dec x i); [apply Hall; lia|].
    unfold marked. assert (Ei : x / 4096 = i / 4096) by divlia. rewrite Ei. apply Hfc. divlia.
Qed.

Lemma alloc_block_ok d : disk_ok d ->
  let '(lba, d') := alloc_block d in (lba = 0 /\ d' = d /\ full d) \/ allocated_block d lba d'.
Proof.
  intros D. pose proof (dk_size _ D) as Hn. unfold alloc_block. fold (nblocks d).
  replace (bitmap_block d) with (bitmap_block d + 0 / 4096) by (rewrite Z.div_0_l by lia; lia).
  apply alloc_loop_spec; auto; try lia.
  - unfold BSIZE. change (512 * 8) with 4096. pose proof (Z.div_pos (nblocks d) 4096). divlia.
Qed.

(** ** The blocks of a file *)

(** The block that holds block [k] of the file, zero for none. *)
Definition addr_of (d : disk) (x : inode) (k : Z) : Z :=
  if k <? NDIRECT then addr_at x k
  else if addr_at x NDIRECT =? 0 then 0
  else rd32 (d (addr_at x NDIRECT)) (4 * (k - NDIRECT)).

(** A byte of the file; a block that is not there reads as zeros. *)
Definition content (d : disk) (x : inode) (o : Z) : Z :=
  let a := addr_of d x (o / BSIZE) in if a =? 0 then 0 else bget (d a) (o mod BSIZE).

Definition data_block (d : disk) (a : Z) : Prop := meta_end d <= a < nblocks d /\ marked d a = true.

(** The blocks of a file are used data blocks, all different. *)
Record file_ok (d : disk) (x : inode) : Prop := {
  fo_len : length (i_addrs x) = 13%nat;
  fo_data : forall k, 0 <= k < MAX_FILE_SIZE -> addr_of d x k <> 0 -> data_block d (addr_of d x k);
  fo_ind : addr_at x NDIRECT <> 0 -> data_block d (addr_at x NDIRECT);
  fo_sep : addr_at x NDIRECT <> 0 -> forall k, 0 <= k < MAX_FILE_SIZE -> addr_of d x k <> addr_at x NDIRECT;
  fo_inj : forall j k, 0 <= j < MAX_FILE_SIZE -> 0 <= k < MAX_FILE_SIZE -> j <> k -> addr_of d x j <> 0 ->
    addr_of d x j <> addr_of d x k
}.

(** A used, zeroed data block that is none of the file's. *)
Record fresh (d : disk) (x : inode) (lba : Z) : Prop := {
  fr_data : data_block d lba;
  fr_zero : d lba = repeat 0 (Z.to_nat BSIZE);
  fr_ind : addr_at x NDIRECT <> lba;
  fr_not : forall k, 0 <= k < MAX_FILE_SIZE -> addr_of d x k <> lba
}.

Lemma bget_zero i : bget (repeat 0 (Z.to_nat BSIZE)) i = 0.
Proof.
  unfold bget. destruct (zget _ i) eqn:E; [|reflexivity]. unfold zget in E. destruct (i <? 0); [discriminate|].
  apply list_elem_of_lookup_2, list_elem_of_In, repeat_spec in E. exact E.
Qed.

Lemma rd32_zero i : rd32 (repeat 0 (Z.to_nat BSIZE)) i = 0.
Proof.
  unfold rd32, slice. assert (Hall : forall l, Forall (fun v => v = 0) l -> le_value l = 0).
  { induction 1 as [|v l -> _ IH]; simpl; [reflexivity | rewrite IH; reflexivity]. }
  apply Hall. apply Forall_take, Forall_drop, Forall_forall. intros v Hv. apply list_elem_of_In, repeat_spec in Hv. exact Hv.
Qed.

Lemma rd32_wr32 b off v : length b = 512%nat -> 0 <= off <= 508 -> 0 <= v < 2 ^ 32 -> rd32 (wr32 b off v) off = v.
Proof.
  intros Hb Ho Hv. unfold rd32, wr32. pose proof (le_bytes_length 4 v) as Hl.
  replace 4 with (zlen (le_bytes 4 v)) at 2 by (unfold zlen; rewrite Hl; reflexivity).
  rewrite slice_splice by (unfold zlen; rewrite ?Hl, ?Hb; lia). rewrite le_value_bytes. apply Z.mod_small. lia.
Qed.

Lemma rd32_wr32_ne b off v off' : length b = 512%nat -> 0 <= off <= 508 -> 0 <= off' <= 508 ->
  (off' + 4 <= off \/ off + 4 <= off') -> rd32 (wr32 b off v) off' = rd32 b off'.
Proof.
  intros Hb Ho Ho' Hd. unfold rd32, wr32. rewrite slice_splice_ne; [reflexivity|..];
    unfold zlen; rewrite ?le_bytes_length, ?Hb; lia.
Qed.

Lemma wr32_block b off v : length b = 512%nat -> byte_list b -> 0 <= off <= 508 ->
  length (wr32 b off v) = 512%nat /\ byte_list (wr32 b off v).
Proof.
  intros Hb Hby Ho. unfold wr32. split.
  - rewrite splice_length; [exact Hb | lia |]. unfold zlen. rewrite le_bytes_length, Hb. lia.
  - apply byte_list_splice; [exact Hby | apply le_bytes_byte_list].
Qed.

(** Two disks on which the blocks of a file are the same hold the same file. *)
Lemma file_same d d' x : d' 1 = d 1 -> file_ok d x ->
  (forall a, data_block d a -> marked d' a = true) ->
  (addr_at x NDIRECT <> 0 -> d' (addr_at x NDIRECT) = d (addr_at x NDIRECT)) ->
  (forall k, addr_of d' x k = addr_of d x k) /\ file_ok d' x.
Proof.
  intros H1 H Hm Hind. destruct (layout_same d d' H1) as (_ & _ & En & Em).
  assert (Ha : forall k, addr_of d' x k = addr_of d x k).
  { intros k. unfold addr_of. destruct (k <? NDIRECT); [reflexivity|].
    destruct (addr_at x NDIRECT =? 0) eqn:E; tests; [reflexivity|]. rewrite Hind by exact E. reflexivity. }
  split; [exact Ha|]. destruct H as [L D I S J].
  assert (Hdb : forall a, data_block d a -> data_block d' a).
  { intros a Hd. split; [rewrite En, Em; apply Hd | apply Hm, Hd]. }
  constructor; auto.
  - intros k Hk. rewrite Ha. intros Hz. apply Hdb, D; auto.
  - intros Hz k Hk. rewrite Ha. apply S; auto.
  - intros j k Hj Hk Hjk. rewrite !Ha. apply J; auto.
Qed.

Lemma content_same d d' x : (forall k, addr_of d' x k = addr_of d x k) ->
  (forall k, 0 <= k < MAX_FILE_SIZE -> addr_of d x k <> 0 -> d' (addr_of d x k) = d (addr_of d x k)) ->
  forall o, 0 <= o < MAX_FILE_SIZE * BSIZE -> content d' x o = content d x o.
Proof.
  intros Ha Hd o Ho. unfold content. rewrite Ha. destruct (_ =? 0) eqn:E; tests; [reflexivity|].
  rewrite Hd; auto. unfold MAX_FILE_SIZE, NINDIRECT, NDIRECT, BSIZE in *. divlia.
Qed.

Lemma meta_pos d : disk_ok d -> 0 < meta_end d.
Proof.
  intros D. pose proof (bitmap_ge d D). pose proof (dk_size _ D). unfold meta_end.
  pose proof (Z.div_pos (nblocks d) 4096). lia.
Qed.

(** Allocation leaves the file alone and yields a block fresh for it. *)
Lemma alloc_file d x lba d' : file_ok d x -> allocated_block d lba d' ->
  file_ok d' x /\ fresh d' x lba /\ (forall k, addr_of d' x k = addr_of d x k) /\
  (forall o, 0 <= o < MAX_FILE_SIZE * BSIZE -> content d' x o = content d x o).
Proof.
  intros H (Hr & Hu & Hok & H1 & Hmk & Hz & Hfr).
  destruct (layout_same d d' H1) as (_ & Eb & En & Em). pose proof (meta_pos d' Hok) as Hpos. rewrite Em in Hpos.
  assert (Hdata : forall a, data_block d a -> a <> lba /\ d' a = d a /\ marked d' a = true).
  { intros a [Ha Hm]. assert (a <> lba) by congruence. split_and!; auto; [apply Hfr; auto; lia|].
    rewrite Hmk; [rewrite Hm; apply orb_true_r | lia]. }
  destruct (file_same d d' x H1 H) as [Ha Hok'].
  - intros a Hd. apply Hdata, Hd.
  - intros Hz'. apply Hdata, H, Hz'.
  - assert (Hc : forall o, 0 <= o < MAX_FILE_SIZE * BSIZE -> content d' x o = content d x o).
    { apply content_same; auto. intros k Hk Hk0. apply Hdata, H; auto. }
    split_and!; auto. constructor; auto.
    + split; [rewrite En, Em; lia|]. rewrite Hmk, Z.eqb_refl by lia. reflexivity.
    + intros E. apply (Hdata _ (fo_ind _ _ H ltac:(lia))). exact E.
    + intros k Hk. rewrite Ha. intros E. apply (Hdata _ (fo_data _ _ H k Hk ltac:(lia))). exact E.
Qed.

Lemma addr_zset x k v j : length (i_addrs x) = 13%nat -> 0 <= k <= 12 -> 0 <= j ->
  addr_at (with_addrs x (zset (i_addrs x) k v)) j = if decide (j = k) then v else addr_at x j.
Proof.
  intros Hl Hk Hj. unfold addr_at, bget. simpl. case_decide as E.
  - subst j. rewrite zget_zset_eq; [reflexivity|]. unfold zlen. rewrite Hl. lia.
  - rewrite zget_zset_ne by lia. reflexivity.
Qed.

(** Linking a fresh block as a direct block. *)
Lemma link_direct d x k lba : file_ok d x -> fresh d x lba -> lba <> 0 -> 0 <= k < NDIRECT -> addr_at x k = 0 ->
  let x' := with_addrs x (zset (i_addrs x) k lba) in
  file_ok d x' /\ (forall j, 0 <= j -> addr_of d x' j = if decide (j = k) then lba else addr_of d x j) /\
  (forall o, 0 <= o -> content d x' o = content d x o).
Proof.
  intros H [Fd Fz Fi Fn] Hl Hk Hk0 x'. pose proof (fo_len _ _ H) as Hlen. unfold NDIRECT in Hk.
  assert (Hat : forall j, 0 <= j -> addr_at x' j = if decide (j = k) then lba else addr_at x j)
    by (intros; apply addr_zset; auto; lia).
  assert (Hind : addr_at x' NDIRECT = addr_at x NDIRECT) by (rewrite Hat, decide_False; unfold NDIRECT; auto; lia).
  assert (Ha : forall j, 0 <= j -> addr_of d x' j = if decide (j = k) then lba else addr_of d x j).
  { intros j Hj. unfold addr_of. rewrite Hind, Hat by auto. destruct (j <? NDIRECT) eqn:E; tests; [reflexivity|].
    unfold NDIRECT in E. rewrite decide_False by lia. reflexivity. }
  split_and!; auto.
  - destruct H as [L D I S J]. constructor.
    + unfold x'. simpl. rewrite zset_length. exact L.
    + intros j Hj. rewrite Ha by lia. case_decide; auto.
    + rewrite Hind. exact I.
    + rewrite Hind. intros Hz j Hj. rewrite Ha by lia. case_decide; auto.
    + intros i j Hi Hj Hij. rewrite !Ha by lia. repeat case_decide; try congruence; auto.
      intros _ E. apply (Fn j Hj). auto.
  - intros o Ho. unfold content. rewrite Ha by (apply Z.div_pos; unfold BSIZE; lia). case_decide as E; [|reflexivity].
    replace (lba =? 0) with false by lia. rewrite Fz, bget_zero.
    unfold addr_of. rewrite E. unfold NDIRECT. replace (k <? 12) with true by lia. rewrite Hk0. reflexivity.
Qed.

(** Linking a fresh block as the indirect block. *)
Lemma link_indirect d x lba : file_ok d x -> fresh d x lba -> lba <> 0 -> addr_at x NDIRECT = 0 ->
  let x' := with_addrs x (zset (i_addrs x) NDIRECT lba) in
  file_ok d x' /\ addr_at x' NDIRECT = lba /\ (forall j, 0 <= j -> addr_of d x' j = addr_of d x j) /\
  (forall o, 0 <= o -> content d x' o = content d x o).
Proof.
  intros H [Fd Fz Fi Fn] Hl Hk0 x'. pose proof (fo_len _ _ H) as Hlen.
  assert (Hat : forall j, 0 <= j -> addr_at x' j = if decide (j = NDIRECT) then lba else addr_at x j)
    by (intros; apply addr_zset; auto; unfold NDIRECT; lia).
  assert (Hind : addr_at x' NDIRECT = lba) by (rewrite Hat, decide_True; unfold NDIRECT; auto; lia).
  assert (Ha : forall j, 0 <= j -> addr_of d x' j = addr_of d x j).
  { intros j Hj. unfold addr_of. rewrite Hind, Hat, Hk0 by auto. destruct (j <? NDIRECT) eqn:E; tests.
    - rewrite decide_False by lia. reflexivity.
    - replace (lba =? 0) with false by lia. rewrite Fz. apply rd32_zero. }
  split_and!; auto.
  - destruct H as [L D I S J]. constructor.
    + unfold x'. simpl. rewrite zset_length. exact L.
    + intros j Hj. rewrite Ha by lia. auto.
    + rewrite Hind. auto.
    + rewrite Hind. intros _ j Hj. rewrite Ha by lia. auto.
    + intros i j Hi Hj Hij. rewrite !Ha by lia. auto.
  - intros o Ho. unfold content. rewrite Ha by (apply Z.div_pos; unfold BSIZE; lia). reflexivity.
Qed.

(** ** Growing a file *)

(** The blocks of a file, its indirect block included. *)
Definition owns (d : disk) (x : inode) (a : Z) : Prop :=
  a <> 0 /\ (addr_at x NDIRECT = a \/ exists k, 0 <= k < MAX_FILE_SIZE /\ addr_of d x k = a).

Definition free_count (d : disk) : Z :=
  zlen (filter (fun a => marked d a = false) (seqZ 0 (nblocks d))).

(** One more block is needed as long as the file has no indirect block. *)
Definition reserve (x : inode) : Z := if addr_at x NDIRECT =? 0 then 1 else 0.

(** What any change to a file does to the rest: the layout and the inode table
    stay, and so do the used blocks that are not the file's. *)
Record extends (d : disk) (x : inode) (d' : disk) (x' : inode) : Prop := {
  ex_disk : disk_ok d';
  ex_file : file_ok d' x';
  ex_sb : d' 1 = d 1;
  ex_meta : forall a, a < bitmap_block d -> d' a = d a;
  ex_frame : forall a, data_block d a -> marked d' a = true /\ (~ owns d x a -> d' a = d a /\ ~ owns d' x' a);
  ex_inode : x' = with_addrs x (i_addrs x');
  ex_keep : forall k, 0 <= k < MAX_FILE_SIZE -> addr_of d x k <> 0 -> addr_of d' x' k = addr_of d x k
}.

Lemma extends_refl d x : disk_ok d -> file_ok d x -> extends d x d x.
Proof.
  intros D H. constructor; auto.
  - intros a [_ Ha]. auto.
  - destruct x; reflexivity.
Qed.

Lemma extends_data d x d' x' a : extends d x d' x' -> data_block d a -> data_block d' a.
Proof.
  intros E Ha. destruct (layout_same d d' (ex_sb _ _ _ _ E)) as (_ & _ & En & Em).
  split; [rewrite En, Em; apply Ha | apply (ex_frame _ _ _ _ E), Ha].
Qed.

Lemma extends_trans d x d1 x1 d2 x2 : extends d x d1 x1 -> extends d1 x1 d2 x2 -> extends d x d2 x2.
Proof.
  intros E1 E2. destruct (layout_same d d1 (ex_sb _ _ _ _ E1)) as (_ & Eb & _ & _).
  constructor; try apply E2.
  - rewrite (ex_sb _ _ _ _ E2). apply E1.
  - intros a Ha. rewrite (ex_meta _ _ _ _ E2) by (rewrite Eb; exact Ha). apply E1, Ha.
  - intros a Ha. destruct (ex_frame _ _ _ _ E2 a (extends_data _ _ _ _ _ E1 Ha)) as [Hm2 Hf2].
    split; [exact Hm2|]. intros Hno. destruct (ex_frame _ _ _ _ E1 a Ha) as [_ Hf1].
    destruct (Hf1 Hno) as [Hd1 Hno1]. destruct (Hf2 Hno1) as [Hd2 Hno2]. split; [congruence | exact Hno2].
  - rewrite (ex_inode _ _ _ _ E2), (ex_inode _ _ _ _ E1). reflexivity.
  - intros k Hk Hk0. rewrite <- (ex_keep _ _ _ _ E1) in Hk0 |- * by assumption. apply (ex_keep _ _ _ _ E2); assumption.
Qed.

Lemma filter_same {A} (P Q : A -> Prop) `{!forall a, Decision (P a), !forall a, Decision (Q a)} (l : list A) :
  (forall a, a ∈ l -> P a <-> Q a) -> filter P l = filter Q l.
Proof.
  induction l as [|a l IH]; intros Hpq; [reflexivity|]. rewrite !filter_cons, IH by (intros b Hb; apply Hpq; right; exact Hb).
  destruct (Hpq a ltac:(left)). repeat case_decide; tauto.
Qed.

Lemma filter_one_less {A} (P Q : A -> Prop) `{!forall a, Decision (P a), !forall a, Decision (Q a)} (l : list A) (v : A) :
  NoDup l -> v ∈ l -> P v -> (forall a, a ∈ l -> Q a <-> P a /\ a <> v) -> zlen (filter P l) = zlen (filter Q l) + 1.
Proof.
  intros Hnd. induction Hnd as [|a l Ha Hnd IH]; intros Hv HP HQ; [inversion Hv|].
  rewrite !filter_cons. apply elem_of_cons in Hv as [->|Hv].
  - rewrite decide_True by exact HP. rewrite decide_False by (rewrite HQ by left; tauto).
    unfold zlen. cbn [length]. rewrite (filter_same P Q l); [lia|].
    intros b Hb. rewrite HQ by (right; exact Hb). split; [intros Hp; split; [exact Hp | congruence] | tauto].
  - assert (IH' : zlen (filter P l) = zlen (filter Q l) + 1) by (apply IH; auto; intros b Hb; apply HQ; right; exact Hb).
    assert (a <> v) by congruence. unfold zlen in *.
    destruct (decide (P a)); [rewrite decide_True by (apply HQ; [left|tauto]) | rewrite decide_False by (rewrite HQ by left; tauto)];
      cbn [length]; lia.
Qed.

Lemma allocated_count d lba d' : disk_ok d -> allocated_block d lba d' -> free_count d' = free_count d - 1.
Proof.
  intros D (Hr & Hu & Hok & H1 & Hmk & Hz & Hfr). destruct (layout_same d d' H1) as (_ & _ & En & _).
  pose proof (meta_pos d D). unfold free_count. rewrite En.
  enough (zlen (filter (fun a => marked d a = false) (seqZ 0 (nblocks d))) =
          zlen (filter (fun a => marked d' a = false) (seqZ 0 (nblocks d))) + 1) by lia.
  apply (filter_one_less _ _ _ lba); auto.
  - apply NoDup_seqZ.
  - apply elem_of_seqZ. lia.
  - intros a Ha. apply elem_of_seqZ in Ha. rewrite Hmk by lia. rewrite orb_false_iff, Z.eqb_neq. tauto.
Qed.

Lemma full_count d : full d -> free_count d = 0.
Proof.
  intros H. unfold free_count. enough (filter (fun a => marked d a = false) (seqZ 0 (nblocks d)) = []) as -> by reflexivity.
  rewrite (filter_same _ (fun _ => False)).
  - induction (seqZ 0 (nblocks d)); [reflexivity|]. rewrite filter_cons_False; auto.
  - intros a Ha. apply elem_of_seqZ in Ha. rewrite H by lia. split; [discriminate | contradiction].
Qed.

Lemma owns_data d x a : file_ok d x -> owns d x a -> data_block d a.
Proof. intros H [Ha [E|(k & Hk & E)]]; subst a; [apply (fo_ind _ _ H), Ha | apply (fo_data _ _ H); auto]. Qed.

(** Replacing the contents of a data block keeps the disk well formed. *)
Lemma data_write_ok d a b : disk_ok d -> data_block d a -> length b = 512%nat -> byte_list b ->
  disk_ok (dset d a b) /\ dset d a b 1 = d 1 /\ (forall x, 0 <= x < nblocks d -> marked (dset d a b) x = marked d x).
Proof.
  intros D [Ha _] Hl Hb. pose proof (bitmap_ge d D) as H3. unfold meta_end in Ha.
  pose proof (Z.div_pos (nblocks d) 4096 ltac:(pose proof (dk_size _ D); lia) ltac:(lia)) as Hdp.
  assert (H1 : dset d a b 1 = d 1) by (apply dset_ne; lia). destruct (layout_same d _ H1) as (Es & Eb & En & Em).
  assert (Hm : forall x, 0 <= x < nblocks d -> marked (dset d a b) x = marked d x).
  { intros x Hx. unfold marked. rewrite Eb, dset_ne; [reflexivity|].
    pose proof (Z.div_le_mono x (nblocks d) 4096). lia. }
  split_and!; auto. constructor; rewrite ?En, ?Em, ?Es; try apply D.
  - intros x. unfold dset. destruct (x =? a); [auto | apply D].
  - intros x Hx. pose proof (dk_meta _ D). rewrite Hm by lia. apply (dk_marked _ D x Hx).
Qed.

(** Allocation and linking together extend the file. *)
Lemma grow_extends d x lba d1 d2 x2 : disk_ok d -> file_ok d x -> allocated_block d lba d1 -> disk_ok d2 -> file_ok d2 x2 ->
  (forall a, ~ owns d x a -> d2 a = d1 a) -> (forall a, owns d2 x2 a -> a = lba \/ owns d x a) ->
  (forall a, 0 <= a < nblocks d -> marked d2 a = marked d1 a) ->
  x2 = with_addrs x (i_addrs x2) ->
  (forall k, 0 <= k < MAX_FILE_SIZE -> addr_of d x k <> 0 -> addr_of d2 x2 k = addr_of d x k) ->
  extends d x d2 x2.
Proof.
  intros D H (Hr & Hu & Hok & H1 & Hmk & Hz & Hfr) D2 H2 Hframe Hown Hm2 Hi Hk.
  pose proof (bitmap_ge d D) as Hb3.
  assert (Hlow : forall a, a < bitmap_block d -> d2 a = d a).
  { intros a Ha. assert (Hlm : a < meta_end d)
      by (unfold meta_end; pose proof (Z.div_pos (nblocks d) 4096); pose proof (dk_size _ D); lia).
    rewrite Hframe; [apply Hfr; lia|]. intros Ho. apply owns_data in Ho as [Ho _]; auto; lia. }
  constructor; auto; [apply Hlow; lia|]. intros a [Ha Hma]. pose proof (meta_pos d D).
  assert (Hane : a <> lba) by congruence.
  split; [rewrite Hm2, Hmk, Hma by lia; apply orb_true_r|]. intros Hno. split.
  - rewrite Hframe by exact Hno. apply Hfr; auto. lia.
  - intros Ho. destruct (Hown a Ho); auto.
Qed.

Definition with_addr (x : inode) (k lba : Z) : inode := with_addrs x (zset (i_addrs x) k lba).

Lemma grow_direct d x lba d' k : disk_ok d -> file_ok d x -> allocated_block d lba d' -> 0 <= k < NDIRECT -> addr_at x k = 0 ->
  extends d x d' (with_addr x k lba) /\ addr_of d' (with_addr x k lba) k = lba /\
  reserve (with_addr x k lba) = reserve x /\
  (forall o, 0 <= o < MAX_FILE_SIZE * BSIZE -> content d' (with_addr x k lba) o = content d x o).
Proof.
  intros D H A Hk Hk0. destruct (alloc_file d x lba d' H A) as (Hf & Hfresh & Ha & Hc).
  assert (Hl : lba <> 0) by (pose proof (meta_pos d D); destruct A as (? & _); lia).
  destruct (link_direct d' x k lba Hf Hfresh Hl Hk Hk0) as (Hf' & Ha' & Hc'). fold (with_addr x k lba) in *.
  assert (Hind : addr_at (with_addr x k lba) NDIRECT = addr_at x NDIRECT).
  { unfold with_addr. rewrite addr_zset, decide_False; [reflexivity|..]; try apply H; unfold NDIRECT in *; lia. }
  split_and!.
  - apply (grow_extends d x lba d'); auto; try apply A.
    + intros a (Ha0 & [E|(j & Hj & E)]); [right; split; [exact Ha0 | left; congruence]|].
      rewrite Ha' in E by lia. case_decide; [left; congruence|]. right. split; [exact Ha0|]. right. exists j.
      rewrite <- Ha. auto.
    + intros j Hj Hj0. rewrite Ha', Ha by lia. rewrite decide_False; [reflexivity|]. intros ->.
      apply Hj0. unfold addr_of. replace (k <? NDIRECT) with true by lia. exact Hk0.
  - rewrite Ha' by lia. rewrite decide_True by reflexivity. reflexivity.
  - unfold reserve. rewrite Hind. reflexivity.
  - intros o Ho. rewrite Hc', Hc by lia. reflexivity.
Qed.

Lemma grow_indirect d x lba d' : disk_ok d -> file_ok d x -> allocated_block d lba d' -> addr_at x NDIRECT = 0 ->
  extends d x d' (with_addr x NDIRECT lba) /\ addr_at (with_addr x NDIRECT lba) NDIRECT = lba /\ lba <> 0 /\
  reserve (with_addr x NDIRECT lba) = 0 /\
  (forall o, 0 <= o < MAX_FILE_SIZE * BSIZE -> content d' (with_addr x NDIRECT lba) o = content d x o).
Proof.
  intros D H A Hk0. destruct (alloc_file d x lba d' H A) as (Hf & Hfresh & Ha & Hc).
  assert (Hl : lba <> 0) by (pose proof (meta_pos d D); destruct A as (? & _); lia).
  destruct (link_indirect d' x lba Hf Hfresh Hl Hk0) as (Hf' & Hind & Ha' & Hc'). fold (with_addr x NDIRECT lba) in *.
  split_and!; auto.
  - apply (grow_extends d x lba d'); auto; try apply A.
    + intros a (Ha0 & [E|(j & Hj & E)]); [left; congruence|]. right. split; [exact Ha0|]. right. exists j.
      rewrite <- Ha, <- Ha' by lia. auto.
    + intros j Hj Hj0. rewrite Ha', Ha by lia. reflexivity.
  - unfold reserve. rewrite Hind. replace (lba =? 0) with false by lia. reflexivity.
  - intros o Ho. rewrite Hc', Hc by lia. reflexivity.
Qed.

(** Linking a fresh block in the indirect block. *)
Lemma link_entry d x k lba : disk_ok d -> file_ok d x -> fresh d x lba -> lba <> 0 -> 0 <= lba < 2 ^ 32 ->
  NDIRECT <= k < MAX_FILE_SIZE -> addr_at x NDIRECT <> 0 -> addr_of d x k = 0 ->
  let d' := dset d (addr_at x NDIRECT) (wr32 (d (addr_at x NDIRECT)) (4 * (k - NDIRECT)) lba) in
  disk_ok d' /\ file_ok d' x /\ d' 1 = d 1 /\ (forall a, 0 <= a < nblocks d -> marked d' a = marked d a) /\
  (forall j, 0 <= j < MAX_FILE_SIZE -> addr_of d' x j = if decide (j = k) then lba else addr_of d x j) /\
  (forall o, 0 <= o < MAX_FILE_SIZE * BSIZE -> content d' x o = content d x o).
Proof.
  intros D H [Fd Fz Fi Fn] Hl Hl32 Hk Hi Hk0 d'. set (ind := addr_at x NDIRECT) in *.
  assert (Hrk : 0 <= k - NDIRECT < 128) by (change MAX_FILE_SIZE with 140 in *; unfold NDIRECT in *; lia).
  destruct (dk_block _ D ind) as [Hbl Hby].
  destruct (wr32_block (d ind) (4 * (k - NDIRECT)) lba Hbl Hby ltac:(lia)) as [Hwl Hwb].
  destruct (data_write_ok d ind _ D (fo_ind _ _ H Hi) Hwl Hwb) as (D' & H1 & Hm). fold d' in D', H1, Hm.
  destruct (layout_same d d' H1) as (_ & _ & En & Em). pose proof (meta_pos d D) as Hmp.
  assert (Ha : forall j, 0 <= j < MAX_FILE_SIZE -> addr_of d' x j = if decide (j = k) then lba else addr_of d x j).
  { intros j Hj. unfold addr_of. destruct (j <? NDIRECT) eqn:Ej; tests; [rewrite decide_False by lia; reflexivity|].
    fold ind. replace (ind =? 0) with false by lia. unfold d' at 1. rewrite dset_eq.
    assert (Hrj : 0 <= j - NDIRECT < 128) by (change MAX_FILE_SIZE with 140 in *; unfold NDIRECT in *; lia).
    case_decide as E; [subst j; apply rd32_wr32 | apply rd32_wr32_ne]; first [exact Hbl | lia]. }
  assert (Hdata : forall a, data_block d a -> data_block d' a)
    by (intros a [? ?]; split; [rewrite En, Em; lia | rewrite Hm by lia; assumption]).
  split_and!; auto.
  - pose proof H as [L Dt I S J]. constructor; auto.
    + intros j Hj. rewrite Ha by exact Hj. case_decide; intros; apply Hdata; auto.
    + fold ind. intros _ j Hj. rewrite Ha by exact Hj. case_decide; [auto|]. apply S; auto.
    + intros i j Hii Hj Hij. rewrite !Ha by auto. repeat case_decide; try congruence; auto.
      intros _ E. apply (Fn j Hj). auto.
  - intros o Ho. unfold content. rewrite Ha by (unfold MAX_FILE_SIZE, NINDIRECT, NDIRECT, BSIZE in *; divlia).
    assert (Hro : 0 <= o / BSIZE < MAX_FILE_SIZE) by (unfold MAX_FILE_SIZE, NINDIRECT, NDIRECT, BSIZE in *; divlia).
    case_decide as E.
    + replace (lba =? 0) with false by lia. rewrite E, Hk0. unfold d'. rewrite dset_ne by auto. rewrite Fz. apply bget_zero.
    + destruct (addr_of d x (o / BSIZE) =? 0); [reflexivity|]. unfold d'. rewrite dset_ne; [reflexivity|].
      apply (fo_sep _ _ H); auto.
Qed.

Lemma grow_entry d x lba d' k : disk_ok d -> file_ok d x -> allocated_block d lba d' ->
  NDIRECT <= k < MAX_FILE_SIZE -> addr_at x NDIRECT <> 0 -> addr_of d x k = 0 ->
  let d2 := dset d' (addr_at x NDIRECT) (wr32 (d (addr_at x NDIRECT)) (4 * (k - NDIRECT)) lba) in
  extends d x d2 x /\ addr_of d2 x k = lba /\ free_count d2 = free_count d - 1 /\
  (forall o, 0 <= o < MAX_FILE_SIZE * BSIZE -> content d2 x o = content d x o).
Proof.
  intros D H A Hk Hi Hk0 d2. destruct (alloc_file d x lba d' H A) as (Hf & Hfresh & Ha & Hc).
  pose proof A as (Hr & Hu & D' & H1 & Hmk & Hz & Hfr). pose proof (meta_pos d D). pose proof (dk_size _ D).
  assert (Hind : d' (addr_at x NDIRECT) = d (addr_at x NDIRECT)).
  { destruct (fo_ind _ _ H Hi). apply Hfr; [congruence | lia]. }
  subst d2. rewrite <- Hind.
  destruct (link_entry d' x k lba D' Hf Hfresh ltac:(lia) ltac:(lia) Hk Hi ltac:(rewrite Ha; exact Hk0))
    as (D2 & Hf2 & H12 & Hm2 & Ha2 & Hc2).
  set (d3 := dset d' _ _) in *. destruct (layout_same d d' H1) as (_ & _ & En & _).
  destruct (layout_same d' d3 H12) as (_ & _ & En2 & _). split_and!.
  - apply (grow_extends d x lba d'); auto.
    + intros a Hno. unfold d3. apply dset_ne. intros ->. apply Hno. split; auto.
    + intros a (Ha0 & [E|(j & Hj & E)]); [right; split; auto|].
      rewrite Ha2, Ha in E by lia. case_decide; [left; congruence|]. right. split; [exact Ha0|]. eauto.
    + intros a Hra. apply Hm2. lia.
    + destruct x; reflexivity.
    + intros j Hj Hj0. rewrite Ha2, Ha by lia. rewrite decide_False by congruence. reflexivity.
  - rewrite Ha2, decide_True by (auto; unfold NDIRECT in *; lia). reflexivity.
  - rewrite <- (allocated_count d lba d' D A). unfold free_count. rewrite En2. f_equal. apply filter_same.
    intros a Hra. apply elem_of_seqZ in Hra. rewrite Hm2 by lia. tauto.
  - intros o Ho. rewrite Hc2, Hc by exact Ho. reflexivity.
Qed.

(** The block for block number [k]: it is there afterwards and the file reads as
    before.  A data block, and an indirect block the first time, is taken from
    the free ones. *)
Lemma block_map_ok d x k : disk_ok d -> file_ok d x -> 0 <= k < MAX_FILE_SIZE -> 0 < free_count d - reserve x ->
  exists lba x' d', block_map d x k = Done (lba, x', d') /\ extends d x d' x' /\ lba <> 0 /\ addr_of d' x' k = lba /\
    free_count d - reserve x - 1 <= free_count d' - reserve x' /\
    (forall o, 0 <= o < MAX_FILE_SIZE * BSIZE -> content d' x' o = content d x o).
Proof.
  intros D H Hk Hfree. assert (Hres : 0 <= reserve x <= 1) by (unfold reserve; destruct (_ =? 0); lia).
  unfold block_map. destruct (k <? NDIRECT) eqn:Ek; tests.
  - destruct (addr_at x k =? 0) eqn:E0; tests.
    + pose proof (alloc_block_ok d D) as HA. destruct (alloc_block d) as [lba d'].
      destruct HA as [(_ & _ & Hfull)|A]; [rewrite (full_count d Hfull) in Hfree; lia|].
      destruct (grow_direct d x lba d' k D H A ltac:(lia) E0) as (He & Ha & Hr & Hc).
      pose proof (allocated_count d lba d' D A). pose proof (meta_pos d D). destruct A as (Hra & _).
      assert (Eat : addr_at (with_addr x k lba) k = lba)
        by (rewrite <- Ha at 2; unfold addr_of; replace (k <? NDIRECT) with true by lia; reflexivity).
      exists lba, (with_addr x k lba), d'. fold (with_addr x k lba). rewrite Eat. split_and!; auto; lia.
    + exists (addr_at x k), x, d. split_and!; auto; [apply extends_refl; auto | | lia].
      unfold addr_of. replace (k <? NDIRECT) with true by lia. reflexivity.
  - assert (Hstep : exists x1 d1, (if addr_at x NDIRECT =? 0 then let '(lba, d0) := alloc_block d in (with_addr x NDIRECT lba, d0) else (x, d)) = (x1, d1) /\
      extends d x d1 x1 /\ addr_at x1 NDIRECT <> 0 /\ reserve x1 = 0 /\ free_count d - reserve x <= free_count d1 /\
      (forall o, 0 <= o < MAX_FILE_SIZE * BSIZE -> content d1 x1 o = content d x o)).
    { destruct (addr_at x NDIRECT =? 0) eqn:E0; tests.
      - pose proof (alloc_block_ok d D) as HA. destruct (alloc_block d) as [lba d'].
        destruct HA as [(_ & _ & Hfull)|A]; [rewrite (full_count d Hfull) in Hfree; lia|].
        destruct (grow_indirect d x lba d' D H A E0) as (He & Ha & Hl & Hr & Hc).
        pose proof (allocated_count d lba d' D A). exists (with_addr x NDIRECT lba), d'. unfold reserve at 2. rewrite E0.
        split_and!; auto; try congruence. change (0 =? 0) with true. cbn. lia.
      - exists x, d. unfold reserve. replace (addr_at x NDIRECT =? 0) with false by lia. split_and!; auto; [apply extends_refl; auto | lia]. }
    unfold with_addr in Hstep. destruct Hstep as (x1 & d1 & -> & He1 & Hi1 & Hr1 & Hfc & Hc1).
    replace (NINDIRECT <=? k - NDIRECT) with false by (unfold MAX_FILE_SIZE in *; lia).
    assert (Eof : rd32 (d1 (addr_at x1 NDIRECT)) (4 * (k - NDIRECT)) = addr_of d1 x1 k).
    { unfold addr_of. replace (k <? NDIRECT) with false by lia. replace (addr_at x1 NDIRECT =? 0) with false by lia. reflexivity. }
    cbn zeta. rewrite Eof. pose proof (ex_disk _ _ _ _ He1) as D1. pose proof (ex_file _ _ _ _ He1) as F1.
    destruct (addr_of d1 x1 k =? 0) eqn:E0; tests.
    + pose proof (alloc_block_ok d1 D1) as HA. destruct (alloc_block d1) as [lba d'].
      destruct HA as [(_ & _ & Hfull)|A]; [rewrite (full_count d1 Hfull) in Hfc; lia|].
      destruct (grow_entry d1 x1 lba d' k D1 F1 A ltac:(lia) Hi1 E0) as (He & Ha & Hf & Hc).
      pose proof (meta_pos d1 D1). destruct A as (Hra & _).
      eexists lba, x1, _. split; [reflexivity|]. split_and!; auto.
      * eapply extends_trans; eauto.
      * lia.
      * lia.
      * intros o Ho. rewrite Hc, Hc1 by exact Ho. reflexivity.
    + eexists _, x1, d1. split; [reflexivity|]. split_and!; auto. lia.
Qed.

(** ** Writing and reading *)

(** The number of blocks that [n] bytes from [offset] on touch. *)
Definition touched (offset n : Z) : Z := if n =? 0 then 0 else (offset mod BSIZE + n + 511) / BSIZE.

(** Storing bytes in a block of the file. *)
Lemma data_step d x k r bytes : disk_ok d -> file_ok d x -> 0 <= k < MAX_FILE_SIZE -> addr_of d x k <> 0 ->
  0 <= r -> r + zlen bytes <= BSIZE -> byte_list bytes ->
  let d' := dset d (addr_of d x k) (splice (d (addr_of d x k)) r bytes) in
  extends d x d' x /\ free_count d' = free_count d /\ (forall j, addr_of d' x j = addr_of d x j) /\
  (forall o, 0 <= o < MAX_FILE_SIZE * BSIZE -> content d' x o =
     if decide (k * BSIZE + r <= o < k * BSIZE + r + zlen bytes) then bget bytes (o - (k * BSIZE + r)) else content d x o).
Proof.
  intros D H Hk Ha0 Hr Hrl Hby d'. set (a := addr_of d x k) in *. destruct (dk_block _ D a) as [Hbl Hbb].
  assert (Hzl : r + zlen bytes <= zlen (d a)) by (unfold zlen at 2; rewrite Hbl; exact Hrl).
  assert (Hsl : length (splice (d a) r bytes) = 512%nat) by (rewrite splice_length; auto).
  destruct (data_write_ok d a _ D (fo_data _ _ H k Hk Ha0) Hsl (byte_list_splice _ r _ Hbb Hby)) as (D' & H1 & Hm).
  fold d' in D', H1, Hm. destruct (layout_same d d' H1) as (_ & Eb & En & Em).
  pose proof (meta_pos d D) as Hmp. destruct (fo_data _ _ H k Hk Ha0) as [Har Ham]. fold a in Har, Ham.
  destruct (file_same d d' x H1 H) as [Hof Hf'].
  { intros b [Hb Hmb]. rewrite Hm by lia. exact Hmb. }
  { intros Hi. apply dset_ne. intros E. apply (fo_sep _ _ H Hi k Hk). symmetry. exact E. }
  split_and!; auto.
  - constructor; auto.
    + intros b Hb. apply dset_ne. unfold meta_end in Har. pose proof (Z.div_pos (nblocks d) 4096). pose proof (dk_size _ D). lia.
    + intros b [Hb Hmb]. split; [rewrite Hm by lia; exact Hmb|]. intros Hno. split.
      * apply dset_ne. intros ->. apply Hno. split; [exact Ha0|]. eauto.
      * intros (Hb0 & [E|(j & Hj & E)]); apply Hno; (split; [exact Hb0|]); [auto|]. right. exists j. rewrite <- Hof. auto.
    + destruct x; reflexivity.
  - unfold free_count. rewrite En. f_equal. apply filter_same. intros b Hb. apply elem_of_seqZ in Hb. rewrite Hm by lia. tauto.
  - intros o Ho. unfold content. rewrite Hof.
    assert (Hko : 0 <= o / BSIZE < MAX_FILE_SIZE) by (change MAX_FILE_SIZE with 140 in *; unfold BSIZE in *; divlia).
    destruct (Z.eq_dec (o / BSIZE) k) as [E|E].
    + rewrite E. fold a. replace (a =? 0) with false by lia. unfold d'. rewrite dset_eq, bget_splice by (auto; unfold BSIZE; divlia).
      unfold BSIZE in *. repeat case_decide; try reflexivity; try divlia. f_equal. divlia.
    + rewrite decide_False by (unfold BSIZE in *; divlia).
      destruct (addr_of d x (o / BSIZE) =? 0) eqn:E0; tests; [reflexivity|]. unfold d'. rewrite dset_ne; [reflexivity|].
      apply (fo_inj _ _ H); auto.
Qed.

Lemma block_map_present d x k : 0 <= k < MAX_FILE_SIZE -> addr_of d x k <> 0 -> block_map d x k = Done (addr_of d x k, x, d).
Proof.
  intros Hk. unfold block_map, addr_of. destruct (k <? NDIRECT) eqn:Ek; tests.
  - destruct (addr_at x k =? 0) eqn:E; tests; [congruence | reflexivity].
  - destruct (addr_at x NDIRECT =? 0) eqn:E; tests; [congruence|].
    replace (NINDIRECT <=? k - NDIRECT) with false by (unfold MAX_FILE_SIZE in *; lia).
    destruct (rd32 _ _ =? 0) eqn:E0; tests; [congruence | reflexivity].
Qed.

Lemma block_map_keeps d x k lba x' d' : 0 <= k < MAX_FILE_SIZE -> addr_of d x k <> 0 -> block_map d x k = Done (lba, x', d') -> x' = x.
Proof. intros Hk Ha E. rewrite block_map_present in E by auto. congruence. Qed.

(** Block [k] holds some of the [n] bytes from [offset] on. *)
Definition touches (offset n k : Z) : Prop := 0 < n /\ k * BSIZE < offset + n /\ offset < (k + 1) * BSIZE.

(** What a write promises about a file. *)
Definition written (d : disk) (x : inode) (offset : Z) (src : list Z) (d' : disk) (x' : inode) : Prop :=
  extends d x d' x' /\
  (forall o, 0 <= o < MAX_FILE_SIZE * BSIZE -> content d' x' o =
     if decide (offset <= o < offset + zlen src) then bget src (o - offset) else content d x o) /\
  (forall k, 0 <= k < MAX_FILE_SIZE -> touches offset (zlen src) k -> addr_of d' x' k <> 0) /\
  ((forall k, 0 <= k < MAX_FILE_SIZE -> touches offset (zlen src) k -> addr_of d x k <> 0) -> x' = x).

Lemma bget_take_drop src n i : 0 <= n <= zlen src -> 0 <= i ->
  bget src i = if decide (i < n) then bget (take (Z.to_nat n) src) i else bget (drop (Z.to_nat n) src) (i - n).
Proof.
  intros Hn Hi. unfold bget. rewrite !(zget_nonneg _ i) by lia. case_decide.
  - rewrite lookup_take, decide_True by lia. reflexivity.
  - rewrite zget_nonneg by lia. rewrite lookup_drop. do 2 f_equal. lia.
Qed.

Lemma zlen_take_drop {A} (src : list A) n : 0 <= n <= zlen src ->
  zlen (take (Z.to_nat n) src) = n /\ zlen (drop (Z.to_nat n) src) = zlen src - n.
Proof. intros. unfold zlen in *. rewrite length_take, length_drop. lia. Qed.

(** One more round of the loop in front. *)
Lemma written_cons d x d1 x1 offset n src d' x' : disk_ok d -> file_ok d x ->
  0 < n <= zlen src -> offset mod BSIZE + n <= BSIZE -> 0 <= offset -> offset + zlen src <= MAX_FILE_SIZE * BSIZE ->
  (n = zlen src \/ (offset + n) mod BSIZE = 0) ->
  extends d x d1 x1 -> addr_of d1 x1 (offset / BSIZE) <> 0 ->
  (addr_of d x (offset / BSIZE) <> 0 -> x1 = x /\ (forall k, addr_of d1 x1 k = addr_of d x k)) ->
  (forall o, 0 <= o < MAX_FILE_SIZE * BSIZE -> content d1 x1 o =
     if decide (offset <= o < offset + n) then bget src (o - offset) else content d x o) ->
  written d1 x1 (offset + n) (drop (Z.to_nat n) src) d' x' -> written d x offset src d' x'.
Proof.
  intros D H Hn Hnb Ho Hmax Hal E1 Ha1 Hsame Hc1 (E2 & Hc2 & Hp2 & Hx2).
  destruct (zlen_take_drop src n ltac:(lia)) as [_ Hzd]. rewrite Hzd in Hc2, Hp2, Hx2.
  assert (Hk0 : 0 <= offset / BSIZE < MAX_FILE_SIZE) by (change MAX_FILE_SIZE with 140 in *; unfold BSIZE in *; divlia).
  split; [eapply extends_trans; eauto|]. split; [|split].
  - intros o Hoo. rewrite Hc2 by exact Hoo. destruct (decide (offset + n <= o < _)) as [Hd|Hd].
    + rewrite decide_True by lia. rewrite (bget_take_drop src n (o - offset)) by lia. rewrite decide_False by lia. f_equal. lia.
    + rewrite Hc1 by exact Hoo. repeat case_decide; try reflexivity; lia.
  - intros k Hk Hk1. destruct (Z.eq_dec k (offset / BSIZE)) as [->|Hne].
    + rewrite (ex_keep _ _ _ _ E2); auto.
    + apply Hp2; auto; unfold touches, BSIZE in *; divlia.
  - intros Hall. destruct (Hsame ltac:(apply Hall; auto; unfold touches, BSIZE in *; divlia)) as [-> Hof].
    apply Hx2. intros k Hk Hk1. rewrite Hof. apply Hall; auto; unfold touches, BSIZE in *; lia.
Qed.

(** The bytes one round moves, and what is left for the next. *)
Lemma round_facts offset n : 0 <= offset -> 0 < n -> offset + n <= MAX_FILE_SIZE * BSIZE ->
  let m := Z.min (BSIZE - offset mod BSIZE) n in
  0 < m <= n /\ offset mod BSIZE + m <= BSIZE /\ (m = n \/ (offset + m) mod BSIZE = 0) /\
  u32 (offset + m) = offset + m /\ touched (offset + m) (n - m) = touched offset n - 1 /\ 0 < touched offset n /\
  0 <= offset / BSIZE < MAX_FILE_SIZE /\ offset = offset / BSIZE * BSIZE + offset mod BSIZE.
Proof.
  intros Ho Hn Hmax m. change MAX_FILE_SIZE with 140 in *. unfold touched. unfold BSIZE in *.
  assert (Hm : m = Z.min (512 - offset mod 512) n) by reflexivity. clearbody m.
  assert (Hm2 : (m = n /\ n <= 512 - offset mod 512) \/ (m = 512 - offset mod 512 /\ m < n)) by lia.
  replace (n =? 0) with false by lia.
  split; [divlia|]. split; [divlia|]. split; [destruct Hm2 as [[? ?]|[? ?]]; [left; lia | right; divlia]|].
  split; [apply u32_small; divlia|]. split; [|split; [divlia|split; divlia]].
  destruct (n - m =? 0) eqn:E; tests; destruct Hm2 as [[? ?]|[? ?]]; try lia; divlia.
Qed.

Lemma write_loop_ok : forall fuel d x offset src, disk_ok d -> file_ok d x -> byte_list src ->
  0 <= offset -> offset + zlen src <= MAX_FILE_SIZE * BSIZE ->
  touched offset (zlen src) <= Z.of_nat fuel -> touched offset (zlen src) <= free_count d - reserve x ->
  exists d' x', write_loop fuel d x offset src = Done (x', d') /\ written d x offset src d' x' /\
    free_count d - reserve x - touched offset (zlen src) <= free_count d' - reserve x'.
Proof.
  assert (Hnil : forall d x offset src, disk_ok d -> file_ok d x -> zlen src = 0 -> written d x offset src d x).
  { intros d x offset src D H E. unfold written. rewrite E. split; [apply extends_refl; auto|]. split; [|split; auto].
    - intros o Ho. rewrite decide_False by lia. reflexivity.
    - intros k Hk Hk1. unfold touches in *. lia. }
  assert (Hlen : forall src : list Z, 0 <= zlen src) by (intros; unfold zlen; lia).
  assert (Hz : forall offset, touched offset 0 = 0) by reflexivity.
  induction fuel as [|fuel IH]; intros d x offset src D H Hby Ho Hmax Hf Hfree; cbn [write_loop]; specialize (Hlen src).
  { assert (E0 : zlen src = 0)
      by (destruct (Z.eq_dec (zlen src) 0); [assumption|]; destruct (round_facts offset (zlen src)) as (_ & _ & _ & _ & _ & Ht & _); lia).
    exists d, x. split; [reflexivity|]. split; [apply Hnil; auto | rewrite E0, Hz; lia]. }
  destruct (0 <? zlen src) eqn:E0; tests;
    [|assert (E : zlen src = 0) by lia; exists d, x; split; [reflexivity|]; split; [apply Hnil; auto | rewrite E, Hz; lia]].
  destruct (round_facts offset (zlen src) Ho E0 Hmax) as (Hm & Hmb & Hal & Hu & Ht & Htp & Hk & Hdm).
  set (m := Z.min _ _) in *. clearbody m.
  destruct (block_map_ok d x (offset / BSIZE) D H Hk ltac:(lia)) as (lba & x1 & d1 & Eb & He & Hl & Ha & Hfc & Hc).
  rewrite Eb. cbn [obind]. pose proof (ex_disk _ _ _ _ He) as D1. pose proof (ex_file _ _ _ _ He) as F1. subst lba.
  destruct (zlen_take_drop src m ltac:(lia)) as [Hzt Hzd].
  destruct (data_step d1 x1 (offset / BSIZE) (offset mod BSIZE) (take (Z.to_nat m) src) D1 F1 Hk Hl)
    as (He2 & Hf2 & Hof2 & Hc2); [unfold BSIZE; divlia | rewrite Hzt; exact Hmb | apply Forall_take, Hby |].
  rewrite <- Hdm, Hzt in Hc2. set (d2 := dset d1 _ _) in *. rewrite Hu.
  destruct (IH d2 x1 (offset + m) (drop (Z.to_nat m) src)) as (d' & x' & Ew & Hw & Hroom); try apply He2;
    rewrite ?Hzd; try lia; [apply Forall_drop, Hby|]. rewrite Hzd, Ht in Hroom.
  exists d', x'. split; [exact Ew|]. split; [|lia]. eapply (written_cons d x d2 x1 offset m); eauto.
  - eapply extends_trans; eauto.
  - rewrite Hof2. exact Hl.
  - intros Hp. pose proof (block_map_keeps _ _ _ _ _ _ Hk Hp Eb) as ->. split; [reflexivity|]. intros j. rewrite Hof2.
    rewrite block_map_present in Eb by auto. congruence.
  - intros o Hoo. rewrite Hc2 by exact Hoo. case_decide; [|apply Hc; exact Hoo].
    symmetry. rewrite (bget_take_drop src m) by lia. rewrite decide_True by lia. reflexivity.
Qed.

Lemma read_loop_ok d x : disk_ok d -> file_ok d x -> forall fuel offset n, 0 <= offset -> 0 <= n -> offset + n <= MAX_FILE_SIZE * BSIZE ->
  touched offset n <= Z.of_nat fuel ->
  (forall k, 0 <= k < MAX_FILE_SIZE -> touches offset n k -> addr_of d x k <> 0) ->
  read_loop fuel d x offset n = Done (content d x <$> seqZ offset n, x, d).
Proof.
  intros D H. induction fuel as [|fuel IH]; intros offset n Ho Hn Hmax Hf Hp; cbn [read_loop].
  { destruct (Z.eq_dec n 0) as [->|]; [reflexivity|]. destruct (round_facts offset n) as (_ & _ & _ & _ & _ & Ht & _); lia. }
  destruct (0 <? n) eqn:E0; tests; [|replace n with 0 by lia; reflexivity].
  destruct (round_facts offset n Ho E0 Hmax) as (Hm & Hmb & Hal & Hu & Ht & Htp & Hk & Hdm).
  set (m := Z.min _ _) in *. clearbody m.
  assert (Ha : addr_of d x (offset / BSIZE) <> 0) by (apply Hp; auto; unfold touches, BSIZE in *; divlia).
  rewrite block_map_present by auto. cbn [obind]. rewrite Hu, IH; try lia.
  - cbn [obind]. do 3 f_equal. replace n with (m + (n - m)) at 2 by lia. rewrite seqZ_app by lia. rewrite fmap_app. f_equal.
    destruct (dk_block _ D (addr_of d x (offset / BSIZE))) as [Hbl _].
    rewrite slice_bytes by (unfold zlen; rewrite ?Hbl; unfold BSIZE in *; divlia).
    replace (seqZ offset m) with ((fun i => offset / BSIZE * BSIZE + i) <$> seqZ (offset mod BSIZE) m).
    + rewrite <- list_fmap_compose. apply list_fmap_ext. intros i o Hi. apply lookup_seqZ in Hi as [-> Hi].
      unfold compose, content. unfold BSIZE in *.
      replace ((offset / 512 * 512 + (offset mod 512 + Z.of_nat i)) / 512) with (offset / 512) by divlia.
      replace ((offset / 512 * 512 + (offset mod 512 + Z.of_nat i)) mod 512) with (offset mod 512 + Z.of_nat i) by divlia.
      replace (addr_of d x (offset / 512) =? 0) with false by lia. reflexivity.
    + unfold seqZ. rewrite <- list_fmap_compose. apply list_fmap_ext. intros i o _. unfold compose. lia.
  - intros k Hkk H1. apply Hp; auto. unfold touches in *. lia.
Qed.

(** ** The inode table *)

Record fields_ok (x : inode) : Prop := {
  fi_type : 0 <= i_type x < 2 ^ 16;
  fi_major : 0 <= i_major x < 2 ^ 16;
  fi_minor : 0 <= i_minor x < 2 ^ 16;
  fi_nlinks : 0 <= i_nlinks x < 2 ^ 16;
  fi_size : 0 <= i_size x < 2 ^ 32;
  fi_addrs : length (i_addrs x) = 13%nat /\ Forall (fun a => 0 <= a < 2 ^ 32) (i_addrs x)
}.

(** The copy of the disk inode in memory agrees with the disk. *)
Definition synced (d : disk) (x : inode) : Prop :=
  read_from_disk d (mk_inode (i_dev x) (i_inum x) (i_ref x) 0 (i_sem x) 0 0 0 0 0 []) (i_inum x) =
  mk_inode (i_dev x) (i_inum x) (i_ref x) 1 (i_sem x) (i_type x) (i_major x) (i_minor x) (i_nlinks x) (i_size x) (i_addrs x).

Lemma slice_inside b o src i n : 0 <= o -> o + zlen src <= zlen b -> 0 <= i -> 0 <= n -> i + n <= zlen src ->
  slice (splice b o src) (o + i) n = slice src i n.
Proof.
  intros Ho Hl Hi Hn Hin. pose proof (splice_length b o src Ho Hl) as Hlen.
  rewrite !slice_bytes by (unfold zlen in *; lia).
  replace (seqZ (o + i) n) with ((fun j => o + j) <$> seqZ i n).
  - rewrite <- list_fmap_compose. apply list_fmap_ext. intros k v Hv. apply lookup_seqZ in Hv as [-> Hv]. unfold compose.
    rewrite bget_splice by lia. rewrite decide_True by lia. f_equal. lia.
  - unfold seqZ. rewrite <- list_fmap_compose. apply list_fmap_ext. intros k v _. unfold compose. lia.
Qed.

Lemma dinode_length x : length (i_addrs x) = 13%nat -> length (dinode_bytes x) = 64%nat.
Proof.
  intros H. unfold dinode_bytes. destruct x as [? ? ? ? ? ? ? ? ? ? l]; simpl in *.
  do 13 (destruct l as [|? l]; [discriminate|]). destruct l; [reflexivity | discriminate].
Qed.

Lemma dinode_byte_list x : byte_list (dinode_bytes x).
Proof.
  unfold dinode_bytes. repeat (apply Forall_app; split; [apply le_bytes_byte_list|]).
  induction (i_addrs x); [constructor|]. cbn [fmap list_fmap mjoin list_join]. apply Forall_app. split; [apply le_bytes_byte_list | assumption].
Qed.

(** The bytes of a disk inode hold its fields. *)
Lemma dinode_fields x : fields_ok x ->
  rd16 (dinode_bytes x) 0 = i_type x /\ rd16 (dinode_bytes x) 2 = i_major x /\ rd16 (dinode_bytes x) 4 = i_minor x /\
  rd16 (dinode_bytes x) 6 = i_nlinks x /\ rd32 (dinode_bytes x) 8 = i_size x /\
  map (fun k => rd32 (dinode_bytes x) (12 + 4 * k)) [0; 1; 2; 3; 4; 5; 6; 7; 8; 9; 10; 11; 12] = i_addrs x.
Proof.
  assert (H2 : forall v, 0 <= v < 2 ^ 16 -> le_value (le_bytes 2 v) = v)
    by (intros; rewrite le_value_bytes; apply Z.mod_small; lia).
  assert (H4 : forall v, 0 <= v < 2 ^ 32 -> le_value (le_bytes 4 v) = v)
    by (intros; rewrite le_value_bytes; apply Z.mod_small; lia).
  intros [T M N L S [A F]]. destruct x as [? ? ? ? ? ty ma mi nl sz l]; simpl in T, M, N, L, S, A, F.
  do 13 (destruct l as [|? l]; [discriminate|]). destruct l; [|discriminate].
  split; [apply (H2 ty T)|]. split; [apply (H2 ma M)|]. split; [apply (H2 mi N)|]. split; [apply (H2 nl L)|].
  split; [apply (H4 sz S)|]. repeat (apply Forall_cons in F as [? F]).
  cbn [map]. change (i_addrs _) with [z; z0; z1; z2; z3; z4; z5; z6; z7; z8; z9; z10; z11]. repeat match goal with |- _ :: _ = ?v :: _ => f_equal; [exact (H4 v ltac:(assumption))|] end. f_equal. exact (H4 z11 ltac:(assumption)).
Qed.

Lemma write_to_disk_synced d x : length (d (inode_block (i_inum x))) = 512%nat -> 0 <= i_inum x -> fields_ok x ->
  synced (write_to_disk d x) x.
Proof.
  intros Hb Hi Hf. unfold synced, read_from_disk, write_to_disk. cbn [i_valid i_dev i_inum i_ref i_sem]. change (0 =? 0) with true. cbn [andb].
  unfold inode_block, inode_offset, m_inode_lba in *. rewrite (Z.add_comm 2). rewrite (Z.add_comm 2) in Hb.
  rewrite dset_eq. set (b := d _) in *. unfold BSIZE, DISK_INODE_SIZE. change (512 / 64) with 8.
  set (o := i_inum x mod 8 * 64). assert (Ho : 0 <= o <= 448) by (unfold o; divlia). clearbody o.
  pose proof (dinode_length x (proj1 (fi_addrs _ Hf))) as Hdl.
  assert (R : forall i n, 0 <= i -> 0 <= n -> i + n <= 64 -> slice (splice b o (dinode_bytes x)) (o + i) n = slice (dinode_bytes x) i n)
    by (intros; apply slice_inside; unfold zlen; rewrite ?Hdl, ?Hb; lia).
  destruct (dinode_fields x Hf) as (E1 & E2 & E3 & E4 & E5 & E6). f_equal.
  - rewrite <- E1. unfold rd16. rewrite <- (R 0 2) by lia. rewrite Z.add_0_r. reflexivity.
  - rewrite <- E2. unfold rd16. rewrite R by lia. reflexivity.
  - rewrite <- E3. unfold rd16. rewrite R by lia. reflexivity.
  - rewrite <- E4. unfold rd16. rewrite R by lia. reflexivity.
  - rewrite <- E5. unfold rd32. rewrite R by lia. reflexivity.
  - etransitivity; [|exact E6]. apply map_ext_in. intros k Hk. unfold rd32. rewrite <- Z.add_assoc, R; [reflexivity|..];
      simpl in Hk; lia.
Qed.

(** Writing one inode leaves the others on the disk. *)
Lemma write_to_disk_other d x y : length (d (inode_block (i_inum x))) = 512%nat -> 0 <= i_inum x -> 0 <= i_inum y -> i_inum y <> i_inum x ->
  length (i_addrs x) = 13%nat -> synced d y -> synced (write_to_disk d x) y.
Proof.
  intros Hb Hx Hy Hne Hl Hs. unfold synced. rewrite <- Hs. unfold write_to_disk.
  unfold read_from_disk. cbn [i_valid i_dev i_inum i_ref i_sem]. change (0 =? 0) with true. cbn beta iota.
  unfold inode_block, inode_offset, m_inode_lba in *. unfold BSIZE, DISK_INODE_SIZE in *. change (512 / 64) with 8 in *.
  rewrite (Z.add_comm 2 (i_inum x / 8)) in Hb. rewrite (Z.add_comm 2).
  destruct (Z.eq_dec (i_inum y / 8) (i_inum x / 8)) as [E|E]; [|rewrite dset_ne by lia; reflexivity].
  rewrite E, dset_eq. set (b := d _) in *. set (o := i_inum x mod 8 * 64). set (p := i_inum y mod 8 * 64).
  assert (Hop : 0 <= o <= 448 /\ 0 <= p <= 448 /\ (p + 64 <= o \/ o + 64 <= p)) by (unfold o, p; divlia). clearbody o p.
  assert (R : forall i n, 0 <= i -> 0 <= n -> i + n <= 64 -> slice (splice b o (dinode_bytes x)) (p + i) n = slice b (p + i) n).
  { intros. pose proof (dinode_length x Hl) as Hdl. apply slice_splice_ne; unfold zlen; rewrite ?Hdl, ?Hb; lia. }
  f_equal; unfold rd16, rd32; rewrite ?R by lia; try reflexivity.
  - specialize (R 0 2). rewrite Z.add_0_r in R. rewrite R by lia. reflexivity.
  - apply map_ext_in. intros k Hk. rewrite <- Z.add_assoc, R; [reflexivity|..]; simpl in Hk; lia.
Qed.

(** ** A file on the disk *)

(** Every block below the size is there, and the inode on the disk is the one in
    memory. *)
Record file_wf (d : disk) (x : inode) : Prop := {
  fw_file : file_ok d x;
  fw_holes : forall k, 0 <= k -> k * BSIZE < i_size x -> addr_of d x k <> 0;
  fw_size : 0 <= i_size x <= MAX_FILE_SIZE * BSIZE;
  fw_fields : fields_ok x;
  fw_inum : 0 <= i_inum x < sb_ninodes (read_super_block d);
  fw_sync : synced d x
}.

(** Two files share no block. *)
Definition disjoint_files (d : disk) (x y : inode) : Prop := i_inum y <> i_inum x /\ forall a, owns d y a -> ~ owns d x a.

Lemma synced_same d d' x : d' (inode_block (i_inum x)) = d (inode_block (i_inum x)) -> synced d x -> synced d' x.
Proof.
  unfold synced, read_from_disk. cbn [i_valid i_dev i_inum i_ref i_sem]. change (0 =? 0) with true. cbn beta iota. intros ->. auto.
Qed.

Lemma inode_block_low d x : disk_ok d -> 0 <= i_inum x < sb_ninodes (read_super_block d) -> 2 <= inode_block (i_inum x) < bitmap_block d.
Proof.
  intros D H. rewrite bitmap_block_eq by apply D. unfold inode_block, m_inode_lba, BSIZE, DISK_INODE_SIZE. change (512 / 64) with 8. divlia.
Qed.

(** Writing into the inode table. *)
Lemma meta_write_ok d a b : disk_ok d -> 2 <= a < bitmap_block d -> length b = 512%nat -> byte_list b ->
  disk_ok (dset d a b) /\ dset d a b 1 = d 1 /\ (forall x, 0 <= x < nblocks d -> marked (dset d a b) x = marked d x) /\
  (forall x, meta_end d <= x -> dset d a b x = d x).
Proof.
  intros D Ha Hl Hb. pose proof (dk_size _ D).
  assert (H1 : dset d a b 1 = d 1) by (apply dset_ne; lia). destruct (layout_same d _ H1) as (Es & Eb & En & Em).
  assert (Hm : forall x, 0 <= x < nblocks d -> marked (dset d a b) x = marked d x).
  { intros x Hx. unfold marked. rewrite Eb, dset_ne; [reflexivity|]. pose proof (Z.div_pos x 4096). lia. }
  split_and!; auto.
  - constructor; rewrite ?En, ?Em, ?Es; try apply D.
    + intros x. unfold dset. destruct (x =? a); [auto | apply D].
    + intros x Hx. pose proof (dk_meta _ D). rewrite Hm by lia. apply (dk_marked _ D x Hx).
  - intros x Hx. apply dset_ne. unfold meta_end in Hx. pose proof (Z.div_pos (nblocks d) 4096). lia.
Qed.

Lemma write_to_disk_ok d x : disk_ok d -> fields_ok x -> 0 <= i_inum x < sb_ninodes (read_super_block d) ->
  let d' := write_to_disk d x in
  disk_ok d' /\ d' 1 = d 1 /\ (forall a, 0 <= a < nblocks d -> marked d' a = marked d a) /\ (forall a, meta_end d <= a -> d' a = d a).
Proof.
  intros D F Hi. pose proof (inode_block_low d x D Hi) as Hlow. unfold write_to_disk.
  unfold inode_block, m_inode_lba in Hlow. rewrite (Z.add_comm 2) in Hlow. set (a := i_inum x / _ + 2) in *.
  destruct (dk_block _ D a) as [Hl Hb]. pose proof (dinode_length x (proj1 (fi_addrs _ F))) as Hdl.
  apply meta_write_ok; auto; [|apply byte_list_splice; [exact Hb | apply dinode_byte_list]].
  rewrite splice_length; [exact Hl | unfold BSIZE, DISK_INODE_SIZE; divlia |].
  unfold zlen. rewrite Hl, Hdl. unfold BSIZE, DISK_INODE_SIZE. change (512 / 64) with 8. divlia.
Qed.

(** A file whose blocks and marks are unchanged is unchanged. *)
Lemma kept_file d d' y : disk_ok d -> d' 1 = d 1 -> file_ok d y -> (forall a, data_block d a -> marked d' a = true) ->
  (forall a, owns d y a -> d' a = d a) ->
  file_ok d' y /\ (forall k, addr_of d' y k = addr_of d y k) /\
  (forall o, 0 <= o < MAX_FILE_SIZE * BSIZE -> content d' y o = content d y o).
Proof.
  intros D H1 Hy Hm Hsame. destruct (file_same d d' y H1 Hy Hm) as [Ha Hf].
  { intros Hi. apply Hsame. split; auto. }
  split_and!; auto. apply content_same; auto. intros k Hk Hk0. apply Hsame. split; eauto.
Qed.

Lemma write_to_disk_kept d x y : disk_ok d -> fields_ok x -> 0 <= i_inum x < sb_ninodes (read_super_block d) -> file_ok d y ->
  file_ok (write_to_disk d x) y /\ (forall k, addr_of (write_to_disk d x) y k = addr_of d y k) /\
  (forall o, 0 <= o < MAX_FILE_SIZE * BSIZE -> content (write_to_disk d x) y o = content d y o).
Proof.
  intros D F Hi Hy. destruct (write_to_disk_ok d x D F Hi) as (D' & H1 & Hm & Hd). pose proof (meta_pos d D).
  apply kept_file; auto.
  - intros a [Ha Hma]. rewrite Hm by lia. exact Hma.
  - intros a Ha. apply owns_data in Ha as [Ha _]; [|exact Hy]. apply Hd. lia.
Qed.

Lemma extends_other d x d' x' y : disk_ok d -> extends d x d' x' -> file_wf d y -> disjoint_files d x y ->
  file_wf d' y /\ disjoint_files d' x' y /\ (forall o, 0 <= o < MAX_FILE_SIZE * BSIZE -> content d' y o = content d y o).
Proof.
  intros D E [Hf Hh Hs Hfi Hi Hsy] [Hne Hdj].
  destruct (kept_file d d' y D (ex_sb _ _ _ _ E) Hf) as (Hf' & Ha & Hc).
  { intros a Ha. apply (ex_frame _ _ _ _ E), Ha. }
  { intros a Ha. apply (ex_frame _ _ _ _ E); [eapply owns_data; eauto | auto]. }
  destruct (layout_same d d' (ex_sb _ _ _ _ E)) as (Es & _). split_and!; auto.
  - constructor; auto; [intros; rewrite Ha; auto | rewrite Es; exact Hi |].
    apply (synced_same d); [|exact Hsy]. apply (ex_meta _ _ _ _ E), inode_block_low; auto.
  - rewrite (ex_inode _ _ _ _ E). split; [exact Hne|]. rewrite <- (ex_inode _ _ _ _ E).
    intros a (Ha0 & Hoa). assert (Hod : owns d y a).
    { split; [exact Ha0|]. destruct Hoa as [?|(k & Hk & Ek)]; [left; auto | right; exists k; rewrite <- Ha; auto]. }
    apply (ex_frame _ _ _ _ E); [eapply owns_data; eauto | auto].
Qed.

Section FileTheorems.
Context (dev_read : Z -> option (Z -> outcome (Z * list Z))) (dev_write : Z -> option (list Z -> outcome Z)).

Lemma touched_rounds offset n : 0 <= offset -> 0 <= n -> touched offset n <= Z.of_nat (rounds n).
Proof.
  intros. unfold touched, rounds, BSIZE in *. destruct (n =? 0); [lia|]. rewrite Z2Nat.id by divlia. divlia.
Qed.

Lemma read_inode_ok d x offset n : disk_ok d -> file_wf d x -> i_type x <> I_TYPE_DEV ->
  0 <= offset <= i_size x -> 0 <= n < 2 ^ 31 ->
  let m := Z.min n (i_size x - offset) in
  read_inode dev_read d x offset n = Done (m, content d x <$> seqZ offset m, x, d).
Proof.
  intros D W Ht Ho Hn m. unfold read_inode. replace (i_type x =? I_TYPE_DEV) with false by lia.
  pose proof (fw_size _ _ W) as Hs. change (MAX_FILE_SIZE * BSIZE) with 71680 in Hs.
  replace (i_size x <? offset) with false by lia. rewrite u32_small by lia.
  assert (Em : (if i_size x <? offset + n then i_size x - offset else n) = m)
    by (unfold m; destruct (i_size x <? offset + n) eqn:E; tests; lia).
  cbn zeta. rewrite Em. assert (Hm : 0 <= m <= i_size x - offset) by lia. clearbody m. clear Em.
  rewrite (read_loop_ok d x D (fw_file _ _ W)); try lia.
  - reflexivity.
  - change (MAX_FILE_SIZE * BSIZE) with 71680. lia.
  - apply touched_rounds; lia.
  - intros k Hk (H0 & H1 & H2). apply (fw_holes _ _ W); lia.
Qed.

Lemma fields_addrs d x l : disk_ok d -> file_ok d (with_addrs x l) -> fields_ok x -> fields_ok (with_addrs x l).
Proof.
  intros D F [T M N L S _]. constructor; simpl; auto. pose proof (fo_len _ _ F) as Hl. simpl in Hl. split; [exact Hl|].
  apply Forall_lookup. intros i a Hi. assert (Hr : (i < 13)%nat) by (apply lookup_lt_Some in Hi; lia).
  assert (Ea : addr_at (with_addrs x l) (Z.of_nat i) = a).
  { unfold addr_at, bget. rewrite zget_nonneg by lia. rewrite Nat2Z.id. simpl. rewrite Hi. reflexivity. }
  pose proof (dk_size _ D). pose proof (meta_pos d D). destruct (Z.eq_dec a 0) as [->|Hz]; [lia|].
  enough (data_block d a) as [? _] by lia. destruct (decide (i = 12%nat)) as [->|Hne].
  - rewrite <- Ea. apply (fo_ind _ _ F). change NDIRECT with (Z.of_nat 12). congruence.
  - assert (Eo : addr_of d (with_addrs x l) (Z.of_nat i) = a).
    { unfold addr_of. replace (Z.of_nat i <? NDIRECT) with true by (unfold NDIRECT; lia). exact Ea. }
    rewrite <- Eo. apply (fo_data _ _ F); [change MAX_FILE_SIZE with 140; lia | congruence].
Qed.

Lemma fields_with_size x n : 0 <= n < 2 ^ 32 -> fields_ok x -> fields_ok (with_size x n).
Proof. intros Hn [T M N L S A]. constructor; simpl; auto. Qed.

Lemma file_ok_with_size d x n : file_ok d x -> file_ok d (with_size x n).
Proof. intros [L D I S J]. constructor; assumption. Qed.

(** What [write_inode] promises. *)
Definition stored (d : disk) (x : inode) (offset : Z) (src : list Z) (d' : disk) (x' : inode) : Prop :=
  disk_ok d' /\ file_wf d' x' /\ i_size x' = Z.max (i_size x) (offset + zlen src) /\
  i_inum x' = i_inum x /\ i_type x' = i_type x /\
  (forall o, 0 <= o < MAX_FILE_SIZE * BSIZE -> content d' x' o =
     if decide (offset <= o < offset + zlen src) then bget src (o - offset) else content d x o) /\
  (forall y, file_wf d y -> disjoint_files d x y ->
     file_wf d' y /\ disjoint_files d' x' y /\ (forall o, 0 <= o < MAX_FILE_SIZE * BSIZE -> content d' y o = content d y o)).


Lemma stored_inside d x offset src d' x' : disk_ok d -> file_wf d x -> 0 <= offset <= i_size x ->
  zlen src = 0 \/ offset + zlen src <= i_size x -> written d x offset src d' x' -> stored d x offset src d' x'.
Proof.
  intros D W Ho Hin (E & Hc & _ & Hx). assert (0 <= zlen src) by (unfold zlen; lia).
  assert (x' = x) as ->.
  { apply Hx. intros k Hk (H0 & H1 & H2). apply (fw_holes _ _ W); lia. }
  destruct (layout_same d d' (ex_sb _ _ _ _ E)) as (Es & _). pose proof (fw_size _ _ W) as Hsz.
  split; [apply E|]. split; [|split; [lia|]; split; [reflexivity|]; split; [reflexivity|]; split; [exact Hc|]].
  - constructor; try apply W; try apply E; [|rewrite Es; apply W|].
    + intros k Hk Hks. assert (k < MAX_FILE_SIZE) by (unfold BSIZE in *; lia).
      rewrite (ex_keep _ _ _ _ E); auto; apply (fw_holes _ _ W); auto.
    + apply (synced_same d); [|apply W]. apply (ex_meta _ _ _ _ E), inode_block_low; auto. apply W.
  - intros y Wy Hdy. eapply extends_other; eauto.
Qed.

Lemma stored_grown d x offset src d' x' : disk_ok d -> file_wf d x -> 0 <= offset <= i_size x -> 0 < zlen src ->
  i_size x < offset + zlen src <= MAX_FILE_SIZE * BSIZE -> written d x offset src d' x' ->
  stored d x offset src (write_to_disk d' (with_size x' (offset + zlen src))) (with_size x' (offset + zlen src)).
Proof.
  intros D W Ho Hl Hg (E & Hc & Hp & _). set (x2 := with_size x' _). pose proof (ex_disk _ _ _ _ E) as D'.
  destruct (layout_same d d' (ex_sb _ _ _ _ E)) as (Es & _). change (MAX_FILE_SIZE * BSIZE) with 71680 in Hg.
  assert (Hinum : i_inum x2 = i_inum x) by (unfold x2; rewrite (ex_inode _ _ _ _ E); reflexivity).
  assert (Htype : i_type x2 = i_type x) by (unfold x2; rewrite (ex_inode _ _ _ _ E); reflexivity).
  assert (F2 : fields_ok x2).
  { apply fields_with_size; [lia|]. rewrite (ex_inode _ _ _ _ E). apply (fields_addrs d'); auto;
      [rewrite <- (ex_inode _ _ _ _ E); apply E | apply W]. }
  assert (Hr : 0 <= i_inum x2 < sb_ninodes (read_super_block d')) by (rewrite Hinum, Es; apply W).
  assert (Hfx : file_ok d' x2) by (apply file_ok_with_size, E).
  destruct (write_to_disk_ok d' x2 D' F2 Hr) as (D2 & H1 & _).
  destruct (write_to_disk_kept d' x2 x2 D' F2 Hr Hfx) as (Hf2 & Ha2 & Hc2).
  destruct (layout_same d' _ H1) as (Es2 & _).
  split; [exact D2|]. split; [|split; [unfold x2; simpl; lia|]; split; [exact Hinum|]; split; [exact Htype|]; split].
  - constructor; auto; [| unfold x2; cbn [i_size with_size]; change (MAX_FILE_SIZE * BSIZE) with 71680; lia | rewrite Es2; exact Hr |].
    + intros k Hk Hks. rewrite Ha2. unfold x2 in Hks. cbn [i_size with_size] in Hks. unfold BSIZE in Hks.
      change (addr_of d' x' k <> 0). destruct (Z_lt_le_dec (k * 512) (i_size x)).
      * rewrite (ex_keep _ _ _ _ E); [|change MAX_FILE_SIZE with 140; lia|]; apply (fw_holes _ _ W); auto.
      * apply Hp; [change MAX_FILE_SIZE with 140; lia|]. unfold touches, BSIZE. lia.
    + apply write_to_disk_synced; [apply D' | apply Hr | exact F2].
  - intros o Hoo. rewrite Hc2 by exact Hoo. apply Hc. exact Hoo.
  - intros y Wy Hdy. destruct (extends_other d x d' x' y D E Wy Hdy) as (W' & Hd' & Hc').
    destruct (write_to_disk_kept d' x2 y D' F2 Hr (fw_file _ _ W')) as (Hfy & Hay & Hcy). split; [|split].
    + constructor; try apply W'; auto; [intros; rewrite Hay; apply W'; auto | rewrite Es2; apply W' |].
      apply write_to_disk_other; try apply W'; [apply D' | apply Hr | | apply F2]. rewrite Hinum. apply Hdy.
    + split; [apply Hd'|]. assert (Ho' : forall z a, file_ok d' z -> owns (write_to_disk d' x2) z a <-> owns d' z a).
      { intros z a Hz. destruct (write_to_disk_kept d' x2 z D' F2 Hr Hz) as (_ & Haz & _). unfold owns. setoid_rewrite Haz. reflexivity. }
      intros a Ha. rewrite Ho' in Ha |- * by first [apply W' | exact Hfx]. apply Hd', Ha.
    + intros o Hoo. rewrite Hcy by exact Hoo. apply Hc', Hoo.
Qed.

(** Writing an inode takes no block. *)
Lemma write_to_disk_room d x : disk_ok d -> fields_ok x -> 0 <= i_inum x < sb_ninodes (read_super_block d) -> free_count (write_to_disk d x) = free_count d.
Proof.
  intros D F Hr. destruct (write_to_disk_ok d x D F Hr) as (_ & H1 & Hm & _). destruct (layout_same d _ H1) as (_ & _ & En & _).
  unfold free_count. rewrite En. f_equal. apply filter_same. intros b Hb. apply elem_of_seqZ in Hb. rewrite Hm by lia. tauto.
Qed.

(** What [write_inode] stores, and the blocks that are left. *)
Lemma write_inode_room d x src offset : disk_ok d -> file_wf d x -> i_type x <> I_TYPE_DEV -> byte_list src ->
  0 <= offset <= i_size x -> offset + zlen src <= MAX_FILE_SIZE * BSIZE ->
  touched offset (zlen src) + reserve x <= free_count d ->
  exists x' d', write_inode dev_write d x src offset = Done (zlen src, x', d') /\ stored d x offset src d' x' /\
    free_count d - reserve x - touched offset (zlen src) <= free_count d' - reserve x'.
Proof.
  intros D W Ht Hby Ho Hmax Hfree. assert (0 <= zlen src) by (unfold zlen; lia).
  destruct (write_loop_ok (rounds (zlen src)) d x offset src D (fw_file _ _ W) Hby) as (d' & x' & El & Hw & Hroom); try lia;
    [apply touched_rounds; lia|].
  unfold write_inode. replace (i_type x =? I_TYPE_DEV) with false by lia. replace (i_size x <? offset) with false by lia.
  change (MAX_FILE_SIZE * BSIZE) with 71680 in *. rewrite u32_small by lia. replace (71680 <? offset + zlen src) with false by lia.
  rewrite El. cbn [obind]. pose proof (proj1 Hw) as E.
  assert (Es : i_size x' = i_size x) by (rewrite (ex_inode _ _ _ _ E); reflexivity).
  rewrite Es. destruct ((0 <? zlen src) && (i_size x <? offset + zlen src)) eqn:Ec.
  - tests. eexists _, _. split; [reflexivity|]. split; [apply stored_grown; auto|].
    rewrite write_to_disk_room; [exact Hroom | apply E | |].
    + apply fields_with_size; [lia|]. rewrite (ex_inode _ _ _ _ E). apply (fields_addrs d'); [apply E | rewrite <- (ex_inode _ _ _ _ E); apply E | apply W].
    + destruct (layout_same d d' (ex_sb _ _ _ _ E)) as (Es' & _). rewrite Es'. cbn [i_inum with_size]. rewrite (ex_inode _ _ _ _ E). apply W.
  - eexists _, _. split; [reflexivity|]. split; [|exact Hroom]. apply stored_inside; auto. apply andb_false_iff in Ec as [Ec|Ec]; tests; lia.
Qed.

Lemma write_inode_ok d x src offset : disk_ok d -> file_wf d x -> i_type x <> I_TYPE_DEV -> byte_list src ->
  0 <= offset <= i_size x -> offset + zlen src <= MAX_FILE_SIZE * BSIZE ->
  touched offset (zlen src) + reserve x <= free_count d ->
  exists x' d', write_inode dev_write d x src offset = Done (zlen src, x', d') /\ stored d x offset src d' x'.
Proof.
  intros D W Ht Hby Ho Hmax Hfree. destruct (write_inode_room d x src offset D W Ht Hby Ho Hmax Hfree) as (x' & d' & E & S' & _). eauto.
Qed.

End FileTheorems.

(** ** Freeing a block *)

Lemma clear_byte v m : 0 <= v < 256 -> 0 <= Z.land v m < 256.
Proof.
  intros Hv. assert (Hn : 0 <= Z.land v m) by (apply Z.land_nonneg; lia). split; [exact Hn|].
  destruct (Z.eq_dec (Z.land v m) 0) as [->|]; [lia|]. change 256 with (2 ^ 8). apply Z.log2_lt_pow2; [lia|].
  destruct (Z.eq_dec v 0) as [->|]; [rewrite Z.land_0_l in *; lia|].
  destruct (Z_lt_le_dec m 0) as [Hm|Hm].
  - assert (Z.land v m = Z.land v (m mod 2 ^ 8)) as ->.
    { rewrite <- Z.land_ones by lia. rewrite (Z.land_comm m), Z.land_assoc, Z.land_ones_low; [reflexivity | lia |].
      apply Z.log2_lt_pow2; lia. }
    eapply Z.le_lt_trans; [apply Z.log2_land; [lia | apply Z.mod_pos_bound; lia]|].
    apply Z.min_lt_iff. left. apply Z.log2_lt_pow2; lia.
  - eapply Z.le_lt_trans; [apply Z.log2_land; lia|]. apply Z.min_lt_iff. left. apply Z.log2_lt_pow2; lia.
Qed.

Lemma bit_clear_ok b bit bit' : length b = 512%nat -> 0 <= bit < 4096 -> 0 <= bit' < 4096 ->
  bit_get (bit_clear b bit) bit' = negb (bit' =? bit) && bit_get b bit'.
Proof.
  intros Hb Hbit Hbit'. rewrite !bit_get_testbit. unfold bit_clear.
  rewrite bget_splice by (unfold zlen; simpl; rewrite ?Hb; divlia).
  replace (zlen [_]) with 1 by reflexivity. case_decide as Hd.
  - assert (E8 : bit' / 8 = bit / 8) by lia. rewrite E8, Z.sub_diag. unfold bget at 1. simpl.
    rewrite Z.land_spec, Z.lxor_spec, Z.shiftl_1_l, Z.pow2_bits_eqb by divlia.
    replace (bit mod 8 =? bit' mod 8) with (bit' =? bit)
      by (destruct (bit' =? bit) eqn:E; symmetry; [apply Z.eqb_eq | apply Z.eqb_neq]; divlia).
    change 255 with (Z.ones 8). rewrite Z.ones_spec_low by divlia. rewrite andb_comm. destruct (bit' =? bit); reflexivity.
  - replace (bit' =? bit) with false; [reflexivity|]. symmetry. apply Z.eqb_neq. intros ->. lia.
Qed.

Lemma bit_clear_block b bit : length b = 512%nat -> byte_list b -> 0 <= bit < 4096 ->
  length (bit_clear b bit) = 512%nat /\ byte_list (bit_clear b bit).
Proof.
  intros Hb Hby Hbit. unfold bit_clear. split.
  - rewrite splice_length; [exact Hb | divlia | unfold zlen; simpl; rewrite Hb; divlia].
  - apply byte_list_splice; [exact Hby|]. constructor; [apply clear_byte, byte_list_bget, Hby | constructor].
Qed.

Lemma free_block_ok d lba : disk_ok d -> data_block d lba ->
  let d' := free_block d lba in
  disk_ok d' /\ d' 1 = d 1 /\ (forall x, 0 <= x < nblocks d -> marked d' x = negb (x =? lba) && marked d x) /\
  (forall x, x < bitmap_block d \/ meta_end d <= x -> d' x = d x).
Proof.
  intros D [Hl Hm] d'. pose proof (bitmap_ge d D) as H3. pose proof (dk_size _ D) as Hn. pose proof (meta_pos d D) as Hmp.
  set (index := bitmap_block d + lba / 4096).
  assert (Ed : d' = dset d index (bit_clear (d index) (lba mod 4096)))
    by (unfold d', free_block, BSIZE; change (512 * 8) with 4096; unfold marked in Hm; fold index in Hm |- *; rewrite Hm; reflexivity).
  clearbody d'. destruct (dk_block _ D index) as [Hbl Hby].
  assert (Hidx : bitmap_block d <= index < meta_end d).
  { unfold index, meta_end. pose proof (Z.div_le_mono lba (nblocks d) 4096). pose proof (Z.div_pos lba 4096). lia. }
  assert (H1 : d' 1 = d 1) by (rewrite Ed; apply dset_ne; lia). destruct (layout_same d d' H1) as (Es & Eb & En & Em).
  destruct (bit_clear_block (d index) (lba mod 4096) Hbl Hby ltac:(divlia)) as [Hcl Hcb].
  assert (Hmk : forall x, 0 <= x < nblocks d -> marked d' x = negb (x =? lba) && marked d x).
  { intros x Hx. unfold marked. rewrite Eb, Ed. destruct (Z.eq_dec (bitmap_block d + x / 4096) index) as [E|E].
    - rewrite E, dset_eq, bit_clear_ok by (auto; divlia). f_equal. f_equal.
      destruct (x =? lba) eqn:Ex; [apply Z.eqb_eq | apply Z.eqb_neq]; unfold index in *; divlia.
    - rewrite dset_ne by exact E. replace (x =? lba) with false; [reflexivity|]. symmetry. apply Z.eqb_neq. unfold index in *. congruence. }
  split_and!; auto.
  - constructor; rewrite ?En, ?Em, ?Es; try apply D.
    + intros x. rewrite Ed. unfold dset. destruct (x =? index); [auto | apply D].
    + intros x Hx. pose proof (dk_meta _ D). rewrite Hmk by lia. replace (x =? lba) with false by lia. apply (dk_marked _ D x Hx).
  - intros x Hx. rewrite Ed. apply dset_ne. lia.
Qed.

(** ** Theorems *)

Lemma alloc_then_free_marks d lba d' : disk_ok d -> allocated_block d lba d' ->
  disk_ok (free_block d' lba) /\ forall x, 0 <= x < nblocks d -> marked (free_block d' lba) x = marked d x.
Proof.
  intros D (Hr & Hu & D' & H1 & Hmk & Hz & Hfr). destruct (layout_same d d' H1) as (_ & _ & En & Em). pose proof (meta_pos d D).
  assert (Hd : data_block d' lba) by (split; [rewrite En, Em; lia | rewrite Hmk, Z.eqb_refl by lia; reflexivity]).
  destruct (free_block_ok d' lba D' Hd) as (D2 & _ & Hm2 & _). split; [exact D2|]. intros x Hx.
  rewrite Hm2, Hmk by lia. destruct (x =? lba) eqn:E; tests; [subst x; rewrite Hu; reflexivity | reflexivity].
Qed.

(** A small disk: 64 blocks, 8 inodes, the bitmap in block 4, inode 1 an empty file. *)
Definition test_disk : disk := fun lba =>
  if lba =? 1 then le_bytes 4 64 ++ le_bytes 4 64 ++ le_bytes 4 8 ++ repeat 0 500
  else if lba =? 2 then repeat 0 64 ++ [2; 0; 0; 0; 0; 0; 1; 0] ++ repeat 0 440
  else if lba =? 4 then 31 :: repeat 0 511
  else repeat 0 512.

Definition test_inode : inode := mk_inode 1 1 1 1 1 I_TYPE_FILE 0 0 1 0 (repeat 0 13).

Lemma byte_list_repeat n : byte_list (repeat 0 n).
Proof. apply Forall_forall. intros x Hx. apply list_elem_of_In, repeat_spec in Hx. lia. Qed.

Lemma test_disk_ok : disk_ok test_disk.
Proof.
  constructor.
  - intros lba. unfold test_disk. destruct (lba =? 1); [|destruct (lba =? 2); [|destruct (lba =? 4)]]; (split; [reflexivity|]).
    + repeat (apply Forall_app; split; [apply le_bytes_byte_list|]). apply byte_list_repeat.
    + repeat (apply Forall_app; split); try apply byte_list_repeat. repeat constructor; lia.
    + constructor; [lia | apply byte_list_repeat].
    + apply byte_list_repeat.
  - vm_compute. auto.
  - split; vm_compute; [discriminate | reflexivity].
  - vm_compute. discriminate.
  - intros lba H. change (meta_end test_disk) with 5 in H.
    assert (lba = 0 \/ lba = 1 \/ lba = 2 \/ lba = 3 \/ lba = 4) as [->|[->|[->|[->| ->]]]] by lia; reflexivity.
Qed.

Lemma test_addr d k : addr_of d test_inode k = 0.
Proof.
  assert (Hz : forall j, addr_at test_inode j = 0).
  { intros j. unfold addr_at, bget. destruct (zget _ j) eqn:E; [|reflexivity]. unfold zget in E. destruct (j <? 0); [discriminate|].
    apply list_elem_of_lookup_2, list_elem_of_In, repeat_spec in E. exact E. }
  unfold addr_of. rewrite !Hz. destruct (k <? NDIRECT); reflexivity.
Qed.

Lemma test_file_wf : file_wf test_disk test_inode.
Proof.
  constructor.
  - constructor; try (intros; rewrite ?test_addr in *; congruence); try reflexivity; intros H; exfalso; apply H; reflexivity.
  - intros k Hk H. exfalso. unfold BSIZE in H. cbn in H. lia.
  - cbn. change (MAX_FILE_SIZE * BSIZE) with 71680. lia.
  - constructor; cbn; unfold I_TYPE_FILE, I_TYPE_DIR; try lia. split; [reflexivity | repeat constructor; lia].
  - vm_compute. split; [discriminate | reflexivity].
  - vm_compute. reflexivity.
Qed.

Lemma test_free : free_count test_disk = 59.
Proof. vm_compute. reflexivity. Qed.

(** The block allocator.  On a well-formed disk [alloc_block] either finds every
    block in use, returns 0 and changes nothing, or returns a block that was
    unmarked, lies behind the metadata, is marked and zeroed afterwards, and
    changes no other block outside the bitmap and no other mark; the disk stays
    well formed, and freeing the block gives all the marks back. *)
Theorem alloc_block_correct d : disk_ok d ->
  let '(lba, d') := alloc_block d in
  (lba = 0 /\ d' = d /\ full d) \/
  (allocated_block d lba d' /\ disk_ok (free_block d' lba) /\
   forall x, 0 <= x < nblocks d -> marked (free_block d' lba) x = marked d x).
Proof.
  intros D. pose proof (alloc_block_ok d D) as HA. destruct (alloc_block d) as [lba d']. destruct HA as [HA|HA]; [left; exact HA|].
  right. split; [exact HA|]. apply alloc_then_free_marks; auto.
Qed.

Lemma alloc_block_correct_witness : fst (alloc_block test_disk) = 5 /\
  let '(lba, d') := alloc_block test_disk in
  (lba = 0 /\ d' = test_disk /\ full test_disk) \/
  (allocated_block test_disk lba d' /\ disk_ok (free_block d' lba) /\
   forall x, 0 <= x < nblocks test_disk -> marked (free_block d' lba) x = marked test_disk x).
Proof. split; [vm_compute; reflexivity|]. apply (alloc_block_correct test_disk), test_disk_ok. Defined.

(** Inodes on the disk.  After [write_to_disk] an inode read afresh from its slot
    has every field that was written, and every other inode of the table reads as
    before. *)
Theorem inode_disk_roundtrip d x : disk_ok d -> fields_ok x -> 0 <= i_inum x < sb_ninodes (read_super_block d) ->
  synced (write_to_disk d x) x /\ disk_ok (write_to_disk d x) /\
  forall y, 0 <= i_inum y -> i_inum y <> i_inum x -> synced d y -> synced (write_to_disk d x) y.
Proof.
  intros D F Hi. split; [apply write_to_disk_synced; [apply D | apply Hi | exact F]|].
  split; [apply write_to_disk_ok; auto|]. intros y Hy Hne Hs.
  apply write_to_disk_other; auto; [apply D | apply Hi | apply F].
Qed.

Lemma inode_disk_roundtrip_witness : let x := mk_inode 1 3 1 1 1 I_TYPE_DIR 0 0 2 32 (5 :: repeat 0 12) in
  synced (write_to_disk test_disk x) x /\ synced (write_to_disk test_disk x) test_inode.
Proof.
  intros x. destruct (inode_disk_roundtrip test_disk x) as (H1 & _ & H2).
  - apply test_disk_ok.
  - constructor; cbn; unfold I_TYPE_FILE, I_TYPE_DIR; try lia. split; [reflexivity | repeat constructor; lia].
  - vm_compute. split; [discriminate | reflexivity].
  - split; [exact H1|]. apply H2; [cbn; lia | cbn; lia |]. apply test_file_wf.
Defined.

Lemma write_read_ok dev_read dev_write d x src offset : disk_ok d -> file_wf d x -> i_type x <> I_TYPE_DEV -> byte_list src ->
  0 <= offset <= i_size x -> offset + zlen src <= MAX_FILE_SIZE * BSIZE ->
  touched offset (zlen src) + reserve x <= free_count d ->
  exists x' d', write_inode dev_write d x src offset = Done (zlen src, x', d') /\ stored d x offset src d' x' /\
    read_inode dev_read d' x' offset (zlen src) = Done (zlen src, src, x', d').
Proof.
  intros D W Ht Hby Ho Hmax Hfree. assert (0 <= zlen src) by (unfold zlen; lia).
  destruct (write_inode_ok dev_read dev_write d x src offset D W Ht Hby Ho Hmax Hfree) as (x' & d' & Ew & S).
  exists x', d'. split; [exact Ew|]. split; [exact S|]. destruct S as (D' & W' & Hs & _ & Hty & Hc & _).
  change (MAX_FILE_SIZE * BSIZE) with 71680 in *.
  rewrite read_inode_ok by (auto; try congruence; lia). replace (Z.min _ _) with (zlen src) by lia. do 4 f_equal.
  rewrite <- (firstn_all src) at 2. unfold zlen. change src with (drop (Z.to_nat 0) src) at 3.
  rewrite (slice_seq src (length src) 0) by (unfold zlen; lia).
  unfold seqZ. rewrite <- !list_fmap_compose. apply list_fmap_ext. intros i o Hi. apply lookup_seq in Hi as [-> Hi].
  unfold compose. unfold zlen in *. rewrite Hc by lia. rewrite decide_True by lia. f_equal. lia.
Qed.

(** C9: Files.  Writing bytes to a file at an offset no larger than its size, with
    room on the disk and within the maximal file size, returns their number;
    reading the same range returns exactly these bytes; outside the range the
    file reads as before, its size is the larger of the old size and the end of
    the range, the inode on the disk is up to date, and every other file keeps its
    contents, its inode and its disjointness from this one. *)
Theorem write_then_read dev_read dev_write d x src offset : disk_ok d -> file_wf d x -> i_type x <> I_TYPE_DEV -> byte_list src ->
  0 <= offset <= i_size x -> offset + zlen src <= MAX_FILE_SIZE * BSIZE ->
  touched offset (zlen src) + reserve x <= free_count d ->
  exists x' d', write_inode dev_write d x src offset = Done (zlen src, x', d') /\ stored d x offset src d' x' /\
    read_inode dev_read d' x' offset (zlen src) = Done (zlen src, src, x', d').
Proof. apply write_read_ok. Qed.

Lemma write_then_read_witness : exists x' d',
  write_inode (fun _ => None) test_disk test_inode [104; 105] 0 = Done (2, x', d') /\
  stored test_disk test_inode 0 [104; 105] d' x' /\
  read_inode (fun _ => None) d' x' 0 2 = Done (2, [104; 105], x', d').
Proof.
  apply (write_then_read (fun _ => None) (fun _ => None) test_disk test_inode [104; 105] 0).
  - apply test_disk_ok.
  - apply test_file_wf.
  - discriminate.
  - repeat constructor; lia.
  - cbn. lia.
  - vm_compute. discriminate.
  - rewrite test_free. vm_compute. discriminate.
Defined.

(** A full disk.  [block_map] does not look at the result of [alloc_block]: when
    every block is in use, appending at most a block of bytes to a file whose next
    direct block is not there reports success, and the bytes overwrite block 0 of
    the disk. *)
Theorem full_disk_overwrites_block_0 dev_write d x src : disk_ok d -> full d -> length (i_addrs x) = 13%nat -> i_type x <> I_TYPE_DEV ->
  0 <= i_size x -> i_size x mod BSIZE = 0 -> i_size x / BSIZE < NDIRECT -> addr_at x (i_size x / BSIZE) = 0 ->
  0 < zlen src <= BSIZE -> 0 <= i_inum x ->
  exists x' d', write_inode dev_write d x src (i_size x) = Done (zlen src, x', d') /\ d' 0 = splice (d 0) 0 src.
Proof.
  intros D Hfull Hl Ht Hs Hal Hk Ha Hn Hi. unfold NDIRECT in Hk.
  assert (Hsz : i_size x <= 5632) by (unfold BSIZE in *; divlia). unfold write_inode. replace (i_type x =? I_TYPE_DEV) with false by lia.
  rewrite Z.ltb_irrefl. change (MAX_FILE_SIZE * BSIZE) with 71680. unfold BSIZE in Hn. rewrite !u32_small by lia.
  replace (71680 <? i_size x + zlen src) with false by lia.
  assert (EA : alloc_block d = (0, d)).
  { pose proof (alloc_block_ok d D) as HA. destruct (alloc_block d) as [lba d'].
    destruct HA as [(-> & -> & _)|(Hr & Hu & _)]; [reflexivity|]. rewrite Hfull in Hu by (pose proof (meta_pos d D); lia). discriminate. }
  assert (Ef : exists f, rounds (zlen src) = S (S f)).
  { exists (Z.to_nat (zlen src / BSIZE)). unfold rounds. pose proof (Z.div_pos (zlen src) BSIZE). unfold BSIZE in *. lia. }
  destruct Ef as [f ->]. cbn [write_loop]. replace (0 <? zlen src) with true by lia.
  assert (Hk0 : 0 <= i_size x / BSIZE < 12) by (unfold BSIZE in *; divlia).
  assert (Eb : block_map d x (i_size x / BSIZE) = Done (0, with_addr x (i_size x / BSIZE) 0, d)).
  { unfold block_map. replace (i_size x / BSIZE <? NDIRECT) with true by (unfold NDIRECT; lia). rewrite Ha, EA. change (0 =? 0) with true.
    cbn beta iota. fold (with_addr x (i_size x / BSIZE) 0).
    assert (addr_at (with_addr x (i_size x / BSIZE) 0) (i_size x / BSIZE) = 0) as ->; [|reflexivity].
    unfold with_addr. rewrite addr_zset, decide_True; auto; lia. }
  rewrite Eb. cbn [obind]. rewrite Hal. replace (Z.min (BSIZE - 0) (zlen src)) with (zlen src) by (unfold BSIZE; lia).
  replace (Z.to_nat (zlen src)) with (length src) by (unfold zlen; lia). rewrite drop_all, firstn_all. cbn [obind]. change (0 <? zlen []) with false. cbn [obind].
  change (i_size (with_addr x (i_size x / BSIZE) 0)) with (i_size x). replace (i_size x <? i_size x + zlen src) with true by lia.
  cbn [andb]. eexists _, _. split; [reflexivity|]. unfold write_to_disk. rewrite dset_ne, dset_eq; [reflexivity|].
  cbn [i_inum with_size with_addr with_addrs]. pose proof (Z.div_pos (i_inum x) (BSIZE / DISK_INODE_SIZE)). change (BSIZE / DISK_INODE_SIZE) with 8 in *. lia.
Qed.

(** The same disk with every block in use. *)
Definition full_disk : disk := dset test_disk 4 (repeat 255 8 ++ repeat 0 504).

Lemma full_disk_full : full full_disk.
Proof.
  intros x Hx. change (nblocks full_disk) with 64 in Hx.
  assert (H : Forall (fun a => marked full_disk a = true) (seqZ 0 64)) by (apply (bool_decide_unpack _); vm_compute; exact I).
  rewrite Forall_forall in H. apply H, elem_of_seqZ. lia.
Qed.

Lemma full_disk_ok : disk_ok full_disk.
Proof.
  constructor; try apply test_disk_ok.
  - intros lba. unfold full_disk, dset. destruct (lba =? 4); [|apply test_disk_ok]. split; [reflexivity|].
    apply Forall_app. split; [repeat constructor; lia | apply byte_list_repeat].
  - intros lba H. apply full_disk_full. change (meta_end full_disk) with 5 in H. change (nblocks full_disk) with 64. lia.
Qed.

Lemma full_disk_overwrites_block_0_witness : exists x' d',
  write_inode (fun _ => None) full_disk test_inode [7; 8; 9] 0 = Done (3, x', d') /\ d' 0 = [7; 8; 9] ++ repeat 0 509.
Proof.
  apply (full_disk_overwrites_block_0 (fun _ => None) full_disk test_inode [7; 8; 9]).
  - apply full_disk_ok.
  - apply full_disk_full.
  - reflexivity.
  - discriminate.
  - cbn. lia.
  - reflexivity.
  - reflexivity.
  - reflexivity.
  - split; reflexivity || discriminate.
  - cbn. lia.
Defined.
