(* ===== verification/BlockDev.v ===== *)
(** * The block device: buffer cache, disk requests (src/src/block_dev.cc,
    io_buffer.cc, hd.cc)

    The file system reads and writes blocks through a cache of buffers.  A miss
    queues a request for the disk; the process sleeps until the interrupt of the
    controller has filled the buffer.  [FsDisk] takes the device for a function from
    block numbers to blocks, and [cached_blocks_refine_disk] is what entitles it to.

    The lists of buffers and of requests are the sequences that [ListT] shows
    [list_t] to implement; a pointer to a buffer is its index in [m_bufs]. *)
From Stdlib Require Import ZArith ZifyBool Lia.
From stdpp Require Import base option list gmap.
From S2P Require Import Prelude Sync FsDisk.

Definition SECT_SIZE : Z := 512.
Definition BUFFER_PAGES : Z := 64.
Definition SIZEOF_IO_BUFFER : Z := 632.

Record io_buffer := mk_buf {
  b_lba : Z;
  b_done : Z;
  b_sem : Z;
  b_wait_done : Z;
  b_data : list Z
}.

Definition io_buffer_init (junk : list Z) : io_buffer := mk_buf 0 0 1 0 junk.

(** [request_t] *)
Inductive hd_cmd := CMD_READ | CMD_WRITE.
Record request := mk_req { r_dev : Z; r_lba : Z; r_cmd : hd_cmd; r_buffer : Z }.

(** ** The controller

    [do_request] writes six registers and the command; for a write it then moves the
    buffer out through the data port.  The interrupt says that the command is done, and
    after a read the data port delivers the sector. *)
Record task_file := mk_task {
  t_count : Z;
  t_low : Z;
  t_mid : Z;
  t_high : Z;
  t_drive_head : Z
}.

(** The byte ports take the low eight bits of what is written. *)
Definition task_of (dev lba : Z) : task_file :=
  mk_task 1 (Z.land lba 0xff) (Z.land (Z.shiftr lba 8) 0xff) (Z.land (Z.shiftr lba 16) 0xff)
    (u8 (Z.lor (Z.lor 0xe0 (Z.shiftl (Z.land dev 1) 4)) (Z.land (Z.shiftr lba 24) 0xff))).

(** How a controller in LBA mode reads them. *)
Definition task_lba (t : task_file) : Z :=
  t_low t + 2 ^ 8 * t_mid t + 2 ^ 16 * t_high t + 2 ^ 24 * (t_drive_head t mod 16).
Definition task_drive (t : task_file) : Z := t_drive_head t / 16 mod 2.

(** What the code relies on of the controller: [finish] is the completion of the
    command, with what the data port then delivers. *)
Class Controller (D : Type) : Type := {
  sector : D -> Z -> Z -> list Z;
  issue_read : D -> task_file -> D;
  issue_write : D -> task_file -> list Z -> D;
  finish : D -> list Z * D
}.

Class ControllerLaws (D : Type) `{Controller D} : Prop := {
  finish_read w t : exists w', finish (issue_read w t) = (sector w (task_drive t) (task_lba t), w') /\
    forall v a, sector w' v a = sector w v a;
  finish_write w t data : exists junk w', finish (issue_write w t data) = (junk, w') /\
    forall v a, sector w' v a = if (v =? task_drive t) && (a =? task_lba t) then data else sector w v a
}.

(** A controller with its sectors in memory. *)
Record ram_disk := mk_ram { ram_sectors : Z -> Z -> list Z; ram_pending : option (task_file * option (list Z)) }.

#[export] Instance ram_controller : Controller ram_disk := {
  sector := ram_sectors;
  issue_read w t := mk_ram (ram_sectors w) (Some (t, None));
  issue_write w t data := mk_ram (ram_sectors w) (Some (t, Some data));
  finish w := match ram_pending w with
              | Some (t, None) => (ram_sectors w (task_drive t) (task_lba t), mk_ram (ram_sectors w) None)
              | Some (t, Some data) =>
                  ([], mk_ram (fun v a => if (v =? task_drive t) && (a =? task_lba t) then data else ram_sectors w v a) None)
              | None => ([], w)
              end
}.

#[export] Instance ram_laws : ControllerLaws ram_disk.
Proof. split; intros; cbn; eauto 6. Qed.

(** ** State and operations *)

Record block_dev (D : Type) := mk_dev {
  m_dev : Z;
  m_bufs : list io_buffer;
  m_used_list : list Z;
  m_free_list : list Z;
  m_current : option request;
  m_req_list : list request;
  m_hw : D
}.
Arguments mk_dev {D}.
Arguments m_dev {D}. Arguments m_bufs {D}. Arguments m_used_list {D}. Arguments m_free_list {D}.
Arguments m_current {D}. Arguments m_req_list {D}. Arguments m_hw {D}.

Section Ops.
Context {D : Type} `{Controller D}.
Implicit Type s : block_dev D.

Definition set_bufs s l : block_dev D := mk_dev (m_dev s) l (m_used_list s) (m_free_list s) (m_current s) (m_req_list s) (m_hw s).
Definition set_lists s used free : block_dev D := mk_dev (m_dev s) (m_bufs s) used free (m_current s) (m_req_list s) (m_hw s).
Definition set_requests s cur q hw : block_dev D := mk_dev (m_dev s) (m_bufs s) (m_used_list s) (m_free_list s) cur q hw.

Definition buf s b : outcome io_buffer := deref (zget (m_bufs s) b).
Definition set_buf s b x : block_dev D := set_bufs s (zset (m_bufs s) b x).

(** [m_buf_num] buffers out of [BUFFER_PAGES] pages of memory that holds whatever it held. *)
Definition dev_init (dev : Z) (junk : Z -> list Z) (hw : D) : block_dev D :=
  let n := Z.to_nat (4096 * BUFFER_PAGES / SIZEOF_IO_BUFFER) in
  mk_dev dev (map (fun i => io_buffer_init (junk (Z.of_nat i))) (seq 0 n)) [] (map Z.of_nat (seq 0 n)) None [] hw.

(** [semaphore_t::down] of the lock: a process that finds it taken sleeps. *)
Definition buf_lock s b : outcome (block_dev D) :=
  let! x := buf s b in
  let! c := down1 (b_sem x) in
  Done (set_buf s b (mk_buf (b_lba x) (b_done x) c (b_wait_done x) (b_data x))).

Definition buf_unlock s b : outcome (block_dev D) :=
  let! x := buf s b in
  Done (set_buf s b (mk_buf (b_lba x) (b_done x) (up1 (b_sem x)) (b_wait_done x) (b_data x))).

(** The search of the used list. *)
Fixpoint find_cached s (used : list Z) (lba : Z) : outcome (option Z) :=
  match used with
  | [] => Done None
  | b :: r => let! x := buf s b in if b_lba x =? lba then Done (Some b) else find_cached s r lba
  end.

(** A buffer for a block that is not cached: a free one, else the first of the used list. *)
Definition victim s : outcome (Z * block_dev D) :=
  match m_free_list s with
  | b :: r => Done (b, set_lists s (m_used_list s) r)
  | [] => match m_used_list s with
          | b :: r => Done (b, set_lists s r [])
          | [] => Fault
          end
  end.

Definition get_block s (lba : Z) : outcome (Z * block_dev D) :=
  let! hit := find_cached s (m_used_list s) lba in
  let! ' (b, s) :=
    match hit with
    | Some b => Done (b, s)
    | None =>
        let! ' (b, s) := victim s in
        let! x := buf s b in
        Done (b, set_buf s b (mk_buf lba 0 (b_sem x) (b_wait_done x) (b_data x)))
    end in
  let! s := buf_lock s b in Done (b, s).

Definition release_block s b : outcome (block_dev D) :=
  buf_unlock (set_lists s (m_used_list s ++ [b]) (m_free_list s)) b.

(** [hard_disk_t] *)
Definition do_request s : outcome (block_dev D) :=
  match m_current s with
  | None => Done s
  | Some r =>
      let t := task_of (r_dev r) (r_lba r) in
      match r_cmd r with
      | CMD_READ => Done (set_requests s (m_current s) (m_req_list s) (issue_read (m_hw s) t))
      | CMD_WRITE =>
          let! x := buf s (r_buffer r) in
          Done (set_requests s (m_current s) (m_req_list s) (issue_write (m_hw s) t (b_data x)))
      end
  end.

Definition add_request s (r : request) : outcome (block_dev D) :=
  match m_current s with
  | None => do_request (set_requests s (Some r) (m_req_list s) (m_hw s))
  | Some _ => Done (set_requests s (m_current s) (m_req_list s ++ [r]) (m_hw s))
  end.

(** The handler of the interrupt. *)
Definition end_request s : outcome (block_dev D) :=
  let! r := deref (m_current s) in
  let '(bytes, hw) := finish (m_hw s) in
  let! x := buf s (r_buffer r) in
  let data := match r_cmd r with CMD_READ => bytes | CMD_WRITE => b_data x end in
  let s := set_buf s (r_buffer r) (mk_buf (b_lba x) 1 (b_sem x) (up1 (b_wait_done x)) data) in
  match m_req_list s with
  | [] => do_request (set_requests s None [] hw)
  | next :: q => do_request (set_requests s (Some next) q hw)
  end.

(** [b->wait()]: the process sleeps and interrupts arrive, until the count is positive.
    Every interrupt ends a request, so there are at most as many as requests. *)
Fixpoint wait_done (fuel : nat) s b : outcome (block_dev D) :=
  let! x := buf s b in
  if 0 <? b_wait_done x then Done (set_buf s b (mk_buf (b_lba x) (b_done x) (b_sem x) (b_wait_done x - 1) (b_data x)))
  else match fuel with
       | O => Blocked
       | S k => match m_current s with
                | None => Blocked
                | Some _ => let! s := end_request s in wait_done k s b
                end
       end.

Definition pending s : nat := (if m_current s then 1 else 0) + length (m_req_list s).

Definition dev_read s (lba : Z) : outcome (Z * block_dev D) :=
  let! ' (b, s) := get_block s lba in
  let! x := buf s b in
  if negb (b_done x =? 0) then Done (b, s)
  else
    let! s := add_request s (mk_req (m_dev s) lba CMD_READ b) in
    let! s := wait_done (pending s) s b in Done (b, s).

Definition dev_write s b : outcome (block_dev D) :=
  let! x := buf s b in
  let! s := add_request s (mk_req (m_dev s) (b_lba x) CMD_WRITE b) in
  wait_done (pending s) s b.

(** ** What the file system does with a block

    It looks at a block, or it changes one: [read], changes to [m_buffer], [write],
    [release_block]. *)
Inductive block_op :=
| Look (lba : Z)
| Change (lba : Z) (f : list Z -> list Z).

Definition run_op s (op : block_op) : outcome (list Z * block_dev D) :=
  match op with
  | Look lba =>
      let! ' (b, s) := dev_read s lba in
      let! x := buf s b in
      let! s := release_block s b in Done (b_data x, s)
  | Change lba f =>
      let! ' (b, s) := dev_read s lba in
      let! x := buf s b in
      let s := set_buf s b (mk_buf (b_lba x) (b_done x) (b_sem x) (b_wait_done x) (f (b_data x))) in
      let! s := dev_write s b in
      let! s := release_block s b in Done (b_data x, s)
  end.

Fixpoint run_ops s (ops : list block_op) : outcome (list (list Z) * block_dev D) :=
  match ops with
  | [] => Done ([], s)
  | op :: r => let! ' (x, s) := run_op s op in let! ' (xs, s) := run_ops s r in Done (x :: xs, s)
  end.

(** The same on the disk of [FsDisk]. *)
Definition op_lba (op : block_op) : Z := match op with Look lba => lba | Change lba _ => lba end.

Fixpoint disk_ops (d : disk) (ops : list block_op) : list (list Z) * disk :=
  match ops with
  | [] => ([], d)
  | Look lba :: r => let '(xs, d') := disk_ops d r in (d lba :: xs, d')
  | Change lba f :: r => let '(xs, d') := disk_ops (dset d lba (f (d lba))) r in (d lba :: xs, d')
  end.

End Ops.

(** ** The registers *)

Lemma task_of_bounds dev lba : 0 <= lba < 2 ^ 32 ->
  task_lba (task_of dev lba) = lba mod 2 ^ 28 /\
  task_drive (task_of dev lba) = Z.lor (Z.land dev 1) (lba / 2 ^ 28 mod 2).
Proof.
  intros R. unfold task_lba, task_drive, task_of; cbn [t_low t_mid t_high t_drive_head].
  set (h := Z.shiftr lba 24). set (v := Z.lor (Z.lor 0xe0 (Z.shiftl (Z.land dev 1) 4)) (Z.land h 0xff)).
  assert (B : Z.land dev 1 = 0 \/ Z.land dev 1 = 1).
  { rewrite (Z.land_ones dev 1 ltac:(lia) : Z.land dev 1 = dev mod 2). pose proof (Z.mod_pos_bound dev 2). lia. }
  assert (Hh : h = lba / 2 ^ 24) by (apply Z.shiftr_div_pow2; lia).
  assert (Low : u8 v mod 16 = h mod 16).
  { unfold u8. rewrite <- Znumtheory.Zmod_div_mod by (try lia; exists 16; reflexivity).
    change 16 with (2 ^ 4). rewrite <- !Z.land_ones by lia. unfold v. rewrite !Z.land_lor_distr_l, <- Z.land_assoc.
    destruct B as [-> | ->]; reflexivity. }
  assert (Bit : u8 v / 16 mod 2 = Z.lor (Z.land dev 1) (lba / 2 ^ 28 mod 2)).
  { change 16 with (2 ^ 4). rewrite <- Z.testbit_spec' by lia. unfold u8. rewrite Z.mod_pow2_bits_low by lia.
    unfold v. rewrite !Z.lor_spec, Z.shiftl_spec, (Z.land_spec h) by lia. unfold h. rewrite Z.shiftr_spec by lia.
    change (24 + 4) with 28. change (4 + 24) with 28. change (Z.testbit 255 4) with true. change (Z.testbit 0xe0 4) with false. rewrite <- Z.testbit_spec' by lia.
    destruct B as [-> | ->], (Z.testbit lba 28); reflexivity. }
  split; [|exact Bit]. rewrite Low, Hh. change 0xff with (Z.ones 8). rewrite !Z.land_ones, !Z.shiftr_div_pow2 by lia.
  change (2 ^ 28) with (2 ^ 8 * (2 ^ 8 * (2 ^ 8 * 16))). rewrite !Z.rem_mul_r, !Z.div_div by lia.
  change (2 ^ 8 * 2 ^ 8 * 2 ^ 8) with (2 ^ 24). change (2 ^ 8 * 2 ^ 8) with (2 ^ 16). lia.
Qed.

Lemma task_of_low dev lba : 0 <= lba < 2 ^ 28 ->
  task_lba (task_of dev lba) = lba /\ task_drive (task_of dev lba) = dev mod 2.
Proof.
  intros R. destruct (task_of_bounds dev lba) as [-> ->]; [lia|].
  rewrite Z.mod_small, (Z.div_small lba) by lia. change (0 mod 2) with 0. rewrite Z.lor_0_r.
  split; [reflexivity | exact (Z.land_ones dev 1 ltac:(lia))].
Qed.

(** ** Coherence

    [h] is the buffer that is locked at the moment, if any.  A buffer is live when the
    used list or the process that holds it knows it. *)
Definition LBA_BOUND : Z := 2 ^ 28.

Section Coherence.
Context {D : Type} `{ControllerLaws D} (dev0 : Z).
Implicit Type s : block_dev D.

Definition live s (h : option Z) (b : Z) : Prop := b ∈ m_used_list s \/ h = Some b.

Record coherent s (d : disk) (h : option Z) : Prop := mk_coherent {
  co_sem b x : zget (m_bufs s) b = Some x -> b_sem x = (if decide (h = Some b) then 0 else 1) /\ b_wait_done x = 0;
  co_range b : live s h b \/ b ∈ m_free_list s -> 0 <= b < zlen (m_bufs s);
  co_live b x : live s h b -> zget (m_bufs s) b = Some x ->
    b_done x = 1 /\ b_data x = d (b_lba x) /\ 0 <= b_lba x < LBA_BOUND;
  co_inj b c x y : live s h b -> live s h c -> zget (m_bufs s) b = Some x -> zget (m_bufs s) c = Some y ->
    b_lba x = b_lba y -> b = c;
  co_free : NoDup (m_free_list s) /\ forall b, b ∈ m_free_list s -> ~ live s h b;
  co_some : exists b, live s h b \/ b ∈ m_free_list s;
  co_quiet : m_current s = None /\ m_req_list s = [];
  co_hw a : 0 <= a < LBA_BOUND -> sector (m_hw s) (m_dev s mod 2) a = d a;
  co_dev : m_dev s = dev0
}.

Lemma find_cached_ok s lba : forall used, (forall b, b ∈ used -> 0 <= b < zlen (m_bufs s)) ->
  (exists b x, find_cached s used lba = Done (Some b) /\ b ∈ used /\ zget (m_bufs s) b = Some x /\ b_lba x = lba) \/
  (find_cached s used lba = Done None /\ forall b x, b ∈ used -> zget (m_bufs s) b = Some x -> b_lba x <> lba).
Proof.
  induction used as [|b r IH]; intros Hr; cbn [find_cached].
  - right. split; [reflexivity|]. intros b x Hb. apply not_elem_of_nil in Hb. destruct Hb.
  - destruct (zget_in_range (m_bufs s) b) as [x E]; [apply Hr; left|]. unfold buf. rewrite E. cbn [deref obind].
    destruct (b_lba x =? lba) eqn:T; tests.
    + left. exists b, x. repeat split; auto. left.
    + destruct IH as [(c & y & -> & Hc & Hy) | [-> Hn]]; [intros; apply Hr; right; assumption|left|right].
      * exists c, y. split; [reflexivity|]. split; [right; exact Hc | exact Hy].
      * split; [reflexivity|]. intros c y Hc Hy. apply elem_of_cons in Hc as [-> | Hc]; [congruence | eauto].
Qed.

(** A buffer gets a block: the state after a miss. *)
Definition installed s b used free hw lba data : block_dev D :=
  mk_dev (m_dev s) (zset (m_bufs s) b (mk_buf lba 1 0 0 data)) used free None [] hw.

Lemma installed_ok s d b used free hw lba :
  coherent s d None -> 0 <= lba < LBA_BOUND -> 0 <= b < zlen (m_bufs s) ->
  (forall c, c ∈ used -> c ∈ m_used_list s) -> (forall c, c ∈ free -> c ∈ m_free_list s /\ c <> b) -> NoDup free ->
  (forall c x, c ∈ m_used_list s -> zget (m_bufs s) c = Some x -> b_lba x <> lba) ->
  (forall a, 0 <= a < LBA_BOUND -> sector hw (m_dev s mod 2) a = d a) ->
  coherent (installed s b used free hw lba (d lba)) d (Some b).
Proof.
  intros C L R Hu Hf Hn Hm Hh.
  assert (Z : forall c x, zget (zset (m_bufs s) b (mk_buf lba 1 0 0 (d lba))) c = Some x ->
    (c = b /\ x = mk_buf lba 1 0 0 (d lba)) \/ (c <> b /\ zget (m_bufs s) c = Some x)) by (intros; apply zget_zset_cases; assumption).
  assert (Len : zlen (zset (m_bufs s) b (mk_buf lba 1 0 0 (d lba))) = zlen (m_bufs s)) by (unfold zlen; rewrite zset_length; reflexivity).
  split; unfold installed; cbn [m_bufs m_used_list m_free_list m_current m_req_list m_hw m_dev]; unfold live; cbn [m_used_list m_free_list m_bufs].
  - intros c x E. destruct (Z _ _ E) as [[-> ->] | [Hne E']].
    + rewrite decide_True by reflexivity. auto.
    + rewrite decide_False by congruence. destruct (co_sem _ _ _ C _ _ E') as [A B]. rewrite decide_False in A by discriminate. auto.
  - intros c Hc. rewrite Len. destruct Hc as [[Hc | [= <-]] | Hc]; [|exact R|].
    + apply (co_range _ _ _ C). left. left. auto.
    + apply (co_range _ _ _ C). right. apply Hf. exact Hc.
  - intros c x Hc E. destruct (Z _ _ E) as [[-> ->] | [Hne E']]; [cbn; auto|].
    destruct Hc as [Hc | [= ->]]; [|congruence]. apply (co_live _ _ _ C c x); [left; auto | exact E'].
  - intros c1 c2 x y H1 H2 E1 E2 El.
    destruct (Z _ _ E1) as [[-> ->] | [N1 E1']], (Z _ _ E2) as [[-> ->] | [N2 E2']]; [reflexivity | | |].
    + destruct H2 as [H2 | [= ->]]; [|congruence]. exfalso. eapply Hm; eauto.
    + destruct H1 as [H1 | [= ->]]; [|congruence]. exfalso. eapply Hm; eauto.
    + destruct H1 as [H1 | [= ->]], H2 as [H2 | [= ->]]; try congruence.
      apply (co_inj _ _ _ C c1 c2 x y); auto; left; auto.
  - split; [exact Hn|]. intros c Hc [Hl | [= ->]]; [|destruct (Hf _ Hc); congruence].
    destruct (Hf _ Hc) as [Hc' _]. apply (proj2 (co_free _ _ _ C) c Hc'). left. auto.
  - exists b. left. right. reflexivity.
  - auto.
  - exact Hh.
  - apply C.
Qed.

(** A request on a quiet disk: the interrupt comes and the count is taken. *)
Lemma read_request_ok s b lba x :
  m_current s = None -> m_req_list s = [] -> 0 <= lba < LBA_BOUND -> zget (m_bufs s) b = Some x -> b_wait_done x = 0 ->
  exists hw, (forall v a, sector hw v a = sector (m_hw s) v a) /\
  (let! s := add_request s (mk_req (m_dev s) lba CMD_READ b) in wait_done (pending s) s b) =
  Done (mk_dev (m_dev s) (zset (m_bufs s) b (mk_buf (b_lba x) 1 (b_sem x) 0 (sector (m_hw s) (m_dev s mod 2) lba)))
          (m_used_list s) (m_free_list s) None [] hw).
Proof.
  intros Hc Hq L E W. pose proof (zget_Some_range _ _ _ E) as R.
  destruct (finish_read (m_hw s) (task_of (m_dev s) lba)) as (hw & Ef & Hs). destruct (task_of_low (m_dev s) lba L) as [T1 T2].
  exists hw. split; [exact Hs|].
  unfold add_request. rewrite Hc. unfold do_request, set_requests. cbn [m_current r_cmd r_dev r_lba obind]. rewrite Hq.
  unfold pending. cbn [m_current m_req_list m_bufs m_used_list m_free_list m_hw m_dev length Nat.add].
  cbn [wait_done m_current]. unfold buf at 1. cbn [m_bufs]. rewrite E. cbn [deref obind]. rewrite W. change (0 <? 0) with false. cbn iota.
  unfold end_request. cbn [m_current deref obind m_hw r_buffer r_cmd]. rewrite Ef, T1, T2. unfold buf at 1. cbn [m_bufs]. rewrite E.
  unfold set_buf, set_bufs, do_request, set_requests. cbn [deref obind m_req_list m_current m_bufs m_used_list m_free_list m_hw m_dev].
  cbn [wait_done]. unfold buf. cbn [m_bufs]. rewrite zget_zset_eq by exact R. rewrite W. cbn [deref obind b_wait_done b_lba b_done b_sem b_data].
  change (0 <? up1 0) with true. cbn iota. unfold set_buf, set_bufs. cbn [m_req_list m_current m_bufs m_used_list m_free_list m_hw m_dev].
  rewrite zset_twice. reflexivity.
Qed.

Lemma write_request_ok s b x :
  m_current s = None -> m_req_list s = [] -> 0 <= b_lba x < LBA_BOUND -> zget (m_bufs s) b = Some x -> b_wait_done x = 0 ->
  exists hw, (forall v a, sector hw v a = if (v =? m_dev s mod 2) && (a =? b_lba x) then b_data x else sector (m_hw s) v a) /\
  dev_write s b =
  Done (mk_dev (m_dev s) (zset (m_bufs s) b (mk_buf (b_lba x) 1 (b_sem x) 0 (b_data x)))
          (m_used_list s) (m_free_list s) None [] hw).
Proof.
  intros Hc Hq L E W. pose proof (zget_Some_range _ _ _ E) as R.
  destruct (finish_write (m_hw s) (task_of (m_dev s) (b_lba x)) (b_data x)) as (junk & hw & Ef & Hs).
  destruct (task_of_low (m_dev s) (b_lba x) L) as [T1 T2]. rewrite T1, T2 in Hs.
  exists hw. split; [exact Hs|].
  unfold dev_write. unfold buf at 1. rewrite E. cbn [deref obind].
  unfold add_request. rewrite Hc. unfold do_request, set_requests. cbn [m_current r_cmd r_dev r_lba r_buffer obind]. rewrite Hq.
  unfold buf at 1. cbn [m_bufs]. rewrite E. cbn [deref obind m_hw].
  unfold pending. cbn [m_current m_req_list m_bufs m_used_list m_free_list m_hw m_dev length Nat.add].
  cbn [wait_done m_current]. unfold buf at 1. cbn [m_bufs]. rewrite E. cbn [deref obind]. rewrite W. change (0 <? 0) with false. cbn iota.
  unfold end_request. cbn [m_current deref obind m_hw r_buffer r_cmd]. rewrite Ef. unfold buf at 1. cbn [m_bufs]. rewrite E.
  unfold set_buf, set_bufs, do_request, set_requests. cbn [deref obind m_req_list m_current m_bufs m_used_list m_free_list m_hw m_dev].
  cbn [wait_done]. unfold buf. cbn [m_bufs]. rewrite zget_zset_eq by exact R. rewrite W. cbn [deref obind b_wait_done b_lba b_done b_sem b_data].
  change (0 <? up1 0) with true. cbn iota. unfold set_buf, set_bufs. cbn [m_req_list m_current m_bufs m_used_list m_free_list m_hw m_dev].
  rewrite zset_twice. reflexivity.
Qed.

(** A hit: only the lock of the buffer changes. *)
Lemma relock_ok s d h h' b x c :
  coherent s d h -> zget (m_bufs s) b = Some x -> b ∈ m_used_list s ->
  (h = None /\ h' = Some b /\ c = 0) \/ (h = Some b /\ h' = None /\ c = 1) ->
  coherent (set_buf s b (mk_buf (b_lba x) (b_done x) c (b_wait_done x) (b_data x))) d h'.
Proof.
  intros C E Hu Hh. pose proof (zget_Some_range _ _ _ E) as R.
  set (y := mk_buf _ _ _ _ _).
  assert (Z : forall k z, zget (zset (m_bufs s) b y) k = Some z -> (k = b /\ z = y) \/ (k <> b /\ zget (m_bufs s) k = Some z))
    by (intros; apply zget_zset_cases; assumption).
  assert (Lv : forall k, b ∈ m_used_list s -> live (set_buf s b y) h' k <-> live s h k).
  { intros k _. unfold live. cbn. destruct Hh as [(-> & -> & _) | (-> & -> & _)]; naive_solver. }
  assert (Len : zlen (zset (m_bufs s) b y) = zlen (m_bufs s)) by (unfold zlen; rewrite zset_length; reflexivity).
  assert (Bk : forall k z, zget (zset (m_bufs s) b y) k = Some z ->
    exists z', zget (m_bufs s) k = Some z' /\ b_lba z = b_lba z' /\ b_done z = b_done z' /\ b_data z = b_data z').
  { intros k z Hz. destruct (Z _ _ Hz) as [[-> ->] | [_ Hz']]; eexists; eauto. }
  split; cbn [set_buf set_bufs m_bufs m_used_list m_free_list m_current m_req_list m_hw m_dev].
  - intros k z Hz. destruct (Z _ _ Hz) as [[-> ->] | [Hne Hz']]; cbn.
    + destruct (co_sem _ _ _ C _ _ E) as [_ ->]. destruct Hh as [(-> & -> & ->) | (-> & -> & ->)];
        [rewrite decide_True | rewrite decide_False]; auto.
    + destruct (co_sem _ _ _ C _ _ Hz') as [A B]. split; [|exact B]. rewrite A.
      destruct Hh as [(-> & -> & _) | (-> & -> & _)]; rewrite !decide_False by congruence; reflexivity.
  - intros k Hk. rewrite Len. apply (co_range _ _ _ C). rewrite Lv in Hk by assumption. exact Hk.
  - intros k z Hk Hz. destruct (Bk _ _ Hz) as (z' & Hz' & -> & -> & ->). apply (co_live _ _ _ C k); [apply Lv|]; assumption.
  - intros k1 k2 z1 z2 H1 H2 E1 E2 El. destruct (Bk _ _ E1) as (w1 & F1 & G1 & _), (Bk _ _ E2) as (w2 & F2 & G2 & _).
    apply (co_inj _ _ _ C k1 k2 w1 w2); try assumption; [apply Lv; assumption..|congruence].
  - split; [apply C|]. intros k Hk Hl. apply (proj2 (co_free _ _ _ C) k Hk). apply Lv; assumption.
  - exists b. left. left. exact Hu.
  - apply C.
  - apply C.
  - apply C.
Qed.

Lemma victim_ok s d : coherent s d None -> exists b used free, victim s = Done (b, set_lists s used free) /\
  0 <= b < zlen (m_bufs s) /\ (forall c, c ∈ used -> c ∈ m_used_list s) /\
  (forall c, c ∈ free -> c ∈ m_free_list s /\ c <> b) /\ NoDup free.
Proof.
  intros C. destruct (co_free _ _ _ C) as [Nd _]. pose proof (co_range _ _ _ C) as Rg. pose proof (co_some _ _ _ C) as Hs.
  unfold live in Rg, Hs. unfold victim.
  destruct (m_free_list s) as [|b r]; [destruct (m_used_list s) as [|b r]|].
  - exfalso. destruct Hs as (b & [[Hb | Hb] | Hb]); [| discriminate |]; apply not_elem_of_nil in Hb; exact Hb.
  - exists b, r, []. split; [reflexivity|]. split; [apply Rg; set_solver|]. split; [set_solver|]. split; [set_solver | constructor].
  - apply NoDup_cons in Nd as [Nb Nd]. exists b, (m_used_list s), r.
    split; [reflexivity|]. split; [apply Rg; set_solver|]. split; [auto|]. split; [set_solver | exact Nd].
Qed.

Lemma buf_lock_ok s b x : zget (m_bufs s) b = Some x -> b_sem x = 1 ->
  buf_lock s b = Done (set_buf s b (mk_buf (b_lba x) (b_done x) 0 (b_wait_done x) (b_data x))).
Proof. intros E Hs. unfold buf_lock, buf. rewrite E. cbn [deref obind]. rewrite Hs. reflexivity. Qed.

(** [read] from a quiet cache always delivers the block. *)
Lemma dev_read_ok s d lba : coherent s d None -> 0 <= lba < LBA_BOUND ->
  exists b s' x, dev_read s lba = Done (b, s') /\ coherent s' d (Some b) /\
    zget (m_bufs s') b = Some x /\ b_lba x = lba /\ m_dev s' = m_dev s.
Proof.
  intros C L. unfold dev_read, get_block.
  destruct (find_cached_ok s lba (m_used_list s)) as [(b & x & -> & Hb & E & El) | [-> Hm]].
  { intros b Hb. apply (co_range _ _ _ C). left. left. exact Hb. }
  - (* cached *)
    destruct (co_sem _ _ _ C _ _ E) as [Hs _]. rewrite decide_False in Hs by discriminate.
    destruct (co_live _ _ _ C b x) as (Hd & _); [left; exact Hb | exact E|].
    cbn [obind]. rewrite (buf_lock_ok s b x E Hs). cbn [obind].
    set (y := mk_buf (b_lba x) (b_done x) 0 (b_wait_done x) (b_data x)).
    assert (Ey : zget (m_bufs (set_buf s b y)) b = Some y) by (apply zget_zset_eq; eauto using zget_Some_range).
    unfold buf. rewrite Ey. cbn [deref obind y b_done]. rewrite Hd. cbn [Z.eqb negb].
    exists b, (set_buf s b y), y. split; [reflexivity|].
    split; [apply (relock_ok s d None); auto | auto].
  - (* not cached *)
    destruct (victim_ok s d C) as (b & used & free & Ev & R & Hu & Hf & Hn). rewrite Ev. cbn [obind].
    destruct (zget_in_range _ _ R) as [x E]. destruct (co_sem _ _ _ C _ _ E) as [Hs Hw]. rewrite decide_False in Hs by discriminate.
    unfold buf at 1. cbn [set_lists m_bufs]. rewrite E. cbn [deref obind].
    rewrite (buf_lock_ok _ b (mk_buf lba 0 (b_sem x) (b_wait_done x) (b_data x))); [|apply zget_zset_eq; exact R | exact Hs].
    cbn [obind b_lba b_done b_wait_done b_data]. set (y := mk_buf lba 0 0 (b_wait_done x) (b_data x)).
    set (s1 := set_buf (set_buf (set_lists s used free) b _) b y).
    assert (E1 : zget (m_bufs s1) b = Some y).
    { apply zget_zset_eq. unfold zlen. cbn. rewrite zset_length. exact R. }
    unfold buf at 1. rewrite E1. cbn [deref obind y b_done Z.eqb negb].
    destruct (co_quiet _ _ _ C) as [Q1 Q2].
    destruct (read_request_ok s1 b lba y Q1 Q2 L E1 Hw) as (hw & Hsec & Er).
    destruct (add_request s1 _) as [s2| | |]; cbn [obind] in *; try discriminate. rewrite Er. cbn [obind].
    assert (B1 : m_bufs s1 = zset (m_bufs s) b y) by apply zset_twice.
    pose proof (co_hw _ _ _ C lba L) as Hl. change (m_hw s1) with (m_hw s) in *. change (m_dev s1) with (m_dev s) in *.
    rewrite Hl, B1, zset_twice in Er |- *. change (m_used_list s1) with used in *. change (m_free_list s1) with free in *.
    eexists b, (installed s b used free hw lba (d lba)), _. split; [reflexivity|].
    split; [apply installed_ok; auto|]. 2: split; [apply zget_zset_eq; exact R | auto].
    intros a Ha. rewrite Hsec. apply C. exact Ha.
Qed.

Lemma held_buffer s d b : coherent s d (Some b) -> exists x, zget (m_bufs s) b = Some x /\ b_data x = d (b_lba x) /\
  b_sem x = 0 /\ b_done x = 1 /\ b_wait_done x = 0 /\ 0 <= b_lba x < LBA_BOUND.
Proof.
  intros C. assert (Hl : live s (Some b) b) by (right; reflexivity).
  destruct (zget_in_range (m_bufs s) b) as [x E]; [apply (co_range _ _ _ C); auto|].
  destruct (co_live _ _ _ C b x Hl E) as (A & B & L). destruct (co_sem _ _ _ C b x E) as [S W]. rewrite decide_True in S by reflexivity.
  exists x. auto 10.
Qed.

(** A change to a buffer that is held, written back. *)
Lemma dev_write_ok s d b x data : coherent s d (Some b) -> zget (m_bufs s) b = Some x ->
  exists s', dev_write (set_buf s b (mk_buf (b_lba x) (b_done x) (b_sem x) (b_wait_done x) data)) b = Done s' /\
    coherent s' (dset d (b_lba x) data) (Some b).
Proof.
  intros C E. destruct (held_buffer s d b C) as (x' & E' & Hd & Hs & Hdone & Hw & L). simplify_eq.
  pose proof (zget_Some_range _ _ _ E) as R. set (y := mk_buf _ _ _ _ _).
  destruct (co_quiet _ _ _ C) as [Q1 Q2].
  destruct (write_request_ok (set_buf s b y) b y) as (hw & Hsec & ->); auto; [apply zget_zset_eq; exact R|].
  eexists. split; [reflexivity|]. cbn [set_buf set_bufs m_bufs m_used_list m_free_list m_dev]. rewrite zset_twice.
  set (z := mk_buf _ _ _ _ _).
  assert (Z : forall k v, zget (zset (m_bufs s) b z) k = Some v -> (k = b /\ v = z) \/ (k <> b /\ zget (m_bufs s) k = Some v))
    by (intros; apply zget_zset_cases; assumption).
  assert (Bk : forall k v, zget (zset (m_bufs s) b z) k = Some v -> exists w, zget (m_bufs s) k = Some w /\ b_lba v = b_lba w).
  { intros k v Hv. destruct (Z _ _ Hv) as [[-> ->] | [_ Hv']]; eauto. }
  assert (Lb : live s (Some b) b) by (right; reflexivity).
  split; cbn [m_bufs m_used_list m_free_list m_current m_req_list m_hw m_dev].
  - intros k v Hv. destruct (Z _ _ Hv) as [[-> ->] | [_ Hv']]; [|apply (co_sem _ _ _ C); exact Hv'].
    rewrite decide_True by reflexivity. auto.
  - intros k Hk. replace (zlen _) with (zlen (m_bufs s)) by (unfold zlen; rewrite zset_length; reflexivity). apply (co_range _ _ _ C), Hk.
  - intros k v Hk Hv. destruct (Z _ _ Hv) as [[-> ->] | [Hne Hv']]; cbn.
    + unfold dset. rewrite Z.eqb_refl. auto.
    + destruct (co_live _ _ _ C k v Hk Hv') as (A & B & F). unfold dset.
      destruct (b_lba v =? b_lba x) eqn:T; [|auto]. tests. exfalso. apply Hne. eapply (co_inj _ _ _ C k b); eauto.
  - intros k1 k2 v1 v2 H1 H2 E1 E2 El. destruct (Bk _ _ E1) as (w1 & F1 & G1), (Bk _ _ E2) as (w2 & F2 & G2).
    apply (co_inj _ _ _ C k1 k2 w1 w2); auto; congruence.
  - apply C.
  - exists b. left. right. reflexivity.
  - auto.
  - intros a Ha. rewrite Hsec. cbn [set_buf set_bufs m_dev m_hw y b_lba b_data]. rewrite Z.eqb_refl. unfold dset. cbn.
    destruct (a =? b_lba x); [reflexivity | apply C, Ha].
  - apply C.
Qed.

Lemma release_block_ok s d b : coherent s d (Some b) -> exists s', release_block s b = Done s' /\ coherent s' d None.
Proof.
  intros C. destruct (held_buffer s d b C) as (x & E & Hd & Hs & Hdone & Hw & L).
  set (s1 := set_lists s (m_used_list s ++ [b]) (m_free_list s)).
  assert (C1 : coherent s1 d (Some b)).
  { assert (Lv : forall k, live s1 (Some b) k <-> live s (Some b) k) by (intros k; unfold live; cbn; rewrite elem_of_app, list_elem_of_singleton; naive_solver).
    split; cbn [s1 set_lists m_bufs m_used_list m_free_list m_current m_req_list m_hw m_dev]; try apply C.
    - intros k Hk. apply (co_range _ _ _ C). rewrite Lv in Hk. exact Hk.
    - intros k v Hk. apply (co_live _ _ _ C). apply Lv, Hk.
    - intros k1 k2 v1 v2 H1 H2. apply (co_inj _ _ _ C); apply Lv; assumption.
    - split; [apply C|]. intros k Hk Hl. apply (proj2 (co_free _ _ _ C) k Hk), Lv, Hl.
    - exists b. left. right. reflexivity. }
  unfold release_block, buf_unlock, buf. fold s1. change (m_bufs s1) with (m_bufs s). rewrite E. cbn [deref obind]. rewrite Hs.
  eexists. split; [reflexivity|]. change (up1 0) with 1. apply (relock_ok s1 d (Some b)); [exact C1 | exact E | |auto].
  unfold s1. cbn. apply elem_of_app. right. left.
Qed.

(** One operation does what it does on the disk. *)
Lemma run_op_ok s d op : coherent s d None -> 0 <= op_lba op < LBA_BOUND ->
  exists s', run_op s op = Done (d (op_lba op), s') /\
    coherent s' (match op with Look _ => d | Change lba f => dset d lba (f (d lba)) end) None.
Proof.
  intros C L. destruct op as [lba | lba f]; cbn [op_lba run_op] in *;
    destruct (dev_read_ok s d lba C L) as (b & s1 & x & -> & C1 & E & El & _); cbn [obind];
    unfold buf; rewrite E; cbn [deref obind].
  - destruct (release_block_ok s1 d b C1) as (s2 & -> & C2). cbn [obind].
    destruct (held_buffer s1 d b C1) as (x' & E' & Hd & _). simplify_eq. rewrite Hd. eauto.
  - destruct (held_buffer s1 d b C1) as (x' & E' & Hd & _). simplify_eq.
    destruct (dev_write_ok s1 d b x (f (b_data x)) C1 E) as (s2 & -> & C2). cbn [obind].
    destruct (release_block_ok s2 _ b C2) as (s3 & -> & C3). cbn [obind]. rewrite Hd in *. eauto.
Qed.

Lemma run_ops_ok : forall ops s d, coherent s d None -> Forall (fun op => 0 <= op_lba op < LBA_BOUND) ops ->
  exists s', run_ops s ops = Done (fst (disk_ops d ops), s') /\ coherent s' (snd (disk_ops d ops)) None.
Proof.
  induction ops as [|op r IH]; intros s d C F; cbn [run_ops disk_ops]; [eauto|].
  apply Forall_cons in F as [L F]. destruct (run_op_ok s d op C L) as (s1 & -> & C1). cbn [obind].
  destruct (IH _ _ C1 F) as (s2 & -> & C2). cbn [obind]. exists s2.
  destruct op; cbn [op_lba] in *; destruct (disk_ops _ r); auto.
Qed.

Lemma init_coherent junk hw : coherent (dev_init dev0 junk hw) (fun a => sector hw (dev0 mod 2) a) None.
Proof.
  unfold dev_init. set (n := Z.to_nat _). assert (Hn : (0 < n)%nat) by (vm_compute; lia). clearbody n.
  split; cbn [m_bufs m_used_list m_free_list m_current m_req_list m_hw m_dev]; unfold live; cbn [m_used_list].
  - intros b x E. apply zget_lookup in E as [E _]. rewrite decide_False by discriminate.
    apply list_lookup_fmap_Some in E as (i & -> & _). auto.
  - intros b [[Hb | Hb] | Hb]; [apply not_elem_of_nil in Hb; destruct Hb | discriminate |].
    apply list_elem_of_fmap in Hb as (i & -> & Hi). apply elem_of_seq in Hi. unfold zlen. rewrite length_map, length_seq. lia.
  - intros b x [Hb | Hb]; [apply not_elem_of_nil in Hb; destruct Hb | discriminate].
  - intros b c x y [Hb | Hb]; [apply not_elem_of_nil in Hb; destruct Hb | discriminate].
  - split; [apply NoDup_fmap_2; [intros ? ?; lia | apply NoDup_seq]|].
    intros b _ [Hb | Hb]; [apply not_elem_of_nil in Hb; destruct Hb | discriminate].
  - exists 0. right. apply list_elem_of_fmap. exists 0%nat. split; [reflexivity|]. apply elem_of_seq. lia.
  - auto.
  - auto.
  - reflexivity.
Qed.

(** A miss while the buffer at the head of the used list is held and no buffer is free:
    the buffer is taken from its holder, who then waits for himself. *)
Lemma evicts_held s b r x lba : m_free_list s = [] -> m_used_list s = b :: r -> zget (m_bufs s) b = Some x -> b_sem x = 0 ->
  find_cached s (m_used_list s) lba = Done None -> dev_read s lba = Blocked.
Proof.
  intros Hf Hu E Hs Hm. unfold dev_read, get_block. rewrite Hm. cbn [obind]. unfold victim. rewrite Hf, Hu. cbn [obind].
  pose proof (zget_Some_range _ _ _ E) as R. unfold buf_lock, buf, set_buf, set_bufs, set_lists. cbn [m_bufs].
  rewrite E. cbn [deref obind m_bufs]. rewrite zget_zset_eq by exact R. cbn [deref obind b_sem]. rewrite Hs. reflexivity.
Qed.

(** A hit leaves the entry of the buffer in the used list and adds another. *)
Lemma hit_grows_list s d lba b x : coherent s d None -> b ∈ m_used_list s -> zget (m_bufs s) b = Some x -> b_lba x = lba ->
  exists s', run_op s (Look lba) = Done (d lba, s') /\ m_used_list s' = m_used_list s ++ [b].
Proof.
  intros C Hb E El. cbn [run_op]. unfold dev_read, get_block.
  destruct (find_cached_ok s lba (m_used_list s)) as [(c & y & -> & Hc & E' & El') | [_ Hm]].
  { intros c Hc. apply (co_range _ _ _ C). left. left. exact Hc. }
  2: { exfalso. exact (Hm b x Hb E El). }
  assert (c = b) as -> by (apply (co_inj _ _ _ C c b y x); try (left; assumption); congruence).
  simplify_eq. destruct (co_sem _ _ _ C _ _ E) as [Hs _]. rewrite decide_False in Hs by discriminate.
  destruct (co_live _ _ _ C b x) as (Hd & Hx & _); [left; exact Hb | exact E|]. pose proof (zget_Some_range _ _ _ E) as R.
  cbn [obind]. rewrite (buf_lock_ok s b x E Hs). cbn [obind].
  set (y := mk_buf _ _ _ _ _). assert (Ey : zget (m_bufs (set_buf s b y)) b = Some y) by (apply zget_zset_eq; exact R).
  unfold buf at 1. rewrite Ey. cbn [deref obind y b_done]. rewrite Hd. cbn [Z.eqb negb obind].
  unfold buf at 1. rewrite Ey. cbn [deref obind]. unfold release_block, buf_unlock, buf, set_lists at 1. cbn [m_bufs].
  rewrite Ey. cbn [deref obind y b_data]. rewrite Hx. eauto.
Qed.

End Coherence.

(** ** The queue of requests

    What the requests do when they are carried out one after the other. *)
Definition serve (st : disk * list io_buffer) (r : request) : disk * list io_buffer :=
  let '(d, bufs) := st in
  match zget bufs (r_buffer r) with
  | None => (d, bufs)
  | Some x =>
      let put data := zset bufs (r_buffer r) (mk_buf (b_lba x) 1 (b_sem x) (up1 (b_wait_done x)) data) in
      match r_cmd r with
      | CMD_READ => (d, put (d (r_lba r)))
      | CMD_WRITE => (dset d (r_lba r) (b_data x), put (b_data x))
      end
  end.

Section Queue.
Context {D : Type} `{ControllerLaws D}.
Implicit Type s : block_dev D.

Fixpoint add_requests s (rs : list request) : outcome (block_dev D) :=
  match rs with
  | [] => Done s
  | r :: q => let! s := add_request s r in add_requests s q
  end.

Fixpoint interrupts (n : nat) s : outcome (block_dev D) :=
  match n with
  | O => Done s
  | S k => let! s := end_request s in interrupts k s
  end.

(** A request the device can carry out. *)
Definition proper s (r : request) : Prop :=
  r_dev r = m_dev s /\ 0 <= r_lba r < LBA_BOUND /\ 0 <= r_buffer r < zlen (m_bufs s).

(** The controller works on [r], which it got when its sectors were those of [d]. *)
Definition working s (d : disk) (r : request) : Prop :=
  exists w x, (forall a, 0 <= a < LBA_BOUND -> sector w (m_dev s mod 2) a = d a) /\ zget (m_bufs s) (r_buffer r) = Some x /\
    m_hw s = match r_cmd r with
             | CMD_READ => issue_read w (task_of (r_dev r) (r_lba r))
             | CMD_WRITE => issue_write w (task_of (r_dev r) (r_lba r)) (b_data x)
             end.

Lemma serve_length d bufs r : zlen (snd (serve (d, bufs) r)) = zlen bufs.
Proof.
  unfold serve. destruct (zget bufs (r_buffer r)); [|reflexivity].
  destruct (r_cmd r); cbn; unfold zlen; rewrite zset_length; reflexivity.
Qed.

Lemma do_request_ok s d r : m_current s = Some r -> proper s r ->
  (forall a, 0 <= a < LBA_BOUND -> sector (m_hw s) (m_dev s mod 2) a = d a) ->
  exists hw, do_request s = Done (set_requests s (Some r) (m_req_list s) hw) /\
    working (set_requests s (Some r) (m_req_list s) hw) d r.
Proof.
  intros Hc (Hd & L & R) Hw. destruct (zget_in_range _ _ R) as [x E]. unfold do_request. rewrite Hc.
  destruct (r_cmd r) eqn:Ec; [|unfold buf; rewrite E; cbn [deref obind]];
    (eexists; split; [reflexivity|]; exists (m_hw s), x; cbn; rewrite Ec; auto).
Qed.

(** The interrupt ends the request and starts the next one. *)
Lemma end_request_ok s d r : m_current s = Some r -> proper s r -> working s d r -> Forall (proper s) (m_req_list s) ->
  exists s', end_request s = Done s' /\ m_dev s' = m_dev s /\ m_bufs s' = snd (serve (d, m_bufs s) r) /\
    m_current s' = head (m_req_list s) /\ m_req_list s' = tail (m_req_list s) /\
    match m_current s' with
    | Some r' => working s' (fst (serve (d, m_bufs s) r)) r'
    | None => forall a, 0 <= a < LBA_BOUND -> sector (m_hw s') (m_dev s mod 2) a = fst (serve (d, m_bufs s) r) a
    end.
Proof.
  intros Hc (Hd & L & R) (w & x & Hw & E & Hhw) Hq. unfold end_request. rewrite Hc. cbn [deref obind].
  destruct (task_of_low (r_dev r) (r_lba r) L) as [T1 T2]. pose proof (serve_length d (m_bufs s) r) as Ln.
  assert (F : exists bytes hw, finish (m_hw s) = (bytes, hw) /\
    (match r_cmd r with CMD_READ => bytes | CMD_WRITE => b_data x end) = (match r_cmd r with CMD_READ => d (r_lba r) | CMD_WRITE => b_data x end) /\
    forall a, 0 <= a < LBA_BOUND -> sector hw (m_dev s mod 2) a = fst (serve (d, m_bufs s) r) a).
  { rewrite Hhw. unfold serve. rewrite E. destruct (r_cmd r); cbn [fst].
    - destruct (finish_read w (task_of (r_dev r) (r_lba r))) as (w' & -> & Hs). rewrite T1, T2, Hd.
      eexists _, w'. split; [reflexivity|]. split; [apply Hw, L|]. intros a Ha. rewrite Hs. apply Hw, Ha.
    - destruct (finish_write w (task_of (r_dev r) (r_lba r)) (b_data x)) as (junk & w' & -> & Hs). rewrite T1, T2, Hd in Hs.
      eexists _, w'. split; [reflexivity|]. split; [reflexivity|]. intros a Ha. rewrite Hs, Z.eqb_refl. unfold dset. cbn.
      destruct (a =? r_lba r); [reflexivity | apply Hw, Ha]. }
  destruct F as (bytes & hw & -> & Edata & Hs). unfold buf. rewrite E. cbn [deref obind]. rewrite Edata.
  set (s1 := set_buf s (r_buffer r) _).
  assert (B : m_bufs s1 = snd (serve (d, m_bufs s) r)).
  { unfold s1, serve. rewrite E. destruct (r_cmd r); reflexivity. }
  change (m_req_list s1) with (m_req_list s). destruct (m_req_list s) as [|r' q]; cbn [head tail].
  - eexists. split; [reflexivity|]. cbn. auto.
  - apply Forall_cons in Hq as [(P1 & P2 & P3) _].
    destruct (do_request_ok (set_requests s1 (Some r') q hw) (fst (serve (d, m_bufs s) r)) r') as (hw' & -> & Wk); [reflexivity | | exact Hs |].
    { split; [exact P1|]. split; [exact P2|]. cbn [set_requests m_bufs]. rewrite B, Ln. exact P3. }
    eexists. split; [reflexivity|]. cbn. auto.
Qed.

Lemma interrupts_ok : forall q s d r, m_current s = Some r -> m_req_list s = q -> proper s r -> Forall (proper s) q -> working s d r ->
  exists s', interrupts (S (length q)) s = Done s' /\ m_current s' = None /\ m_req_list s' = [] /\
    m_bufs s' = snd (foldl serve (d, m_bufs s) (r :: q)) /\
    forall a, 0 <= a < LBA_BOUND -> sector (m_hw s') (m_dev s mod 2) a = fst (foldl serve (d, m_bufs s) (r :: q)) a.
Proof.
  induction q as [|r' q IH]; intros s d r Hc Hq Pr Pq Wk; cbn [interrupts length foldl].
  - destruct (end_request_ok s d r) as (s' & -> & Hd & Hb & Hc' & Hq' & Hm); rewrite ?Hq; auto.
    rewrite Hq in *. cbn [head tail] in *. rewrite Hc' in Hm. exists s'. cbn [obind]. auto.
  - destruct (end_request_ok s d r) as (s' & -> & Hd & Hb & Hc' & Hq' & Hm); rewrite ?Hq; auto.
    rewrite Hq in *. cbn [head tail] in *. rewrite Hc' in Hm. cbn [obind].
    assert (Pp : forall k, proper s k -> proper s' k).
    { intros k (A & B & F). split; [congruence|]. split; [exact B|]. rewrite Hb, serve_length. exact F. }
    apply Forall_cons in Pq as [Pr' Pq].
    destruct (IH s' (fst (serve (d, m_bufs s) r)) r') as (s2 & E & A & B & F & G); auto.
    { eapply Forall_impl; [exact Pq | exact Pp]. }
    rewrite Hb, <- surjective_pairing in F, G. rewrite Hd in G. exists s2. cbn [foldl] in *. auto.
Qed.

Lemma add_more_ok : forall q s r, m_current s = Some r ->
  add_requests s q = Done (set_requests s (Some r) (m_req_list s ++ q) (m_hw s)).
Proof.
  induction q as [|r' q IH]; intros s r Hc; cbn [add_requests].
  - rewrite app_nil_r, <- Hc. destruct s; reflexivity.
  - unfold add_request. rewrite Hc. cbn [obind]. rewrite (IH _ r) by reflexivity. cbn. rewrite <- app_assoc. reflexivity.
Qed.

Lemma requests_ok s d rs : m_current s = None -> m_req_list s = [] ->
  (forall a, 0 <= a < LBA_BOUND -> sector (m_hw s) (m_dev s mod 2) a = d a) -> Forall (proper s) rs ->
  exists s1 s2, add_requests s rs = Done s1 /\ interrupts (length rs) s1 = Done s2 /\
    m_current s2 = None /\ m_req_list s2 = [] /\ m_bufs s2 = snd (foldl serve (d, m_bufs s) rs) /\
    forall a, 0 <= a < LBA_BOUND -> sector (m_hw s2) (m_dev s mod 2) a = fst (foldl serve (d, m_bufs s) rs) a.
Proof.
  intros Hc Hq Hd P. destruct rs as [|r q]; [exists s, s; cbn; auto 10|]. apply Forall_cons in P as [Pr Pq].
  cbn [add_requests]. unfold add_request. rewrite Hc.
  destruct (do_request_ok (set_requests s (Some r) (m_req_list s) (m_hw s)) d r) as (hw & -> & Wk); auto.
  cbn [obind]. rewrite (add_more_ok q _ r) by reflexivity. cbn [set_requests m_req_list]. rewrite Hq. cbn [app].
  set (s1 := set_requests _ _ q _). destruct (interrupts_ok q s1 d r) as (s2 & A); auto.
  exists s1, s2. split; [reflexivity | exact A].
Qed.

End Queue.

(** ** The properties *)

(** C22: any sequence of looks at blocks and changes of blocks below 2^28, through the cache and
    the queue of the disk, ends; it delivers the bytes that the same sequence delivers on
    the disk of [FsDisk] that holds the sectors the drive has at the start, and leaves the
    sectors of the drive as it leaves that disk. *)
Theorem cached_blocks_refine_disk {D} `{ControllerLaws D} (dev : Z) (junk : Z -> list Z) (hw : D) (ops : list block_op) :
  Forall (fun op => 0 <= op_lba op < LBA_BOUND) ops ->
  exists s, run_ops (dev_init dev junk hw) ops = Done (fst (disk_ops (sector hw (dev mod 2)) ops), s) /\
    forall a, 0 <= a < LBA_BOUND -> sector (m_hw s) (dev mod 2) a = snd (disk_ops (sector hw (dev mod 2)) ops) a.
Proof.
  intros F. destruct (run_ops_ok dev ops _ _ (init_coherent dev junk hw) F) as (s & E & C).
  exists s. split; [exact E|]. intros a Ha. pose proof (co_hw _ _ _ _ C a Ha) as Hs. rewrite (co_dev _ _ _ _ C) in Hs. exact Hs.
Qed.

Definition numbered_disk : ram_disk := mk_ram (fun _ a => [a]) None.

Lemma cached_blocks_refine_disk_witness :
  exists s, run_ops (dev_init 0 (fun _ => []) numbered_disk) [Look 7; Change 7 (fun _ => [1; 2]); Look 8; Look 7] = Done ([[7]; [7]; [8]; [1; 2]], s) /\
    forall a, 0 <= a < LBA_BOUND -> sector (m_hw s) 0 a = dset (fun a => [a]) 7 [1; 2] a.
Proof.
  destruct (cached_blocks_refine_disk 0 (fun _ => []) numbered_disk [Look 7; Change 7 (fun _ => [1; 2]); Look 8; Look 7]) as (s & E & Hs);
    [|exists s; split; [exact E | exact Hs]].
  repeat constructor; cbn; unfold LBA_BOUND, zlen; cbn; lia.
Defined.

(** requests that are queued on an idle disk are all carried out, one per interrupt and in the order
    in which they came: afterwards the disk is idle, every buffer is marked done and its
    waiter counted, reads hold what the sectors held at their turn and writes are on the drive. *)
Theorem requests_served_in_order {D} `{ControllerLaws D} (s : block_dev D) (d : disk) (rs : list request) :
  m_current s = None -> m_req_list s = [] ->
  (forall a, 0 <= a < LBA_BOUND -> sector (m_hw s) (m_dev s mod 2) a = d a) -> Forall (proper s) rs ->
  exists s1 s2, add_requests s rs = Done s1 /\ interrupts (length rs) s1 = Done s2 /\
    m_current s2 = None /\ m_req_list s2 = [] /\ m_bufs s2 = snd (foldl serve (d, m_bufs s) rs) /\
    forall a, 0 <= a < LBA_BOUND -> sector (m_hw s2) (m_dev s mod 2) a = fst (foldl serve (d, m_bufs s) rs) a.
Proof. apply requests_ok. Qed.

Definition two_buffers : block_dev ram_disk :=
  mk_dev 0 [mk_buf 3 0 0 0 [9]; mk_buf 3 0 0 0 []] [] [] None [] numbered_disk.

Lemma requests_served_in_order_witness :
  exists s1 s2, add_requests two_buffers [mk_req 0 3 CMD_WRITE 0; mk_req 0 3 CMD_READ 1] = Done s1 /\ interrupts 2 s1 = Done s2 /\
    m_current s2 = None /\ m_req_list s2 = [] /\ m_bufs s2 = [mk_buf 3 1 0 1 [9]; mk_buf 3 1 0 1 [9]] /\
    forall a, 0 <= a < LBA_BOUND -> sector (m_hw s2) 0 a = dset (fun a => [a]) 3 [9] a.
Proof.
  destruct (requests_served_in_order two_buffers (fun a => [a]) [mk_req 0 3 CMD_WRITE 0; mk_req 0 3 CMD_READ 1]) as (s1 & s2 & E1 & E2 & A & B & F & G);
    [reflexivity | reflexivity | reflexivity | | exists s1, s2; exact (conj E1 (conj E2 (conj A (conj B (conj F G)))))].
  repeat constructor; cbn; unfold LBA_BOUND, zlen; cbn; lia.
Defined.

(** of a 32-bit block number the registers carry 28 bits; bit 28 falls on the bit that
    selects the drive, so that a block number from 2^28 on reads another sector, or
    another drive. *)
Theorem lba_registers_bound (dev lba : Z) : 0 <= lba < 2 ^ 32 ->
  task_lba (task_of dev lba) = lba mod 2 ^ 28 /\
  task_drive (task_of dev lba) = Z.lor (Z.land dev 1) (lba / 2 ^ 28 mod 2).
Proof. apply task_of_bounds. Qed.

Lemma lba_registers_bound_witness :
  task_lba (task_of 0 (2 ^ 28 + 5)) = 5 /\ task_drive (task_of 0 (2 ^ 28 + 5)) = 1.
Proof. apply (lba_registers_bound 0 (2 ^ 28 + 5)). lia. Defined.

(** A process that holds a buffer (as block_map does with the indirect block while
    it allocates) and reads a block that is not cached waits for itself, when no buffer is
    free and the buffer it holds is the first of the used list: here with one buffer in
    the whole cache, that of block 5. *)
Theorem held_buffer_is_evicted :
  let s := mk_dev 0 [mk_buf 5 1 0 0 [5]] [0] [] None [] numbered_disk in dev_read s 6 = Blocked.
Proof. eapply evicts_held; reflexivity. Qed.
