(* ===== verification/FsDir.v ===== *)
(** * Inode cache, directories and paths (src/src/fs.cc)

    The state is the disk and the 64 slots of the inode cache; an [inode_t*] is the
    index of a slot.  An inode's lock is the count of its semaphore: [lock] takes
    one off, and at zero the process sleeps ([Blocked]).  The functions follow
    fs.cc call by call.  A path element of fourteen or more characters is stored
    one byte past the end of the fourteen-byte name arrays of the callers; such an
    element is a [Fault] here, so names are C strings of at most thirteen
    characters. *)
From Stdlib Require Import ZArith ZifyBool Lia.
From stdpp Require Import base option list gmap.
From S2P Require Import Prelude FsDisk.

Definition ROOT_DEV : Z := 1.
Definition ROOT_INUM : Z := 1.
Definition MAX_PATH : Z := 14.
Definition MAX_INODE_CACHE : Z := 64.
Definition DIR_SIZE : Z := 16.
Definition SLASH : Z := 47.

Record fs := mk_fs {
  f_disk : disk;
  f_inodes : list inode
}.

Definition with_disk (s : fs) (d : disk) : fs := mk_fs d (f_inodes s).
Definition slot (s : fs) (i : Z) : outcome inode := deref (zget (f_inodes s) i).
Definition set_slot (s : fs) (i : Z) (x : inode) : fs := mk_fs (f_disk s) (zset (f_inodes s) i x).

(** ** Fields of an inode *)

Definition with_ref (x : inode) (r : Z) : inode :=
  mk_inode (i_dev x) (i_inum x) r (i_valid x) (i_sem x) (i_type x) (i_major x) (i_minor x) (i_nlinks x) (i_size x) (i_addrs x).
Definition with_sem (x : inode) (c : Z) : inode :=
  mk_inode (i_dev x) (i_inum x) (i_ref x) (i_valid x) c (i_type x) (i_major x) (i_minor x) (i_nlinks x) (i_size x) (i_addrs x).
Definition with_nlinks (x : inode) (n : Z) : inode :=
  mk_inode (i_dev x) (i_inum x) (i_ref x) (i_valid x) (i_sem x) (i_type x) (i_major x) (i_minor x) n (i_size x) (i_addrs x).

(** [inode_t::lock], [inode_t::unlock] *)
Definition lock (s : fs) (i : Z) : outcome fs :=
  let! x := slot s i in
  if 0 <? i_sem x then Done (set_slot s i (with_sem x (i_sem x - 1))) else Blocked.

Definition unlock (s : fs) (i : Z) : outcome fs :=
  let! x := slot s i in Done (set_slot s i (with_sem x (u32 (i_sem x + 1)))).

(** [write_to_disk] and [read_from_disk] of the inode in a slot. *)
Definition sync (s : fs) (i : Z) : outcome fs :=
  let! x := slot s i in Done (with_disk s (write_to_disk (f_disk s) x)).

Definition load (s : fs) (i id : Z) : outcome fs :=
  let! x := slot s i in Done (set_slot s i (read_from_disk (f_disk s) x id)).

(** ** The cache *)

(** The loop of [get_inode]: the slot that holds the inode, or the first empty one. *)
Fixpoint scan (l : list inode) (i : Z) (empty : option Z) (dev inum : Z) : option Z * option Z :=
  match l with
  | [] => (None, empty)
  | x :: r =>
      if (0 <? i_ref x) && (i_dev x =? dev) && (i_inum x =? inum) then (Some i, empty)
      else scan r (i + 1) (match empty with None => if i_ref x =? 0 then Some i else None | Some e => Some e end) dev inum
  end.

Definition get_inode (s : fs) (dev inum : Z) : option Z * fs :=
  match scan (f_inodes s) 0 None dev inum with
  | (Some i, _) =>
      match zget (f_inodes s) i with
      | Some x => (Some i, set_slot s i (with_ref x (u32 (i_ref x + 1))))
      | None => (None, s)
      end
  | (None, Some i) =>
      match zget (f_inodes s) i with
      | Some x => (Some i, set_slot s i (mk_inode dev inum 1 0 1 (i_type x) (i_major x) (i_minor x) (i_nlinks x) 0
                                           (repeat 0 (Z.to_nat (NDIRECT + 1)))))
      | None => (None, s)
      end
  | (None, None) => (None, s)
  end.

Definition dup_inode (s : fs) (i : Z) : outcome (Z * fs) :=
  let! x := slot s i in Done (i, set_slot s i (with_ref x (u32 (i_ref x + 1)))).

(** The two loops of [put_inode] that give the blocks of a file back. *)
Fixpoint free_direct (n : nat) (d : disk) (addrs : list Z) (i : Z) : disk * list Z :=
  match n with
  | O => (d, addrs)
  | S k =>
      let a := bget addrs i in
      if a =? 0 then free_direct k d addrs (i + 1)
      else free_direct k (free_block d a) (zset addrs i 0) (i + 1)
  end.

Fixpoint free_entries (n : nat) (d : disk) (b : list Z) (i : Z) : disk * list Z :=
  match n with
  | O => (d, b)
  | S k => free_entries k (free_block d (rd32 b (4 * i))) (wr32 b (4 * i) 0) (i + 1)
  end.

(** The blocks of a file given back, and its addresses afterwards. *)
Definition free_file (d : disk) (addrs : list Z) : disk * list Z :=
  let '(d, addrs) := free_direct (Z.to_nat NDIRECT) d addrs 0 in
  let ind := bget addrs NDIRECT in
  if ind =? 0 then (d, addrs)
  else
    let '(d, b) := free_entries (Z.to_nat NINDIRECT) d (d ind) 0 in
    (free_block (dset d ind b) ind, zset addrs NDIRECT 0).

(** The part of [put_inode] under the inode's lock, for the last reference to an
    inode without links. *)
Definition truncate (d : disk) (x : inode) : disk * inode :=
  let '(d, addrs) := free_file d (i_addrs x) in
  let x := mk_inode (i_dev x) (i_inum x) (i_ref x) (i_valid x) (i_sem x) 0 (i_major x) (i_minor x) (i_nlinks x) 0 addrs in
  (write_to_disk d x, mk_inode (i_dev x) (i_inum x) (i_ref x) 0 (i_sem x) 0 (i_major x) (i_minor x) (i_nlinks x) 0 addrs).

Definition put_inode (s : fs) (i : Z) : outcome fs :=
  let! s := lock s i in
  let! x := slot s i in
  let s := if negb (i_valid x =? 0) && (i_nlinks x =? 0) && (i_ref x =? 1)
           then let '(d, x) := truncate (f_disk s) x in set_slot (with_disk s d) i x
           else s in
  let! s := unlock s i in
  let! x := slot s i in
  Done (set_slot s i (with_ref x (u32 (i_ref x - 1)))).

(** [alloc_inode]: the first inode of the table with type 0 is taken. *)
Fixpoint find_free_inode (n : nat) (d : disk) (i : Z) : option Z :=
  match n with
  | O => None
  | S k =>
      let o := (i mod (BSIZE / DISK_INODE_SIZE)) * DISK_INODE_SIZE in
      if rd16 (d (2 + i / (BSIZE / DISK_INODE_SIZE))) o =? 0 then Some i else find_free_inode k d (i + 1)
  end.

Definition alloc_inode (s : fs) (dev type : Z) : option Z * fs :=
  let d := f_disk s in
  match find_free_inode (Z.to_nat (sb_ninodes (read_super_block d) - 1)) d 1 with
  | None => (None, s)
  | Some i =>
      let block := 2 + i / (BSIZE / DISK_INODE_SIZE) in
      let o := (i mod (BSIZE / DISK_INODE_SIZE)) * DISK_INODE_SIZE in
      let b := wr16 (splice (d block) o (repeat 0 (Z.to_nat DISK_INODE_SIZE))) o type in
      get_inode (with_disk s (dset d block b)) (u16 dev) i
  end.

(** ** Directories *)

(** The characters of a C string in a buffer. *)
Fixpoint cstr (b : list Z) : list Z :=
  match b with
  | [] => []
  | c :: r => if c =? 0 then [] else c :: cstr r
  end.

Fixpoint same_chars (a b : list Z) : bool :=
  match a, b with
  | [], [] => true
  | x :: a, y :: b => (x =? y) && same_chars a b
  | _, _ => false
  end.

(** [strcmp(name, dir.m_name) == 0] for a name that ends within the array. *)
Definition name_eq (name entry : list Z) : bool := same_chars name (cstr (slice entry 2 MAX_PATH)).

Definition entry_bytes (inum : Z) (name : list Z) : list Z :=
  le_bytes 2 inum ++ name ++ repeat 0 (Z.to_nat (MAX_PATH - zlen name)).

Section Directories.
Context (dev_read : Z -> option (Z -> outcome (Z * list Z))) (dev_write : Z -> option (list Z -> outcome Z)).

(** [read_inode] and [write_inode] of the inode in a slot. *)
Definition read_slot (s : fs) (i offset size : Z) : outcome (Z * list Z * fs) :=
  let! x := slot s i in
  let! ' (n, bytes, x, d) := read_inode dev_read (f_disk s) x offset size in
  Done (n, bytes, set_slot (with_disk s d) i x).

Definition write_slot (s : fs) (i : Z) (src : list Z) (offset : Z) : outcome (Z * fs) :=
  let! x := slot s i in
  let! ' (n, x, d) := write_inode dev_write (f_disk s) x src offset in
  Done (n, set_slot (with_disk s d) i x).

(** Rounds enough to pass the end of the directory. *)
Definition dir_rounds (s : fs) (i : Z) : nat :=
  match zget (f_inodes s) i with Some x => Z.to_nat (i_size x / DIR_SIZE + 2) | None => 0%nat end.

Fixpoint lookup_loop (fuel : nat) (s : fs) (i : Z) (name : list Z) (off : Z) : outcome (option (Z * Z) * fs) :=
  match fuel with
  | O => Done (None, s)
  | S k =>
      let! ' (n, e, s) := read_slot s i off DIR_SIZE in
      if n =? DIR_SIZE then
        if negb (rd16 e 0 =? 0) && name_eq name e then Done (Some (rd16 e 0, off), s)
        else lookup_loop k s i name (u32 (off + DIR_SIZE))
      else Done (None, s)
  end.

(** The slot of the entry's inode and the offset of the entry.  [get_inode] returns
    NULL on a full cache and the code reads through it. *)
Definition dir_lookup (s : fs) (i : Z) (name : list Z) : outcome (option (Z * Z) * fs) :=
  let! x := slot s i in
  let! ' (r, s) := lookup_loop (dir_rounds s i) s i name 0 in
  match r with
  | None => Done (None, s)
  | Some (inum, off) =>
      match get_inode s (i_dev x) inum with
      | (None, _) => Fault
      | (Some j, s) => let! s := load s j inum in Done (Some (j, off), s)
      end
  end.

(** The loop of [dir_link]: the offset of the first unused entry, or the end. *)
Fixpoint unused_loop (fuel : nat) (s : fs) (i offset : Z) : outcome (option Z * fs) :=
  match fuel with
  | O => Done (Some offset, s)
  | S k =>
      let! x := slot s i in
      if offset <? i_size x then
        let! ' (n, e, s) := read_slot s i offset DIR_SIZE in
        if negb (n =? DIR_SIZE) then Done (None, s)
        else if rd16 e 0 =? 0 then Done (Some offset, s)
        else unused_loop k s i (u32 (offset + DIR_SIZE))
      else Done (Some offset, s)
  end.

Definition dir_link (s : fs) (i : Z) (name : list Z) (inum : Z) : outcome (Z * fs) :=
  let! ' (found, s) := dir_lookup s i name in
  match found with
  | Some _ => let! s := put_inode s i in Done (-1, s)
  | None =>
      let! ' (r, s) := unused_loop (dir_rounds s i) s i 0 in
      match r with
      | None => Done (-1, s)
      | Some offset =>
          let! ' (_, s) := write_slot s i (entry_bytes inum name) offset in Done (0, s)
      end
  end.

Fixpoint empty_loop (fuel : nat) (s : fs) (i off : Z) : outcome (bool * fs) :=
  match fuel with
  | O => Done (true, s)
  | S k =>
      let! x := slot s i in
      if off <? i_size x then
        let! ' (n, e, s) := read_slot s i off DIR_SIZE in
        if negb (n =? DIR_SIZE) then Panic
        else if negb (rd16 e 0 =? 0) then Done (false, s)
        else empty_loop k s i (u32 (off + DIR_SIZE))
      else Done (true, s)
  end.

Definition dir_empty (s : fs) (i : Z) : outcome (bool * fs) := empty_loop (dir_rounds s i) s i (2 * DIR_SIZE).

(** ** Paths *)

Fixpoint skip_slashes (path : list Z) : list Z :=
  match path with
  | c :: r => if c =? SLASH then skip_slashes r else path
  | [] => []
  end.

(** The characters up to a slash, and the rest. *)
Fixpoint take_elem (path : list Z) : list Z * list Z :=
  match path with
  | c :: r => if c =? SLASH then ([], path) else let '(a, b) := take_elem r in (c :: a, b)
  | [] => ([], [])
  end.

(** NULL, or the rest of the path and the name. *)
Definition skip_elem (path : list Z) : outcome (option (list Z * list Z)) :=
  match skip_slashes path with
  | [] => Done None
  | p =>
      let '(name, r) := take_elem p in
      if MAX_PATH <=? zlen name then Fault else Done (Some (skip_slashes r, name))
  end.

Fixpoint namei_loop (fuel : nat) (s : fs) (inode : Z) (path : list Z) (parent : bool) (name : list Z)
  : outcome (option Z * list Z * fs) :=
  match fuel with
  | O => Fault
  | S k =>
      let! e := skip_elem path in
      match e with
      | None =>
          if parent then let! s := put_inode s inode in Done (None, name, s)
          else Done (Some inode, name, s)
      | Some (path, name) =>
          let! s := lock s inode in
          let! x := slot s inode in
          if negb (i_type x =? I_TYPE_DIR) then
            let! s := unlock s inode in
            let! s := put_inode s inode in
            Done (None, name, s)
          else if parent && match path with [] => true | _ => false end then
            let! s := unlock s inode in Done (Some inode, name, s)
          else
            let! ' (found, s) := dir_lookup s inode name in
            match found with
            | None =>
                let! s := unlock s inode in
                let! s := put_inode s inode in
                Done (None, name, s)
            | Some (next, _) =>
                let! s := unlock s inode in
                let! s := put_inode s inode in
                namei_loop k s next path parent name
            end
      end
  end.

(** [namei(path, parent, name)] for a process whose current directory is [cwd]; each
    round drops an element, so the length of the path bounds their number. *)
Definition namei_at (s : fs) (cwd : Z) (path : list Z) (parent : bool) : outcome (option Z * list Z * fs) :=
  match path with
  | c :: _ =>
      if c =? SLASH then
        match get_inode s ROOT_DEV ROOT_INUM with
        | (None, _) => Fault
        | (Some i, s) => namei_loop (S (length path)) s i path parent []
        end
      else let! ' (i, s) := dup_inode s cwd in namei_loop (S (length path)) s i path parent []
  | [] => let! ' (i, s) := dup_inode s cwd in namei_loop 1 s i path parent []
  end.

Definition namei (s : fs) (cwd : Z) (path : list Z) : outcome (option Z * fs) :=
  let! ' (r, _, s) := namei_at s cwd path false in Done (r, s).

Definition nameiparent (s : fs) (cwd : Z) (path : list Z) : outcome (option Z * list Z * fs) := namei_at s cwd path true.

(** ** Operations *)

Definition DOT : list Z := [46].
Definition DOTDOT : list Z := [46; 46].

Definition set_fields (x : inode) (type major minor : Z) : inode :=
  mk_inode (i_dev x) (i_inum x) (i_ref x) (i_valid x) (i_sem x) (u16 type) (u16 major) (u16 minor) 1 (i_size x) (i_addrs x).

(** [inode->m_nlinks += n; inode->write_to_disk();] *)
Definition add_links (s : fs) (i n : Z) : outcome fs :=
  let! x := slot s i in sync (set_slot s i (with_nlinks x (u16 (i_nlinks x + n)))) i.

(** The two entries of a new directory; the second is made only if the first was. *)
Definition link_dots (s : fs) (i inum : Z) : outcome (bool * fs) :=
  let! ' (r, s) := dir_link s i DOT inum in
  if r <? 0 then Done (false, s)
  else let! ' (r, s) := dir_link s i DOTDOT inum in Done (negb (r <? 0), s).

Definition create (s : fs) (cwd : Z) (path : list Z) (type major minor : Z) : outcome (option Z * fs) :=
  let! ' (dir, name, s) := nameiparent s cwd path in
  match dir with
  | None => Done (None, s)
  | Some dir =>
      let! s := lock s dir in
      let! ' (found, s) := dir_lookup s dir name in
      match found with
      | Some (inode, _) =>
          let! s := unlock s dir in
          let! s := put_inode s dir in
          let! s := lock s inode in
          let! x := slot s inode in
          if (i_type x =? I_TYPE_FILE) && (type =? I_TYPE_FILE) then Done (Some inode, s)
          else
            let! s := unlock s inode in
            let! s := put_inode s inode in
            Done (None, s)
      | None =>
          let! xd := slot s dir in
          match alloc_inode s (i_dev xd) type with
          | (None, s) => let! s := unlock s dir in Done (None, s)
          | (Some inode, s) =>
              let! s := lock s inode in
              let! x := slot s inode in
              let! s := sync (set_slot s inode (set_fields x type major minor)) inode in
              let! ' (ok, s) :=
                if u16 type =? I_TYPE_DIR then
                  let! s := add_links s dir 1 in link_dots s inode (i_inum x)
                else Done (true, s) in
              if ok then
                let! ' (_, s) := dir_link s dir name (i_inum x) in
                let! s := unlock s dir in
                let! s := put_inode s dir in
                Done (Some inode, s)
              else
                let! s := unlock s inode in
                let! s := unlock s dir in
                Done (None, s)
          end
      end
  end.

(** [do_mkdir] and [do_mknod] drop the inode that [create] returns. *)
Definition drop_created (c : outcome (option Z * fs)) : outcome (Z * fs) :=
  let! ' (r, s) := c in
  match r with
  | None => Done (-1, s)
  | Some inode =>
      let! s := unlock s inode in
      let! s := put_inode s inode in
      Done (0, s)
  end.

Definition do_mkdir (s : fs) (cwd : Z) (path : list Z) : outcome (Z * fs) := drop_created (create s cwd path I_TYPE_DIR 0 0).

Definition do_mknod (s : fs) (cwd : Z) (path : list Z) (major minor : Z) : outcome (Z * fs) :=
  drop_created (create s cwd path I_TYPE_DEV major minor).

(** The label [failed] of [do_link]. *)
Definition undo_link (s : fs) (inode : Z) : outcome (Z * fs) :=
  let! s := lock s inode in
  let! s := add_links s inode (-1) in
  let! s := unlock s inode in
  Done (-1, s).

Definition do_link (s : fs) (cwd : Z) (path_old path_new : list Z) : outcome (Z * fs) :=
  let! ' (r, s) := namei s cwd path_old in
  match r with
  | None => Done (-1, s)
  | Some inode =>
      let! s := lock s inode in
      let! x := slot s inode in
      if i_type x =? I_TYPE_DIR then
        let! s := unlock s inode in
        let! s := put_inode s inode in
        Done (-1, s)
      else
        let! s := add_links s inode 1 in
        let! s := unlock s inode in
        let! ' (dir, name, s) := nameiparent s cwd path_new in
        match dir with
        | None => undo_link s inode
        | Some dir =>
            let! s := lock s dir in
            let! xd := slot s dir in
            let! x := slot s inode in
            let! ' (bad, s) :=
              if negb (i_dev xd =? i_dev x) then Done (true, s)
              else let! ' (r, s) := dir_link s dir name (i_inum x) in Done (r <? 0, s) in
            if bad then
              let! s := unlock s dir in
              let! s := put_inode s dir in
              undo_link s inode
            else
              let! s := unlock s dir in
              let! s := put_inode s dir in
              let! s := put_inode s inode in
              Done (0, s)
        end
  end.

(** The label [failed] of [do_unlink]. *)
Definition unlink_failed (s : fs) (dir : Z) : outcome (Z * fs) :=
  let! s := unlock s dir in
  let! s := put_inode s dir in
  Done (-1, s).

Definition do_unlink (s : fs) (cwd : Z) (path : list Z) : outcome (Z * fs) :=
  let! ' (dir, name, s) := nameiparent s cwd path in
  match dir with
  | None => Done (-1, s)
  | Some dir =>
      let! s := lock s dir in
      if same_chars name DOT || same_chars name DOTDOT then unlink_failed s dir
      else
        let! ' (found, s) := dir_lookup s dir name in
        match found with
        | None => unlink_failed s dir
        | Some (inode, offset) =>
            let! s := lock s inode in
            let! x := slot s inode in
            if i_nlinks x <? 1 then unlink_failed s dir
            else
              let! ' (full, s) :=
                if i_type x =? I_TYPE_DIR then let! ' (e, s) := dir_empty s inode in Done (negb e, s)
                else Done (false, s) in
              if full then
                let! s := unlock s inode in
                let! s := put_inode s inode in
                unlink_failed s dir
              else
                let! ' (_, s) := write_slot s dir (repeat 0 (Z.to_nat DIR_SIZE)) offset in
                let! s := if i_type x =? I_TYPE_DIR then add_links s dir (-1) else Done s in
                let! s := unlock s dir in
                let! s := put_inode s dir in
                let! s := add_links s inode (-1) in
                let! s := unlock s inode in
                let! s := put_inode s inode in
                Done (0, s)
        end
  end.

(** The new current directory, on success. *)
Definition do_chdir (s : fs) (cwd : Z) (path : list Z) : outcome (Z * Z * fs) :=
  let! ' (r, s) := namei s cwd path in
  match r with
  | None => Done (-1, cwd, s)
  | Some inode =>
      let! x := slot s inode in
      if negb (i_type x =? I_TYPE_DIR) then
        let! s := unlock s inode in
        let! s := put_inode s inode in
        Done (-1, cwd, s)
      else
        let! s := unlock s inode in
        let! s := put_inode s cwd in
        Done (0, inode, s)
  end.

End Directories.

(** ** Slots *)

Lemma set_slot_id s i x : zget (f_inodes s) i = Some x -> set_slot s i x = s.
Proof. intros H. unfold set_slot. rewrite zset_id by exact H. destruct s; reflexivity. Qed.

Lemma slot_eq s i x : zget (f_inodes s) i = Some x -> slot s i = Done x.
Proof. intros H. unfold slot. rewrite H. reflexivity. Qed.

Lemma zget_set_slot s i x y : zget (f_inodes s) i = Some y -> zget (f_inodes (set_slot s i x)) i = Some x.
Proof. intros H. apply zget_zset_eq. eapply zget_Some_range; eauto. Qed.

Lemma zget_set_slot_ne s i j x : 0 <= j -> i <> j -> zget (f_inodes (set_slot s i x)) j = zget (f_inodes s) j.
Proof. apply zget_zset_ne. Qed.

Lemma with_disk_id s : with_disk s (f_disk s) = s.
Proof. destruct s; reflexivity. Qed.

(** ** What a directory holds *)

Definition entry (d : disk) (x : inode) (j : Z) : list Z := content d x <$> seqZ (DIR_SIZE * j) DIR_SIZE.
Definition entries (d : disk) (x : inode) : list (list Z) := entry d x <$> seqZ 0 (i_size x / DIR_SIZE).

(** The first entry in use with the name: its inode number and its offset. *)
Fixpoint find_entry (name : list Z) (l : list (list Z)) (off : Z) : option (Z * Z) :=
  match l with
  | [] => None
  | e :: r => if negb (rd16 e 0 =? 0) && name_eq name e then Some (rd16 e 0, off) else find_entry name r (off + DIR_SIZE)
  end.

Fixpoint find_unused (l : list (list Z)) (off : Z) : Z :=
  match l with
  | [] => off
  | e :: r => if rd16 e 0 =? 0 then off else find_unused r (off + DIR_SIZE)
  end.

Record dir_wf (s : fs) (i : Z) (x : inode) : Prop := {
  dw_slot : zget (f_inodes s) i = Some x;
  dw_disk : disk_ok (f_disk s);
  dw_file : file_wf (f_disk s) x;
  dw_type : i_type x = I_TYPE_DIR;
  dw_align : i_size x mod DIR_SIZE = 0
}.

Section Lookup.
Context (dev_read : Z -> option (Z -> outcome (Z * list Z))) (dev_write : Z -> option (list Z -> outcome Z)).

Lemma read_entry s i x off : dir_wf s i x -> 0 <= off <= i_size x -> off mod DIR_SIZE = 0 ->
  read_slot dev_read s i off DIR_SIZE =
  Done (if off <? i_size x then (DIR_SIZE, entry (f_disk s) x (off / DIR_SIZE), s) else (0, [], s)).
Proof.
  intros W Ho Hm. unfold read_slot. rewrite (slot_eq _ _ _ (dw_slot _ _ _ W)). cbn [obind].
  rewrite (read_inode_ok dev_read dev_write _ _ off DIR_SIZE (dw_disk _ _ _ W) (dw_file _ _ _ W)
             ltac:(rewrite (dw_type _ _ _ W); discriminate) Ho ltac:(unfold DIR_SIZE; lia)).
  cbn [obind]. rewrite with_disk_id, set_slot_id by apply W. pose proof (dw_align _ _ _ W) as Ha. unfold DIR_SIZE in *.
  destruct (off <? i_size x) eqn:E; tests.
  - replace (Z.min 16 (i_size x - off)) with 16 by divlia. unfold entry. unfold DIR_SIZE. replace (16 * (off / 16)) with off by divlia. reflexivity.
  - replace (Z.min 16 (i_size x - off)) with 0 by lia. reflexivity.
Qed.

(** The entries from an offset on. *)
Definition entries_from (d : disk) (x : inode) (off : Z) : list (list Z) :=
  entry d x <$> seqZ (off / DIR_SIZE) ((i_size x - off) / DIR_SIZE).

Lemma entries_from_step d x off : 0 <= off < i_size x -> off mod DIR_SIZE = 0 -> i_size x mod DIR_SIZE = 0 ->
  entries_from d x off = entry d x (off / DIR_SIZE) :: entries_from d x (off + DIR_SIZE) /\
  off + DIR_SIZE <= i_size x /\ (off + DIR_SIZE) mod DIR_SIZE = 0.
Proof.
  unfold entries_from, DIR_SIZE. intros H Hm Hs. split; [|split; divlia]. rewrite seqZ_cons by divlia. rewrite fmap_cons.
  do 2 f_equal. f_equal; divlia.
Qed.

Lemma lookup_loop_ok s i x name : dir_wf s i x -> forall fuel off,
  0 <= off <= i_size x -> off mod DIR_SIZE = 0 -> (i_size x - off) / DIR_SIZE < Z.of_nat fuel ->
  lookup_loop dev_read fuel s i name off = Done (find_entry name (entries_from (f_disk s) x off) off, s).
Proof.
  intros W. pose proof (fw_size _ _ (dw_file _ _ _ W)) as Hsz. change (MAX_FILE_SIZE * BSIZE) with 71680 in Hsz.
  induction fuel as [|fuel IH]; intros off Ho Hm Hf; [unfold DIR_SIZE in *; divlia|]. cbn [lookup_loop].
  rewrite (read_entry s i x off W Ho Hm). cbn [obind]. destruct (off <? i_size x) eqn:E; tests.
  - destruct (entries_from_step (f_disk s) x off ltac:(lia) Hm (dw_align _ _ _ W)) as (He & Hle & Hm'). rewrite He.
    cbn [find_entry]. destruct (_ && _); [reflexivity|]. rewrite u32_small by (unfold DIR_SIZE in *; lia).
    apply IH; auto; [unfold DIR_SIZE in *; lia|]. unfold DIR_SIZE in *. divlia.
  - unfold entries_from. replace ((i_size x - off) / DIR_SIZE) with 0 by (unfold DIR_SIZE; divlia). reflexivity.
Qed.

Lemma entries_from_0 d x : entries_from d x 0 = entries d x.
Proof. unfold entries_from, entries. rewrite Z.sub_0_r. reflexivity. Qed.

Lemma lookup_ok s i x name : dir_wf s i x ->
  lookup_loop dev_read (dir_rounds s i) s i name 0 = Done (find_entry name (entries (f_disk s) x) 0, s).
Proof.
  intros W. pose proof (fw_size _ _ (dw_file _ _ _ W)) as Hsz. rewrite <- entries_from_0.
  apply lookup_loop_ok; auto; [lia|]. unfold dir_rounds. rewrite (dw_slot _ _ _ W). unfold DIR_SIZE. divlia.
Qed.

Lemma unused_loop_ok s i x : dir_wf s i x -> forall fuel off,
  0 <= off <= i_size x -> off mod DIR_SIZE = 0 -> (i_size x - off) / DIR_SIZE < Z.of_nat fuel ->
  unused_loop dev_read fuel s i off = Done (Some (find_unused (entries_from (f_disk s) x off) off), s).
Proof.
  intros W. pose proof (fw_size _ _ (dw_file _ _ _ W)) as Hsz. change (MAX_FILE_SIZE * BSIZE) with 71680 in Hsz.
  induction fuel as [|fuel IH]; intros off Ho Hm Hf; [unfold DIR_SIZE in *; divlia|]. cbn [unused_loop].
  rewrite (slot_eq _ _ _ (dw_slot _ _ _ W)). cbn [obind]. pose proof (read_entry s i x off W Ho Hm) as Er.
  destruct (off <? i_size x) eqn:E; tests.
  - rewrite Er. cbn [obind]. replace (DIR_SIZE =? DIR_SIZE) with true by reflexivity. cbn [negb].
    destruct (entries_from_step (f_disk s) x off ltac:(lia) Hm (dw_align _ _ _ W)) as (He & Hle & Hm'). rewrite He.
    cbn [find_unused]. destruct (_ =? 0); [reflexivity|]. rewrite u32_small by (unfold DIR_SIZE in *; lia).
    apply IH; auto; [unfold DIR_SIZE in *; lia|]. unfold DIR_SIZE in *. divlia.
  - unfold entries_from. replace ((i_size x - off) / DIR_SIZE) with 0 by (unfold DIR_SIZE; divlia). reflexivity.
Qed.

Lemma unused_ok s i x : dir_wf s i x ->
  unused_loop dev_read (dir_rounds s i) s i 0 = Done (Some (find_unused (entries (f_disk s) x) 0), s).
Proof.
  intros W. pose proof (fw_size _ _ (dw_file _ _ _ W)) as Hsz. rewrite <- entries_from_0.
  apply unused_loop_ok; auto; [lia|]. unfold dir_rounds. rewrite (dw_slot _ _ _ W). unfold DIR_SIZE. divlia.
Qed.

End Lookup.

(** ** Adding an entry *)

Record name_ok (name : list Z) : Prop := {
  nk_len : 0 < zlen name < MAX_PATH;
  nk_chars : Forall (fun c => 0 < c < 256 /\ c <> SLASH) name
}.

Lemma same_chars_eq a b : same_chars a b = true <-> a = b.
Proof.
  revert b. induction a as [|x a IH]; intros [|y b]; cbn; try (split; congruence).
  rewrite andb_true_iff, Z.eqb_eq, IH. split; [intros [-> ->]; reflexivity | intros E; injection E; auto].
Qed.

Lemma cstr_padded name n : Forall (fun c => 0 < c < 256 /\ c <> SLASH) name -> cstr (name ++ repeat 0 n) = name.
Proof.
  induction 1 as [|c r [Hc _] _ IH]; cbn.
  - destruct n; reflexivity.
  - replace (c =? 0) with false by lia. f_equal. exact IH.
Qed.

Lemma entry_bytes_length inum name : name_ok name -> length (entry_bytes inum name) = 16%nat.
Proof.
  intros [Hl _]. unfold entry_bytes. rewrite !length_app, le_bytes_length, repeat_length. unfold zlen, MAX_PATH in *. lia.
Qed.

Lemma entry_bytes_ok inum name : name_ok name -> 0 < inum < 2 ^ 16 ->
  rd16 (entry_bytes inum name) 0 = inum /\ byte_list (entry_bytes inum name) /\
  forall nm, name_eq nm (entry_bytes inum name) = true <-> nm = name.
Proof.
  intros N Hi. pose proof (entry_bytes_length inum name N) as Hlen. unfold entry_bytes in *. split_and!.
  - unfold rd16, slice. change (Z.to_nat 0) with 0%nat. rewrite drop_0, take_app_length' by (rewrite le_bytes_length; reflexivity).
    rewrite le_value_bytes. apply Z.mod_small. lia.
  - apply Forall_app. split; [apply le_bytes_byte_list|]. apply Forall_app. split; [|apply byte_list_repeat].
    eapply Forall_impl; [apply N|]. cbn. lia.
  - intros nm. unfold name_eq, slice. change (Z.to_nat 2) with 2%nat.
    rewrite drop_app_length' by (rewrite le_bytes_length; reflexivity).
    rewrite take_ge, cstr_padded; [apply same_chars_eq | apply N |].
    rewrite length_app, le_bytes_length in Hlen. unfold MAX_PATH in *. lia.
Qed.

(** The entry goes where the first unused one is, or to the end. *)
Fixpoint place (l : list (list Z)) (e : list Z) : list (list Z) :=
  match l with
  | [] => [e]
  | h :: t => if rd16 h 0 =? 0 then e :: t else h :: place t e
  end.

Lemma find_place_same name e l : rd16 e 0 <> 0 -> name_eq name e = true -> forall off, find_entry name l off = None ->
  find_entry name (place l e) off = Some (rd16 e 0, find_unused l off).
Proof.
  intros He Hn. apply Z.eqb_neq in He as He'. induction l as [|h t IH]; intros off Hf; cbn in *.
  - rewrite He', Hn. reflexivity.
  - destruct (rd16 h 0 =? 0) eqn:E; cbn in *; [rewrite He', Hn; reflexivity|]. rewrite E. cbn.
    destruct (name_eq name h); [discriminate|]. apply IH, Hf.
Qed.

Lemma find_place_other nm e l : name_eq nm e = false -> forall off, find_entry nm (place l e) off = find_entry nm l off.
Proof.
  intros Hn. induction l as [|h t IH]; intros off; cbn.
  - rewrite Hn, andb_false_r. reflexivity.
  - destruct (rd16 h 0 =? 0) eqn:E; cbn; rewrite ?Hn, ?E, ?andb_false_r; cbn; [reflexivity|]. rewrite IH. reflexivity.
Qed.

(** The position of the first unused entry. *)
Lemma place_pos l e : forall off, exists k, find_unused l off = off + DIR_SIZE * Z.of_nat k /\ (k <= length l)%nat /\
  place l e = take k l ++ e :: drop (S k) l.
Proof.
  induction l as [|h t IH]; intros off; cbn [find_unused place].
  - exists 0%nat. split; [lia|]. split; reflexivity.
  - destruct (rd16 h 0 =? 0).
    + exists 0%nat. split; [lia|]. split; [lia | reflexivity].
    + destruct (IH (off + DIR_SIZE)) as (k & E & Hk & Ep). exists (S k). rewrite E, Ep. cbn. unfold DIR_SIZE. split; [lia|].
      split; [lia | reflexivity].
Qed.

Lemma place_lookup (l : list (list Z)) (e : list Z) (k j : nat) : (k <= length l)%nat -> (take k l ++ e :: drop (S k) l) !! j = if decide (j = k) then Some e else l !! j.
Proof.
  intros Hk. assert (Hlen : length (take k l) = k) by (rewrite length_take; lia). case_decide as E.
  - subst j. rewrite lookup_app_r by lia. rewrite Hlen, Nat.sub_diag. reflexivity.
  - destruct (decide (j < k)%nat).
    + rewrite lookup_app_l by lia. rewrite lookup_take, decide_True by lia. reflexivity.
    + rewrite lookup_app_r by lia. rewrite Hlen. destruct (j - k)%nat as [|p] eqn:Ej; [lia|].
      change ((e :: drop (S k) l) !! S p) with (drop (S k) l !! p). rewrite lookup_drop. f_equal. lia.
Qed.

(** Storing an entry's bytes changes that entry alone. *)
Lemma entries_stored d x off e d' x' : disk_ok d -> file_wf d x -> i_size x mod DIR_SIZE = 0 -> zlen e = DIR_SIZE ->
  off = find_unused (entries d x) 0 -> off + DIR_SIZE <= MAX_FILE_SIZE * BSIZE -> stored d x off e d' x' ->
  entries d' x' = place (entries d x) e /\ i_size x' mod DIR_SIZE = 0.
Proof.
  intros D W Ha He Ho Hmax (D' & W' & Hs & _ & _ & Hc & _). change (MAX_FILE_SIZE * BSIZE) with 71680 in *.
  destruct (place_pos (entries d x) e 0) as (k & Ek & Hk & Ep). rewrite <- Ho in Ek. rewrite Ep.
  assert (Hlen : length (entries d x) = Z.to_nat (i_size x / DIR_SIZE)) by (unfold entries; rewrite length_fmap, length_seqZ; reflexivity).
  pose proof (fw_size _ _ W) as Hsz. change (MAX_FILE_SIZE * BSIZE) with 71680 in Hsz. rewrite Hlen in Hk. rewrite He in *. unfold DIR_SIZE in *.
  assert (Hs' : i_size x' / 16 = Z.max (i_size x / 16) (Z.of_nat k + 1) /\ i_size x' mod 16 = 0) by (rewrite Hs; divlia).
  destruct Hs' as [Hs' Hm']. split; [|exact Hm'].
  assert (Hent : forall j, 0 <= j < Z.max (i_size x / 16) (Z.of_nat k + 1) -> entry d' x' j = if decide (j = Z.of_nat k) then e else entry d x j).
  { intros j Hj. unfold entry. case_decide as E.
    - subst j. transitivity (bget e <$> seqZ 0 16).
      + unfold DIR_SIZE, seqZ. rewrite <- !list_fmap_compose. apply list_fmap_ext. intros n v Hv. apply lookup_seq in Hv as [-> Hv].
        unfold compose. rewrite Hc by lia. rewrite decide_True by lia. f_equal. lia.
      + rewrite <- (slice_bytes e 0 16) by (rewrite ?He; lia). unfold slice. change (Z.to_nat 0) with 0%nat. rewrite drop_0, take_ge; [reflexivity|].
        unfold zlen in He. lia.
    - apply list_fmap_ext. intros n v Hv. apply lookup_seqZ in Hv as [-> Hv]. unfold DIR_SIZE in *. rewrite Hc by divlia.
      rewrite decide_False by lia. reflexivity. }
  apply list_eq. intros j. rewrite place_lookup by (rewrite Hlen; exact Hk). unfold entries. unfold DIR_SIZE. rewrite Hs'.
  rewrite list_lookup_fmap. destruct (decide (Z.of_nat j < Z.max (i_size x / 16) (Z.of_nat k + 1))) as [Hj|Hj].
  - rewrite lookup_seqZ_lt by lia. cbn [fmap option_fmap option_map]. rewrite Hent by lia. case_decide as E1; case_decide as E2; try lia; [reflexivity|].
    rewrite list_lookup_fmap, lookup_seqZ_lt by lia. reflexivity.
  - rewrite lookup_seqZ_ge by lia. case_decide; [lia|]. rewrite list_lookup_fmap, lookup_seqZ_ge by lia. reflexivity.
Qed.

(** ** The cache *)

Definition holds (x : inode) (dev inum : Z) : Prop := 0 < i_ref x /\ i_dev x = dev /\ i_inum x = inum.

#[global] Instance holds_dec x dev inum : Decision (holds x dev inum).
Proof. unfold holds. apply _. Defined.

Lemma scan_ok dev inum : forall l i empty,
  match scan l i empty dev inum with
  | (Some j, _) => exists n x, l !! n = Some x /\ j = i + Z.of_nat n /\ holds x dev inum
  | (None, e) => (forall n x, l !! n = Some x -> ~ holds x dev inum) /\
      match empty with
      | Some v => e = Some v
      | None => match e with
                | Some j => exists n x, l !! n = Some x /\ j = i + Z.of_nat n /\ i_ref x = 0
                | None => forall n x, l !! n = Some x -> i_ref x <> 0
                end
      end
  end.
Proof.
  induction l as [|x l IH]; intros i empty; cbn [scan].
  - split; [intros n y H; discriminate|]. destruct empty; [reflexivity|]. intros n y H. discriminate.
  - destruct ((0 <? i_ref x) && (i_dev x =? dev) && (i_inum x =? inum)) eqn:E.
    + tests. exists 0%nat, x. split; [reflexivity|]. split; [lia | split; auto].
    + assert (Hx : ~ holds x dev inum) by (intros (? & ? & ?); lia).
      specialize (IH (i + 1) (match empty with None => if i_ref x =? 0 then Some i else None | Some e => Some e end)).
      destruct (scan l _ _ dev inum) as [[j|] e].
      * destruct IH as (n & y & Hn & Hj & Hy). exists (S n), y. split; [exact Hn|]. split; [lia | exact Hy].
      * destruct IH as [Hno He]. split; [intros [|n] y Hn; [injection Hn as <-; exact Hx | eapply Hno; eauto]|].
        destruct empty as [v|]; [exact He|]. destruct (i_ref x =? 0) eqn:E0; tests.
        -- subst e. exists 0%nat, x. split; [reflexivity|]. split; [lia | exact E0].
        -- destruct e as [j|].
           ++ destruct He as (n & y & Hn & Hj & Hy). exists (S n), y. split; [exact Hn|]. split; [lia | exact Hy].
           ++ intros [|n] y Hn; [injection Hn as <-; exact E0 | eapply He; eauto].
Qed.

Definition fresh_inode (x : inode) (dev inum : Z) : inode :=
  mk_inode dev inum 1 0 1 (i_type x) (i_major x) (i_minor x) (i_nlinks x) 0 (repeat 0 13).

(** The three results of [get_inode]. *)
Definition got_inode (s : fs) (dev inum : Z) (r : option Z) (s' : fs) : Prop :=
  (exists j x, r = Some j /\ zget (f_inodes s) j = Some x /\ holds x dev inum /\ s' = set_slot s j (with_ref x (u32 (i_ref x + 1)))) \/
  ((forall j x, zget (f_inodes s) j = Some x -> ~ holds x dev inum) /\
   ((exists j x, r = Some j /\ zget (f_inodes s) j = Some x /\ i_ref x = 0 /\ s' = set_slot s j (fresh_inode x dev inum)) \/
    (r = None /\ s' = s /\ forall j x, zget (f_inodes s) j = Some x -> i_ref x <> 0))).

Lemma get_inode_ok s dev inum : got_inode s dev inum (fst (get_inode s dev inum)) (snd (get_inode s dev inum)).
Proof.
  unfold get_inode. pose proof (scan_ok dev inum (f_inodes s) 0 None) as H.
  destruct (scan (f_inodes s) 0 None dev inum) as [[j|] e].
  - destruct H as (n & x & Hn & -> & Hx). rewrite Z.add_0_l, zget_of_nat, Hn. cbn. left. exists (Z.of_nat n), x.
    rewrite zget_of_nat. auto.
  - destruct H as [Hno He]. right. split.
    { intros j x Hj. apply zget_lookup in Hj as [Hj _]. eapply Hno; eauto. }
    destruct e as [j|].
    + destruct He as (n & x & Hn & -> & Hx). rewrite Z.add_0_l, zget_of_nat, Hn. cbn. left. exists (Z.of_nat n), x. rewrite zget_of_nat. auto.
    + right. split; [reflexivity|]. split; [reflexivity|]. intros j x Hj. apply zget_lookup in Hj as [Hj _]. eapply He; eauto.
Qed.

(** An inode is in at most one slot. *)
Definition cache_ok (s : fs) : Prop := forall i j x y dev inum,
  zget (f_inodes s) i = Some x -> zget (f_inodes s) j = Some y -> holds x dev inum -> holds y dev inum -> i = j.

(** Replacing a slot keeps the cache unique when the new contents name an inode that
    no other slot holds. *)
Lemma cache_set_slot s i v : cache_ok s ->
  (forall dev inum, holds v dev inum -> forall j y, j <> i -> zget (f_inodes s) j = Some y -> ~ holds y dev inum) ->
  cache_ok (set_slot s i v).
Proof.
  intros C Hv a b x y dev inum Ha Hb Hx Hy. unfold set_slot in Ha, Hb. cbn [f_inodes] in Ha, Hb.
  apply zget_zset_cases in Ha as [[-> ->]|[Hna Ha]]; apply zget_zset_cases in Hb as [[-> ->]|[Hnb Hb]]; try reflexivity.
  - exfalso. eapply Hv; eauto.
  - exfalso. eapply Hv; eauto.
  - eapply C; eauto.
Qed.

Lemma cache_same_id s i v x : cache_ok s -> zget (f_inodes s) i = Some x -> i_dev v = i_dev x -> i_inum v = i_inum x -> 0 < i_ref x ->
  cache_ok (set_slot s i v).
Proof.
  intros C Hi Hd Hn Hr. apply cache_set_slot; [exact C|]. intros dev inum (_ & Hvd & Hvn) j y Hj Hy Hh.
  apply Hj. eapply C; eauto. split; [exact Hr|]. split; congruence.
Qed.

Lemma get_inode_cache s dev inum : cache_ok s -> cache_ok (snd (get_inode s dev inum)).
Proof.
  intros C. destruct (get_inode_ok s dev inum) as [(j & x & _ & Hj & Hx & ->)|[Hno [(j & x & _ & Hj & H0 & ->)|(_ & -> & _)]]]; [| |exact C].
  - eapply cache_same_id; eauto. apply Hx.
  - apply cache_set_slot; [exact C|]. intros dev' inum' (_ & <- & <-) k y _ Hk. cbn. eapply Hno; eauto.
Qed.

(** ** Linking *)

Section Linking.
Context (dev_read : Z -> option (Z -> outcome (Z * list Z))) (dev_write : Z -> option (list Z -> outcome Z)).

Lemma dir_lookup_absent s i x name : dir_wf s i x -> find_entry name (entries (f_disk s) x) 0 = None ->
  dir_lookup dev_read s i name = Done (None, s).
Proof.
  intros W Hf. unfold dir_lookup. rewrite (slot_eq _ _ _ (dw_slot _ _ _ W)). cbn [obind].
  rewrite (lookup_ok dev_read dev_write s i x name W), Hf. reflexivity.
Qed.

Lemma dir_lookup_present s i x name inum off : dir_wf s i x -> find_entry name (entries (f_disk s) x) 0 = Some (inum, off) ->
  dir_lookup dev_read s i name =
  match get_inode s (i_dev x) inum with
  | (None, _) => Fault
  | (Some j, s1) => let! s2 := load s1 j inum in Done (Some (j, off), s2)
  end.
Proof.
  intros W Hf. unfold dir_lookup. rewrite (slot_eq _ _ _ (dw_slot _ _ _ W)). cbn [obind].
  rewrite (lookup_ok dev_read dev_write s i x name W), Hf. reflexivity.
Qed.

(** What [dir_link] promises. *)
Definition linked (s : fs) (i : Z) (x : inode) (name : list Z) (inum : Z) (s' : fs) (x' : inode) : Prop :=
  dir_wf s' i x' /\ i_inum x' = i_inum x /\
  (forall j, 0 <= j -> j <> i -> zget (f_inodes s') j = zget (f_inodes s) j) /\
  (exists off, find_entry name (entries (f_disk s') x') 0 = Some (inum, off)) /\
  (forall nm, nm <> name -> find_entry nm (entries (f_disk s') x') 0 = find_entry nm (entries (f_disk s) x) 0) /\
  (forall y, file_wf (f_disk s) y -> disjoint_files (f_disk s) x y ->
     file_wf (f_disk s') y /\ forall o, 0 <= o < MAX_FILE_SIZE * BSIZE -> content (f_disk s') y o = content (f_disk s) y o).

Lemma find_unused_range d x : 0 <= i_size x -> i_size x mod DIR_SIZE = 0 ->
  0 <= find_unused (entries d x) 0 <= i_size x /\ find_unused (entries d x) 0 mod DIR_SIZE = 0.
Proof.
  intros Hs Hm. destruct (place_pos (entries d x) [] 0) as (k & -> & Hk & _). unfold entries in Hk.
  rewrite length_fmap, length_seqZ in Hk. unfold DIR_SIZE in *. divlia.
Qed.

Lemma dir_link_ok s i x name inum : dir_wf s i x -> name_ok name -> 0 < inum < 2 ^ 16 ->
  find_entry name (entries (f_disk s) x) 0 = None ->
  i_size x + DIR_SIZE <= MAX_FILE_SIZE * BSIZE -> 2 + reserve x <= free_count (f_disk s) ->
  exists s' x', dir_link dev_read dev_write s i name inum = Done (0, s') /\ linked s i x name inum s' x'.
Proof.
  intros W N Hi Hf Hmax Hfree. unfold dir_link. rewrite (dir_lookup_absent s i x name W Hf). cbn [obind].
  rewrite (unused_ok dev_read dev_write s i x W). cbn [obind].
  destruct (entry_bytes_ok inum name N Hi) as (He0 & Heb & Hen). pose proof (entry_bytes_length inum name N) as Hel.
  assert (Hzl : zlen (entry_bytes inum name) = DIR_SIZE) by (unfold zlen; rewrite Hel; reflexivity).
  pose proof (fw_size _ _ (dw_file _ _ _ W)) as Hsz.
  destruct (find_unused_range (f_disk s) x ltac:(lia) (dw_align _ _ _ W)) as [Hur Hum].
  set (off := find_unused _ 0) in *. unfold write_slot. rewrite (slot_eq _ _ _ (dw_slot _ _ _ W)). cbn [obind].
  assert (Ht : touched off DIR_SIZE <= 2) by (unfold touched, DIR_SIZE, BSIZE in *; cbn [Z.eqb]; divlia).
  destruct (write_inode_ok dev_read dev_write (f_disk s) x (entry_bytes inum name) off (dw_disk _ _ _ W) (dw_file _ _ _ W))
    as (x' & d' & -> & S); try lia; [rewrite (dw_type _ _ _ W); discriminate | exact Heb | rewrite Hzl; lia|].
  cbn [obind]. eexists _, x'. split; [reflexivity|].
  destruct (entries_stored _ _ off _ _ _ (dw_disk _ _ _ W) (dw_file _ _ _ W) (dw_align _ _ _ W) Hzl eq_refl ltac:(lia) S) as [Eent Hal].
  destruct S as (D' & W' & _ & Hin & Hty & _ & Hother). pose proof (dw_slot _ _ _ W) as Hsl.
  split; [|split; [exact Hin|]; split; [|split; [|split]]].
  - constructor; cbn; auto; [|rewrite Hty; apply W]. apply zget_zset_eq. eapply zget_Some_range; eauto.
  - intros j Hj Hne. cbn. apply zget_zset_ne; auto.
  - exists off. cbn. rewrite Eent. rewrite <- He0 at 2. apply find_place_same; auto; [rewrite He0; lia | apply Hen; reflexivity].
  - intros nm Hne. cbn. rewrite Eent. apply find_place_other. destruct (name_eq nm _) eqn:E; [|reflexivity]. apply Hen in E. congruence.
  - intros y Hy Hd. cbn. destruct (Hother y Hy Hd) as (Hy' & _ & Hcy). auto.
Qed.

Lemma read_from_disk_sem d x id : i_sem (read_from_disk d x id) = i_sem x /\ i_ref (read_from_disk d x id) = i_ref x.
Proof. unfold read_from_disk. destruct (i_valid x =? 0); split; reflexivity. Qed.

(** After a lookup the directory is as locked as before. *)
Lemma lookup_keeps_lock s i x dev inum j s1 s2 : zget (f_inodes s) i = Some x -> 0 < i_ref x ->
  get_inode s dev inum = (Some j, s1) -> load s1 j inum = Done s2 ->
  exists x', zget (f_inodes s2) i = Some x' /\ i_sem x' = i_sem x.
Proof.
  intros Hi Hr Hg Hl. pose proof (get_inode_ok s dev inum) as G. rewrite Hg in G. cbn [fst snd] in G.
  assert (Hstep : exists x1, zget (f_inodes s1) i = Some x1 /\ i_sem x1 = i_sem x).
  { pose proof (zget_Some_range _ _ _ Hi) as Hir.
    destruct G as [(j' & y & Ej & Hj & Hy & ->)|[_ [(j' & y & Ej & Hj & Hy & ->)|(Ej & _)]]]; [| |discriminate]; injection Ej as <-.
    - destruct (Z.eq_dec j i) as [->|Hne].
      + rewrite Hi in Hj. injection Hj as <-. exists (with_ref x (u32 (i_ref x + 1))). split; [eapply zget_set_slot; eauto | reflexivity].
      + exists x. split; [rewrite zget_set_slot_ne by lia; exact Hi | reflexivity].
    - destruct (Z.eq_dec j i) as [->|Hne]; [rewrite Hi in Hj; injection Hj as <-; lia|].
      exists x. split; [rewrite zget_set_slot_ne by lia; exact Hi | reflexivity]. }
  destruct Hstep as (x1 & Hx1 & Hs1). unfold load in Hl. destruct (slot s1 j) as [y| | |] eqn:Es; cbn in Hl; try discriminate. injection Hl as <-.
  unfold slot, deref in Es. destruct (zget (f_inodes s1) j) eqn:Ej; [injection Es as ->|discriminate].
  pose proof (zget_Some_range _ _ _ Hx1) as Hir. destruct (Z.eq_dec j i) as [->|Hne].
  - eexists. split; [eapply zget_set_slot; eauto|]. rewrite (proj1 (read_from_disk_sem _ _ _)). congruence.
  - exists x1. split; [rewrite zget_set_slot_ne by lia; exact Hx1 | exact Hs1].
Qed.

Lemma dir_link_existing s i x name inum inum' off j s1 : dir_wf s i x -> 0 < i_ref x -> i_sem x = 0 ->
  find_entry name (entries (f_disk s) x) 0 = Some (inum', off) -> get_inode s (i_dev x) inum' = (Some j, s1) ->
  dir_link dev_read dev_write s i name inum = Blocked.
Proof.
  intros W Hr Hs Hf Hg. unfold dir_link. rewrite (dir_lookup_present s i x name inum' off W Hf), Hg.
  assert (Hload : exists s2, load s1 j inum' = Done s2).
  { unfold load. pose proof (get_inode_ok s (i_dev x) inum') as G. rewrite Hg in G. cbn [fst snd] in G.
    destruct G as [(j' & y & Ej & Hj & Hy & ->)|[_ [(j' & y & Ej & Hj & Hy & ->)|(Ej & _)]]]; [| |discriminate]; injection Ej as <-;
      erewrite slot_eq by (eapply zget_set_slot; eauto); eexists; reflexivity. }
  destruct Hload as [s2 Hl]. rewrite Hl. cbn [obind].
  destruct (lookup_keeps_lock s i x _ _ _ _ _ (dw_slot _ _ _ W) Hr Hg Hl) as (x2 & Hx2 & Hs2).
  unfold put_inode, lock. rewrite (slot_eq _ _ _ Hx2). cbn [obind]. rewrite Hs2, Hs. reflexivity.
Qed.

End Linking.

(** ** Giving the blocks of a file back *)

(** A well-formed disk, but for the marks. *)
Record disk_shape (d : disk) : Prop := {
  ds_block : forall lba, length (d lba) = 512%nat /\ byte_list (d lba);
  ds_size : 0 < nblocks d < 2 ^ 31;
  ds_inodes : 0 <= sb_ninodes (read_super_block d) < 2 ^ 26;
  ds_meta : meta_end d <= nblocks d
}.

Lemma disk_ok_shape d : disk_ok d -> disk_shape d.
Proof. intros [B S I M _]. constructor; auto. Qed.

Lemma shape_pos d : disk_shape d -> 3 <= bitmap_block d /\ bitmap_block d < meta_end d /\ 0 <= nblocks d / 4096.
Proof.
  intros [_ S I _]. unfold meta_end. pose proof (Z.div_pos (nblocks d) 4096 ltac:(lia) ltac:(lia)).
  rewrite bitmap_block_eq by exact I. pose proof (Z.div_pos (sb_ninodes (read_super_block d)) 8). lia.
Qed.

(** [d'] differs from [d] in the bitmap only, and there by the marks of [F]. *)
Record unmarked (d : disk) (F : Z -> Prop) (d' : disk) : Prop := {
  um_shape : disk_shape d';
  um_sb : d' 1 = d 1;
  um_marks : forall a, 0 <= a < nblocks d -> marked d' a = true <-> marked d a = true /\ ~ F a;
  um_rest : forall a, a < bitmap_block d \/ meta_end d <= a -> d' a = d a
}.

Lemma unmarked_nothing d (F : Z -> Prop) : disk_shape d -> (forall a, 0 <= a < nblocks d -> F a -> marked d a = false) -> unmarked d F d.
Proof.
  intros S H. constructor; auto. intros a Ha. specialize (H a Ha). split; [|tauto].
  intros Hm. split; [exact Hm|]. intros HF. rewrite H in Hm by exact HF. discriminate.
Qed.

Lemma unmarked_trans d F d1 G d2 : unmarked d F d1 -> unmarked d1 G d2 -> unmarked d (fun a => F a \/ G a) d2.
Proof.
  intros [S1 B1 M1 R1] [S2 B2 M2 R2]. destruct (layout_same d d1 B1) as (_ & Eb & En & Em). constructor; auto; [congruence| |].
  - intros a Ha. rewrite M2, M1 by lia. tauto.
  - intros a Ha. rewrite R2 by lia. apply R1, Ha.
Qed.

Lemma unmarked_iff d F G d' : (forall a, 0 <= a < nblocks d -> F a <-> G a) -> unmarked d F d' -> unmarked d G d'.
Proof. intros E [S B M R]. constructor; auto. intros a Ha. rewrite M, E by exact Ha. reflexivity. Qed.

Lemma free_block_unmarked d lba : disk_shape d -> 0 <= lba < nblocks d -> unmarked d (eq lba) (free_block d lba).
Proof.
  intros S Hl. destruct (shape_pos d S) as (H3 & Hbm & Hnp). pose proof (ds_size _ S) as Hn.
  set (index := bitmap_block d + lba / 4096).
  assert (Ed : free_block d lba = if marked d lba then dset d index (bit_clear (d index) (lba mod 4096)) else d)
    by (unfold free_block, BSIZE, marked; change (512 * 8) with 4096; fold index; reflexivity).
  rewrite Ed. destruct (marked d lba) eqn:Hm.
  2:{ apply unmarked_nothing; [exact S|]. intros a _ <-. exact Hm. } clear Ed.
  assert (Hidx : bitmap_block d <= index < meta_end d).
  { unfold index, meta_end. pose proof (Z.div_le_mono lba (nblocks d) 4096). pose proof (Z.div_pos lba 4096). lia. }
  set (d' := dset _ _ _). destruct (ds_block _ S index) as [Hbl Hby].
  assert (H1 : d' 1 = d 1) by (apply dset_ne; lia). destruct (layout_same d d' H1) as (Es & Eb & En & Em).
  destruct (bit_clear_block (d index) (lba mod 4096) Hbl Hby ltac:(divlia)) as [Hcl Hcb].
  constructor; auto.
  - constructor; rewrite ?En, ?Em, ?Es; try apply S. intros x. unfold d', dset. destruct (x =? index); [auto | apply S].
  - intros x Hx. unfold marked. rewrite Eb. unfold d'. destruct (Z.eq_dec (bitmap_block d + x / 4096) index) as [E|E].
    + rewrite E, dset_eq, bit_clear_ok by (auto; divlia). rewrite andb_true_iff, negb_true_iff, Z.eqb_neq.
      assert (lba = x <-> x mod 4096 = lba mod 4096) by (unfold index in *; split; [congruence | divlia]). intuition congruence.
    + rewrite dset_ne by exact E. assert (lba <> x) by (unfold index in *; congruence). tauto.
  - intros x Hx. apply dset_ne. lia.
Qed.

Lemma free_direct_ok : forall n d addrs i, disk_shape d -> 0 <= i ->
  (forall k, i <= k < i + Z.of_nat n -> 0 <= bget addrs k < nblocks d) -> i + Z.of_nat n <= zlen addrs ->
  let '(d', addrs') := free_direct n d addrs i in
  unmarked d (fun a => a <> 0 /\ exists k, i <= k < i + Z.of_nat n /\ bget addrs k = a) d' /\
  (forall k, 0 <= k -> bget addrs' k = if decide (i <= k < i + Z.of_nat n) then 0 else bget addrs k) /\ length addrs' = length addrs.
Proof.
  induction n as [|n IH]; intros d addrs i S Hi Hr Hl; cbn [free_direct].
  - split; [apply unmarked_nothing; [exact S|]; intros a _ (_ & k & Hk & _); lia|]. split; [|reflexivity].
    intros k Hk. rewrite decide_False by lia. reflexivity.
  - destruct (bget addrs i =? 0) eqn:E; tests.
    + specialize (IH d addrs (i + 1) S ltac:(lia) ltac:(intros; apply Hr; lia) ltac:(lia)).
      destruct (free_direct n d addrs (i + 1)) as [d' addrs']. destruct IH as (U & Hb & Hlen). split; [|split; [|exact Hlen]].
      * eapply unmarked_iff; [|exact U]. intros a _. cbv beta. split.
        -- intros (H0 & k & Hk & Ea). split; [exact H0|]. exists k. split; [lia | exact Ea].
        -- intros (H0 & k & Hk & Ea). split; [exact H0|]. exists k. split; [|exact Ea].
           destruct (Z.eq_dec k i) as [->|]; [congruence | lia].
      * intros k Hk. rewrite Hb by exact Hk. repeat case_decide; try reflexivity; try lia.
        replace k with i by lia. exact E.
    + set (a := bget addrs i) in *. pose proof (free_block_unmarked d a S ltac:(apply Hr; lia)) as U1.
      destruct (layout_same d _ (um_sb _ _ _ U1)) as (_ & _ & En & _).
      assert (Hz : forall k, 0 <= k -> bget (zset addrs i 0) k = if decide (k = i) then 0 else bget addrs k).
      { intros k Hk. unfold bget. case_decide as Ek; [subst k; rewrite zget_zset_eq by lia; reflexivity|]. rewrite zget_zset_ne by lia. reflexivity. }
      specialize (IH (free_block d a) (zset addrs i 0) (i + 1) (um_shape _ _ _ U1) ltac:(lia)).
      rewrite En in IH. unfold zlen in IH. rewrite zset_length in IH. fold (zlen addrs) in IH.
      specialize (IH ltac:(intros k Hk; rewrite Hz, decide_False by lia; apply Hr; lia) ltac:(lia)).
      destruct (free_direct n _ _ (i + 1)) as [d' addrs']. destruct IH as (U & Hb & Hlen). split; [|split; [|exact Hlen]].
      * eapply unmarked_iff; [|eapply unmarked_trans; [exact U1 | exact U]]. intros b _. cbv beta. split.
        -- intros [<-|(H0 & k & Hk & Ea)]; [split; [exact E|]; exists i; split; [lia | reflexivity]|].
           rewrite Hz, decide_False in Ea by lia. split; [exact H0|]. exists k. split; [lia | exact Ea].
        -- intros (H0 & k & Hk & Ea). destruct (Z.eq_dec k i) as [->|]; [left; exact Ea|]. right. split; [exact H0|]. exists k.
           split; [lia|]. rewrite Hz, decide_False by lia. exact Ea.
      * intros k Hk. rewrite Hb, Hz by exact Hk. repeat case_decide; try reflexivity; lia.
Qed.

Lemma free_entries_ok : forall n d b i, disk_shape d -> 0 <= i -> i + Z.of_nat n <= NINDIRECT -> length b = 512%nat -> byte_list b ->
  (forall k, i <= k < i + Z.of_nat n -> 0 <= rd32 b (4 * k) < nblocks d) ->
  let '(d', b') := free_entries n d b i in
  unmarked d (fun a => exists k, i <= k < i + Z.of_nat n /\ rd32 b (4 * k) = a) d' /\ length b' = 512%nat /\ byte_list b'.
Proof.
  change NINDIRECT with 128. induction n as [|n IH]; intros d b i S Hi Hn Hl Hb Hr; cbn [free_entries].
  - split; [apply unmarked_nothing; [exact S|]; intros a _ (k & Hk & _); lia | auto].
  - pose proof (free_block_unmarked d _ S (Hr i ltac:(lia))) as U1. destruct (layout_same d _ (um_sb _ _ _ U1)) as (_ & _ & En & _).
    destruct (wr32_block b (4 * i) 0 Hl Hb ltac:(lia)) as [Hwl Hwb].
    assert (Hrd : forall k, i + 1 <= k < i + 1 + Z.of_nat n -> rd32 (wr32 b (4 * i) 0) (4 * k) = rd32 b (4 * k))
      by (intros k Hk; apply rd32_wr32_ne; auto; lia).
    specialize (IH (free_block d (rd32 b (4 * i))) (wr32 b (4 * i) 0) (i + 1) (um_shape _ _ _ U1) ltac:(lia) ltac:(lia) Hwl Hwb).
    rewrite En in IH. specialize (IH ltac:(intros k Hk; rewrite Hrd by exact Hk; apply Hr; lia)).
    destruct (free_entries n _ _ (i + 1)) as [d' b']. destruct IH as (U & Hl' & Hb'). split; [|auto].
    eapply unmarked_iff; [|eapply unmarked_trans; [exact U1 | exact U]]. intros a _. cbv beta. split.
    + intros [<-|(k & Hk & Ea)]; [exists i; split; [lia | reflexivity]|]. exists k. split; [lia|]. rewrite <- Hrd by exact Hk. exact Ea.
    + intros (k & Hk & Ea). destruct (Z.eq_dec k i) as [->|]; [left; exact Ea|]. right. exists k. split; [lia|]. rewrite Hrd by lia. exact Ea.
Qed.

(** The blocks [put_inode] frees: the direct blocks, the indirect block and every
    entry of the indirect block, those that are zero included. *)
Definition freed (d : disk) (x : inode) (a : Z) : Prop :=
  (a <> 0 /\ exists k, 0 <= k < NDIRECT /\ addr_at x k = a) \/
  (addr_at x NDIRECT <> 0 /\ (a = addr_at x NDIRECT \/ exists k, 0 <= k < NINDIRECT /\ rd32 (d (addr_at x NDIRECT)) (4 * k) = a)).

Definition cleared (x : inode) : inode :=
  mk_inode (i_dev x) (i_inum x) (i_ref x) 0 (i_sem x) 0 (i_major x) (i_minor x) (i_nlinks x) 0 (repeat 0 13).

Lemma all_zero_addrs l : length l = 13%nat -> (forall k, 0 <= k <= 12 -> bget l k = 0) -> l = repeat 0 13.
Proof.
  intros Hl Hz. apply list_eq. intros n. destruct (decide (n < 13)%nat) as [Hn|Hn].
  - specialize (Hz (Z.of_nat n) ltac:(lia)). unfold bget in Hz. rewrite zget_of_nat in Hz.
    destruct (lookup_lt_is_Some_2 l n ltac:(lia)) as [v Hv]. rewrite Hv in Hz |- *. cbn in Hz. subst v.
    do 13 (destruct n as [|n]; [reflexivity|]). lia.
  - rewrite !lookup_ge_None_2 by (rewrite ?repeat_length; lia). reflexivity.
Qed.

(** The disk and the inode before [write_to_disk]. *)
Lemma free_file_ok d x : disk_ok d -> file_ok d x ->
  exists d1 addrs, free_file d (i_addrs x) = (d1, addrs) /\ addrs = repeat 0 13 /\
    disk_shape d1 /\ d1 1 = d 1 /\ (forall a, 0 <= a < nblocks d -> marked d1 a = true <-> marked d a = true /\ ~ freed d x a) /\
    (forall a, (a < bitmap_block d \/ meta_end d <= a) -> a <> addr_at x NDIRECT -> d1 a = d a).
Proof.
  intros D F. unfold free_file. pose proof (fo_len _ _ F) as Hl. pose proof (disk_ok_shape d D) as S. pose proof (meta_pos d D) as Hmp. pose proof (dk_size _ D) as Hsz.
  assert (Hdir : forall k, 0 <= k < 0 + Z.of_nat (Z.to_nat NDIRECT) -> 0 <= bget (i_addrs x) k < nblocks d).
  { intros k Hk. change (Z.of_nat (Z.to_nat NDIRECT)) with 12 in Hk. fold (addr_at x k). destruct (Z.eq_dec (addr_at x k) 0) as [->|Hz]; [lia|].
    assert (Eo : addr_of d x k = addr_at x k) by (unfold addr_of, NDIRECT; replace (k <? 12) with true by lia; reflexivity).
    rewrite <- Eo. enough (data_block d (addr_of d x k)) as [? _] by lia. apply (fo_data _ _ F); [change MAX_FILE_SIZE with 140; lia | congruence]. }
  pose proof (free_direct_ok (Z.to_nat NDIRECT) d (i_addrs x) 0 S ltac:(lia) Hdir) as H1.
  change (Z.of_nat (Z.to_nat NDIRECT)) with 12 in *. specialize (H1 ltac:(unfold zlen; rewrite Hl; lia)).
  destruct (free_direct (Z.to_nat NDIRECT) d (i_addrs x) 0) as [d1 addrs]. destruct H1 as (U1 & Hb1 & Hl1).
  destruct (layout_same d d1 (um_sb _ _ _ U1)) as (_ & Eb1 & En1 & Em1).
  assert (Eind : bget addrs NDIRECT = addr_at x NDIRECT) by (rewrite Hb1, decide_False by (unfold NDIRECT; lia); reflexivity).
  cbn zeta. rewrite Eind. unfold NDIRECT in *. destruct (addr_at x 12 =? 0) eqn:E0; tests.
  { exists d1, addrs. split; [reflexivity|]. split; [|split; [apply U1|]; split; [apply U1|]; split].
    - apply all_zero_addrs; [congruence|]. intros k Hk. rewrite Hb1 by lia. case_decide; [reflexivity|]. replace k with 12 by lia. exact E0.
    - intros a Ha. rewrite (um_marks _ _ _ U1) by exact Ha. unfold freed, NDIRECT. split; intros [? Hn]; (split; [assumption|]); intros Hf; apply Hn.
      + destruct Hf as [Hf|[Hf _]]; [exact Hf | congruence].
      + left. exact Hf.
    - intros a Ha _. apply (um_rest _ _ _ U1), Ha. }
  set (ind := addr_at x 12) in *. destruct (fo_ind _ _ F E0) as [Hir Him]. change (addr_at x NDIRECT) with ind in Hir, Him.
  assert (Ed1 : d1 ind = d ind) by (apply (um_rest _ _ _ U1); right; apply Hir). rewrite Ed1.
  assert (Hent : forall k, 0 <= k < 0 + Z.of_nat (Z.to_nat NINDIRECT) -> 0 <= rd32 (d ind) (4 * k) < nblocks d1).
  { intros k Hk. change (Z.of_nat (Z.to_nat NINDIRECT)) with 128 in Hk. rewrite En1.
    assert (Eo : addr_of d x (12 + k) = rd32 (d ind) (4 * k)).
    { unfold addr_of, NDIRECT. replace (12 + k <? 12) with false by lia. fold ind. replace (ind =? 0) with false by lia. do 2 f_equal. lia. }
    destruct (Z.eq_dec (rd32 (d ind) (4 * k)) 0) as [->|Hz]; [lia|]. rewrite <- Eo.
    enough (data_block d (addr_of d x (12 + k))) as [? _] by lia. apply (fo_data _ _ F); [change MAX_FILE_SIZE with 140; lia | congruence]. }
  destruct (ds_block _ S ind) as [Hbl Hby].
  pose proof (free_entries_ok (Z.to_nat NINDIRECT) d1 (d ind) 0 (um_shape _ _ _ U1) ltac:(lia) ltac:(reflexivity) Hbl Hby Hent) as H2.
  change (Z.of_nat (Z.to_nat NINDIRECT)) with 128 in H2.
  destruct (free_entries (Z.to_nat NINDIRECT) d1 (d ind) 0) as [d2 b]. destruct H2 as (U2 & Hlb & Hbb).
  pose proof (unmarked_trans _ _ _ _ _ U1 U2) as U12. destruct (layout_same d d2 (um_sb _ _ _ U12)) as (Es2 & Eb2 & En2 & Em2).
  destruct (shape_pos d S) as (H3 & Hbm & Hnp).
  assert (Hd3 : dset d2 ind b 1 = d2 1) by (apply dset_ne; lia). destruct (layout_same d2 _ Hd3) as (Es3 & Eb3 & En3 & Em3).
  assert (S3 : disk_shape (dset d2 ind b)).
  { constructor; rewrite ?Em3, ?En3, ?Es3; try apply U12. intros lba. unfold dset. destruct (lba =? ind); [auto | apply U12]. }
  assert (Hm3 : forall a, 0 <= a < nblocks d -> marked (dset d2 ind b) a = marked d2 a).
  { intros a Ha. unfold marked. rewrite Eb3, dset_ne; [reflexivity|]. rewrite Eb2. unfold meta_end in Hir. pose proof (Z.div_le_mono a (nblocks d) 4096). lia. }
  pose proof (free_block_unmarked (dset d2 ind b) ind S3 ltac:(rewrite En3, En2; lia)) as U4.
  eexists _, _. split; [reflexivity|]. split; [|split; [apply U4|]; split; [rewrite (um_sb _ _ _ U4), Hd3; apply U12|]; split].
  - apply all_zero_addrs; [rewrite zset_length; congruence|]. intros k Hk. unfold bget. destruct (Z.eq_dec k 12) as [->|Hne].
    + rewrite zget_zset_eq; [reflexivity|]. unfold zlen. rewrite Hl1, Hl. lia.
    + rewrite zget_zset_ne by lia. fold (bget addrs k). rewrite Hb1, decide_True by lia. reflexivity.
  - intros a Ha. rewrite (um_marks _ _ _ U4), Hm3, (um_marks _ _ _ U12) by (rewrite ?En3, ?En2; exact Ha).
    unfold freed, NDIRECT. change NINDIRECT with 128. fold ind. split.
    + intros [[Hm Hn] Hne]. split; [exact Hm|]. intros [Hf|[_ [Hf|Hf]]]; [apply Hn; left; exact Hf | congruence | apply Hn; right; exact Hf].
    + intros [Hm Hn]. split; [split; [exact Hm|] |intros <-; apply Hn; right; auto].
      intros [Hf|Hf]; apply Hn; [left; exact Hf | right; split; [exact E0 | right; exact Hf]].
  - intros a Ha Hne. rewrite (um_rest _ _ _ U4) by (rewrite Eb3, Em3, Eb2, Em2; exact Ha). rewrite dset_ne by exact Hne. apply (um_rest _ _ _ U12), Ha.
Qed.

(** The state after the last reference to a file without links is dropped. *)
Record deleted (d : disk) (x : inode) (d' : disk) : Prop := {
  de_shape : disk_shape d';
  de_sb : d' 1 = d 1;
  de_marks : forall a, 0 <= a < nblocks d -> marked d' a = true <-> marked d a = true /\ ~ freed d x a;
  de_data : forall a, meta_end d <= a -> a <> addr_at x NDIRECT -> d' a = d a;
  de_inode : synced d' (cleared x);
  de_inodes : forall y, 0 <= i_inum y < sb_ninodes (read_super_block d) -> i_inum y <> i_inum x -> synced d y -> synced d' y
}.

Lemma fields_cleared x : fields_ok x -> fields_ok (cleared x).
Proof. intros [T M N L S A]. constructor; cbn; auto; try lia. split; [reflexivity | repeat constructor; lia]. Qed.

Lemma dset_shape d a b : disk_shape d -> 2 <= a < bitmap_block d -> length b = 512%nat -> byte_list b ->
  disk_shape (dset d a b) /\ dset d a b 1 = d 1 /\ (forall x, 0 <= x < nblocks d -> marked (dset d a b) x = marked d x).
Proof.
  intros S Ha Hl Hb. assert (H1 : dset d a b 1 = d 1) by (apply dset_ne; lia). destruct (layout_same d _ H1) as (Es & Eb & En & Em).
  split_and!; auto.
  - constructor; rewrite ?En, ?Em, ?Es; try apply S. intros x. unfold dset. destruct (x =? a); [auto | apply S].
  - intros x Hx. unfold marked. rewrite Eb, dset_ne; [reflexivity|]. pose proof (Z.div_pos x 4096). lia.
Qed.

Lemma truncate_ok d x : disk_ok d -> file_ok d x -> fields_ok x -> 0 <= i_inum x < sb_ninodes (read_super_block d) ->
  exists d', truncate d x = (d', cleared x) /\ deleted d x d'.
Proof.
  intros D F Fi Hi. destruct (free_file_ok d x D F) as (d1 & addrs & Ef & -> & S1 & B1 & M1 & R1).
  unfold truncate. rewrite Ef. cbn zeta. eexists. split; [reflexivity|].
  destruct (layout_same d d1 B1) as (Es & Eb & En & Em). pose proof (inode_block_low d x D Hi) as Hlow.
  set (y := mk_inode _ _ _ _ _ _ _ _ _ _ _). assert (Fy : fields_ok y) by (apply (fields_cleared x) in Fi as [T M N L Sz A]; constructor; assumption).
  unfold inode_block, m_inode_lba in Hlow. rewrite (Z.add_comm 2) in Hlow.
  set (blk := i_inum x / (BSIZE / DISK_INODE_SIZE) + 2) in *.
  set (b := splice (d1 blk) ((i_inum x mod (BSIZE / DISK_INODE_SIZE)) * DISK_INODE_SIZE) (dinode_bytes y)).
  assert (Ew : write_to_disk d1 y = dset d1 blk b) by reflexivity.
  destruct (ds_block _ S1 blk) as [Hbl Hby].
  assert (Hb : length b = 512%nat /\ byte_list b).
  { pose proof (dinode_length y (proj1 (fi_addrs _ Fy))) as Hdl. split; [|apply byte_list_splice; [exact Hby | apply dinode_byte_list]].
    unfold b. rewrite splice_length; [exact Hbl | unfold BSIZE, DISK_INODE_SIZE; divlia |].
    unfold zlen. rewrite Hbl, Hdl. unfold BSIZE, DISK_INODE_SIZE. change (512 / 64) with 8. divlia. }
  destruct (dset_shape d1 blk b S1 ltac:(rewrite Eb; exact Hlow) (proj1 Hb) (proj2 Hb)) as (S2 & B2 & M2).
  assert (Hsy : length (d1 (inode_block (i_inum y))) = 512%nat) by apply S1.
  constructor.
  - rewrite Ew. exact S2.
  - rewrite Ew, B2. exact B1.
  - intros a Ha. rewrite Ew, M2 by lia. apply M1, Ha.
  - intros a Ha Hne. rewrite Ew, dset_ne by (pose proof (shape_pos d (disk_ok_shape d D)); lia). apply R1; auto.
  - exact (write_to_disk_synced d1 y Hsy ltac:(cbn; lia) Fy).
  - intros z Hz Hne Hs. apply (write_to_disk_other d1 y z Hsy); [cbn; lia | lia | exact Hne | reflexivity |].
    apply (synced_same d); [|exact Hs]. pose proof (inode_block_low d z D Hz) as Hzl. apply R1; [left; lia|].
    destruct (Z.eq_dec (addr_at x NDIRECT) 0) as [->|Hnz]; [lia|]. destruct (fo_ind _ _ F Hnz) as [? _].
    pose proof (shape_pos d (disk_ok_shape d D)). lia.
Qed.

Lemma put_last_ok s i x : zget (f_inodes s) i = Some x -> disk_ok (f_disk s) -> file_ok (f_disk s) x -> fields_ok x ->
  0 <= i_inum x < sb_ninodes (read_super_block (f_disk s)) -> i_valid x <> 0 -> i_nlinks x = 0 -> i_ref x = 1 -> i_sem x = 1 ->
  exists d', put_inode s i = Done (set_slot (with_disk s d') i (with_ref (cleared x) 0)) /\ deleted (f_disk s) x d'.
Proof.
  intros Hs D F Fi Hi Hv Hn Hr Hm. destruct (truncate_ok (f_disk s) x D F Fi Hi) as (d' & Et & Hd). exists d'. split; [|exact Hd].
  unfold put_inode, lock. rewrite (slot_eq _ _ _ Hs). cbn [obind]. rewrite Hm. change (0 <? 1) with true. change (1 - 1) with 0. cbn [obind].
  set (x0 := with_sem x 0). pose proof (zget_Some_range _ _ _ Hs) as Hir.
  erewrite slot_eq by (eapply zget_set_slot; eauto). cbn [obind].
  assert (Ec : negb (i_valid x0 =? 0) && (i_nlinks x0 =? 0) && (i_ref x0 =? 1) = true) by (cbn; lia). rewrite Ec.
  assert (Et0 : truncate (f_disk s) x0 = (d', with_sem (cleared x) 0)).
  { unfold truncate in *. cbn [x0 with_sem i_addrs i_dev i_inum i_ref i_valid i_sem i_major i_minor i_nlinks] in *.
    destruct (free_file (f_disk s) (i_addrs x)) as [dd aa]. injection Et as E1 E2. subst aa. f_equal. rewrite <- E1.
    unfold write_to_disk, dinode_bytes. reflexivity. }
  cbn [set_slot f_disk]. rewrite Et0. unfold unlock.
  assert (Hz : forall (v w : inode) dd, slot (set_slot (with_disk (set_slot s i v) dd) i w) i = Done w).
  { intros v w dd. apply slot_eq. cbn. apply zget_zset_eq. unfold zlen in *. rewrite zset_length. lia. }
  rewrite Hz. cbn [obind]. unfold set_slot, with_disk. cbn [f_inodes f_disk].
  assert (Hzz : forall (v w : inode), zset (zset (f_inodes s) i v) i w = zset (f_inodes s) i w).
  { intros v w. unfold zset. destruct (i <? 0); [reflexivity | apply list_insert_insert_eq]. }
  rewrite !Hzz. unfold slot. cbn [f_inodes]. rewrite zget_zset_eq by lia. cbn [deref obind]. rewrite Hzz. do 3 f_equal.
  cbn. rewrite Hr. unfold cleared, with_ref. cbn. try rewrite Hm. reflexivity.
Qed.

(** ** Path elements *)

(** The elements of a path: what lies between slashes, empty pieces dropped. *)
Fixpoint elements (path cur : list Z) : list (list Z) :=
  match path with
  | [] => match cur with [] => [] | _ => [cur] end
  | c :: r =>
      if c =? SLASH then match cur with [] => elements r [] | _ => cur :: elements r [] end
      else elements r (cur ++ [c])
  end.

Definition components (path : list Z) : list (list Z) := elements path [].

Lemma elements_skip path : components (skip_slashes path) = components path.
Proof. induction path as [|c r IH]; cbn; [reflexivity|]. destruct (c =? SLASH) eqn:E; [exact IH|]. unfold components. cbn. rewrite E. reflexivity. Qed.

Lemma take_elem_elements path : forall cur, cur ++ fst (take_elem path) <> [] ->
  elements path cur = (cur ++ fst (take_elem path)) :: components (snd (take_elem path)).
Proof.
  induction path as [|c r IH]; intros cur Hne; cbn in *.
  - rewrite app_nil_r in *. destruct cur; [congruence | reflexivity].
  - destruct (c =? SLASH) eqn:E; cbn in *.
    + rewrite app_nil_r in *. unfold components. cbn. rewrite E. destruct cur; [congruence | reflexivity].
    + destruct (take_elem r) as [a b]. cbn in *. rewrite IH; rewrite <- app_assoc; [reflexivity | exact Hne].
Qed.

Lemma take_elem_facts path : Forall (fun c => c <> SLASH) (fst (take_elem path)) /\ path = fst (take_elem path) ++ snd (take_elem path).
Proof.
  induction path as [|c r [IH1 IH2]]; cbn; [auto|]. destruct (c =? SLASH) eqn:E; tests; cbn; [auto|].
  destruct (take_elem r) as [a b]. cbn in *. split; [constructor; auto | f_equal; exact IH2].
Qed.

Lemma skip_slashes_head path c r : skip_slashes path = c :: r -> c <> SLASH.
Proof. induction path as [|d p IH]; cbn; [discriminate|]. destruct (d =? SLASH) eqn:E; tests; [exact IH|]. intros H. injection H as <- <-. exact E. Qed.

Lemma skip_slashes_length path : (length (skip_slashes path) <= length path)%nat.
Proof. induction path as [|c r IH]; cbn; [lia|]. destruct (c =? SLASH); cbn; lia. Qed.

(** Elements short enough for the name arrays. *)
Definition short_elements (path : list Z) : Prop := Forall (fun e => zlen e < MAX_PATH) (components path).

Lemma skip_elem_ok path : short_elements path ->
  match components path with
  | [] => skip_elem path = Done None
  | e :: rest => exists path', skip_elem path = Done (Some (path', e)) /\ components path' = rest /\ short_elements path' /\
      (length path' < length path)%nat /\ e <> [] /\ (path' = [] <-> rest = [])
  end.
Proof.
  unfold short_elements, skip_elem. rewrite <- (elements_skip path). pose proof (skip_slashes_length path) as Hlen.
  pose proof (skip_slashes_head path) as Hhd. destruct (skip_slashes path) as [|c r] eqn:Ep; [reflexivity|].
  specialize (Hhd c r eq_refl). destruct (take_elem_facts (c :: r)) as [Hns Happ].
  pose proof (take_elem_elements (c :: r) []) as He. cbn [app] in He.
  destruct (take_elem (c :: r)) as [e t] eqn:Et. cbn [fst snd] in *.
  assert (Hene : e <> []).
  { intros ->. cbn in Et. apply Z.eqb_neq in Hhd. rewrite Hhd in Et. destruct (take_elem r). discriminate. }
  unfold components at 1 2. rewrite He by exact Hene. intros Hs. apply Forall_cons in Hs as [Hle Hs].
  replace (MAX_PATH <=? zlen e) with false by lia. exists (skip_slashes t). rewrite elements_skip.
  split; [reflexivity|]. split; [reflexivity|]. split; [exact Hs|]. split; [|split; [exact Hene|]].
  - pose proof (skip_slashes_length t). assert (length (c :: r) = (length e + length t)%nat) by (rewrite <- length_app, <- Happ; reflexivity).
    destruct e; [congruence|]. cbn in *. lia.
  - rewrite <- elements_skip. split; [intros ->; reflexivity|]. intros Hc. pose proof (skip_slashes_head t) as Ht.
    destruct (skip_slashes t) as [|c2 r2]; [reflexivity|]. specialize (Ht c2 r2 eq_refl). exfalso.
    unfold components in Hc. cbn in Hc. apply Z.eqb_neq in Ht. rewrite Ht in Hc.
    rewrite take_elem_elements in Hc by (cbn; discriminate). discriminate.
Qed.

(** ** Resolving a path *)

(** The inode in the table, as a cached copy with [r] references and lock count [c]. *)
Definition table_inode (d : disk) (inum r c : Z) : inode :=
  read_from_disk d (mk_inode ROOT_DEV inum r 0 c 0 0 0 0 0 []) inum.

(** The inode number a sequence of names leads to. *)
Fixpoint walk (d : disk) (inum : Z) (names : list (list Z)) : option Z :=
  match names with
  | [] => Some inum
  | e :: r =>
      let y := table_inode d inum 1 1 in
      if i_type y =? I_TYPE_DIR then
        match find_entry e (entries d y) 0 with
        | Some (n, _) => walk d n r
        | None => None
        end
      else None
  end.

(** The directory tree: directories are well-formed files, every entry in use leads
    to an inode of the table, and the inodes in use have links. *)
Record tree_ok (d : disk) : Prop := {
  tr_disk : disk_ok d;
  tr_root : 0 <= ROOT_INUM < sb_ninodes (read_super_block d) /\ i_nlinks (table_inode d ROOT_INUM 1 1) <> 0;
  tr_dir : forall inum, 0 <= inum < sb_ninodes (read_super_block d) -> let y := table_inode d inum 1 1 in i_type y = I_TYPE_DIR ->
    file_wf d y /\ i_size y mod DIR_SIZE = 0 /\
    forall name n off, find_entry name (entries d y) 0 = Some (n, off) ->
      0 <= n < sb_ninodes (read_super_block d) /\ i_nlinks (table_inode d n 1 1) <> 0
}.

(** A cached inode is a valid copy of the one on the disk; at most one is locked. *)
Record quiet (L : option Z) (s : fs) : Prop := {
  qu_tree : tree_ok (f_disk s);
  qu_cache : cache_ok s;
  qu_slot : forall i x, zget (f_inodes s) i = Some x -> 0 < i_ref x ->
    0 <= i_inum x < sb_ninodes (read_super_block (f_disk s)) /\ i_nlinks x <> 0 /\
    x = table_inode (f_disk s) (i_inum x) (i_ref x) (if decide (L = Some i) then 0 else 1)
}.

(** The same inodes are cached, with the reference counts changed by [g]. *)
Definition moved (s : fs) (g : Z -> Z) (s' : fs) : Prop :=
  f_disk s' = f_disk s /\ length (f_inodes s') = length (f_inodes s) /\
  forall k x, zget (f_inodes s) k = Some x -> exists x', zget (f_inodes s') k = Some x' /\ i_ref x' = i_ref x + g k /\
    (0 < i_ref x -> i_inum x' = i_inum x).

Definition one (j k : Z) : Z := if decide (k = j) then 1 else 0.

Lemma moved_refl s : moved s (fun _ => 0) s.
Proof. split; [reflexivity|]. split; [reflexivity|]. intros k x Hk. exists x. split; [exact Hk|]. split; [lia | auto]. Qed.

Lemma moved_ext s g g' s' : (forall k, g k = g' k) -> moved s g s' -> moved s g' s'.
Proof. intros E (Hd & Hl & H). split; [exact Hd|]. split; [exact Hl|]. intros k x Hk. rewrite <- E. apply H, Hk. Qed.

Lemma moved_trans s g1 s1 g2 s2 : (forall k, 0 <= g1 k) -> moved s g1 s1 -> moved s1 g2 s2 -> moved s (fun k => g1 k + g2 k) s2.
Proof.
  intros Hg (Hd1 & Hl1 & H1) (Hd2 & Hl2 & H2). split; [congruence|]. split; [congruence|]. intros k x Hk.
  destruct (H1 k x Hk) as (x1 & Hk1 & Hr1 & Hi1). destruct (H2 k x1 Hk1) as (x2 & Hk2 & Hr2 & Hi2).
  exists x2. split; [exact Hk2|]. split; [lia|]. intros Hr. specialize (Hg k). rewrite Hi2 by lia. auto.
Qed.

Lemma moved_set_slot s i x v : zget (f_inodes s) i = Some x -> (0 < i_ref x -> i_inum v = i_inum x) ->
  moved s (fun k => if decide (k = i) then i_ref v - i_ref x else 0) (set_slot s i v).
Proof.
  intros Hi Hv. split; [reflexivity|]. split; [apply zset_length|]. intros k y Hk. pose proof (zget_Some_range _ _ _ Hk) as Hr.
  case_decide as E.
  - subst k. rewrite Hi in Hk. injection Hk as <-. exists v. split; [eapply zget_set_slot; eauto|]. split; [lia | exact Hv].
  - exists y. split; [rewrite zget_set_slot_ne by lia; exact Hk|]. split; [lia | auto].
Qed.

Lemma table_inode_fields d inum r c : let y := table_inode d inum 1 1 in let x := table_inode d inum r c in
  i_type x = i_type y /\ i_nlinks x = i_nlinks y /\ i_size x = i_size y /\ i_addrs x = i_addrs y /\ i_inum x = inum /\ i_ref x = r /\
  i_sem x = c /\ i_dev x = ROOT_DEV /\ i_valid x = 1 /\ entries d x = entries d y.
Proof. cbn. unfold entries, entry, content. repeat split. Qed.

Lemma table_file_wf d inum r c : file_wf d (table_inode d inum 1 1) -> file_wf d (table_inode d inum r c).
Proof.
  intros [[L Dt I S J] Hh Hs [T M N Lk Sz A] Hi Hsy]. constructor; auto; [constructor; assumption | constructor; assumption | reflexivity].
Qed.

(** A slot changed to another copy of the same inode. *)
Lemma quiet_set_slot L L' s i x r c : quiet L s -> zget (f_inodes s) i = Some x -> 0 < i_ref x -> 0 <= r ->
  (forall k, k <> i -> L = Some k <-> L' = Some k) -> c = (if decide (L' = Some i) then 0 else 1) ->
  quiet L' (set_slot s i (table_inode (f_disk s) (i_inum x) r c)).
Proof.
  intros Q Hi Hr Hr' HL Hc. pose proof (qu_slot _ _ Q i x Hi Hr) as (Hin & Hnl & Hx). constructor.
  - apply Q.
  - apply (cache_same_id s i _ x (qu_cache _ _ Q) Hi); [rewrite Hx | | exact Hr]; reflexivity.
  - intros k y Hk Hry. unfold set_slot in Hk. cbn [f_inodes f_disk] in *. apply zget_zset_cases in Hk as [[-> ->]|[Hne Hk]].
    + split; [exact Hin|]. split; [rewrite Hx in Hnl; exact Hnl|]. subst c. reflexivity.
    + destruct (qu_slot _ _ Q k y Hk Hry) as (H1 & H2 & H3). split; [exact H1|]. split; [exact H2|]. rewrite H3 at 1. f_equal.
      specialize (HL k Hne). repeat case_decide; try reflexivity; tauto.
Qed.

Lemma set_slot_twice s i v w : set_slot (set_slot s i v) i w = set_slot s i w.
Proof. unfold set_slot. cbn. f_equal. unfold zset. destruct (i <? 0); [reflexivity | apply list_insert_insert_eq]. Qed.

Lemma moved_same s i x v : zget (f_inodes s) i = Some x -> i_inum v = i_inum x -> i_ref v = i_ref x -> moved s (fun _ => 0) (set_slot s i v).
Proof.
  intros Hi Hv Hr. eapply moved_ext; [|apply (moved_set_slot s i x v Hi); auto]. intros k. cbv beta. case_decide; lia.
Qed.

Lemma lock_quiet s i x : quiet None s -> zget (f_inodes s) i = Some x -> 0 < i_ref x ->
  let s' := set_slot s i (table_inode (f_disk s) (i_inum x) (i_ref x) 0) in
  lock s i = Done s' /\ quiet (Some i) s' /\ moved s (fun _ => 0) s' /\
    zget (f_inodes s') i = Some (table_inode (f_disk s) (i_inum x) (i_ref x) 0).
Proof.
  intros Q Hi Hr. destruct (qu_slot _ _ Q i x Hi Hr) as (Hin & _ & Hx). rewrite decide_False in Hx by discriminate.
  intros s'. split; [|split; [|split]].
  - unfold lock. rewrite (slot_eq _ _ _ Hi). cbn [obind].
    assert (Es : i_sem x = 1) by (rewrite Hx; reflexivity). rewrite Es. change (0 <? 1) with true. cbn iota. do 2 f_equal.
    rewrite Hx at 1. reflexivity.
  - apply (quiet_set_slot None (Some i) s i x (i_ref x) _ Q Hi Hr ltac:(lia)); [|rewrite decide_True by reflexivity; reflexivity].
    intros k Hk. split; [discriminate | intros [= E]; congruence].
  - eapply moved_same; [exact Hi | reflexivity | reflexivity].
  - eapply zget_set_slot; eauto.
Qed.

Lemma unlock_quiet s i x : quiet (Some i) s -> zget (f_inodes s) i = Some x -> 0 < i_ref x ->
  let s' := set_slot s i (table_inode (f_disk s) (i_inum x) (i_ref x) 1) in
  unlock s i = Done s' /\ quiet None s' /\ moved s (fun _ => 0) s' /\
    zget (f_inodes s') i = Some (table_inode (f_disk s) (i_inum x) (i_ref x) 1).
Proof.
  intros Q Hi Hr. destruct (qu_slot _ _ Q i x Hi Hr) as (Hin & _ & Hx). rewrite decide_True in Hx by reflexivity.
  intros s'. split; [|split; [|split]].
  - unfold unlock. rewrite (slot_eq _ _ _ Hi). cbn [obind].
    assert (Es : i_sem x = 0) by (rewrite Hx; reflexivity). rewrite Es. change (u32 (0 + 1)) with 1. do 2 f_equal.
    rewrite Hx at 1. reflexivity.
  - apply (quiet_set_slot (Some i) None s i x (i_ref x) _ Q Hi Hr ltac:(lia)); [|rewrite decide_False by discriminate; reflexivity].
    intros k Hk. split; [intros [= E]; congruence | discriminate].
  - eapply moved_same; [exact Hi | reflexivity | reflexivity].
  - eapply zget_set_slot; eauto.
Qed.

Lemma put_quiet s i x : quiet None s -> zget (f_inodes s) i = Some x -> 0 < i_ref x < 2 ^ 32 ->
  exists s', put_inode s i = Done s' /\ quiet None s' /\ moved s (fun k => - one i k) s'.
Proof.
  intros Q Hi Hr. destruct (qu_slot _ _ Q i x Hi ltac:(lia)) as (Hin & Hnl & Hx).
  destruct (lock_quiet s i x Q Hi ltac:(lia)) as (El & Q1 & _ & Hi1).
  destruct (unlock_quiet _ i _ Q1 Hi1 ltac:(cbn; lia)) as (Eu & _). rewrite set_slot_twice in Eu.
  rewrite decide_False in Hx by discriminate. change (set_slot s i _) with (set_slot s i (table_inode (f_disk s) (i_inum x) (i_ref x) 1)) in Eu at 2.
  rewrite <- Hx, (set_slot_id s i x Hi) in Eu.
  exists (set_slot s i (table_inode (f_disk s) (i_inum x) (i_ref x - 1) 1)). split; [|split].
  - unfold put_inode. rewrite El. cbn [obind]. rewrite (slot_eq _ _ _ Hi1). cbn [obind].
    assert (Ec : i_nlinks (table_inode (f_disk s) (i_inum x) (i_ref x) 0) = i_nlinks x) by (rewrite Hx; reflexivity).
    rewrite Ec. replace (i_nlinks x =? 0) with false by lia. rewrite andb_false_r. cbn [andb]. rewrite Eu. cbn [obind]. rewrite (slot_eq _ _ _ Hi). cbn [obind].
    rewrite u32_small by lia. do 2 f_equal. rewrite Hx at 1. reflexivity.
  - apply (quiet_set_slot None None s i x (i_ref x - 1) _ Q Hi ltac:(lia) ltac:(lia)); [intros; reflexivity | rewrite decide_False by discriminate; reflexivity].
  - eapply moved_ext; [|apply (moved_set_slot s i x _ Hi); intros; reflexivity]. intros k. cbv beta. unfold one. cbn. case_decide; lia.
Qed.

(** [get_inode] and [read_from_disk] together. *)
Lemma fetch_quiet L s inum a xa : quiet L s -> 0 <= inum < sb_ninodes (read_super_block (f_disk s)) ->
  i_nlinks (table_inode (f_disk s) inum 1 1) <> 0 -> zget (f_inodes s) a = Some xa -> i_ref xa = 0 ->
  (forall k x, zget (f_inodes s) k = Some x -> 0 <= i_ref x < 2 ^ 32 - 1) ->
  (forall i, L = Some i -> exists x, zget (f_inodes s) i = Some x /\ 0 < i_ref x) ->
  exists j s1 s' x, get_inode s ROOT_DEV inum = (Some j, s1) /\ load s1 j inum = Done s' /\ quiet L s' /\ moved s (one j) s' /\
    zget (f_inodes s') j = Some x /\ holds x ROOT_DEV inum /\ i_ref x < 2 ^ 32.
Proof.
  intros Q Hin Hnl Ha Hra Hb HL. pose proof (get_inode_ok s ROOT_DEV inum) as G. destruct (get_inode s ROOT_DEV inum) as [r s1] eqn:Eg.
  cbn [fst snd] in G. destruct G as [(j & x & -> & Hj & Hx & Es1)|[Hno [(j & x & -> & Hj & Hrx & Es1)|(_ & _ & Hno')]]].
  - destruct (qu_slot _ _ Q j x Hj (proj1 Hx)) as (_ & _ & Ex). destruct Hx as (Hr & Hd & Hn). specialize (Hb j x Hj).
    rewrite u32_small in Es1 by lia. set (x1 := with_ref x (i_ref x + 1)) in *.
    assert (Ex1 : x1 = table_inode (f_disk s) (i_inum x) (i_ref x + 1) (if decide (L = Some j) then 0 else 1)) by (unfold x1; rewrite Ex at 1; reflexivity).
    assert (Hj1 : zget (f_inodes s1) j = Some x1) by (subst s1; eapply zget_set_slot; eauto).
    exists j, s1, s1, x1. split; [reflexivity|]. split; [|split; [|split; [|split; [exact Hj1|]]]].
    + unfold load. rewrite (slot_eq _ _ _ Hj1). cbn [obind]. f_equal. unfold read_from_disk. rewrite Ex1 at 1.
      change (i_valid (table_inode _ _ _ _) =? 0) with false. cbn iota. apply set_slot_id, Hj1.
    + subst s1. rewrite Ex1. apply (quiet_set_slot L L s j x (i_ref x + 1) _ Q Hj Hr ltac:(lia)); [reflexivity | reflexivity].
    + subst s1. eapply moved_ext; [|apply (moved_set_slot s j x _ Hj); intros; reflexivity]. intros k. cbv beta. unfold one, x1. cbn. destruct (decide (k = j)); lia.
    + split; [split; [cbn; lia|split; [exact Hd | exact Hn]] | cbn; lia].
  - set (x1 := fresh_inode x ROOT_DEV inum) in *. set (x2 := table_inode (f_disk s) inum 1 1).
    assert (Hj1 : zget (f_inodes s1) j = Some x1) by (subst s1; eapply zget_set_slot; eauto).
    assert (HLj : L <> Some j) by (intros E; destruct (HL j E) as (y & Hy & Hry); rewrite Hj in Hy; injection Hy as <-; lia).
    exists j, s1, (set_slot s j x2), x2. split; [reflexivity|]. split; [|split; [|split; [|split]]].
    + unfold load. rewrite (slot_eq _ _ _ Hj1). cbn [obind]. f_equal. subst s1. rewrite set_slot_twice. reflexivity.
    + constructor.
      * apply Q.
      * apply cache_set_slot; [apply Q|]. intros dev n (_ & <- & <-) k y Hk Hy. exact (Hno k y Hy).
      * intros k y Hk Hry. unfold set_slot in Hk. cbn [f_inodes] in Hk. apply zget_zset_cases in Hk as [[-> ->]|[Hne Hk]].
        -- split; [exact Hin|]. split; [exact Hnl|]. rewrite decide_False by exact HLj. reflexivity.
        -- apply (qu_slot _ _ Q k y Hk Hry).
    + eapply moved_ext; [|apply (moved_set_slot s j x _ Hj); intros; lia]. intros k. cbv beta. unfold one, x2. cbn. destruct (decide (k = j)); lia.
    + eapply zget_set_slot; eauto.
    + split; [split; [cbn; lia | split; reflexivity] | cbn; lia].
  - exfalso. exact (Hno' a xa Ha Hra).
Qed.

Lemma quiet_dir L s i x : quiet L s -> zget (f_inodes s) i = Some x -> 0 < i_ref x -> i_type x = I_TYPE_DIR ->
  dir_wf s i x /\ forall name n off, find_entry name (entries (f_disk s) x) 0 = Some (n, off) ->
    0 <= n < sb_ninodes (read_super_block (f_disk s)) /\ i_nlinks (table_inode (f_disk s) n 1 1) <> 0.
Proof.
  intros Q Hi Hr Ht. destruct (qu_slot _ _ Q i x Hi Hr) as (Hin & Hnl & Hx).
  assert (Ht1 : i_type (table_inode (f_disk s) (i_inum x) 1 1) = I_TYPE_DIR) by (rewrite <- Ht; rewrite Hx at 2; reflexivity).
  destruct (tr_dir _ (qu_tree _ _ Q) (i_inum x) Hin Ht1) as (Hf & Hal & Hent). split.
  - constructor; auto; [apply Q | rewrite Hx; apply table_file_wf, Hf | rewrite Hx; exact Hal].
  - intros name n off He. apply (Hent name n off). rewrite Hx in He. exact He.
Qed.

Lemma moved_back s g s' k x' : moved s g s' -> zget (f_inodes s') k = Some x' ->
  exists x, zget (f_inodes s) k = Some x /\ i_ref x' = i_ref x + g k /\ (0 < i_ref x -> i_inum x' = i_inum x).
Proof.
  intros (_ & Hl & H) Hk. pose proof (zget_Some_range _ _ _ Hk) as Hr. unfold zlen in Hr. rewrite Hl in Hr.
  destruct (zget_in_range (f_inodes s) k Hr) as [x Hx]. destruct (H k x Hx) as (y & Hy & Hry & Hiy). rewrite Hk in Hy. injection Hy as <-. eauto.
Qed.

Lemma one_range j k : 0 <= one j k <= 1.
Proof. unfold one. case_decide; lia. Qed.

Section Namei.
Context (dev_read : Z -> option (Z -> outcome (Z * list Z))) (dev_write : Z -> option (list Z -> outcome Z)).
Context (s0 : fs) (a b : Z) (xa xb : inode).
Context (Ha : zget (f_inodes s0) a = Some xa) (Hra : i_ref xa = 0) (Hb : zget (f_inodes s0) b = Some xb) (Hrb : i_ref xb = 0) (Hab : a <> b).
Context (Hbound : forall k x, zget (f_inodes s0) k = Some x -> 0 <= i_ref x < 2 ^ 32 - 2).

(** The state in the middle of [namei]: one more reference, to the inode at hand. *)
Definition at_inode (s : fs) (i : Z) (x : inode) : Prop :=
  quiet None s /\ moved s0 (one i) s /\ zget (f_inodes s) i = Some x /\ 0 < i_ref x.

Lemma at_inode_bound s i x k y : at_inode s i x -> zget (f_inodes s) k = Some y -> 0 <= i_ref y < 2 ^ 32 - 1.
Proof.
  intros (_ & M & _) Hk. destruct (moved_back _ _ _ _ _ M Hk) as (y0 & Hy0 & Hr & _). specialize (Hbound k y0 Hy0).
  pose proof (one_range i k). lia.
Qed.

Lemma at_inode_free s i x : at_inode s i x -> exists c xc, zget (f_inodes s) c = Some xc /\ i_ref xc = 0 /\ c <> i.
Proof.
  intros (_ & M & _). assert (Hc : exists c xc, zget (f_inodes s0) c = Some xc /\ i_ref xc = 0 /\ c <> i).
  { destruct (Z.eq_dec a i) as [->|]; [exists b, xb | exists a, xa]; auto. }
  destruct Hc as (c & xc & Hc & Hrc & Hne). destruct M as (_ & _ & M). destruct (M c xc Hc) as (y & Hy & Hry & _).
  exists c, y. split; [exact Hy|]. split; [|exact Hne]. unfold one in Hry. rewrite decide_False in Hry by exact Hne. lia.
Qed.

(** Leaving the inode at hand, locked, without a successor. *)
Lemma leave_inode s i x s1 : at_inode s i x -> lock s i = Done s1 ->
  exists s2 s', unlock s1 i = Done s2 /\ put_inode s2 i = Done s' /\ quiet None s' /\ moved s0 (fun _ => 0) s'.
Proof.
  intros A El. pose proof A as (Q & M & Hi & Hr). pose proof (at_inode_bound s i x i x A Hi) as Hbd.
  destruct (lock_quiet s i x Q Hi Hr) as (El' & Q1 & M1 & Hi1). rewrite El in El'. injection El' as ->.
  destruct (unlock_quiet _ i _ Q1 Hi1 ltac:(cbn; lia)) as (Eu & Q2 & M2 & Hi2).
  destruct (put_quiet _ i _ Q2 Hi2 ltac:(cbn; lia)) as (s' & Ep & Q' & M').
  eexists _, s'. split; [exact Eu|]. split; [exact Ep|]. split; [exact Q'|].
  eapply moved_ext; [|eapply moved_trans; [|exact M | eapply moved_trans; [|exact M1 | eapply moved_trans; [|exact M2 | exact M']]]];
    cbv beta; try lia. intros k. apply one_range.
Qed.

(** One step to the inode of an entry. *)
Lemma step_inode s i x name n off s1 : at_inode s i x -> lock s i = Done s1 -> i_type x = I_TYPE_DIR ->
  find_entry name (entries (f_disk s) x) 0 = Some (n, off) ->
  exists j s2 s3 s' x', dir_lookup dev_read s1 i name = Done (Some (j, off), s2) /\ unlock s2 i = Done s3 /\ put_inode s3 i = Done s' /\
    at_inode s' j x' /\ i_inum x' = n.
Proof.
  intros A El Ht Hf. pose proof A as (Q & M & Hi & Hr). pose proof (at_inode_bound s i x i x A Hi) as Hbd.
  destruct (qu_slot _ _ Q i x Hi Hr) as (_ & _ & Hx). rewrite decide_False in Hx by discriminate.
  destruct (lock_quiet s i x Q Hi Hr) as (El' & Q1 & M1 & Hi1). rewrite El in El'. injection El' as ->.
  set (x1 := table_inode (f_disk s) (i_inum x) (i_ref x) 0) in *. set (s1 := set_slot s i x1) in *.
  assert (Ht1 : i_type x1 = I_TYPE_DIR) by (pose proof Ht as H'; rewrite Hx in H'; exact H').
  assert (Hf1 : find_entry name (entries (f_disk s1) x1) 0 = Some (n, off)) by (pose proof Hf as H'; rewrite Hx in H'; exact H').
  destruct (quiet_dir _ s1 i x1 Q1 Hi1 Hr Ht1) as [W Hent]. destruct (Hent name n off Hf1) as [Hn Hnl].
  destruct (at_inode_free s i x A) as (c & xc & Hc & Hrc & Hci).
  assert (Hc1 : zget (f_inodes s1) c = Some xc) by (pose proof (zget_Some_range _ _ _ Hc); unfold s1; rewrite zget_set_slot_ne by lia; exact Hc).
  assert (Hb1 : forall k y, zget (f_inodes s1) k = Some y -> 0 <= i_ref y < 2 ^ 32 - 1).
  { intros k y Hk. destruct (moved_back _ _ _ _ _ M1 Hk) as (y0 & Hy0 & -> & _). rewrite Z.add_0_r. eapply at_inode_bound; eauto. }
  destruct (fetch_quiet (Some i) s1 n c xc Q1 Hn Hnl Hc1 Hrc Hb1) as (j & s1' & s2 & xj & Eg & Eld & Q2 & M2 & Hj2 & (Hrj & _ & Hnj) & Hbj).
  { intros k [= <-]. exists x1. split; [exact Hi1 | exact Hr]. }
  destruct M2 as (Hd2 & Hl2 & M2'). destruct (M2' i x1 Hi1) as (xi & Hi2 & Hri & _). pose proof (conj Hd2 (conj Hl2 M2')) as M2.
  assert (Hri0 : 0 < i_ref xi < 2 ^ 32) by (rewrite Hri; change (i_ref x1) with (i_ref x); pose proof (one_range j i); lia).
  destruct (unlock_quiet s2 i xi Q2 Hi2 ltac:(lia)) as (Eu & Q3 & M3 & Hi3). set (s3 := set_slot s2 i _) in *.
  destruct (put_quiet s3 i _ Q3 Hi3 ltac:(cbn; lia)) as (s' & Ep & Q' & M').
  assert (M0 : moved s0 (one j) s').
  { eapply moved_ext; [|eapply moved_trans; [|eapply moved_trans; [|eapply moved_trans; [|eapply moved_trans; [|exact M | exact M1] | exact M2] | exact M3] | exact M']];
      cbv beta; intros k; pose proof (one_range i k); pose proof (one_range j k); lia. }
  assert (Mj : moved s2 (fun k => 0 + - one i k) s') by (eapply moved_trans; [|exact M3 | exact M']; lia).
  destruct Mj as (_ & _ & Mj). destruct (Mj j xj Hj2) as (x' & Hj' & Hr' & Hn').
  exists j, s2, s3, s', x'. split; [|split; [exact Eu|]; split; [exact Ep|]; split; [split; [exact Q'|]; split; [exact M0|]; split; [exact Hj'|]|]].
  - rewrite (dir_lookup_present dev_read dev_write s1 i x1 name n off W Hf1). change (i_dev x1) with ROOT_DEV. rewrite Eg, Eld. reflexivity.
  - destruct (moved_back s0 (one j) s' j x' M0 Hj') as (y0 & Hy0 & Hry & _).
    rewrite Hry. specialize (Hbound j y0 Hy0). unfold one. rewrite decide_True by reflexivity. lia.
  - rewrite Hn' by exact Hrj. exact Hnj.
Qed.

Lemma namei_loop_ok : forall fuel s i x path name, at_inode s i x -> short_elements path -> (length path < fuel)%nat ->
  match walk (f_disk s0) (i_inum x) (components path) with
  | Some n => exists j s' x' nm, namei_loop dev_read fuel s i path false name = Done (Some j, nm, s') /\ at_inode s' j x' /\ i_inum x' = n
  | None => exists s' nm, namei_loop dev_read fuel s i path false name = Done (None, nm, s') /\ quiet None s' /\ moved s0 (fun _ => 0) s'
  end.
Proof.
  induction fuel as [|fuel IH]; intros s i x path name A Hs Hf; [lia|]. cbn [namei_loop].
  pose proof A as (Q & M & Hi & Hr). assert (Hd : f_disk s = f_disk s0) by apply M.
  destruct (qu_slot _ _ Q i x Hi Hr) as (_ & _ & Hx). rewrite decide_False in Hx by discriminate.
  pose proof (skip_elem_ok path Hs) as He. destruct (components path) as [|e rest]; cbn [walk].
  { rewrite He. cbn [obind]. exists i, s, x, name. auto. }
  destruct He as (path' & -> & Hc & Hs' & Hlen & _ & _). cbn [obind].
  destruct (lock_quiet s i x Q Hi Hr) as (El & Q1 & M1 & Hi1). rewrite El. cbn [obind]. rewrite (slot_eq _ _ _ Hi1). cbn [obind].
  destruct (leave_inode s i x _ A El) as (s2 & s' & Eu & Ep & Q' & M').
  change (i_type (table_inode (f_disk s) (i_inum x) (i_ref x) 0)) with (i_type (table_inode (f_disk s) (i_inum x) 1 1)). rewrite Hd.
  destruct (i_type (table_inode (f_disk s0) (i_inum x) 1 1) =? I_TYPE_DIR) eqn:Et; tests; cbn [negb andb].
  2:{ rewrite <- Hd, Eu. cbn [obind]. rewrite Ep. cbn [obind]. eauto. }
  assert (Ht : i_type x = I_TYPE_DIR) by (rewrite Hx, Hd; exact Et).
  assert (Ef : find_entry e (entries (f_disk s) x) 0 = find_entry e (entries (f_disk s0) (table_inode (f_disk s0) (i_inum x) 1 1)) 0)
    by (rewrite <- Hd; f_equal; transitivity (entries (f_disk s) (table_inode (f_disk s) (i_inum x) (i_ref x) 1)); [f_equal; exact Hx | reflexivity]).
  rewrite <- Ef. rewrite <- Hd. destruct (find_entry e (entries (f_disk s) x) 0) as [[n off]|] eqn:Efe.
  - destruct (step_inode s i x e n off _ A El Ht Efe) as (j & s3 & s4 & s5 & x5 & Elk & Eu3 & Ep4 & A5 & Hn5).
    rewrite Elk. cbn [obind]. rewrite Eu3. cbn [obind]. rewrite Ep4. cbn [obind].
    rewrite Hd, <- Hc, <- Hn5. apply (IH s5 j x5 path' e A5 Hs'). lia.
  - assert (Hf1 : find_entry e (entries (f_disk s) (table_inode (f_disk s) (i_inum x) (i_ref x) 0)) 0 = None) by (pose proof Efe as H'; rewrite Hx in H'; exact H').
    destruct (quiet_dir _ _ i _ Q1 Hi1 Hr ltac:(pose proof Ht as H'; rewrite Hx in H'; exact H')) as [W _].
    rewrite (dir_lookup_absent dev_read dev_write _ i _ e W Hf1). cbn [obind]. rewrite Eu. cbn [obind]. rewrite Ep. cbn [obind]. eauto.
Qed.

End Namei.

(** ** Theorems *)

(** What [namei] promises for a path walked from inode [start]. *)
Definition resolved (s : fs) (start : Z) (path : list Z) (o : outcome (option Z * fs)) : Prop :=
  match walk (f_disk s) start (components path) with
  | Some n => exists j s' x, o = Done (Some j, s') /\ zget (f_inodes s') j = Some x /\ holds x ROOT_DEV n /\
                quiet None s' /\ moved s (one j) s'
  | None => exists s', o = Done (None, s') /\ quiet None s' /\ moved s (fun _ => 0) s'
  end.

Definition starts_at_root (path : list Z) : bool := match path with c :: _ => c =? SLASH | [] => false end.

Lemma at_inode_holds s0 s j x n : at_inode s0 s j x -> i_inum x = n -> holds x ROOT_DEV n.
Proof.
  intros (Q & _ & Hj & Hr) Hn. destruct (qu_slot _ _ Q j x Hj Hr) as (_ & _ & Hx). split; [exact Hr|].
  split; [rewrite Hx; reflexivity | exact Hn].
Qed.

(** One more reference to a cached inode. *)
Lemma hold_again s j x : quiet None s -> zget (f_inodes s) j = Some x -> 0 < i_ref x ->
  at_inode s (set_slot s j (with_ref x (i_ref x + 1))) j (with_ref x (i_ref x + 1)).
Proof.
  intros Q Hj Hr. destruct (qu_slot _ _ Q j x Hj Hr) as (_ & _ & Hx). rewrite decide_False in Hx by discriminate.
  split; [|split; [|split; [eapply zget_set_slot; eauto | cbn; lia]]].
  - replace (with_ref x (i_ref x + 1)) with (table_inode (f_disk s) (i_inum x) (i_ref x + 1) 1) by (symmetry; rewrite Hx at 1; reflexivity).
    apply (quiet_set_slot None None s j x (i_ref x + 1) _ Q Hj Hr ltac:(lia)); [reflexivity | rewrite decide_False by discriminate; reflexivity].
  - eapply moved_ext; [|apply (moved_set_slot s j x _ Hj); intros; reflexivity]. intros k. cbv beta. unfold one. cbn. destruct (decide (k = j)); lia.
Qed.

Lemma namei_ok dev_read (dev_write : Z -> option (list Z -> outcome Z)) s cwd path a b xa xb xc :
  quiet None s -> zget (f_inodes s) a = Some xa -> i_ref xa = 0 -> zget (f_inodes s) b = Some xb -> i_ref xb = 0 -> a <> b ->
  (forall k x, zget (f_inodes s) k = Some x -> 0 <= i_ref x < 2 ^ 32 - 2) ->
  zget (f_inodes s) cwd = Some xc -> 0 < i_ref xc -> short_elements path ->
  (starts_at_root path = true -> exists r xr, zget (f_inodes s) r = Some xr /\ holds xr ROOT_DEV ROOT_INUM) ->
  resolved s (if starts_at_root path then ROOT_INUM else i_inum xc) path (namei dev_read s cwd path).
Proof.
  intros Q Ha Hra Hb Hrb Hab Hbd Hc Hrc Hs Hroot. unfold resolved, namei.
  assert (Hgo : forall s1 i x path', at_inode s s1 i x -> short_elements path' -> components path' = components path ->
    match walk (f_disk s) (i_inum x) (components path) with
    | Some n => exists j s' x, (let! ' (r, _, s) := namei_loop dev_read (S (length path')) s1 i path' false [] in Done (r, s)) = Done (Some j, s') /\
                  zget (f_inodes s') j = Some x /\ holds x ROOT_DEV n /\ quiet None s' /\ moved s (one j) s'
    | None => exists s', (let! ' (r, _, s) := namei_loop dev_read (S (length path')) s1 i path' false [] in Done (r, s)) = Done (None, s') /\
                quiet None s' /\ moved s (fun _ => 0) s'
    end).
  { intros s1 i x path' A Hs' <-.
    pose proof (namei_loop_ok dev_read dev_write s a b xa xb Ha Hra Hb Hrb Hab Hbd (S (length path')) s1 i x path' [] A Hs' ltac:(lia)) as H.
    destruct (walk _ _ _) as [n|].
    - destruct H as (j & s' & x' & nm & -> & A' & Hn). exists j, s', x'. split; [reflexivity|]. pose proof A' as (Q' & M' & Hj & Hr').
      split; [exact Hj|]. split; [eapply at_inode_holds; eauto | auto].
    - destruct H as (s' & nm & -> & Q' & M'). exists s'. auto. }
  assert (Hdup : exists s1, dup_inode s cwd = Done (cwd, s1) /\ at_inode s s1 cwd (with_ref xc (i_ref xc + 1))).
  { unfold dup_inode. rewrite (slot_eq _ _ _ Hc). cbn [obind]. specialize (Hbd cwd xc Hc). rewrite u32_small by lia. eexists. split; [reflexivity|].
    apply hold_again; auto. }
  destruct Hdup as (s1 & Ed & A1). unfold namei_at. destruct path as [|c r]; cbn [starts_at_root] in *.
  - rewrite Ed. cbn [obind]. apply (Hgo s1 cwd _ [] A1 Hs eq_refl).
  - destruct (c =? SLASH) eqn:E; cycle 1.
    + rewrite Ed. cbn [obind]. apply (Hgo s1 cwd _ (c :: r) A1 Hs eq_refl).
    + destruct (Hroot eq_refl) as (rt & xr & Hrt & Hhr). pose proof (get_inode_ok s ROOT_DEV ROOT_INUM) as G.
      destruct (get_inode s ROOT_DEV ROOT_INUM) as [rr ss]. cbn [fst snd] in G.
      destruct G as [(j & x & -> & Hj & Hx & ->)|[Hno _]]; [|exfalso; exact (Hno rt xr Hrt Hhr)].
      destruct Hx as (Hrx & Hdx & Hnx). specialize (Hbd j x Hj). rewrite u32_small by lia.
      rewrite <- Hnx. change (i_inum x) with (i_inum (with_ref x (i_ref x + 1))). apply (Hgo _ j (with_ref x (i_ref x + 1)) (c :: r)); [|exact Hs|reflexivity].
      apply hold_again; auto.
Qed.

(** A disk with a root directory that holds [.] and a file [f]. *)
Definition root_disk : disk := fun lba =>
  if lba =? 1 then le_bytes 4 64 ++ le_bytes 4 64 ++ le_bytes 4 8 ++ repeat 0 500
  else if lba =? 2 then repeat 0 64 ++ [1; 0; 0; 0; 0; 0; 1; 0; 32; 0; 0; 0; 5] ++ repeat 0 51 ++ [2; 0; 0; 0; 0; 0; 1; 0] ++ repeat 0 376
  else if lba =? 4 then 63 :: repeat 0 511
  else if lba =? 5 then [1; 0; 46] ++ repeat 0 13 ++ [2; 0; 102] ++ repeat 0 493
  else repeat 0 512.

Definition root_inode : inode := table_inode root_disk 1 1 1.
Definition empty_slot : inode := mk_inode 0 0 0 0 0 0 0 0 0 0 (repeat 0 13).
Definition root_fs : fs := mk_fs root_disk (root_inode :: repeat empty_slot 63).

Lemma root_disk_ok : disk_ok root_disk.
Proof.
  constructor.
  - intros lba. unfold root_disk.
    destruct (lba =? 1); [|destruct (lba =? 2); [|destruct (lba =? 4); [|destruct (lba =? 5)]]]; (split; [reflexivity|]).
    + repeat (apply Forall_app; split; [apply le_bytes_byte_list|]). apply byte_list_repeat.
    + repeat (apply Forall_app; split); try apply byte_list_repeat; repeat constructor; lia.
    + constructor; [lia | apply byte_list_repeat].
    + repeat (apply Forall_app; split); try apply byte_list_repeat; repeat constructor; lia.
    + apply byte_list_repeat.
  - vm_compute. auto.
  - split; vm_compute; [discriminate | reflexivity].
  - vm_compute. discriminate.
  - intros lba H. change (meta_end root_disk) with 5 in H.
    assert (lba = 0 \/ lba = 1 \/ lba = 2 \/ lba = 3 \/ lba = 4) as [->|[->|[->|[->| ->]]]] by lia; reflexivity.
Qed.

Lemma root_inode_eq : root_inode = mk_inode 1 1 1 1 1 1 0 0 1 32 (5 :: repeat 0 12).
Proof. vm_compute. reflexivity. Qed.

Lemma root_addr_at k : addr_at root_inode k = if k =? 0 then 5 else 0.
Proof.
  unfold addr_at. assert (Ea : i_addrs root_inode = 5 :: repeat 0 12) by (vm_compute; reflexivity). rewrite Ea. clear Ea.
  destruct (k =? 0) eqn:E; tests; [subst k; reflexivity|]. unfold bget. destruct (zget _ k) eqn:Ez; [|reflexivity].
  pose proof (zget_Some_range _ _ _ Ez) as Hr. unfold zget in Ez. replace (k <? 0) with false in Ez by lia.
  destruct (Z.to_nat k) eqn:Ek; [lia|]. cbn in Ez. apply list_elem_of_lookup_2, list_elem_of_In in Ez.
  change (In z (repeat 0 12)) in Ez. apply repeat_spec in Ez. exact Ez.
Qed.

Lemma root_addr_of d k : 0 <= k -> addr_of d root_inode k = if k =? 0 then 5 else 0.
Proof. intros Hk. unfold addr_of. rewrite !root_addr_at. change (NDIRECT =? 0) with false. cbn. destruct (k <? NDIRECT) eqn:E; tests; [reflexivity|]. replace (k =? 0) with false; [reflexivity|]. unfold NDIRECT in E. lia. Qed.

Lemma root_file_wf : file_wf root_disk root_inode.
Proof.
  assert (H12 : addr_at root_inode NDIRECT = 0) by (rewrite root_addr_at; reflexivity).
  constructor.
  - constructor.
    + reflexivity.
    + intros k Hk Hz. rewrite root_addr_of in * by lia. destruct (k =? 0); [|congruence]. vm_compute. repeat split; discriminate || reflexivity.
    + congruence.
    + congruence.
    + intros j k Hj Hk Hne Hz. rewrite (root_addr_of _ j), (root_addr_of _ k) in * by lia. destruct (j =? 0) eqn:Ej; [|congruence]. destruct (k =? 0) eqn:Ek; tests; [congruence | discriminate].
  - intros k Hk H. change (i_size root_inode) with 32 in H. rewrite root_addr_of by lia. unfold BSIZE in H. replace (k =? 0) with true by lia. discriminate.
  - vm_compute. split; discriminate.
  - rewrite root_inode_eq. constructor; cbn [i_type i_major i_minor i_nlinks i_size i_addrs]; try lia.
    split; [reflexivity|]. repeat constructor; lia.
  - vm_compute. split; [discriminate | reflexivity].
  - vm_compute. reflexivity.
Qed.

Lemma root_entries : entries root_disk root_inode = [[1; 0; 46] ++ repeat 0 13; [2; 0; 102] ++ repeat 0 13].
Proof. vm_compute. reflexivity. Qed.

Lemma root_tree_ok : tree_ok root_disk.
Proof.
  constructor.
  - apply root_disk_ok.
  - vm_compute. repeat split; discriminate || reflexivity.
  - intros inum Hi y Ht. change (sb_ninodes (read_super_block root_disk)) with 8 in *.
    assert (inum = 1) as ->.
    { assert (inum = 0 \/ inum = 1 \/ inum = 2 \/ inum = 3 \/ inum = 4 \/ inum = 5 \/ inum = 6 \/ inum = 7) as Hc by lia.
      destruct Hc as [->|[->|[->|[->|[->|[->|[->| ->]]]]]]]; try reflexivity; vm_compute in Ht; discriminate. }
    split; [apply root_file_wf|]. split; [reflexivity|]. intros name n off. change (entries root_disk y) with (entries root_disk root_inode).
    rewrite root_entries. cbn [find_entry]. destruct (_ && _); [|destruct (_ && _); [|discriminate]]; intros [= <- _]; (split; [split; [vm_compute; discriminate | vm_compute; reflexivity] | vm_compute; discriminate]).
Qed.

Lemma root_slots k x : zget (f_inodes root_fs) k = Some x -> (k = 0 /\ x = root_inode) \/ (k <> 0 /\ x = empty_slot).
Proof.
  intros H. pose proof (zget_Some_range _ _ _ H) as Hr. apply zget_lookup in H as [H _]. cbn [root_fs f_inodes] in H.
  destruct (Z.to_nat k) eqn:Ek; [left; split; [lia | change (Some root_inode = Some x) in H; congruence]|]. right. split; [lia|].
  change (repeat empty_slot 63 !! n = Some x) in H. apply list_elem_of_lookup_2, list_elem_of_In, repeat_spec in H. exact H.
Qed.

Lemma root_quiet : quiet None root_fs.
Proof.
  constructor.
  - apply root_tree_ok.
  - intros i j x y dev inum Hi Hj (Hrx & _) (Hry & _). apply root_slots in Hi as [[-> ->]|[_ ->]]; [|discriminate].
    apply root_slots in Hj as [[-> ->]|[_ ->]]; [reflexivity | discriminate].
  - intros i x Hi Hr. apply root_slots in Hi as [[-> ->]|[_ ->]]; [|discriminate].
    split; [split; [vm_compute; discriminate | vm_compute; reflexivity]|]. split; [discriminate | reflexivity].
Qed.

Lemma put_simple s i x : zget (f_inodes s) i = Some x -> 0 < i_sem x < 2 ^ 32 -> i_nlinks x <> 0 -> 0 < i_ref x < 2 ^ 32 ->
  put_inode s i = Done (set_slot s i (with_ref x (i_ref x - 1))).
Proof.
  intros Hi Hs Hn Hr. unfold put_inode, lock. rewrite (slot_eq _ _ _ Hi). cbn [obind]. replace (0 <? i_sem x) with true by lia. cbn [obind].
  assert (Hset : forall v, slot (set_slot s i v) i = Done v) by (intros v; apply slot_eq; eapply zget_set_slot; eauto).
  rewrite Hset. cbn [obind]. change (i_nlinks (with_sem x (i_sem x - 1))) with (i_nlinks x). replace (i_nlinks x =? 0) with false by lia.
  rewrite andb_false_r. cbn [andb]. unfold unlock. rewrite Hset. cbn [obind]. rewrite set_slot_twice, Hset. cbn [obind]. rewrite set_slot_twice.
  do 2 f_equal. cbn. rewrite !u32_small by lia. replace (i_sem x - 1 + 1) with (i_sem x) by lia. reflexivity.
Qed.

Lemma chdir_ok dev_read s cwd path n xc : resolved s (if starts_at_root path then ROOT_INUM else i_inum xc) path (namei dev_read s cwd path) ->
  walk (f_disk s) (if starts_at_root path then ROOT_INUM else i_inum xc) (components path) = Some n ->
  i_type (table_inode (f_disk s) n 1 1) = I_TYPE_DIR -> zget (f_inodes s) cwd = Some xc -> 0 < i_ref xc < 2 ^ 32 - 1 ->
  exists j s' x, do_chdir dev_read s cwd path = Done (0, j, s') /\ zget (f_inodes s') j = Some x /\ i_inum x = n /\ i_sem x = 2.
Proof.
  intros R Hw Ht Hc Hrc. unfold resolved in R. rewrite Hw in R. destruct R as (j & s1 & x & En & Hj & (Hrx & Hdx & Hnx) & Q1 & M).
  unfold do_chdir. rewrite En. cbn [obind]. rewrite (slot_eq _ _ _ Hj). cbn [obind].
  destruct (qu_slot _ _ Q1 j x Hj Hrx) as (_ & Hnl & Ex). rewrite decide_False in Ex by discriminate. assert (Hd : f_disk s1 = f_disk s) by apply M.
  assert (Htx : i_type x = I_TYPE_DIR) by (rewrite Ex, Hnx, Hd; exact Ht). rewrite Htx. change (I_TYPE_DIR =? I_TYPE_DIR) with true. cbn [negb].
  unfold unlock. rewrite (slot_eq _ _ _ Hj). cbn [obind]. assert (Hsx : i_sem x = 1) by (rewrite Ex; reflexivity). rewrite Hsx. change (u32 (1 + 1)) with 2.
  destruct M as (_ & _ & M). destruct (M cwd xc Hc) as (y & Hy & Hry & _). pose proof (one_range j cwd) as Ho.
  destruct (qu_slot _ _ Q1 cwd y Hy ltac:(lia)) as (_ & Hnly & Ey). rewrite decide_False in Ey by discriminate.
  assert (Hsy : i_sem y = 1) by (rewrite Ey; reflexivity). set (s2 := set_slot s1 j (with_sem x 2)).
  pose proof (zget_Some_range _ _ _ Hj) as Hjr. pose proof (zget_Some_range _ _ _ Hy) as Hyr.
  destruct (Z.eq_dec cwd j) as [->|Hne].
  - rewrite Hy in Hj. injection Hj as <-. assert (H2 : zget (f_inodes s2) j = Some (with_sem y 2)) by (eapply zget_set_slot; eauto).
    rewrite (put_simple s2 j _ H2) by (cbn; try lia; assumption). cbn [obind]. eexists j, _, _. split; [reflexivity|].
    split; [eapply zget_set_slot; eauto|]. split; [exact Hnx | reflexivity].
  - assert (H2 : zget (f_inodes s2) cwd = Some y) by (unfold s2; rewrite zget_set_slot_ne by lia; exact Hy).
    rewrite (put_simple s2 cwd _ H2) by (rewrite ?Hsy; try lia; assumption). cbn [obind]. eexists j, _, _. split; [reflexivity|].
    split; [rewrite zget_set_slot_ne by lia; eapply zget_set_slot; eauto|]. split; [exact Hnx | reflexivity].
Qed.

(** C10: Path resolution.  In a cache whose inodes are unlocked copies of the disk's,
    with two slots free, [namei] ends on the inode that the directory entries lead
    to from the root or from the current directory, with exactly one more reference
    than before, or returns NULL when an element is missing or a middle one is no
    directory; every other reference count is as before, nothing stays locked and
    the disk is unchanged. *)
Theorem namei_correct dev_read (dev_write : Z -> option (list Z -> outcome Z)) s cwd path a b xa xb xc :
  quiet None s -> zget (f_inodes s) a = Some xa -> i_ref xa = 0 -> zget (f_inodes s) b = Some xb -> i_ref xb = 0 -> a <> b ->
  (forall k x, zget (f_inodes s) k = Some x -> 0 <= i_ref x < 2 ^ 32 - 2) ->
  zget (f_inodes s) cwd = Some xc -> 0 < i_ref xc -> short_elements path ->
  (starts_at_root path = true -> exists r xr, zget (f_inodes s) r = Some xr /\ holds xr ROOT_DEV ROOT_INUM) ->
  resolved s (if starts_at_root path then ROOT_INUM else i_inum xc) path (namei dev_read s cwd path).
Proof. exact (namei_ok dev_read dev_write s cwd path a b xa xb xc). Qed.

Lemma root_refs k x : zget (f_inodes root_fs) k = Some x -> 0 <= i_ref x < 2 ^ 32 - 2.
Proof. intros H. apply root_slots in H as [[_ ->]|[_ ->]]; cbn; lia. Qed.

Lemma namei_correct_witness : walk root_disk 1 (components [47; 46; 47; 102]) = Some 2 /\
  resolved root_fs 1 [47; 46; 47; 102] (namei (fun _ => None) root_fs 0 [47; 46; 47; 102]).
Proof.
  split; [vm_compute; reflexivity|].
  apply (namei_correct (fun _ => None) (fun _ => None) root_fs 0 [47; 46; 47; 102] 1 2 empty_slot empty_slot root_inode).
  - apply root_quiet.
  - reflexivity.
  - reflexivity.
  - reflexivity.
  - reflexivity.
  - discriminate.
  - apply root_refs.
  - reflexivity.
  - reflexivity.
  - vm_compute. repeat constructor.
  - intros _. exists 0, root_inode. split; [reflexivity | split; [reflexivity | split; reflexivity]].
Defined.

(** Directories.  Linking an absent name in a directory that has room stores the
    entry: looking the name up then finds the number, every other name gives what
    it gave before, and neither the other cached inodes nor the contents of other
    files change. *)
Theorem dir_link_correct dev_read dev_write s i x name inum : dir_wf s i x -> name_ok name -> 0 < inum < 2 ^ 16 ->
  find_entry name (entries (f_disk s) x) 0 = None ->
  i_size x + DIR_SIZE <= MAX_FILE_SIZE * BSIZE -> 2 + reserve x <= free_count (f_disk s) ->
  exists s' x', dir_link dev_read dev_write s i name inum = Done (0, s') /\ linked s i x name inum s' x' /\
    forall nm, lookup_loop dev_read (dir_rounds s' i) s' i nm 0 = Done (find_entry nm (entries (f_disk s') x') 0, s').
Proof.
  intros W N Hi Hf Hmax Hfree. destruct (dir_link_ok dev_read dev_write s i x name inum W N Hi Hf Hmax Hfree) as (s' & x' & E & L).
  exists s', x'. split; [exact E|]. split; [exact L|]. intros nm. apply lookup_ok; [exact dev_write | apply L].
Qed.

Lemma root_dir_wf : dir_wf root_fs 0 root_inode.
Proof. constructor; [reflexivity | apply root_disk_ok | apply root_file_wf | reflexivity | reflexivity]. Qed.

Lemma dir_link_correct_witness : exists s' x',
  dir_link (fun _ => None) (fun _ => None) root_fs 0 [103] 3 = Done (0, s') /\ linked root_fs 0 root_inode [103] 3 s' x' /\
  forall nm, lookup_loop (fun _ => None) (dir_rounds s' 0) s' 0 nm 0 = Done (find_entry nm (entries (f_disk s') x') 0, s').
Proof.
  apply (dir_link_correct (fun _ => None) (fun _ => None) root_fs 0 root_inode [103] 3).
  - apply root_dir_wf.
  - constructor; [split; reflexivity | repeat constructor; discriminate].
  - split; reflexivity.
  - change (f_disk root_fs) with root_disk. rewrite root_entries. reflexivity.
  - vm_compute. discriminate.
  - vm_compute. discriminate.
Defined.

(** C11: The inode cache.  [get_inode] finds the slot that holds the inode and adds a
    reference, or else takes a slot without references, or returns NULL and changes
    nothing when there is none; an inode is never in two slots. *)
Theorem get_inode_correct s dev inum : cache_ok s ->
  got_inode s dev inum (fst (get_inode s dev inum)) (snd (get_inode s dev inum)) /\ cache_ok (snd (get_inode s dev inum)).
Proof. intros C. split; [apply get_inode_ok | apply get_inode_cache, C]. Qed.

Lemma get_inode_correct_witness : fst (get_inode root_fs 1 2) = Some 1 /\ cache_ok (snd (get_inode root_fs 1 2)).
Proof. split; [vm_compute; reflexivity|]. apply (get_inode_correct root_fs 1 2). apply root_quiet. Defined.

(** Deleting a file.  Dropping the last reference to a file without links empties
    its slot, writes a free inode to the table and clears the marks of its direct
    blocks, of its indirect block and of every entry of the indirect block; an unused
    entry is zero, so block 0 loses its mark too when the indirect block is not full.
    Other blocks, marks and inodes stay. *)
Theorem put_inode_correct s i x : zget (f_inodes s) i = Some x -> disk_ok (f_disk s) -> file_ok (f_disk s) x -> fields_ok x ->
  0 <= i_inum x < sb_ninodes (read_super_block (f_disk s)) -> i_valid x <> 0 -> i_nlinks x = 0 -> i_ref x = 1 -> i_sem x = 1 ->
  exists d', put_inode s i = Done (set_slot (with_disk s d') i (with_ref (cleared x) 0)) /\ deleted (f_disk s) x d' /\
    (addr_at x NDIRECT <> 0 -> (exists k, 0 <= k < NINDIRECT /\ rd32 (f_disk s (addr_at x NDIRECT)) (4 * k) = 0) -> marked d' 0 = false).
Proof.
  intros Hs D F Fi Hi Hv Hn Hr Hm. destruct (put_last_ok s i x Hs D F Fi Hi Hv Hn Hr Hm) as (d' & E & Hd). exists d'.
  split; [exact E|]. split; [exact Hd|]. intros Hind (k & Hk & Hz). destruct (marked d' 0) eqn:Em; [|reflexivity].
  pose proof (dk_size _ D). apply (de_marks _ _ _ Hd) in Em as [_ Hnf]; [|lia]. exfalso. apply Hnf. right. split; [exact Hind|]. right. eauto.
Qed.

Lemma put_inode_correct_witness : let x := with_ref (with_nlinks root_inode 0) 1 in let s := set_slot root_fs 0 x in
  exists d', put_inode s 0 = Done (set_slot (with_disk s d') 0 (with_ref (cleared x) 0)) /\ deleted root_disk x d'.
Proof.
  intros x s. destruct (put_inode_correct s 0 x) as (d' & E & Hd & _).
  - reflexivity.
  - apply root_disk_ok.
  - destruct root_file_wf as [[L D I S J] _ _ _ _ _]. constructor; assumption.
  - destruct (fw_fields _ _ root_file_wf) as [T M N _ Sz A]. constructor; try assumption; cbn; lia.
  - vm_compute. split; congruence.
  - discriminate.
  - reflexivity.
  - reflexivity.
  - reflexivity.
  - exists d'. split; [exact E | exact Hd].
Defined.

(** Linking over an existing name.  [dir_link] finds the name, and then drops a
    reference to the directory, whose lock its callers hold, instead of one to the
    inode it found: [put_inode] waits for that lock and never gets it. *)
Theorem dir_link_existing_blocks dev_read dev_write s i x name inum inum' off j s1 : dir_wf s i x -> 0 < i_ref x -> i_sem x = 0 ->
  find_entry name (entries (f_disk s) x) 0 = Some (inum', off) -> get_inode s (i_dev x) inum' = (Some j, s1) ->
  dir_link dev_read dev_write s i name inum = Blocked.
Proof. exact (dir_link_existing dev_read dev_write s i x name inum inum' off j s1). Qed.

Lemma dir_link_existing_blocks_witness : let s := set_slot root_fs 0 (table_inode root_disk 1 1 0) in
  dir_link (fun _ => None) (fun _ => None) s 0 [102] 3 = Blocked /\
  do_link (fun _ => None) (fun _ => None) root_fs 0 [47; 102] [47; 102] = Blocked.
Proof.
  intros s. split.
  - apply (dir_link_existing_blocks (fun _ => None) (fun _ => None) s 0 (table_inode root_disk 1 1 0) [102] 3 2 16 1 (snd (get_inode s 1 2))).
    + constructor; [reflexivity | apply root_disk_ok | apply table_file_wf, root_file_wf | reflexivity | reflexivity].
    + reflexivity.
    + reflexivity.
    + vm_compute. reflexivity.
    + vm_compute. reflexivity.
  - vm_compute. reflexivity.
Defined.

(** Changing the directory.  [namei] returns its inode unlocked and [do_chdir]
    unlocks it once more: on every success the lock of the new current directory is
    left with count two, so that two processes can hold it at the same time. *)
Theorem chdir_unlocks_twice dev_read (dev_write : Z -> option (list Z -> outcome Z)) s cwd path n a b xa xb xc :
  quiet None s -> zget (f_inodes s) a = Some xa -> i_ref xa = 0 -> zget (f_inodes s) b = Some xb -> i_ref xb = 0 -> a <> b ->
  (forall k x, zget (f_inodes s) k = Some x -> 0 <= i_ref x < 2 ^ 32 - 2) ->
  zget (f_inodes s) cwd = Some xc -> 0 < i_ref xc -> short_elements path ->
  (starts_at_root path = true -> exists r xr, zget (f_inodes s) r = Some xr /\ holds xr ROOT_DEV ROOT_INUM) ->
  walk (f_disk s) (if starts_at_root path then ROOT_INUM else i_inum xc) (components path) = Some n ->
  i_type (table_inode (f_disk s) n 1 1) = I_TYPE_DIR ->
  exists j s' x, do_chdir dev_read s cwd path = Done (0, j, s') /\ zget (f_inodes s') j = Some x /\ i_inum x = n /\ i_sem x = 2.
Proof.
  intros Q Ha Hra Hb Hrb Hab Hbd Hc Hrc Hs Hroot Hw Ht. apply (chdir_ok dev_read s cwd path n xc); auto.
  - apply (namei_ok dev_read dev_write s cwd path a b xa xb xc); auto.
  - specialize (Hbd cwd xc Hc). lia.
Qed.

Lemma chdir_unlocks_twice_witness : exists j s' x,
  do_chdir (fun _ => None) root_fs 0 [47; 46] = Done (0, j, s') /\ zget (f_inodes s') j = Some x /\ i_inum x = 1 /\ i_sem x = 2.
Proof.
  apply (chdir_unlocks_twice (fun _ => None) (fun _ => None) root_fs 0 [47; 46] 1 1 2 empty_slot empty_slot root_inode).
  - apply root_quiet.
  - reflexivity.
  - reflexivity.
  - reflexivity.
  - reflexivity.
  - discriminate.
  - apply root_refs.
  - reflexivity.
  - reflexivity.
  - vm_compute. repeat constructor.
  - intros _. exists 0, root_inode. split; [reflexivity | split; [reflexivity | split; reflexivity]].
  - vm_compute. reflexivity.
  - vm_compute. reflexivity.
Defined.
