(* ===== verification/Pipe.v ===== *)
(** * Pipes and socket buffers (src/src/pipe.cc, sock_ring_buffer.cc)

    Byte queues in a ring.  The semaphores appear as their counts: a [down] at zero
    blocks the caller, for good if nobody else runs. *)
From Stdlib Require Import ZArith ZifyBool Lia.
From stdpp Require Import base option list.
From S2P Require Import Prelude Sync.

Definition PIPE_BUF_SIZE : Z := 512.

Record pipe := mk_pipe {
  p_buffer : list Z;
  p_read : Z;
  p_write : Z;
  p_space : Z;
  p_item : Z;
  p_readable : bool;
  p_writable : bool
}.

(** [pipe_t::init] leaves the bytes of the buffer as they are. *)
Definition pipe_init (old : list Z) : pipe := mk_pipe old 0 0 PIPE_BUF_SIZE 0 true true.

(** The return value and the character. *)
Definition get_char (p : pipe) : outcome (Z * Z * pipe) :=
  let! item := down1 (p_item p) in
  if p_readable p then
    let! ch := deref (zget (p_buffer p) (p_read p)) in
    Done (0, ch, mk_pipe (p_buffer p) ((p_read p + 1) mod PIPE_BUF_SIZE) (p_write p) (up1 (p_space p)) item (p_readable p) (p_writable p))
  else Done (-1, 0, mk_pipe (p_buffer p) (p_read p) (p_write p) (up1 (p_space p)) item (p_readable p) (p_writable p)).

Definition put_char (p : pipe) (ch : Z) : outcome (Z * pipe) :=
  let! space := down1 (p_space p) in
  if p_writable p then
    Done (0, mk_pipe (zset (p_buffer p) (p_write p) ch) (p_read p) ((p_write p + 1) mod PIPE_BUF_SIZE) space (up1 (p_item p))
               (p_readable p) (p_writable p))
  else Done (-1, mk_pipe (p_buffer p) (p_read p) (p_write p) space (up1 (p_item p)) (p_readable p) (p_writable p)).

(** The loop of [read]: -1 at the first failure, else the bytes. *)
Fixpoint read_chars (n : nat) (p : pipe) : outcome (option (list Z) * pipe) :=
  match n with
  | O => Done (Some [], p)
  | S k =>
      let! ' (r, ch, p) := get_char p in
      if r <? 0 then Done (None, p)
      else let! ' (rest, p) := read_chars k p in Done (option_map (cons ch) rest, p)
  end.

Definition pipe_read (p : pipe) (size : Z) : outcome (Z * list Z * pipe) :=
  let! ' (r, p) := read_chars (Z.to_nat size) p in
  Done (match r with Some bytes => (s32 size, bytes, p) | None => (-1, [], p) end).

Fixpoint write_chars (bytes : list Z) (p : pipe) : outcome (bool * pipe) :=
  match bytes with
  | [] => Done (true, p)
  | ch :: rest => let! ' (r, p) := put_char p ch in if r <? 0 then Done (false, p) else write_chars rest p
  end.

Definition pipe_write (p : pipe) (bytes : list Z) : outcome (Z * pipe) :=
  let! ' (ok, p) := write_chars bytes p in Done (if ok : bool then s32 (zlen bytes) else -1, p).

(** The pipe, and whether its memory goes back to the pool. *)
Definition pipe_close (p : pipe) (write_end : bool) : pipe * bool :=
  let p := if write_end
           then mk_pipe (p_buffer p) (p_read p) (p_write p) (p_space p) (up1 (p_item p)) (p_readable p) false
           else mk_pipe (p_buffer p) (p_read p) (p_write p) (up1 (p_space p)) (p_item p) false (p_writable p) in
  (p, negb (p_readable p) && negb (p_writable p)).

(** ** Rings *)

(** [q] is what the ring holds from index [r] on. *)
Record ring (b : list Z) (n r w : Z) (q : list Z) : Prop := {
  rg_len : zlen b = n;
  rg_pos : 0 < n < 2 ^ 31;
  rg_fit : zlen q <= n;
  rg_read : 0 <= r < n;
  rg_write : w = (r + zlen q) mod n;
  rg_bytes : forall i c, zget q i = Some c -> zget b ((r + i) mod n) = Some c
}.

Lemma mod_shift r i j n : 0 < n -> 0 <= i < n -> 0 <= j < n -> (r + i) mod n = (r + j) mod n -> i = j.
Proof.
  intros Hn Hi Hj H. pose proof (Z.div_mod (r + i) n ltac:(lia)) as Ei. pose proof (Z.div_mod (r + j) n ltac:(lia)) as Ej.
  rewrite H in Ei. assert (Hd : i - j = n * ((r + i) / n - (r + j) / n)) by lia.
  generalize dependent ((r + i) / n - (r + j) / n). intros k Hd. destruct (Z.eq_dec k 0) as [->|Hk]; [lia|].
  assert (n <= n * Z.abs k) by (rewrite <- (Z.mul_1_r n) at 1; apply Z.mul_le_mono_nonneg_l; lia). destruct (Z.abs_spec k) as [[? Ea]|[? Ea]]; rewrite Ea in *; lia.
Qed.

Lemma ring_put b n r w q c : ring b n r w q -> zlen q < n -> ring (zset b w c) n r ((w + 1) mod n) (q ++ [c]).
Proof.
  intros [L P F R W B] Hq. pose proof (zlen_nonneg q) as Hq0.
  assert (Hw : 0 <= w < n) by (rewrite W; apply Z.mod_pos_bound; lia). constructor; auto.
  - unfold zlen. rewrite zset_length. exact L.
  - rewrite zlen_app. unfold zlen at 2. cbn. lia.
  - rewrite zlen_app. unfold zlen at 2. cbn. rewrite W, Zplus_mod_idemp_l. f_equal. lia.
  - intros i v Hv. pose proof (zget_Some_range _ _ _ Hv) as Hi. rewrite zlen_app in Hi. change (zlen [c]) with 1 in Hi.
    rewrite zget_app in Hv. case_decide as E.
    + rewrite zget_zset_ne; [apply B, Hv | apply Z.mod_pos_bound; lia |]. rewrite W. intros Em. apply mod_shift in Em; lia.
    + replace i with (zlen q) in * by lia. rewrite Z.sub_diag in Hv. injection Hv as <-. rewrite <- W. apply zget_zset_eq. lia.
Qed.

Lemma ring_get b n r w c q : ring b n r w (c :: q) -> zget b r = Some c /\ ring b n ((r + 1) mod n) w q.
Proof.
  intros [L P F R W B]. rewrite zlen_cons in *. split.
  - specialize (B 0 c eq_refl). rewrite Z.add_0_r, Z.mod_small in B by lia. exact B.
  - constructor; auto; [lia | apply Z.mod_pos_bound; lia | rewrite W, Zplus_mod_idemp_l; f_equal; lia |].
    intros i v Hv. pose proof (zget_Some_range _ _ _ Hv) as Hi. rewrite Zplus_mod_idemp_l. replace (r + 1 + i) with (r + (i + 1)) by lia.
    apply B. rewrite zget_cons by lia. rewrite <- Hv. f_equal. lia.
Qed.

(** ** Pipes as queues *)

(** An open pipe that holds [q]. *)
Record pipe_rep (p : pipe) (q : list Z) : Prop := {
  pr_ring : ring (p_buffer p) PIPE_BUF_SIZE (p_read p) (p_write p) q;
  pr_item : p_item p = zlen q;
  pr_space : p_space p = PIPE_BUF_SIZE - zlen q;
  pr_open : p_readable p = true /\ p_writable p = true
}.

Lemma pipe_init_rep old : zlen old = PIPE_BUF_SIZE -> pipe_rep (pipe_init old) [].
Proof.
  intros H. constructor; cbn; auto. constructor; cbn; auto; try (unfold PIPE_BUF_SIZE; lia); [discriminate|]. intros i c Hc.
  unfold zget in Hc. destruct (i <? 0); [discriminate|]. rewrite lookup_nil in Hc. discriminate.
Qed.

Lemma get_char_ok p q : pipe_rep p q ->
  match q with
  | [] => get_char p = Blocked
  | c :: r => exists p', get_char p = Done (0, c, p') /\ pipe_rep p' r
  end.
Proof.
  intros [R I S [Ho Hw]]. unfold get_char, down1. destruct q as [|c r].
  - rewrite I. reflexivity.
  - pose proof (rg_fit _ _ _ _ _ R) as Hf. rewrite zlen_cons in *. pose proof (zlen_nonneg r). rewrite I.
    replace (0 <? zlen r + 1) with true by lia. cbn [obind]. rewrite Ho. destruct (ring_get _ _ _ _ _ _ R) as [Hc R']. rewrite Hc. cbn [deref obind].
    eexists. split; [reflexivity|]. constructor; cbn; auto; [lia|]. unfold up1. rewrite S. unfold PIPE_BUF_SIZE in *. rewrite u32_small by lia. lia.
Qed.

Lemma put_char_ok p q c : pipe_rep p q ->
  if zlen q <? PIPE_BUF_SIZE then exists p', put_char p c = Done (0, p') /\ pipe_rep p' (q ++ [c]) else put_char p c = Blocked.
Proof.
  intros [R I S [Ho Hw]]. pose proof (rg_fit _ _ _ _ _ R) as Hf. pose proof (zlen_nonneg q). unfold put_char, down1. rewrite S.
  destruct (zlen q <? PIPE_BUF_SIZE) eqn:E; tests.
  - replace (0 <? PIPE_BUF_SIZE - zlen q) with true by lia. cbn [obind]. rewrite Hw. eexists. split; [reflexivity|].
    constructor; cbn; auto; [apply ring_put; auto | | rewrite zlen_app; change (zlen [c]) with 1; lia].
    unfold up1. rewrite I, zlen_app. change (zlen [c]) with 1. unfold PIPE_BUF_SIZE in *. apply u32_small. lia.
  - replace (0 <? PIPE_BUF_SIZE - zlen q) with false by lia. reflexivity.
Qed.

Lemma write_chars_ok bytes : forall p q, pipe_rep p q ->
  if zlen q + zlen bytes <=? PIPE_BUF_SIZE then exists p', write_chars bytes p = Done (true, p') /\ pipe_rep p' (q ++ bytes)
  else write_chars bytes p = Blocked.
Proof.
  induction bytes as [|c bytes IH]; intros p q R; cbn [write_chars].
  - pose proof (rg_fit _ _ _ _ _ (pr_ring _ _ R)). change (zlen (@nil Z)) with 0. replace (zlen q + 0 <=? PIPE_BUF_SIZE) with true by lia.
    exists p. rewrite app_nil_r. auto.
  - pose proof (put_char_ok p q c R) as H. pose proof (zlen_nonneg bytes). rewrite zlen_cons.
    destruct (zlen q <? PIPE_BUF_SIZE) eqn:E; tests.
    + destruct H as (p1 & -> & R1). cbn [obind]. change (0 <? 0) with false. cbn iota. specialize (IH p1 (q ++ [c]) R1).
      rewrite zlen_app in IH. change (zlen [c]) with 1 in IH. rewrite <- app_assoc in IH. cbn [app] in IH.
      replace (zlen q + (zlen bytes + 1) <=? PIPE_BUF_SIZE) with (zlen q + 1 + zlen bytes <=? PIPE_BUF_SIZE) by (f_equal; lia). exact IH.
    + rewrite H. replace (zlen q + (zlen bytes + 1) <=? PIPE_BUF_SIZE) with false by lia. reflexivity.
Qed.

Lemma read_chars_ok : forall n p q, pipe_rep p q ->
  if Z.of_nat n <=? zlen q then exists p', read_chars n p = Done (Some (take n q), p') /\ pipe_rep p' (drop n q)
  else read_chars n p = Blocked.
Proof.
  induction n as [|n IH]; intros p q R; cbn [read_chars].
  - pose proof (zlen_nonneg q). replace (Z.of_nat 0 <=? zlen q) with true by lia. exists p. auto.
  - pose proof (get_char_ok p q R) as H. destruct q as [|c r].
    + rewrite H. replace (Z.of_nat (S n) <=? zlen []) with false by (unfold zlen; cbn; lia). reflexivity.
    + destruct H as (p1 & -> & R1). cbn [obind]. change (0 <? 0) with false. cbn iota. specialize (IH p1 r R1). rewrite zlen_cons.
      replace (Z.of_nat (S n) <=? zlen r + 1) with (Z.of_nat n <=? zlen r) by lia.
      destruct (Z.of_nat n <=? zlen r); [|rewrite IH; reflexivity]. destruct IH as (p2 & -> & R2). exists p2. split; [reflexivity | exact R2].
Qed.

(** The contract: a queue of at most [PIPE_BUF_SIZE] bytes. *)
Inductive pipe_op := Write (bytes : list Z) | Read (n : Z).

Definition queue_op (q : list Z) (op : pipe_op) : outcome (Z * list Z * list Z) :=
  match op with
  | Write bytes => if zlen q + zlen bytes <=? PIPE_BUF_SIZE then Done (zlen bytes, [], q ++ bytes) else Blocked
  | Read n => if n <=? zlen q then Done (n, take (Z.to_nat n) q, drop (Z.to_nat n) q) else Blocked
  end.

Definition pipe_do (p : pipe) (op : pipe_op) : outcome (Z * list Z * pipe) :=
  match op with
  | Write bytes => let! ' (n, p) := pipe_write p bytes in Done (n, [], p)
  | Read n => pipe_read p n
  end.

Fixpoint queue_run (q : list Z) (ops : list pipe_op) : outcome (list (Z * list Z) * list Z) :=
  match ops with
  | [] => Done ([], q)
  | op :: ops => let! ' (n, bytes, q) := queue_op q op in let! ' (rs, q) := queue_run q ops in Done ((n, bytes) :: rs, q)
  end.

Fixpoint pipe_run (p : pipe) (ops : list pipe_op) : outcome (list (Z * list Z) * pipe) :=
  match ops with
  | [] => Done ([], p)
  | op :: ops => let! ' (n, bytes, p) := pipe_do p op in let! ' (rs, p) := pipe_run p ops in Done ((n, bytes) :: rs, p)
  end.

Definition op_ok (op : pipe_op) : Prop := match op with Write bytes => zlen bytes < 2 ^ 31 | Read n => 0 <= n < 2 ^ 31 end.

(** The same result, and related states. *)
Definition same_outcome {A} (a : outcome (A * list Z)) (c : outcome (A * pipe)) : Prop :=
  match a, c with
  | Done (x, q), Done (y, p) => x = y /\ pipe_rep p q
  | Blocked, Blocked => True
  | _, _ => False
  end.

Lemma pipe_do_ok p q op : pipe_rep p q -> op_ok op -> same_outcome (queue_op q op) (pipe_do p op).
Proof.
  intros R Hop. destruct op as [bytes|n]; cbn in *.
  - pose proof (write_chars_ok bytes p q R) as H. pose proof (zlen_nonneg bytes). unfold pipe_write.
    destruct (_ <=? PIPE_BUF_SIZE); [destruct H as (p' & -> & R') | rewrite H; exact I]. cbn. rewrite s32_small by lia. auto.
  - pose proof (read_chars_ok (Z.to_nat n) p q R) as H. rewrite Z2Nat.id in H by lia. unfold pipe_read.
    destruct (n <=? zlen q); [destruct H as (p' & -> & R') | rewrite H; exact I]. cbn. rewrite s32_small by lia. auto.
Qed.

Lemma pipe_run_ok ops : forall p q, pipe_rep p q -> Forall op_ok ops -> same_outcome (queue_run q ops) (pipe_run p ops).
Proof.
  induction ops as [|op ops IH]; intros p q R Ho; cbn; [auto|]. apply Forall_cons in Ho as [H1 Ho].
  pose proof (pipe_do_ok p q op R H1) as H. destruct (queue_op q op) as [[[n1 b1] q1]| | |], (pipe_do p op) as [[[n2 b2] p2]| | |]; cbn in *; try contradiction; auto.
  destruct H as [[= <- <-] R1]. specialize (IH p2 q1 R1 Ho).
  destruct (queue_run q1 ops) as [[rs1 q']| | |], (pipe_run p2 ops) as [[rs2 p']| | |]; cbn in *; try contradiction; auto.
  destruct IH as [<- R']. auto.
Qed.

(** C13: A pipe with both ends open is a first-in first-out queue of 512 bytes: any
    sequence of reads and writes returns the bytes and counts the queue returns, and
    blocks exactly where a read wants more bytes than there are or a write more room
    than there is. *)
Theorem pipe_refines_queue old ops : zlen old = PIPE_BUF_SIZE -> Forall op_ok ops ->
  same_outcome (queue_run [] ops) (pipe_run (pipe_init old) ops).
Proof. intros Ho Hops. apply pipe_run_ok; [apply pipe_init_rep, Ho | exact Hops]. Qed.

Lemma pipe_refines_queue_witness :
  same_outcome (queue_run [] [Write [1; 2; 3]; Read 2; Write [4]; Read 2])
               (pipe_run (pipe_init (repeat 0 512)) [Write [1; 2; 3]; Read 2; Write [4]; Read 2]).
Proof.
  apply (pipe_refines_queue (repeat 0 512) [Write [1; 2; 3]; Read 2; Write [4]; Read 2]).
  - reflexivity.
  - repeat constructor; discriminate || reflexivity.
Defined.

(** End of file.  Closing the write end of an empty pipe raises the number of
    items without storing one: the next read of one byte does not report the end, it
    succeeds and returns the byte that happens to lie at the read index. *)
Theorem closed_pipe_reads_stale_byte p c : pipe_rep p [] -> zget (p_buffer p) (p_read p) = Some c ->
  exists p', pipe_read (fst (pipe_close p true)) 1 = Done (1, [c], p').
Proof.
  intros [R I S [Ho Hw]] Hc. unfold pipe_close, pipe_read. change (Z.to_nat 1) with 1%nat. cbn [fst read_chars].
  unfold get_char, down1. cbn [p_item p_readable p_buffer p_read]. rewrite I. change (up1 (zlen [])) with 1. change (0 <? 1) with true. cbn [obind].
  rewrite Ho, Hc. cbn [deref obind]. eexists. reflexivity.
Qed.

Lemma closed_pipe_reads_stale_byte_witness : exists p', pipe_read (fst (pipe_close (pipe_init (repeat 65 512)) true)) 1 = Done (1, [65], p').
Proof. apply (closed_pipe_reads_stale_byte (pipe_init (repeat 65 512)) 65); [apply pipe_init_rep; reflexivity | reflexivity]. Defined.
