(* ===== verification/Files.v ===== *)
(** * Open files and descriptors (src/src/file.cc, file_table.cc, and the calls of
    fs.cc and process.cc on descriptors)

    The state is the file system of [FsDir], the table of 256 open files, the pipes,
    the sockets behind an interface, and the processes with their descriptors.  A
    [file_t*] is an index of the table, a descriptor holds one or nothing.  The
    processes are kept in the order of their creation and a call names the one
    that makes it. *)
From Stdlib Require Import ZArith ZifyBool Lia.
From stdpp Require Import base option list gmap.
From S2P Require Import Prelude Interfaces Pool FsDisk FsDir Pipe.

Definition MAX_FILE_NUM : Z := 256.
Definition MAX_OPEN_FILE : Z := 64.

Definition MODE_RDONLY : Z := 1.
Definition MODE_WRONLY : Z := 2.
Definition MODE_RDWR : Z := 4.
Definition MODE_CREATE : Z := 0x200.

Inductive file_type := TYPE_NONE | TYPE_PIPE | TYPE_INODE | TYPE_SOCKET.

#[export] Instance file_type_eq : EqDecision file_type.
Proof. solve_decision. Defined.

Record file := mk_file {
  l_type : file_type;
  l_ref : Z;
  l_readable : bool;
  l_writeable : bool;
  l_inode : option Z;
  l_pipe : Z;
  l_socket : option Z;
  l_offset : Z
}.

(** [file_t::init], in its two forms; neither takes the offset it is given. *)
Definition file_init (type : file_type) (inode : option Z) (pipe : Z) (offset : Z) (readable writeable : bool) : file :=
  mk_file type 1 readable writeable inode pipe None 0.
Definition file_init_socket (socket : Z) : file := mk_file TYPE_SOCKET 1 true true None NULL (Some socket) 0.

Definition set_ref (r : Z) (x : file) : file :=
  mk_file (l_type x) r (l_readable x) (l_writeable x) (l_inode x) (l_pipe x) (l_socket x) (l_offset x).
Definition set_type (t : file_type) (x : file) : file :=
  mk_file t (l_ref x) (l_readable x) (l_writeable x) (l_inode x) (l_pipe x) (l_socket x) (l_offset x).
Definition set_offset (o : Z) (x : file) : file :=
  mk_file (l_type x) (l_ref x) (l_readable x) (l_writeable x) (l_inode x) (l_pipe x) (l_socket x) o.

(** What a process has of files.  The descriptors of a process that has exited stay as
    they were, and mean nothing. *)
Record process := mk_process {
  q_cwd : Z;
  q_files : list (option Z);
  q_exited : bool
}.

(** The virtual functions of [socket_t] that the file calls use: a number of bytes (or an
    error), the bytes, the state of the sockets. *)
Class SocketOps (S : Type) : Type := {
  sk_read : S -> Z -> Z -> outcome (Z * list Z * S);
  sk_write : S -> Z -> list Z -> outcome (Z * S);
  sk_send_to : S -> Z -> list Z -> Z -> outcome (Z * S);
  sk_recv_from : S -> Z -> Z -> outcome (Z * list Z * S);
  sk_release : S -> Z -> outcome S
}.

(** No socket brings the kernel down when it is released. *)
Class SocketLaws (S : Type) `{SocketOps S} : Prop := {
  sk_release_no_panic : forall s k, sk_release s k <> Panic
}.

Record world (S P : Type) := mk_world {
  w_fs : fs;
  w_files : list file;
  w_pipes : Z -> pipe;
  w_pool : P;
  w_socks : S;
  w_procs : list process
}.
Arguments mk_world {S P}.
Arguments w_fs {S P}. Arguments w_files {S P}. Arguments w_pipes {S P}.
Arguments w_pool {S P}. Arguments w_socks {S P}. Arguments w_procs {S P}.

Section Calls.
Context {S P : Type} `{SocketOps S} `{ObjectPool P}.
Context (dev_read : Z -> option (Z -> outcome (Z * list Z))) (dev_write : Z -> option (list Z -> outcome Z)).
Implicit Type w : world S P.

Definition set_fs w s : world S P := mk_world s (w_files w) (w_pipes w) (w_pool w) (w_socks w) (w_procs w).
Definition set_files w l : world S P := mk_world (w_fs w) l (w_pipes w) (w_pool w) (w_socks w) (w_procs w).
Definition set_pipe w a p : world S P :=
  mk_world (w_fs w) (w_files w) (fun x => if x =? a then p else w_pipes w x) (w_pool w) (w_socks w) (w_procs w).
Definition set_pool w p : world S P := mk_world (w_fs w) (w_files w) (w_pipes w) p (w_socks w) (w_procs w).
Definition set_socks w s : world S P := mk_world (w_fs w) (w_files w) (w_pipes w) (w_pool w) s (w_procs w).
Definition set_procs w l : world S P := mk_world (w_fs w) (w_files w) (w_pipes w) (w_pool w) (w_socks w) l.

Definition the_file w f : outcome file := deref (zget (w_files w) f).
Definition set_file w f x : world S P := set_files w (zset (w_files w) f x).
Definition the_proc w (cur : Z) : outcome process := deref (zget (w_procs w) cur).

(** ** The table of open files *)

(** The first file nobody refers to. *)
Fixpoint find_unused_file (l : list file) (i : Z) : option Z :=
  match l with
  | [] => None
  | x :: r => if l_ref x =? 0 then Some i else find_unused_file r (i + 1)
  end.

Definition alloc_file w : outcome (option Z * world S P) :=
  match find_unused_file (w_files w) 0 with
  | None => Done (None, w)
  | Some f => let! x := the_file w f in Done (Some f, set_file w f (set_ref 1 x))
  end.

(** [pipe_t::close]: the memory goes back when both ends are closed. *)
Definition close_pipe w a (write_end : bool) : world S P :=
  let '(p, freed) := pipe_close (w_pipes w a) write_end in
  let w := set_pipe w a p in
  if freed then set_pool w (pool_free (w_pool w) a) else w.

Definition close_file w f : outcome (world S P) :=
  let! x := the_file w f in
  if l_ref x <? 1 then Panic
  else
    let r := u32 (l_ref x - 1) in
    if 0 <? r then Done (set_file w f (set_ref r x))
    else
      let w := set_file w f (set_type TYPE_NONE (set_ref r x)) in
      match l_type x with
      | TYPE_PIPE => Done (close_pipe w (l_pipe x) (l_writeable x))
      | TYPE_SOCKET =>
          let! k := deref (l_socket x) in
          let! s := sk_release (w_socks w) k in Done (set_socks w s)
      | TYPE_INODE =>
          let! i := deref (l_inode x) in
          let! s := put_inode (w_fs w) i in Done (set_fs w s)
      | TYPE_NONE => Done w
      end.

Definition dup_file w f : outcome (world S P) :=
  let! x := the_file w f in
  if l_ref x <? 1 then Panic else Done (set_file w f (set_ref (u32 (l_ref x + 1)) x)).

(** ** Descriptors of a process *)

Fixpoint find_unused_fd (l : list (option Z)) (i : Z) : option Z :=
  match l with
  | [] => None
  | None :: _ => Some i
  | Some _ :: r => find_unused_fd r (i + 1)
  end.

Definition set_fd w cur fd (v : option Z) : outcome (world S P) :=
  let! p := the_proc w cur in
  Done (set_procs w (zset (w_procs w) cur (mk_process (q_cwd p) (zset (q_files p) fd v) (q_exited p)))).

Definition alloc_fd w cur f : outcome (Z * world S P) :=
  let! p := the_proc w cur in
  match find_unused_fd (q_files p) 0 with
  | None => Done (-1, w)
  | Some fd => let! w := set_fd w cur fd (Some f) in Done (fd, w)
  end.

Definition get_file w cur fd : outcome (option Z) :=
  let! p := the_proc w cur in
  if (fd <? 0) || (MAX_OPEN_FILE <=? fd) then Done None else deref (zget (q_files p) fd).

Definition free_fd w cur fd : outcome (world S P) :=
  if (0 <=? fd) && (fd <? MAX_OPEN_FILE) then set_fd w cur fd None else Done w.

(** ** The calls *)

(** The inode that [do_open] opens. *)
Definition open_inode w cur path mode : outcome (option Z * world S P) :=
  let! p := the_proc w cur in
  let! ' (i, s) := if negb (Z.land mode MODE_CREATE =? 0) then create dev_read dev_write (w_fs w) (q_cwd p) path I_TYPE_FILE 0 0
                   else namei dev_read (w_fs w) (q_cwd p) path in
  Done (i, set_fs w s).

(** Its [do ... while (0)]: the file and the descriptor, or -1. *)
Definition open_fd w cur inode mode : outcome (Z * Z * world S P) :=
  let! x := slot (w_fs w) inode in
  if (i_type x =? I_TYPE_DIR) && negb (mode =? MODE_RDONLY) then Done (-1, 0, w)
  else
    let! ' (f, w) := alloc_file w in
    match f with
    | None => Done (-1, 0, w)
    | Some f =>
        let! ' (fd, w) := alloc_fd w cur f in
        if fd <? 0 then let! w := close_file w f in Done (-1, f, w) else Done (fd, f, w)
    end.

Definition do_open w cur path mode : outcome (Z * world S P) :=
  let! ' (i, w) := open_inode w cur path mode in
  match i with
  | None => Done (-1, w)
  | Some i =>
      let! ' (fd, f, w) := open_fd w cur i mode in
      let! s := unlock (w_fs w) i in
      let w := set_fs w s in
      if 0 <=? fd then
        Done (fd, set_file w f (file_init TYPE_INODE (Some i) NULL 0 (Z.land mode MODE_WRONLY =? 0)
                                  (negb (Z.land mode MODE_WRONLY =? 0) || negb (Z.land mode MODE_RDWR =? 0))))
      else Done (fd, w)
  end.

Definition do_close w cur fd : outcome (Z * world S P) :=
  let! f := get_file w cur fd in
  match f with
  | None => Done (0, w)
  | Some f => let! w := free_fd w cur fd in let! w := close_file w f in Done (0, w)
  end.

Definition do_read w cur fd count : outcome (Z * list Z * world S P) :=
  let! f := get_file w cur fd in
  match f with
  | None => Done (-1, [], w)
  | Some f =>
      let! x := the_file w f in
      if negb (l_readable x) then Done (-1, [], w)
      else match l_type x with
           | TYPE_PIPE =>
               let! ' (n, bytes, p) := pipe_read (w_pipes w (l_pipe x)) count in Done (n, bytes, set_pipe w (l_pipe x) p)
           | TYPE_SOCKET =>
               let! k := deref (l_socket x) in
               let! ' (n, bytes, s) := sk_read (w_socks w) k count in Done (n, bytes, set_socks w s)
           | TYPE_INODE =>
               let! i := deref (l_inode x) in
               let! ' (n, bytes, s) := read_slot dev_read (w_fs w) i (l_offset x) count in
               let w := set_fs w s in
               Done (n, bytes, if 0 <? n then set_file w f (set_offset (u32 (l_offset x + n)) x) else w)
           | TYPE_NONE => Done (-1, [], w)
           end
  end.

Definition do_write w cur fd (bytes : list Z) : outcome (Z * world S P) :=
  let! f := get_file w cur fd in
  match f with
  | None => Done (-1, w)
  | Some f =>
      let! x := the_file w f in
      if negb (l_writeable x) then Done (-1, w)
      else match l_type x with
           | TYPE_PIPE =>
               let! ' (n, p) := pipe_write (w_pipes w (l_pipe x)) bytes in Done (n, set_pipe w (l_pipe x) p)
           | TYPE_SOCKET =>
               let! k := deref (l_socket x) in
               let! ' (n, s) := sk_write (w_socks w) k bytes in Done (n, set_socks w s)
           | TYPE_INODE =>
               let! i := deref (l_inode x) in
               let! ' (n, s) := write_slot dev_write (w_fs w) i bytes (l_offset x) in
               let w := set_fs w s in
               Done (n, if 0 <? n then set_file w f (set_offset (u32 (l_offset x + n)) x) else w)
           | TYPE_NONE => Done (-1, w)
           end
  end.

Definition do_dup w cur fd : outcome (Z * world S P) :=
  let! f := get_file w cur fd in
  match f with
  | None => Done (-1, w)
  | Some f =>
      let! ' (fd, w) := alloc_fd w cur f in
      if fd <? 0 then Done (-1, w) else let! w := dup_file w f in Done (0, w)
  end.

(** Type, links, device and size. *)
Definition do_stat w cur fd : outcome (option (Z * Z * Z * Z)) :=
  let! f := get_file w cur fd in
  match f with
  | None => Done None
  | Some f =>
      let! x := the_file w f in
      match l_inode x with
      | None => Done None
      | Some i => let! y := slot (w_fs w) i in Done (Some (i_type y, i_nlinks y, i_dev y, i_size y))
      end
  end.

Definition do_seek w cur fd pos : outcome (Z * world S P) :=
  let! f := get_file w cur fd in
  match f with
  | None => Done (-1, w)
  | Some f =>
      let! x := the_file w f in
      match l_inode x with
      | None => Done (-1, w)
      | Some i =>
          let! y := slot (w_fs w) i in
          if pos <? i_size y then Done (0, set_file w f (set_offset pos x)) else Done (-1, w)
      end
  end.

(** The label [failed:] of [alloc_pipe], for the files that were allocated. *)
Definition pipe_failed w (fr fw : option Z) : outcome (world S P) :=
  let! w := match fr with Some f => close_file w f | None => Done w end in
  match fw with Some f => close_file w f | None => Done w end.

(** Two files on a new pipe; [junk] is what its memory held. *)
Definition alloc_pipe w (junk : list Z) : outcome (option (Z * Z) * world S P) :=
  let! ' (fr, w) := alloc_file w in
  match fr with
  | None => Done (None, w)
  | Some r =>
      let! ' (fw, w) := alloc_file w in
      match fw with
      | None => let! w := pipe_failed w fr fw in Done (None, w)
      | Some wr =>
          let! ' (a, pool) := pool_alloc (w_pool w) in
          let w := set_pool w pool in
          if a =? NULL then let! w := pipe_failed w fr fw in Done (None, w)
          else
            let w := set_pipe w a (pipe_init junk) in
            let w := set_file w r (file_init TYPE_PIPE None a 0 true false) in
            let w := set_file w wr (file_init TYPE_PIPE None a 0 false true) in
            Done (Some (r, wr), w)
      end
  end.

(** The two descriptors. *)
Definition do_pipe w cur (junk : list Z) : outcome (option (Z * Z) * world S P) :=
  let! ' (a, w) := alloc_pipe w junk in
  match a with
  | None => Done (None, w)
  | Some (fr, fw) =>
      let! ' (fd_read, w) := alloc_fd w cur fr in
      if fd_read <? 0 then
        let! w := close_file w fr in let! w := close_file w fw in Done (None, w)
      else
        let! ' (fd_write, w) := alloc_fd w cur fw in
        if fd_write <? 0 then
          let! w := free_fd w cur fd_read in
          let! w := close_file w fr in let! w := close_file w fw in Done (None, w)
        else Done (Some (fd_read, fd_write), w)
  end.

Definition do_send_to w cur fd (bytes : list Z) (addr : Z) : outcome (Z * world S P) :=
  let! f := get_file w cur fd in
  match f with
  | None => Done (-1, w)
  | Some f =>
      let! x := the_file w f in
      if negb (l_readable x) then Done (-1, w)
      else match l_type x with
           | TYPE_SOCKET =>
               let! k := deref (l_socket x) in
               let! ' (n, s) := sk_send_to (w_socks w) k bytes addr in Done (n, set_socks w s)
           | _ => Done (-1, w)
           end
  end.

Definition do_recv_from w cur fd count : outcome (Z * list Z * world S P) :=
  let! f := get_file w cur fd in
  match f with
  | None => Done (-1, [], w)
  | Some f =>
      let! x := the_file w f in
      if negb (l_readable x) then Done (-1, [], w)
      else match l_type x with
           | TYPE_SOCKET =>
               let! k := deref (l_socket x) in
               let! ' (n, bytes, s) := sk_recv_from (w_socks w) k count in Done (n, bytes, set_socks w s)
           | _ => Done (-1, [], w)
           end
  end.

(** ** Processes come and go *)

(** [m_files[i] != NULL && m_files[i]->m_type != file_t::TYPE_NONE] *)
Definition in_use w (o : option Z) : outcome bool :=
  match o with
  | None => Done false
  | Some f => let! x := the_file w f in Done (negb (bool_decide (l_type x = TYPE_NONE)))
  end.

Fixpoint dup_files w (l : list (option Z)) : outcome (world S P) :=
  match l with
  | [] => Done w
  | o :: r =>
      let! b := in_use w o in
      let! w := match o with Some f => if b : bool then dup_file w f else Done w | None => Done w end in
      dup_files w r
  end.

(** The files part of [fork]: the child gets a copy of the parent's descriptors. *)
Definition fork_files w cur : outcome (world S P) :=
  let! p := the_proc w cur in
  let! ' (cwd, s) := dup_inode (w_fs w) (q_cwd p) in
  let! w := dup_files (set_fs w s) (q_files p) in
  Done (set_procs w (w_procs w ++ [mk_process cwd (q_files p) false])).

Fixpoint close_files w (l : list (option Z)) : outcome (world S P) :=
  match l with
  | [] => Done w
  | o :: r =>
      let! b := in_use w o in
      let! w := match o with Some f => if b : bool then close_file w f else Done w | None => Done w end in
      close_files w r
  end.

(** The files part of [exit]. *)
Definition exit_files w cur : outcome (world S P) :=
  let! p := the_proc w cur in
  let! s := put_inode (w_fs w) (q_cwd p) in
  let! w := close_files (set_fs w s) (q_files p) in
  Done (set_procs w (zset (w_procs w) cur (mk_process (q_cwd p) (q_files p) true))).

End Calls.

(** ** The table is consistent

    [h f] is the number of references to file [f] that the kernel should have counted. *)

Definition delta (f g : Z) : Z := if decide (g = f) then 1 else 0.

Lemma delta_same f : delta f f = 1.
Proof. unfold delta. apply decide_True. reflexivity. Qed.

Lemma delta_other f g : g <> f -> delta f g = 0.
Proof. unfold delta. apply decide_False. Qed.

(** The end of a pipe that a file is. *)
Definition as_pipe (x : file) : option (Z * bool) :=
  if decide (l_type x = TYPE_PIPE) then Some (l_pipe x, l_writeable x) else None.

Lemma put_inode_no_panic s i : put_inode s i <> Panic.
Proof.
  unfold put_inode, lock, unlock, slot. destruct (zget (f_inodes s) i) as [y|]; cbn [deref obind]; [|discriminate].
  destruct (0 <? i_sem y); cbn [obind]; [|discriminate].
  destruct (zget (f_inodes (set_slot _ _ _)) i) as [z|]; cbn [deref obind]; [|discriminate].
  set (s1 := if _ && _ && _ then _ else _). destruct (zget (f_inodes s1) i) as [z1|]; cbn [deref obind]; [|discriminate].
  destruct (zget (f_inodes (set_slot s1 _ _)) i) as [z2|]; cbn [deref obind]; discriminate.
Qed.

Section Table.
Context {S P : Type} `{HS : SocketLaws S} `{HP : ObjectPool P}.
Implicit Type w : world S P.

Definition pipe_end w (a : Z) (write : bool) : Prop :=
  exists f x, zget (w_files w) f = Some x /\ as_pipe x = Some (a, write).

(** References are counted, files without references are unused; a pipe has at most one file
    for each end, is open at an end as long as there is one, and is in use as long as
    there is one for either. *)
Record table_ok w (h : Z -> Z) : Prop := {
  to_ref f x : zget (w_files w) f = Some x -> l_ref x = h f;
  to_none f x : zget (w_files w) f = Some x -> l_type x = TYPE_NONE <-> h f = 0;
  to_range f : h f <> 0 -> 0 <= f < zlen (w_files w);
  to_bound f : 0 <= h f < 2 ^ 31;
  to_ends f g x y e : zget (w_files w) f = Some x -> zget (w_files w) g = Some y -> as_pipe x = Some e -> as_pipe y = Some e -> f = g;
  to_pool : exists A, pool_inv (w_pool w) A /\ forall a, a ∈ A <-> exists b, pipe_end w a b;
  to_flags a b : pipe_end w a b ->
    (p_writable (w_pipes w a) = true <-> pipe_end w a true) /\ (p_readable (w_pipes w a) = true <-> pipe_end w a false)
}.

#[export] Instance table_ok_proper w : Proper (pointwise_relation Z eq ==> iff) (table_ok w).
Proof.
  assert (A : forall h h', pointwise_relation Z eq h h' -> table_ok w h -> table_ok w h').
  { intros h h' E T. split; intros; try rewrite <- !E; try (rewrite <- E in *); eapply T; eauto. }
  intros h h' E. split; apply A; [exact E | symmetry; exact E].
Qed.

(** Only the files, the pipes and their pool matter. *)
Lemma table_frame w w' h : w_files w' = w_files w -> (forall a, w_pipes w' a = w_pipes w a) -> w_pool w' = w_pool w ->
  table_ok w h -> table_ok w' h.
Proof.
  intros Ef Ep Eq T. destruct T as [T1 T2 T3 T4 T5 T6 T7].
  split; unfold pipe_end in *; rewrite ?Ef, ?Eq in *; auto. intros a b. rewrite Ep. apply T7.
Qed.

(** Files as ends of pipes, after a change of one of them. *)
Lemma zget_set_file w f x y g z : zget (w_files w) f = Some x -> zget (w_files (set_file w f y)) g = Some z <->
  (g = f /\ z = y) \/ (g <> f /\ zget (w_files w) g = Some z).
Proof.
  intros E. cbn [set_file set_files w_files]. split; [apply zget_zset_cases|]. intros [[-> ->] | [Hne Hg]].
  - apply zget_zset_eq. eauto using zget_Some_range.
  - rewrite zget_zset_ne; [exact Hg | apply zget_lookup in Hg as [_ ?]; lia | auto].
Qed.

Lemma pipe_end_set w f x y : zget (w_files w) f = Some x -> as_pipe y = as_pipe x ->
  forall a b, pipe_end (set_file w f y) a b <-> pipe_end w a b.
Proof.
  intros E Ea a b. unfold pipe_end. split; intros (g & z & Hg & A).
  - apply (zget_set_file w f x y g z E) in Hg as [[-> ->] | [_ Hg]]; [rewrite Ea in A|]; eauto.
  - destruct (decide (g = f)) as [-> | Hne].
    + exists f, y. rewrite zget_set_file by exact E. split; [auto | congruence].
    + exists g, z. rewrite zget_set_file by exact E. auto.
Qed.

(** A change of a file that is no end of a pipe, or stays the same one. *)
Lemma table_set_file w h h' f x y : table_ok w h -> zget (w_files w) f = Some x -> as_pipe y = as_pipe x ->
  l_ref y = h' f -> (l_type y = TYPE_NONE <-> h' f = 0) -> 0 <= h' f < 2 ^ 31 -> (forall g, g <> f -> h' g = h g) ->
  table_ok (set_file w f y) h'.
Proof.
  intros T E Ea Er Hz Hb Ho. pose proof (pipe_end_set w f x y E Ea) as Pe. destruct T as [T1 T2 T3 T4 T5 T6 T7].
  split.
  - intros g z Hg. apply (zget_set_file w f x y g z E) in Hg as [[-> ->] | [Hne Hg]]; [exact Er|]. rewrite Ho by exact Hne. eauto.
  - intros g z Hg. apply (zget_set_file w f x y g z E) in Hg as [[-> ->] | [Hne Hg]]; [exact Hz|]. rewrite Ho by exact Hne. eauto.
  - intros g Hg. cbn [set_file set_files w_files]. unfold zlen. rewrite zset_length.
    destruct (decide (g = f)) as [-> | Hne]; [eauto using zget_Some_range | apply T3; rewrite <- Ho; auto].
  - intros g. destruct (decide (g = f)) as [-> | Hne]; [exact Hb | rewrite Ho; auto].
  - intros f1 f2 x1 x2 e H1 H2 A1 A2. apply (zget_set_file w f x y _ _ E) in H1, H2.
    destruct H1 as [[-> ->] | [N1 H1]], H2 as [[-> ->] | [N2 H2]]; try reflexivity; rewrite ?Ea in *; eapply T5; eauto.
  - destruct T6 as (A & HA & HE). exists A. split; [exact HA|]. intros a. rewrite HE. split; intros [b Hb']; exists b; apply Pe; exact Hb'.
  - intros a b Hab. rewrite !Pe. apply (T7 a b), Pe, Hab.
Qed.

Definition drop_ref (h : Z -> Z) (f : Z) : Z -> Z := fun g => h g - delta f g.
Definition add_ref (h : Z -> Z) (f : Z) : Z -> Z := fun g => h g + delta f g.

(** The last reference to an end of a pipe goes. *)
Lemma close_pipe_ok w h f x a b : table_ok w h -> zget (w_files w) f = Some x -> as_pipe x = Some (a, b) -> h f = 1 ->
  table_ok (close_pipe (set_file w f (set_type TYPE_NONE (set_ref 0 x))) a b) (drop_ref h f).
Proof.
  intros T E Ea H1. set (y := set_type TYPE_NONE (set_ref 0 x)).
  assert (Pe : forall a' b', pipe_end (set_file w f y) a' b' <-> pipe_end w a' b' /\ (a', b') <> (a, b)).
  { intros a' b'. unfold pipe_end. split.
    - intros (g & z & Hg & A). apply (zget_set_file w f x y g z E) in Hg as [[-> ->] | [Hne Hg]]; [discriminate A|].
      split; [eauto|]. intros [= -> ->]. apply Hne. eapply (to_ends _ _ T); eauto.
    - intros [(g & z & Hg & A) N]. exists g, z. rewrite zget_set_file by exact E. split; [|exact A]. right.
      split; [intros ->; congruence | exact Hg]. }
  assert (P1 : pipe_end w a b) by (exists f, x; auto).
  destruct (to_flags _ _ T a b P1) as [Fw Fr]. unfold close_pipe, pipe_close. cbn [set_file set_files w_pipes w_pool].
  set (p := if b then _ else _). set (freed := negb (p_readable p) && negb (p_writable p)).
  assert (Hp : (p_writable p = true <-> pipe_end (set_file w f y) a true) /\ (p_readable p = true <-> pipe_end (set_file w f y) a false)).
  { rewrite !Pe. subst p. destruct b; cbn; rewrite ?Fw, ?Fr; split; split; try tauto; try discriminate; try (intros [? N]; congruence);
      try (intros; split; [assumption | congruence]). }
  assert (Hf : freed = false <-> exists b', pipe_end (set_file w f y) a b').
  { unfold freed. destruct Hp as [Hw Hr]. split.
    - intros F. destruct (p_readable p); [exists false; apply Hr; reflexivity|]. destruct (p_writable p); [exists true; apply Hw; reflexivity | discriminate F].
    - intros [[|] Hb]; [apply Hw in Hb | apply Hr in Hb]; rewrite Hb; cbn; [apply andb_false_r | reflexivity]. }
  assert (Base : forall w', w_files w' = w_files (set_file w f y) ->
    (forall a', w_pipes w' a' = if a' =? a then p else w_pipes w a') ->
    w_pool w' = (if freed then pool_free (w_pool w) a else w_pool w) -> table_ok w' (drop_ref h f)).
  2: { apply Base; destruct freed; reflexivity. }
  intros w' Ef Ep Eq.
  assert (Pe' : forall a' b', pipe_end w' a' b' <-> pipe_end (set_file w f y) a' b') by (intros; unfold pipe_end; rewrite Ef; reflexivity).
  destruct T as [T1 T2 T3 T4 T5 T6 T7]. unfold drop_ref. split; rewrite ?Ef.
  - intros g z Hg. apply (zget_set_file w f x y g z E) in Hg as [[-> ->] | [Hne Hg]]; [rewrite delta_same, H1; reflexivity|].
    rewrite delta_other, Z.sub_0_r by exact Hne. eauto.
  - intros g z Hg. apply (zget_set_file w f x y g z E) in Hg as [[-> ->] | [Hne Hg]]; [rewrite delta_same, H1; cbn; tauto|].
    rewrite delta_other, Z.sub_0_r by exact Hne. eauto.
  - intros g Hg. cbn [set_file set_files w_files]. unfold zlen. rewrite zset_length.
    destruct (decide (g = f)) as [-> | Hne]; [eauto using zget_Some_range | apply T3; rewrite delta_other in Hg by exact Hne; lia].
  - intros g. destruct (decide (g = f)) as [-> | Hne]; [rewrite delta_same, H1; lia | rewrite delta_other, Z.sub_0_r by exact Hne; auto].
  - intros f1 f2 x1 x2 e I1 I2 A1 A2. apply (zget_set_file w f x y _ _ E) in I1, I2.
    destruct I1 as [[-> ->] | [N1 I1]], I2 as [[-> ->] | [N2 I2]]; try reflexivity; try discriminate; eapply T5; eauto.
  - destruct T6 as (A & HA & HE). rewrite Eq. destruct freed eqn:Efr.
    + exists (A ∖ {[a]}). split; [apply pool_free_spec; [exact HA | apply HE; eauto]|]. intros a'.
      rewrite elem_of_difference, elem_of_singleton, HE. setoid_rewrite Pe'. split.
      * intros [[b' Hb'] N]. exists b'. apply Pe. split; [exact Hb' | congruence].
      * intros [b' Hb']. split; [apply Pe in Hb' as [? _]; eauto|]. intros ->. destruct Hf as [_ Hf]. discriminate Hf. eauto.
    + exists A. split; [exact HA|]. intros a'. rewrite HE. setoid_rewrite Pe'. split.
      * intros [b' Hb']. destruct (decide (a' = a)) as [-> | N]; [apply Hf; reflexivity|]. exists b'. apply Pe. split; [exact Hb' | congruence].
      * intros [b' Hb']. apply Pe in Hb' as [? _]. eauto.
  - intros a' b' Hab. rewrite !Pe', Ep. apply Pe' in Hab. destruct (a' =? a) eqn:Ta; tests; [subst a'; exact Hp|].
    rewrite !Pe. apply Pe in Hab as [Hab _]. destruct (T7 a' b' Hab) as [-> ->]. split; (split; [intros; split; [assumption | congruence] | tauto]).
Qed.

Lemma table_file w h f : table_ok w h -> h f <> 0 -> exists x, zget (w_files w) f = Some x /\ l_ref x = h f /\ l_type x <> TYPE_NONE.
Proof.
  intros T Hf. destruct (zget_in_range (w_files w) f (to_range _ _ T f Hf)) as [x E].
  exists x. split; [exact E|]. split; [apply (to_ref _ _ T), E|]. rewrite (to_none _ _ T f x E). exact Hf.
Qed.

Lemma as_pipe_ref r x : as_pipe (set_ref r x) = as_pipe x.
Proof. reflexivity. Qed.

(** [close_file] drops one reference; it cannot find the count at zero. *)
Lemma close_file_ok w h f : table_ok w h -> h f <> 0 ->
  close_file w f <> Panic /\
  forall w', close_file w f = Done w' -> table_ok w' (drop_ref h f) /\ w_procs w' = w_procs w.
Proof.
  intros T Hf. destruct (table_file w h f T Hf) as (x & E & Er & Et). pose proof (to_bound _ _ T f) as Hb.
  unfold close_file, the_file. rewrite E. cbn [deref obind]. rewrite Er. replace (h f <? 1) with false by lia. rewrite u32_small by lia.
  destruct (0 <? h f - 1) eqn:Hr; tests.
  - split; [discriminate|]. intros w' [= <-]. split; [|reflexivity].
    apply (table_set_file w h _ f x); auto; unfold drop_ref; rewrite ?delta_same; cbn.
    + reflexivity.
    + split; [tauto | lia].
    + lia.
    + intros g Hg. rewrite delta_other by exact Hg. lia.
  - assert (Eh : h f = 1) by lia. rewrite Eh. change (1 - 1) with 0.
    assert (Base : as_pipe x = None -> table_ok (set_file w f (set_type TYPE_NONE (set_ref 0 x))) (drop_ref h f)).
    { intros Ea. apply (table_set_file w h _ f x); auto; unfold drop_ref; rewrite ?delta_same, ?Eh; cbn; try tauto; try lia.
      intros g Hg. rewrite delta_other by exact Hg. lia. }
    destruct (l_type x) eqn:Ex; [congruence | | |].
    + split; [discriminate|]. intros w' [= <-]. split.
      * apply close_pipe_ok; auto. unfold as_pipe. rewrite decide_True by exact Ex. reflexivity.
      * unfold close_pipe. destruct (pipe_close _ _) as [p []]; reflexivity.
    + destruct (l_inode x) as [i|]; cbn [deref obind]; [|split; discriminate]. cbn [set_file set_files w_fs].
      pose proof (put_inode_no_panic (w_fs w) i) as Np. destruct (put_inode (w_fs w) i) as [fs'| | |]; cbn [obind]; try (split; discriminate); [|congruence].
      split; [discriminate|]. intros w' [= <-]. split; [|reflexivity].
      eapply table_frame; [..|apply Base; unfold as_pipe; rewrite Ex; reflexivity]; reflexivity.
    + destruct (l_socket x) as [k|]; cbn [deref obind]; [|split; discriminate]. cbn [set_file set_files w_socks].
      pose proof (sk_release_no_panic (w_socks w) k) as Np. destruct (sk_release (w_socks w) k) as [sk| | |]; cbn [obind]; try (split; discriminate); [|congruence].
      split; [discriminate|]. intros w' [= <-]. split; [|reflexivity].
      eapply table_frame; [..|apply Base; unfold as_pipe; rewrite Ex; reflexivity]; reflexivity.
Qed.

Lemma dup_file_ok w h f : table_ok w h -> h f <> 0 -> h f < 2 ^ 31 - 1 ->
  exists w', dup_file w f = Done w' /\ table_ok w' (add_ref h f) /\ w_procs w' = w_procs w /\ w_fs w' = w_fs w.
Proof.
  intros T Hf Hm. destruct (table_file w h f T Hf) as (x & E & Er & Et). pose proof (to_bound _ _ T f) as Hb.
  unfold dup_file, the_file. rewrite E. cbn [deref obind]. rewrite Er. replace (h f <? 1) with false by lia. rewrite u32_small by lia.
  eexists. split; [reflexivity|]. split; [|auto].
  apply (table_set_file w h _ f x); auto; unfold add_ref; rewrite ?delta_same; cbn; try lia.
  - split; [tauto | lia].
  - intros g Hg. rewrite delta_other by exact Hg. lia.
Qed.

(** A file that nobody refers to becomes one that is no pipe. *)
Lemma new_file_ok w h f x y : table_ok w h -> zget (w_files w) f = Some x -> h f = 0 ->
  as_pipe y = None -> l_type y <> TYPE_NONE -> l_ref y = 1 -> table_ok (set_file w f y) (add_ref h f).
Proof.
  intros T E Hf Ea Et Er. pose proof (to_none _ _ T f x E) as Hx.
  apply (table_set_file w h _ f x); auto; unfold add_ref; rewrite ?delta_same; try lia.
  - rewrite Ea. unfold as_pipe. rewrite (proj2 Hx Hf). reflexivity.
  - split; [tauto | lia].
  - intros g Hg. rewrite delta_other by exact Hg. lia.
Qed.

Lemma find_unused_file_ok l : forall i,
  match find_unused_file l i with
  | Some f => exists x, 0 <= f - i /\ zget l (f - i) = Some x /\ l_ref x = 0
  | None => True
  end.
Proof.
  induction l as [|x l IH]; intros i; cbn [find_unused_file]; [exact I|].
  destruct (l_ref x =? 0) eqn:T; tests.
  - exists x. rewrite Z.sub_diag. repeat split; [lia | exact T].
  - specialize (IH (i + 1)). destruct (find_unused_file l (i + 1)) as [f|]; [|exact I].
    destruct IH as (y & Hi & Hy & Hr). exists y. split; [lia|]. split; [|exact Hr]. rewrite zget_cons by lia. rewrite <- Hy. f_equal. lia.
Qed.

(** [alloc_file] marks an unused file; to close it again leaves no trace. *)
Lemma alloc_file_ok w h r w' : table_ok w h -> alloc_file w = Done (r, w') ->
  match r with
  | None => w' = w
  | Some f => exists x, zget (w_files w) f = Some x /\ h f = 0 /\ l_type x = TYPE_NONE /\ w' = set_file w f (set_ref 1 x) /\
      close_file w' f = Done w
  end.
Proof.
  intros T. unfold alloc_file. pose proof (find_unused_file_ok (w_files w) 0) as Hf.
  destruct (find_unused_file (w_files w) 0) as [f|]; [|intros [= <- <-]; reflexivity].
  destruct Hf as (x & Hp & E & Er). rewrite Z.sub_0_r in *. unfold the_file at 1. rewrite E. cbn [deref obind]. intros [= <- <-].
  assert (Hh : h f = 0) by (rewrite <- (to_ref _ _ T f x E); exact Er).
  assert (Ht : l_type x = TYPE_NONE) by (apply (to_none _ _ T f x E), Hh).
  exists x. repeat split; auto. pose proof (zget_Some_range _ _ _ E) as R.
  unfold close_file, the_file, set_file, set_files. cbn [w_files]. rewrite zget_zset_eq by exact R. cbn [deref obind set_ref l_ref l_type].
  change (1 <? 1) with false. change (u32 (1 - 1)) with 0. cbn iota. rewrite Ht. cbn. rewrite zset_twice.
  replace (set_type TYPE_NONE _) with x; [rewrite zset_id by exact E; destruct w; reflexivity|].
  destruct x. cbn in *. subst. reflexivity.
Qed.

(** Two unused files become the ends of a new pipe. *)
Lemma new_pipe_ok w h r wr xr xw a pool junk : table_ok w h -> zget (w_files w) r = Some xr -> zget (w_files w) wr = Some xw -> r <> wr ->
  h r = 0 -> h wr = 0 -> pool_alloc (w_pool w) = Done (a, pool) ->
  table_ok (set_file (set_file (set_pipe (set_pool w pool) a (pipe_init junk)) r (file_init TYPE_PIPE None a 0 true false))
              wr (file_init TYPE_PIPE None a 0 false true)) (add_ref (add_ref h r) wr).
Proof.
  intros T Er Ew Hne Hr Hw Ea. destruct (to_pool _ _ T) as (A & HA & HE). destruct (pool_alloc_spec _ _ _ _ HA Ea) as (Ha & Hn & HA').
  set (yr := file_init TYPE_PIPE None a 0 true false). set (yw := file_init TYPE_PIPE None a 0 false true).
  set (w1 := set_pipe (set_pool w pool) a (pipe_init junk)).
  assert (Ew' : zget (w_files (set_file w1 r yr)) wr = Some xw) by (apply (zget_set_file w1 r xr yr); auto).
  assert (N0 : forall g z, zget (w_files w) g = Some z -> h g = 0 -> as_pipe z = None).
  { intros g z Hg H0. unfold as_pipe. rewrite (proj2 (to_none _ _ T g z Hg) H0). reflexivity. }
  assert (G : forall g z, zget (w_files (set_file (set_file w1 r yr) wr yw)) g = Some z <->
    (g = wr /\ z = yw) \/ (g = r /\ z = yr) \/ (g <> r /\ g <> wr /\ zget (w_files w) g = Some z)).
  { intros g z. rewrite (zget_set_file _ wr xw yw g z Ew'), (zget_set_file w1 r xr yr g z Er). cbn [w1 set_pipe set_pool w_files]. naive_solver. }
  assert (Pe : forall a' b, pipe_end (set_file (set_file w1 r yr) wr yw) a' b <-> a' = a \/ pipe_end w a' b).
  { intros a' b. unfold pipe_end. setoid_rewrite G. split.
    - intros (g & z & [[-> ->] | [[-> ->] | (N1 & N2 & Hg)]] & Hz); [injection Hz as <- _; auto..|eauto].
    - intros [-> | (g & z & Hg & Hz)].
      + destruct b; [exists wr, yw | exists r, yr]; auto.
      + exists g, z. split; [|exact Hz]. right. right. repeat split; auto; intros ->; rewrite (N0 _ _ Hg) in Hz by assumption; discriminate. }
  destruct T as [T1 T2 T3 T4 T5 T6 T7]. unfold add_ref. split.
  - intros g z Hg. apply G in Hg as [[-> ->] | [[-> ->] | (N1 & N2 & Hg)]].
    + rewrite delta_other, delta_same, Hw by auto. reflexivity.
    + rewrite delta_same, delta_other, Hr by auto. reflexivity.
    + rewrite !delta_other, !Z.add_0_r by auto. eauto.
  - intros g z Hg. apply G in Hg as [[-> ->] | [[-> ->] | (N1 & N2 & Hg)]].
    + rewrite delta_other, delta_same, Hw by auto. cbn. split; discriminate.
    + rewrite delta_same, delta_other, Hr by auto. cbn. split; discriminate.
    + rewrite !delta_other, !Z.add_0_r by auto. eauto.
  - intros g Hg. unfold set_file, set_files. cbn [w_files]. unfold zlen. rewrite !zset_length. cbn [w1 set_pipe set_pool w_files].
    destruct (decide (g = wr)) as [-> | N1]; [eauto using zget_Some_range|]. destruct (decide (g = r)) as [-> | N2]; [eauto using zget_Some_range|].
    apply T3. rewrite !delta_other in Hg by auto. lia.
  - intros g. specialize (T4 g). destruct (decide (g = wr)) as [-> | N1]; [rewrite delta_same, delta_other by auto; lia|].
    destruct (decide (g = r)) as [-> | N2]; [rewrite delta_same, delta_other by auto; lia | rewrite !delta_other by auto; lia].
  - assert (Old : forall g z e, zget (w_files w) g = Some z -> as_pipe z = Some e -> fst e <> a).
    { intros g z [a' b] Hg Hz <-. apply Hn. apply HE. exists b, g, z. auto. }
    intros f1 f2 x1 x2 e I1 I2 A1 A2. apply G in I1, I2.
    destruct I1 as [[-> ->] | [[-> ->] | (N1 & N2 & I1)]], I2 as [[-> ->] | [[-> ->] | (M1 & M2 & I2)]]; try reflexivity;
      try (injection A1 as <-; injection A2; discriminate);
      try (exfalso; eapply Old; [exact I2 | exact A2 |]; injection A1 as <-; reflexivity);
      try (exfalso; eapply Old; [exact I1 | exact A1 |]; injection A2 as <-; reflexivity).
    eapply T5; eauto.
  - exists ({[a]} ∪ A). split; [exact HA'|]. intros a'. rewrite elem_of_union, elem_of_singleton, HE. setoid_rewrite Pe. split.
    + intros [-> | [b Hb]]; [exists true; auto | exists b; auto].
    + intros [b [-> | Hb]]; eauto.
  - intros a' b Hab. rewrite !Pe. apply Pe in Hab. cbn [set_file set_files w_pipes w1 set_pipe].
    destruct (a' =? a) eqn:Ta; tests; [subst a'; cbn; tauto|]. destruct Hab as [-> | Hab]; [congruence|]. destruct (T7 a' b Hab) as [-> ->]. tauto.
Qed.

End Table.

(** ** Descriptors refer to files *)

(** A process takes two of the at most 2^20 pages. *)
Definition MAX_PROCS : Z := 2 ^ 19.

Definition has (o : option Z) (f : Z) : Z := if decide (o = Some f) then 1 else 0.
Definition held_in (l : list (option Z)) (f : Z) : Z := zsum (fun o => has o f) l.
Definition held_by (p : process) (f : Z) : Z := if q_exited p then 0 else held_in (q_files p) f.
Definition holders (l : list process) (f : Z) : Z := zsum (fun p => held_by p f) l.

Lemma has_range o f : 0 <= has o f <= 1.
Proof. unfold has. destruct (decide _); lia. Qed.

Lemma has_some f g : has (Some f) g = delta f g.
Proof. unfold has, delta. destruct (decide (g = f)) as [-> | N]; [apply decide_True; reflexivity | apply decide_False; congruence]. Qed.

Lemma held_in_nonneg l f : 0 <= held_in l f.
Proof. apply zsum_nonneg. intros. apply has_range. Qed.

Lemma held_by_nonneg p f : 0 <= held_by p f.
Proof. unfold held_by. destruct (q_exited p); [lia | apply held_in_nonneg]. Qed.

Lemma holders_bound l f : Forall (fun p => zlen (q_files p) = MAX_OPEN_FILE) l -> 0 <= holders l f <= MAX_OPEN_FILE * zlen l.
Proof.
  intros F. split; [apply zsum_nonneg; intros; apply held_by_nonneg|]. apply zsum_le. intros p Hp.
  rewrite Forall_forall in F. specialize (F p Hp). unfold held_by. destruct (q_exited p); [unfold MAX_OPEN_FILE; lia|].
  pose proof (zsum_le (fun o => has o f) 1 (q_files p)) as B. unfold held_in. rewrite F in B. rewrite Z.mul_1_l in B. apply B. intros. apply has_range.
Qed.

Section Invariant.
Context {S P : Type} `{HS : SocketLaws S} `{HP : ObjectPool P}.
Context (dev_read : Z -> option (Z -> outcome (Z * list Z))) (dev_write : Z -> option (list Z -> outcome Z)).
Implicit Type w : world S P.

Definition running w cur p : Prop := zget (w_procs w) cur = Some p /\ q_exited p = false.

Record files_inv w : Prop := {
  fi_table : table_ok w (holders (w_procs w));
  fi_fds : Forall (fun p => zlen (q_files p) = MAX_OPEN_FILE) (w_procs w);
  fi_few : zlen (w_procs w) <= MAX_PROCS
}.

(** Calls that change neither the processes nor what the table depends on. *)
Lemma inv_same w w' : files_inv w -> w_procs w' = w_procs w -> table_ok w' (holders (w_procs w)) -> files_inv w'.
Proof. intros [T F N] Ep T'. split; rewrite ?Ep; auto. Qed.

Lemma inv_frame w w' : files_inv w -> w_procs w' = w_procs w -> w_files w' = w_files w -> (forall a, w_pipes w' a = w_pipes w a) ->
  w_pool w' = w_pool w -> files_inv w'.
Proof. intros I Ep Ef Eq Eo. apply (inv_same w); auto. eapply table_frame; eauto. apply I. Qed.

Lemma find_unused_fd_ok l : forall i,
  match find_unused_fd l i with Some fd => 0 <= fd - i < zlen l /\ zget l (fd - i) = Some None | None => True end.
Proof.
  induction l as [|[f|] l IH]; intros i; cbn [find_unused_fd]; [exact I| |].
  - specialize (IH (i + 1)). destruct (find_unused_fd l (i + 1)) as [fd|]; [|exact I]. rewrite zlen_cons.
    destruct IH as [Hr Hz]. split; [lia|]. rewrite zget_cons by lia. rewrite <- Hz. f_equal. lia.
  - rewrite Z.sub_diag, zlen_cons. pose proof (zlen_nonneg l). split; [lia | reflexivity].
Qed.

Definition with_fd w cur (p : process) fd v : world S P :=
  set_procs w (zset (w_procs w) cur (mk_process (q_cwd p) (zset (q_files p) fd v) (q_exited p))).

Lemma alloc_fd_ok w cur p f fd w' : running w cur p -> alloc_fd w cur f = Done (fd, w') ->
  (fd = -1 /\ w' = w) \/ (0 <= fd < zlen (q_files p) /\ zget (q_files p) fd = Some None /\ w' = with_fd w cur p fd (Some f)).
Proof.
  intros [E _]. unfold alloc_fd, set_fd, the_proc. rewrite E. cbn [deref obind]. pose proof (find_unused_fd_ok (q_files p) 0) as Hf.
  destruct (find_unused_fd (q_files p) 0) as [k|]; intros [= <- <-]; [right | left; auto]. rewrite Z.sub_0_r in *. destruct Hf. auto.
Qed.

(** What a running process holds is counted. *)
Lemma held_in_le w cur p g : running w cur p -> held_in (q_files p) g <= holders (w_procs w) g.
Proof.
  intros [E Hx]. pose proof (zsum_elem (fun p => held_by p g) (w_procs w) cur p (fun p => held_by_nonneg p g) E) as B.
  cbn beta in B. unfold held_by at 1 in B. rewrite Hx in B. exact B.
Qed.

Lemma held_in_elem l fd f : zget l fd = Some (Some f) -> 1 <= held_in l f.
Proof.
  intros E. pose proof (zsum_elem (fun o => has o f) l fd (Some f) (fun o => proj1 (has_range o f)) E) as B.
  cbn beta in B. rewrite has_some, delta_same in B. exact B.
Qed.

Lemma get_file_ok w cur p fd f : files_inv w -> running w cur p -> get_file w cur fd = Done (Some f) ->
  zget (q_files p) fd = Some (Some f) /\ 0 <= fd < MAX_OPEN_FILE /\ holders (w_procs w) f <> 0.
Proof.
  intros I [E Hx]. unfold get_file, the_proc. rewrite E. cbn [deref obind]. destruct (_ || _) eqn:Hr; [discriminate|]. tests.
  destruct (zget (q_files p) fd) as [o|] eqn:Eo; cbn [deref]; [|discriminate]. intros [= ->].
  split; [reflexivity|]. split; [unfold MAX_OPEN_FILE in *; lia|].
  pose proof (held_in_elem _ _ _ Eo). pose proof (held_in_le w cur p f (conj E Hx)). lia.
Qed.

Lemma files_length w cur p : files_inv w -> running w cur p -> zlen (q_files p) = MAX_OPEN_FILE.
Proof.
  intros I [E _]. pose proof (fi_fds _ I) as F. rewrite Forall_forall in F. apply F. apply list_elem_of_lookup.
  exists (Z.to_nat cur). apply zget_lookup, E.
Qed.

(** The descriptors of a running process change, and the counts follow. *)
Lemma inv_set_files w w' cur p l cwd : files_inv w -> running w cur p -> zlen l = MAX_OPEN_FILE ->
  w_procs w' = zset (w_procs w) cur (mk_process cwd l (q_exited p)) ->
  table_ok w' (fun g => holders (w_procs w) g - held_in (q_files p) g + held_in l g) -> files_inv w'.
Proof.
  intros I [E Hx] Hl Ep T. rewrite Hx in Ep. split; rewrite Ep.
  - eapply table_ok_proper; [|exact T]. intros g. unfold holders. rewrite (zsum_zset _ _ cur p) by exact E. unfold held_by. rewrite Hx. reflexivity.
  - pose proof (fi_fds _ I) as F. rewrite Forall_forall in *. intros y Hy. apply list_elem_of_lookup in Hy as [n Hn].
    rewrite <- zget_of_nat in Hn. apply zget_zset_cases in Hn as [[_ ->] | [_ Hn]]; [exact Hl|].
    apply F. apply list_elem_of_lookup. exists n. rewrite <- zget_of_nat. exact Hn.
  - unfold zlen. rewrite zset_length. apply (fi_few _ I).
Qed.

Lemma held_in_zset l fd o v g : zget l fd = Some o -> held_in (zset l fd v) g = held_in l g - has o g + has v g.
Proof. apply (zsum_zset (fun o => has o g)). Qed.

Lemma has_none g : has None g = 0.
Proof. unfold has. apply decide_False. discriminate. Qed.

(** One descriptor changes from [o] to [v]. *)
Lemma inv_set_fd w w' cur p fd o v cwd : files_inv w -> running w cur p -> zget (q_files p) fd = Some o ->
  w_procs w' = zset (w_procs w) cur (mk_process cwd (zset (q_files p) fd v) (q_exited p)) ->
  table_ok w' (fun g => holders (w_procs w) g - has o g + has v g) -> files_inv w'.
Proof.
  intros I R Eo Ep T. apply (inv_set_files w w' cur p (zset (q_files p) fd v) cwd); auto.
  - unfold zlen. rewrite zset_length. exact (files_length w cur p I R).
  - eapply table_ok_proper; [|exact T]. intros g. rewrite (held_in_zset _ fd o) by exact Eo. lia.
Qed.

Lemma get_file_no_panic w cur fd : get_file w cur fd <> Panic.
Proof.
  unfold get_file, the_proc. destruct (zget (w_procs w) cur) as [p|]; cbn [deref obind]; [|discriminate].
  destruct (_ || _); [discriminate|]. destruct (zget (q_files p) fd); discriminate.
Qed.

Lemma alloc_fd_no_panic w cur f : alloc_fd w cur f <> Panic.
Proof.
  unfold alloc_fd, set_fd, the_proc. destruct (zget (w_procs w) cur) as [p|]; cbn [deref obind]; [|discriminate].
  destruct (find_unused_fd _ _); discriminate.
Qed.

Lemma do_close_ok w cur p fd : files_inv w -> running w cur p ->
  do_close w cur fd <> Panic /\ forall r w', do_close w cur fd = Done (r, w') -> files_inv w'.
Proof.
  intros I R. unfold do_close. destruct (get_file w cur fd) as [[f|]| | |] eqn:Eg; cbn [obind]; try (split; discriminate).
  2: { split; [discriminate|]. intros r w' [= <- <-]. exact I. }
  2: { destruct (get_file_no_panic _ _ _ Eg). }
  destruct (get_file_ok w cur p fd f I R Eg) as (Eo & Hr & Hh).
  unfold free_fd. replace ((0 <=? fd) && (fd <? MAX_OPEN_FILE)) with true by lia.
  unfold set_fd, the_proc. rewrite (proj1 R). cbn [deref obind]. fold (with_fd w cur p fd None).
  assert (T : table_ok (with_fd w cur p fd None) (holders (w_procs w))) by (eapply table_frame; [..|apply I]; reflexivity).
  destruct (close_file_ok _ _ f T Hh) as [Np Hd]. destruct (close_file (with_fd w cur p fd None) f) as [w1| | |]; cbn [obind]; try (split; discriminate); [|congruence].
  split; [discriminate|]. intros r w' [= <- <-]. destruct (Hd w1 eq_refl) as [T1 Ep].
  apply (inv_set_fd w w1 cur p fd (Some f) None (q_cwd p)); auto.
  eapply table_ok_proper; [|exact T1]. intros g. rewrite has_some, has_none. unfold drop_ref. lia.
Qed.

Lemma do_dup_ok w cur p fd : files_inv w -> running w cur p ->
  do_dup w cur fd <> Panic /\ forall r w', do_dup w cur fd = Done (r, w') -> files_inv w'.
Proof.
  intros I R. unfold do_dup. destruct (get_file w cur fd) as [[f|]| | |] eqn:Eg; cbn [obind]; try (split; discriminate).
  2: { split; [discriminate|]. intros r w' [= <- <-]. exact I. }
  2: { destruct (get_file_no_panic _ _ _ Eg). }
  destruct (get_file_ok w cur p fd f I R Eg) as (Eo & Hr & Hh).
  destruct (alloc_fd w cur f) as [[k w1]| | |] eqn:Ea; cbn [obind]; try (split; discriminate).
  2: { destruct (alloc_fd_no_panic _ _ _ Ea). }
  destruct (alloc_fd_ok w cur p f k w1 R Ea) as [[-> ->] | (Hk & Ek & ->)].
  { split; [discriminate|]. intros r w' [= <- <-]. exact I. }
  replace (k <? 0) with false by lia.
  assert (T : table_ok (with_fd w cur p k (Some f)) (holders (w_procs w))) by (eapply table_frame; [..|apply I]; reflexivity).
  destruct (dup_file_ok _ _ f T Hh) as (w2 & -> & T2 & Ep & _).
  { pose proof (holders_bound (w_procs w) f (fi_fds _ I)). pose proof (fi_few _ I). unfold MAX_OPEN_FILE, MAX_PROCS in *. lia. }
  split; [discriminate|]. intros r w' [= <- <-]. apply (inv_set_fd w w2 cur p k None (Some f) (q_cwd p)); auto.
  eapply table_ok_proper; [|exact T2]. intros g. rewrite has_some, has_none. unfold add_ref. lia.
Qed.

Lemma do_open_ok w cur p path mode r w' : files_inv w -> running w cur p -> do_open dev_read dev_write w cur path mode = Done (r, w') -> files_inv w'.
Proof.
  intros I R. unfold do_open, open_inode, the_proc. rewrite (proj1 R). cbn [deref obind].
  destruct (if negb _ then _ else _) as [[i s]| | |]; cbn [obind]; try discriminate.
  set (w1 := set_fs w s). assert (I1 : files_inv w1) by (apply (inv_frame w); auto).
  assert (Fin : forall v w2, (let! s := unlock (w_fs w1) v in Done (-1, set_fs w1 s)) = Done (r, w2) -> files_inv w2).
  { intros v w2. destruct (unlock (w_fs w1) v); cbn [obind]; try discriminate. intros [= <- <-]. apply (inv_frame w1); auto. }
  destruct i as [i|]; [|intros [= <- <-]; exact I1]. unfold open_fd. destruct (slot (w_fs w1) i) as [x| | |]; cbn [obind]; try discriminate.
  destruct (_ && _); [cbn [obind]; apply Fin|].
  destruct (alloc_file w1) as [[f w2]| | |] eqn:Ea; cbn [obind]; try discriminate. pose proof (alloc_file_ok w1 _ _ _ (fi_table _ I1) Ea) as Hf.
  destruct f as [f|]; [|subst w2; cbn [obind]; apply Fin]. destruct Hf as (y & Ef & Hf & Ht & -> & Hc).
  destruct (alloc_fd (set_file w1 f (set_ref 1 y)) cur f) as [[k w3]| | |] eqn:Ek; cbn [obind]; try discriminate.
  destruct (alloc_fd_ok (set_file w1 f (set_ref 1 y)) cur p f k w3 R Ek) as [[-> ->] | (Hk & Eo & ->)].
  { change (-1 <? 0) with true. cbn iota. rewrite Hc. cbn [obind]. apply Fin. }
  replace (k <? 0) with false by lia. cbn [obind]. replace (0 <=? k) with true by lia.
  destruct (unlock _ i) as [s2| | |]; cbn [obind]; try discriminate. intros [= <- <-]. set (z := file_init _ _ _ _ _ _).
  apply (inv_set_fd w1 _ cur p k None (Some f) (q_cwd p)); auto.
  apply (table_frame (set_file w1 f z)); [cbn; rewrite zset_twice; reflexivity | reflexivity | reflexivity |].
  assert (T : table_ok (set_file w1 f z) (add_ref (holders (w_procs w1)) f)) by (apply (new_file_ok w1 _ f y z); [apply I1 | auto; discriminate ..]).
  eapply table_ok_proper; [|exact T]. intros g. rewrite has_some, has_none. unfold add_ref. lia.
Qed.

(** Reading and writing do not open or close the ends of a pipe. *)
Definition same_ends (p p' : pipe) : Prop := p_readable p' = p_readable p /\ p_writable p' = p_writable p.

Lemma get_char_ends p r c p' : get_char p = Done (r, c, p') -> same_ends p p'.
Proof.
  unfold get_char. destruct (Sync.down1 (p_item p)); cbn [obind]; try discriminate. destruct (p_readable p) eqn:Er.
  - destruct (zget (p_buffer p) (p_read p)); cbn [deref obind]; try discriminate. intros [= _ _ <-]. split; cbn; congruence.
  - intros [= _ _ <-]. split; cbn; congruence.
Qed.

Lemma put_char_ends p c r p' : put_char p c = Done (r, p') -> same_ends p p'.
Proof.
  unfold put_char. destruct (Sync.down1 (p_space p)); cbn [obind]; try discriminate. destruct (p_writable p) eqn:Ew; intros [= _ <-]; split; cbn; congruence.
Qed.

Lemma same_ends_trans p q r : same_ends p q -> same_ends q r -> same_ends p r.
Proof. intros [A B] [C D]. split; congruence. Qed.

Lemma read_chars_ends n : forall p r p', read_chars n p = Done (r, p') -> same_ends p p'.
Proof.
  induction n as [|n IH]; intros p r p'; cbn [read_chars]; [intros [= _ <-]; split; reflexivity|].
  destruct (get_char p) as [[[k c] p1]| | |] eqn:E; cbn [obind]; try discriminate. apply get_char_ends in E.
  destruct (k <? 0); [intros [= _ <-]; exact E|].
  destruct (read_chars n p1) as [[rest p2]| | |] eqn:E2; cbn [obind]; try discriminate. intros [= _ <-]. eapply same_ends_trans; eauto.
Qed.

Lemma write_chars_ends l : forall p r p', write_chars l p = Done (r, p') -> same_ends p p'.
Proof.
  induction l as [|c l IH]; intros p r p'; cbn [write_chars]; [intros [= _ <-]; split; reflexivity|].
  destruct (put_char p c) as [[k p1]| | |] eqn:E; cbn [obind]; try discriminate. apply put_char_ends in E.
  destruct (k <? 0); [intros [= _ <-]; exact E|]. intros E2. eapply same_ends_trans; eauto.
Qed.

Lemma pipe_read_ends p n r bytes p' : pipe_read p n = Done (r, bytes, p') -> same_ends p p'.
Proof.
  unfold pipe_read. destruct (read_chars _ p) as [[[l|] p1]| | |] eqn:E; cbn [obind]; try discriminate; intros [= _ _ <-]; eapply read_chars_ends; eauto.
Qed.

Lemma pipe_write_ends p l r p' : pipe_write p l = Done (r, p') -> same_ends p p'.
Proof. unfold pipe_write. destruct (write_chars l p) as [[ok p1]| | |] eqn:E; cbn [obind]; try discriminate. intros [= _ <-]. eapply write_chars_ends; eauto. Qed.

Lemma inv_set_pipe w a p : files_inv w -> same_ends (w_pipes w a) p -> files_inv (set_pipe w a p).
Proof.
  intros I [Er Ew]. apply (inv_same w); auto. destruct (fi_table _ I) as [T1 T2 T3 T4 T5 T6 T7]. split; auto.
  intros a' b Hab. cbn [set_pipe w_pipes]. destruct (a' =? a) eqn:Ta; tests; [subst a'; rewrite Er, Ew|]; apply (T7 _ b), Hab.
Qed.

Lemma inv_set_offset w f x o : files_inv w -> zget (w_files w) f = Some x -> files_inv (set_file w f (set_offset o x)).
Proof.
  intros I E. apply (inv_same w); auto. pose proof (fi_table _ I) as T.
  apply (table_set_file w (holders (w_procs w)) _ f x); auto; [exact (to_ref _ _ T f x E) | exact (to_none _ _ T f x E) | apply (to_bound _ _ T)].
Qed.

Lemma do_read_ok w cur p fd n r bytes w' : files_inv w -> running w cur p -> do_read dev_read w cur fd n = Done (r, bytes, w') -> files_inv w'.
Proof.
  intros I R. unfold do_read, the_file. destruct (get_file w cur fd) as [[f|]| | |]; cbn [obind]; try discriminate; [|intros [= _ _ <-]; exact I].
  destruct (zget (w_files w) f) as [x|] eqn:E; cbn [deref obind]; [|discriminate].
  destruct (negb _); [intros [= _ _ <-]; exact I|]. destruct (l_type x).
  - intros [= _ _ <-]. exact I.
  - destruct (pipe_read _ n) as [[[k l] p1]| | |] eqn:Er; cbn [obind]; try discriminate. intros [= _ _ <-]. apply inv_set_pipe; [exact I|]. eapply pipe_read_ends; eauto.
  - destruct (l_inode x) as [i|]; cbn [deref obind]; [|discriminate].
    destruct (read_slot _ _ _ _ _) as [[[k l] s]| | |]; cbn [obind]; try discriminate. intros [= _ _ <-].
    assert (files_inv (set_fs w s)) by (apply (inv_frame w); auto). destruct (0 <? k); [apply inv_set_offset|]; auto.
  - destruct (l_socket x) as [k|]; cbn [deref obind]; [|discriminate].
    destruct (sk_read _ _ _) as [[[m l] s]| | |]; cbn [obind]; try discriminate. intros [= _ _ <-]. apply (inv_frame w); auto.
Qed.

Lemma do_write_ok w cur p fd bytes r w' : files_inv w -> running w cur p -> do_write dev_write w cur fd bytes = Done (r, w') -> files_inv w'.
Proof.
  intros I R. unfold do_write, the_file. destruct (get_file w cur fd) as [[f|]| | |]; cbn [obind]; try discriminate; [|intros [= _ <-]; exact I].
  destruct (zget (w_files w) f) as [x|] eqn:E; cbn [deref obind]; [|discriminate].
  destruct (negb _); [intros [= _ <-]; exact I|]. destruct (l_type x).
  - intros [= _ <-]. exact I.
  - destruct (pipe_write _ _) as [[k p1]| | |] eqn:Er; cbn [obind]; try discriminate. intros [= _ <-]. apply inv_set_pipe; [exact I|]. eapply pipe_write_ends; eauto.
  - destruct (l_inode x) as [i|]; cbn [deref obind]; [|discriminate].
    destruct (write_slot _ _ _ _ _) as [[k s]| | |]; cbn [obind]; try discriminate. intros [= _ <-].
    assert (files_inv (set_fs w s)) by (apply (inv_frame w); auto). destruct (0 <? k); [apply inv_set_offset|]; auto.
  - destruct (l_socket x) as [k|]; cbn [deref obind]; [|discriminate].
    destruct (sk_write _ _ _) as [[m s]| | |]; cbn [obind]; try discriminate. intros [= _ <-]. apply (inv_frame w); auto.
Qed.

Lemma do_seek_ok w cur fd pos r w' : files_inv w -> do_seek w cur fd pos = Done (r, w') -> files_inv w'.
Proof.
  intros I. unfold do_seek, the_file. destruct (get_file w cur fd) as [[f|]| | |]; cbn [obind]; try discriminate; [|intros [= _ <-]; exact I].
  destruct (zget (w_files w) f) as [x|] eqn:E; cbn [deref obind]; [|discriminate].
  destruct (l_inode x) as [i|]; [|intros [= _ <-]; exact I]. destruct (slot (w_fs w) i); cbn [obind]; try discriminate.
  destruct (pos <? _); intros [= _ <-]; [apply inv_set_offset|]; auto.
Qed.

(** [alloc_pipe] makes a pipe with one file for each end, or changes nothing. *)
Lemma alloc_pipe_ok w h junk r w' : table_ok w h -> alloc_pipe w junk = Done (r, w') ->
  w_procs w' = w_procs w /\
  match r with
  | None => table_ok w' h
  | Some (fr, fw) => fr <> fw /\ h fr = 0 /\ h fw = 0 /\ table_ok w' (add_ref (add_ref h fr) fw)
  end.
Proof.
  intros T. unfold alloc_pipe. destruct (alloc_file w) as [[fr w1]| | |] eqn:E1; cbn [obind]; try discriminate.
  pose proof (alloc_file_ok w h _ _ T E1) as H1. destruct fr as [fr|]; [|intros [= <- <-]; subst; auto].
  destruct H1 as (xr & Er & Hr & Tr & -> & Cr).
  destruct (alloc_file (set_file w fr (set_ref 1 xr))) as [[fw w2]| | |] eqn:E2; cbn [obind]; try discriminate.
  unfold alloc_file in E2. pose proof (find_unused_file_ok (w_files (set_file w fr (set_ref 1 xr))) 0) as H2.
  destruct (find_unused_file (w_files (set_file w fr (set_ref 1 xr))) 0) as [k|].
  2: { injection E2 as <- <-. unfold pipe_failed. rewrite Cr. cbn [obind]. intros [= <- <-]. auto. }
  destruct H2 as (xw & Hk & Ek & Hz). rewrite Z.sub_0_r in *. unfold the_file in E2. rewrite Ek in E2. cbn [deref obind] in E2. injection E2 as <- <-.
  apply (zget_set_file w fr xr) in Ek as [[-> ->] | [Hne Ek]]; [discriminate Hz | | exact Er].
  assert (Hw : h k = 0) by (rewrite <- (to_ref _ _ T k xw Ek); exact Hz).
  cbn [set_file set_files w_pool]. destruct (pool_alloc (w_pool w)) as [[a pool]| | |] eqn:Ep; cbn [obind]; try discriminate.
  destruct (to_pool _ _ T) as (A & HA & _). destruct (pool_alloc_spec _ _ _ _ HA Ep) as [Ha _].
  replace (a =? NULL) with false by (unfold NULL; lia). intros [= <- <-]. split; [reflexivity|]. split; [auto|]. split; [exact Hr|]. split; [exact Hw|].
  eapply table_frame; [..|apply (new_pipe_ok w h fr k xr xw a pool junk T Er Ek); auto]; try reflexivity.
  cbn. pose proof (zget_Some_range _ _ _ Er). rewrite (zset_comm _ k fr), zset_twice, zset_twice by lia. reflexivity.
Qed.

Lemma add_drop h f : pointwise_relation Z eq (drop_ref (add_ref h f) f) h.
Proof. intros g. unfold drop_ref, add_ref. lia. Qed.

(** Both files of a pipe are closed again. *)
Lemma close_both_ok w h fr fw w1 w2 : fr <> fw -> (forall f, 0 <= h f) -> table_ok w (add_ref (add_ref h fr) fw) ->
  close_file w fr = Done w1 -> close_file w1 fw = Done w2 -> table_ok w2 h /\ w_procs w2 = w_procs w.
Proof.
  intros Hne Hp T E1 E2.
  destruct (close_file_ok w _ fr T) as [_ H1]; [unfold add_ref; rewrite delta_same; rewrite (delta_other fw) by auto; specialize (Hp fr); lia|].
  destruct (H1 _ E1) as [T1 P1].
  destruct (close_file_ok w1 _ fw T1) as [_ H2]; [unfold drop_ref, add_ref; rewrite delta_same; rewrite !(delta_other fr) by auto; specialize (Hp fw); lia|].
  destruct (H2 _ E2) as [T2 P2]. split; [|congruence]. eapply table_ok_proper; [|exact T2]. intros g. unfold drop_ref, add_ref. lia.
Qed.

Lemma do_pipe_ok w cur p junk r w' : files_inv w -> running w cur p -> do_pipe w cur junk = Done (r, w') -> files_inv w'.
Proof.
  intros I R. unfold do_pipe. destruct (alloc_pipe w junk) as [[[[fr fw]|] w1]| | |] eqn:E; cbn [obind]; try discriminate;
    destruct (alloc_pipe_ok w _ _ _ _ (fi_table _ I) E) as [Ep T].
  2: { intros [= _ <-]. apply (inv_same w); auto. }
  destruct T as (Hne & Hr & Hw & T). assert (Hpos : forall f, 0 <= holders (w_procs w) f) by (intros; apply (to_bound _ _ (fi_table _ I))).
  assert (R1 : running w1 cur p) by (unfold running; rewrite Ep; exact R).
  destruct (alloc_fd w1 cur fr) as [[k1 w2]| | |] eqn:E1; cbn [obind]; try discriminate.
  destruct (alloc_fd_ok w1 cur p fr k1 w2 R1 E1) as [[-> ->] | (Hk1 & Ek1 & ->)].
  - change (-1 <? 0) with true. cbn iota. destruct (close_file w1 fr) as [w3| | |] eqn:C1; cbn [obind]; try discriminate.
    destruct (close_file w3 fw) as [w4| | |] eqn:C2; cbn [obind]; try discriminate. intros [= _ <-].
    destruct (close_both_ok w1 _ fr fw w3 w4 Hne Hpos T C1 C2) as [T4 P4]. apply (inv_same w); auto; congruence.
  - replace (k1 <? 0) with false by lia. set (p2 := mk_process (q_cwd p) (zset (q_files p) k1 (Some fr)) (q_exited p)).
    assert (Rg : 0 <= cur < zlen (w_procs w1)) by (destruct R1; eauto using zget_Some_range).
    assert (R2 : running (with_fd w1 cur p k1 (Some fr)) cur p2) by (split; [apply zget_zset_eq; exact Rg | apply R1]).
    destruct (alloc_fd (with_fd w1 cur p k1 (Some fr)) cur fw) as [[k2 w3]| | |] eqn:E2; cbn [obind]; try discriminate.
    destruct (alloc_fd_ok _ cur p2 fw k2 w3 R2 E2) as [[-> ->] | (Hk2 & Ek2 & ->)].
    + change (-1 <? 0) with true. cbn iota. unfold free_fd. pose proof (files_length w cur p I R) as Hl.
      replace ((0 <=? k1) && (k1 <? MAX_OPEN_FILE)) with true by lia. unfold set_fd, the_proc. rewrite (proj1 R2). cbn [deref obind].
      set (w4 := set_procs _ _).
      assert (P4 : w_procs w4 = w_procs w).
      { unfold w4. cbn. rewrite zset_twice, zset_twice, (zset_id (q_files p)) by exact Ek1. rewrite Ep. apply zset_id. rewrite (proj1 R). destruct p; reflexivity. }
      destruct (close_file w4 fr) as [w5| | |] eqn:C1; cbn [obind]; try discriminate.
      destruct (close_file w5 fw) as [w6| | |] eqn:C2; cbn [obind]; try discriminate. intros [= _ <-].
      destruct (close_both_ok w4 (holders (w_procs w)) fr fw w5 w6 Hne Hpos) as [T6 P6]; [|exact C1 | exact C2 |].
      { apply (table_frame w1); [reflexivity.. | exact T]. }
      apply (inv_same w); auto; congruence.
    + replace (k2 <? 0) with false by lia. intros [= _ <-].
      apply (inv_set_files w _ cur p (zset (zset (q_files p) k1 (Some fr)) k2 (Some fw)) (q_cwd p)); auto.
      * unfold zlen. rewrite !zset_length. exact (files_length w cur p I R).
      * cbn. rewrite Ep. apply zset_twice.
      * apply (table_frame w1); [reflexivity.. |]. eapply table_ok_proper; [|exact T]. intros g.
        rewrite (held_in_zset _ k2 None) by exact Ek2. rewrite (held_in_zset _ k1 None) by exact Ek1. rewrite !has_some, !has_none. unfold add_ref. lia.
Qed.

(** The loops of [fork] and [exit]. *)
Lemma in_use_ok w h f : table_ok w h -> h f <> 0 -> in_use w (Some f) = Done true.
Proof.
  intros T Hf. destruct (table_file w h f T Hf) as (x & E & _ & Et). unfold in_use, the_file. rewrite E. cbn [deref obind].
  rewrite bool_decide_eq_false_2 by exact Et. reflexivity.
Qed.

Lemma held_in_cons o l g : held_in (o :: l) g = has o g + held_in l g.
Proof. reflexivity. Qed.

Lemma dup_files_ok l : forall w h, table_ok w h -> (forall f, Some f ∈ l -> h f <> 0) -> (forall f, h f + held_in l f < 2 ^ 31 - 1) ->
  exists w', dup_files w l = Done w' /\ table_ok w' (fun g => h g + held_in l g) /\ w_procs w' = w_procs w.
Proof.
  induction l as [|[f|] l IH]; intros w h T Hl Hb; cbn [dup_files].
  - exists w. split; [reflexivity|]. split; [|reflexivity]. eapply table_ok_proper; [|exact T]. intros g. unfold held_in. cbn. lia.
  - assert (Hf : h f <> 0) by (apply Hl; left). rewrite (in_use_ok w h f T Hf). cbn [obind].
    destruct (dup_file_ok w h f T Hf) as (w1 & -> & T1 & P1 & _).
    { specialize (Hb f). pose proof (held_in_nonneg (Some f :: l) f). lia. }
    cbn [obind]. destruct (IH w1 _ T1) as (w2 & -> & T2 & P2).
    + intros g Hg. assert (h g <> 0) by (apply Hl; right; exact Hg). unfold add_ref, delta. pose proof (to_bound _ _ T g). destruct (decide _); lia.
    + intros g. specialize (Hb g). rewrite held_in_cons, has_some in Hb. unfold add_ref. lia.
    + exists w2. split; [reflexivity|]. split; [|congruence]. eapply table_ok_proper; [|exact T2]. intros g. cbn beta. rewrite held_in_cons, has_some. unfold add_ref. lia.
  - cbn [in_use obind]. destruct (IH w h T) as (w2 & -> & T2 & P2); [set_solver | intros g; specialize (Hb g); rewrite held_in_cons, has_none in Hb; lia |].
    exists w2. split; [reflexivity|]. split; [|exact P2]. eapply table_ok_proper; [|exact T2]. intros g. cbn beta. rewrite held_in_cons, has_none. lia.
Qed.

Lemma close_files_ok l : forall w h w', table_ok w (fun g => h g + held_in l g) -> (forall g, 0 <= h g) -> close_files w l = Done w' ->
  table_ok w' h /\ w_procs w' = w_procs w.
Proof.
  induction l as [|[f|] l IH]; intros w h w' T Hp; cbn [close_files].
  - intros [= <-]. split; [|reflexivity]. eapply table_ok_proper; [|exact T]. intros g. unfold held_in. cbn. lia.
  - assert (Hf : h f + held_in (Some f :: l) f <> 0).
    { rewrite held_in_cons, has_some, delta_same. specialize (Hp f). pose proof (held_in_nonneg l f). lia. }
    rewrite (in_use_ok w _ f T Hf). cbn [obind]. destruct (close_file_ok w _ f T Hf) as [_ Hc].
    destruct (close_file w f) as [w1| | |]; cbn [obind]; try discriminate. destruct (Hc w1 eq_refl) as [T1 P1]. intros E.
    destruct (IH w1 h w') as [T2 P2]; auto; [|split; [exact T2 | congruence]].
    eapply table_ok_proper; [|exact T1]. intros g. unfold drop_ref. rewrite held_in_cons, has_some. lia.
  - cbn [in_use obind]. apply IH; [|exact Hp]. eapply table_ok_proper; [|exact T]. intros g. cbn beta. rewrite held_in_cons, has_none. lia.
Qed.

Lemma fork_files_ok w cur p : files_inv w -> running w cur p -> zlen (w_procs w) < MAX_PROCS ->
  fork_files w cur <> Panic /\ forall w', fork_files w cur = Done w' -> files_inv w'.
Proof.
  intros I R Hn. unfold fork_files, the_proc. rewrite (proj1 R). cbn [deref obind].
  unfold dup_inode, slot. destruct (zget (f_inodes (w_fs w)) (q_cwd p)); cbn [deref obind]; [|split; discriminate].
  set (w1 := set_fs w _). assert (T : table_ok w1 (holders (w_procs w))) by (eapply table_frame; [..|apply I]; reflexivity).
  destruct (dup_files_ok (q_files p) w1 _ T) as (w2 & -> & T2 & P2).
  - intros f Hf. apply list_elem_of_lookup in Hf as [n Hn']. rewrite <- zget_of_nat in Hn'.
    pose proof (held_in_elem _ _ _ Hn'). pose proof (held_in_le w cur p f R). lia.
  - intros f. pose proof (holders_bound (w_procs w) f (fi_fds _ I)). pose proof (held_in_le w cur p f R).
    unfold MAX_OPEN_FILE, MAX_PROCS in *. lia.
  - cbn [obind]. split; [discriminate|]. intros w' [= <-]. split; cbn [set_procs w_procs]; rewrite P2; cbn [w1 set_fs w_procs].
    + apply (table_frame w2); [reflexivity..|]. eapply table_ok_proper; [|exact T2]. intros g. unfold holders. rewrite zsum_app.
      change (zsum (fun p => held_by p g) [_]) with (held_in (q_files p) g + 0). lia.
    + apply Forall_app. split; [apply I|]. repeat constructor. exact (files_length w cur p I R).
    + rewrite zlen_app. unfold zlen at 2. cbn. lia.
Qed.

Lemma exit_files_ok w cur p w' : files_inv w -> running w cur p -> exit_files w cur = Done w' -> files_inv w'.
Proof.
  intros I R. unfold exit_files, the_proc. rewrite (proj1 R). cbn [deref obind].
  destruct (put_inode (w_fs w) (q_cwd p)) as [s| | |]; cbn [obind]; try discriminate.
  destruct (close_files (set_fs w s) (q_files p)) as [w1| | |] eqn:E; cbn [obind]; try discriminate. intros [= <-].
  assert (Hp : forall g, held_in (q_files p) g <= holders (w_procs w) g).
  { intros g. exact (held_in_le w cur p g R). }
  destruct (close_files_ok (q_files p) (set_fs w s) (fun g => holders (w_procs w) g - held_in (q_files p) g) w1) as [T1 P1]; [| |exact E|].
  { apply (table_frame w); [reflexivity..|]. eapply table_ok_proper; [|apply (fi_table _ I)]. intros g. lia. }
  { intros g. specialize (Hp g). lia. }
  split; cbn [set_procs w_procs]; rewrite P1; cbn [set_fs w_procs].
  - apply (table_frame w1); [reflexivity..|]. eapply table_ok_proper; [|exact T1]. intros g. unfold holders. rewrite (zsum_zset _ _ cur p) by apply R.
    change (held_by (mk_process _ _ true) g) with 0. unfold held_by at 2. rewrite (proj2 R). lia.
  - pose proof (fi_fds _ I) as F. rewrite Forall_forall in *. intros y Hy. apply list_elem_of_lookup in Hy as [n Hn].
    rewrite <- zget_of_nat in Hn. apply zget_zset_cases in Hn as [[_ ->] | [_ Hn]]; [exact (files_length w cur p I R)|].
    apply F. apply list_elem_of_lookup. exists n. rewrite <- zget_of_nat. exact Hn.
  - unfold zlen. rewrite zset_length. apply (fi_few _ I).
Qed.

(** ** Every call *)

Definition call_chdir w cur path : outcome (world S P) :=
  let! p := the_proc w cur in
  let! ' (_, cwd, s) := do_chdir dev_read (w_fs w) (q_cwd p) path in
  Done (set_procs (set_fs w s) (zset (w_procs w) cur (mk_process cwd (q_files p) (q_exited p)))).

(** Calls on paths leave the table of files alone. *)
Definition on_paths w cur (call : fs -> Z -> outcome (Z * fs)) : outcome (world S P) :=
  let! p := the_proc w cur in let! ' (_, s) := call (w_fs w) (q_cwd p) in Done (set_fs w s).

Inductive file_call :=
| COpen (path : list Z) (mode : Z)
| CClose (fd : Z)
| CRead (fd n : Z)
| CWrite (fd : Z) (bytes : list Z)
| CDup (fd : Z)
| CSeek (fd pos : Z)
| CPipe (junk : list Z)
| CSendTo (fd : Z) (bytes : list Z) (addr : Z)
| CRecvFrom (fd n : Z)
| CMkdir (path : list Z)
| CMknod (path : list Z) (major minor : Z)
| CLink (old new : list Z)
| CUnlink (path : list Z)
| CChdir (path : list Z)
| CFork
| CExit.

(** The state after the call. *)
Definition after {A} (r : outcome (A * world S P)) : outcome (world S P) := let! ' (_, w) := r in Done w.

Definition file_do w cur (c : file_call) : outcome (world S P) :=
  match c with
  | COpen path mode => after (do_open dev_read dev_write w cur path mode)
  | CClose fd => after (do_close w cur fd)
  | CRead fd n => after (do_read dev_read w cur fd n)
  | CWrite fd bytes => after (do_write dev_write w cur fd bytes)
  | CDup fd => after (do_dup w cur fd)
  | CSeek fd pos => after (do_seek w cur fd pos)
  | CPipe junk => after (do_pipe w cur junk)
  | CSendTo fd bytes addr => after (do_send_to w cur fd bytes addr)
  | CRecvFrom fd n => after (do_recv_from w cur fd n)
  | CMkdir path => on_paths w cur (fun s cwd => do_mkdir dev_read dev_write s cwd path)
  | CMknod path major minor => on_paths w cur (fun s cwd => do_mknod dev_read dev_write s cwd path major minor)
  | CLink old new => on_paths w cur (fun s cwd => do_link dev_read dev_write s cwd old new)
  | CUnlink path => on_paths w cur (fun s cwd => do_unlink dev_read dev_write s cwd path)
  | CChdir path => call_chdir w cur path
  | CFork => fork_files w cur
  | CExit => exit_files w cur
  end.

(** A process that runs makes a call that returns. *)
Inductive file_step : world S P -> world S P -> Prop :=
| File_step w cur p c w' : running w cur p -> (c = CFork -> zlen (w_procs w) < MAX_PROCS) -> file_do w cur c = Done w' -> file_step w w'.

Lemma after_done {A} (r : outcome (A * world S P)) w' : after r = Done w' -> exists a, r = Done (a, w').
Proof. unfold after. destruct r as [[a w]| | |]; cbn; try discriminate. intros [= <-]. eauto. Qed.

Lemma send_recv_ok w cur fd bytes addr n w' : files_inv w ->
  after (do_send_to w cur fd bytes addr) = Done w' \/ after (do_recv_from w cur fd n) = Done w' -> files_inv w'.
Proof.
  intros I. unfold do_send_to, do_recv_from, the_file.
  destruct (get_file w cur fd) as [[f|]| | |]; cbn; try (intros [?|?]; discriminate); [|intros [[= <-]|[= <-]]; exact I].
  destruct (zget (w_files w) f) as [x|]; cbn; [|intros [?|?]; discriminate].
  destruct (negb _); cbn; [intros [[= <-]|[= <-]]; exact I|]. destruct (l_type x); cbn; try (intros [[= <-]|[= <-]]; exact I).
  destruct (l_socket x); cbn; [|intros [?|?]; discriminate]. intros [E|E].
  - destruct (sk_send_to _ _ _ _) as [[? ?]| | |]; cbn in E; try discriminate. injection E as <-. apply (inv_frame w); auto.
  - destruct (sk_recv_from _ _ _) as [[[? ?] ?]| | |]; cbn in E; try discriminate. injection E as <-. apply (inv_frame w); auto.
Qed.

Lemma on_paths_ok w cur call w' : files_inv w -> on_paths w cur call = Done w' -> files_inv w'.
Proof.
  intros I. unfold on_paths, the_proc. destruct (zget (w_procs w) cur); cbn [deref obind]; [|discriminate].
  destruct (call _ _) as [[r s]| | |]; cbn [obind]; try discriminate. intros [= <-]. apply (inv_frame w); auto.
Qed.

Lemma call_chdir_ok w cur p path w' : files_inv w -> running w cur p -> call_chdir w cur path = Done w' -> files_inv w'.
Proof.
  intros I R. unfold call_chdir, the_proc. rewrite (proj1 R). cbn [deref obind].
  destruct (do_chdir _ _ _ _) as [[[r cwd] s]| | |]; cbn [obind]; try discriminate. intros [= <-].
  apply (inv_set_files w _ cur p (q_files p) cwd); auto; [exact (files_length w cur p I R)|].
  apply (table_frame w); [reflexivity..|]. eapply table_ok_proper; [|apply (fi_table _ I)]. intros g. lia.
Qed.

Lemma file_step_inv w w' : file_step w w' -> files_inv w -> files_inv w'.
Proof.
  intros [w1 cur p c w2 R Hn E] I. destruct c; cbn [file_do] in E; try (apply on_paths_ok in E; assumption);
    try (apply after_done in E as [r E]).
  - eapply do_open_ok; eauto.
  - eapply (do_close_ok w1 cur p); eauto.
  - destruct r. eapply do_read_ok; eauto.
  - eapply do_write_ok; eauto.
  - eapply (do_dup_ok w1 cur p); eauto.
  - eapply do_seek_ok; eauto.
  - eapply do_pipe_ok; eauto.
  - eapply (send_recv_ok w1 cur fd bytes addr 0); eauto. left. unfold after. rewrite E. reflexivity.
  - eapply (send_recv_ok w1 cur fd [] 0 n); eauto. right. unfold after. rewrite E. reflexivity.
  - eapply call_chdir_ok; eauto.
  - eapply (fork_files_ok w1 cur p); eauto.
  - eapply exit_files_ok; eauto.
Qed.

(** [file_table_t::init], with a first process that has no file open. *)
Definition unused_file : file := mk_file TYPE_NONE 0 false false None NULL None 0.
Definition file_boot (s : fs) (pipes : Z -> pipe) (pool : P) (socks : S) (cwd : Z) : world S P :=
  mk_world s (repeat unused_file (Z.to_nat MAX_FILE_NUM)) pipes pool socks
    [mk_process cwd (repeat None (Z.to_nat MAX_OPEN_FILE)) false].

Lemma zget_repeat {A} (x y : A) n i : zget (repeat x n) i = Some y -> y = x.
Proof. intros E. apply zget_lookup in E as [E _]. apply list_elem_of_lookup_2, list_elem_of_In, repeat_spec in E. exact E. Qed.

Lemma held_in_repeat n f : held_in (repeat None n) f = 0.
Proof. induction n; [reflexivity|]. cbn [repeat]. rewrite held_in_cons, has_none. lia. Qed.

Lemma file_boot_inv s pipes pool socks cwd : pool_inv pool ∅ -> files_inv (file_boot s pipes pool socks cwd).
Proof.
  intros HA. assert (H0 : forall f, holders (w_procs (file_boot s pipes pool socks cwd)) f = 0).
  { intros f. unfold holders, file_boot. cbn [w_procs zsum foldr]. unfold held_by. cbn [q_exited q_files]. rewrite held_in_repeat. reflexivity. }
  assert (N : forall a b, ~ pipe_end (file_boot s pipes pool socks cwd) a b).
  { intros a b (f & x & E & Hx). apply zget_repeat in E as ->. discriminate Hx. }
  split; [split|..].
  - intros f x E. rewrite H0. apply zget_repeat in E as ->. reflexivity.
  - intros f x E. rewrite H0. apply zget_repeat in E as ->. tauto.
  - intros f Hf. rewrite H0 in Hf. congruence.
  - intros f. rewrite H0. lia.
  - intros f g x y e E _ Hx. apply zget_repeat in E as ->. discriminate Hx.
  - exists ∅. split; [exact HA|]. intros a. split; [set_solver | intros [b Hb]; destruct (N a b Hb)].
  - intros a b Hb. destruct (N a b Hb).
  - repeat constructor.
  - change (1 <= 2 ^ 19). lia.
Qed.

Lemma reachable_inv w w' : rtc file_step w w' -> files_inv w -> files_inv w'.
Proof. induction 1 as [w | w1 w2 w3 H1 _ IH]; [auto|]. intros I. apply IH. exact (file_step_inv _ _ H1 I). Qed.

End Invariant.

(** ** Calls in sequence *)

Definition is_fork (c : file_call) : bool := match c with CFork => true | _ => false end.

Section Runs.
Context {S P : Type} `{HS : SocketLaws S} `{HP : ObjectPool P}.
Context (dev_read : Z -> option (Z -> outcome (Z * list Z))) (dev_write : Z -> option (list Z -> outcome Z)).
Implicit Type w : world S P.

(** Calls with the process that makes each; nothing when one of them does not run or the
    call does not return. *)
Fixpoint file_run w (l : list (Z * file_call)) : option (world S P) :=
  match l with
  | [] => Some w
  | (cur, c) :: r =>
      match zget (w_procs w) cur with
      | Some p =>
          if negb (q_exited p) && (negb (is_fork c) || (zlen (w_procs w) <? MAX_PROCS)) then
            match file_do dev_read dev_write w cur c with Done w => file_run w r | _ => None end
          else None
      | None => None
      end
  end.

Lemma file_run_steps l : forall w w', file_run w l = Some w' -> rtc (file_step dev_read dev_write) w w'.
Proof.
  induction l as [|[cur c] l IH]; intros w w'; cbn [file_run]; [intros [= <-]; apply rtc_refl|].
  destruct (zget (w_procs w) cur) as [p|] eqn:Ep; [|discriminate]. destruct (negb (q_exited p) && _) eqn:Ec; [|discriminate]. tests.
  destruct (file_do dev_read dev_write w cur c) as [w1| | |] eqn:E; try discriminate. intros Hr.
  eapply rtc_l; [|apply IH, Hr]. econstructor; [split; eassumption| |exact E]. intros ->. cbn in *. lia.
Qed.

(** Bytes written through a descriptor, and read after going back. *)
Lemma write_seek_read_ok w cur p fd f x i y src : running w cur p -> zget (q_files p) fd = Some (Some f) -> 0 <= fd < MAX_OPEN_FILE ->
  zget (w_files w) f = Some x -> l_type x = TYPE_INODE -> l_readable x = true -> l_writeable x = true -> l_inode x = Some i ->
  zget (f_inodes (w_fs w)) i = Some y -> disk_ok (f_disk (w_fs w)) -> file_wf (f_disk (w_fs w)) y -> i_type y <> I_TYPE_DEV ->
  byte_list src -> 0 < zlen src -> 0 <= l_offset x <= i_size y -> l_offset x + zlen src <= MAX_FILE_SIZE * BSIZE ->
  touched (l_offset x) (zlen src) + reserve y <= free_count (f_disk (w_fs w)) ->
  exists w1 w2 w3, do_write dev_write w cur fd src = Done (zlen src, w1) /\ do_seek w1 cur fd (l_offset x) = Done (0, w2) /\
    do_read dev_read w2 cur fd (zlen src) = Done (zlen src, src, w3) /\
    zget (w_files w3) f = Some (set_offset (l_offset x + zlen src) x) /\ w_fs w3 = w_fs w1.
Proof.
  intros R Efd Hfd Ef Et Er Ewr Ei Ey Dk Wf Ht Hb Hn Ho Hm Hfree.
  destruct (write_read_ok dev_read dev_write (f_disk (w_fs w)) y src (l_offset x) Dk Wf Ht Hb Ho Hm Hfree) as (y' & d' & Ew & St & Erd).
  assert (Hsz : l_offset x < i_size y').
  { destruct St as (_ & _ & Hs & _). rewrite Hs. lia. }
  change (MAX_FILE_SIZE * BSIZE) with 71680 in Hm.
  assert (Gf : forall w', w_procs w' = w_procs w -> get_file w' cur fd = Done (Some f)).
  { intros w' E. unfold get_file, the_proc. rewrite E, (proj1 R). cbn [deref obind].
    replace ((fd <? 0) || (MAX_OPEN_FILE <=? fd)) with false by lia. rewrite Efd. reflexivity. }
  pose proof (zget_Some_range _ _ _ Ef) as Rf. pose proof (zget_Some_range _ _ _ Ey) as Ri.
  unfold do_write. rewrite (Gf w eq_refl). cbn [obind]. unfold the_file. rewrite Ef. cbn [deref obind]. rewrite Ewr, Et, Ei. cbn [negb deref obind].
  unfold write_slot, slot. rewrite Ey. cbn [deref obind]. rewrite Ew. cbn [obind]. replace (0 <? zlen src) with true by lia. rewrite u32_small by lia.
  set (s1 := set_slot (with_disk (w_fs w) d') i y'). set (x1 := set_offset (l_offset x + zlen src) x).
  set (w1 := set_file (set_fs w s1) f x1).
  assert (E1 : zget (w_files w1) f = Some x1) by (apply zget_zset_eq; exact Rf).
  assert (Ey1 : zget (f_inodes s1) i = Some y') by (apply zget_zset_eq; exact Ri).
  exists w1, (set_file w1 f (set_offset (l_offset x) x1)).
  unfold do_seek. rewrite (Gf w1 eq_refl). cbn [obind]. unfold the_file. rewrite E1. cbn [deref obind x1 set_offset l_inode]. rewrite Ei.
  unfold slot. change (w_fs w1) with s1. rewrite Ey1. cbn [deref obind]. replace (l_offset x <? i_size y') with true by lia.
  set (x2 := set_offset (l_offset x) x1). set (w2 := set_file w1 f x2).
  assert (E2 : zget (w_files w2) f = Some x2) by (apply zget_zset_eq; unfold zlen; cbn; rewrite zset_length; exact Rf).
  unfold do_read. rewrite (Gf w2 eq_refl). cbn [obind]. unfold the_file. rewrite E2. cbn [deref obind x2 x1 set_offset l_readable l_type l_inode l_offset].
  rewrite Er, Et, Ei. cbn [negb deref obind]. unfold read_slot, slot. change (w_fs w2) with s1. rewrite Ey1. cbn [deref obind].
  change (f_disk s1) with d'. rewrite Erd. cbn [obind]. replace (0 <? zlen src) with true by lia. rewrite u32_small by lia.
  rewrite set_slot_id by exact Ey1. change (with_disk s1 d') with s1.
  eexists. split; [reflexivity|]. split; [reflexivity|]. split; [reflexivity|]. split; [|reflexivity].
  apply zget_zset_eq. unfold zlen. cbn. rewrite !zset_length. exact Rf.
Qed.

End Runs.

(** ** The properties *)

(** C19: whatever calls processes make, starting from one process and no open file: the count
    of every file is the number of descriptors of running processes that refer to it,
    a file is unused exactly when that number is zero, a pipe is in use exactly as
    long as a file refers to one of its ends and is open at an end as long as there is
    a file for it; so a descriptor never refers to an unused file, and closing or
    duplicating one never brings the kernel down. *)
Theorem references_are_counted {S P} `{HS : SocketLaws S} `{HP : ObjectPool P} dev_read dev_write s pipes (pool : P) (socks : S) cwd w :
  pool_inv pool ∅ -> rtc (file_step dev_read dev_write) (file_boot s pipes pool socks cwd) w ->
  table_ok w (holders (w_procs w)) /\
  forall cur p fd, running w cur p -> do_close w cur fd <> Panic /\ do_dup w cur fd <> Panic /\
    forall f, zget (q_files p) fd = Some (Some f) -> exists x, zget (w_files w) f = Some x /\ l_type x <> TYPE_NONE.
Proof.
  intros HA Hr. assert (I : files_inv w).
  { eapply reachable_inv; [exact Hr|]. apply file_boot_inv; assumption. }
  split; [apply I|].
  intros cur p fd R. split; [apply (do_close_ok w cur p fd I R)|]. split; [apply (do_dup_ok w cur p fd I R)|].
  intros f Ef. destruct (table_file w _ f (fi_table _ I)) as (x & E & _ & Ht); [|eauto].
  pose proof (held_in_elem _ _ _ Ef). pose proof (held_in_le w cur p f R). lia.
Qed.

(** A kernel without sockets, pipes out of pages, the file system of one directory. *)
#[export] Instance no_sockets : SocketOps unit := {
  sk_read s k n := Fault; sk_write s k bytes := Fault; sk_send_to s k bytes addr := Fault; sk_recv_from s k n := Fault; sk_release s k := Fault
}.

#[export] Instance no_sockets_laws : SocketLaws unit.
Proof. split. discriminate. Qed.

Definition pipe_pool : object_pool * Z := (mk_object_pool 720 0 NULL ∅, 0).

Lemma pipe_pool_inv : pool_inv pipe_pool ∅.
Proof.
  split; [|vm_compute; discriminate]. apply (pool_init_ok 720 0); [lia | | reflexivity].
  split; [lia|]. intros p Hp. apply not_elem_of_empty in Hp. destruct Hp.
Qed.

Definition no_devs {A} : Z -> option A := fun _ => None.
Definition demo_files : world unit (object_pool * Z) := file_boot root_fs (fun _ => pipe_init []) pipe_pool tt 0.

(** A pipe, a child that keeps the writing end and writes, the parent reads. *)
Definition demo_calls : list (Z * file_call) :=
  [(0, CPipe (repeat 0 512)); (0, CFork); (1, CClose 0); (0, CClose 1); (0, CDup 0); (1, CWrite 1 [104; 105])].

Example pipe_between_processes :
  match file_run no_devs no_devs demo_files demo_calls with
  | Some w => match do_read no_devs w 0 0 2 with Done (n, bytes, w) => n = 2 /\ bytes = [104; 105] | _ => False end
  | None => False
  end.
Proof. vm_compute. auto. Qed.

Lemma references_are_counted_witness :
  exists w, file_run no_devs no_devs demo_files demo_calls = Some w /\ table_ok w (holders (w_procs w)).
Proof.
  destruct (file_run no_devs no_devs demo_files demo_calls) as [w|] eqn:E; [|vm_compute in E; discriminate E].
  exists w. split; [reflexivity|].
  apply (references_are_counted no_devs no_devs root_fs (fun _ => pipe_init []) pipe_pool tt 0 w pipe_pool_inv (file_run_steps _ _ _ _ _ E)).
Defined.

(** through a descriptor open for reading and writing, what is written at the offset
    of the file is what is read after seeking back to it; the offset ends behind it. *)
Theorem descriptor_write_seek_read {S P} `{HS : SocketLaws S} `{HP : ObjectPool P} dev_read dev_write (w : world S P) cur p fd f x i y src :
  running w cur p -> zget (q_files p) fd = Some (Some f) -> 0 <= fd < MAX_OPEN_FILE ->
  zget (w_files w) f = Some x -> l_type x = TYPE_INODE -> l_readable x = true -> l_writeable x = true -> l_inode x = Some i ->
  zget (f_inodes (w_fs w)) i = Some y -> disk_ok (f_disk (w_fs w)) -> file_wf (f_disk (w_fs w)) y -> i_type y <> I_TYPE_DEV ->
  byte_list src -> 0 < zlen src -> 0 <= l_offset x <= i_size y -> l_offset x + zlen src <= MAX_FILE_SIZE * BSIZE ->
  touched (l_offset x) (zlen src) + reserve y <= free_count (f_disk (w_fs w)) ->
  exists w1 w2 w3, do_write dev_write w cur fd src = Done (zlen src, w1) /\ do_seek w1 cur fd (l_offset x) = Done (0, w2) /\
    do_read dev_read w2 cur fd (zlen src) = Done (zlen src, src, w3) /\
    zget (w_files w3) f = Some (set_offset (l_offset x + zlen src) x) /\ w_fs w3 = w_fs w1.
Proof. apply write_seek_read_ok. Qed.

(** The empty file of [FsDisk.test_disk] open as descriptor 0. *)
Definition open_file : world unit (object_pool * Z) :=
  mk_world (mk_fs test_disk [test_inode]) [file_init TYPE_INODE (Some 0) NULL 0 true true] (fun _ => pipe_init []) pipe_pool tt
    [mk_process 0 (Some 0 :: repeat None 63) false].

Lemma descriptor_write_seek_read_witness : exists w1 w2 w3,
  do_write no_devs open_file 0 0 [104; 105] = Done (2, w1) /\ do_seek w1 0 0 0 = Done (0, w2) /\
  do_read no_devs w2 0 0 2 = Done (2, [104; 105], w3) /\
  zget (w_files w3) 0 = Some (set_offset 2 (file_init TYPE_INODE (Some 0) NULL 0 true true)) /\ w_fs w3 = w_fs w1.
Proof.
  apply (descriptor_write_seek_read no_devs no_devs open_file 0 (mk_process 0 (Some 0 :: repeat None 63) false) 0 0
           (file_init TYPE_INODE (Some 0) NULL 0 true true) 0 test_inode [104; 105]);
    try reflexivity; try (split; reflexivity || discriminate); try discriminate.
  - apply test_disk_ok.
  - apply test_file_wf.
  - repeat constructor; lia.
Defined.
