(* ===== verification/Sched.v ===== *)
(** * Processes and processors (src/src/process.cc, process_mgr.cc, cpu.cc, waitqueue.cc)

    A process is known by its address.  [schedule] is two steps: under the lock of the
    run queue it picks the next process; then the stacks are switched and
    [schedule_tail], already on the stack of the next process, gives the previous one
    free.  Other processors run in between, so a processor is either on a process or
    switching from one to another.  Memory and files of a process are those of [Vm] and
    [Files]; the deletion of a process stands for the pages that
    [release_process] frees. *)
From Stdlib Require Import ZArith ZifyBool Lia.
From stdpp Require Import base option list gmap.
From S2P Require Import Prelude.

Definition KSTACK_SIZE : Z := 8192.

Inductive task_state := PROCESS_ST_RUNNING | PROCESS_ST_SLEEP | PROCESS_ST_ZOMBIE.

#[export] Instance task_state_eq : EqDecision task_state.
Proof. solve_decision. Defined.

(** [siginfo_t] *)
Record siginfo := mk_si { si_sig : Z; si_pid : Z }.

(** [process_t], less memory, files and registers. *)
Record task := mk_task {
  k_pid : Z;
  k_state : task_state;
  k_parent : Z;
  k_children : list Z;
  k_wait_child : list Z;
  k_need_resched : Z;
  k_timeslice : Z;
  k_has_cpu : Z;
  k_sigs : list siginfo;
  k_sig_pending : bool
}.

Definition with_state v (t : task) : task :=
  mk_task (k_pid t) v (k_parent t) (k_children t) (k_wait_child t) (k_need_resched t) (k_timeslice t) (k_has_cpu t) (k_sigs t) (k_sig_pending t).
Definition with_parent v (t : task) : task :=
  mk_task (k_pid t) (k_state t) v (k_children t) (k_wait_child t) (k_need_resched t) (k_timeslice t) (k_has_cpu t) (k_sigs t) (k_sig_pending t).
Definition with_children v (t : task) : task :=
  mk_task (k_pid t) (k_state t) (k_parent t) v (k_wait_child t) (k_need_resched t) (k_timeslice t) (k_has_cpu t) (k_sigs t) (k_sig_pending t).
Definition with_wait v (t : task) : task :=
  mk_task (k_pid t) (k_state t) (k_parent t) (k_children t) v (k_need_resched t) (k_timeslice t) (k_has_cpu t) (k_sigs t) (k_sig_pending t).
Definition with_resched v n (t : task) : task :=
  mk_task (k_pid t) (k_state t) (k_parent t) (k_children t) (k_wait_child t) v n (k_has_cpu t) (k_sigs t) (k_sig_pending t).
Definition with_cpu v (t : task) : task :=
  mk_task (k_pid t) (k_state t) (k_parent t) (k_children t) (k_wait_child t) (k_need_resched t) (k_timeslice t) v (k_sigs t) (k_sig_pending t).
Definition with_sigs v b (t : task) : task :=
  mk_task (k_pid t) (k_state t) (k_parent t) (k_children t) (k_wait_child t) (k_need_resched t) (k_timeslice t) (k_has_cpu t) v b.

(** A processor runs a process, or is between two. *)
Inductive cpu := On (p : Z) | Switching (prev next : Z).

(** [process_mgr_t] and the processors.  The idle process of processor [c] lies at the
    start of its part of [kernel_stack]. *)
Record sched := mk_sched {
  s_tasks : gmap Z task;
  s_next_pid : Z;
  s_reaper : Z;
  s_procs : list Z;
  s_rq : list Z;
  s_cpus : gmap Z cpu;
  s_kstack : Z
}.

Implicit Type s : sched.

Definition set_tasks s m : sched := mk_sched m (s_next_pid s) (s_reaper s) (s_procs s) (s_rq s) (s_cpus s) (s_kstack s).
Definition set_pid s n : sched := mk_sched (s_tasks s) n (s_reaper s) (s_procs s) (s_rq s) (s_cpus s) (s_kstack s).
Definition set_reaper s r : sched := mk_sched (s_tasks s) (s_next_pid s) r (s_procs s) (s_rq s) (s_cpus s) (s_kstack s).
Definition set_procs s l : sched := mk_sched (s_tasks s) (s_next_pid s) (s_reaper s) l (s_rq s) (s_cpus s) (s_kstack s).
Definition set_rq s l : sched := mk_sched (s_tasks s) (s_next_pid s) (s_reaper s) (s_procs s) l (s_cpus s) (s_kstack s).
Definition set_cpu s c x : sched := mk_sched (s_tasks s) (s_next_pid s) (s_reaper s) (s_procs s) (s_rq s) (<[c := x]> (s_cpus s)) (s_kstack s).

Definition idle_of s c : Z := s_kstack s + c * KSTACK_SIZE.

Definition the_task s p : outcome task := deref (s_tasks s !! p).
Definition put_task s p t : sched := set_tasks s (<[p := t]> (s_tasks s)).
Definition change s p (f : task -> task) : outcome sched := let! t := the_task s p in Done (put_task s p (f t)).

(** ** The run queue and the list of processes *)

(** Lists of pointers: the first occurrence, as [find] and [erase] take it. *)
Fixpoint drop_first (p : Z) (l : list Z) : list Z :=
  match l with
  | [] => []
  | x :: r => if x =? p then r else x :: drop_first p r
  end.

Definition in_list (p : Z) (l : list Z) : bool := bool_decide (p ∈ l).

Definition add_process_to_rq s p : sched := if in_list p (s_rq s) then s else set_rq s (p :: s_rq s).

Definition remove_process_from_rq s p : outcome sched :=
  if in_list p (s_rq s) then Done (set_rq s (drop_first p (s_rq s))) else Panic.

Definition add_process_to_list s p : sched := set_procs s (s_procs s ++ [p]).

Fixpoint find_in s (l : list Z) (pid : Z) : outcome (option Z) :=
  match l with
  | [] => Done None
  | p :: r => let! t := the_task s p in if k_pid t =? pid then Done (Some p) else find_in s r pid
  end.

Definition find_process s pid : outcome (option Z) := find_in s (s_procs s) pid.

(** [wake_up_process], [process_t::set_state] *)
Definition wake_up_process s p : outcome sched :=
  let! s := change s p (with_state PROCESS_ST_RUNNING) in Done (add_process_to_rq s p).

(** The loop ends after at most as many rounds as there are processes, plus one:
    [next_pid_search]. *)
Fixpoint next_pid_loop (fuel : nat) s : outcome (Z * sched) :=
  match fuel with
  | O => Blocked
  | S k =>
      let pid := s_next_pid s in
      let s := set_pid s (u32 (pid + 1)) in
      let! r := find_process s pid in
      match r with None => Done (pid, s) | Some _ => next_pid_loop k s end
  end.

Definition get_next_pid s : outcome (Z * sched) := next_pid_loop (S (length (s_procs s))) s.

(** [*get_boot_processor()->get_idle()->m_children.begin()] *)
Definition get_child_reaper s : outcome (Z * sched) :=
  if s_reaper s =? NULL then
    let! t := the_task s (idle_of s 0) in
    let! r := deref (head (k_children t)) in Done (r, set_reaper s r)
  else Done (s_reaper s, s).

(** The caller spins while another processor is still on the process. *)
Definition release_process s p : outcome sched :=
  let! t := the_task s p in
  if negb (k_has_cpu t =? 0) then Blocked
  else Done (set_tasks (set_procs s (drop_first p (s_procs s))) (delete p (s_tasks s))).

Definition send_signal_to s (cur pid sig : Z) : outcome (Z * sched) :=
  let! me := the_task s cur in
  let! r := find_process s pid in
  match r with
  | None => Done (0, s)
  | Some p =>
      let! t := the_task s p in
      Done (0, put_task s p (with_sigs (k_sigs t ++ [mk_si sig (k_pid me)]) true t))
  end.

(** ** Wait queues: [wake_up] wakes the first process and leaves it in the queue *)

Definition wait_add s (owner p : Z) : outcome sched :=
  let! t := the_task s owner in Done (put_task s owner (with_wait (k_wait_child t ++ [p]) t)).
Definition wait_remove s (owner p : Z) : outcome sched :=
  let! t := the_task s owner in Done (put_task s owner (with_wait (drop_first p (k_wait_child t)) t)).
Definition wait_wake_up s (owner : Z) : outcome sched :=
  let! t := the_task s owner in
  match k_wait_child t with
  | [] => Done s
  | p :: _ => wake_up_process s p
  end.

(** ** The processors *)

(** The first process of the run queue that may run, with what is before and behind it. *)
Fixpoint find_next s (before rq : list Z) : outcome (option (list Z * Z * list Z)) :=
  match rq with
  | [] => Done None
  | p :: r =>
      let! t := the_task s p in
      if bool_decide (k_state t = PROCESS_ST_RUNNING) && (k_has_cpu t =? 0) then Done (Some (before, p, r))
      else find_next s (before ++ [p]) r
  end.

(** [prev->m_pid != 0 && prev->m_state == PROCESS_ST_RUNNING]: back to the end of the queue. *)
Definition requeue s (prev : Z) : outcome sched :=
  let! t := the_task s prev in
  if negb (k_pid t =? 0) && bool_decide (k_state t = PROCESS_ST_RUNNING) && negb (in_list prev (s_rq s))
  then Done (set_rq s (s_rq s ++ [prev])) else Done s.

Definition schedule s c : outcome sched :=
  let! x := deref (s_cpus s !! c) in
  match x with
  | Switching _ _ => Fault
  | On prev =>
      let! found := find_next s [] (s_rq s) in
      let! ' (next, s) :=
        match found with
        | None => Done (idle_of s c, s)
        | Some (a, p, b) => if p =? prev then Panic else Done (p, set_rq s (a ++ b))
        end in
      let! t := the_task s prev in
      let s := put_task s prev (with_resched 0 (k_timeslice t) t) in
      if next =? prev then Done s
      else
        let! s := requeue s prev in
        let! s := change s next (with_cpu 1) in
        Done (set_cpu s c (Switching prev next))
  end.

(** [switch_to] is over. *)
Definition schedule_tail s c : outcome sched :=
  let! x := deref (s_cpus s !! c) in
  match x with
  | On _ => Fault
  | Switching prev next => let! s := change s prev (with_cpu 0) in Done (set_cpu s c (On next))
  end.

(** [cpu_t::update], at a tick of the clock. *)
Definition cpu_update s c : outcome sched :=
  let! x := deref (s_cpus s !! c) in
  match x with
  | Switching _ _ => Fault
  | On p =>
      let! t := the_task s p in
      let n := u32 (k_timeslice t - 1) in
      Done (put_task s p (if n =? 0 then with_resched 1 2 t else with_resched (k_need_resched t) n t))
  end.

(** ** Life of a process *)

(** The child as [fork] leaves it.  The queue of signals goes with the copy; it is
    the parent's that is made empty. *)
Definition child_of (cur pid : Z) (t : task) : task :=
  mk_task pid PROCESS_ST_RUNNING cur [] [] 0 2 0 (k_sigs t) (k_sig_pending t).

(** [p] is the memory that [alloc_pages] gave. *)
Definition fork s (cur p : Z) : outcome (Z * sched) :=
  if p =? NULL then Done (NULL, s)
  else
    let! t := the_task s cur in
    let! s := change s cur (with_sigs [] (k_sig_pending t)) in
    let! ' (pid, s) := get_next_pid s in
    let s := put_task s p (child_of cur pid t) in
    let s := add_process_to_list (add_process_to_rq s p) p in
    let! s := change s cur (fun t => with_children (k_children t ++ [p]) t) in
    Done (p, s).

Fixpoint set_parents s (l : list Z) (r : Z) : outcome sched :=
  match l with
  | [] => Done s
  | p :: l => let! s := change s p (with_parent r) in set_parents s l r
  end.

Definition adope_children s cur : outcome sched :=
  let! ' (r, s) := get_child_reaper s in
  let! t := the_task s cur in set_parents s (k_children t) r.

Definition notify_parent s cur : outcome sched := let! t := the_task s cur in wait_wake_up s (k_parent t).

(** [exit], up to the call of [schedule]. *)
Definition exit_process s cur : outcome sched :=
  let! s := adope_children s cur in
  let! s := change s cur (with_state PROCESS_ST_ZOMBIE) in
  notify_parent s cur.

(** The loop of [wait_children] over the children: whether one with that number was seen, and
    the first such that has exited. *)
Fixpoint wait_scan s (l : list Z) (pid : Z) (flag : bool) : outcome (bool * option Z) :=
  match l with
  | [] => Done (flag, None)
  | p :: r =>
      let! t := the_task s p in
      if negb (pid =? -1) && negb (u32 pid =? k_pid t) then wait_scan s r pid flag
      else if negb (bool_decide (k_state t = PROCESS_ST_ZOMBIE)) then wait_scan s r pid true
      else Done (true, Some p)
  end.

(** From [repeat:] on; [true] when the process has to call [schedule] and try again. *)
Definition wait_round s (cur pid : Z) : outcome (bool * sched) :=
  let! s := change s cur (with_state PROCESS_ST_SLEEP) in
  let! t := the_task s cur in
  let! ' (flag, z) := wait_scan s (k_children t) pid false in
  let! ' (again, s) :=
    match z with
    | Some p => let! s := release_process s p in Done (false, s)
    | None => Done (flag, s)
    end in
  if again : bool then Done (true, s)
  else
    let! s := change s cur (with_state PROCESS_ST_RUNNING) in
    let! s := wait_remove s cur cur in Done (false, s).

(** [wait_children]: its start and the first round. *)
Definition wait_children s (cur pid : Z) : outcome (bool * sched) :=
  let! s := wait_add s cur cur in wait_round s cur pid.

(** ** The system as steps

    Any processor may act at any time.  Idle processes neither sleep nor exit nor wait:
    they only call [schedule], and the first one forks. *)
Definition is_idle s (p : Z) : Prop := map_Exists (fun c _ => p = idle_of s c) (s_cpus s).

Inductive sched_step s : sched -> Prop :=
| Step_schedule c s' : schedule s c = Done s' -> sched_step s s'
| Step_tail c s' : schedule_tail s c = Done s' -> sched_step s s'
| Step_tick c s' : cpu_update s c = Done s' -> sched_step s s'
| Step_wake p s' : ~ is_idle s p -> wake_up_process s p = Done s' -> sched_step s s'
| Step_sleep c p s' : s_cpus s !! c = Some (On p) -> ~ is_idle s p -> change s p (with_state PROCESS_ST_SLEEP) = Done s' -> sched_step s s'
| Step_fork c p a t s' : s_cpus s !! c = Some (On p) -> s_tasks s !! a = None -> ~ is_idle s a -> fork s p a = Done (a, s') ->
    s_tasks s' !! a = Some t -> k_pid t <> 0 -> sched_step s s'
| Step_exit c p s' : s_cpus s !! c = Some (On p) -> ~ is_idle s p -> exit_process s p = Done s' -> sched_step s s'
| Step_wait c p pid b s' : s_cpus s !! c = Some (On p) -> ~ is_idle s p -> wait_children s p pid = Done (b, s') -> sched_step s s'
| Step_wait_again c p pid b s' : s_cpus s !! c = Some (On p) -> ~ is_idle s p -> wait_round s p pid = Done (b, s') -> sched_step s s'
| Step_signal c p pid sig r s' : s_cpus s !! c = Some (On p) -> send_signal_to s p pid sig = Done (r, s') -> sched_step s s'.

(** The processes a processor is on, or is leaving. *)
Definition on s (p c : Z) : Prop := exists x, s_cpus s !! c = Some x /\ match x with On q => q = p | Switching _ q => q = p end.
Definition occ s (p c : Z) : Prop :=
  exists x, s_cpus s !! c = Some x /\ match x with On q => q = p | Switching q r => q = p \/ r = p end.

Record sched_ok s : Prop := {
  so_nodup : NoDup (s_rq s);
  so_rq p : p ∈ s_rq s -> ~ is_idle s p;
  so_excl p c1 c2 : occ s p c1 -> occ s p c2 -> c1 = c2;
  so_switch c p q : s_cpus s !! c = Some (Switching p q) -> p <> q;
  so_own c c' : is_Some (s_cpus s !! c') -> occ s (idle_of s c') c -> c' = c;
  so_alive p c : occ s p c -> is_Some (s_tasks s !! p);
  so_idle c : is_Some (s_cpus s !! c) -> is_Some (s_tasks s !! idle_of s c);
  so_pid p t : s_tasks s !! p = Some t -> k_pid t = 0 <-> is_idle s p;
  so_free p t : s_tasks s !! p = Some t -> ~ is_idle s p -> k_has_cpu t = 0 <-> forall c, ~ occ s p c;
  so_ready p t : s_tasks s !! p = Some t -> ~ is_idle s p -> k_state t = PROCESS_ST_RUNNING -> p ∈ s_rq s \/ exists c, on s p c;
  so_wait p t q : s_tasks s !! p = Some t -> q ∈ k_wait_child t -> q = p /\ ~ is_idle s p;
  so_child p t q : s_tasks s !! p = Some t -> q ∈ k_children t -> ~ is_idle s q
}.

Lemma is_idle_of s c : is_Some (s_cpus s !! c) -> is_idle s (idle_of s c).
Proof. intros [x E]. exists c, x. auto. Qed.

#[export] Instance is_idle_dec s p : Decision (is_idle s p).
Proof. unfold is_idle. apply _. Defined.

Lemma on_occ s p c : on s p c -> occ s p c.
Proof. intros ([q|q r] & E & H); exists (match s_cpus s !! c with Some x => x | None => On 0 end); rewrite E; auto. Qed.

(** A process changes in ways that the scheduler does not see. *)
Lemma put_task_ok s p t t' : sched_ok s -> s_tasks s !! p = Some t -> k_pid t' = k_pid t -> k_has_cpu t' = k_has_cpu t ->
  (k_state t' = PROCESS_ST_RUNNING -> ~ is_idle s p -> p ∈ s_rq s \/ exists c, on s p c) ->
  (forall q, q ∈ k_wait_child t' -> q = p /\ ~ is_idle s p) -> (forall q, q ∈ k_children t' -> ~ is_idle s q) ->
  sched_ok (put_task s p t').
Proof.
  intros O E Ep Eh Hr Hw Hc.
  assert (L : forall q x, s_tasks (put_task s p t') !! q = Some x -> (q = p /\ x = t') \/ (q <> p /\ s_tasks s !! q = Some x)).
  { intros q x. cbn. rewrite lookup_insert_Some. naive_solver. }
  assert (A : forall q, is_Some (s_tasks s !! q) -> is_Some (s_tasks (put_task s p t') !! q)) by (intros q Hq; cbn; apply lookup_insert_is_Some'; auto).
  destruct O as [O1 O2 O3 O4 O5 O6 O7 O8 O9 O10 O11 O12]. split; auto.
  - intros q c Hq. apply A. eapply O6. exact Hq.
  - intros c Hc'. apply A. apply O7. exact Hc'.
  - intros q x Hq. destruct (L q x Hq) as [[-> ->] | [_ Hq']]; [rewrite Ep; apply (O8 p t E) | apply (O8 q x Hq')].
  - intros q x Hq Hi. destruct (L q x Hq) as [[-> ->] | [_ Hq']]; [rewrite Eh; apply (O9 p t E Hi) | apply (O9 q x Hq' Hi)].
  - intros q x Hq Hi Hs. destruct (L q x Hq) as [[-> ->] | [_ Hq']]; [exact (Hr Hs Hi) | apply (O10 q x Hq' Hi Hs)].
  - intros q x r Hq Hr'. destruct (L q x Hq) as [[-> ->] | [_ Hq']]; [exact (Hw r Hr') | apply (O11 q x r Hq' Hr')].
  - intros q x r Hq Hr'. destruct (L q x Hq) as [[-> ->] | [_ Hq']]; [exact (Hc r Hr') | apply (O12 q x r Hq' Hr')].
Qed.

(** A process joins the run queue. *)
Lemma join_rq_ok s l p : sched_ok s -> ~ is_idle s p -> p ∉ s_rq s -> l = p :: s_rq s \/ l = s_rq s ++ [p] -> sched_ok (set_rq s l).
Proof.
  intros [O1 O2 O3 O4 O5 O6 O7 O8 O9 O10 O11 O12] Hi Hn Hl.
  assert (Hin : forall q, q ∈ l <-> q = p \/ q ∈ s_rq s) by (destruct Hl as [-> | ->]; set_solver).
  split; auto.
  - destruct Hl as [-> | ->]; cbn; [constructor; auto | apply NoDup_app; repeat split; auto; [set_solver | apply NoDup_singleton]].
  - cbn. intros q Hq. apply Hin in Hq as [-> | Hq]; [exact Hi | apply O2, Hq].
  - intros q t Hq Hi' Hs. destruct (O10 q t Hq Hi' Hs) as [Hr | Hr]; [left; apply Hin; auto | right; exact Hr].
Qed.

Lemma wake_up_ok s p s' : sched_ok s -> ~ is_idle s p -> wake_up_process s p = Done s' -> sched_ok s'.
Proof.
  intros O Hi. unfold wake_up_process, change, the_task. destruct (s_tasks s !! p) as [t|] eqn:E; cbn [deref obind]; [|discriminate]. intros [= <-].
  unfold add_process_to_rq, in_list. cbn [put_task set_tasks s_rq]. case_bool_decide as Hp.
  - apply (put_task_ok s p t); auto; [intros q; apply (so_wait _ O p t q E) | intros q; apply (so_child _ O p t q E)].
  - apply (put_task_ok (set_rq s (p :: s_rq s)) p t); auto.
    + apply (join_rq_ok s _ p); auto.
    + intros _ _. left. cbn. left.
    + intros q. apply (so_wait _ O p t q E).
    + intros q. apply (so_child _ O p t q E).
Qed.

(** The processors stay the same, and so do their idle processes. *)
Lemma idle_same s s' c x : s_cpus s' = <[c := x]> (s_cpus s) -> s_kstack s' = s_kstack s -> is_Some (s_cpus s !! c) ->
  (forall c', is_Some (s_cpus s' !! c') <-> is_Some (s_cpus s !! c')) /\ (forall p, is_idle s' p <-> is_idle s p).
Proof.
  intros Ec Ek Hc.
  assert (Dm : forall c', is_Some (s_cpus s' !! c') <-> is_Some (s_cpus s !! c')) by (intros c'; rewrite Ec, lookup_insert_is_Some'; naive_solver).
  assert (Ei : forall c', idle_of s' c' = idle_of s c') by (intros; unfold idle_of; rewrite Ek; reflexivity).
  split; [exact Dm|]. intros p. unfold is_idle, map_Exists. setoid_rewrite Ei.
  split; intros (c' & y & Hy & ->); [destruct (proj1 (Dm c')) as [z Hz] | destruct (proj2 (Dm c')) as [z Hz]]; eauto.
Qed.

(** A processor leaves [prev] for [next], which no processor is on. *)
Lemma start_ok s c prev next t l : sched_ok s -> s_cpus s !! c = Some (On prev) -> next <> prev -> s_tasks s !! next = Some t ->
  (forall c', ~ occ s next c') -> (forall p t, p = prev -> s_tasks s !! p = Some t -> k_state t = PROCESS_ST_RUNNING -> is_idle s p \/ p ∈ s_rq s) ->
  (forall c', is_Some (s_cpus s !! c') -> next = idle_of s c' -> c' = c) ->
  NoDup l -> (forall p, p ∈ l -> p ∈ s_rq s) -> (forall p, p ∈ s_rq s -> p = next \/ p ∈ l) ->
  sched_ok (set_cpu (put_task (set_rq s l) next (with_cpu 1 t)) c (Switching prev next)).
Proof.
  intros O Ec Hne Et Hfree Hprev Hown Nd Hl1 Hl2. destruct O as [O1 O2 O3 O4 O5 O6 O7 O8 O9 O10 O11 O12].
  set (s' := set_cpu _ _ _).
  assert (Cp : forall c' x, s_cpus s' !! c' = Some x <-> (c' = c /\ x = Switching prev next) \/ (c' <> c /\ s_cpus s !! c' = Some x)).
  { intros c' x. cbn. rewrite lookup_insert_Some. naive_solver. }
  destruct (idle_same s s' c (Switching prev next)) as [Dm Id]; [reflexivity | reflexivity | eauto |].
  assert (Oc : forall p c', occ s' p c' <-> occ s p c' \/ (p = next /\ c' = c)).
  { intros p c'. unfold occ. setoid_rewrite Cp. split.
    - intros (x & [[-> ->] | [N Hx]] & H); [destruct H as [-> | ->]; [left; exists (On p); auto | auto] | left; eauto].
    - intros [(x & Hx & H) | [-> ->]]; [|exists (Switching prev next); auto].
      destruct (decide (c' = c)) as [-> | N]; [|eauto]. rewrite Ec in Hx. injection Hx as <-. subst p. exists (Switching prev next). auto. }
  assert (Tk : forall p x, s_tasks s' !! p = Some x -> (p = next /\ x = with_cpu 1 t) \/ (p <> next /\ s_tasks s !! p = Some x)).
  { intros p x. cbn. rewrite lookup_insert_Some. naive_solver. }
  assert (Al : forall p, is_Some (s_tasks s !! p) -> is_Some (s_tasks s' !! p)) by (intros p Hp; cbn; apply lookup_insert_is_Some'; auto).
  split.
  - exact Nd.
  - intros p Hp. rewrite Id. apply O2, Hl1, Hp.
  - intros p c1 c2 H1 H2. apply Oc in H1 as [H1 | [-> ->]], H2 as [H2 | [Hp ->]]; try subst p; eauto; exfalso; eapply Hfree; eauto.
  - intros c' p q Hx. apply Cp in Hx as [[-> [= -> ->]] | [_ Hx]]; [auto | eauto].
  - intros c' c'' Hs Ho. apply Dm in Hs. change (idle_of s' c'') with (idle_of s c'') in Ho. apply Oc in Ho as [Ho | [Hi ->]]; [eauto | auto].
  - intros p c' Ho. apply Al. apply Oc in Ho as [Ho | [-> ->]]; eauto.
  - intros c' Hs. apply Al, O7, Dm, Hs.
  - intros p x Hp. rewrite Id. apply Tk in Hp as [[-> ->] | [_ Hp]]; [apply (O8 _ _ Et) | apply (O8 _ _ Hp)].
  - intros p x Hp Hi. rewrite Id in Hi. setoid_rewrite Oc. apply Tk in Hp as [[-> ->] | [N Hp]]; cbn.
    + split; [discriminate | intros H; exfalso; apply (H c); auto].
    + rewrite (O9 _ _ Hp Hi). split; intros H c'; [intros [Ho | [? _]]; [eapply H; eauto | congruence] | intros Ho; apply (H c'); auto].
  - intros p x Hp Hi Hs. rewrite Id in Hi. destruct (decide (p = next)) as [-> | N]; [right; exists c, (Switching prev next); rewrite Cp; auto|].
    apply Tk in Hp as [[? _] | [_ Hp]]; [congruence|]. destruct (O10 _ _ Hp Hi Hs) as [Hr | (c' & x' & Hx & Ho)].
    + left. destruct (Hl2 _ Hr) as [? | ?]; [congruence | assumption].
    + destruct (decide (c' = c)) as [-> | Nc]; [|right; exists c', x'; rewrite Cp; auto].
      rewrite Ec in Hx. injection Hx as <-. subst p. destruct (Hprev prev x eq_refl Hp Hs) as [? | Hr]; [tauto|]. left. destruct (Hl2 _ Hr) as [? | ?]; [congruence | assumption].
  - intros p x q Hp Hq. rewrite Id. apply Tk in Hp as [[-> ->] | [_ Hp]]; [apply (O11 _ _ _ Et Hq) | apply (O11 _ _ _ Hp Hq)].
  - intros p x q Hp Hq. rewrite Id. apply Tk in Hp as [[-> ->] | [_ Hp]]; [apply (O12 _ _ _ Et Hq) | apply (O12 _ _ _ Hp Hq)].
Qed.

(** The switch is over. *)
Lemma schedule_tail_ok s c s' : sched_ok s -> schedule_tail s c = Done s' -> sched_ok s'.
Proof.
  intros O. unfold schedule_tail, change, the_task. destruct (s_cpus s !! c) as [[q|prev next]|] eqn:Ec; cbn [deref obind]; try discriminate.
  destruct (s_tasks s !! prev) as [t|] eqn:Et; cbn [deref obind]; [|discriminate]. intros [= <-].
  destruct O as [O1 O2 O3 O4 O5 O6 O7 O8 O9 O10 O11 O12]. set (s' := set_cpu _ _ _). pose proof (O4 _ _ _ Ec) as Hne.
  assert (Cp : forall c' x, s_cpus s' !! c' = Some x <-> (c' = c /\ x = On next) \/ (c' <> c /\ s_cpus s !! c' = Some x)).
  { intros c' x. cbn. rewrite lookup_insert_Some. naive_solver. }
  destruct (idle_same s s' c (On next)) as [Dm Id]; [reflexivity | reflexivity | eauto |].
  assert (Pv : forall c', occ s prev c' -> c' = c) by (intros c' Ho; apply (O3 prev); [exact Ho | exists (Switching prev next); auto]).
  assert (Oc : forall p c', occ s' p c' <-> occ s p c' /\ p <> prev).
  { intros p c'. unfold occ at 1. setoid_rewrite Cp. split.
    - intros (x & [[-> ->] | [N Hx]] & H); [subst p; split; [exists (Switching prev next); auto | auto]|].
      assert (Ho : occ s p c') by (exists x; auto). split; [exact Ho|]. intros ->. exact (N (Pv _ Ho)).
    - intros [(x & Hx & H) Hp]. destruct (decide (c' = c)) as [-> | N]; [|eauto]. rewrite Ec in Hx. injection Hx as <-. destruct H as [? | ->]; [congruence|]. exists (On p). auto. }
  assert (Tk : forall p x, s_tasks s' !! p = Some x -> (p = prev /\ x = with_cpu 0 t) \/ (p <> prev /\ s_tasks s !! p = Some x)).
  { intros p x. cbn. rewrite lookup_insert_Some. naive_solver. }
  assert (Al : forall p, is_Some (s_tasks s !! p) -> is_Some (s_tasks s' !! p)) by (intros p Hp; cbn; apply lookup_insert_is_Some'; auto).
  split.
  - exact O1.
  - intros p Hp. rewrite Id. apply O2, Hp.
  - intros p c1 c2 H1 H2. apply Oc in H1 as [H1 _], H2 as [H2 _]. eauto.
  - intros c' p q Hx. apply Cp in Hx as [[_ [=]] | [_ Hx]]. eauto.
  - intros c' c'' Hs Ho. apply Dm in Hs. change (idle_of s' c'') with (idle_of s c'') in Ho. apply Oc in Ho as [Ho _]. eauto.
  - intros p c' Ho. apply Al. apply Oc in Ho as [Ho _]. eauto.
  - intros c' Hs. apply Al, O7, Dm, Hs.
  - intros p x Hp. rewrite Id. apply Tk in Hp as [[-> ->] | [_ Hp]]; [apply (O8 _ _ Et) | apply (O8 _ _ Hp)].
  - intros p x Hp Hi. rewrite Id in Hi. setoid_rewrite Oc. apply Tk in Hp as [[-> ->] | [N Hp]]; cbn.
    + split; [intros _ c' [_ ?]; congruence | reflexivity].
    + rewrite (O9 _ _ Hp Hi). split; intros H c'; [intros [Ho _]; eapply H; eauto | intros Ho; apply (H c'); auto].
  - intros p x Hp Hi Hs. rewrite Id in Hi.
    assert (Hs' : exists y, s_tasks s !! p = Some y /\ k_state y = PROCESS_ST_RUNNING) by (apply Tk in Hp as [[-> ->] | [_ Hp]]; eauto).
    destruct Hs' as (y & Hy & Hsy). destruct (O10 _ _ Hy Hi Hsy) as [Hr | (c' & z & Hz & Ho)]; [left; exact Hr|]. right.
    destruct (decide (c' = c)) as [-> | Nc]; [|exists c', z; rewrite Cp; auto]. rewrite Ec in Hz. injection Hz as <-. subst p.
    exists c, (On next). rewrite Cp. auto.
  - intros p x q Hp Hq. rewrite Id. apply Tk in Hp as [[-> ->] | [_ Hp]]; [apply (O11 _ _ _ Et Hq) | apply (O11 _ _ _ Hp Hq)].
  - intros p x q Hp Hq. rewrite Id. apply Tk in Hp as [[-> ->] | [_ Hp]]; [apply (O12 _ _ _ Et Hq) | apply (O12 _ _ _ Hp Hq)].
Qed.

Lemma find_next_ok s rq : forall before r, find_next s before rq = Done r ->
  match r with
  | Some (a, p, b) => before ++ rq = a ++ p :: b /\ exists t, s_tasks s !! p = Some t /\ k_state t = PROCESS_ST_RUNNING /\ k_has_cpu t = 0
  | None => True
  end.
Proof.
  induction rq as [|p rq IH]; intros before r; cbn [find_next]; [intros [= <-]; exact I|].
  unfold the_task. destruct (s_tasks s !! p) as [t|] eqn:E; cbn [deref obind]; [|discriminate].
  destruct (bool_decide _ && _) eqn:Ht.
  - intros [= <-]. tests. apply bool_decide_eq_true in H. split; [reflexivity | eauto].
  - intros Hr. apply IH in Hr. destruct r as [[[a q] b]|]; [|exact I]. rewrite <- app_assoc in Hr. exact Hr.
Qed.

(** [schedule] keeps the system in order and does not find the process it leaves. *)
Definition keeps (r : outcome sched) : Prop := r <> Panic /\ forall s', r = Done s' -> sched_ok s'.

Lemma keeps_done s : sched_ok s -> keeps (Done s).
Proof. intros O. split; [discriminate | intros s' [= <-]; exact O]. Qed.

Lemma schedule_ok s c : sched_ok s -> keeps (schedule s c).
Proof.
  intros O. unfold schedule. destruct (s_cpus s !! c) as [[prev|]|] eqn:Ec; cbn [deref obind]; try (split; discriminate).
  assert (Occ : occ s prev c) by (exists (On prev); auto). destruct (so_alive _ O _ _ Occ) as [t Et].
  destruct (find_next s [] (s_rq s)) as [found| | |] eqn:Ef; cbn [obind]; try (split; discriminate).
  2: { exfalso. clear -Ef. revert Ef. generalize (@nil Z). induction (s_rq s) as [|p l IH]; intros a; cbn; [discriminate|].
       unfold the_task. destruct (s_tasks s !! p); cbn; [|discriminate]. destruct (_ && _); [discriminate | apply IH]. }
  apply find_next_ok in Ef. set (s1 := put_task s prev (with_resched 0 (k_timeslice t) t)).
  assert (O1 : sched_ok s1).
  { apply (put_task_ok s prev t); auto; [|intros q; apply (so_wait _ O prev t q Et) | intros q; apply (so_child _ O prev t q Et)].
    intros Hs Hi. right. exists c, (On prev). auto. }
  (* the queue with [prev] put back, before [next] is taken out *)
  set (keep := negb (k_pid t =? 0) && bool_decide (k_state t = PROCESS_ST_RUNNING) && negb (in_list prev (s_rq s))).
  set (s2 := if keep then set_rq s1 (s_rq s ++ [prev]) else s1).
  assert (Hk : keep = true -> ~ is_idle s prev /\ prev ∉ s_rq s).
  { unfold keep. intros K. tests. rewrite <- (so_pid _ O _ _ Et). split; [lia|]. unfold in_list in H0. apply bool_decide_eq_false in H0. exact H0. }
  assert (O2 : sched_ok s2).
  { unfold s2. destruct keep; [|exact O1]. destruct (Hk eq_refl) as [Hi Hn]. apply (join_rq_ok s1 _ prev); auto. }
  assert (Hprev : forall p x, p = prev -> s_tasks s2 !! p = Some x -> k_state x = PROCESS_ST_RUNNING -> is_idle s2 p \/ p ∈ s_rq s2).
  { intros p x -> Hx Hs. assert (x = with_resched 0 (k_timeslice t) t) as ->.
    { unfold s2, s1 in Hx. destruct keep; cbn in Hx; rewrite lookup_insert_eq in Hx; congruence. }
    destruct (decide (k_pid t = 0)) as [Hp | Hp].
    - left. destruct (so_pid _ O prev t Et) as [Hid _]. unfold s2. destruct keep; exact (Hid Hp).
    - right. cbn in Hs. assert (Ek : keep = negb (in_list prev (s_rq s))).
      { unfold keep. rewrite bool_decide_eq_true_2 by exact Hs. replace (k_pid t =? 0) with false by lia. reflexivity. }
      unfold s2. rewrite Ek. unfold in_list. case_bool_decide; cbn; set_solver. }
  assert (Ec2 : s_cpus s2 !! c = Some (On prev)) by (unfold s2; destruct keep; exact Ec).
  assert (Hocc : forall p c', occ s2 p c' <-> occ s p c') by (intros; unfold s2; destruct keep; reflexivity).
  assert (Hidl : forall c', idle_of s2 c' = idle_of s c') by (intros; unfold s2; destruct keep; reflexivity).
  (* [requeue] on the queue that is left *)
  assert (Rq : forall l, (prev ∈ l <-> prev ∈ s_rq s) -> requeue (set_rq s1 l) prev = Done (set_rq s2 (if keep then l ++ [prev] else l))).
  { intros l Hl. unfold requeue, the_task. cbn [s1 set_rq put_task set_tasks s_tasks s_rq]. rewrite lookup_insert_eq. cbn [deref obind k_pid k_state with_resched].
    replace (in_list prev l) with (in_list prev (s_rq s)) by (unfold in_list; apply bool_decide_ext; tauto). fold keep. unfold s2. destruct keep; reflexivity. }
  destruct found as [[[a p] b]|].
  - destruct Ef as (El & tp & Etp & Hrun & Hcpu). cbn [app] in El.
    assert (Hin : p ∈ s_rq s) by (rewrite El; set_solver). assert (Hi : ~ is_idle s p) by (apply (so_rq _ O), Hin).
    assert (Hno : forall c', ~ occ s p c') by (apply (so_free _ O p tp Etp Hi), Hcpu).
    assert (Hne : p <> prev) by (intros ->; exact (Hno c Occ)). replace (p =? prev) with false by lia. cbn [obind].
    unfold the_task at 1. cbn [set_rq s_tasks]. rewrite Et. cbn [deref obind]. replace (p =? prev) with false by lia.
    change (put_task (set_rq s (a ++ b)) prev (with_resched 0 (k_timeslice t) t)) with (set_rq s1 (a ++ b)).
    rewrite (Rq (a ++ b)) by (rewrite El; set_solver). cbn [obind].
    assert (Etp2 : s_tasks s2 !! p = Some tp) by (unfold s2, s1; destruct keep; cbn; rewrite lookup_insert_ne by auto; exact Etp).
    unfold change, the_task. cbn [set_rq s_tasks]. rewrite Etp2. cbn [deref obind]. apply keeps_done.
    assert (R2 : s_rq s2 = a ++ p :: b ++ (if keep then [prev] else [])).
    { unfold s2. destruct keep; cbn; rewrite El, <- ?app_assoc, ?app_nil_r; reflexivity. }
    replace (if keep then (a ++ b) ++ [prev] else a ++ b) with (a ++ b ++ (if keep then [prev] else []))
      by (destruct keep; rewrite ?app_nil_r, <- ?app_assoc; reflexivity).
    pose proof (so_nodup _ O2) as Nd. rewrite R2 in Nd. apply NoDup_app in Nd as (N1 & N2 & N3). apply NoDup_cons in N3 as [N3 N4].
    apply (start_ok s2 c prev p tp); auto.
    + intros c' Ho. apply Hocc in Ho. exact (Hno c' Ho).
    + intros c' Hs Hp. exfalso. apply Hi. rewrite Hp, Hidl. apply is_idle_of. unfold s2 in Hs. destruct keep; exact Hs.
    + apply NoDup_app. repeat split; auto. set_solver.
    + rewrite R2. set_solver.
    + rewrite R2. set_solver.
  - cbn [obind]. unfold the_task at 1. rewrite Et. cbn [deref obind]. fold s1.
    destruct (idle_of s c =? prev) eqn:Hp; tests; [apply keeps_done, O1|].
    change (requeue s1 prev) with (requeue (set_rq s1 (s_rq s)) prev). rewrite (Rq (s_rq s)) by tauto. cbn [obind].
    destruct (so_idle _ O2 c) as [ti Eti]; [eauto|]. rewrite Hidl in Eti.
    unfold change, the_task. cbn [set_rq s_tasks]. rewrite Eti. cbn [deref obind]. apply keeps_done.
    replace (if keep then s_rq s ++ [prev] else s_rq s) with (s_rq s2) by (unfold s2; destruct keep; reflexivity).
    apply (start_ok s2 c prev (idle_of s c) ti); auto.
    + intros c' Ho. apply Hocc in Ho. assert (c = c') as <- by (apply (so_own _ O); eauto). assert (idle_of s c = prev); [|congruence].
      destruct Ho as (x & Hx & Hm). rewrite Ec in Hx. injection Hx as <-. auto.
    + intros c' Hs Hp'. rewrite Hidl in Hp'. unfold idle_of, KSTACK_SIZE in Hp'. lia.
    + apply O2.
Qed.

(** ** The other steps *)

Lemma sched_frame s s' : sched_ok s -> s_tasks s' = s_tasks s -> s_rq s' = s_rq s -> s_cpus s' = s_cpus s -> s_kstack s' = s_kstack s -> sched_ok s'.
Proof.
  intros O Et Er Ec Ek. destruct s as [m n r l q cs k], s' as [m' n' r' l' q' cs' k']. cbn in *. subst.
  destruct O as [O1 O2 O3 O4 O5 O6 O7 O8 O9 O10 O11 O12]. split; assumption.
Qed.

(** Changes of a process that leave state, number, processor, children and waiters alone,
    or put it to sleep. *)
Lemma change_ok s p f s' : sched_ok s -> change s p f = Done s' ->
  (forall t, s_tasks s !! p = Some t -> k_pid (f t) = k_pid t /\ k_has_cpu (f t) = k_has_cpu t /\ k_wait_child (f t) = k_wait_child t /\
    (k_state (f t) = k_state t \/ k_state (f t) <> PROCESS_ST_RUNNING \/ exists c, on s p c) /\
    forall q, q ∈ k_children (f t) -> q ∈ k_children t \/ ~ is_idle s q) ->
  sched_ok s' /\ s_cpus s' = s_cpus s /\ s_kstack s' = s_kstack s /\ s_rq s' = s_rq s.
Proof.
  intros O. unfold change, the_task. destruct (s_tasks s !! p) as [t|] eqn:E; cbn [deref obind]; [|discriminate]. intros [= <-] Hf.
  destruct (Hf t eq_refl) as (H1 & H2 & H3 & H4 & H5). split; [|auto]. apply (put_task_ok s p t); auto.
  - intros Hs Hi. destruct H4 as [H4 | [H4 | H4]]; [|congruence | auto]. apply (so_ready _ O p t E Hi). congruence.
  - intros q Hq. rewrite H3 in Hq. exact (so_wait _ O p t q E Hq).
  - intros q Hq. destruct (H5 q Hq) as [Hq' | Hq']; [exact (so_child _ O p t q E Hq') | exact Hq'].
Qed.

Lemma tick_ok s c s' : sched_ok s -> cpu_update s c = Done s' -> sched_ok s'.
Proof.
  intros O. unfold cpu_update, the_task. destruct (s_cpus s !! c) as [[p|]|]; cbn [deref obind]; try discriminate.
  destruct (s_tasks s !! p) as [t|] eqn:E; cbn [deref obind]; [|discriminate]. intros [= <-].
  destruct (_ =? 0); (apply (put_task_ok s p t); auto;
    [intros Hs Hi; exact (so_ready _ O p t E Hi Hs) | intros q; exact (so_wait _ O p t q E) | intros q; exact (so_child _ O p t q E)]).
Qed.

Lemma birth_ok s a t : sched_ok s -> s_tasks s !! a = None -> ~ is_idle s a -> k_pid t <> 0 -> k_has_cpu t = 0 -> k_wait_child t = [] -> k_children t = [] ->
  sched_ok (add_process_to_rq (put_task s a t) a).
Proof.
  intros O Ea Hi Hp Hc Hw Hch. set (l := if in_list a (s_rq s) then s_rq s else a :: s_rq s).
  assert (Hin : forall q, q ∈ l <-> q = a \/ q ∈ s_rq s) by (intros q; unfold l, in_list; case_bool_decide; set_solver).
  assert (Hl : NoDup l) by (unfold l, in_list; case_bool_decide; [apply O | constructor; [auto | apply O]]).
  replace (add_process_to_rq (put_task s a t) a) with (set_rq (put_task s a t) l)
    by (unfold add_process_to_rq, l; cbn; destruct (in_list a (s_rq s)); reflexivity).
  destruct O as [O1 O2 O3 O4 O5 O6 O7 O8 O9 O10 O11 O12].
  assert (Tk : forall p x, <[a := t]> (s_tasks s) !! p = Some x -> (p = a /\ x = t) \/ (p <> a /\ s_tasks s !! p = Some x))
    by (intros p x; rewrite lookup_insert_Some; naive_solver).
  split; cbn [set_rq put_task set_tasks s_tasks s_rq]; auto.
  - intros p Hq. apply Hin in Hq as [-> | Hq]; [exact Hi | apply O2, Hq].
  - intros p c Ho. apply lookup_insert_is_Some'. right. eapply O6. exact Ho.
  - intros c Hs. apply lookup_insert_is_Some'. right. apply O7, Hs.
  - intros p x Hx. destruct (Tk p x Hx) as [[-> ->] | [_ Hx']]; [|apply (O8 p x Hx')]. split; [congruence | intros; exfalso; apply Hi; assumption].
  - intros p x Hx Hp'. destruct (Tk p x Hx) as [[-> ->] | [_ Hx']]; [|apply (O9 p x Hx' Hp')]. split; [|auto].
    intros _ c Ho. destruct (O6 a c Ho) as [y Hy]. congruence.
  - intros p x Hx Hp' Hs. destruct (Tk p x Hx) as [[-> ->] | [_ Hx']]; [left; apply Hin; auto|].
    destruct (O10 p x Hx' Hp' Hs) as [Hr | Hr]; [left; apply Hin; auto | right; exact Hr].
  - intros p x q Hx Hq. destruct (Tk p x Hx) as [[-> ->] | [_ Hx']]; [rewrite Hw in Hq; set_solver | apply (O11 p x q Hx' Hq)].
  - intros p x q Hx Hq. destruct (Tk p x Hx) as [[-> ->] | [_ Hx']]; [rewrite Hch in Hq; set_solver | apply (O12 p x q Hx' Hq)].
Qed.

Lemma next_pid_frame fuel : forall s pid s', next_pid_loop fuel s = Done (pid, s') ->
  s_tasks s' = s_tasks s /\ s_rq s' = s_rq s /\ s_cpus s' = s_cpus s /\ s_kstack s' = s_kstack s /\ s_procs s' = s_procs s.
Proof.
  induction fuel as [|fuel IH]; intros s pid s'; cbn [next_pid_loop]; [discriminate|].
  destruct (find_process _ _) as [[q|]| | |]; cbn [obind]; try discriminate; [|intros [= <- <-]; auto].
  intros E. apply IH in E. exact E.
Qed.

Lemma fork_ok s c p a s' t : sched_ok s -> s_cpus s !! c = Some (On p) -> s_tasks s !! a = None -> ~ is_idle s a -> fork s p a = Done (a, s') ->
  s_tasks s' !! a = Some t -> k_pid t <> 0 -> sched_ok s'.
Proof.
  intros O Ec Ea Hi. unfold fork. destruct (a =? NULL) eqn:Hn; tests; [intros [= _ <-]; congruence|].
  assert (Hpa : p <> a). { intros ->. destruct (so_alive _ O a c) as [x Hx]; [exists (On a); auto | congruence]. }
  unfold the_task at 1. destruct (s_tasks s !! p) as [t0|] eqn:Ep; cbn [deref obind]; [|discriminate].
  destruct (change s p _) as [s1| | |] eqn:E1; cbn [obind]; try discriminate.
  destruct (change_ok s p _ s1 O E1) as (O1 & C1 & K1 & R1); [intros x Hx; cbn; repeat split; auto|].
  destruct (get_next_pid s1) as [[pid s2]| | |] eqn:E2; cbn [obind]; try discriminate.
  destruct (next_pid_frame _ _ _ _ E2) as (T2 & R2 & C2 & K2 & _). pose proof (sched_frame s1 s2 O1 T2 R2 C2 K2) as O2.
  assert (Id : forall q, is_idle s2 q <-> is_idle s q).
  { intros q. unfold is_idle, idle_of. rewrite C2, K2, C1, K1. reflexivity. }
  assert (Ea2 : s_tasks s2 !! a = None).
  { rewrite T2. unfold change, the_task in E1. rewrite Ep in E1. injection E1 as <-. cbn. rewrite lookup_insert_ne by auto. exact Ea. }
  set (s3 := add_process_to_rq (put_task s2 a (child_of p pid t0)) a).
  assert (Ea3 : s_tasks s3 !! a = Some (child_of p pid t0)) by (unfold s3, add_process_to_rq; destruct (in_list _ _); apply lookup_insert_eq).
  destruct (change (add_process_to_list s3 a) p _) as [s4| | |] eqn:E4; cbn [obind]; try discriminate. intros [= <-] Et Hpid.
  assert (k_pid t = pid) as Ht.
  { unfold change, the_task in E4. destruct (s_tasks (add_process_to_list s3 a) !! p) as [tp|]; cbn [deref obind] in E4; [|discriminate].
    injection E4 as <-. cbn in Et. rewrite lookup_insert_ne in Et by auto. cbn in Ea3. rewrite Ea3 in Et. injection Et as <-. reflexivity. }
  assert (O3 : sched_ok s3) by (apply birth_ok; auto; [rewrite Id; exact Hi | cbn; congruence]).
  assert (O3' : sched_ok (add_process_to_list s3 a)) by (apply (sched_frame s3); auto).
  assert (Id3 : forall q, is_idle (add_process_to_list s3 a) q <-> is_idle s2 q) by (intros q; unfold s3, add_process_to_rq; destruct (in_list _ _); reflexivity).
  apply (change_ok _ p _ s4 O3' E4). intros x Hx. cbn. repeat split; auto.
  intros q Hq. apply elem_of_app in Hq as [Hq | Hq]; [auto|]. apply list_elem_of_singleton in Hq as ->. right. rewrite Id3, Id. exact Hi.
Qed.

Lemma set_parents_ok l r : forall s s', sched_ok s -> set_parents s l r = Done s' ->
  sched_ok s' /\ s_cpus s' = s_cpus s /\ s_kstack s' = s_kstack s.
Proof.
  induction l as [|p l IH]; intros s s' O; cbn [set_parents]; [intros [= <-]; auto|].
  destruct (change s p (with_parent r)) as [s1| | |] eqn:E; cbn [obind]; try discriminate.
  destruct (change_ok s p _ s1 O E) as (O1 & C1 & K1 & _); [intros t Ht; cbn; repeat split; auto|].
  intros E2. destruct (IH s1 s' O1 E2) as (O2 & C2 & K2). split; [exact O2 | split; congruence].
Qed.

Lemma wait_wake_up_ok s owner s' : sched_ok s -> wait_wake_up s owner = Done s' -> sched_ok s'.
Proof.
  intros O. unfold wait_wake_up, the_task. destruct (s_tasks s !! owner) as [t|] eqn:E; cbn [deref obind]; [|discriminate].
  destruct (k_wait_child t) as [|q l] eqn:Ew; [intros [= <-]; exact O|]. apply wake_up_ok; [exact O|].
  destruct (so_wait _ O owner t q E) as [-> Hi]; [rewrite Ew; left | exact Hi].
Qed.

Lemma exit_ok s c p s' : sched_ok s -> s_cpus s !! c = Some (On p) -> exit_process s p = Done s' -> sched_ok s'.
Proof.
  intros O Ec. unfold exit_process, adope_children. destruct (get_child_reaper s) as [[r s1]| | |] eqn:E1; cbn [obind]; try discriminate.
  assert (O1 : sched_ok s1).
  { unfold get_child_reaper in E1. destruct (s_reaper s =? NULL); [|injection E1 as <- <-; exact O].
    destruct (the_task s (idle_of s 0)); cbn [obind] in E1; try discriminate. destruct (head _); cbn [deref obind] in E1; try discriminate.
    injection E1 as <- <-. apply (sched_frame s); auto. }
  unfold the_task at 1. destruct (s_tasks s1 !! p) as [t1|]; cbn [deref obind]; [|discriminate].
  destruct (set_parents s1 _ r) as [s2| | |] eqn:E2; cbn [obind]; try discriminate. destruct (set_parents_ok _ _ _ _ O1 E2) as (O2 & _).
  destruct (change s2 p _) as [s3| | |] eqn:E3; cbn [obind]; try discriminate.
  destruct (change_ok s2 p _ s3 O2 E3) as (O3 & _); [intros t Ht; cbn; repeat split; auto; right; left; discriminate|].
  unfold notify_parent, the_task. destruct (s_tasks s3 !! p); cbn [deref obind]; [|discriminate]. apply wait_wake_up_ok, O3.
Qed.

Lemma release_ok s p s' : sched_ok s -> ~ is_idle s p -> release_process s p = Done s' ->
  sched_ok s' /\ s_cpus s' = s_cpus s /\ s_kstack s' = s_kstack s.
Proof.
  intros O Hi. unfold release_process, the_task. destruct (s_tasks s !! p) as [t|] eqn:E; cbn [deref obind]; [|discriminate].
  destruct (k_has_cpu t =? 0) eqn:Hc; cbn [negb]; [|discriminate]. tests. intros [= <-]. split; [|auto].
  pose proof (proj1 (so_free _ O p t E Hi) Hc) as Hno. destruct O as [O1 O2 O3 O4 O5 O6 O7 O8 O9 O10 O11 O12].
  split; cbn [set_tasks set_procs s_tasks s_rq]; auto.
  - intros q c Ho. rewrite lookup_delete_is_Some. split; [intros Hq; subst q; exact (Hno c Ho) | eapply O6; exact Ho].
  - intros c Hs. rewrite lookup_delete_is_Some. split; [|apply O7, Hs]. intros Hq. apply Hi. rewrite Hq. exact (is_idle_of s c Hs).
  - intros q x Hq. apply lookup_delete_Some in Hq as [_ Hq]. exact (O8 q x Hq).
  - intros q x Hq. apply lookup_delete_Some in Hq as [_ Hq]. exact (O9 q x Hq).
  - intros q x Hq. apply lookup_delete_Some in Hq as [_ Hq]. exact (O10 q x Hq).
  - intros q x r Hq. apply lookup_delete_Some in Hq as [_ Hq]. exact (O11 q x r Hq).
  - intros q x r Hq. apply lookup_delete_Some in Hq as [_ Hq]. exact (O12 q x r Hq).
Qed.

Lemma wait_scan_in s l pid : forall flag b p, wait_scan s l pid flag = Done (b, Some p) ->
  p ∈ l /\ exists t, s_tasks s !! p = Some t /\ k_state t = PROCESS_ST_ZOMBIE /\ (pid = -1 \/ u32 pid = k_pid t).
Proof.
  induction l as [|q l IH]; intros flag b p; cbn [wait_scan]; [discriminate|].
  unfold the_task. destruct (s_tasks s !! q) as [t|] eqn:E; cbn [deref obind]; [|discriminate].
  destruct (negb (pid =? -1) && negb (u32 pid =? k_pid t)) eqn:Hm; [intros H; apply IH in H as [? ?]; split; [right|]; assumption|].
  case_bool_decide as Hz; cbn [negb]; [|intros H; apply IH in H as [? ?]; split; [right|]; assumption].
  intros [= <- <-]. split; [left|]. exists t. split; [exact E|]. split; [exact Hz | lia].
Qed.

(** Waiters of a process: only itself waits in its queue. *)
Lemma wait_queue_ok s c p l s' : sched_ok s -> s_cpus s !! c = Some (On p) -> ~ is_idle s p ->
  (forall t, s_tasks s !! p = Some t -> forall q, q ∈ l t -> q ∈ k_wait_child t \/ q = p) ->
  (let! t := the_task s p in Done (put_task s p (with_wait (l t) t))) = Done s' -> sched_ok s' /\ s_cpus s' = s_cpus s /\ s_kstack s' = s_kstack s.
Proof.
  intros O Ec Hi Hl. unfold the_task. destruct (s_tasks s !! p) as [t|] eqn:E; cbn [deref obind]; [|discriminate]. intros [= <-]. split; [|auto].
  apply (put_task_ok s p t); auto.
  - intros _ _. right. exists c, (On p). auto.
  - intros q Hq. cbn in Hq. split; [|exact Hi]. destruct (Hl t eq_refl q Hq) as [Hq' | Hq']; [exact (proj1 (so_wait _ O p t q E Hq')) | exact Hq'].
  - intros q. exact (so_child _ O p t q E).
Qed.

Lemma drop_first_in q p l : q ∈ drop_first p l -> q ∈ l.
Proof. induction l as [|x l IH]; cbn [drop_first]; [auto|]. destruct (x =? p); set_solver. Qed.

Lemma drop_first_gone p l : NoDup l -> p ∉ drop_first p l.
Proof.
  induction 1 as [|x l Hx Hl IH]; cbn [drop_first]; [set_solver|]. destruct (x =? p) eqn:E; tests; [subst; exact Hx | set_solver].
Qed.

Lemma drop_first_last p l : p ∉ l -> drop_first p (l ++ [p]) = l.
Proof.
  induction l as [|x l IH]; intros H; cbn [drop_first app]; [rewrite Z.eqb_refl; reflexivity|].
  destruct (x =? p) eqn:E; tests; [set_solver | rewrite IH by set_solver; reflexivity].
Qed.

Lemma wait_round_ok s c p pid b s' : sched_ok s -> s_cpus s !! c = Some (On p) -> ~ is_idle s p -> wait_round s p pid = Done (b, s') -> sched_ok s'.
Proof.
  intros O Ec Hi. unfold wait_round. destruct (change s p _) as [s1| | |] eqn:E1; cbn [obind]; try discriminate.
  destruct (change_ok s p _ s1 O E1) as (O1 & C1 & K1 & _); [intros t Ht; cbn; repeat split; auto; right; left; discriminate|].
  unfold the_task at 1. destruct (s_tasks s1 !! p) as [t|] eqn:Et; cbn [deref obind]; [|discriminate].
  destruct (wait_scan s1 _ pid false) as [[flag z]| | |] eqn:Ez; cbn [obind]; try discriminate.
  assert (Fin : forall s2, sched_ok s2 -> s_cpus s2 = s_cpus s -> s_kstack s2 = s_kstack s ->
    (let! s := change s2 p (with_state PROCESS_ST_RUNNING) in let! s := wait_remove s p p in Done (false, s)) = Done (b, s') -> sched_ok s').
  { intros s2 O2 C2 K2. destruct (change s2 p _) as [s3| | |] eqn:E3; cbn [obind]; try discriminate.
    destruct (change_ok s2 p _ s3 O2 E3) as (O3 & C3 & K3 & _).
    { intros x Hx. cbn. repeat split; auto. right. right. exists c, (On p). rewrite C2. auto. }
    destruct (wait_remove s3 p p) as [s4| | |] eqn:E4; cbn [obind]; try discriminate. intros [= _ <-].
    apply (wait_queue_ok s3 c p (fun t => drop_first p (k_wait_child t)) s4); auto.
    - rewrite C3, C2. exact Ec.
    - unfold is_idle, idle_of in *. rewrite C3, C2, K3, K2. exact Hi.
    - intros x _ q Hq. left. eapply drop_first_in, Hq. }
  destruct z as [z|].
  - destruct (release_process s1 z) as [s2| | |] eqn:E2; cbn [obind]; try discriminate. destruct (wait_scan_in _ _ _ _ _ _ Ez) as [Hz _].
    destruct (release_ok s1 z s2 O1 (so_child _ O1 p t z Et Hz) E2) as (O2 & C2 & K2). apply Fin; [exact O2 | congruence | congruence].
  - cbn [obind]. destruct flag; [intros [= _ <-]; exact O1 | apply Fin; auto].
Qed.

Lemma wait_children_ok s c p pid b s' : sched_ok s -> s_cpus s !! c = Some (On p) -> ~ is_idle s p -> wait_children s p pid = Done (b, s') -> sched_ok s'.
Proof.
  intros O Ec Hi. unfold wait_children. destruct (wait_add s p p) as [s1| | |] eqn:E1; cbn [obind]; try discriminate.
  destruct (wait_queue_ok s c p (fun t => k_wait_child t ++ [p]) s1 O Ec Hi) as (O1 & C1 & K1); [set_solver | exact E1 |].
  apply (wait_round_ok s1 c p); [exact O1 | rewrite C1; exact Ec |]. unfold is_idle, idle_of in *. rewrite C1, K1. exact Hi.
Qed.

Lemma signal_ok s p pid sig r s' : sched_ok s -> send_signal_to s p pid sig = Done (r, s') -> sched_ok s'.
Proof.
  intros O. unfold send_signal_to. destruct (the_task s p); cbn [obind]; try discriminate.
  destruct (find_process s pid) as [[q|]| | |]; cbn [obind]; try discriminate; [|intros [= _ <-]; exact O].
  unfold the_task. destruct (s_tasks s !! q) as [t|] eqn:E; cbn [deref obind]; [|discriminate]. intros [= _ <-].
  apply (put_task_ok s q t); auto; [intros Hs Hi; exact (so_ready _ O q t E Hi Hs) | intros x; exact (so_wait _ O q t x E) | intros x; exact (so_child _ O q t x E)].
Qed.

Lemma sched_step_ok s s' : sched_step s s' -> sched_ok s -> sched_ok s'.
Proof.
  intros [c s1 E | c s1 E | c s1 E | p s1 Hi E | c p s1 Ec Hi E | c p a t s1 Ec Ea Hi E Et Hp | c p s1 Ec Hi E | c p pid b s1 Ec Hi E | c p pid b s1 Ec Hi E | c p pid sig r s1 Ec E] O.
  - exact (proj2 (schedule_ok s c O) s1 E).
  - exact (schedule_tail_ok s c s1 O E).
  - exact (tick_ok s c s1 O E).
  - exact (wake_up_ok s p s1 O Hi E).
  - apply (change_ok s p _ s1 O E). intros t Ht. cbn. repeat split; auto; right; left; discriminate.
  - exact (fork_ok s c p a s1 t O Ec Ea Hi E Et Hp).
  - exact (exit_ok s c p s1 O Ec E).
  - exact (wait_children_ok s c p pid b s1 O Ec Hi E).
  - exact (wait_round_ok s c p pid b s1 O Ec Hi E).
  - exact (signal_ok s p pid sig r s1 O E).
Qed.

(** ** The processors at boot: [init_idle]; the stacks are zero *)

Definition idle_task : task := mk_task 0 PROCESS_ST_RUNNING NULL [] [] 0 2 0 [] false.

Definition sched_boot (kstack n : Z) : sched :=
  let idle c := kstack + c * KSTACK_SIZE in
  mk_sched (list_to_map ((fun c => (idle c, idle_task)) <$> seqZ 0 n)) 1 NULL [] []
    (list_to_map ((fun c => (c, On (idle c))) <$> seqZ 0 n)) kstack.

Lemma boot_cpu k n c x : s_cpus (sched_boot k n) !! c = Some x -> x = On (k + c * KSTACK_SIZE) /\ 0 <= c < n.
Proof.
  cbn. intros H. apply elem_of_list_to_map_2, list_elem_of_fmap in H as (y & [= -> ->] & Hy).
  apply elem_of_seqZ in Hy. auto with lia.
Qed.

Lemma boot_task k n p t : s_tasks (sched_boot k n) !! p = Some t -> t = idle_task /\ exists c, 0 <= c < n /\ p = k + c * KSTACK_SIZE.
Proof.
  cbn. intros H. apply elem_of_list_to_map_2, list_elem_of_fmap in H as (y & [= -> ->] & Hy).
  apply elem_of_seqZ in Hy. split; [reflexivity|]. exists y. lia.
Qed.

Lemma boot_idle k n p : is_idle (sched_boot k n) p <-> exists c, 0 <= c < n /\ p = k + c * KSTACK_SIZE.
Proof.
  unfold is_idle, map_Exists. split.
  - intros (c & x & Hx & ->). apply boot_cpu in Hx as [_ Hc]. exists c. split; [exact Hc | reflexivity].
  - intros (c & Hc & ->). exists c, (On (k + c * KSTACK_SIZE)). split; [|reflexivity]. cbn.
    apply elem_of_list_to_map_1.
    + rewrite <- list_fmap_compose. change (fst ∘ _) with (fun c : Z => c). rewrite list_fmap_id. apply NoDup_seqZ.
    + apply list_elem_of_fmap. exists c. split; [reflexivity|]. apply elem_of_seqZ. lia.
Qed.

Lemma boot_occ k n p c : occ (sched_boot k n) p c -> p = k + c * KSTACK_SIZE /\ 0 <= c < n.
Proof. intros (x & Hx & H). apply boot_cpu in Hx as [-> Hc]. auto. Qed.

Lemma boot_ok k n : sched_ok (sched_boot k n).
Proof.
  assert (T : forall c, 0 <= c < n -> is_Some (s_tasks (sched_boot k n) !! (k + c * KSTACK_SIZE))).
  { intros c Hc. exists idle_task. cbn. apply elem_of_list_to_map_1.
    - rewrite <- list_fmap_compose. apply NoDup_fmap_2_strong; [|apply NoDup_seqZ]. unfold KSTACK_SIZE. cbn. lia.
    - apply list_elem_of_fmap. exists c. split; [reflexivity|]. apply elem_of_seqZ. lia. }
  split.
  - constructor.
  - intros p Hp. inversion Hp.
  - intros p c1 c2 H1 H2. apply boot_occ in H1 as [-> _], H2 as [H2 _]. unfold KSTACK_SIZE in H2. lia.
  - intros c p q H. apply boot_cpu in H as [[=] _].
  - intros c c' _ H. apply boot_occ in H as [H _]. unfold idle_of, KSTACK_SIZE in H. cbn in H. lia.
  - intros p c H. apply boot_occ in H as [-> Hc]. auto.
  - intros c [x Hx]. apply boot_cpu in Hx as [_ Hc]. exact (T c Hc).
  - intros p t H. rewrite boot_idle. apply boot_task in H as [-> Hp]. split; auto.
  - intros p t H Hi. rewrite boot_idle in Hi. apply boot_task in H as [_ Hp]. contradiction.
  - intros p t H Hi. rewrite boot_idle in Hi. apply boot_task in H as [_ Hp]. contradiction.
  - intros p t q H Hq. apply boot_task in H as [-> _]. inversion Hq.
  - intros p t q H Hq. apply boot_task in H as [-> _]. inversion Hq.
Qed.

(** Executions given by a list of events, for concrete runs. *)
Inductive event :=
| Schedule (c : Z) | Tail (c : Z) | Tick (c : Z) | Wake (p : Z) | Sleep (c : Z) | Fork (c a : Z) | Exit (c : Z) | Wait (c pid : Z) | Wait_again (c pid : Z).

Definition running s c : outcome Z :=
  match s_cpus s !! c with
  | Some (On p) => Done p
  | _ => Fault
  end.
Definition task_running s c : outcome Z := let! p := running s c in if bool_decide (is_idle s p) then Fault else Done p.

Definition do_event s (e : event) : outcome sched :=
  match e with
  | Schedule c => schedule s c
  | Tail c => schedule_tail s c
  | Tick c => cpu_update s c
  | Wake p => if bool_decide (is_idle s p) then Fault else wake_up_process s p
  | Sleep c => let! p := task_running s c in change s p (with_state PROCESS_ST_SLEEP)
  | Fork c a =>
      let! p := running s c in
      if bool_decide (is_idle s a) || bool_decide (is_Some (s_tasks s !! a)) then Fault
      else
        let! ' (r, s') := fork s p a in
        match s_tasks s' !! a with
        | Some t => if (r =? a) && negb (k_pid t =? 0) then Done s' else Fault
        | None => Fault
        end
  | Exit c => let! p := task_running s c in exit_process s p
  | Wait c pid => let! p := task_running s c in let! ' (_, s) := wait_children s p pid in Done s
  | Wait_again c pid => let! p := task_running s c in let! ' (_, s) := wait_round s p pid in Done s
  end.

Fixpoint sched_run s (l : list event) : outcome sched :=
  match l with
  | [] => Done s
  | e :: l => let! s := do_event s e in sched_run s l
  end.

Lemma running_done s c p : running s c = Done p -> s_cpus s !! c = Some (On p).
Proof. unfold running. destruct (s_cpus s !! c) as [[q|]|]; congruence. Qed.

Lemma task_running_done s c p : task_running s c = Done p -> s_cpus s !! c = Some (On p) /\ ~ is_idle s p.
Proof.
  unfold task_running. destruct (running s c) as [q| | |] eqn:E; cbn [obind]; try discriminate. case_bool_decide; [discriminate|].
  intros [= <-]. split; [apply running_done, E | assumption].
Qed.

Lemma do_event_step s e s' : do_event s e = Done s' -> sched_step s s'.
Proof.
  destruct e as [c|c|c|p|c|c a|c|c pid|c pid]; cbn [do_event].
  - apply Step_schedule.
  - apply Step_tail.
  - apply Step_tick.
  - case_bool_decide; [discriminate|]. apply Step_wake. assumption.
  - destruct (task_running s c) as [p| | |] eqn:E; cbn [obind]; try discriminate. apply task_running_done in E as [E Hi]. apply (Step_sleep _ c p); auto.
  - destruct (running s c) as [p| | |] eqn:E; cbn [obind]; try discriminate. apply running_done in E.
    case_bool_decide as Hi; [discriminate|]. case_bool_decide as Ha; [discriminate|]. cbn [orb].
    destruct (fork s p a) as [[r s1]| | |] eqn:Ef; cbn [obind]; try discriminate. destruct (s_tasks s1 !! a) as [t|] eqn:Et; [|discriminate].
    destruct ((r =? a) && negb (k_pid t =? 0)) eqn:Hr; [|discriminate]. intros [= <-].
    apply eq_None_not_Some in Ha. assert (r = a) as -> by lia. apply (Step_fork _ c p a t); auto. lia.
  - destruct (task_running s c) as [p| | |] eqn:E; cbn [obind]; try discriminate. apply task_running_done in E as [E Hi]. apply (Step_exit _ c p); auto.
  - destruct (task_running s c) as [p| | |] eqn:E; cbn [obind]; try discriminate. apply task_running_done in E as [E Hi].
    destruct (wait_children s p pid) as [[b s1]| | |] eqn:Ew; cbn [obind]; try discriminate. intros [= <-]. apply (Step_wait _ c p pid b); auto.
  - destruct (task_running s c) as [p| | |] eqn:E; cbn [obind]; try discriminate. apply task_running_done in E as [E Hi].
    destruct (wait_round s p pid) as [[b s1]| | |] eqn:Ew; cbn [obind]; try discriminate. intros [= <-]. apply (Step_wait_again _ c p pid b); auto.
Qed.

Lemma sched_run_steps l : forall s s', sched_run s l = Done s' -> rtc sched_step s s'.
Proof.
  induction l as [|e l IH]; intros s s'; cbn [sched_run]; [intros [= <-]; reflexivity|].
  destruct (do_event s e) as [s1| | |] eqn:E; cbn [obind]; try discriminate. intros H. eapply rtc_l; [eapply do_event_step, E | apply IH, H].
Qed.

Lemma reachable_ok s s' : sched_ok s -> rtc sched_step s s' -> sched_ok s'.
Proof. intros O H. induction H; [exact O|]. eauto using sched_step_ok. Qed.

(** ** Numbers of processes *)

Definition pids s : list Z := (fun p => match s_tasks s !! p with Some t => k_pid t | None => 0 end) <$> s_procs s.

Definition all_alive s : Prop := Forall (fun p => is_Some (s_tasks s !! p)) (s_procs s).

Lemma find_in_pids s l pid : Forall (fun p => is_Some (s_tasks s !! p)) l ->
  exists r, find_in s l pid = Done r /\
    (r = None <-> pid ∉ (fun p => match s_tasks s !! p with Some t => k_pid t | None => 0 end) <$> l).
Proof.
  induction 1 as [|p l [t E] Hl (r & Er & Hr)]; cbn [find_in]; [exists None; split; [reflexivity | set_solver]|].
  unfold the_task. rewrite E. cbn [deref obind]. rewrite fmap_cons, E. destruct (k_pid t =? pid) eqn:H; tests.
  - eexists. split; [reflexivity|]. rewrite not_elem_of_cons. split; [discriminate | intros [? _]; congruence].
  - exists r. split; [exact Er|]. rewrite Hr, not_elem_of_cons. split; [auto | tauto].
Qed.

(** What was tried and taken, [k] numbers from [base] on, fits among the numbers in use. *)
Lemma taken_numbers base (k : nat) l : 0 <= base -> Z.of_nat k <= 2 ^ 32 ->
  (forall i, 0 <= i < Z.of_nat k -> u32 (base + i) ∈ l) -> (k <= length l)%nat.
Proof.
  intros Hb Hk H. set (m := (fun i => u32 (base + i)) <$> seqZ 0 (Z.of_nat k)).
  assert (Lm : length m = k) by (unfold m; rewrite length_fmap, length_seqZ; lia). rewrite <- Lm.
  apply submseteq_length, NoDup_submseteq.
  - apply NoDup_fmap_2_strong; [|apply NoDup_seqZ]. intros x y Hx Hy E. apply elem_of_seqZ in Hx, Hy. unfold u32 in *.
    assert (D : (x - y) mod 2 ^ 32 = 0) by (replace (x - y) with ((base + x) - (base + y)) by lia; rewrite Zminus_mod, E, Z.sub_diag; reflexivity).
    apply Z.mod_divide in D as [z Hz]; [nia | lia].
  - intros x Hx. apply list_elem_of_fmap in Hx as (i & -> & Hi). apply elem_of_seqZ in Hi. apply H. lia.
Qed.

Lemma next_pid_search s fuel : all_alive s -> 0 <= s_next_pid s < 2 ^ 32 -> Z.of_nat fuel <= 2 ^ 32 ->
  (exists pid s', next_pid_loop fuel s = Done (pid, s') /\ pid ∉ pids s) \/
  (forall i, 0 <= i < Z.of_nat fuel -> u32 (s_next_pid s + i) ∈ pids s).
Proof.
  revert s. induction fuel as [|k IH]; intros s Al Hn Hf; [right; lia|]. cbn [next_pid_loop].
  set (s1 := set_pid s (u32 (s_next_pid s + 1))). destruct (find_in_pids s1 (s_procs s1) (s_next_pid s) Al) as (r & Er & Hr).
  unfold find_process. rewrite Er. cbn [obind]. destruct r as [q|]; [|left; exists (s_next_pid s), s1; split; [reflexivity | apply Hr; reflexivity]].
  assert (H1 : s_next_pid s ∈ pids s) by (destruct (decide (s_next_pid s ∈ pids s)) as [H|H]; [exact H | apply Hr in H; discriminate]).
  assert (B1 : 0 <= s_next_pid s1 < 2 ^ 32) by apply u32_range.
  destruct (IH s1 Al B1) as [Y | N]; [lia | left; exact Y | right].
  intros i Hi. destruct (decide (i = 0)) as [-> | Hi0].
  - rewrite Z.add_0_r. unfold u32. rewrite Z.mod_small by exact Hn. exact H1.
  - replace (u32 (s_next_pid s + i)) with (u32 (s_next_pid s1 + (i - 1))); [apply N; lia|].
    cbn [s1 set_pid s_next_pid]. unfold u32. rewrite Zplus_mod_idemp_l. f_equal. lia.
Qed.

(** [get_next_pid] ends after at most one round more than there are processes, with a number
    that no process of the list has, also when the 32-bit counter wraps around. *)
Theorem next_pid_fresh s : all_alive s -> 0 <= s_next_pid s < 2 ^ 32 -> Z.of_nat (length (s_procs s)) < 2 ^ 32 ->
  exists pid s', get_next_pid s = Done (pid, s') /\ pid ∉ pids s /\ find_process s pid = Done None.
Proof.
  intros Al Hn Hl. unfold get_next_pid. destruct (next_pid_search s (S (length (s_procs s))) Al Hn) as [(pid & s' & E & F) | N]; [lia| |].
  - exists pid, s'. split; [exact E|]. split; [exact F|]. destruct (find_in_pids s (s_procs s) pid Al) as (r & Er & Hr).
    unfold find_process. rewrite Er. f_equal. apply Hr, F.
  - exfalso. assert (H : (S (length (s_procs s)) <= length (pids s))%nat) by (apply (taken_numbers (s_next_pid s)); [lia | lia | exact N]).
    unfold pids in H. rewrite length_fmap in H. lia.
Qed.

(** The counter at its last value, in use; numbers 0 and 1 are in use too. *)
Lemma next_pid_fresh_witness :
  let t pid := mk_task pid PROCESS_ST_RUNNING NULL [] [] 0 2 0 [] false in
  let s := mk_sched {[8 := t (2 ^ 32 - 1); 16 := t 0; 24 := t 1]} (2 ^ 32 - 1) NULL [8; 16; 24] [] ∅ 0 in
  (exists pid s', get_next_pid s = Done (pid, s') /\ pid ∉ pids s /\ find_process s pid = Done None) /\
  exists s', get_next_pid s = Done (2, s').
Proof.
  split; [|eexists; vm_compute; reflexivity].
  apply next_pid_fresh; [|cbn; lia | cbn; lia]. unfold all_alive. cbn [s_procs s_tasks].
  repeat constructor; eexists; vm_compute; reflexivity.
Defined.

(** ** Safety of the processors *)

(** C20: In every state the processors reach from boot, whatever they interleave: no process runs on two
    processors, not even while one of them is still leaving it; the run queue holds no
    process twice; [schedule] never comes to its panic; and a process that is
    ready to run is in the run queue or on a processor, so no wake-up is lost. *)
Theorem processors_exclusive kstack n s : rtc sched_step (sched_boot kstack n) s ->
  (forall p c1 c2, occ s p c1 -> occ s p c2 -> c1 = c2) /\ NoDup (s_rq s) /\ (forall c, schedule s c <> Panic) /\
  (forall p t, s_tasks s !! p = Some t -> k_pid t <> 0 -> k_state t = PROCESS_ST_RUNNING -> p ∈ s_rq s \/ exists c, on s p c).
Proof.
  intros H. pose proof (reachable_ok _ _ (boot_ok kstack n) H) as O.
  split; [exact (so_excl _ O)|]. split; [exact (so_nodup _ O)|]. split; [intros c; exact (proj1 (schedule_ok s c O))|].
  intros p t E Hp. apply (so_ready _ O p t E). rewrite <- (so_pid _ O p t E). exact Hp.
Qed.

(** Two processors: a process sleeps and is woken on one processor while the other
    looks for work; the process is left alone until it has been left. *)
Definition two_cpus : list event :=
  [Fork 0 100; Schedule 0; Tail 0; Fork 0 200; Schedule 1; Tail 1; Sleep 0; Schedule 0; Wake 100; Tick 1; Schedule 1; Tail 1].

Lemma processors_exclusive_witness : exists s, sched_run (sched_boot 4096 2) two_cpus = Done s /\ s_rq s = [100; 200] /\
  (s_cpus s !! 0 = Some (Switching 100 4096) /\ s_cpus s !! 1 = Some (On (4096 + 8192))) /\ schedule s 1 <> Panic.
Proof.
  eexists. split; [vm_compute; reflexivity|]. split; [vm_compute; reflexivity|]. split; [split; vm_compute; reflexivity|].
  apply (processors_exclusive 4096 2). apply (sched_run_steps two_cpus). vm_compute. reflexivity.
Defined.

(** ** Turns *)

(** [schedule] until it returns on the next stack. *)
Definition turn s c : outcome sched := let! s := schedule s c in schedule_tail s c.

Fixpoint turns (n : nat) s c : outcome sched :=
  match n with
  | O => Done s
  | S k => let! s := turn s c in turns k s c
  end.

Definition ready s p : Prop := exists t, s_tasks s !! p = Some t /\ k_state t = PROCESS_ST_RUNNING /\ k_pid t <> 0.
Definition waiting s p : Prop := exists t, s_tasks s !! p = Some t /\ k_state t = PROCESS_ST_RUNNING /\ k_pid t <> 0 /\ k_has_cpu t = 0.

(** Processor [c] is on [prev], and [l] is the run queue, all of it able to run. *)
Record lined_up s c prev l : Prop := {
  lu_on : s_cpus s !! c = Some (On prev);
  lu_rq : s_rq s = l;
  lu_nodup : NoDup (prev :: l);
  lu_prev : ready s prev;
  lu_all : Forall (waiting s) l
}.

Lemma turn_ok s c prev p l : lined_up s c prev (p :: l) -> exists s', turn s c = Done s' /\ lined_up s' c p (l ++ [prev]).
Proof.
  intros [Hon Hrq Nd (t & Et & Hst & Hpid) Hall]. inversion Hall as [|? ? (u & Eu & Hu1 & Hu2 & Hu3) Hl]; subst.
  apply NoDup_cons in Nd as [Np Nl]. pose proof Nl as Nl0. apply NoDup_cons in Nl as [Nq Nl]. apply not_elem_of_cons in Np as [Hne Np].
  unfold turn, schedule. rewrite Hon. cbn [deref obind]. rewrite Hrq. cbn [find_next]. unfold the_task at 1. rewrite Eu. cbn [deref obind].
  rewrite bool_decide_eq_true_2 by exact Hu1. rewrite Hu3. cbn [andb Z.eqb obind].
  rewrite (proj2 (Z.eqb_neq p prev)) by auto. cbn [obind app]. unfold the_task at 1. cbn [set_rq s_tasks]. rewrite Et. cbn [deref obind].
  rewrite (proj2 (Z.eqb_neq p prev)) by auto. unfold requeue, the_task at 1. cbn [put_task set_tasks set_rq s_tasks s_rq]. rewrite lookup_insert_eq. cbn [deref obind with_resched k_pid k_state].
  rewrite (proj2 (Z.eqb_neq (k_pid t) 0)) by exact Hpid. rewrite bool_decide_eq_true_2 by exact Hst. unfold in_list. rewrite bool_decide_eq_false_2 by exact Np. cbn [negb andb obind].
  unfold change, the_task at 1. cbn [put_task set_tasks set_rq s_tasks]. rewrite lookup_insert_ne by auto. rewrite Eu. cbn [deref obind].
  unfold schedule_tail, change, the_task. cbn [set_cpu put_task set_tasks set_rq s_tasks s_cpus]. rewrite lookup_insert_eq. cbn [deref obind].
  rewrite lookup_insert_ne by auto. rewrite lookup_insert_eq. cbn [deref obind]. eexists. split; [reflexivity|].
  split; cbn [set_cpu put_task set_tasks set_rq s_tasks s_cpus s_rq].
  - apply lookup_insert_eq.
  - reflexivity.
  - apply NoDup_cons. split; [set_solver|]. apply NoDup_app. split; [exact Nl|]. split; [set_solver | apply NoDup_singleton].
  - exists (with_cpu 1 u). cbn. rewrite lookup_insert_ne by auto. rewrite lookup_insert_eq. auto.
  - apply Forall_app. split.
    + rewrite Forall_forall in Hl |- *. intros q Hq. destruct (Hl q Hq) as (v & Ev & Hv). exists v. cbn.
      assert (q <> prev) by (intros ->; contradiction). assert (q <> p) by (intros ->; contradiction). rewrite !lookup_insert_ne by auto. auto.
    + apply Forall_singleton. eexists. cbn. rewrite lookup_insert_eq. split; [reflexivity|]. cbn. auto.
Qed.

(** C21: Round robin: on a processor whose run queue [l] holds only processes that can run, the
    [i]th of them runs after [i + 1] calls of [schedule], whatever was put in before; then the
    processes that ran, the first one included, are behind those that did not, in order. *)
Theorem round_robin c i : forall s prev l p, lined_up s c prev l -> l !! i = Some p ->
  exists s', turns (S i) s c = Done s' /\ s_cpus s' !! c = Some (On p) /\ lined_up s' c p (drop (S i) l ++ prev :: take i l).
Proof.
  assert (G : forall s prev l p, lined_up s c prev l -> l !! i = Some p -> exists s', turns (S i) s c = Done s' /\ lined_up s' c p (drop (S i) l ++ prev :: take i l)).
  { induction i as [|i IH]; intros s prev [|q l] p H E; try discriminate; cbn [turns]; destruct (turn_ok s c prev q l H) as (s1 & -> & H1); cbn [obind].
    - injection E as <-. exists s1. auto.
    - cbn in E. pose proof (lookup_lt_Some _ _ _ E) as Hi.
      destruct (IH s1 q (l ++ [prev]) p H1) as (s' & E' & H'); [rewrite lookup_app_l by exact Hi; exact E|].
      exists s'. split; [exact E'|]. rewrite drop_app_le, take_app_le in H' by lia. rewrite <- app_assoc in H'. exact H'. }
  intros s prev l p H E. destruct (G s prev l p H E) as (s' & E' & H'). exists s'. split; [exact E'|]. split; [exact (lu_on _ _ _ _ H') | exact H'].
Qed.

(** Three processes after the first has been scheduled. *)
Lemma round_robin_witness : exists s, sched_run (sched_boot 4096 1) [Fork 0 100; Schedule 0; Tail 0; Fork 0 200; Fork 0 300] = Done s /\
  (exists s', turns 2 s 0 = Done s' /\ s_cpus s' !! 0 = Some (On 200) /\ lined_up s' 0 200 [100; 300]) /\ s_rq s = [300; 200].
Proof.
  eexists. split; [vm_compute; reflexivity|]. split; [|vm_compute; reflexivity].
  apply (round_robin 0 1 _ 100 [300; 200] 200); [|reflexivity]. split.
  - vm_compute. reflexivity.
  - vm_compute. reflexivity.
  - apply (bool_decide_unpack _). vm_compute. exact I.
  - eexists. split; [vm_compute; reflexivity|]. split; [reflexivity | discriminate].
  - repeat constructor; (eexists; split; [vm_compute; reflexivity|]; split; [reflexivity|]; split; [discriminate | reflexivity]).
Defined.

(** ** Exit and wait *)

(** A child that [wait_children] looks for. *)
Definition sought (pid : Z) (t : task) : bool := (pid =? -1) || (u32 pid =? k_pid t).

(** The scan of the children stops at the first exited one that is sought. *)
Lemma wait_scan_first s pid z tz a : s_tasks s !! z = Some tz -> sought pid tz = true -> k_state tz = PROCESS_ST_ZOMBIE ->
  Forall (fun q => exists t, s_tasks s !! q = Some t /\ (sought pid t = true -> k_state t <> PROCESS_ST_ZOMBIE)) a ->
  forall b flag, wait_scan s (a ++ z :: b) pid flag = Done (true, Some z).
Proof.
  intros Ez Hs Hz. induction 1 as [|q a (t & Et & Ht) Ha IH]; intros b flag; cbn [app wait_scan]; unfold the_task.
  - rewrite Ez. cbn [deref obind]. rewrite <- negb_orb. fold (sought pid tz). rewrite Hs. cbn [negb]. rewrite bool_decide_eq_true_2 by exact Hz. reflexivity.
  - rewrite Et. cbn [deref obind]. rewrite <- negb_orb. fold (sought pid t). destruct (sought pid t); cbn [negb]; [|apply IH].
    rewrite bool_decide_eq_false_2 by auto. apply IH.
Qed.

(** [wait_children] collects: with an exited child that no processor is on any more, and no
    exited child before it, the call returns at once; the child's memory is given back,
    the list of processes no longer has it, and the caller is running and out of the queue it waited in. *)
Theorem wait_collects_child s p pid t a z b tz : s_tasks s !! p = Some t -> k_children t = a ++ z :: b -> p <> z -> p ∉ a ->
  s_tasks s !! z = Some tz -> sought pid tz = true -> k_state tz = PROCESS_ST_ZOMBIE -> k_has_cpu tz = 0 -> p ∉ k_wait_child t -> NoDup (s_procs s) ->
  Forall (fun q => exists t, s_tasks s !! q = Some t /\ (sought pid t = true -> k_state t <> PROCESS_ST_ZOMBIE)) a ->
  exists s', wait_children s p pid = Done (false, s') /\ s_tasks s' !! z = None /\ z ∉ s_procs s' /\
    s_tasks s' !! p = Some (with_state PROCESS_ST_RUNNING t) /\
    forall q, q <> p -> q <> z -> s_tasks s' !! q = s_tasks s !! q.
Proof.
  intros Et Hc Hne Hpa Ez Hs Hz Hcpu Hw Nd Ha. unfold wait_children, wait_add, the_task. rewrite Et. cbn [deref obind].
  set (t1 := with_wait (k_wait_child t ++ [p]) t). unfold wait_round, change, the_task at 1. cbn [put_task set_tasks s_tasks]. rewrite lookup_insert_eq. cbn [deref obind].
  unfold the_task at 1. cbn [put_task set_tasks s_tasks]. rewrite insert_insert_eq, lookup_insert_eq. cbn [deref obind t1 with_wait with_state k_children]. rewrite Hc.
  rewrite (wait_scan_first _ pid z tz); cbn [put_task set_tasks s_tasks obind]; auto.
  2: rewrite insert_insert_eq, lookup_insert_ne by auto; exact Ez.
  2: { rewrite Forall_forall in Ha |- *. intros q Hq. destruct (Ha q Hq) as (x & Hx). exists x. rewrite insert_insert_eq, lookup_insert_ne by (intros ->; contradiction). exact Hx. }
  unfold release_process, the_task. cbn [put_task set_tasks s_tasks s_procs]. rewrite !insert_insert_eq. rewrite lookup_insert_ne by auto. rewrite Ez. cbn [deref obind].
  rewrite Hcpu. cbn [Z.eqb negb obind set_procs set_tasks s_tasks]. rewrite lookup_delete_ne by auto. rewrite lookup_insert_eq. cbn [deref obind].
  unfold wait_remove, the_task. cbn [put_task set_tasks s_tasks]. rewrite lookup_insert_eq. cbn [deref obind]. eexists. split; [reflexivity|].
  cbn [put_task set_tasks s_tasks s_procs set_procs]. rewrite !insert_insert_eq. split; [rewrite lookup_insert_ne by auto; apply lookup_delete_eq|].
  split; [apply drop_first_gone, Nd|]. split.
  - rewrite lookup_insert_eq. f_equal. cbn. rewrite drop_first_last by exact Hw. destruct t; reflexivity.
  - intros q Hq Hq'. rewrite lookup_insert_ne, lookup_delete_ne, lookup_insert_ne by auto. reflexivity.
Qed.

(** The first process, 100, and its child 200, which exits. *)
Definition child_exits : list event :=
  [Fork 0 100; Schedule 0; Tail 0; Fork 0 200; Schedule 0; Tail 0; Exit 0; Schedule 0; Tail 0].

Lemma wait_collects_child_witness : exists s, sched_run (sched_boot 4096 1) child_exits = Done s /\ running s 0 = Done 100 /\
  exists s', wait_children s 100 2 = Done (false, s') /\ s_tasks s' !! 200 = None /\ 200 ∉ s_procs s'.
Proof.
  eexists. split; [vm_compute; reflexivity|]. split; [vm_compute; reflexivity|].
  edestruct (fun s t tz => wait_collects_child s 100 2 t [] 200 [] tz) as (s' & H1 & H2 & H3 & _);
    [.. | exists s'; split; [exact H1 | split; [exact H2 | exact H3]]].
  - vm_compute. reflexivity.
  - reflexivity.
  - discriminate.
  - set_solver.
  - vm_compute. reflexivity.
  - vm_compute. reflexivity.
  - reflexivity.
  - reflexivity.
  - vm_compute. set_solver.
  - apply (bool_decide_unpack _). vm_compute. exact I.
  - constructor.
Defined.

(** The children of the caller still hold the collected child: the next call reads freed memory. *)
Theorem second_wait_reads_freed_child : exists s s', sched_run (sched_boot 4096 1) child_exits = Done s /\
  wait_children s 100 (-1) = Done (false, s') /\ wait_children s' 100 (-1) = Fault.
Proof. eexists. eexists. split; [vm_compute; reflexivity|]. split; [vm_compute; reflexivity|]. vm_compute. reflexivity. Qed.

(** A process that was woken while it ran is in the run queue when it exits, and stays there:
    once it is collected, the next [schedule] reads freed memory. *)
Theorem collected_process_in_run_queue : exists s,
  sched_run (sched_boot 4096 1) [Fork 0 100; Schedule 0; Tail 0; Fork 0 200; Schedule 0; Tail 0; Wake 200; Exit 0; Schedule 0; Tail 0; Wait 0 (-1)] = Done s /\
  s_rq s = [200] /\ s_tasks s !! 200 = None /\ schedule s 0 = Fault.
Proof. eexists. split; [vm_compute; reflexivity|]. repeat split; vm_compute; reflexivity. Qed.

(** 300 is the child of 200, which exits first: 300 becomes a child of 100 by its parent field, but
    100 does not have it among its children, and does not wait for it. *)
Theorem orphan_is_not_listed : exists s t t',
  sched_run (sched_boot 4096 1) [Fork 0 100; Schedule 0; Tail 0; Fork 0 200; Sleep 0; Schedule 0; Tail 0; Fork 0 300; Exit 0; Schedule 0; Tail 0] = Done s /\
  s_tasks s !! 300 = Some t /\ k_parent t = 100 /\ s_tasks s !! 100 = Some t' /\ k_children t' = [200].
Proof. eexists. eexists. eexists. split; [vm_compute; reflexivity|]. split; [vm_compute; reflexivity|]. split; [reflexivity|]. split; [vm_compute; reflexivity | reflexivity]. Qed.

(** [fork] leaves the signals that wait for the parent with the child, and empties the parent's queue. *)
Theorem fork_moves_signals s cur p t s' : p <> NULL -> p <> cur -> s_tasks s !! cur = Some t -> fork s cur p = Done (p, s') ->
  exists t' u, s_tasks s' !! cur = Some t' /\ s_tasks s' !! p = Some u /\ k_sigs t' = [] /\ k_sig_pending t' = k_sig_pending t /\ k_sigs u = k_sigs t.
Proof.
  intros Hn Hne Et. unfold fork. rewrite (proj2 (Z.eqb_neq p NULL)) by exact Hn. unfold change at 1, the_task. rewrite Et. cbn [deref obind].
  destruct (get_next_pid _) as [[pid s2]| | |] eqn:E; cbn [obind]; try discriminate.
  destruct (next_pid_frame _ _ _ _ E) as (T & _). unfold change, the_task, add_process_to_rq. cbn [put_task set_tasks s_tasks add_process_to_list set_procs] in T |- *.
  destruct (in_list _ _); cbn [set_rq set_procs set_tasks put_task s_tasks add_process_to_list]; rewrite T, lookup_insert_ne, lookup_insert_eq by auto; cbn [deref obind];
    intros [= <-]; cbn [put_task set_tasks s_tasks set_procs set_rq add_process_to_list]; eexists; eexists; rewrite lookup_insert_eq, lookup_insert_ne, lookup_insert_eq by auto; repeat split; reflexivity.
Qed.
