(* ===== verification/Trap.v ===== *)
(** * Trap frames and signals (src/src/traps.h, signal.h, signal.cc, process.cc)

    The registers that an interrupt saves, and the frame that the kernel puts on the stack
    of a process to make it run a signal handler.  User memory is a function from
    addresses to bytes. *)
From Stdlib Require Import ZArith ZifyBool Lia.
From stdpp Require Import base option list gmap.
From S2P Require Import Prelude CString Sched.

(** ** Structures in memory: fields of given sizes, one after the other *)

Definition get_bytes (m : mem) (p : Z) (n : nat) : list Z := (fun i => m (p + Z.of_nat i)) <$> seq 0 n.

Fixpoint encode (sizes : list nat) (vals : list Z) : list Z :=
  match sizes, vals with
  | n :: sizes, v :: vals => le_bytes n v ++ encode sizes vals
  | _, _ => []
  end.

Fixpoint decode (sizes : list nat) (bs : list Z) : list Z :=
  match sizes with
  | [] => []
  | n :: sizes => le_value (take n bs) :: decode sizes (drop n bs)
  end.

Lemma get_bytes_length m p n : length (get_bytes m p n) = n.
Proof. unfold get_bytes. rewrite length_fmap, length_seq. reflexivity. Qed.

Lemma get_put_bytes m p bs n : length bs = n -> get_bytes (put_bytes m p bs) p n = bs.
Proof.
  intros <-. apply list_eq_same_length with (n := length bs); [reflexivity | apply get_bytes_length |].
  intros i x y Hi Hx Hy. unfold get_bytes in Hx. apply list_lookup_fmap_Some in Hx as (j & -> & Hj).
  apply lookup_seq in Hj as [-> _]. apply put_bytes_at. exact Hy.
Qed.

Lemma get_bytes_agree m m' p n : (forall x, p <= x < p + Z.of_nat n -> m' x = m x) -> get_bytes m' p n = get_bytes m p n.
Proof.
  intros H. unfold get_bytes. apply list_fmap_ext. intros i x Hi. apply lookup_seq in Hi as [-> Hi]. apply H. lia.
Qed.

Lemma decode_encode sizes vals : Forall2 (fun n v => 0 <= v < 256 ^ Z.of_nat n) sizes vals -> decode sizes (encode sizes vals) = vals.
Proof.
  induction 1 as [|n v sizes vals Hv _ IH]; cbn [encode decode]; [reflexivity|].
  rewrite take_app_length', drop_app_length' by (rewrite le_bytes_length; reflexivity). rewrite IH. f_equal.
  rewrite le_value_bytes. apply Z.mod_small, Hv.
Qed.

(** ** [trap_frame_t] *)

Record trap_frame := mk_frame {
  ebx : Z; ecx : Z; edx : Z; esi : Z; edi : Z; ebp : Z; eax : Z;
  gs : Z; padding4 : Z; fs : Z; padding3 : Z; ds : Z; padding1 : Z; es : Z; padding2 : Z;
  trapno : Z; err : Z; eip : Z; cs : Z; padding5 : Z; eflags : Z;
  esp : Z; ss : Z; padding6 : Z
}.

Definition frame_sizes : list nat := [4; 4; 4; 4; 4; 4; 4; 2; 2; 2; 2; 2; 2; 2; 2; 4; 4; 4; 2; 2; 4; 4; 2; 2]%nat.

Definition frame_fields (f : trap_frame) : list Z :=
  [ebx f; ecx f; edx f; esi f; edi f; ebp f; eax f; gs f; padding4 f; fs f; padding3 f; ds f; padding1 f; es f; padding2 f;
   trapno f; err f; eip f; cs f; padding5 f; eflags f; esp f; ss f; padding6 f].

Definition frame_from (l : list Z) : trap_frame :=
  let n (i : nat) := nth i l 0 in
  mk_frame (n 0%nat) (n 1%nat) (n 2%nat) (n 3%nat) (n 4%nat) (n 5%nat) (n 6%nat) (n 7%nat) (n 8%nat) (n 9%nat) (n 10%nat) (n 11%nat) (n 12%nat) (n 13%nat) (n 14%nat) (n 15%nat) (n 16%nat) (n 17%nat) (n 18%nat) (n 19%nat)
    (n 20%nat) (n 21%nat) (n 22%nat) (n 23%nat).

(** Registers are words. *)
Definition frame_ok (f : trap_frame) : Prop := Forall2 (fun n v => 0 <= v < 256 ^ Z.of_nat n) frame_sizes (frame_fields f).

Definition frame_bytes (f : trap_frame) : list Z := encode frame_sizes (frame_fields f).

Definition TRAP_FRAME_SIZE : Z := 72.

Lemma frame_from_fields f : frame_from (frame_fields f) = f.
Proof. destruct f. reflexivity. Qed.

Lemma frame_bytes_length f : length (frame_bytes f) = 72%nat.
Proof. reflexivity. Qed.

Lemma frame_roundtrip f : frame_ok f -> frame_from (decode frame_sizes (frame_bytes f)) = f.
Proof. intros H. unfold frame_bytes. rewrite decode_encode by exact H. apply frame_from_fields. Qed.

Definition with_eax v (f : trap_frame) : trap_frame :=
  mk_frame (ebx f) (ecx f) (edx f) (esi f) (edi f) (ebp f) v (gs f) (padding4 f) (fs f) (padding3 f) (ds f) (padding1 f) (es f) (padding2 f)
    (trapno f) (err f) (eip f) (cs f) (padding5 f) (eflags f) (esp f) (ss f) (padding6 f).
Definition with_eip_esp v w (f : trap_frame) : trap_frame :=
  mk_frame (ebx f) (ecx f) (edx f) (esi f) (edi f) (ebp f) (eax f) (gs f) (padding4 f) (fs f) (padding3 f) (ds f) (padding1 f) (es f) (padding2 f)
    (trapno f) (err f) v (cs f) (padding5 f) (eflags f) w (ss f) (padding6 f).

(** ** [signal_t] *)

Definition NSIG : nat := 32.
Definition SIG_DFL : Z := 2 ^ 32 - 1.
Definition SIG_KILL : Z := 0.
Definition SIG_SEGV : Z := 1.
Definition SYS_SIGRET : Z := 8.

Record sigaction := mk_sa { sa_handler : Z; sa_flags : Z; sa_mask : Z }.
Record signal := mk_signal { sg_count : Z; sg_action : list sigaction }.

Definition signal_init : signal := mk_signal 0 (replicate NSIG (mk_sa SIG_DFL 0 0)).

(** [m_count] and all [NSIG] actions *)
Definition signal_copy (sg : signal) : signal := mk_signal (sg_count sg) (take NSIG (sg_action sg)).

(** [m_action[i]] with the index a [uint32]. *)
Definition action_of (sg : signal) (i : Z) : outcome sigaction := deref (zget (sg_action sg) i).

Definition set_sigaction (sg : signal) (sig : Z) (sa : sigaction) : outcome signal :=
  let! _ := action_of sg (u32 (sig - 1)) in
  Done (mk_signal (sg_count sg) (zset (sg_action sg) (u32 (sig - 1)) sa)).

(** [sa.m_flags] and [sa.m_mask] are not set: what the stack held. *)
Definition do_sigaction (sg : signal) (sig handler : Z) (junk : Z * Z) : outcome (Z * signal) :=
  if (sig <? 1) || (Z.of_nat NSIG <=? sig) then Done (-1, sg)
  else let! sg := set_sigaction sg sig (mk_sa handler (fst junk) (snd junk)) in Done (0, sg).

(** What becomes of the process: it exits, or it goes on with its frame. *)
Inductive delivery := Exits | Goes_on (f : trap_frame) (m : mem).

Definition handle_signal_default (sig : Z) (f : trap_frame) (m : mem) : delivery :=
  if sig =? SIG_SEGV then Exits else Goes_on f m.

(** [sigframe_t]: [m_ret_addr] at 0, [m_sig] at 4, [m_trap_frame] at 8, [m_ret_code] at 80. *)
Definition SIGFRAME_SIZE : Z := 88.
Definition RET_CODE : Z := 80.

(** [(frame->esp - sizeof(sigframe_t)) & -8UL] *)
Definition sig_frame_at (f : trap_frame) : Z := Z.land (u32 (esp f - SIGFRAME_SIZE)) (u32 (-8)).

Definition put_word (m : mem) (p v : Z) : mem := put_bytes m p (le_bytes 4 v).
Definition put_short (m : mem) (p v : Z) : mem := put_bytes m p (le_bytes 2 v).

Definition handle_signal (sg : signal) (f : trap_frame) (si : siginfo) (m : mem) : outcome delivery :=
  let sig := si_sig si in
  let! action := action_of sg (u32 (sig - 1)) in
  if sa_handler action =? SIG_DFL then Done (handle_signal_default sig f m)
  else
    let p := sig_frame_at f in
    let m := put_word m (p + 4) (si_sig si) in
    let m := put_bytes m (p + 8) (frame_bytes f) in
    let m := put_word m p (p + RET_CODE) in
    let m := upd m (p + RET_CODE) 0xb8 in
    let m := put_word m (p + RET_CODE + 1) SYS_SIGRET in
    let m := put_short m (p + RET_CODE + 5) 0x80cd in
    Done (Goes_on (with_eip_esp (sa_handler action) p f) m).

Definition do_sigreturn (f : trap_frame) (m : mem) : Z * trap_frame :=
  let p := esp f - 4 in
  (0, frame_from (decode frame_sizes (get_bytes m (p + 8) (Z.to_nat TRAP_FRAME_SIZE)))).

(** [process_t::do_signal]: the first signal that waits; [None] when there is none. *)
Definition do_signal (t : task) (sg : signal) (f : trap_frame) (m : mem) : outcome (task * delivery) :=
  match k_sigs t with
  | [] => Done (t, Goes_on f m)
  | si :: rest =>
      let t := with_sigs rest (negb (bool_decide (rest = []))) t in
      let! d := handle_signal sg f si m in Done (t, d)
  end.

(** ** Delivery of a signal *)

Lemma sig_frame_place f : 95 <= esp f < 2 ^ 32 ->
  sig_frame_at f mod 8 = 0 /\ esp f - 95 <= sig_frame_at f /\ sig_frame_at f + SIGFRAME_SIZE <= esp f.
Proof.
  intros H. unfold sig_frame_at, SIGFRAME_SIZE. rewrite u32_small by lia. change (u32 (-8)) with (2 ^ 32 - 2 ^ 3).
  rewrite land_high_mask by lia. change (2 ^ 3) with 8. divlia.
Qed.

Lemma get_bytes_frame m p bs q n : q + Z.of_nat n <= p \/ p + zlen bs <= q -> get_bytes (put_bytes m p bs) q n = get_bytes m q n.
Proof. intros H. apply get_bytes_agree. intros x Hx. apply put_bytes_frame. lia. Qed.

(** What the signal frame holds. *)
Record sig_frame_ok (m : mem) (p sig : Z) (f : trap_frame) : Prop := {
  sf_ret : get_bytes m p 4 = le_bytes 4 (p + RET_CODE);
  sf_sig : get_bytes m (p + 4) 4 = le_bytes 4 sig;
  sf_frame : get_bytes m (p + 8) 72 = frame_bytes f;
  sf_code : get_bytes m (p + RET_CODE) 7 = [0xb8] ++ le_bytes 4 SYS_SIGRET ++ [0xcd; 0x80]
}.

Lemma upd_put m p v : upd m p v = put_bytes m p [v].
Proof. reflexivity. Qed.

Lemma get_bytes_app m p a b : get_bytes m p (a + b) = get_bytes m p a ++ get_bytes m (p + Z.of_nat a) b.
Proof.
  unfold get_bytes. rewrite seq_app, fmap_app. f_equal. rewrite <- (Nat.add_0_r a) at 1. rewrite Nat.add_comm, <- fmap_add_seq, <- list_fmap_compose.
  apply list_fmap_ext. intros i x _. cbn. f_equal. lia.
Qed.

(** The writes of [handle_signal], which do not overlap. *)
Lemma sig_frame_written m p sig f : let m' :=
    put_short (put_word (upd (put_word (put_bytes (put_word m (p + 4) sig) (p + 8) (frame_bytes f)) p (p + RET_CODE)) (p + RET_CODE) 0xb8) (p + RET_CODE + 1) SYS_SIGRET) (p + RET_CODE + 5) 0x80cd in
  sig_frame_ok m' p sig f /\ forall x, x < p \/ p + SIGFRAME_SIZE <= x -> m' x = m x.
Proof.
  assert (L : forall n v, zlen (le_bytes n v) = Z.of_nat n) by (intros; unfold zlen; rewrite le_bytes_length; reflexivity).
  assert (Lf : zlen (frame_bytes f) = 72) by reflexivity. assert (L1 : forall v : Z, zlen [v] = 1) by reflexivity.
  unfold put_short, put_word, RET_CODE, SIGFRAME_SIZE. rewrite upd_put. split; [split|].
  - rewrite !(get_bytes_frame _ _ _ p) by (rewrite ?L, ?L1; lia). apply get_put_bytes, le_bytes_length.
  - rewrite !(get_bytes_frame _ _ _ (p + 4)) by (rewrite ?L, ?Lf, ?L1; lia). apply get_put_bytes, le_bytes_length.
  - rewrite !(get_bytes_frame _ _ _ (p + 8)) by (rewrite ?L, ?L1; lia). apply get_put_bytes, frame_bytes_length.
  - unfold RET_CODE. rewrite (get_bytes_app _ _ 1 6), (get_bytes_app _ _ 4 2). replace (p + 80 + Z.of_nat 1 + Z.of_nat 4) with (p + 80 + 5) by lia. replace (p + 80 + Z.of_nat 1) with (p + 80 + 1) by lia. f_equal; [|f_equal].
    + rewrite !(get_bytes_frame _ _ _ (p + 80) 1) by (rewrite ?L; lia). apply get_put_bytes. reflexivity.
    + rewrite (get_bytes_frame _ _ _ (p + 80 + 1) 4) by (rewrite ?L; lia). apply get_put_bytes. reflexivity.
    + apply get_put_bytes. reflexivity.
  - intros x Hx. rewrite !put_bytes_frame by (rewrite ?L, ?Lf, ?L1; lia). reflexivity.
Qed.

(** A signal with a handler: the signal frame lies aligned below the stack of the process and holds the return address,
    the number, the registers and the code that calls [SYS_SIGRET]; as long as the saved registers are not touched,
    [do_sigreturn] finds them. *)
Lemma signal_frame_roundtrip sg f si m a : frame_ok f -> 95 <= esp f -> action_of sg (u32 (si_sig si - 1)) = Done a -> sa_handler a <> SIG_DFL ->
  let p := sig_frame_at f in
  exists m', handle_signal sg f si m = Done (Goes_on (with_eip_esp (sa_handler a) p f) m') /\
    p mod 8 = 0 /\ p + SIGFRAME_SIZE <= esp f /\ sig_frame_ok m' p (si_sig si) f /\
    (forall x, x < p \/ p + SIGFRAME_SIZE <= x -> m' x = m x) /\
    forall m2 f2, (forall x, p + 8 <= x < p + RET_CODE -> m2 x = m' x) -> esp f2 = p + 4 -> do_sigreturn f2 m2 = (0, f).
Proof.
  intros Hf He Ha Hh p.
  assert (Hb : esp f < 2 ^ 32) by (unfold frame_ok, frame_fields, frame_sizes in Hf; repeat (apply Forall2_cons in Hf as [? Hf]); lia).
  destruct (sig_frame_place f) as (A1 & A2 & A3); [lia|]. destruct (sig_frame_written m p (si_sig si) f) as [Hm Hx].
  eexists. unfold handle_signal. rewrite Ha. cbn [obind]. rewrite (proj2 (Z.eqb_neq _ _)) by exact Hh. split; [reflexivity|].
  split; [exact A1|]. split; [exact A3|]. split; [exact Hm|]. split; [exact Hx|]. intros m2 f2 H2 Hsp. unfold do_sigreturn. rewrite Hsp. f_equal.
  replace (p + 4 - 4 + 8) with (p + 8) by lia. change (Z.to_nat TRAP_FRAME_SIZE) with 72%nat.
  assert (E : get_bytes m2 (p + 8) 72 = frame_bytes f) by (rewrite <- (sf_frame _ _ _ _ Hm); apply get_bytes_agree; intros x Hr; apply H2; unfold RET_CODE; lia).
  rewrite E. apply frame_roundtrip, Hf.
Qed.

Definition demo_frame : trap_frame :=
  mk_frame 1 2 3 4 5 6 7 0x23 0 0x23 0 0x23 0 0x23 0 0x80 0 0x8048100 0x1b 0 0x202 0xbfffffc0 0x23 0.

(** [kill] does not check the number: signal 0, the one the code calls [SIG_KILL], reads in front of the table. *)
Theorem signal_zero_faults sg f m : (length (sg_action sg) = NSIG) -> handle_signal sg f (mk_si SIG_KILL 1) m = Fault.
Proof.
  intros H. unfold handle_signal, action_of, SIG_KILL. cbn [si_sig]. change (u32 (0 - 1)) with (2 ^ 32 - 1).
  destruct (zget (sg_action sg) (2 ^ 32 - 1)) as [a|] eqn:E; [|reflexivity]. apply zget_Some_range in E. unfold zlen in E. rewrite H in E. unfold NSIG in E. lia.
Qed.
