(* ===== verification/Syscall.v ===== *)
(** * System calls (src/src/syscall.cc, sys_socket.cc) and their stubs (userlib.cc)

    A stub of the user library puts its arguments into registers and raises interrupt
    0x80; the kernel finds a function by the number in [eax], takes the arguments out of the
    saved registers, and puts the result into [eax].  The functions are those of the other
    files: here a call is the function with its arguments, and what it does to the rest of the
    kernel is a parameter; signals are done here. *)
From Stdlib Require Import ZArith ZifyBool Lia.
From stdpp Require Import base option list gmap.
From S2P Require Import Prelude CString Sched Trap.

Definition HZ : Z := 100.
Definition MAX_SYSCALL : Z := 25.
Definition MAX_SYS_SOCKET : Z := 5.

(** The numbers of [syscall.h] and of [sys_socket.h]. *)
Definition SYS_PRINT : Z := 0.
Definition SYS_FORK : Z := 1.
Definition SYS_EXEC : Z := 2.
Definition SYS_MMAP : Z := 3.
Definition SYS_EXIT : Z := 4.
Definition SYS_WAIT : Z := 5.
Definition SYS_SLEEP : Z := 6.
Definition SYS_SIGNAL : Z := 7.
Definition SYS_KILL : Z := 9.
Definition SYS_OPEN : Z := 10.
Definition SYS_CLOSE : Z := 11.
Definition SYS_READ : Z := 12.
Definition SYS_WRITE : Z := 13.
Definition SYS_LINK : Z := 14.
Definition SYS_UNLINK : Z := 15.
Definition SYS_MKDIR : Z := 16.
Definition SYS_MKNOD : Z := 17.
Definition SYS_DUP : Z := 18.
Definition SYS_STAT : Z := 19.
Definition SYS_CHDIR : Z := 20.
Definition SYS_PIPE : Z := 21.
Definition SYS_SENDTO : Z := 22.
Definition SYS_RECVFROM : Z := 23.
Definition SYS_SOCKET : Z := 24.
Definition SOCK_SOCKET : Z := 0.
Definition SOCK_BIND : Z := 1.
Definition SOCK_LISTEN : Z := 2.
Definition SOCK_ACCEPT : Z := 3.
Definition SOCK_CONNECT : Z := 4.

(** A function of the kernel with its arguments: pointers and unsigned numbers as words,
    [int] as a signed number. *)
Inductive call :=
| Print (color str : Z)
| Fork_
| Exec (path arg : Z)
| Mmap (addr len prot flags : Z)
| Exit_
| Wait_ (pid : Z)
| Sleep_ (ticks : Z)
| Signal (sig handler : Z)
| Sigret
| Kill (pid sig : Z)
| Open (path mode : Z)
| Close (fd : Z)
| Read (fd buf size : Z)
| Write (fd buf size : Z)
| Link (path_old path_new : Z)
| Unlink (path : Z)
| Mkdir (path : Z)
| Mknod (path major minor : Z)
| Dup (fd : Z)
| Stat (fd st : Z)
| Chdir (path : Z)
| Pipe_ (fd : Z)
| Send_to (fd buf size addr : Z)
| Recv_from (fd buf size addr : Z)
| Socket (family type protocol : Z)
| Bind (fd addr : Z)
| Listen (fd backlog : Z)
| Accept (fd addr : Z)
| Connect (fd addr : Z)
| Bad_call.

(** ** The kernel side *)

Definition sys_print (f : trap_frame) : call := Print (ebx f) (ecx f).
Definition sys_fork (f : trap_frame) : call := Fork_.
Definition sys_exec (f : trap_frame) : call := Exec (ebx f) (ecx f).
Definition sys_mmap (f : trap_frame) : call := Mmap (ebx f) (ecx f) (edx f) (esi f).
Definition sys_exit (f : trap_frame) : call := Exit_.
Definition sys_wait (f : trap_frame) : call := Wait_ (s32 (ebx f)).
Definition sys_sleep (f : trap_frame) : call := Sleep_ (u32 (ebx f * HZ)).
Definition sys_signal (f : trap_frame) : call := Signal (ebx f) (ecx f).
Definition sys_sigret (f : trap_frame) : call := Sigret.
Definition sys_kill (f : trap_frame) : call := Kill (ebx f) (ecx f).
Definition sys_open (f : trap_frame) : call := Open (ebx f) (s32 (ecx f)).
Definition sys_close (f : trap_frame) : call := Close (s32 (ebx f)).
Definition sys_read (f : trap_frame) : call := Read (s32 (ebx f)) (ecx f) (edx f).
Definition sys_write (f : trap_frame) : call := Write (s32 (ebx f)) (ecx f) (edx f).
Definition sys_link (f : trap_frame) : call := Link (ebx f) (ecx f).
Definition sys_unlink (f : trap_frame) : call := Unlink (ebx f).
Definition sys_mkdir (f : trap_frame) : call := Mkdir (ebx f).
Definition sys_mknod (f : trap_frame) : call := Mknod (ebx f) (s32 (ecx f)) (s32 (edx f)).
Definition sys_dup (f : trap_frame) : call := Dup (s32 (ebx f)).
Definition sys_stat (f : trap_frame) : call := Stat (s32 (ebx f)) (ecx f).
Definition sys_chdir (f : trap_frame) : call := Chdir (ebx f).
Definition sys_pipe (f : trap_frame) : call := Pipe_ (ebx f).
Definition sys_send_to (f : trap_frame) : call := Send_to (s32 (ebx f)) (ecx f) (edx f) (esi f).
Definition sys_recv_from (f : trap_frame) : call := Recv_from (s32 (ebx f)) (ecx f) (edx f) (esi f).

(** [sys_socket_t]: the number of the call is in [ebx]. *)
Definition socket_socket (f : trap_frame) : call := Socket (ecx f) (edx f) (esi f).
Definition socket_bind (f : trap_frame) : call := Bind (s32 (ecx f)) (edx f).
Definition socket_listen (f : trap_frame) : call := Listen (s32 (ecx f)) (edx f).
Definition socket_accept (f : trap_frame) : call := Accept (s32 (ecx f)) (edx f).
Definition socket_connect (f : trap_frame) : call := Connect (s32 (ecx f)) (edx f).

Definition s_sys_socket_table : list (trap_frame -> call) := [socket_socket; socket_bind; socket_listen; socket_accept; socket_connect].

(** [Bad_call] returns -1 *)
Definition do_sys_socket (f : trap_frame) : call :=
  if MAX_SYS_SOCKET <=? ebx f then Bad_call
  else match zget s_sys_socket_table (ebx f) with Some g => g f | None => Bad_call end.

Definition s_system_call_table : list (trap_frame -> call) :=
  [sys_print; sys_fork; sys_exec; sys_mmap; sys_exit; sys_wait; sys_sleep; sys_signal; sys_sigret; sys_kill; sys_open; sys_close; sys_read;
   sys_write; sys_link; sys_unlink; sys_mkdir; sys_mknod; sys_dup; sys_stat; sys_chdir; sys_pipe; sys_send_to; sys_recv_from; do_sys_socket].

(** The function that a frame asks for: [None] when there is no such number. *)
Definition call_of (f : trap_frame) : option call :=
  if MAX_SYSCALL <=? eax f then None
  else match zget s_system_call_table (eax f) with Some g => Some (g f) | None => None end.

(** User memory, the signals of the process, and everything else. *)
Record kernel (R : Type) := mk_kernel { ks_mem : mem; ks_signal : signal; ks_rest : R }.
Arguments mk_kernel {R}.
Arguments ks_mem {R}.
Arguments ks_signal {R}.
Arguments ks_rest {R}.

Section Dispatch.
Context {R : Type} (other : call -> trap_frame -> kernel R -> outcome (Z * trap_frame * kernel R)).

Definition perform (junk : Z * Z) (c : call) (f : trap_frame) (k : kernel R) : outcome (Z * trap_frame * kernel R) :=
  match c with
  | Signal sig handler =>
      let! ' (r, sg) := do_sigaction (ks_signal k) sig handler junk in Done (r, f, mk_kernel (ks_mem k) sg (ks_rest k))
  | Sigret => let '(r, f) := do_sigreturn f (ks_mem k) in Done (r, f, k)
  | Bad_call => Done (-1, f, k)
  | c => other c f k
  end.

Definition do_syscall (junk : Z * Z) (f : trap_frame) (k : kernel R) : outcome (trap_frame * kernel R) :=
  match call_of f with
  | None => Done (with_eax (u32 (-1)) f, k)
  | Some c => let! ' (r, f, k) := perform junk c f k in Done (with_eax (u32 r) f, k)
  end.
End Dispatch.

(** ** The user side: [int $0x80] with [eax], and [ebx], [ecx], [edx], [esi] in this order *)

Definition int80 (f : trap_frame) (a : Z) (args : list Z) : trap_frame :=
  let arg i v := match args !! i with Some x => u32 x | None => v end in
  mk_frame (arg 0%nat (ebx f)) (arg 1%nat (ecx f)) (arg 2%nat (edx f)) (arg 3%nat (esi f)) (edi f) (ebp f) (u32 a) (gs f) (padding4 f) (fs f) (padding3 f)
    (ds f) (padding1 f) (es f) (padding2 f) (trapno f) (err f) (eip f) (cs f) (padding5 f) (eflags f) (esp f) (ss f) (padding6 f).

Section Stubs.
Context (f : trap_frame).

Definition u_fork := int80 f SYS_FORK [].
Definition u_exec (path arg : Z) := int80 f SYS_EXEC [path; arg].
Definition u_color_print (color str : Z) := int80 f SYS_PRINT [color; str].
Definition u_mmap (addr len prot flags : Z) := int80 f SYS_MMAP [addr; len; prot; flags].
Definition u_exit (val : Z) := int80 f SYS_EXIT [val].
Definition u_wait (pid : Z) := int80 f SYS_WAIT [pid].
Definition u_sleep (second : Z) := int80 f SYS_SLEEP [second].
Definition u_kill (pid sig : Z) := int80 f SYS_KILL [pid; sig].
Definition u_signal (sig handler : Z) := int80 f SYS_SIGNAL [sig; handler].
Definition u_open (path mode : Z) := int80 f SYS_OPEN [path; mode].
Definition u_close (fd : Z) := int80 f SYS_CLOSE [fd].
Definition u_read (fd buf size : Z) := int80 f SYS_READ [fd; buf; size].
Definition u_write (fd buf size : Z) := int80 f SYS_WRITE [fd; buf; size].
Definition u_mkdir (path : Z) := int80 f SYS_MKDIR [path].
Definition u_link (path_old path_new : Z) := int80 f SYS_LINK [path_old; path_new].
Definition u_unlink (path : Z) := int80 f SYS_UNLINK [path].
Definition u_mknod (path major minor : Z) := int80 f SYS_MKNOD [path; major; minor].
Definition u_dup (fd : Z) := int80 f SYS_DUP [fd].
Definition u_chdir (path : Z) := int80 f SYS_CHDIR [path].
Definition u_fstat (fd st : Z) := int80 f SYS_STAT [fd; st].
Definition u_pipe (fd : Z) := int80 f SYS_PIPE [fd].
Definition u_socket (domain type protocol : Z) := int80 f SYS_SOCKET [SOCK_SOCKET; domain; type; protocol].
Definition u_bind (sockfd addr : Z) := int80 f SYS_SOCKET [SOCK_BIND; sockfd; addr].
Definition u_listen (sockfd backlog : Z) := int80 f SYS_SOCKET [SOCK_LISTEN; sockfd; backlog].
Definition u_connect (sockfd addr : Z) := int80 f SYS_SOCKET [SOCK_CONNECT; sockfd; addr].
Definition u_accept (sockfd addr : Z) := int80 f SYS_SOCKET [SOCK_ACCEPT; sockfd; addr].

(** [None]: the stub returns -1 without a system call. *)
Definition u_send_to (fd buf size addr : Z) : option trap_frame :=
  if (buf =? NULL) || (addr =? NULL) then None else Some (int80 f SYS_SENDTO [fd; buf; size; addr]).
Definition u_recv_from (fd buf size addr : Z) : option trap_frame :=
  if (buf =? NULL) || (addr =? NULL) then None else Some (int80 f SYS_RECVFROM [fd; buf; size; addr]).

(** The stub of every call, with the user's arguments; [exit] takes a value that the kernel ignores. *)
Definition stub (c : call) : option trap_frame :=
  match c with
  | Print color str => Some (u_color_print color str)
  | Fork_ => Some u_fork
  | Exec path arg => Some (u_exec path arg)
  | Mmap addr len prot flags => Some (u_mmap addr len prot flags)
  | Exit_ => Some (u_exit 0)
  | Wait_ pid => Some (u_wait pid)
  | Sleep_ second => Some (u_sleep second)
  | Signal sig handler => Some (u_signal sig handler)
  | Sigret => Some (with_eax SYS_SIGRET f)
  | Kill pid sig => Some (u_kill pid sig)
  | Open path mode => Some (u_open path mode)
  | Close fd => Some (u_close fd)
  | Read fd buf size => Some (u_read fd buf size)
  | Write fd buf size => Some (u_write fd buf size)
  | Link a b => Some (u_link a b)
  | Unlink path => Some (u_unlink path)
  | Mkdir path => Some (u_mkdir path)
  | Mknod path major minor => Some (u_mknod path major minor)
  | Dup fd => Some (u_dup fd)
  | Stat fd st => Some (u_fstat fd st)
  | Chdir path => Some (u_chdir path)
  | Pipe_ fd => Some (u_pipe fd)
  | Send_to fd buf size addr => u_send_to fd buf size addr
  | Recv_from fd buf size addr => u_recv_from fd buf size addr
  | Socket family type protocol => Some (u_socket family type protocol)
  | Bind fd addr => Some (u_bind fd addr)
  | Listen fd backlog => Some (u_listen fd backlog)
  | Accept fd addr => Some (u_accept fd addr)
  | Connect fd addr => Some (u_connect fd addr)
  | Bad_call => None
  end.
End Stubs.

Definition word (z : Z) : Prop := 0 <= z < 2 ^ 32.
Definition int (z : Z) : Prop := - 2 ^ 31 <= z < 2 ^ 31.

(** The C types of the arguments. *)
Definition call_ok (c : call) : Prop :=
  match c with
  | Print a b | Exec a b | Signal a b | Kill a b | Link a b => word a /\ word b
  | Mmap a b c d => word a /\ word b /\ word c /\ word d
  | Open a b => word a /\ int b
  | Wait_ a | Close a | Dup a => int a
  | Sleep_ a | Unlink a | Mkdir a | Chdir a | Pipe_ a => word a
  | Read a b c | Write a b c => int a /\ word b /\ word c
  | Mknod a b c => word a /\ int b /\ int c
  | Stat a b | Bind a b | Listen a b | Accept a b | Connect a b => int a /\ word b
  | Send_to a b c d | Recv_from a b c d => int a /\ word b /\ word c /\ word d
  | Socket a b c => word a /\ word b /\ word c
  | _ => True
  end.

(** The kernel counts ticks where the user counts seconds. *)
Definition kernel_view (c : call) : call := match c with Sleep_ second => Sleep_ (u32 (second * HZ)) | c => c end.

Lemma s32_u32 z : int z -> s32 (u32 z) = z.
Proof.
  unfold int, s32, u32. intros H. rewrite Z.mod_mod by lia. destruct (z mod 2 ^ 32 <? 2 ^ 31) eqn:E; tests; divlia.
Qed.

Ltac words :=
  repeat match goal with
  | |- context [s32 (u32 ?z)] => rewrite (s32_u32 z) by assumption
  | |- context [u32 ?z] => rewrite (u32_small z) by assumption
  end.

Lemma call_of_int80 f n args g : zget s_system_call_table (u32 n) = Some g -> call_of (int80 f n args) = Some (g (int80 f n args)).
Proof.
  intros E. unfold call_of. cbn [int80 eax]. rewrite E. apply zget_Some_range in E. change (zlen s_system_call_table) with MAX_SYSCALL in E.
  destruct (MAX_SYSCALL <=? u32 n) eqn:H; tests; [lia | reflexivity].
Qed.

Lemma socket_of_int80 f n k a b g : zget s_sys_socket_table (u32 k) = Some g -> do_sys_socket (int80 f n (k :: a :: b)) = g (int80 f n (k :: a :: b)).
Proof.
  intros E. unfold do_sys_socket. cbn [int80 ebx]. cbn [lookup list_lookup]. rewrite E. apply zget_Some_range in E. change (zlen s_sys_socket_table) with MAX_SYS_SOCKET in E.
  destruct (MAX_SYS_SOCKET <=? u32 k) eqn:H; tests; [lia | reflexivity].
Qed.

Lemma call_of_stub c f f1 : call_ok c -> stub f c = Some f1 -> call_of f1 = Some (kernel_view c).
Proof.
  intros Hc. destruct c; cbn [stub]; unfold u_send_to, u_recv_from; try (destruct (_ || _); [discriminate|]); intros [= <-]; cbn [call_ok] in Hc;
    repeat match goal with H : _ /\ _ |- _ => destruct H end; try reflexivity;
    (etransitivity; [apply call_of_int80; reflexivity|]); try (etransitivity; [apply f_equal, socket_of_int80; reflexivity|]);
    f_equal; cbn; unfold sys_print, sys_exec, sys_mmap, sys_wait, sys_sleep, sys_signal, sys_kill, sys_open, sys_close, sys_read, sys_write, sys_link, sys_unlink,
      sys_mkdir, sys_mknod, sys_dup, sys_stat, sys_chdir, sys_pipe, sys_send_to, sys_recv_from, socket_socket, socket_bind, socket_listen, socket_accept, socket_connect;
    cbn [int80 ebx ecx edx esi lookup list_lookup kernel_view]; words; reflexivity.
Qed.

(** Through the stubs a program gets what it asks for: for every function of the user library, with
    arguments of their C types and any other content of the registers, the kernel performs that
    function with these arguments (seconds as ticks), and the program finds its result in [eax]
    and every other register as the function left it. *)
Theorem stubs_reach_the_kernel {R : Type} other junk c f f1 (k : kernel R) : call_ok c -> stub f c = Some f1 ->
  do_syscall other junk f1 k = (let! ' (r, f2, k2) := perform other junk (kernel_view c) f1 k in Done (with_eax (u32 r) f2, k2)) /\
  (esp f1, eip f1) = (esp f, eip f).
Proof.
  intros Hc Hs. split.
  - unfold do_syscall. rewrite (call_of_stub c f f1 Hc Hs). reflexivity.
  - destruct c; cbn [stub] in Hs; unfold u_send_to, u_recv_from in Hs; try (destruct (_ || _); [discriminate|]); try discriminate; injection Hs as <-; reflexivity.
Qed.

(** A kernel that answers [read] with the size it was asked for. *)
Definition echo (c : call) (f : trap_frame) (k : kernel unit) : outcome (Z * trap_frame * kernel unit) :=
  match c with Read fd buf size => Done (size - fd, f, k) | _ => Done (-1, f, k) end.

Lemma stubs_reach_the_kernel_witness :
  let k := mk_kernel (fun _ => 0) signal_init tt in
  exists f1, stub demo_frame (Read (-3) 0x8049000 512) = Some f1 /\ do_syscall echo (0, 0) f1 k = Done (with_eax 515 f1, k).
Proof.
  eexists. split; [reflexivity|].
  rewrite (proj1 (stubs_reach_the_kernel echo (0, 0) (Read (-3) 0x8049000 512) demo_frame _ _ ltac:(unfold call_ok, int, word; lia) eq_refl)). reflexivity.
Defined.

(** Numbers that are not calls: the result is -1, and nothing else happens. *)
Lemma unknown_call_refused {R} other junk f (k : kernel R) : MAX_SYSCALL <= eax f -> do_syscall other junk f k = Done (with_eax (2 ^ 32 - 1) f, k).
Proof. intros H. unfold do_syscall, call_of. rewrite (proj2 (Z.leb_le _ _)) by exact H. reflexivity. Qed.

(** ** The way back from a signal handler *)

(** The instruction [ret]. *)
Definition ret_insn (f : trap_frame) (m : mem) : trap_frame :=
  with_eip_esp (le_value (get_bytes m (esp f) 4)) (u32 (esp f + 4)) f.

(** The instructions [mov eax, imm32; int 0x80] at [eip]: the frame the kernel is entered with. *)
Definition call_insns (f : trap_frame) (m : mem) : option trap_frame :=
  let code := get_bytes m (eip f) 7 in
  if bool_decide (take 1 code = [0xb8]) && bool_decide (drop 5 code = [0xcd; 0x80])
  then Some (with_eax (le_value (take 4 (drop 1 code))) (with_eip_esp (u32 (eip f + 7)) (esp f) f))
  else None.

Lemma return_code_runs m p f2 : get_bytes m p 4 = le_bytes 4 (p + RET_CODE) -> get_bytes m (p + RET_CODE) 7 = [0xb8] ++ le_bytes 4 SYS_SIGRET ++ [0xcd; 0x80] -> 0 <= p -> p + SIGFRAME_SIZE < 2 ^ 32 -> esp f2 = p ->
  exists f3, call_insns (ret_insn f2 m) m = Some f3 /\ esp f3 = p + 4 /\ eax f3 = SYS_SIGRET.
Proof.
  intros S1 S4 Hp He Hsp. unfold SIGFRAME_SIZE in He. unfold call_insns, ret_insn. rewrite Hsp, S1, le_value_bytes.
  rewrite Z.mod_small by (unfold RET_CODE; lia). cbn [with_eip_esp eip]. rewrite S4. eexists. split; [reflexivity|].
  split; [cbn [with_eax with_eip_esp esp]; apply u32_small; lia | reflexivity].
Qed.

(** C25: A signal with a handler, from delivery to return.  The handler is entered with the number of the signal as its
    argument, on an aligned stack below everything the process has on its own, and nothing else of memory changes.
    If it then returns with [ret] from where it was entered, whatever it did to the other registers and to memory, the return
    address, the saved registers and the return code excepted, the return code makes the system call [SYS_SIGRET] and the process
    goes on with every register as it was when the signal came, except [eax]: there [do_syscall] puts the result of
    the call, 0, over what was restored. *)
Theorem signal_roundtrip {R : Type} other junk sg f si m a : frame_ok f -> 96 <= esp f -> action_of sg (u32 (si_sig si - 1)) = Done a -> sa_handler a <> SIG_DFL ->
  let p := sig_frame_at f in
  exists m', handle_signal sg f si m = Done (Goes_on (with_eip_esp (sa_handler a) p f) m') /\
    p mod 8 = 0 /\ p + SIGFRAME_SIZE <= esp f /\ get_bytes m' (p + 4) 4 = le_bytes 4 (si_sig si) /\
    (forall x, x < p \/ p + SIGFRAME_SIZE <= x -> m' x = m x) /\
    forall m2 f2 sg2 (rest : R), (forall x, p <= x < p + 4 \/ p + 8 <= x < p + SIGFRAME_SIZE -> m2 x = m' x) -> esp f2 = p ->
      exists f3, call_insns (ret_insn f2 m2) m2 = Some f3 /\
        do_syscall other junk f3 (mk_kernel m2 sg2 rest) = Done (with_eax 0 f, mk_kernel m2 sg2 rest).
Proof.
  intros Hf He Ha Hh p. destruct (signal_frame_roundtrip sg f si m a Hf ltac:(lia) Ha Hh) as (m' & E & A1 & A2 & Hm & Hx & Hback). fold p in E, A1, A2, Hm, Hx, Hback.
  assert (Hb : esp f < 2 ^ 32) by (unfold frame_ok, frame_fields, frame_sizes in Hf; repeat (apply Forall2_cons in Hf as [? Hf]); lia).
  destruct (sig_frame_place f ltac:(lia)) as (_ & A3 & _). fold p in A3.
  exists m'. split; [exact E|]. split; [exact A1|]. split; [exact A2|]. split; [apply Hm|]. split; [exact Hx|]. intros m2 f2 sg2 rest H2 Hsp.
  assert (Agree : forall q n, (p <= q /\ q + Z.of_nat n <= p + 4) \/ (p + 8 <= q /\ q + Z.of_nat n <= p + SIGFRAME_SIZE) -> get_bytes m2 q n = get_bytes m' q n)
    by (intros q n Hq; apply get_bytes_agree; intros x Hr; apply H2; lia).
  destruct (return_code_runs m2 p f2) as (f3 & Ec & E1 & E2); try (unfold SIGFRAME_SIZE in *; lia); try exact Hsp.
  { rewrite Agree by (unfold SIGFRAME_SIZE; lia). apply Hm. }
  { rewrite Agree by (unfold SIGFRAME_SIZE, RET_CODE; lia). apply Hm. }
  exists f3. split; [exact Ec|]. unfold do_syscall. assert (Ef : call_of f3 = Some Sigret) by (unfold call_of; rewrite E2; reflexivity). rewrite Ef.
  cbn [perform ks_mem]. rewrite (Hback m2 f3); [reflexivity | | exact E1]. intros x Hr. apply H2. unfold RET_CODE, SIGFRAME_SIZE in *. lia.
Qed.

(** Signal 2 with a handler, which leaves other things in the registers and in its argument. *)
Lemma signal_roundtrip_witness : exists sg, do_sigaction signal_init 2 0x8048000 (0, 0) = Done (0, sg) /\
  exists m', handle_signal sg demo_frame (mk_si 2 1) (fun _ => 0) = Done (Goes_on (with_eip_esp 0x8048000 0xbfffff68 demo_frame) m') /\
    let m2 := upd m' 0xbfffff6c 99 in
    exists f3, call_insns (ret_insn (with_eip_esp 0x8048100 0xbfffff68 (frame_from [])) m2) m2 = Some f3 /\
      do_syscall echo (0, 0) f3 (mk_kernel m2 sg tt) = Done (with_eax 0 demo_frame, mk_kernel m2 sg tt).
Proof.
  eexists. split; [vm_compute; reflexivity|].
  edestruct (fun sg => signal_roundtrip (R := unit) echo (0, 0) sg demo_frame (mk_si 2 1) (fun _ => 0) (mk_sa 0x8048000 0 0)) as (m' & H & _ & _ & _ & _ & H2);
    [.. | exists m'; split; [exact H | intros m2; apply H2; [|reflexivity]]].
  - unfold frame_ok. cbn [frame_sizes frame_fields demo_frame ebx ecx edx esi edi ebp eax gs padding4 fs padding3 ds padding1 es padding2 trapno err eip cs padding5 eflags esp ss padding6].
    repeat constructor; vm_compute; congruence.
  - vm_compute. discriminate.
  - vm_compute. reflexivity.
  - vm_compute. discriminate.
  - intros x Hx. unfold m2. apply upd_ne. change (sig_frame_at demo_frame) with 0xbfffff68 in Hx. lia.
Defined.

(** [do_syscall] puts the result of [sys_sigret] into the frame just restored: a program that had something in [eax] loses it. *)
Theorem sigreturn_clears_eax {R : Type} other junk m f f2 (sg : signal) (rest : R) : frame_ok f -> eax f <> 0 ->
  get_bytes m (esp f2 + 4) 72 = frame_bytes f -> eax f2 = SYS_SIGRET ->
  exists f', do_syscall other junk f2 (mk_kernel m sg rest) = Done (f', mk_kernel m sg rest) /\ eax f' <> eax f.
Proof.
  intros Hf Hne Hm Hax. assert (E : call_of f2 = Some Sigret) by (unfold call_of; rewrite Hax; reflexivity).
  eexists. unfold do_syscall. rewrite E. cbn [perform ks_mem]. unfold do_sigreturn.
  replace (esp f2 - 4 + 8) with (esp f2 + 4) by lia. change (Z.to_nat TRAP_FRAME_SIZE) with 72%nat.
  rewrite Hm, frame_roundtrip by exact Hf. split; [reflexivity|]. apply not_eq_sym. exact Hne.
Qed.
