(* ===== verification/Exec.v ===== *)
(** * Starting a program (src/src/process.cc, elf.cc)

    [exec] maps the segments of an ELF file and builds the first stack of the program: the arguments, the
    pointers to them, and a frame as a call of [main] would have made it. *)
From Stdlib Require Import ZArith ZifyBool Lia.
From stdpp Require Import base option list gmap.
From S2P Require Import Prelude Interfaces CString Buddy Paging Vm Sched Trap.

Definition USER_STACK_TOP : Z := 0xc0000000.
Definition PROT_READ : Z := 1.
Definition PROT_WRITE : Z := 2.
Definition PROT_EXEC : Z := 4.

(** [argument_t]: [m_argc], then [MAX_ARGS] strings of [MAX_ARG_LEN] bytes. *)
Definition MAX_ARGS : Z := 16.
Definition MAX_ARG_LEN : Z := 32.
Definition m_argv (arg i : Z) : Z := arg + 4 + MAX_ARG_LEN * i.

(** Bytes of a string that is looked at; the strings are shorter than [MAX_ARG_LEN]. *)
Definition STR_FUEL : nat := 4096.

Definition get_word (m : mem) (p : Z) : Z := le_value (get_bytes m p 4).

(** [for (i...) frame->esp -= strlen(arg->m_argv[i]) + 1;] *)
Fixpoint args_room (k : nat) (m : mem) (arg i esp : Z) : outcome Z :=
  match k with
  | O => Done esp
  | S k => let! n := deref (strlen STR_FUEL m (m_argv arg i)) in args_room k m arg (i + 1) (u32 (esp - (n + 1)))
  end.

(** [argv[i] = p; strcpy(p, arg->m_argv[i]); p += strlen(p) + 1;] *)
Fixpoint put_args (k : nat) (m : mem) (arg argv i p : Z) : outcome mem :=
  match k with
  | O => Done m
  | S k =>
      let m := put_word m (argv + 4 * i) p in
      let! ' (_, m) := deref (strcpy STR_FUEL m p (m_argv arg i)) in
      let! n := deref (strlen STR_FUEL m p) in
      put_args k m arg argv (i + 1) (p + (n + 1))
  end.

(** The stack from [esp] up: return address, [argc], [argv], the pointers, the strings. *)
Definition build_stack (m : mem) (arg : Z) : outcome (Z * mem) :=
  let argc := get_word m arg in
  let! esp := args_room (Z.to_nat argc) m arg 0 (USER_STACK_TOP - 4) in
  let esp := u32 (esp - esp mod 4) in
  let esp := u32 (esp - argc * 4 - argc * 4 - 4 - 4) in
  let m := put_word m esp 0xffffffff in
  let m := put_word m (esp + 4) argc in
  let m := put_word m (esp + 8) (esp + 12) in
  let! m := put_args (Z.to_nat argc) m arg (esp + 12) 0 (esp + 12 + 4 * argc) in Done (esp, m).

Section Stack.
Context {V : Type} `{VmaPool V}.

Definition init_user_stack (l : list vm_area) (g : V) (m : mem) (f : trap_frame) (arg : Z) : outcome (Z * list vm_area * V * mem * trap_frame) :=
  let! a := vma_alloc g in
  match a with
  | (None, g) => Done (-1, l, g, m, f)
  | (Some _, g) =>
      match insert_vma l (mk_vma (USER_STACK_TOP - PAGE_SIZE) USER_STACK_TOP (Z.lor PROT_READ PROT_WRITE) VM_STACK) g with
      | (false, l, g) => Done (-1, l, g, m, f)
      | (true, l, g) =>
          if arg =? NULL then Done (0, l, g, m, with_eip_esp (eip f) (USER_STACK_TOP - 4) f)
          else let! ' (esp, m) := build_stack m arg in Done (0, l, g, m, with_eip_esp (eip f) esp f)
      end
  end.
End Stack.

(** ** Strings copied *)

Lemma put_bytes_app a : forall m p b, put_bytes m p (a ++ b) = put_bytes (put_bytes m p a) (p + zlen a) b.
Proof.
  induction a as [|x a IH]; intros m p b; cbn [app put_bytes]; [rewrite Z.add_0_r; reflexivity|].
  rewrite IH, zlen_cons. f_equal. lia.
Qed.

Lemma cstr_agree s : forall m m' p, (forall x, p <= x <= p + zlen s -> m' x = m x) -> cstr m p s -> cstr m' p s.
Proof.
  induction s as [|c s IH]; intros m m' p H; cbn [cstr].
  - intros <-. apply H. unfold zlen. cbn. lia.
  - rewrite zlen_cons in H. intros (H1 & H2 & H3). pose proof (zlen_nonneg s). split; [rewrite H by lia; exact H1|]. split; [exact H2|].
    apply (IH m); [intros x Hx; apply H; lia | exact H3].
Qed.

Lemma strcpy_loop_spec s : forall fuel m d src, cstr m src s -> (length s < fuel)%nat -> d + zlen s <= src \/ src + zlen s < d ->
  strcpy_loop fuel m d src = Some (put_bytes m d s, d + zlen s).
Proof.
  induction s as [|c s IH]; intros [|fuel] m d src Hs Hf Hd; cbn [length] in Hf; try lia; cbn [cstr] in Hs; cbn [strcpy_loop put_bytes].
  - rewrite Hs. cbn [Z.eqb]. rewrite Z.add_0_r. reflexivity.
  - destruct Hs as (H1 & H2 & H3). rewrite zlen_cons in Hd |- *. pose proof (zlen_nonneg s). rewrite H1. rewrite (proj2 (Z.eqb_neq c 0)) by exact H2.
    rewrite IH; [f_equal; f_equal; lia | | lia | lia]. apply (cstr_agree s m); [intros x Hx; apply upd_ne; lia | exact H3].
Qed.

Lemma strcpy_spec s fuel m d src : cstr m src s -> (length s < fuel)%nat -> d + zlen s < src \/ src + zlen s < d ->
  strcpy fuel m d src = Some (d, put_bytes m d (s ++ [0])).
Proof.
  intros Hs Hf Hd. unfold strcpy. rewrite (strcpy_loop_spec s) by (auto; lia). rewrite put_bytes_app. reflexivity.
Qed.

Lemma cstr_put s m p : Forall (fun c => c <> 0) s -> cstr (put_bytes m p (s ++ [0])) p s.
Proof.
  revert m p. induction s as [|c s IH]; intros m p H; cbn [app put_bytes cstr]; [apply upd_eq|].
  apply Forall_cons in H as [Hc Hs]. split; [|split; [exact Hc | apply IH, Hs]].
  rewrite put_bytes_frame by lia. apply upd_eq.
Qed.

Lemma cstr_nonzero s : forall m p, cstr m p s -> Forall (fun c => c <> 0) s.
Proof. induction s as [|c s IH]; intros m p H; constructor; [apply H | apply (IH m (p + 1)), H]. Qed.

Lemma get_word_put m p v : 0 <= v < 2 ^ 32 -> get_word (put_word m p v) p = v.
Proof. intros H. unfold get_word, put_word. rewrite get_put_bytes by apply le_bytes_length. rewrite le_value_bytes. apply Z.mod_small. exact H. Qed.

Lemma get_word_agree m m' p : (forall x, p <= x < p + 4 -> m' x = m x) -> get_word m' p = get_word m p.
Proof. intros H. unfold get_word. rewrite (get_bytes_agree m m' p 4); [reflexivity|]. intros x Hx. apply H. lia. Qed.

Lemma put_word_frame m p v x : x < p \/ p + 4 <= x -> put_word m p v x = m x.
Proof. intros H. unfold put_word. apply put_bytes_frame. unfold zlen. rewrite le_bytes_length. lia. Qed.

(** ** The arguments *)

Definition str_size (s : list Z) : Z := zlen s + 1.

(** The strings of an [argument_t] from number [i] on. *)
Definition args_in (m : mem) (arg i : Z) (args : list (list Z)) : Prop :=
  forall j s, args !! j = Some s -> cstr m (m_argv arg (i + Z.of_nat j)) s /\ zlen s < MAX_ARG_LEN.

Lemma args_in_cons m arg i s args : args_in m arg i (s :: args) <-> (cstr m (m_argv arg i) s /\ zlen s < MAX_ARG_LEN) /\ args_in m arg (i + 1) args.
Proof.
  unfold args_in. split.
  - intros H. split; [specialize (H 0%nat s eq_refl); rewrite Z.add_0_r in H; exact H|].
    intros j x Hj. specialize (H (S j) x Hj). replace (i + 1 + Z.of_nat j) with (i + Z.of_nat (S j)) by lia. exact H.
  - intros [H0 H1] [|j] x Hj; [injection Hj as <-; rewrite Z.add_0_r; exact H0|].
    replace (i + Z.of_nat (S j)) with (i + 1 + Z.of_nat j) by lia. apply H1, Hj.
Qed.

Lemma args_in_agree m m' arg i args : 0 <= i -> i + zlen args <= MAX_ARGS -> (forall x, arg <= x < arg + 4 + MAX_ARG_LEN * MAX_ARGS -> m' x = m x) ->
  args_in m arg i args -> args_in m' arg i args.
Proof.
  unfold args_in, zlen. intros Hi Hn H Ha j s Hj. destruct (Ha j s Hj) as [H1 H2]. split; [|exact H2].
  apply lookup_lt_Some in Hj. apply (cstr_agree s m); [|exact H1]. intros x Hx. apply H. unfold m_argv, MAX_ARG_LEN, MAX_ARGS, zlen in *. lia.
Qed.

Lemma str_len (s : list Z) : zlen s < MAX_ARG_LEN -> (length s < STR_FUEL)%nat.
Proof. unfold zlen, MAX_ARG_LEN, STR_FUEL. lia. Qed.

Lemma args_total args : 0 <= zsum str_size args.
Proof. apply zsum_nonneg. intros s. unfold str_size. pose proof (zlen_nonneg s). lia. Qed.

Lemma args_room_spec args : forall m arg i esp, args_in m arg i args -> 0 <= esp - zsum str_size args -> esp < 2 ^ 32 ->
  args_room (length args) m arg i esp = Done (esp - zsum str_size args).
Proof.
  induction args as [|s args IH]; intros m arg i esp H H1 H2; cbn [length args_room]; [cbn; f_equal; lia|].
  apply args_in_cons in H as [[Hs Hl] H]. rewrite (strlen_spec m s) by (auto using str_len). cbn [deref obind].
  change (zsum str_size (s :: args)) with ((zlen s + 1) + zsum str_size args) in *. pose proof (args_total args). pose proof (zlen_nonneg s).
  rewrite u32_small by lia. rewrite (IH m arg (i + 1)); [f_equal; lia | exact H | lia | lia].
Qed.

(** What the program finds: pointer [j] of [argv] points at string [j]. *)
Definition args_at (m : mem) (argv i p : Z) (args : list (list Z)) : Prop :=
  forall j s, args !! j = Some s -> let q := p + zsum str_size (take j args) in get_word m (argv + 4 * (i + Z.of_nat j)) = q /\ cstr m q s.

Lemma put_args_spec args : forall m arg argv i p, args_in m arg i args -> 0 <= i -> i + zlen args <= MAX_ARGS ->
  0 <= p -> p + zsum str_size args < 2 ^ 32 -> argv + 4 * (i + zlen args) <= p ->
  (arg + 4 + MAX_ARG_LEN * MAX_ARGS <= argv \/ p + zsum str_size args <= arg) ->
  exists m', put_args (length args) m arg argv i p = Done m' /\ args_at m' argv i p args /\
    forall x, x < argv + 4 * i \/ argv + 4 * (i + zlen args) <= x < p \/ p + zsum str_size args <= x -> m' x = m x.
Proof.
  induction args as [|s args IH]; intros m arg argv i p Ha Hi Hn Hp Hb Hv Hd; cbn [length put_args].
  { exists m. split; [reflexivity|]. split; [intros j x Hj; discriminate | reflexivity]. }
  pose proof (args_total args) as Ht. pose proof (zlen_nonneg s) as Hls. pose proof (zlen_nonneg args). rewrite zlen_cons in Hn, Hv |- *.
  change (zsum str_size (s :: args)) with ((zlen s + 1) + zsum str_size args) in *.
  set (m1 := put_word m (argv + 4 * i) p).
  assert (F1 : forall x, x < argv + 4 * i \/ argv + 4 * i + 4 <= x -> m1 x = m x) by (intros x Hx; apply put_word_frame; exact Hx).
  assert (Ha1 : args_in m1 arg i (s :: args)) by (apply (args_in_agree m); [lia | rewrite zlen_cons; lia | intros x Hx; apply F1; lia | exact Ha]).
  apply args_in_cons in Ha1 as [[Hs Hl] Ha1]. assert (Hsp : m_argv arg i + zlen s < arg + 4 + MAX_ARG_LEN * MAX_ARGS /\ arg <= m_argv arg i) by (unfold m_argv, MAX_ARG_LEN, MAX_ARGS in *; lia).
  rewrite (strcpy_spec s) by (auto using str_len; lia). cbn [deref obind]. set (m2 := put_bytes m1 p (s ++ [0])).
  assert (F2 : forall x, x < p \/ p + zlen s + 1 <= x -> m2 x = m1 x) by (intros x Hx; apply put_bytes_frame; rewrite zlen_app; change (zlen [0]) with 1; lia).
  assert (C2 : cstr m2 p s) by (apply cstr_put, (cstr_nonzero s m1 (m_argv arg i)), Hs).
  rewrite (strlen_spec m2 s) by (auto using str_len). cbn [deref obind].
  destruct (IH m2 arg argv (i + 1) (p + (zlen s + 1))) as (m' & E & A & F); [apply (args_in_agree m1); [lia | lia | intros x Hx; apply F2; lia | exact Ha1] | lia..|].
  exists m'. split; [exact E|]. split.
  - intros [|j] x Hj.
    + injection Hj as <-. cbn [take]. change (zsum str_size []) with 0. rewrite Z.add_0_r, Z.add_0_r. split.
      * rewrite (get_word_agree m1); [apply get_word_put; lia|]. intros y Hy. rewrite F, F2 by lia. reflexivity.
      * apply (cstr_agree s m2); [|exact C2]. intros y Hy. apply F. lia.
    + destruct (A j x Hj) as [A1 A2]. cbn [take]. change (zsum str_size (s :: take j args)) with ((zlen s + 1) + zsum str_size (take j args)).
      replace (i + Z.of_nat (S j)) with (i + 1 + Z.of_nat j) by lia. rewrite Z.add_assoc. split; [exact A1 | exact A2].
  - intros x Hx. rewrite F, F2, F1 by lia. reflexivity.
Qed.

(** The stack as [main] finds it. *)
Record stack_image (m : mem) (sp : Z) (args : list (list Z)) : Prop := {
  si_ret : get_word m sp = 0xffffffff;
  si_argc : get_word m (sp + 4) = zlen args;
  si_argv : get_word m (sp + 8) = sp + 12;
  si_args : args_at m (sp + 12) 0 (sp + 12 + 4 * zlen args) args
}.

Lemma args_bound m arg args : args_in m arg 0 args -> zsum str_size args <= MAX_ARG_LEN * zlen args.
Proof.
  intros H. apply zsum_le. intros s Hs. apply list_elem_of_lookup in Hs as [j Hj]. destruct (H j s Hj) as [_ Hl]. unfold str_size. lia.
Qed.

Lemma build_stack_spec m arg args : get_word m arg = zlen args -> zlen args <= MAX_ARGS -> args_in m arg 0 args ->
  (arg + 4 + MAX_ARG_LEN * MAX_ARGS <= USER_STACK_TOP - PAGE_SIZE \/ USER_STACK_TOP <= arg) ->
  exists sp m', build_stack m arg = Done (sp, m') /\ sp mod 4 = 0 /\ USER_STACK_TOP - PAGE_SIZE <= sp /\
    sp + 12 + 4 * zlen args + zsum str_size args <= USER_STACK_TOP /\ stack_image m' sp args /\ forall x, x < sp \/ USER_STACK_TOP <= x -> m' x = m x.
Proof.
  intros Hc Hn Ha Hd. pose proof (args_bound m arg args Ha) as Hb. pose proof (args_total args) as Ht. pose proof (zlen_nonneg args) as H0.
  unfold MAX_ARG_LEN, MAX_ARGS, USER_STACK_TOP, PAGE_SIZE in *. unfold build_stack. rewrite Hc.
  replace (Z.to_nat (zlen args)) with (length args) by (unfold zlen; lia).
  rewrite (args_room_spec args) by (auto; unfold USER_STACK_TOP; lia). cbn [obind]. unfold USER_STACK_TOP.
  set (e := 0xc0000000 - 4 - zsum str_size args). assert (He : 0 <= e mod 4 < 4) by (apply Z.mod_pos_bound; lia).
  rewrite (u32_small (e - e mod 4)) by lia. rewrite u32_small by lia. set (sp := e - e mod 4 - zlen args * 4 - zlen args * 4 - 4 - 4).
  set (m1 := put_word m sp _). set (m2 := put_word m1 (sp + 4) _). set (m3 := put_word m2 (sp + 8) _).
  assert (F : forall x, x < sp \/ sp + 12 <= x -> m3 x = m x) by (intros x Hx; unfold m3, m2, m1; rewrite !put_word_frame by lia; reflexivity).
  destruct (put_args_spec args m3 arg (sp + 12) 0 (sp + 12 + 4 * zlen args)) as (m' & E & A & G); unfold MAX_ARGS, MAX_ARG_LEN; try lia.
  { apply (args_in_agree m); unfold MAX_ARGS, MAX_ARG_LEN; [lia | lia | intros x Hx; apply F; lia | exact Ha]. }
  exists sp, m'. rewrite E. split; [reflexivity|]. split; [unfold sp; divlia|]. split; [unfold sp; lia|]. split; [unfold sp; lia|].
  assert (K : forall p, sp <= p -> p + 4 <= sp + 12 -> get_word m' p = get_word m3 p) by (intros p H1 H2; apply get_word_agree; intros x Hx; apply G; lia).
  split; [split|].
  - rewrite K by lia. unfold m3, m2. rewrite (get_word_agree m1); [apply get_word_put; lia|]. intros x Hx. rewrite !put_word_frame by lia. reflexivity.
  - rewrite K by lia. unfold m3. rewrite (get_word_agree m2); [apply get_word_put; lia|]. intros x Hx. apply put_word_frame. lia.
  - rewrite K by lia. apply get_word_put. lia.
  - exact A.
  - intros x Hx. rewrite G, F by lia. reflexivity.
Qed.

(** C27: The first stack of a program: with any arguments an [argument_t] can hold, [init_user_stack] succeeds and
    leaves [esp] aligned and inside the page it mapped; above it are the return address,
    [argc], [argv], one pointer per argument, each to the argument as a string, all of it below the
    top of the stack; no other byte of memory changes. *)
Theorem user_stack_layout {V} `{VmaPool V} (l l' : list vm_area) (g g1 g2 : V) junk m f arg args :
  vma_alloc g = Done (Some junk, g1) ->
  insert_vma l (mk_vma (USER_STACK_TOP - PAGE_SIZE) USER_STACK_TOP (Z.lor PROT_READ PROT_WRITE) VM_STACK) g1 = (true, l', g2) ->
  arg <> NULL -> get_word m arg = zlen args -> zlen args <= MAX_ARGS -> args_in m arg 0 args ->
  (arg + 4 + MAX_ARG_LEN * MAX_ARGS <= USER_STACK_TOP - PAGE_SIZE \/ USER_STACK_TOP <= arg) ->
  exists m' sp, init_user_stack l g m f arg = Done (0, l', g2, m', with_eip_esp (eip f) sp f) /\
    sp mod 4 = 0 /\ USER_STACK_TOP - PAGE_SIZE <= sp /\ sp + 12 + 4 * zlen args + zsum str_size args <= USER_STACK_TOP /\
    stack_image m' sp args /\ forall x, x < sp \/ USER_STACK_TOP <= x -> m' x = m x.
Proof.
  intros Hg Hl Hn Hc Hm Ha Hd. destruct (build_stack_spec m arg args Hc Hm Ha Hd) as (sp & m' & E & P).
  exists m', sp. split; [|exact P]. unfold init_user_stack. rewrite Hg. cbn [obind]. rewrite Hl.
  rewrite (proj2 (Z.eqb_neq _ _)) by exact Hn. rewrite E. reflexivity.
Qed.

(** [ls /bin] with its [argument_t] in a page of the kernel. *)
Definition demo_args : list (list Z) := [[108; 115]; [47; 98; 105; 110]].
Definition demo_arg_mem : mem := put_bytes (fun _ => 0) 0xc1000000 (le_bytes 4 2 ++ [108; 115] ++ replicate 30 0 ++ [47; 98; 105; 110]).

#[local] Instance any_area : VmaPool nat := {| vma_alloc n := match n with O => Done (None, O) | S k => Done (Some (mk_vma 0 0 0 0), k) end; vma_free n _ := S n |}.

Lemma user_stack_layout_witness : exists m' sp,
  init_user_stack [mk_vma 0x8048000 0x8050000 7 7] 3%nat demo_arg_mem demo_frame 0xc1000000 =
    Done (0, [mk_vma 0x8048000 0x8050000 7 7; mk_vma 0xbffff000 0xc0000000 3 VM_STACK], 2%nat, m', with_eip_esp (eip demo_frame) sp demo_frame) /\
  stack_image m' sp demo_args /\ sp = 0xbfffffdc.
Proof.
  destruct (user_stack_layout [mk_vma 0x8048000 0x8050000 7 7] [mk_vma 0x8048000 0x8050000 7 7; mk_vma 0xbffff000 0xc0000000 3 VM_STACK] 3%nat 2%nat 2%nat (mk_vma 0 0 0 0) demo_arg_mem demo_frame 0xc1000000 demo_args) as (m' & sp & E & _ & _ & _ & S & _);
    [reflexivity | vm_compute; reflexivity | discriminate | vm_compute; reflexivity | vm_compute; discriminate | | right; vm_compute; discriminate |].
  - intros [|[|j]] s Hj; [| |discriminate]; injection Hj as <-; (split; [vm_compute; repeat split; discriminate | vm_compute; reflexivity]).
  - exists m', sp. split; [exact E|]. split; [exact S|]. vm_compute in E. injection E. intros. lia.
Defined.
