(* ===== verification/Elf.v ===== *)
(** * Loading programs (src/src/elf.cc)

    The loader reads program headers and segments through a descriptor ([Files]), maps an area for
    each segment ([Vm]), takes a block of pages for it ([Buddy]), enters the pages in the page
    table ([Paging]) and copies the segment through the kernel's addresses of these pages. *)
From Stdlib Require Import ZArith ZifyBool Lia.
From stdpp Require Import base option list gmap.
From S2P Require Import Prelude Interfaces CString Pool Buddy Paging Vm FsDisk FsDir Pipe Files Trap.

Definition ELF_MAGIC : Z := 0x464c457f.
Definition PT_LOAD : Z := 1.
Definition PROG_HDR_SIZE : Z := 32.
Definition ELF_HDR_SIZE : Z := 52.

Record prog_hdr := mk_ph {
  ph_type : Z; ph_off : Z; ph_vaddr : Z; ph_paddr : Z; ph_filesz : Z; ph_memsz : Z; ph_flags : Z; ph_align : Z
}.

Definition ph_of (bs : list Z) : prog_hdr :=
  let n (i : nat) := nth i (decode (replicate 8 4%nat) bs) 0 in
  mk_ph (n 0%nat) (n 1%nat) (n 2%nat) (n 3%nat) (n 4%nat) (n 5%nat) (n 6%nat) (n 7%nat).

(** The fields that the loader looks at. *)
Record elf_hdr := mk_elf { eh_magic : Z; eh_entry : Z; eh_phoff : Z; eh_phnum : Z }.

Definition elf_of (bs : list Z) : elf_hdr :=
  let n (i : nat) := nth i (decode [4; 12; 2; 2; 4; 4; 4; 4; 4; 2; 2; 2; 2; 2; 2]%nat bs) 0 in
  mk_elf (n 0%nat) (n 5%nat) (n 6%nat) (n 11%nat).

(** [math_t::log(2, n)]: the loop doubles [num] at most 31 times before it is a negative [int32]. *)
Fixpoint log_loop (fuel : nat) (num n ret : Z) : Z :=
  match fuel with
  | O => ret
  | S k => if num <? n then log_loop k (s32 (num * 2)) n (ret + 1) else ret
  end.
Definition log2_up (n : Z) : Z := log_loop 32 1 n 0.

(** The address space that is filled: areas, page tables and the bytes of the pages. *)
Record space (V : Type) := mk_space { sp_areas : list vm_area; sp_pool : V; sp_mach : machine; sp_bytes : mem }.
Arguments mk_space {V}.
Arguments sp_areas {V}.
Arguments sp_pool {V}.
Arguments sp_mach {V}.
Arguments sp_bytes {V}.

Section Loader.
Context {V S P : Type} `{HV : VmaPool V} `{HS : SocketOps S} `{HP : ObjectPool P}.
Context (dev_read : Z -> option (Z -> outcome (Z * list Z))) (dev_write : Z -> option (list Z -> outcome Z)).
Implicit Type w : world S P.

(** Whether all of it could be read, and what was read. *)
Definition read_file_from w cur fd offset size : outcome (bool * list Z * world S P) :=
  let! ' (r, w) := do_seek w cur fd offset in
  if r <? 0 then Done (false, [], w)
  else
    let! ' (n, bytes, w) := do_read dev_read w cur fd size in
    Done (u32 n =? size, bytes, w).

(** The body of the loop for a header of type [PT_LOAD].  [alloc_pages] may return [NULL], which is not
    checked: the copy then goes to the first page of memory. *)
Definition load_segment w cur fd dir (ph : prog_hdr) (a : space V) : outcome (Z * space V * world S P) :=
  let vaddr := Z.land (ph_vaddr ph) PAGE_MASK in
  let offset := u32 (ph_vaddr ph - vaddr) in
  let len := PAGE_ALIGN (u32 (ph_memsz ph + Z.land vaddr (PAGE_SIZE - 1))) in
  let! ' (r, l, g) := do_mmap (sp_areas a) (sp_pool a) vaddr len 7 MAP_FIXED in
  if s32 r <? 0 then Done (-1, mk_space l g (sp_mach a) (sp_bytes a), w)
  else
    let! ' (mem, m1) := alloc_pages (mm (sp_mach a)) (log2_up (len / PAGE_SIZE)) in
    if mem =? NULL then Fault
    else
      let! s := map_pages (set_mm (sp_mach a) m1) dir vaddr (VA2PA mem) len (Z.lor PTE_W PTE_U) in
      let! ' (ok, bytes, w) := read_file_from w cur fd (ph_off ph) (ph_filesz ph) in
      let b := put_bytes (sp_bytes a) (mem + offset) bytes in
      if negb ok then Done (-1, mk_space l g s b, w)
      else
        let b := if ph_filesz ph <? ph_memsz ph then snd (memset b (mem + offset + ph_filesz ph) 0 (ph_memsz ph - ph_filesz ph)) else b in
        Done (0, mk_space l g s b, w).

(** A header of another type: [continue], without moving [file_offset]. *)
Fixpoint load_headers (n : nat) w cur fd dir file_offset (a : space V) : outcome (Z * space V * world S P) :=
  match n with
  | O => Done (0, a, w)
  | Datatypes.S n =>
      let! ' (ok, bytes, w) := read_file_from w cur fd file_offset PROG_HDR_SIZE in
      if negb ok then Done (-1, a, w)
      else
        let ph := ph_of bytes in
        if negb (ph_type ph =? PT_LOAD) then load_headers n w cur fd dir file_offset a
        else
          let! ' (r, a, w) := load_segment w cur fd dir ph a in
          if r <? 0 then Done (-1, a, w) else load_headers n w cur fd dir (u32 (file_offset + PROG_HDR_SIZE)) a
  end.

Definition load_elf_binary w cur fd dir (elf : elf_hdr) (a : space V) : outcome (Z * space V * world S P) :=
  load_headers (Z.to_nat (eh_phnum elf)) w cur fd dir (eh_phoff elf) a.

(** [goto end] closes the file; when it could not be opened, [do_close] gets -1. *)
Definition load w cur dir path (f : trap_frame) (a : space V) : outcome (Z * space V * trap_frame * world S P) :=
  let finish ret a f w fd := let! ' (_, w) := do_close w cur fd in Done (ret, a, f, w) in
  let! ' (fd, w) := do_open dev_read dev_write w cur path MODE_RDWR in
  if fd <? 0 then finish (-1) a f w fd
  else
    let! ' (n, bytes, w) := do_read dev_read w cur fd ELF_HDR_SIZE in
    if negb (u32 n =? ELF_HDR_SIZE) then finish (-1) a f w fd
    else
      let elf := elf_of bytes in
      if negb (eh_magic elf =? ELF_MAGIC) then finish (-1) a f w fd
      else
        let! ' (r, a, w) := load_elf_binary w cur fd dir elf a in
        if negb (r =? 0) then finish (-1) a f w fd
        else finish 0 a (with_eip_esp (eh_entry elf) (esp f) f) w fd.
End Loader.

(** ** Reading a file through a descriptor *)

(** [fd] of the process is a regular file with inode [y] on the disk [d], open for reading. *)
Definition reads {S P : Type} (w : world S P) (cur fd : Z) (d : disk) (y : inode) : Prop :=
  exists p f x i, running w cur p /\ zget (q_files p) fd = Some (Some f) /\ 0 <= fd < MAX_OPEN_FILE /\ zget (w_files w) f = Some x /\
    l_type x = TYPE_INODE /\ l_readable x = true /\ l_inode x = Some i /\ zget (f_inodes (w_fs w)) i = Some y /\ f_disk (w_fs w) = d /\
    disk_ok d /\ file_wf d y /\ i_type y <> I_TYPE_DEV.

Lemma reads_size {S P} (w : world S P) cur fd d y : reads w cur fd d y -> i_size y <= 71680.
Proof. intros (p & f & x & i & _ & _ & _ & _ & _ & _ & _ & _ & _ & _ & Wf & _). exact (proj2 (fw_size _ _ Wf)). Qed.

Section Reading.
Context {S P : Type} `{HS : SocketOps S} `{HP : ObjectPool P}.
Context (dev_read : Z -> option (Z -> outcome (Z * list Z))) (dev_write : Z -> option (list Z -> outcome Z)).
Implicit Type w : world S P.

Lemma read_file_ok w cur fd d y off n : reads w cur fd d y -> 0 <= off < i_size y -> 0 <= n -> off + n <= i_size y ->
  exists w', read_file_from dev_read w cur fd off n = Done (true, content d y <$> seqZ off n, w') /\ reads w' cur fd d y.
Proof.
  intros (p & f & x & i & R & Efd & Hfd & Ef & Et & Er & Ei & Ey & Ed & Dk & Wf & Ht) Ho Hn Hs.
  pose proof (fw_size _ _ Wf) as Hsz. change (MAX_FILE_SIZE * BSIZE) with 71680 in Hsz.
  assert (Gf : forall w', w_procs w' = w_procs w -> get_file w' cur fd = Done (Some f)).
  { intros w' E. unfold get_file, the_proc. rewrite E, (proj1 R). cbn [deref obind].
    replace ((fd <? 0) || (MAX_OPEN_FILE <=? fd)) with false by lia. rewrite Efd. reflexivity. }
  pose proof (zget_Some_range _ _ _ Ef) as Rf. pose proof (zget_Some_range _ _ _ Ey) as Ri.
  unfold read_file_from, do_seek. rewrite (Gf w eq_refl). cbn [obind]. unfold the_file. rewrite Ef. cbn [deref obind]. rewrite Ei.
  unfold slot. rewrite Ey. cbn [deref obind]. replace (off <? i_size y) with true by lia. cbn [obind Z.ltb Z.compare].
  set (x1 := set_offset off x). set (w1 := set_file w f x1).
  assert (E1 : zget (w_files w1) f = Some x1) by (apply zget_zset_eq; exact Rf).
  unfold do_read. rewrite (Gf w1 eq_refl). cbn [obind]. unfold the_file. rewrite E1. cbn [deref obind x1 set_offset l_readable l_type l_inode l_offset].
  rewrite Er, Et, Ei. cbn [negb deref obind]. unfold read_slot, slot. change (w_fs w1) with (w_fs w). rewrite Ey. cbn [deref obind]. rewrite Ed.
  rewrite read_inode_ok by (auto; lia). replace (Z.min n (i_size y - off)) with n by lia. cbn [obind]. rewrite u32_small by lia. rewrite Z.eqb_refl.
  eexists. split; [reflexivity|].
  set (x2 := if 0 <? n then set_offset (u32 (off + n)) x1 else x1).
  exists p, f, x2, i. assert (Es : set_slot (with_disk (w_fs w) d) i y = w_fs w).
  { unfold set_slot, with_disk. destruct (w_fs w) as [dk inodes]. cbn in *. subst dk. f_equal. apply zset_id, Ey. }
  rewrite Es. unfold x2. destruct (0 <? n) eqn:En; split_and!; auto; try lia; unfold x1; cbn; auto.
  apply zget_zset_eq. unfold zlen in *. cbn. rewrite zset_length. exact Rf.
Qed.
End Reading.

(** ** Blocks of pages *)

Definition block_pages (p o : Z) : gset Z := list_to_set ((fun i => p + PAGE_SIZE * i) <$> seqZ 0 (2 ^ o)).

Lemma block_pages_covers p o x : 0 <= o -> x ∈ block_pages p o -> covers o p x.
Proof.
  intros Ho. unfold block_pages. rewrite elem_of_list_to_set, list_elem_of_fmap. intros (i & -> & Hi). apply elem_of_seqZ in Hi.
  unfold covers, bsize, PAGE_SIZE. nia.
Qed.

Lemma page_block_ok s dir A o : dir_ok s dir A -> 0 <= o <= MAX_ORDER ->
  exists p m1, alloc_pages (mm s) o = Done (p, m1) /\
   (p = NULL \/
    (p <> NULL /\ KERNEL_BASE <= p /\ p mod PAGE_SIZE = 0 /\ p + bsize o < 2 ^ 32 /\ (forall a, a ∈ A -> ~ covers o p a) /\
     dir_ok (set_mm s m1) dir (A ∪ block_pages p o))).
Proof.
  intros D Ho. destruct (dk_inv _ _ _ D) as (F & HB & HA).
  destruct (alloc_pages_spec (mm s) F o HB Ho) as (p & m1 & F1 & E & HB1 & Hs & Hcase). exists p, m1. split; [exact E|].
  destruct Hcase as [(-> & -> & _) | (Hb & Hin & Hfree & _)].
  - left. reflexivity.
  - right. pose proof (bo_geo _ _ HB) as G. destruct (block_range (mm s) G o p ltac:(lia) Hb) as [R R'].
    pose proof (block_mod (mm s) o p G Ho Hb) as Hm. destruct (geo_end _ G) as [He _]. pose proof (proj1 (proj2 Hb)) as Hb2. unfold NULL.
    split_and!; auto; try lia; [intros a Ha Hc; exact (HA a Ha (Hin a Hc))|].
    destruct D as [D1 D2 D3 D4]. split; auto.
    + exists F1. split; [exact HB1|]. intros x Hx. rewrite Hfree. apply elem_of_union in Hx as [Hx | Hx]; [specialize (HA x Hx); tauto|].
      apply block_pages_covers in Hx; [tauto | lia].
    + apply (page_in_mono A); [set_solver | exact D2].
    + intros i Hi Hp. destruct (D3 i Hi Hp) as [H1 H2]. split; [apply (page_in_mono A); [set_solver | exact H1] | exact H2].
Qed.

Lemma log2_up_ok n : 1 <= n <= 64 -> 0 <= log2_up n <= MAX_ORDER /\ n <= 2 ^ log2_up n.
Proof.
  intros H. assert (C : Forall (fun n => (0 <=? log2_up n) && (log2_up n <=? MAX_ORDER) && (n <=? 2 ^ log2_up n) = true) (seqZ 1 64)).
  { apply Forall_forall. intros x Hx. revert x Hx. apply Forall_forall. apply (bool_decide_unpack _). vm_compute. exact I. }
  rewrite Forall_forall in C. specialize (C n ltac:(apply elem_of_seqZ; lia)). tests. lia.
Qed.

Lemma page_align_value n : 0 <= n -> n + 4095 < 2 ^ 32 -> PAGE_ALIGN n = (n + 4095) / 4096 * 4096.
Proof.
  intros H H2. unfold PAGE_ALIGN. rewrite page_round by apply u32_range. unfold PAGE_SIZE. rewrite u32_small by lia. divlia.
Qed.

(** ** One segment *)

Definition seg_start (ph : prog_hdr) : Z := ph_vaddr ph / 4096 * 4096.
Definition seg_len (ph : prog_hdr) : Z := PAGE_ALIGN (ph_memsz ph).
Definition in_seg (ph : prog_hdr) (x : Z) : Prop := seg_start ph <= x < seg_start ph + seg_len ph.

(** A segment that the loader can load: it is in the lower half of memory and small enough for a block of
    pages, its bytes are in the file, and the pages counted for [memsz] also hold what lies before it in its first page. *)
Record seg_ok (y : inode) (ph : prog_hdr) : Prop := {
  so_type : ph_type ph = PT_LOAD;
  so_addr : 4096 <= ph_vaddr ph /\ ph_vaddr ph + ph_memsz ph + 4096 <= 2 ^ 31;
  so_size : 0 < ph_memsz ph <= 64 * 4096;
  so_room : ph_vaddr ph mod 4096 + ph_memsz ph <= seg_len ph;
  so_file : 0 <= ph_filesz ph <= ph_memsz ph /\ 0 <= ph_off ph < i_size y /\ ph_off ph + ph_filesz ph <= i_size y
}.

(** The page of [x] is mapped, writable and for the user, on a page in use, and holds [b] at [x]. *)
Definition user_byte {V} (a : space V) (dir : Z) (A : gset Z) (x b : Z) : Prop :=
  exists f, pte_at (sp_mach a) dir x = VA2PA f + 7 /\ f ∈ A /\ f mod PAGE_SIZE = 0 /\ sp_bytes a (f + x mod 4096) = b.

(** The segment is in memory: the bytes of the file, then zeros. *)
Definition seg_loaded {V} (d : disk) (y : inode) (a : space V) dir A (ph : prog_hdr) : Prop :=
  forall k, 0 <= k < ph_memsz ph -> attr (sp_areas a) (ph_vaddr ph + k) <> None /\
    user_byte a dir A (ph_vaddr ph + k) (if k <? ph_filesz ph then content d y (ph_off ph + k) else 0).

(** What is mapped stays: [a'] has everything of [a] that lies in an area. *)
Record grows {V} (a a' : space V) (dir : Z) (A A' : gset Z) : Prop := {
  ex_pages : A ⊆ A';
  ex_attr x : attr (sp_areas a) x <> None -> attr (sp_areas a') x = attr (sp_areas a) x;
  ex_pte x : 0 <= x < 2 ^ 32 -> attr (sp_areas a) x <> None -> pte_at (sp_mach a') dir x = pte_at (sp_mach a) dir x;
  ex_bytes f i : f ∈ A -> f mod PAGE_SIZE = 0 -> 0 <= i < 4096 -> sp_bytes a' (f + i) = sp_bytes a (f + i)
}.

Lemma grows_refl {V} (a : space V) dir A : grows a a dir A A.
Proof. split; auto. Qed.

Lemma grows_trans {V} (a b c : space V) dir A B C : grows a b dir A B -> grows b c dir B C -> grows a c dir A C.
Proof.
  intros [P1 Q1 R1 S1] [P2 Q2 R2 S2]. split; [set_solver | | |].
  - intros x Hx. rewrite Q2; [apply Q1, Hx | rewrite Q1 by exact Hx; exact Hx].
  - intros x Hr Hx. rewrite R2; [apply R1; assumption | exact Hr | rewrite Q1 by exact Hx; exact Hx].
  - intros f i Hf Hm Hi. rewrite S2, S1 by (auto; set_solver). reflexivity.
Qed.

Lemma seg_loaded_grows {V} d y (a a' : space V) dir A A' ph : seg_ok y ph -> grows a a' dir A A' -> seg_loaded d y a dir A ph -> seg_loaded d y a' dir A' ph.
Proof.
  intros O [E1 E2 E3 E4] H k Hk. destruct (H k Hk) as [Ha (f & Hp & Hf & Hm & Hb)]. destruct (so_addr _ _ O).
  split; [rewrite E2 by exact Ha; exact Ha|]. exists f. split; [rewrite E3 by (auto; lia); exact Hp|]. split; [set_solver|]. split; [exact Hm|].
  rewrite E4; auto. apply Z.mod_pos_bound. lia.
Qed.

(** Bytes of a segment copied to [q]. *)
Definition seg_bytes (d : disk) (y : inode) (ph : prog_hdr) (m : mem) (q : Z) : mem :=
  let b := put_bytes m q (content d y <$> seqZ (ph_off ph) (ph_filesz ph)) in
  if ph_filesz ph <? ph_memsz ph then snd (memset b (q + ph_filesz ph) 0 (ph_memsz ph - ph_filesz ph)) else b.

Lemma seg_bytes_at d y ph m q k : 0 <= ph_filesz ph <= ph_memsz ph -> 0 <= k < ph_memsz ph ->
  seg_bytes d y ph m q (q + k) = if k <? ph_filesz ph then content d y (ph_off ph + k) else 0.
Proof.
  intros Hf Hk. unfold seg_bytes, memset. set (b := put_bytes _ _ _).
  assert (Hb : k < ph_filesz ph -> b (q + k) = content d y (ph_off ph + k)).
  { intros H. replace k with (Z.of_nat (Z.to_nat k)) at 1 by lia. apply put_bytes_at. rewrite list_lookup_fmap, lookup_seqZ_lt by lia. cbn. f_equal. f_equal. lia. }
  destruct (k <? ph_filesz ph) eqn:E; tests.
  - destruct (ph_filesz ph <? ph_memsz ph); cbn [snd]; [rewrite memset_loop_spec; replace (_ && _) with false by lia|]; exact (Hb E).
  - replace (ph_filesz ph <? ph_memsz ph) with true by lia. cbn [snd]. rewrite memset_loop_spec. replace (_ && _) with true by lia. reflexivity.
Qed.

Lemma seg_bytes_frame d y ph m q x : 0 <= ph_filesz ph <= ph_memsz ph -> x < q \/ q + ph_memsz ph <= x -> seg_bytes d y ph m q x = m x.
Proof.
  intros Hf Hx. unfold seg_bytes, memset. assert (L : zlen (content d y <$> seqZ (ph_off ph) (ph_filesz ph)) = ph_filesz ph) by (unfold zlen; rewrite length_fmap, length_seqZ; lia).
  destruct (ph_filesz ph <? ph_memsz ph); cbn [snd]; [rewrite memset_loop_spec; replace (_ && _) with false by lia|]; apply put_bytes_frame; rewrite L; lia.
Qed.

Lemma seg_geometry y ph : seg_ok y ph -> Z.land (ph_vaddr ph) PAGE_MASK = seg_start ph /\ u32 (ph_vaddr ph - seg_start ph) = ph_vaddr ph mod 4096 /\
  PAGE_ALIGN (u32 (ph_memsz ph + Z.land (seg_start ph) (PAGE_SIZE - 1))) = seg_len ph /\ PAGE_ALIGN (seg_len ph) = seg_len ph /\
  4096 <= seg_len ph <= 64 * 4096 /\ seg_len ph mod 4096 = 0 /\ 4096 <= seg_start ph /\ seg_start ph + seg_len ph < 2 ^ 31 /\ seg_start ph mod 4096 = 0.
Proof.
  intros [T1 T2 T3 T4 T5]. unfold seg_len, seg_start in *. rewrite page_round by lia. unfold PAGE_SIZE.
  change (4096 - 1) with (Z.ones 12). rewrite Z.land_ones by lia. change (2 ^ 12) with 4096.
  rewrite (page_align_value (ph_memsz ph)) in T4 |- * by lia. rewrite (Z.mod_mul _ 4096) by lia. rewrite Z.add_0_r, (u32_small (ph_memsz ph)) by lia.
  rewrite (page_align_value (ph_memsz ph)) by lia. rewrite page_align_value by divlia. rewrite u32_small by divlia.
  split_and!; try divlia. 
Qed.

(** There is no memory for the segment: no block for its pages, or with that block taken fewer pages than
    the tables its addresses lack. *)
Definition starved {V} (a : space V) (dir : Z) (ph : prog_hdr) : Prop :=
  exists p m1, alloc_pages (mm (sp_mach a)) (log2_up (seg_len ph / PAGE_SIZE)) = Done (p, m1) /\
    (p = NULL \/ exists A, dir_ok (set_mm (sp_mach a) m1) dir A /\
       ~ room m1 A (tables_missing (set_mm (sp_mach a) m1) dir (seg_start ph) (seg_start ph + seg_len ph))).

(** The page table entry [map_pages] makes for an address of the segment. *)
Lemma seg_pte p len v x : KERNEL_BASE <= p -> p mod PAGE_SIZE = 0 -> p + len < 2 ^ 32 -> v mod 4096 = 0 -> v <= x < v + len ->
  Z.lor (Z.lor (u32 (VA2PA p / 4096 * 4096 + (x / 4096 * 4096 - v))) PTE_P) (Z.lor PTE_W PTE_U) = VA2PA (p + (x / 4096 * 4096 - v)) + 7 /\
  (p + (x / 4096 * 4096 - v)) mod PAGE_SIZE = 0 /\ p + (x / 4096 * 4096 - v) + x mod 4096 = p + (x - v).
Proof.
  intros Hp Hm He Hv Hx. unfold VA2PA, PAGE_SIZE, KERNEL_BASE in *. rewrite <- Z.lor_assoc. change (Z.lor PTE_P (Z.lor PTE_W PTE_U)) with 7.
  rewrite !u32_small by (try (rewrite u32_small by lia); divlia). split; [|divlia].
  rewrite lor_flags by (unfold PAGE_SIZE; divlia). divlia.
Qed.

Section Segments.
Context {V S P : Type} `{HV : VmaPool V} `{HS : SocketOps S} `{HP : ObjectPool P}.
Context (dev_read : Z -> option (Z -> outcome (Z * list Z))) (dev_write : Z -> option (list Z -> outcome Z)).
Context (pool_full : forall g : V, exists j g1, vma_alloc g = Done (Some j, g1)).
Implicit Type w : world S P.

Lemma seg_mmap (a : space V) y ph : seg_ok y ph -> areas_ok 0 (sp_areas a) -> (forall x, in_seg ph x -> attr (sp_areas a) x = None) ->
  exists l g, do_mmap (sp_areas a) (sp_pool a) (seg_start ph) (seg_len ph) 7 MAP_FIXED = Done (seg_start ph, l, g) /\
    mmap_done (sp_areas a) (seg_start ph) (seg_len ph) 7 l.
Proof.
  intros O Ok Free. destruct (seg_geometry y ph O) as (_ & _ & _ & Ea & Hl & Hlm & Hs & He & Hsm).
  destruct (pool_full (sp_pool a)) as (j & g1 & Eg).
  destruct (do_mmap_spec (sp_areas a) (sp_pool a) (seg_start ph) (seg_len ph) 7 MAP_FIXED (Some j) g1) as (r & l & g & E & Hcase); auto; try lia; [discriminate|].
  rewrite Ea in Hcase. exists l, g. change (mmap_place (sp_areas a) (seg_start ph) (seg_len ph) MAP_FIXED) with (seg_start ph) in Hcase.
  destruct Hcase as [(H0 & _) | [(_ & _ & Hr) | (-> & Hd)]]; [lia | | auto].
  exfalso. destruct Hr as [Hr | [Hr | Hr]]; [discriminate | unfold USER_VM_SIZE in Hr; lia|].
  unfold mmap_refused in Hr. change (mmap_place (sp_areas a) (seg_start ph) (seg_len ph) MAP_FIXED) with (seg_start ph) in Hr.
  destruct Hr as [Hr | [Hr | (x & Hx & Hn)]]; [lia | | exact (Hn (Free x Hx))].
  apply Hr. change (not32 PAGE_MASK) with (Z.ones 12). rewrite Z.land_ones by lia. exact Hsm.
Qed.

Lemma load_segment_ok w cur fd dir A d y ph (a : space V) : reads w cur fd d y -> seg_ok y ph -> areas_ok 0 (sp_areas a) -> dir_ok (sp_mach a) dir A ->
  (forall x, in_seg ph x -> attr (sp_areas a) x = None) ->
  (exists a' w' A', load_segment dev_read w cur fd dir ph a = Done (0, a', w') /\ reads w' cur fd d y /\ areas_ok 0 (sp_areas a') /\ dir_ok (sp_mach a') dir A' /\
     grows a a' dir A A' /\ (forall x, ~ in_seg ph x -> attr (sp_areas a') x = attr (sp_areas a) x) /\ seg_loaded d y a' dir A' ph) \/
  (load_segment dev_read w cur fd dir ph a = Fault /\ starved a dir ph).
Proof.
  intros Rd O Ok D Free. destruct (seg_geometry y ph O) as (G1 & G2 & G3 & G4 & Hl & Hlm & Hs & He & Hsm).
  destruct (seg_mmap a y ph O Ok Free) as (l & g & E & Ok' & Hend & _ & Hattr).
  unfold load_segment. rewrite G1, G2, G3, E. cbn [obind].
  rewrite s32_small by lia. replace (seg_start ph <? 0) with false by lia.
  destruct (log2_up_ok (seg_len ph / PAGE_SIZE)) as [Ho Hpow]; [unfold PAGE_SIZE; divlia|]. set (o := log2_up _) in *.
  destruct (page_block_ok (sp_mach a) dir A o D Ho) as (p & m1 & Ea & [-> | (Hp & Hk & Hpm & Hpe & Hap & D1)]); rewrite Ea; cbn [obind];
    [right; split; [reflexivity | exists NULL, m1; auto]|].
  rewrite (proj2 (Z.eqb_neq p NULL)) by exact Hp.
  assert (Hlen : seg_len ph <= bsize o) by (unfold bsize, PAGE_SIZE in *; divlia).
  set (A1 := A ∪ block_pages p o) in *.
  destruct (map_pages_ok (set_mm (sp_mach a) m1) dir A1 (seg_start ph) (VA2PA p) (seg_len ph) (Z.lor PTE_W PTE_U) D1)
    as [(s' & Em & A2 & D2 & Hsub & Hpte & _) | [Em Hno]]; try lia; [apply u32_range| |]; rewrite Em; cbn [obind].
  2:{ right. split; [reflexivity|]. exists p, m1. split; [exact Ea|]. right. exists A1. split; [exact D1|].
      replace (seg_start ph / 4096 * 4096) with (seg_start ph) in Hno by divlia.
      replace ((seg_start ph + seg_len ph) / 4096 * 4096) with (seg_start ph + seg_len ph) in Hno by divlia. exact Hno. }
  destruct (so_file _ _ O) as (F1 & F2 & F3). destruct (read_file_ok dev_read dev_write w cur fd d y (ph_off ph) (ph_filesz ph) Rd F2) as (w' & Er & Rd'); [lia | lia|].
  rewrite Er. cbn [obind negb]. left. fold (seg_bytes d y ph (sp_bytes a) (p + ph_vaddr ph mod 4096)).
  replace ((seg_start ph + seg_len ph) / 4096 * 4096) with (seg_start ph + seg_len ph) in Hpte by divlia.
  replace (seg_start ph / 4096 * 4096) with (seg_start ph) in Hpte by divlia.
  pose proof (so_room _ _ O) as Hroom. pose proof (so_size _ _ O) as Hsize.
  eexists _, w', A2. split; [reflexivity|]. split; [exact Rd'|]. cbn [sp_areas sp_mach sp_bytes]. split; [exact Ok'|]. split; [exact D2|].
  split; [split|split]; cbn [sp_areas sp_mach sp_bytes].
  - unfold A1 in Hsub. set_solver.
  - intros x Hx. rewrite Hattr. rewrite decide_False; [reflexivity | intros Hin; exact (Hx (Free x Hin))].
  - intros x Hr Hx. rewrite Hpte by exact Hr. rewrite decide_False; [reflexivity | intros Hin; exact (Hx (Free x Hin))].
  - intros f i Hf Hfm Hi. apply seg_bytes_frame; [exact F1|]. pose proof (Hap f Hf) as Hc. unfold covers in Hc. unfold PAGE_SIZE in *.
    assert (f + 4096 <= p \/ p + bsize o <= f) by (unfold bsize, PAGE_SIZE in *; generalize dependent (2 ^ o); intros n; intros; divlia). pose proof (Z.mod_pos_bound (ph_vaddr ph) 4096). lia.
  - intros x Hx. rewrite Hattr. apply decide_False. exact Hx.
  - intros k Hkk. set (x := ph_vaddr ph + k). assert (Hx : seg_start ph <= x < seg_start ph + seg_len ph) by (unfold x, seg_start in *; divlia).
    split; [cbn; rewrite Hattr, decide_True by exact Hx; discriminate|].
    destruct (seg_pte p (seg_len ph) (seg_start ph) x Hk Hpm ltac:(lia) Hsm Hx) as (P1 & P2 & P3).
    exists (p + (x / 4096 * 4096 - seg_start ph)). cbn [sp_mach sp_bytes]. split; [rewrite Hpte, decide_True by (auto; lia); exact P1|]. split; [|split; [exact P2|]].
    + apply Hsub. unfold A1. apply elem_of_union. right. unfold block_pages. rewrite elem_of_list_to_set, list_elem_of_fmap.
      exists ((x / 4096 * 4096 - seg_start ph) / 4096). split; [unfold PAGE_SIZE in *; divlia|]. apply elem_of_seqZ. unfold bsize, PAGE_SIZE in *. generalize dependent (2 ^ o). intros n; intros; divlia.
    + rewrite P3. replace (p + (x - seg_start ph)) with (p + ph_vaddr ph mod 4096 + k) by (unfold x, seg_start; divlia).
      apply seg_bytes_at; [exact F1 | exact Hkk].
Qed.
End Segments.

(** ** The whole program *)

(** The program headers of the file from [off] on. *)
Fixpoint headers_at (d : disk) (y : inode) (off : Z) (phs : list prog_hdr) : Prop :=
  match phs with
  | [] => True
  | ph :: r => 0 <= off /\ off + PROG_HDR_SIZE <= i_size y /\ ph_of (content d y <$> seqZ off PROG_HDR_SIZE) = ph /\ headers_at d y (off + PROG_HDR_SIZE) r
  end.

(** No two segments share a page. *)
Fixpoint segs_apart (phs : list prog_hdr) : Prop :=
  match phs with
  | [] => True
  | ph :: r => Forall (fun q => forall x, in_seg ph x -> ~ in_seg q x) r /\ segs_apart r
  end.

Section Program.
Context {V S P : Type} `{HV : VmaPool V} `{HS : SocketOps S} `{HP : ObjectPool P}.
Context (dev_read : Z -> option (Z -> outcome (Z * list Z))) (dev_write : Z -> option (list Z -> outcome Z)).
Context (pool_full : forall g : V, exists j g1, vma_alloc g = Done (Some j, g1)).
Implicit Type w : world S P.

Lemma load_headers_ok phs : forall w cur fd dir A d y off (a : space V), reads w cur fd d y -> headers_at d y off phs -> Forall (seg_ok y) phs -> segs_apart phs ->
  areas_ok 0 (sp_areas a) -> dir_ok (sp_mach a) dir A -> Forall (fun ph => forall x, in_seg ph x -> attr (sp_areas a) x = None) phs ->
  (exists a' w' A', load_headers dev_read (length phs) w cur fd dir off a = Done (0, a', w') /\ reads w' cur fd d y /\ areas_ok 0 (sp_areas a') /\ dir_ok (sp_mach a') dir A' /\
     grows a a' dir A A' /\ Forall (seg_loaded d y a' dir A') phs) \/
  (load_headers dev_read (length phs) w cur fd dir off a = Fault /\
   exists pre ph post a1 w1, phs = pre ++ ph :: post /\
     load_headers dev_read (length pre) w cur fd dir off a = Done (0, a1, w1) /\ starved a1 dir ph).
Proof.
  induction phs as [|ph phs IH]; intros w cur fd dir A d y off a Rd Hh Hs Hap Ok D Hf; cbn [length load_headers].
  { left. exists a, w, A. split_and!; auto using grows_refl. }
  cbn [headers_at] in Hh. destruct Hh as (H1 & H2 & Eph & Hh). apply Forall_cons in Hs as [Hs Hsr], Hf as [Hf Hfr]. destruct Hap as [Hd Hap].
  pose proof (reads_size w cur fd d y Rd) as Hsz.
  destruct (read_file_ok dev_read dev_write w cur fd d y off PROG_HDR_SIZE Rd) as (w1 & Er & Rd1); unfold PROG_HDR_SIZE in *; try lia.
  rewrite Er. cbn [obind negb]. rewrite Eph, (so_type _ _ Hs). cbn [PT_LOAD Z.eqb Pos.eqb negb].
  destruct (load_segment_ok dev_read dev_write pool_full w1 cur fd dir A d y ph a Rd1 Hs Ok D Hf) as [(a1 & w2 & A1 & E1 & Rd2 & Ok1 & D1 & X1 & N1 & L1) | [E1 Hout]];
    rewrite E1; cbn [obind]; [|right; split; [reflexivity|]; exists [], ph, phs, a, w; auto]. cbn [Z.ltb Z.compare]. rewrite u32_small by lia.
  destruct (IH w2 cur fd dir A1 d y (off + 32) a1 Rd2 Hh Hsr Hap Ok1 D1) as [(a2 & w3 & A2 & E2 & Rd3 & Ok2 & D2 & X2 & L2) | (E2 & pre & qh & post & a3 & w3 & -> & Ep & Hst)].
  { rewrite Forall_forall in Hfr, Hd |- *. intros q Hq x Hx. rewrite N1; [exact (Hfr q Hq x Hx) | intros Hin; exact (Hd q Hq x Hin Hx)]. }
  - left. exists a2, w3, A2. split; [exact E2|]. split; [exact Rd3|]. split; [exact Ok2|]. split; [exact D2|]. split; [exact (grows_trans _ _ _ _ _ _ _ X1 X2)|].
    constructor; [exact (seg_loaded_grows d y a1 a2 dir A1 A2 ph Hs X2 L1) | exact L2].
  - right. split; [exact E2|]. exists (ph :: pre), qh, post, a3, w3. split; [reflexivity|]. split; [|exact Hst]. cbn [length load_headers].
    unfold PROG_HDR_SIZE. rewrite Er. cbn [obind negb]. rewrite Eph, (so_type _ _ Hs). cbn [PT_LOAD Z.eqb Pos.eqb negb]. rewrite E1. cbn [obind Z.ltb Z.compare].
    rewrite u32_small by lia. exact Ep.
Qed.


(** A header of another type in front: the position in the file is not moved on, so that it is read
    again for every header that follows, and no segment is loaded. *)
Theorem other_header_hides_segments w cur fd dir d y off n (a : space V) : reads w cur fd d y -> 0 <= off -> off + PROG_HDR_SIZE <= i_size y ->
  ph_type (ph_of (content d y <$> seqZ off PROG_HDR_SIZE)) <> PT_LOAD -> exists w', load_headers dev_read n w cur fd dir off a = Done (0, a, w').
Proof.
  intros Rd H1 H2 Ht. revert w Rd. induction n as [|n IH]; intros w Rd; cbn [load_headers]; [eauto|].
  destruct (read_file_ok dev_read dev_write w cur fd d y off PROG_HDR_SIZE Rd) as (w1 & Er & Rd1); unfold PROG_HDR_SIZE in *; try lia.
  rewrite Er. cbn [obind negb]. rewrite (proj2 (Z.eqb_neq _ _)) by exact Ht. cbn [negb]. apply IH, Rd1.
Qed.

(** A file that is too short or has another magic number is refused: nothing is mapped, the frame stays, and the file is closed. *)
Theorem load_rejects w cur dir path f (a : space V) fd w1 n bytes w2 : do_open dev_read dev_write w cur path MODE_RDWR = Done (fd, w1) -> 0 <= fd ->
  do_read dev_read w1 cur fd ELF_HDR_SIZE = Done (n, bytes, w2) -> u32 n <> ELF_HDR_SIZE \/ eh_magic (elf_of bytes) <> ELF_MAGIC ->
  load dev_read dev_write w cur dir path f a = (let! ' (_, w3) := do_close w2 cur fd in Done (-1, a, f, w3)).
Proof.
  intros Eo Hfd Er Hbad. unfold load. rewrite Eo. cbn [obind]. replace (fd <? 0) with false by lia. rewrite Er. cbn [obind].
  destruct (u32 n =? ELF_HDR_SIZE) eqn:E1; tests; cbn [negb]; [|reflexivity].
  destruct (eh_magic (elf_of bytes) =? ELF_MAGIC) eqn:E2; tests; cbn [negb]; [|reflexivity]. destruct Hbad; contradiction.
Qed.
End Program.

(** A file with one program header and four bytes; the segment is eight bytes long. *)
Definition demo_ph : prog_hdr := mk_ph 1 32 0x8048000 0 4 8 0 0.
Definition demo_image : list Z := encode (replicate 8 4%nat) [1; 32; 0x8048000; 0; 4; 8; 0; 0] ++ [1; 2; 3; 4].

Lemma demo_program : exists d y, disk_ok d /\ file_wf d y /\ i_size y = 36 /\ i_type y = I_TYPE_FILE /\ forall o, 0 <= o < 36 -> content d y o = bget demo_image o.
Proof.
  destruct (write_read_ok (fun _ => None) (fun _ => None) test_disk test_inode demo_image 0) as (y & d & _ & (D & W & Hs & _ & Ht & Hc & _) & _).
  - apply test_disk_ok.
  - apply test_file_wf.
  - discriminate.
  - apply (bool_decide_unpack _). vm_compute. exact I.
  - cbn. lia.
  - vm_compute. discriminate.
  - rewrite test_free. vm_compute. discriminate.
  - exists d, y. split_and!; auto. intros o Ho. change (zlen demo_image) with 36 in Hc. rewrite Hc by (change (MAX_FILE_SIZE * BSIZE) with 71680; lia).
    rewrite decide_True by lia. f_equal. lia.
Qed.

Definition demo_world (d : disk) (y : inode) : world unit (object_pool * Z) :=
  mk_world (mk_fs d [y]) [file_init TYPE_INODE (Some 0) NULL 0 true true] (fun _ => pipe_init []) pipe_pool tt [mk_process 0 (Some 0 :: repeat None 63) false].

(** A page and a table is all the segment takes. *)
Lemma demo_not_starved m dir (l : list vm_area) (g : unit) (b : mem) : room m {[dir]} 7 ->
  ~ starved (mk_space l g (mk_machine (fun _ => 0) m) b) dir demo_ph.
Proof.
  intros R (p & m1 & E & H). cbn [sp_mach mm] in E, H. change (log2_up (seg_len demo_ph / PAGE_SIZE)) with 0 in E.
  destruct (room_alloc m _ 6 R) as (q & m2 & Eq & Hq & _ & _ & _ & R2 & _). rewrite E in Eq. injection Eq as <- <-.
  destruct H as [H|(A & D1 & Hn)]; [contradiction|]. apply Hn. apply (room_pages _ _ A) in R2; [|apply (dk_inv _ _ _ D1)].
  exact (room_less _ _ 5 1 R2).
Qed.


(** An empty file, just made. *)
Definition empty_program_check : bool :=
  match do_open no_devs no_devs demo_files 0 [97] (Z.lor MODE_CREATE MODE_RDWR) with
  | Done (fd0, w0) =>
      match do_open no_devs no_devs w0 0 [97] MODE_RDWR with
      | Done (fd, w1) =>
          match do_read no_devs w1 0 fd ELF_HDR_SIZE with
          | Done (n, bytes, w2) => (0 <=? fd) && negb (u32 n =? ELF_HDR_SIZE) && match do_close w2 0 fd with Done _ => true | _ => false end
          | _ => false
          end
      | _ => false
      end
  | _ => false
  end.

Lemma load_rejects_witness : exists fd0 w0 w3, do_open no_devs no_devs demo_files 0 [97] (Z.lor MODE_CREATE MODE_RDWR) = Done (fd0, w0) /\
  forall a : space unit, load no_devs no_devs w0 0 0 [97] demo_frame a = Done (-1, a, demo_frame, w3).
Proof.
  assert (C : empty_program_check = true) by (vm_compute; reflexivity). unfold empty_program_check in C.
  destruct (do_open no_devs no_devs demo_files 0 [97] _) as [[fd0 w0]| | |] eqn:E0; try discriminate C.
  destruct (do_open no_devs no_devs w0 0 [97] MODE_RDWR) as [[fd w1]| | |] eqn:E1; try discriminate C.
  destruct (do_read no_devs w1 0 fd ELF_HDR_SIZE) as [[[n bytes] w2]| | |] eqn:E2; try discriminate C.
  apply andb_prop in C as [C C3]. apply andb_prop in C as [C1 C2].
  destruct (do_close w2 0 fd) as [[r w3]| | |] eqn:E3; try discriminate C3.
  exists fd0, w0, w3. split; [reflexivity|]. intros a. tests.
  rewrite (load_rejects no_devs no_devs w0 0 0 [97] demo_frame a fd w1 n bytes w2 E1 C1 E2 (or_introl C2)). rewrite E3. reflexivity.
Defined.
