(* ===== verification/SockRing.v ===== *)
(** * The receive buffer of a socket (src/src/sock_ring_buffer.cc)

    A ring of bytes like a pipe's, of [2 ^ order] pages, whose users move blocks of
    bytes at a time.  [connected] is the test [m_socket->m_state == SS_CONNECTED]. *)
From Stdlib Require Import ZArith ZifyBool Lia.
From stdpp Require Import base option list.
From S2P Require Import Prelude Interfaces Buddy Sync Pipe.

Record sock_ring := mk_sring {
  s_buffer : list Z;
  s_length : Z;
  s_left : Z;
  s_read : Z;
  s_write : Z;
  s_space : Z;
  s_item : Z
}.

(** [sock_ring_buffer_t::init]: [pages] is what [alloc_pages(order)] returned. *)
Definition sring_init (pages : list Z) (order : Z) : sock_ring :=
  let length := u32 (PAGE_SIZE * pow 2 order) in mk_sring pages length length 0 0 length 0.

Definition sring_get_char (connected : bool) (r : sock_ring) : outcome (Z * Z * sock_ring) :=
  let! item := down1 (s_item r) in
  if connected then
    let! ch := deref (zget (s_buffer r) (s_read r)) in
    Done (0, ch, mk_sring (s_buffer r) (s_length r) (u32 (s_left r + 1)) ((s_read r + 1) mod s_length r) (s_write r) (up1 (s_space r)) item)
  else Done (-1, 0, mk_sring (s_buffer r) (s_length r) (s_left r) (s_read r) (s_write r) (up1 (s_space r)) item).

Definition sring_put_char (connected : bool) (r : sock_ring) (ch : Z) : outcome (Z * sock_ring) :=
  let! space := down1 (s_space r) in
  if connected then
    Done (0, mk_sring (zset (s_buffer r) (s_write r) ch) (s_length r) (u32 (s_left r - 1)) (s_read r) ((s_write r + 1) mod s_length r)
               space (up1 (s_item r)))
  else Done (-1, mk_sring (s_buffer r) (s_length r) (s_left r) (s_read r) (s_write r) space (up1 (s_item r))).

Definition get_free_space (r : sock_ring) : Z := s_left r.

(** The loop of [get_data]: one byte, then out when the ring is empty, else another
    [m_wait_item.down()], even after the last byte that was asked for. *)
Fixpoint get_loop (n : nat) (r : sock_ring) : outcome (list Z * sock_ring) :=
  match n with
  | O => Done ([], r)
  | S k =>
      let! ch := deref (zget (s_buffer r) (s_read r)) in
      let left := u32 (s_left r + 1) in
      let read := (s_read r + 1) mod s_length r in
      if left =? s_length r
      then Done ([ch], mk_sring (s_buffer r) (s_length r) left read (s_write r) (up1 (s_space r)) (s_item r))
      else
        let! item := down1 (s_item r) in
        let! ' (rest, r) := get_loop k (mk_sring (s_buffer r) (s_length r) left read (s_write r) (up1 (s_space r)) item) in
        Done (ch :: rest, r)
  end.

Definition get_data (connected : bool) (r : sock_ring) (max : Z) : outcome (Z * list Z * sock_ring) :=
  let! item := down1 (s_item r) in
  let r := mk_sring (s_buffer r) (s_length r) (s_left r) (s_read r) (s_write r) (s_space r) item in
  if connected then let! ' (bytes, r) := get_loop (Z.to_nat max) r in Done (s32 (zlen bytes), bytes, r)
  else Done (-1, [], r).

Fixpoint put_loop (bytes : list Z) (r : sock_ring) : outcome sock_ring :=
  match bytes with
  | [] => Done r
  | ch :: rest =>
      let! space := down1 (s_space r) in
      put_loop rest (mk_sring (zset (s_buffer r) (s_write r) ch) (s_length r) (u32 (s_left r - 1)) (s_read r)
                       ((s_write r + 1) mod s_length r) space (up1 (s_item r)))
  end.

Definition put_data (connected : bool) (r : sock_ring) (data : list Z) : outcome (Z * sock_ring) :=
  if s_left r <? zlen data then Done (-1, r)
  else if connected then let! r := put_loop data r in Done (s32 (zlen data), r)
  else Done (0, r).

(** ** The ring holds a queue *)

(** The bytes are [q] and [m_wait_item] counts [items] of them. *)
Record sring_rep (r : sock_ring) (q : list Z) (items : Z) : Prop := {
  sr_ring : ring (s_buffer r) (s_length r) (s_read r) (s_write r) q;
  sr_left : s_left r = s_length r - zlen q;
  sr_space : s_space r = s_length r - zlen q;
  sr_item : s_item r = items
}.

Lemma sring_init_rep pages : zlen pages = 65536 -> sring_rep (sring_init pages 4) [] 0.
Proof.
  intros H. constructor; try reflexivity. change (s_length (sring_init pages 4)) with 65536.
  constructor; [exact H | lia | change (zlen []) with 0; lia | change (0 <= 0 < 65536); lia | reflexivity |]. intros i c Hc. unfold zget in Hc. destruct (i <? 0); [discriminate|]. rewrite lookup_nil in Hc. discriminate.
Qed.

Lemma put_loop_ok bytes : forall r q items, sring_rep r q items -> 0 <= items <= zlen q -> zlen q + zlen bytes <= s_length r ->
  exists r', put_loop bytes r = Done r' /\ sring_rep r' (q ++ bytes) (items + zlen bytes) /\ s_length r' = s_length r.
Proof.
  induction bytes as [|c bytes IH]; intros r q items R Hi Hf; cbn [put_loop].
  - exists r. rewrite app_nil_r. change (zlen []) with 0. rewrite Z.add_0_r. auto.
  - destruct R as [R L S I]. rewrite zlen_cons in *. pose proof (zlen_nonneg bytes). pose proof (zlen_nonneg q). pose proof (rg_pos _ _ _ _ _ R).
    unfold down1. rewrite S. replace (0 <? s_length r - zlen q) with true by lia. cbn [obind].
    edestruct (IH (mk_sring (zset (s_buffer r) (s_write r) c) (s_length r) (u32 (s_left r - 1)) (s_read r) ((s_write r + 1) mod s_length r)
                  (s_length r - zlen q - 1) (up1 (s_item r))) (q ++ [c]) (items + 1)) as (r' & E & R' & El).
    + constructor; cbn; [apply ring_put; [exact R | lia] | | |].
      * rewrite L, zlen_app. change (zlen [c]) with 1. rewrite u32_small by lia. lia.
      * rewrite zlen_app. change (zlen [c]) with 1. lia.
      * unfold up1. rewrite I. apply u32_small. lia.
    + rewrite zlen_app. change (zlen [c]) with 1. lia.
    + cbn. rewrite zlen_app. change (zlen [c]) with 1. lia.
    + exists r'. rewrite <- app_assoc in R'. replace (items + (zlen bytes + 1)) with (items + 1 + zlen bytes) by lia. auto.
Qed.

(** [items] is what is left of the count after the first [down]. *)
Lemma get_loop_ok : forall n r q items, sring_rep r q items -> q <> [] -> 0 <= items ->
  (zlen q <= Z.of_nat n -> items = zlen q - 1 -> exists r', get_loop n r = Done (q, r') /\ sring_rep r' [] 0) /\
  (Z.of_nat n < zlen q -> Z.of_nat n <= items -> exists r', get_loop n r = Done (take n q, r') /\ sring_rep r' (drop n q) (items - Z.of_nat n)).
Proof.
  induction n as [|n IH]; intros r q items R Hq Hi; cbn [get_loop].
  - split; [intros Hn; destruct q; [congruence|]; rewrite zlen_cons in Hn; pose proof (zlen_nonneg q); lia|].
    intros _ _. exists r. rewrite Z.sub_0_r. auto.
  - destruct q as [|c q]; [congruence|]. destruct R as [R L S I]. destruct (ring_get _ _ _ _ _ _ R) as [Hc R'].
    rewrite zlen_cons in *. pose proof (zlen_nonneg q). pose proof (rg_pos _ _ _ _ _ R). pose proof (rg_fit _ _ _ _ _ R) as Hf. rewrite zlen_cons in Hf.
    rewrite Hc. cbn [deref obind]. rewrite L, u32_small by lia. unfold up1. rewrite S, u32_small by lia.
    destruct (s_length r - (zlen q + 1) + 1 =? s_length r) eqn:E; tests.
    + assert (zlen q = 0) by lia. destruct q as [|c' q']; [|rewrite zlen_cons in *; pose proof (zlen_nonneg q'); lia]. split; [intros _ Hit | lia].
      eexists. split; [reflexivity|]. constructor; cbn; [exact R' | change (zlen []) with 0; lia | change (zlen []) with 0; lia | lia].
    + assert (q <> []) by (intros ->; change (zlen []) with 0 in E; lia). split; intros Hn Hit; unfold down1; rewrite I;
        (replace (0 <? items) with true by lia); cbn [obind];
        (edestruct (IH (mk_sring (s_buffer r) (s_length r) (s_length r - (zlen q + 1) + 1) ((s_read r + 1) mod s_length r) (s_write r)
                      (s_length r - (zlen q + 1) + 1) (items - 1)) q (items - 1)) as [IH1 IH2];
         [constructor; cbn; [exact R' | lia | lia | reflexivity] | assumption | lia |]).
      * destruct IH1 as (r' & E' & Rr); [lia | lia |]. rewrite E'. cbn [obind]. eauto.
      * destruct IH2 as (r' & E' & Rr); [lia | lia |]. rewrite E'. cbn [obind]. eexists. split; [reflexivity|]. cbn [drop].
        replace (items - Z.of_nat (Datatypes.S n)) with (items - 1 - Z.of_nat n) by lia. exact Rr.
Qed.

Lemma get_data_ok r q max : sring_rep r q (zlen q) -> 0 <= max < 2 ^ 31 ->
  if zlen q =? 0 then get_data true r max = Blocked
  else if zlen q <=? max then exists r', get_data true r max = Done (zlen q, q, r') /\ sring_rep r' [] 0
  else exists r', get_data true r max = Done (max, take (Z.to_nat max) q, r') /\ sring_rep r' (drop (Z.to_nat max) q) (zlen q - max - 1).
Proof.
  intros R Hm. pose proof (zlen_nonneg q). pose proof (rg_fit _ _ _ _ _ (sr_ring _ _ _ R)). pose proof (rg_pos _ _ _ _ _ (sr_ring _ _ _ R)).
  unfold get_data, down1. rewrite (sr_item _ _ _ R).
  destruct (zlen q =? 0) eqn:E0; tests; [rewrite E0; reflexivity|]. replace (0 <? zlen q) with true by lia. cbn [obind].
  destruct (get_loop_ok (Z.to_nat max) (mk_sring (s_buffer r) (s_length r) (s_left r) (s_read r) (s_write r) (s_space r) (zlen q - 1)) q (zlen q - 1)) as [G1 G2].
  - destruct R. constructor; auto.
  - intros ->. change (zlen []) with 0 in E0. lia.
  - lia.
  - rewrite Z2Nat.id in * by lia. destruct (zlen q <=? max) eqn:E1; tests.
    + destruct G1 as (r' & -> & R'); [lia | lia |]. cbn. rewrite s32_small by lia. eauto.
    + destruct G2 as (r' & -> & R'); [lia | lia |]. cbn.
      assert (El : zlen (take (Z.to_nat max) q) = max) by (unfold zlen in *; rewrite length_take; lia). rewrite El, s32_small by lia.
      replace (zlen q - max - 1) with (zlen q - 1 - max) by lia. eauto.
Qed.

(** The receive buffer of a connected socket is a first-in first-out queue:
    [put_data] appends a block that fits and refuses another with -1; [get_data] sleeps
    on an empty buffer and returns everything when the caller's buffer is large enough. *)
Theorem sock_ring_is_a_queue r q data max : sring_rep r q (zlen q) -> 0 <= max < 2 ^ 31 -> zlen data < 2 ^ 31 ->
  (if s_length r - zlen q <? zlen data then put_data true r data = Done (-1, r)
   else exists r', put_data true r data = Done (zlen data, r') /\ sring_rep r' (q ++ data) (zlen (q ++ data))) /\
  (q = [] -> get_data true r max = Blocked) /\
  (q <> [] -> zlen q <= max -> exists r', get_data true r max = Done (zlen q, q, r') /\ sring_rep r' [] 0).
Proof.
  intros R Hm Hd. pose proof (zlen_nonneg q). pose proof (zlen_nonneg data). pose proof (get_data_ok r q max R Hm) as G. split; [|split].
  - unfold put_data. rewrite (sr_left _ _ _ R). destruct (s_length r - zlen q <? zlen data) eqn:E; tests; [reflexivity|].
    destruct (put_loop_ok data r q (zlen q) R) as (r' & -> & R' & _); [lia | lia |]. cbn [obind]. rewrite s32_small by lia.
    exists r'. rewrite zlen_app. auto.
  - intros ->. exact G.
  - intros Hq Hle. destruct (zlen q =? 0) eqn:E; tests; [destruct q; [congruence | rewrite zlen_cons in *; pose proof (zlen_nonneg q); lia]|].
    destruct (zlen q <=? max) eqn:E1; tests; [exact G | lia].
Qed.

Definition demo_ring : sock_ring := sring_init (repeat 0 65536) 4.

Lemma demo_ring_rep : sring_rep demo_ring [] 0.
Proof. apply sring_init_rep. vm_compute. reflexivity. Qed.

Lemma sock_ring_is_a_queue_witness :
  (if s_length demo_ring - zlen (@nil Z) <? zlen [1; 2] then put_data true demo_ring [1; 2] = Done (-1, demo_ring)
   else exists r', put_data true demo_ring [1; 2] = Done (zlen [1; 2], r') /\ sring_rep r' ([] ++ [1; 2]) (zlen ([] ++ [1; 2]))) /\
  (@nil Z = [] -> get_data true demo_ring 10 = Blocked) /\
  (@nil Z <> [] -> zlen (@nil Z) <= 10 -> exists r', get_data true demo_ring 10 = Done (zlen (@nil Z), [], r') /\ sring_rep r' [] 0).
Proof. apply (sock_ring_is_a_queue demo_ring [] [1; 2] 10); [exact demo_ring_rep | lia | reflexivity]. Defined.

(** A short read loses count of a byte: reading fewer bytes than there are takes
    one item too many from [m_wait_item], so that after two bytes arrived and one was
    read, the next read sleeps although the other byte is in the buffer. *)
Theorem short_read_strands_a_byte r a b : sring_rep r [a; b] 2 ->
  exists r', get_data true r 1 = Done (1, [a], r') /\ sring_rep r' [b] 0 /\ get_data true r' 1 = Blocked.
Proof.
  intros R. destruct (get_data_ok r [a; b] 1 R ltac:(lia)) as (r' & E & R'). exists r'. split; [exact E|]. split; [exact R'|].
  unfold get_data, down1. rewrite (sr_item _ _ _ R'). reflexivity.
Qed.

Definition two_bytes : sock_ring := match put_data true demo_ring [7; 8] with Done (_, r) => r | _ => demo_ring end.

Lemma two_bytes_rep : sring_rep two_bytes [7; 8] 2.
Proof.
  unfold two_bytes. destruct (put_loop_ok [7; 8] demo_ring [] 0 demo_ring_rep) as (r' & E & R' & _);
    [change (zlen []) with 0; lia | vm_compute; discriminate |].
  unfold put_data. change (s_left demo_ring <? zlen [7; 8]) with false. cbn iota. rewrite E. exact R'.
Qed.

Lemma short_read_strands_a_byte_witness :
  exists r', get_data true two_bytes 1 = Done (1, [7], r') /\ sring_rep r' [8] 0 /\ get_data true r' 1 = Blocked.
Proof. apply (short_read_strands_a_byte two_bytes 7 8 two_bytes_rep). Defined.
