(* ===== verification/Checksum.v ===== *)
(** * Byte order and the Internet checksum (src/src/net.cc)

    [net_t::htons] and its kin, [make_ipaddr], and [check_sum] with the reference
    definition it is equivalent to. *)
From Stdlib Require Import ZArith ZifyBool Lia.
From stdpp Require Import base option list.
From S2P Require Import Prelude.

Definition htons (n : Z) : Z :=
  u16 (Z.lor (Z.shiftl (Z.land n 0xFF) 8) (Z.shiftr (Z.land n 0xFF00) 8)).

Definition ntohs (n : Z) : Z :=
  u16 (Z.lor (Z.shiftl (Z.land n 0xFF) 8) (Z.shiftr (Z.land n 0xFF00) 8)).

Definition htonl (n : Z) : Z :=
  Z.lor (Z.lor (Z.lor (u32 (Z.shiftl (Z.land n 0xFF) 24)) (u32 (Z.shiftl (Z.land n 0xFF00) 8)))
               (Z.shiftr (Z.land n 0xFF0000) 8)) (Z.shiftr (Z.land n 0xFF000000) 24).

Definition ntohl (n : Z) : Z :=
  Z.lor (Z.lor (Z.lor (u32 (Z.shiftl (Z.land n 0xFF) 24)) (u32 (Z.shiftl (Z.land n 0xFF00) 8)))
               (Z.shiftr (Z.land n 0xFF0000) 8)) (Z.shiftr (Z.land n 0xFF000000) 24).

Definition make_ipaddr (ip0 ip1 ip2 ip3 : Z) : Z :=
  Z.lor (Z.lor (Z.lor (u32 (Z.shiftl ip0 24)) (u32 (Z.shiftl ip1 16))) (u32 (Z.shiftl ip2 8))) ip3.

(** The loop over 16-bit words of memory, low byte first, with the odd last byte. *)
Fixpoint sum_words (data : list Z) (acc : Z) : Z :=
  match data with
  | a :: b :: rest => sum_words rest (u32 (acc + (a + 256 * b)))
  | [a] => u32 (acc + a)
  | [] => acc
  end.

(** [while (acc >> 16) acc = (acc & 0xffff) + (acc >> 16);] *)
Fixpoint fold_carry (fuel : nat) (acc : Z) : option Z :=
  match fuel with
  | O => None
  | S k => if Z.shiftr acc 16 =? 0 then Some acc
           else fold_carry k (u32 (Z.land acc 0xffff + Z.shiftr acc 16))
  end.

(** Three tests are enough: [fold_carry_enough]. *)
Definition FOLD_FUEL : nat := 3.

(** [uint16 ~acc] *)
Definition check_sum (data : list Z) : Z :=
  match fold_carry FOLD_FUEL (sum_words data 0) with
  | Some acc => u16 (not32 acc)
  | None => 0
  end.

(** ** Byte order *)

(** The field of [k] bits at bit [i]. *)
Lemma land_field n m i : 0 <= i -> Z.land n (Z.shiftl m i) = Z.shiftl (Z.land (Z.shiftr n i) m) i.
Proof.
  intros Hi. apply Z.bits_inj'. intros j Hj. rewrite Z.land_spec, !Z.shiftl_spec by lia. rewrite Z.land_spec.
  destruct (Z.ltb_spec j i); [rewrite (Z.testbit_neg_r m), (Z.testbit_neg_r (Z.shiftr n i)) by lia; apply andb_false_r|].
  rewrite Z.shiftr_spec by lia. do 2 f_equal. lia.
Qed.

Lemma land_255 n : Z.land n 255 = n mod 256.
Proof. change 255 with (Z.ones 8). rewrite Z.land_ones by lia. reflexivity. Qed.

Lemma byte_field n i : 0 <= i -> Z.shiftr (Z.land n (Z.shiftl 255 i)) i = n / 2 ^ i mod 256.
Proof.
  intros Hi. rewrite land_field, Z.shiftr_shiftl_l, Z.sub_diag, Z.shiftl_0_r, land_255, Z.shiftr_div_pow2 by lia. reflexivity.
Qed.

Lemma htons_value n : 0 <= n < 2 ^ 16 -> htons n = n mod 256 * 256 + n / 256.
Proof.
  intros Hn. unfold htons. change 0xFF00 with (Z.shiftl 255 8). rewrite byte_field, land_255 by lia. change (2 ^ 8) with 256.
  rewrite Z.shiftl_mul_pow2, lor_disjoint by divlia. change (2 ^ 8) with 256. rewrite (Z.mod_small (n / 256)) by divlia. apply u16_small. divlia.
Qed.

Lemma htons_involutive n : 0 <= n < 2 ^ 16 -> ntohs (htons n) = n.
Proof.
  intros Hn. change ntohs with htons. assert (0 <= htons n < 2 ^ 16) by (rewrite htons_value by lia; divlia).
  rewrite htons_value by lia. rewrite htons_value by lia. divlia.
Qed.

(** The bytes of a word in network order are its bytes in memory reversed. *)
Lemma htons_bytes n : 0 <= n < 2 ^ 16 -> le_bytes 2 (htons n) = [n / 256; n mod 256].
Proof.
  intros Hn. rewrite htons_value by lia. cbn [le_bytes]. f_equal; [divlia | f_equal; divlia].
Qed.

Lemma htonl_value n : 0 <= n < 2 ^ 32 ->
  htonl n = ((n mod 256 * 256 + n / 2 ^ 8 mod 256) * 256 + n / 2 ^ 16 mod 256) * 256 + n / 2 ^ 24.
Proof.
  intros Hn. unfold htonl. rewrite land_255.
  replace (Z.shiftl (Z.land n 0xFF00) 8) with (n / 2 ^ 8 mod 256 * 2 ^ 16)
    by (change 0xFF00 with (Z.shiftl 255 8); rewrite (land_field n 255 8), land_255, Z.shiftl_shiftl, Z.shiftr_div_pow2, Z.shiftl_mul_pow2 by lia; reflexivity).
  replace (Z.shiftr (Z.land n 0xFF0000) 8) with (n / 2 ^ 16 mod 256 * 2 ^ 8)
    by (change 0xFF0000 with (Z.shiftl 255 16); rewrite (land_field n 255 16), land_255, Z.shiftr_shiftl_l, Z.shiftr_div_pow2, Z.shiftl_mul_pow2 by lia; reflexivity).
  change 0xFF000000 with (Z.shiftl 255 24). rewrite byte_field, Z.shiftl_mul_pow2 by lia.
  rewrite (Z.mod_small (n / 2 ^ 24)) by divlia. rewrite !u32_small by divlia.
  rewrite lor_disjoint by divlia.
  replace (n mod 256 * 2 ^ 24 + n / 2 ^ 8 mod 256 * 2 ^ 16) with ((n mod 256 * 256 + n / 2 ^ 8 mod 256) * 2 ^ 16) by lia.
  rewrite lor_disjoint by divlia.
  replace ((n mod 256 * 256 + n / 2 ^ 8 mod 256) * 2 ^ 16 + n / 2 ^ 16 mod 256 * 2 ^ 8)
    with (((n mod 256 * 256 + n / 2 ^ 8 mod 256) * 256 + n / 2 ^ 16 mod 256) * 2 ^ 8) by lia.
  rewrite lor_disjoint by divlia. reflexivity.
Qed.

Lemma htonl_range n : 0 <= n < 2 ^ 32 -> 0 <= htonl n < 2 ^ 32.
Proof. intros Hn. rewrite htonl_value by lia. divlia. Qed.

Lemma htons_range n : 0 <= n < 2 ^ 16 -> 0 <= htons n < 2 ^ 16.
Proof. intros Hn. rewrite htons_value by lia. divlia. Qed.

(** A word from its bytes, low byte first. *)
Definition word4 (b0 b1 b2 b3 : Z) : Z := b0 + 256 * (b1 + 256 * (b2 + 256 * b3)).

Lemma word4_split n : 0 <= n < 2 ^ 32 -> exists b0 b1 b2 b3,
  n = word4 b0 b1 b2 b3 /\ 0 <= b0 < 256 /\ 0 <= b1 < 256 /\ 0 <= b2 < 256 /\ 0 <= b3 < 256.
Proof.
  intros Hn. exists (n mod 256), (n / 256 mod 256), (n / 256 / 256 mod 256), (n / 256 / 256 / 256). unfold word4.
  split; [divlia|]. repeat split; try (apply Z.mod_pos_bound; lia); divlia.
Qed.

Lemma htonl_word4 b0 b1 b2 b3 : 0 <= b0 < 256 -> 0 <= b1 < 256 -> 0 <= b2 < 256 -> 0 <= b3 < 256 ->
  htonl (word4 b0 b1 b2 b3) = word4 b3 b2 b1 b0.
Proof.
  intros H0 H1 H2 H3. rewrite htonl_value by (unfold word4; lia).
  assert (E0 : word4 b0 b1 b2 b3 mod 256 = b0) by (unfold word4; divlia).
  assert (E1 : word4 b0 b1 b2 b3 / 2 ^ 8 mod 256 = b1)
    by (replace (word4 b0 b1 b2 b3 / 2 ^ 8) with (b1 + 256 * (b2 + 256 * b3)) by (unfold word4; divlia); divlia).
  assert (E2 : word4 b0 b1 b2 b3 / 2 ^ 16 mod 256 = b2)
    by (replace (word4 b0 b1 b2 b3 / 2 ^ 16) with (b2 + 256 * b3) by (unfold word4; divlia); divlia).
  assert (E3 : word4 b0 b1 b2 b3 / 2 ^ 24 = b3) by (unfold word4; divlia).
  rewrite E0, E1, E2, E3. unfold word4. lia.
Qed.

Lemma htonl_involutive n : 0 <= n < 2 ^ 32 -> ntohl (htonl n) = n.
Proof.
  intros Hn. change ntohl with htonl. destruct (word4_split n Hn) as (b0 & b1 & b2 & b3 & -> & ? & ? & ? & ?).
  rewrite !htonl_word4 by lia. reflexivity.
Qed.

(** ** The checksum *)

(** One's complement addition of 16-bit words. *)
Definition oc_add (a b : Z) : Z := if a + b <? 65536 then a + b else a + b - 65535.

(** The 16-bit words of a packet as memory holds them, padded with a zero byte. *)
Fixpoint words (data : list Z) : list Z :=
  match data with
  | a :: b :: rest => (a + 256 * b) :: words rest
  | [a] => [a]
  | [] => []
  end.

Definition ones_sum (data : list Z) : Z := foldr oc_add 0 (words data).

Definition plain_sum (data : list Z) : Z := foldr Z.add 0 (words data).

Lemma pair_ind (P : list Z -> Prop) : P [] -> (forall a, P [a]) -> (forall a b l, P l -> P (a :: b :: l)) -> forall l, P l.
Proof.
  intros H0 H1 H2. assert (forall n l, (length l <= n)%nat -> P l) as H; [|intros l; apply (H (length l)); lia].
  induction n as [|n IH]; intros [|a [|b l]] Hl; cbn in Hl; auto with lia.
Qed.

Lemma words_range data : byte_list data -> Forall (fun w => 0 <= w < 65536) (words data).
Proof.
  induction data as [| a | a b l IH] using pair_ind; intros H; cbn; [constructor | |].
  - apply Forall_cons in H as [? ?]. repeat constructor; lia.
  - apply Forall_cons in H as [Ha H]. apply Forall_cons in H as [Hb H]. constructor; [lia | auto].
Qed.

Lemma plain_sum_range data : byte_list data -> 0 <= plain_sum data <= 65535 * ((zlen data + 1) / 2).
Proof.
  unfold plain_sum. induction data as [| a | a b l IH] using pair_ind; intros H; cbn [words foldr].
  - split; discriminate.
  - apply Forall_cons in H as [? ?]. change ((zlen [a] + 1) / 2) with 1. lia.
  - apply Forall_cons in H as [Ha H]. apply Forall_cons in H as [Hb H]. specialize (IH H). rewrite !zlen_cons.
    replace (zlen l + 1 + 1 + 1) with (zlen l + 1 + 1 * 2) by lia. rewrite Z.div_add by lia. lia.
Qed.

Lemma sum_words_plain data : forall acc, byte_list data -> 0 <= acc -> acc + plain_sum data < 2 ^ 32 ->
  sum_words data acc = acc + plain_sum data.
Proof.
  unfold plain_sum. induction data as [| a | a b l IH] using pair_ind; intros acc H Ha Hs; cbn [words foldr sum_words] in *.
  - lia.
  - apply Forall_cons in H as [? ?]. rewrite u32_small by lia. lia.
  - apply Forall_cons in H as [Hx H]. apply Forall_cons in H as [Hb H]. pose proof (plain_sum_range l H) as [Hp _]. unfold plain_sum in Hp.
    rewrite u32_small by lia. rewrite IH by (auto; lia). lia.
Qed.

(** What a folded sum is: a representative modulo [65535], zero only for zero. *)
Definition folded (s r : Z) : Prop := 0 <= r <= 65535 /\ (exists k, s = r + 65535 * k) /\ (r = 0 <-> s = 0).

Lemma folded_unique s r1 r2 : folded s r1 -> folded s r2 -> r1 = r2.
Proof. intros (H1 & (k1 & E1) & Z1) (H2 & (k2 & E2) & Z2). lia. Qed.

Lemma folded_small s : 0 <= s < 65536 -> folded s s.
Proof. intros H. split; [lia|]. split; [exists 0; lia | tauto]. Qed.

Lemma folded_step s r : 0 <= s -> folded (s mod 65536 + s / 65536) r -> folded s r.
Proof.
  intros Hs (Hr & (k & E) & Hz). split; [exact Hr|]. split.
  - exists (k + s / 65536). pose proof (Z.div_mod s 65536). lia.
  - rewrite Hz. divlia.
Qed.

Lemma ones_sum_folded data : byte_list data -> folded (plain_sum data) (ones_sum data).
Proof.
  intros H. apply words_range in H. unfold plain_sum, ones_sum. induction H as [|w ws Hw Hws IH]; cbn; [apply folded_small; lia|].
  assert (0 <= foldr Z.add 0 ws) by (clear IH; induction Hws; cbn; lia).
  destruct IH as (Hr & (k & E) & Hz). unfold oc_add at 1. destruct (_ <? 65536) eqn:F; tests.
  - split; [lia|]. split; [exists k; lia | lia].
  - split; [lia|]. split; [exists (k + 1); lia | lia].
Qed.

(** The loop of [check_sum] ends after at most two rounds. *)
Lemma fold_carry_enough s : 0 <= s < 2 ^ 32 -> exists r, fold_carry FOLD_FUEL s = Some r /\ folded s r.
Proof.
  intros Hs. unfold FOLD_FUEL.
  assert (Hstep : forall x, 0 <= x < 2 ^ 32 -> u32 (Z.land x 0xffff + Z.shiftr x 16) = x mod 65536 + x / 65536).
  { intros x Hx. change 0xffff with (Z.ones 16). rewrite Z.land_ones, Z.shiftr_div_pow2 by lia. apply u32_small. divlia. }
  assert (Hsh : forall x, Z.shiftr x 16 = x / 65536) by (intros; rewrite Z.shiftr_div_pow2 by lia; reflexivity).
  assert (H1 : 0 <= s mod 65536 + s / 65536 <= 131070) by divlia.
  cbn [fold_carry]. rewrite !Hstep, !Hsh by lia. destruct (s / 65536 =? 0) eqn:E1; tests; [exists s; split; [reflexivity | apply folded_small; divlia]|].
  remember (s mod 65536 + s / 65536) as t eqn:Et. assert (Hf : forall r, folded t r -> folded s r) by (subst t; intros r; apply folded_step; lia).
  destruct (t / 65536 =? 0) eqn:E2; tests; [exists t; split; [reflexivity | apply Hf, folded_small; divlia]|].
  assert (H2 : 0 <= t mod 65536 + t / 65536 < 65536) by divlia.
  rewrite (Z.div_small (t mod 65536 + t / 65536)) by lia. cbn.
  eexists. split; [reflexivity|]. apply Hf, folded_step; [lia | apply folded_small; lia].
Qed.

(** The largest packet whose sum cannot overflow the 32-bit accumulator. *)
Definition MAX_SUM_LEN : Z := 131072.

Lemma check_sum_folded data : byte_list data -> zlen data <= MAX_SUM_LEN -> folded (plain_sum data) (65535 - check_sum data).
Proof.
  intros H Hl. pose proof (plain_sum_range data H) as Hr. unfold MAX_SUM_LEN in Hl.
  assert (Hs : 0 <= plain_sum data < 2 ^ 32).
  { assert ((zlen data + 1) / 2 <= 65536) by divlia. lia. }
  destruct (fold_carry_enough (plain_sum data) Hs) as (r & E & F). unfold check_sum. rewrite sum_words_plain, Z.add_0_l by (auto; lia). rewrite E.
  destruct F as (Hr' & Hk & Hz). replace (u16 (not32 r)) with (65535 - r).
  - replace (65535 - (65535 - r)) with r by lia. repeat split; auto; tauto || lia.
  - unfold u16, not32, u32. rewrite (Z.mod_small r) by lia. replace (2 ^ 32 - 1 - r) with (65535 - r + 65535 * 2 ^ 16) by lia.
    rewrite Z_mod_plus_full. symmetry. apply Z.mod_small. lia.
Qed.

Lemma plain_sum_app pre post : Nat.Even (length pre) -> plain_sum (pre ++ post) = plain_sum pre + plain_sum post.
Proof.
  unfold plain_sum. induction pre as [| a | a b l IH] using pair_ind; intros [k Hk]; cbn [length words app foldr] in *.
  - reflexivity.
  - lia.
  - rewrite IH by (exists (k - 1)%nat; lia). lia.
Qed.

(** Zero means: the words sum to a positive multiple of [65535]. *)
Lemma check_sum_zero data : byte_list data -> zlen data <= MAX_SUM_LEN ->
  (check_sum data = 0 <-> 0 < plain_sum data /\ plain_sum data mod 65535 = 0).
Proof.
  intros H Hl. pose proof (plain_sum_range data H) as Hp. destruct (check_sum_folded data H Hl) as (Hr & (k & E) & Hz). split.
  - intros C. rewrite C, Z.sub_0_r in *. split; [lia|]. rewrite E. replace (65535 + 65535 * k) with ((1 + k) * 65535) by lia. apply Z.mod_mul. lia.
  - intros [Hpos Hm]. rewrite E in Hm. rewrite Z.mul_comm, Z_mod_plus_full in Hm.
    destruct (Z.eq_dec (check_sum data) 0) as [|Hne]; [assumption|]. rewrite Z.mod_small in Hm by lia. lia.
Qed.

Lemma check_sum_range data : byte_list data -> zlen data <= MAX_SUM_LEN -> 0 <= check_sum data < 2 ^ 16.
Proof. intros H Hl. destruct (check_sum_folded data H Hl) as (Hr & _). lia. Qed.

(** A packet that stores its own checksum sums to zero. *)
Lemma check_sum_stored pre post : Nat.Even (length pre) -> byte_list pre -> byte_list post -> zlen pre + 2 + zlen post <= MAX_SUM_LEN ->
  check_sum (pre ++ le_bytes 2 (check_sum (pre ++ [0; 0] ++ post)) ++ post) = 0.
Proof.
  intros He Hpre Hpost Hl. pose proof (zlen_nonneg pre). pose proof (zlen_nonneg post).
  assert (B0 : byte_list (pre ++ [0; 0] ++ post)) by (repeat apply Forall_app_2; auto; repeat constructor; lia).
  assert (L0 : zlen (pre ++ [0; 0] ++ post) <= MAX_SUM_LEN) by (rewrite !zlen_app; change (zlen [0; 0]) with 2; lia).
  pose proof (check_sum_range _ B0 L0) as Hc. destruct (check_sum_folded _ B0 L0) as (Hr & (k & E) & Hz). remember (check_sum (pre ++ [0; 0] ++ post)) as c eqn:Ec.
  assert (B1 : byte_list (pre ++ le_bytes 2 c ++ post)) by (repeat apply Forall_app_2; auto; apply le_bytes_byte_list).
  apply check_sum_zero; [exact B1 | rewrite !zlen_app; unfold zlen at 2; rewrite le_bytes_length; lia |].
  assert (S1 : forall x, plain_sum (pre ++ le_bytes 2 x ++ post) = plain_sum pre + x mod 65536 + plain_sum post).
  { intros x. rewrite !plain_sum_app by (auto; exists 1%nat; rewrite le_bytes_length; reflexivity). unfold plain_sum at 2. cbn [le_bytes words foldr]. divlia. }
  assert (S0 : plain_sum (pre ++ [0; 0] ++ post) = plain_sum pre + plain_sum post).
  { change [0; 0] with (le_bytes 2 0). rewrite S1. rewrite Z.mod_0_l by lia. lia. }
  rewrite S1, Z.mod_small by lia. rewrite S0 in *. pose proof (plain_sum_range _ Hpre). pose proof (plain_sum_range _ Hpost). split; [lia|].
  replace (plain_sum pre + c + plain_sum post) with ((k + 1) * 65535) by lia. apply Z.mod_mul. lia.
Qed.

(** Changing one byte changes the sum by less than [65535]. *)
Lemma plain_sum_byte pre x y post : exists e, (e = 1 \/ e = 256) /\ plain_sum (pre ++ y :: post) = plain_sum (pre ++ x :: post) + e * (y - x).
Proof.
  unfold plain_sum. induction pre as [| a | a b l IH] using pair_ind; cbn [app words foldr].
  - exists 1. split; [auto|]. destruct post; cbn [words foldr]; lia.
  - exists 256. split; [auto | lia].
  - destruct IH as (e & He & ->). exists e. split; [auto | lia].
Qed.

(** C14: The checksum of the code (a 32-bit accumulator over little-endian words, its
    carries folded back by a loop) is the complement of the one's complement sum of
    the packet's 16-bit words, for every packet of up to 131072 bytes. *)
Theorem check_sum_correct data : byte_list data -> zlen data <= MAX_SUM_LEN -> check_sum data = 65535 - ones_sum data.
Proof.
  intros H Hl. pose proof (folded_unique _ _ _ (check_sum_folded data H Hl) (ones_sum_folded data H)). lia.
Qed.

Lemma check_sum_correct_witness : check_sum [0x45; 0; 0; 0x1c; 1] = 65535 - ones_sum [0x45; 0; 0; 0x1c; 1].
Proof. apply (check_sum_correct [0x45; 0; 0; 0x1c; 1]); [repeat constructor; lia | discriminate]. Defined.

(** The receiver's test.  A packet that carries its own checksum at an even
    offset sums to zero, and after any single byte of it is altered it does not. *)
Theorem check_sum_detects pre post l x y r : Nat.Even (length pre) -> byte_list pre -> byte_list post ->
  zlen pre + 2 + zlen post <= MAX_SUM_LEN ->
  l ++ x :: r = pre ++ le_bytes 2 (check_sum (pre ++ [0; 0] ++ post)) ++ post -> 0 <= y < 256 -> x <> y ->
  check_sum (l ++ x :: r) = 0 /\ check_sum (l ++ y :: r) <> 0.
Proof.
  intros He Hpre Hpost Hlen E Hy Hne. pose proof (check_sum_stored pre post He Hpre Hpost Hlen) as C. rewrite <- E in C. split; [exact C|].
  assert (HB : byte_list (l ++ x :: r)) by (rewrite E; repeat apply Forall_app_2; auto; apply le_bytes_byte_list).
  assert (HL : zlen (l ++ x :: r) <= MAX_SUM_LEN) by (rewrite E, !zlen_app; unfold zlen at 2; rewrite le_bytes_length; lia).
  apply Forall_app in HB as [Hbl Hbr]. apply Forall_cons in Hbr as [Hx Hr].
  rewrite check_sum_zero in C by (auto; apply Forall_app_2; auto). intros C'. destruct (plain_sum_byte l x y r) as (e & He2 & Es).
  rewrite check_sum_zero in C' by (first [apply Forall_app_2; auto | rewrite zlen_app, zlen_cons in *; lia]).
  rewrite Es in C'. destruct C as [_ C], C' as [_ C']. rewrite Z.add_mod, C, Z.add_0_l, Z.mod_mod in C' by lia.
  apply Z.mod_divide in C'; [|lia]. destruct C' as [k Ek]. destruct He2 as [-> | ->]; lia.
Qed.

Lemma check_sum_detects_witness : check_sum ([0x45; 0] ++ 0xba :: [0xff; 0; 0]) = 0 /\ check_sum ([0x45; 0] ++ 0xbb :: [0xff; 0; 0]) <> 0.
Proof.
  apply (check_sum_detects [0x45; 0] [0; 0] [0x45; 0] 0xba 0xbb [0xff; 0; 0]).
  - exists 1%nat. reflexivity.
  - repeat (apply Forall_cons_2; [lia|]). apply Forall_nil_2.
  - repeat (apply Forall_cons_2; [lia|]). apply Forall_nil_2.
  - discriminate.
  - reflexivity.
  - lia.
  - lia.
Defined.
