(* ===== verification/EtherCrc.v ===== *)
(** * The frame check sequence (src/src/ethernet.cc, [ether_crc])

    The code divides by table, four bits at a time, with the two complements of the
    standard folded into the table.  It is compared with the definition of the standard:
    a register of 32 bits that takes one bit of the frame at a time.  From there: an error
    inside four consecutive bytes never leaves the sum as it was. *)
From Stdlib Require Import ZArith ZifyBool Lia.
From stdpp Require Import base option list.
From S2P Require Import Prelude.

Definition crc_table : list Z :=
  [0x4DBDF21C; 0x500AE278; 0x76D3D2D4; 0x6B64C2B0;
   0x3B61B38C; 0x26D6A3E8; 0x000F9344; 0x1DB88320;
   0xA005713C; 0xBDB26158; 0x9B6B51F4; 0x86DC4190;
   0xD6D930AC; 0xCB6E20C8; 0xEDB71064; 0xF0000000].

(** One of the two lines of the loop, on the byte shifted by 0 or by 4. *)
Definition nibble_step (crc x : Z) : Z :=
  Z.lxor (Z.shiftr crc 4) (crc_table !!! Z.to_nat (Z.land (Z.lxor crc x) 0x0F)).

Definition ether_crc (data : list Z) : Z :=
  foldl (fun crc b => nibble_step (nibble_step crc (Z.shiftr b 0)) (Z.shiftr b 4)) 0 data.

(** ** The standard, bit by bit *)

(** The generator, lowest power in the highest bit. *)
Definition generator : Z := 0xEDB88320.

Definition shift1 (c : Z) : Z := Z.lxor (Z.shiftr c 1) (if Z.odd c then generator else 0).

Definition crc_bit (c : Z) (b : bool) : Z := shift1 (Z.lxor c (Z.b2z b)).

Fixpoint bits_of (n : nat) (x : Z) : list bool :=
  match n with
  | O => []
  | S k => Z.odd x :: bits_of k (Z.shiftr x 1)
  end.

(** The bits of a frame in the order in which they are sent. *)
Definition frame_bits (data : list Z) : list bool := data ≫= bits_of 8.

Definition ones32 : Z := 0xFFFFFFFF.

Definition crc32 (data : list Z) : Z := Z.lxor (foldl crc_bit ones32 (frame_bits data)) ones32.

(** ** Shifting the register *)

Ltac bitwise i := apply Z.bits_inj'; intros i ?; rewrite ?Z.lxor_spec, ?Z.land_spec, ?Z.shiftr_spec, ?Z.lxor_spec by lia.

Lemma shift1_lxor a b : shift1 (Z.lxor a b) = Z.lxor (shift1 a) (shift1 b).
Proof.
  unfold shift1. rewrite <- !Z.bit0_odd, Z.lxor_spec, Z.shiftr_lxor.
  destruct (Z.testbit a 0), (Z.testbit b 0); cbn [xorb]; rewrite ?Z.lxor_0_r; bitwise i;
    destruct (Z.testbit a (i + 1)), (Z.testbit b (i + 1)), (Z.testbit generator i); reflexivity.
Qed.

Lemma iter_shift1_lxor n a b : Nat.iter n shift1 (Z.lxor a b) = Z.lxor (Nat.iter n shift1 a) (Nat.iter n shift1 b).
Proof. induction n as [|n IH]; [reflexivity|]. rewrite !Nat.iter_succ, IH. apply shift1_lxor. Qed.

Lemma shift1_double x : shift1 (Z.shiftl x 1) = x.
Proof.
  unfold shift1. rewrite <- Z.bit0_odd, Z.shiftl_spec_low, Z.lxor_0_r by lia. rewrite Z.shiftr_shiftl_l by lia. apply Z.shiftl_0_r.
Qed.

Lemma iter_shift1_shiftl n x : Nat.iter n shift1 (Z.shiftl x (Z.of_nat n)) = x.
Proof.
  induction n as [|n IH]; [apply Z.shiftl_0_r|]. rewrite Nat.iter_succ_r.
  replace (Z.of_nat (S n)) with (Z.of_nat n + 1) by lia. rewrite <- Z.shiftl_shiftl by lia. rewrite shift1_double. exact IH.
Qed.

(** [n] bits of [x], one after the other, are [n] shifts of the register with [x] added. *)
Lemma fold_bits n c x : foldl crc_bit c (bits_of n x) = Nat.iter n shift1 (Z.lxor c (x mod 2 ^ Z.of_nat n)).
Proof.
  revert c x. induction n as [|n IH]; intros c x; [cbn; rewrite Z.mod_1_r, Z.lxor_0_r; reflexivity|].
  cbn [bits_of foldl]. rewrite IH. rewrite Nat.iter_succ_r. f_equal.
  rewrite <- (shift1_double (Z.shiftr x 1 mod 2 ^ Z.of_nat n)). unfold crc_bit. rewrite <- shift1_lxor. f_equal.
  rewrite Z.lxor_assoc. f_equal. apply Z.bits_inj'. intros i Hi. rewrite Z.lxor_spec.
  destruct (Z.eq_dec i 0) as [->|Hne].
  - rewrite Z.shiftl_spec_low, Z.mod_pow2_bits_low, !Z.bit0_odd by lia. rewrite xorb_false_r. destruct (Z.odd x); reflexivity.
  - rewrite Z.shiftl_spec by lia. replace (Z.testbit (Z.b2z (Z.odd x)) i) with false
      by (destruct (Z.odd x); cbn [Z.b2z]; [symmetry; apply (Z.bits_above_log2 1); cbn; lia|symmetry; apply Z.bits_0]).
    cbn [xorb]. destruct (decide (i < Z.of_nat (S n))).
    + rewrite !Z.mod_pow2_bits_low, Z.shiftr_spec by lia. f_equal. lia.
    + rewrite !Z.mod_pow2_bits_high by lia. reflexivity.
Qed.

(** Four shifts at once: what goes out at the bottom selects what is added. *)
Lemma iter4_split c : Nat.iter 4 shift1 c = Z.lxor (Z.shiftr c 4) (Nat.iter 4 shift1 (Z.land c 15)).
Proof.
  assert (E : c = Z.lxor (Z.shiftl (Z.shiftr c 4) 4) (Z.land c 15)).
  { change 15 with (Z.ones 4). rewrite Z.land_ones by lia. apply Z.bits_inj'. intros i Hi. rewrite Z.lxor_spec.
    destruct (decide (i < 4)).
    - rewrite Z.shiftl_spec_low, Z.mod_pow2_bits_low by lia. destruct (Z.testbit c i); reflexivity.
    - rewrite Z.shiftl_spec, Z.shiftr_spec, Z.mod_pow2_bits_high, xorb_false_r by lia. f_equal. lia. }
  rewrite E at 1. rewrite iter_shift1_lxor. change 4 with (Z.of_nat 4) at 2. rewrite iter_shift1_shiftl. reflexivity.
Qed.

Lemma table_entry k : 0 <= k < 16 -> crc_table !!! Z.to_nat (Z.lxor k 15) = Z.lxor (Nat.iter 4 shift1 k) 0xF0000000.
Proof.
  intros H. assert (D : k = 0 \/ k = 1 \/ k = 2 \/ k = 3 \/ k = 4 \/ k = 5 \/ k = 6 \/ k = 7 \/ k = 8 \/ k = 9 \/ k = 10 \/
    k = 11 \/ k = 12 \/ k = 13 \/ k = 14 \/ k = 15) by lia.
  repeat destruct D as [-> | D]; try reflexivity. subst k. reflexivity.
Qed.

(** The register of the code is the complement of the register of the standard. *)
Lemma nibble_step_spec c x : nibble_step (Z.lxor c ones32) x = Z.lxor (foldl crc_bit c (bits_of 4 x)) ones32.
Proof.
  rewrite fold_bits. unfold nibble_step. change (2 ^ Z.of_nat 4) with (2 ^ 4). rewrite <- Z.land_ones by lia. change (Z.ones 4) with 15.
  assert (E : Z.land (Z.lxor (Z.lxor c ones32) x) 0x0F = Z.lxor (Z.land (Z.lxor c x) 15) 15).
  { apply Z.bits_inj'. intros i Hi. rewrite ?Z.lxor_spec, ?Z.land_spec, ?Z.lxor_spec.
    destruct (decide (i < 4)).
    - assert (D : i = 0 \/ i = 1 \/ i = 2 \/ i = 3) by lia. destruct (Z.testbit c i), (Z.testbit x i); repeat destruct D as [-> | D]; try subst i; reflexivity.
    - rewrite (Z.bits_above_log2 15) by (cbn; lia). rewrite !andb_false_r. reflexivity. }
  rewrite E, table_entry by (change 15 with (Z.ones 4); rewrite Z.land_ones by lia; apply Z.mod_pos_bound; lia).
  rewrite (iter4_split (Z.lxor c (Z.land x 15))). rewrite !Z.shiftr_lxor.
  replace (Z.shiftr (Z.land x 15) 4) with 0.
  2: { symmetry. apply Z.bits_inj'. intros i Hi. rewrite Z.shiftr_spec, Z.land_spec, Z.bits_0 by lia.
       rewrite (Z.bits_above_log2 15) by (cbn; lia). apply andb_false_r. }
  replace (Z.land (Z.lxor c (Z.land x 15)) 15) with (Z.land (Z.lxor c x) 15).
  2: { bitwise i. rewrite Z.land_spec. destruct (Z.testbit c i), (Z.testbit x i), (Z.testbit 15 i); reflexivity. }
  rewrite Z.lxor_0_r. change (Z.shiftr ones32 4) with (Z.lxor ones32 0xF0000000).
  set (t := Nat.iter 4 shift1 _). bitwise i.
  destruct (Z.testbit c (i + 4)), (Z.testbit ones32 i), (Z.testbit 0xF0000000 i), (Z.testbit t i); reflexivity.
Qed.

Lemma bits_of_app n k x : bits_of (n + k) x = bits_of n x ++ bits_of k (Z.shiftr x (Z.of_nat n)).
Proof.
  revert x. induction n as [|n IH]; intros x; [cbn; rewrite Z.shiftr_0_r; reflexivity|].
  cbn [Nat.add bits_of app]. f_equal. rewrite IH, Z.shiftr_shiftr by lia. do 3 f_equal. lia.
Qed.

Lemma bits_of_mod n x y : x mod 2 ^ Z.of_nat n = y mod 2 ^ Z.of_nat n -> bits_of n x = bits_of n y.
Proof.
  revert x y. induction n as [|n IH]; intros x y H; [reflexivity|]. cbn [bits_of].
  assert (B : forall i, 0 <= i < Z.of_nat (S n) -> Z.testbit x i = Z.testbit y i).
  { intros i Hi. apply (f_equal (fun z => Z.testbit z i)) in H. rewrite !Z.mod_pow2_bits_low in H by lia. exact H. }
  f_equal; [rewrite <- !Z.bit0_odd; apply B; lia|]. apply IH. apply Z.bits_inj'. intros i Hi. destruct (decide (i < Z.of_nat n)).
  - rewrite !Z.mod_pow2_bits_low, !Z.shiftr_spec by lia. apply B. lia.
  - rewrite !Z.mod_pow2_bits_high by lia. reflexivity.
Qed.

Lemma frame_bits_cons b data : frame_bits (b :: data) = bits_of 8 b ++ frame_bits data.
Proof. reflexivity. Qed.

Lemma frame_bits_app a b : frame_bits (a ++ b) = frame_bits a ++ frame_bits b.
Proof. apply bind_app. Qed.

(** The frame as one number, lowest byte first. *)
Lemma frame_bits_value e : byte_list e -> frame_bits e = bits_of (8 * length e) (le_value e).
Proof.
  intros H. induction H as [|b e Hb He IH]; [reflexivity|]. rewrite frame_bits_cons, IH. cbn [length le_value].
  replace (8 * S (length e))%nat with (8 + 8 * length e)%nat by lia. rewrite bits_of_app. f_equal.
  - apply bits_of_mod. change (2 ^ Z.of_nat 8) with 256. rewrite Z.mul_comm, Z_mod_plus_full. reflexivity.
  - f_equal. rewrite Z.shiftr_div_pow2 by lia. change (2 ^ Z.of_nat 8) with 256.
    rewrite Z.mul_comm, Z_div_plus_full, Z.div_small by lia. reflexivity.
Qed.

Lemma byte_step_spec c b :
  nibble_step (nibble_step (Z.lxor c ones32) (Z.shiftr b 0)) (Z.shiftr b 4) = Z.lxor (foldl crc_bit c (bits_of 8 b)) ones32.
Proof. rewrite Z.shiftr_0_r, !nibble_step_spec. change 8%nat with (4 + 4)%nat. rewrite bits_of_app, foldl_app. reflexivity. Qed.

Lemma ether_crc_from c data :
  foldl (fun crc b => nibble_step (nibble_step crc (Z.shiftr b 0)) (Z.shiftr b 4)) (Z.lxor c ones32) data =
  Z.lxor (foldl crc_bit c (frame_bits data)) ones32.
Proof.
  revert c. induction data as [|b data IH]; intros c; [reflexivity|].
  cbn [foldl]. rewrite byte_step_spec, IH, frame_bits_cons, foldl_app. reflexivity.
Qed.

Lemma ether_crc_crc32 data : ether_crc data = crc32 data.
Proof. apply (ether_crc_from ones32). Qed.

(** ** Shifting loses nothing *)

Lemma lxor_range a b : 0 <= a < 2 ^ 32 -> 0 <= b < 2 ^ 32 -> 0 <= Z.lxor a b < 2 ^ 32.
Proof.
  intros Ha Hb. assert (H0 : 0 <= Z.lxor a b) by (apply Z.lxor_nonneg; lia). split; [exact H0|].
  destruct (Z.eq_dec (Z.lxor a b) 0) as [->|Hne]; [lia|]. apply Z.log2_lt_pow2; [lia|].
  pose proof (Z.log2_lxor a b ltac:(lia) ltac:(lia)).
  assert (Z.log2 a < 32) by (destruct (Z.eq_dec a 0) as [->|]; [cbn; lia|apply Z.log2_lt_pow2; lia]).
  assert (Z.log2 b < 32) by (destruct (Z.eq_dec b 0) as [->|]; [cbn; lia|apply Z.log2_lt_pow2; lia]). lia.
Qed.

Lemma shift1_range c : 0 <= c < 2 ^ 32 -> 0 <= shift1 c < 2 ^ 32.
Proof.
  intros H. apply lxor_range; [|unfold generator; destruct (Z.odd c); lia]. rewrite Z.shiftr_div_pow2 by lia. change (2 ^ 1) with 2.
  divlia.
Qed.

Lemma shift1_zero d : 0 <= d < 2 ^ 32 -> shift1 d = 0 -> d = 0.
Proof.
  intros H E. unfold shift1 in E. apply Z.lxor_eq in E. rewrite Z.shiftr_div_pow2 in E by lia. change (2 ^ 1) with 2 in E.
  destruct (Z.odd d) eqn:O; [unfold generator in E; exfalso; divlia|].
  rewrite <- Z.negb_even in O. apply negb_false_iff, Z.even_spec in O as [x ->]. divlia.
Qed.

Lemma iter_shift1_zero n d : 0 <= d < 2 ^ 32 -> Nat.iter n shift1 d = 0 -> d = 0.
Proof.
  revert d. induction n as [|n IH]; intros d Hd H; [exact H|]. rewrite Nat.iter_succ_r in H.
  apply shift1_zero; [exact Hd|]. apply IH; [apply shift1_range, Hd|exact H].
Qed.

Lemma iter_shift1_inj n a b : 0 <= a < 2 ^ 32 -> 0 <= b < 2 ^ 32 -> Nat.iter n shift1 a = Nat.iter n shift1 b -> a = b.
Proof.
  intros Ha Hb H. apply Z.lxor_eq, (iter_shift1_zero n); [apply lxor_range; assumption|].
  rewrite iter_shift1_lxor, H. apply Z.lxor_nilpotent.
Qed.

Lemma crc_bit_range c b : 0 <= c < 2 ^ 32 -> 0 <= crc_bit c b < 2 ^ 32.
Proof. intros H. apply shift1_range, lxor_range; [exact H|]. destruct b; cbn; lia. Qed.

Lemma lxor_cancel_r a b x : Z.lxor a x = Z.lxor b x -> a = b.
Proof. intros H. apply (f_equal (fun z => Z.lxor z x)) in H. rewrite !Z.lxor_assoc, Z.lxor_nilpotent, !Z.lxor_0_r in H. exact H. Qed.

Lemma fold_crc_range bs c : 0 <= c < 2 ^ 32 -> 0 <= foldl crc_bit c bs < 2 ^ 32.
Proof. revert c. induction bs as [|b bs IH]; intros c H; [exact H|]. apply IH, crc_bit_range, H. Qed.

Lemma fold_crc_inj bs a b : 0 <= a < 2 ^ 32 -> 0 <= b < 2 ^ 32 -> foldl crc_bit a bs = foldl crc_bit b bs -> a = b.
Proof.
  revert a b. induction bs as [|x bs IH]; intros a b Ha Hb H; [exact H|].
  apply IH in H; [|apply crc_bit_range; assumption..]. apply (iter_shift1_inj 1) in H; [|apply lxor_range; [assumption|destruct x; cbn; lia]..].
  eapply lxor_cancel_r, H.
Qed.

(** Different bytes, at most four of them, lead to different registers. *)
Lemma burst_changes_register c e1 e2 : 0 <= c < 2 ^ 32 -> byte_list e1 -> byte_list e2 -> length e1 = length e2 -> (length e1 <= 4)%nat ->
  foldl crc_bit c (frame_bits e1) = foldl crc_bit c (frame_bits e2) -> e1 = e2.
Proof.
  intros Hc H1 H2 Hl H4 H. rewrite !frame_bits_value in H by assumption. rewrite <- Hl in H. rewrite !fold_bits in H.
  pose proof (le_value_range e1 4 H1 H4) as R1. pose proof (le_value_range e2 4 H2 ltac:(lia)) as R2. change (256 ^ Z.of_nat 4) with (2 ^ 32) in *.
  pose proof (le_value_range e1 _ H1 (le_n _)) as S1. pose proof (le_value_range e2 _ H2 (Nat.eq_le_incl _ _ (eq_sym Hl))) as S2.
  assert (E : 2 ^ Z.of_nat (8 * length e1) = 256 ^ Z.of_nat (length e1)) by (change 256 with (2 ^ 8); rewrite <- Z.pow_mul_r by lia; f_equal; lia).
  rewrite E, !Z.mod_small in H by assumption. apply iter_shift1_inj in H; [|apply lxor_range; assumption..].
  rewrite !(Z.lxor_comm c) in H. apply lxor_cancel_r in H.
  rewrite <- (le_bytes_value e1 H1), <- (le_bytes_value e2 H2), Hl, H. reflexivity.
Qed.

(** ** Theorems *)

(** C35: [ether_crc] computes the frame check sequence of the standard (generator 0xEDB88320
    bit-reversed, register preset to ones, complemented at the end), fits 32 bits, and
    tells two frames of the same length apart that differ only inside four consecutive
    bytes. *)
Theorem ether_crc_correct data : ether_crc data = crc32 data /\ 0 <= ether_crc data < 2 ^ 32 /\
  forall p e1 e2 s, data = p ++ e1 ++ s -> byte_list e1 -> byte_list e2 -> length e1 = length e2 -> (length e1 <= 4)%nat -> e1 <> e2 ->
    ether_crc (p ++ e2 ++ s) <> ether_crc data.
Proof.
  assert (R : 0 <= ones32 < 2 ^ 32) by (unfold ones32; lia).
  split; [apply ether_crc_crc32|]. split; [rewrite ether_crc_crc32; apply lxor_range, R; apply fold_crc_range, R|].
  intros p e1 e2 s -> H1 H2 Hl H4 Hne H. apply Hne. rewrite !ether_crc_crc32 in H. unfold crc32 in H. apply lxor_cancel_r in H.
  rewrite !frame_bits_app, !foldl_app in H. apply fold_crc_inj in H; [|do 2 apply fold_crc_range; exact R..].
  symmetry in H. apply (burst_changes_register (foldl crc_bit ones32 (frame_bits p))); auto. apply fold_crc_range, R.
Qed.

(** The sum of the nine digits, the check value every description of CRC-32 gives. *)
Example ether_crc_check_value : ether_crc [49; 50; 51; 52; 53; 54; 55; 56; 57] = 0xCBF43926.
Proof. vm_compute. reflexivity. Qed.

(** Witness: two bytes of a short frame swapped. *)
Lemma ether_crc_correct_witness : ether_crc ([8; 0] ++ [69; 70] ++ [1]) <> ether_crc ([8; 0] ++ [70; 69] ++ [1]).
Proof.
  apply (proj2 (proj2 (ether_crc_correct ([8; 0] ++ [70; 69] ++ [1]))) [8; 0] [70; 69] [69; 70] [1]);
    [reflexivity|repeat constructor; lia|repeat constructor; lia|reflexivity|cbn; lia|discriminate].
Defined.
