(* ===== verification/Timer.v ===== *)
(** * Timers (src/src/timer.cc, timer_mgr.cc)

    The timer manager keeps a list of pointers to timers that others own; every clock
    tick counts each of them down and calls the function of one that reaches zero.
    The function may change anything, the list of timers included, so the loop is
    written over a state [W] that contains the manager. *)
From Stdlib Require Import ZArith ZifyBool Lia.
From stdpp Require Import base option list gmap.
From S2P Require Import Prelude.

Record timer := mk_timer {
  t_expires : Z;
  t_data : Z;
  t_function : Z
}.

(** [timer_mgr_t::m_timer_list], and the timers in memory by address. *)
Record timer_mgr := mk_tm {
  tm_list : list Z;
  tm_obj : gmap Z timer
}.

Definition tm_init : timer_mgr := mk_tm [] ∅.

Definition timer_init (t : Z) (expires data func : Z) (m : timer_mgr) : timer_mgr :=
  mk_tm (tm_list m) (<[t := mk_timer expires data func]> (tm_obj m)).

Definition add_timer (t : Z) (m : timer_mgr) : timer_mgr := mk_tm (tm_list m ++ [t]) (tm_obj m).

(** The first occurrence, as [find] and [erase] on the list do. *)
Fixpoint drop_first (t : Z) (l : list Z) : list Z :=
  match l with
  | [] => []
  | x :: r => if x =? t then r else x :: drop_first t r
  end.

Definition remove_timer (t : Z) (m : timer_mgr) : timer_mgr := mk_tm (drop_first t (tm_list m)) (tm_obj m).

Section Tick.
Context {W : Type} (timers_of : W -> timer_mgr) (set_timers : timer_mgr -> W -> W).
(** The call [m_function(m_data)]. *)
Context (call : Z -> Z -> W -> outcome W).

Definition timer_update (t : Z) (w : W) : outcome (bool * W) :=
  let! x := deref (tm_obj (timers_of w) !! t) in
  if t_expires x =? 0 then Done (false, w)
  else
    let expires := t_expires x - 1 in
    let w := set_timers (timer_init t expires (t_data x) (t_function x) (timers_of w)) w in
    if expires =? 0 then let! w := call (t_function x) (t_data x) w in Done (true, w) else Done (false, w).

(** [it++]: the element behind [t].  A timer that is no longer in the list has had its
    node freed; one that was taken out and appended again got the same node back. *)
Fixpoint next_timer (t : Z) (l : list Z) : outcome (option Z) :=
  match l with
  | [] => Fault
  | x :: r => if x =? t then Done (head r) else next_timer t r
  end.

(** [None] when the fuel runs out. *)
Fixpoint update_loop (fuel : nat) (it : option Z) (w : W) : option (outcome W) :=
  match it with
  | None => Some (Done w)
  | Some t =>
      match fuel with
      | O => None
      | S k =>
          match timer_update t w with
          | Done (_, w) =>
              match next_timer t (tm_list (timers_of w)) with
              | Done it => update_loop k it w
              | _ => Some Fault
              end
          | Fault => Some Fault
          | Panic => Some Panic
          | Blocked => Some Blocked
          end
      end
  end.

Definition timer_mgr_update (fuel : nat) (w : W) : option (outcome W) :=
  update_loop fuel (head (tm_list (timers_of w))) w.

(** ** A tick whose functions leave the timers alone *)

Hypothesis get_set : forall m w, timers_of (set_timers m w) = m.
Hypothesis call_keeps : forall f d w w', call f d w = Done w' -> timers_of w' = timers_of w.

(** Every timer of the list once, in order. *)
Fixpoint tick_each (l : list Z) (w : W) : outcome W :=
  match l with
  | [] => Done w
  | t :: r => let! ' (_, w) := timer_update t w in tick_each r w
  end.

Lemma timer_update_list t w b w' : timer_update t w = Done (b, w') -> tm_list (timers_of w') = tm_list (timers_of w).
Proof.
  unfold timer_update. intros H. destruct (tm_obj (timers_of w) !! t) as [x|]; cbn in H; [|discriminate].
  destruct (t_expires x =? 0); [injection H as <- <-; reflexivity|]. destruct (t_expires x - 1 =? 0); [|injection H as <- <-; rewrite get_set; reflexivity].
  destruct (call _ _ _) as [w2| | |] eqn:E; cbn in H; try discriminate. injection H as <- <-. rewrite (call_keeps _ _ _ _ E), get_set. reflexivity.
Qed.

Lemma next_timer_app l t r : t ∉ l -> next_timer t (l ++ t :: r) = Done (head r).
Proof.
  induction l as [|x l IH]; intros H; cbn; [rewrite Z.eqb_refl; reflexivity|].
  apply not_elem_of_cons in H as [Hx H]. replace (x =? t) with false by lia. auto.
Qed.

Lemma update_loop_each : forall r l w w' fuel, NoDup (l ++ r) -> tm_list (timers_of w) = l ++ r -> (length r <= fuel)%nat ->
  tick_each r w = Done w' -> update_loop fuel (head r) w = Some (Done w').
Proof.
  induction r as [|t r IH]; intros l w w' fuel Hn Hl Hf H; cbn in *.
  - injection H as ->. destruct fuel; reflexivity.
  - destruct fuel as [|k]; [lia|]. cbn [update_loop]. destruct (timer_update t w) as [[b w1]| | |] eqn:E; cbn in H; try discriminate.
    pose proof (timer_update_list _ _ _ _ E) as Hl1. rewrite Hl in Hl1. rewrite Hl1, next_timer_app.
    + apply (IH (l ++ [t])); [rewrite <- app_assoc; exact Hn | rewrite <- app_assoc; exact Hl1 | lia | exact H].
    + apply NoDup_app in Hn as (_ & Hd & _). intros Hin. apply (Hd t Hin). left.
Qed.

Lemma tick_all w w' fuel : NoDup (tm_list (timers_of w)) -> (length (tm_list (timers_of w)) <= fuel)%nat ->
  tick_each (tm_list (timers_of w)) w = Done w' -> timer_mgr_update fuel w = Some (Done w').
Proof. intros Hn Hf H. apply (update_loop_each _ [] w w' fuel); auto. Qed.
End Tick.

(** ** The real-time clock *)

Definition HZ : Z := 100.

Record rtc := mk_rtc { r_year : Z; r_month : Z; r_day : Z; r_hour : Z; r_minute : Z; r_second : Z; r_tick_to_update : Z }.

Definition bcd_to_binary (bcd : Z) : Z := u8 (Z.shiftr bcd 4 * 10 + Z.land bcd 0xf).

Section Rtc.
(** The CMOS chip behind ports 0x70 and 0x71. *)
Context (cmos_read : Z -> Z).

Definition get_time (ticks : Z) : rtc :=
  mk_rtc (bcd_to_binary (cmos_read 9)) (bcd_to_binary (cmos_read 8)) (bcd_to_binary (cmos_read 7))
         (bcd_to_binary (cmos_read 4)) (bcd_to_binary (cmos_read 2)) (bcd_to_binary (cmos_read 0)) ticks.

Definition rtc_init : rtc := get_time HZ.

Definition rtc_update (r : rtc) : rtc :=
  let ticks := u32 (r_tick_to_update r - 1) in
  if negb (ticks =? 0) then mk_rtc (r_year r) (r_month r) (r_day r) (r_hour r) (r_minute r) (r_second r) ticks
  else
    let second := u8 (r_second r + 1) in
    if second =? 60 then get_time HZ
    else mk_rtc (r_year r) (r_month r) (r_day r) (r_hour r) (r_minute r) second HZ.
End Rtc.
