(* ===== verification/Net.v ===== *)
(** * Packet buffers and the link layer (src/src/net.cc, net_buf.cc, ethernet.cc, arp.cc)

    The state of the network stack: the free packet buffers and the free areas of
    2048 bytes that extend them, the buffers in memory, the host's addresses, the
    ARP cache with the queue of packets that wait for an answer, and the frames that
    were handed to the network card.

    A buffer is designated by its address.  Its bytes lie in an area of memory: the
    240 bytes behind the header of the buffer, known by the buffer's own address, or
    an extension, known by its address; [m_data] is an offset in that area.  An access
    outside the area is a [Fault]. *)
From Stdlib Require Import ZArith ZifyBool Lia.
From stdpp Require Import base option list gmap.
From S2P Require Import Prelude Interfaces Pool Buddy Timer Checksum.

Definition NET_BUF_PAGES : Z := 1024.
Definition EXT_BUF_PAGES : Z := 1024.
Definition NET_BUF_SIZE : Z := 256.
Definition NET_BUF_DATA_SIZE : Z := 240.
Definition EXT_BUF_SIZE : Z := 2048.
Definition PROTO_IP : Z := 0x0800.
Definition PROTO_ARP : Z := 0x0806.
Definition ENOBUFS : Z := 105.
Definition EINVAL : Z := 22.

Record net_buf := mk_buf {
  nb_len : Z;
  nb_off : Z;
  nb_ext : Z;
  nb_left : Z
}.

Record arp_node := mk_anode {
  an_ip : Z;
  an_retry : Z;
  an_timer : Z;
  an_bufs : list Z
}.

(** The addresses of the host. *)
Record config := mk_cfg {
  c_ipaddr : Z;
  c_subnet_mask : Z;
  c_gateway : Z;
  c_dns_addr : Z;
  c_eth_addr : list Z
}.

Record net (P : Type) := mk_net {
  n_free : list Z;
  n_ext : list Z;
  n_bufs : gmap Z net_buf;
  n_mem : gmap Z (list Z);
  n_cfg : config;
  n_next_id : Z;
  n_cache : list (Z * list Z);
  n_queue : list arp_node;
  n_timers : timer_mgr;
  n_pool : P;
  n_sent : list (list Z)
}.
Arguments mk_net {P}.
Arguments n_free {P}.
Arguments n_ext {P}.
Arguments n_bufs {P}.
Arguments n_mem {P}.
Arguments n_cfg {P}.
Arguments n_next_id {P}.
Arguments n_cache {P}.
Arguments n_queue {P}.
Arguments n_timers {P}.
Arguments n_pool {P}.
Arguments n_sent {P}.

(** ** [net_t::init] *)

(** [num] buffers of [step] bytes from [addr] on. *)
Fixpoint push_bufs (num : nat) (addr step : Z) : list Z :=
  match num with
  | O => []
  | S k => addr :: push_bufs k (u32 (addr + step)) step
  end.

(** [while (n < total)]: one block of [2 ^ MAX_ORDER] pages per round. *)
Fixpoint fill (fuel : nat) (total n num step : Z) (bufs : list Z) (m : mm_t) : option (outcome (list Z * mm_t)) :=
  if n <? total then
    match fuel with
    | O => None
    | S k =>
        match alloc_pages m MAX_ORDER with
        | Done (block, m) => fill k total (n + num) num step (bufs ++ push_bufs (Z.to_nat num) block step) m
        | _ => Some Fault
        end
    end
  else Some (Done (bufs, m)).

(** Both loops push as many buffers per block as there are [NET_BUF_SIZE] in it. *)
Definition BUFS_PER_BLOCK : Z := u32 (PAGE_SIZE * pow 2 MAX_ORDER) / NET_BUF_SIZE.

(** Sixteen blocks for the buffers, two for the extensions. *)
Definition FILL_FUEL : nat := 16.

Definition net_buffers_init (m : mm_t) : option (outcome (list Z * mm_t)) :=
  fill FILL_FUEL (PAGE_SIZE * NET_BUF_PAGES / NET_BUF_SIZE) 0 BUFS_PER_BLOCK NET_BUF_SIZE [] m.

Definition ext_buffers_init (m : mm_t) : option (outcome (list Z * mm_t)) :=
  fill FILL_FUEL (PAGE_SIZE * EXT_BUF_PAGES / EXT_BUF_SIZE) 0 BUFS_PER_BLOCK EXT_BUF_SIZE [] m.

Definition set_eth_addr (eth_addr : list Z) (old_ip : Z) : option config :=
  match eth_addr with
  | [_; _; _; _; _; last] =>
      let ip := if last =? 0xbc then make_ipaddr 192 168 1 104
                else if last =? 0xbe then make_ipaddr 192 168 1 105 else old_ip in
      Some (mk_cfg ip (make_ipaddr 255 255 255 0) (make_ipaddr 192 168 1 1) (make_ipaddr 192 168 100 1) eth_addr)
  | _ => None
  end.

(** ** Bytes of an area *)

Definition read_at (m : list Z) (off n : Z) : outcome (list Z) :=
  if (0 <=? off) && (0 <=? n) && (off + n <=? zlen m) then Done (take (Z.to_nat n) (drop (Z.to_nat off) m)) else Fault.

Definition write_at (m : list Z) (off : Z) (bytes : list Z) : outcome (list Z) :=
  if (0 <=? off) && (off + zlen bytes <=? zlen m)
  then Done (take (Z.to_nat off) m ++ bytes ++ drop (Z.to_nat (off + zlen bytes)) m) else Fault.

Section Net.
Context {P : Type} `{ObjectPool P}.
Implicit Types (n : net P) (buf : Z).

Definition set_free n free ext bufs : net P :=
  mk_net free ext bufs (n_mem n) (n_cfg n) (n_next_id n) (n_cache n) (n_queue n) (n_timers n) (n_pool n) (n_sent n).
Definition set_bufs n bufs : net P := set_free n (n_free n) (n_ext n) bufs.
Definition set_mem n m : net P :=
  mk_net (n_free n) (n_ext n) (n_bufs n) m (n_cfg n) (n_next_id n) (n_cache n) (n_queue n) (n_timers n) (n_pool n) (n_sent n).
Definition set_arp n cache queue timers pool : net P :=
  mk_net (n_free n) (n_ext n) (n_bufs n) (n_mem n) (n_cfg n) (n_next_id n) cache queue timers pool (n_sent n).
Definition set_next_id n id : net P :=
  mk_net (n_free n) (n_ext n) (n_bufs n) (n_mem n) (n_cfg n) id (n_cache n) (n_queue n) (n_timers n) (n_pool n) (n_sent n).
(** [rtl8139_t::transmit]: the frame goes out. *)
Definition card_transmit n frame : net P :=
  mk_net (n_free n) (n_ext n) (n_bufs n) (n_mem n) (n_cfg n) (n_next_id n) (n_cache n) (n_queue n) (n_timers n) (n_pool n) (n_sent n ++ [frame]).

(** ** [net_buf_t] *)

(** The area that [m_data] points into. *)
Definition area buf (x : net_buf) : Z := if nb_ext x =? NULL then buf else nb_ext x.

Definition net_buf_init n buf (ext : Z) : net P :=
  set_bufs n (<[buf := mk_buf 0 0 ext (if ext =? NULL then NET_BUF_DATA_SIZE else EXT_BUF_SIZE)]> (n_bufs n)).

Definition get_buf n buf : outcome net_buf := deref (n_bufs n !! buf).

(** Reading and writing behind [m_data]. *)
Definition buf_read n buf (off len : Z) : outcome (list Z) :=
  let! x := get_buf n buf in let! m := deref (n_mem n !! area buf x) in read_at m (nb_off x + off) len.

Definition buf_write n buf (off : Z) (bytes : list Z) : outcome (net P) :=
  let! x := get_buf n buf in
  let! m := deref (n_mem n !! area buf x) in
  let! m := write_at m (nb_off x + off) bytes in
  Done (set_mem n (<[area buf x := m]> (n_mem n))).

Definition append n buf (data : list Z) : outcome (Z * net P) :=
  let! x := get_buf n buf in
  if nb_left x <? zlen data then Done (- ENOBUFS, n)
  else
    let! n := buf_write n buf (nb_len x) data in
    Done (0, set_bufs n (<[buf := mk_buf (u32 (nb_len x + zlen data)) (nb_off x) (nb_ext x) (u32 (nb_left x - zlen data))]> (n_bufs n))).

Definition append_zero n buf (len : Z) : outcome (Z * net P) :=
  let! x := get_buf n buf in
  if nb_left x <? len then Done (- ENOBUFS, n)
  else
    let! n := buf_write n buf (nb_len x) (repeat 0 (Z.to_nat len)) in
    Done (0, set_bufs n (<[buf := mk_buf (u32 (nb_len x + len)) (nb_off x) (nb_ext x) (u32 (nb_left x - len))]> (n_bufs n))).

Definition get_data_len n buf : outcome Z := let! x := get_buf n buf in Done (nb_len x).

(** The bytes from [get_data()] on, [get_data_len()] of them. *)
Definition get_data n buf : outcome (list Z) := let! len := get_data_len n buf in buf_read n buf 0 len.

Definition pop_front n buf (len : Z) : outcome (Z * net P) :=
  let! x := get_buf n buf in
  if nb_len x <? len then Done (- EINVAL, n)
  else Done (0, set_bufs n (<[buf := mk_buf (u32 (nb_len x - len)) (nb_off x + len) (nb_ext x) (nb_left x)]> (n_bufs n))).

(** ** The pool of buffers *)

Definition alloc_ext_buffer n : Z * net P :=
  match n_ext n with
  | [] => (NULL, n)
  | e :: rest => (e, set_free n (n_free n) rest (n_bufs n))
  end.

Definition free_ext_buffer n (e : Z) : net P := set_free n (n_free n) (e :: n_ext n) (n_bufs n).

Definition alloc_net_buffer n (len : Z) : Z * net P :=
  if EXT_BUF_SIZE <? len then (NULL, n)
  else
    match n_free n with
    | [] => (NULL, n)
    | buf :: rest =>
        let need_ext := NET_BUF_DATA_SIZE <? len in
        let '(ext, n) := if need_ext then alloc_ext_buffer n else (NULL, n) in
        if negb need_ext || (need_ext && negb (ext =? NULL))
        then (buf, net_buf_init (set_free n rest (n_ext n) (n_bufs n)) buf ext)
        else (NULL, n)
    end.

Definition free_net_buffer n buf : outcome (net P) :=
  if bool_decide (buf ∈ n_free n) then Panic
  else
    let! x := get_buf n buf in
    let n := if negb (nb_ext x =? NULL) then free_ext_buffer n (nb_ext x) else n in
    Done (set_free n (buf :: n_free n) (n_ext n) (n_bufs n)).

(** ** Ethernet *)

Definition ETH_HDR_LEN : Z := 14.

Definition eth_header (dst src : list Z) (proto : Z) : list Z := dst ++ src ++ le_bytes 2 proto.

Definition ethernet_transmit n (eth_addr : list Z) (protocol : Z) (data : list Z) : outcome (net P) :=
  let len := zlen data in
  let length := if len <? 46 then 46 else len in
  if bool_decide (eth_addr = c_eth_addr (n_cfg n)) then Done n
  else
    let total := u32 (length + ETH_HDR_LEN) in
    let '(buf, n) := alloc_net_buffer n total in
    if negb (buf =? NULL) then
      let! ' (_, n) := append n buf (eth_header eth_addr (c_eth_addr (n_cfg n)) (ntohs protocol)) in
      let! ' (_, n) := append n buf data in
      let! n := (if len <? length then let! ' (_, n) := append_zero n buf (length - len) in Done n else Done n) in
      let! frame := get_data n buf in
      free_net_buffer (card_transmit n frame) buf
    else Done n.

(** ** ARP *)

Definition ARP_OP_REQUEST : Z := 1.
Definition ARP_OP_REPLY : Z := 2.
Definition ARP_TIMEOUT : Z := 100.
Definition ARP_RETRY : Z := 3.
Definition ARP_HDR_LEN : Z := 28.
(** The address of the function [arp_timeout]. *)
Definition arp_timeout_fn : Z := 1.

Definition arp_header (hw_type proto_type hw_len proto_len opcode : Z) (src_hw : list Z) (src_proto : Z) (tgt_hw : list Z) (tgt_proto : Z) : list Z :=
  le_bytes 2 hw_type ++ le_bytes 2 proto_type ++ [hw_len; proto_len] ++ le_bytes 2 opcode ++
  src_hw ++ le_bytes 4 src_proto ++ tgt_hw ++ le_bytes 4 tgt_proto.

Definition empty_mac_addr : list Z := repeat 0 6.
Definition broadcast_mac_addr : list Z := repeat 0xff 6.

Definition arp_request n (ip : Z) : outcome (net P) :=
  let hdr := arp_header (ntohs 1) (ntohs PROTO_IP) 6 4 (ntohs ARP_OP_REQUEST) (c_eth_addr (n_cfg n)) (ntohl (c_ipaddr (n_cfg n)))
               empty_mac_addr (ntohl ip) in
  let '(buf, n) := alloc_net_buffer n ARP_HDR_LEN in
  if negb (buf =? NULL) then
    let! ' (_, n) := append n buf hdr in
    let! data := get_data n buf in
    let! n := ethernet_transmit n broadcast_mac_addr PROTO_ARP data in
    free_net_buffer n buf
  else Done n.

Fixpoint cache_find (ip : Z) (cache : list (Z * list Z)) : option (list Z) :=
  match cache with
  | [] => None
  | (i, mac) :: rest => if i =? ip then Some mac else cache_find ip rest
  end.

Definition lookup_cache n (ip : Z) : option (list Z) := cache_find ip (n_cache n).

Definition add_to_cache n (ip : Z) (eth_addr : list Z) : net P :=
  match cache_find ip (n_cache n) with
  | None => set_arp n ((ip, eth_addr) :: n_cache n) (n_queue n) (n_timers n) (n_pool n)
  | Some _ => n
  end.

(** The queue in front of the first node for [ip], the node, and what is behind. *)
Fixpoint queue_split (ip : Z) (q : list arp_node) : option (list arp_node * arp_node * list arp_node) :=
  match q with
  | [] => None
  | x :: r =>
      if an_ip x =? ip then Some ([], x, r)
      else match queue_split ip r with
           | Some (a, y, b) => Some (x :: a, y, b)
           | None => None
           end
  end.

Definition add_to_wait_queue n (ip buf : Z) : outcome (net P) :=
  match queue_split ip (n_queue n) with
  | Some (a, x, b) =>
      if bool_decide (buf ∈ an_bufs x) then Done n
      else Done (set_arp n (n_cache n) (a ++ mk_anode (an_ip x) (an_retry x) (an_timer x) (an_bufs x ++ [buf]) :: b) (n_timers n) (n_pool n))
  | None =>
      let! ' (timer, pool) := pool_alloc (n_pool n) in
      if timer =? NULL then Fault
      else
        let timers := timer_init timer ARP_TIMEOUT ip arp_timeout_fn (n_timers n) in
        let n := set_arp n (n_cache n) (n_queue n ++ [mk_anode ip ARP_RETRY timer [buf]]) timers pool in
        let! n := arp_request n ip in
        Done (set_arp n (n_cache n) (n_queue n) (add_timer timer (n_timers n)) (n_pool n))
  end.

(** Every waiting packet goes out, in order, and its buffer is freed. *)
Fixpoint send_waiting n (eth_addr : list Z) (bufs : list Z) : outcome (net P) :=
  match bufs with
  | [] => Done n
  | buffer :: rest =>
      let! data := get_data n buffer in
      let! n := ethernet_transmit n eth_addr PROTO_IP data in
      let! n := free_net_buffer n buffer in
      send_waiting n eth_addr rest
  end.

Definition process_wait_queue n (ip : Z) (eth_addr : list Z) : outcome (net P) :=
  match queue_split ip (n_queue n) with
  | Some (a, x, b) =>
      let! n := send_waiting n eth_addr (an_bufs x) in
      Done (set_arp n (n_cache n) (a ++ b) (remove_timer (an_timer x) (n_timers n)) (pool_free (n_pool n) (an_timer x)))
  | None => Done n
  end.

Fixpoint free_waiting n (bufs : list Z) : outcome (net P) :=
  match bufs with
  | [] => Done n
  | buffer :: rest => let! n := free_net_buffer n buffer in free_waiting n rest
  end.

Definition request_timeout n (ip : Z) : outcome (net P) :=
  match queue_split ip (n_queue n) with
  | Some (a, x, b) =>
      let timer := an_timer x in
      let timers := remove_timer timer (n_timers n) in
      let y := mk_anode (an_ip x) (u32 (an_retry x - 1)) timer (an_bufs x) in
      if 0 <? an_retry x then
        let timers := add_timer timer (timer_init timer ARP_TIMEOUT (an_ip x) arp_timeout_fn timers) in
        arp_request (set_arp n (n_cache n) (a ++ y :: b) timers (n_pool n)) ip
      else
        let n := set_arp n (n_cache n) (a ++ y :: b) timers (n_pool n) in
        let! n := free_waiting n (an_bufs x) in
        Done (set_arp n (n_cache n) (a ++ b) (n_timers n) (pool_free (n_pool n) timer))
  | None => Done n
  end.

Definition arp_receive n (ether_addr : list Z) buf : outcome (net P) :=
  let! len := get_data_len n buf in
  if len <? ARP_HDR_LEN then Done n
  else
    let! source := buf_read n buf 14 4 in
    let! opcode := buf_read n buf 6 2 in
    let ip_src := htonl (le_value source) in
    let op := htons (le_value opcode) in
    if op =? ARP_OP_REQUEST then
      let! target := buf_read n buf 24 4 in
      let ip_target := htonl (le_value target) in
      if ip_target =? c_ipaddr (n_cfg n) then
        let! n := buf_write n buf 0
                    (arp_header (ntohs 1) (ntohs PROTO_IP) 6 4 (ntohs ARP_OP_REPLY) (c_eth_addr (n_cfg n))
                       (ntohl (c_ipaddr (n_cfg n))) ether_addr (ntohl ip_src)) in
        let! data := get_data n buf in
        ethernet_transmit n ether_addr PROTO_ARP data
      else Done n
    else if op =? ARP_OP_REPLY then
      let! ether_src := buf_read n buf 8 6 in
      process_wait_queue (add_to_cache n ip_src ether_src) ip_src ether_src
    else Done n.

(** ** The buffers are disjoint byte sequences *)

Definition cap (x : net_buf) : Z := if nb_ext x =? NULL then NET_BUF_DATA_SIZE else EXT_BUF_SIZE.

Record buf_wf (x : net_buf) : Prop := {
  bw_len : 0 <= nb_len x;
  bw_off : 0 <= nb_off x;
  bw_left : 0 <= nb_left x;
  bw_cap : nb_off x + nb_len x + nb_left x = cap x
}.

Definition bytes_of n (a size : Z) : Prop := exists m, n_mem n !! a = Some m /\ zlen m = size /\ byte_list m.

(** [B] and [E] are the addresses of the buffers and of the extensions, [U] the
    buffers in use. *)
Record net_ok (B E U : gset Z) n : Prop := {
  ok_layout : B ## E /\ (NULL ∉ B) /\ (NULL ∉ E);
  ok_bmem : forall b, b ∈ B -> bytes_of n b NET_BUF_DATA_SIZE;
  ok_emem : forall e, e ∈ E -> bytes_of n e EXT_BUF_SIZE;
  ok_free : NoDup (n_free n) /\ forall b, b ∈ n_free n -> b ∈ B /\ (b ∉ U);
  ok_ext : NoDup (n_ext n) /\ forall e, e ∈ n_ext n -> e ∈ E;
  ok_used : forall b, b ∈ U -> b ∈ B /\ exists x, n_bufs n !! b = Some x /\ buf_wf x /\
              (nb_ext x <> NULL -> nb_ext x ∈ E /\ (nb_ext x ∉ n_ext n));
  ok_owner : forall b b' x x', b ∈ U -> b' ∈ U -> n_bufs n !! b = Some x -> n_bufs n !! b' = Some x' ->
               nb_ext x <> NULL -> nb_ext x = nb_ext x' -> b = b'
}.

(** Everything but the buffers. *)
Definition same_rest n n' : Prop :=
  n_cfg n' = n_cfg n /\ n_next_id n' = n_next_id n /\ n_cache n' = n_cache n /\ n_queue n' = n_queue n /\
  n_timers n' = n_timers n /\ n_pool n' = n_pool n /\ n_sent n' = n_sent n.

Lemma same_rest_trans n1 n2 n3 : same_rest n1 n2 -> same_rest n2 n3 -> same_rest n1 n3.
Proof. unfold same_rest. intuition congruence. Qed.

Lemma same_rest_refl n : same_rest n n.
Proof. repeat split. Qed.

(** The contents of the buffers in [K] are the same. *)
Definition keeps (K : gset Z) n n' : Prop := forall b, b ∈ K -> n_bufs n' !! b = n_bufs n !! b /\ get_data n' b = get_data n b.

(** A buffer in use holds the bytes [d], has room for [left] more and the extension [ext]. *)
Definition holds n buf (d : list Z) (left ext : Z) : Prop :=
  exists x, n_bufs n !! buf = Some x /\ nb_left x = left /\ nb_ext x = ext /\ nb_len x = zlen d /\ get_data n buf = Done d.

Lemma read_at_app a b c off k : zlen a = off -> zlen b = k -> read_at (a ++ b ++ c) off k = Done b.
Proof.
  intros <- <-. unfold read_at. pose proof (zlen_nonneg a). pose proof (zlen_nonneg b). pose proof (zlen_nonneg c). rewrite !zlen_app.
  replace (_ && _) with true by lia. unfold zlen. rewrite !Nat2Z.id, drop_app_length, take_app_length. reflexivity.
Qed.

Lemma read_at_split m off k d : read_at m off k = Done d -> exists a c, m = a ++ d ++ c /\ zlen a = off /\ zlen d = k.
Proof.
  unfold read_at. destruct (_ && _) eqn:E; [|discriminate]. tests. intros [= <-]. exists (take (Z.to_nat off) m), (drop (Z.to_nat k) (drop (Z.to_nat off) m)).
  rewrite take_drop, take_drop. unfold zlen in *. rewrite !length_take, length_drop. split; [reflexivity|]. lia.
Qed.

Lemma read_at_total m off k : 0 <= off -> 0 <= k -> off + k <= zlen m -> exists d, read_at m off k = Done d /\ zlen d = k.
Proof.
  intros. unfold read_at. replace (_ && _) with true by lia. eexists. split; [reflexivity|]. unfold zlen in *. rewrite length_take, length_drop. lia.
Qed.

Lemma write_at_split a o c bytes off : zlen a = off -> zlen o = zlen bytes -> write_at (a ++ o ++ c) off bytes = Done (a ++ bytes ++ c).
Proof.
  intros <- Ho. unfold write_at. pose proof (zlen_nonneg a). pose proof (zlen_nonneg c). pose proof (zlen_nonneg bytes). rewrite !zlen_app.
  replace (_ && _) with true by lia. rewrite Z2Nat.inj_add by lia. unfold zlen in *. rewrite !Nat2Z.id, take_app_length. do 3 f_equal.
  rewrite <- drop_drop, drop_app_length. replace (length bytes) with (length o) by lia. rewrite drop_app_length. reflexivity.
Qed.

Lemma area_used B E U n b x : net_ok B E U n -> b ∈ U -> n_bufs n !! b = Some x ->
  exists m, n_mem n !! area b x = Some m /\ zlen m = cap x /\ byte_list m.
Proof.
  intros N Hb Hx. destruct (ok_used _ _ _ _ N b Hb) as (HB & x' & Hx' & W & He). rewrite Hx in Hx'. injection Hx' as <-.
  unfold area, cap. destruct (nb_ext x =? NULL) eqn:Z; tests; [apply (ok_bmem _ _ _ _ N), HB | apply (ok_emem _ _ _ _ N), He, Z].
Qed.

(** Two buffers in use have different areas. *)
Lemma area_apart B E U n b b' x x' : net_ok B E U n -> b ∈ U -> b' ∈ U -> n_bufs n !! b = Some x -> n_bufs n !! b' = Some x' ->
  b <> b' -> area b x <> area b' x'.
Proof.
  intros N Hb Hb' Hx Hx' Hne. destruct (ok_used _ _ _ _ N b Hb) as (HB & y & Hy & _ & He). rewrite Hx in Hy. injection Hy as <-.
  destruct (ok_used _ _ _ _ N b' Hb') as (HB' & y & Hy & _ & He'). rewrite Hx' in Hy. injection Hy as <-.
  destruct (ok_layout _ _ _ _ N) as (HBE & _ & _). unfold area.
  destruct (nb_ext x =? NULL) eqn:Z1, (nb_ext x' =? NULL) eqn:Z2; tests; [congruence | | |].
  - destruct (He' Z2) as [HE _]. intros E1. apply (HBE b); [exact HB | rewrite E1; exact HE].
  - destruct (He Z1) as [HE _]. intros E1. apply (HBE b'); [exact HB' | rewrite <- E1; exact HE].
  - intros E1. apply Hne. eapply (ok_owner _ _ _ _ N b b'); eauto.
Qed.

Lemma get_data_at n b x m : n_bufs n !! b = Some x -> n_mem n !! area b x = Some m -> get_data n b = read_at m (nb_off x) (nb_len x).
Proof.
  intros Hx Hm. unfold get_data, get_data_len, buf_read, get_buf. rewrite Hx. cbn. rewrite Hm. cbn. rewrite Z.add_0_r. reflexivity.
Qed.

Lemma used_holds B E U n b : net_ok B E U n -> b ∈ U -> exists x d, n_bufs n !! b = Some x /\ holds n b d (nb_left x) (nb_ext x).
Proof.
  intros N Hb. destruct (ok_used _ _ _ _ N b Hb) as (HB & x & Hx & W & He). destruct (area_used _ _ _ _ _ _ N Hb Hx) as (m & Hm & Hl & _).
  destruct W. destruct (read_at_total m (nb_off x) (nb_len x)) as (d & Hd & Hz); [lia | lia | lia |].
  exists x, d. split; [exact Hx|]. exists x. rewrite (get_data_at _ _ _ _ Hx Hm). auto.
Qed.

(** One buffer changes: its fields and the bytes of its area. *)
Definition put_buf n b (x : net_buf) (m : list Z) : net P := set_bufs (set_mem n (<[area b x := m]> (n_mem n))) (<[b := x]> (n_bufs n)).

Lemma put_buf_ok B E U n b x m x' m' : net_ok B E U n -> b ∈ U -> n_bufs n !! b = Some x -> n_mem n !! area b x = Some m ->
  buf_wf x' -> nb_ext x' = nb_ext x -> zlen m' = zlen m -> byte_list m' ->
  net_ok B E U (put_buf n b x' m') /\ keeps (U ∖ {[b]}) n (put_buf n b x' m') /\
  get_data (put_buf n b x' m') b = read_at m' (nb_off x') (nb_len x').
Proof.
  intros N Hb Hx Hm W He Hl Hbytes. assert (Ha : area b x' = area b x) by (unfold area; rewrite He; reflexivity).
  destruct (ok_used _ _ _ _ N b Hb) as (HB & x0 & Hx0 & W0 & He0). rewrite Hx in Hx0. injection Hx0 as <-.
  assert (Hmem : forall a s, bytes_of n a s -> bytes_of (put_buf n b x' m') a s).
  { intros a s (m0 & Hm0 & Hs & Hb0). unfold bytes_of, put_buf. cbn. rewrite Ha. destruct (decide (area b x = a)) as [<-|Hne].
    - rewrite lookup_insert_eq. exists m'. rewrite Hm in Hm0. injection Hm0 as <-. split; [reflexivity|]. split; [congruence | exact Hbytes].
    - rewrite lookup_insert_ne by exact Hne. eauto. }
  split; [|split].
  - destruct N as [L Bm Em F X Us Ow]. constructor; cbn; auto.
    + intros b0 Hb0. destruct (Us b0 Hb0) as (HB0 & y & Hy & Wy & Ey). split; [exact HB0|]. destruct (decide (b = b0)) as [<-|Hne].
      * rewrite lookup_insert_eq. exists x'. rewrite He. auto.
      * rewrite lookup_insert_ne by exact Hne. eauto.
    + intros b1 b2 x1 x2 H1 H2 Hx1 Hx2 Hne Eq.
      assert (G : forall b0 x0, b0 ∈ U -> <[b:=x']> (n_bufs n) !! b0 = Some x0 -> exists y, n_bufs n !! b0 = Some y /\ nb_ext y = nb_ext x0).
      { intros b0 x0 _ G. destruct (decide (b = b0)) as [<-|Hn]; [rewrite lookup_insert_eq in G; injection G as <-; eauto|].
        rewrite lookup_insert_ne in G by exact Hn. eauto. }
      destruct (G b1 x1 H1 Hx1) as (y1 & Hy1 & E1). destruct (G b2 x2 H2 Hx2) as (y2 & Hy2 & E2).
      eapply (Ow b1 b2 y1 y2); eauto; congruence.
  - intros b0 Hb0. apply elem_of_difference in Hb0 as [Hb0 Hn0]. rewrite elem_of_singleton in Hn0.
    destruct (ok_used _ _ _ _ N b0 Hb0) as (HB0 & y & Hy & Wy & Ey). destruct (area_used _ _ _ _ _ _ N Hb0 Hy) as (my & Hmy & _).
    split; [cbn; apply lookup_insert_ne; congruence|]. rewrite (get_data_at n _ _ _ Hy Hmy). apply get_data_at; cbn.
    + rewrite lookup_insert_ne by congruence. exact Hy.
    + rewrite Ha, lookup_insert_ne; [exact Hmy|]. eapply (area_apart _ _ _ _ b b0); eauto.
  - apply get_data_at; cbn; apply lookup_insert_eq.
Qed.

Lemma put_buf_rest n b x m : same_rest n (put_buf n b x m).
Proof. repeat split. Qed.

(** What a step of the stack on the buffer [b] leaves as it was. *)
Definition local_step (B E U : gset Z) b n n' : Prop := net_ok B E U n' /\ keeps (U ∖ {[b]}) n n' /\ same_rest n n'.

Lemma append_ok B E U n b d left ext data : net_ok B E U n -> b ∈ U -> holds n b d left ext -> byte_list data ->
  if left <? zlen data then append n b data = Done (- ENOBUFS, n)
  else exists n', append n b data = Done (0, n') /\ holds n' b (d ++ data) (left - zlen data) ext /\ local_step B E U b n n'.
Proof.
  intros N Hb (x & Hx & Hl & Hex & Hlen & Hd) Hbytes. unfold append, get_buf. rewrite Hx. cbn. rewrite Hl.
  destruct (left <? zlen data) eqn:Ef; tests; [reflexivity|].
  destruct (area_used _ _ _ _ _ _ N Hb Hx) as (m & Hm & Hcap & Hmb). rewrite (get_data_at _ _ _ _ Hx Hm) in Hd.
  destruct (ok_used _ _ _ _ N b Hb) as (_ & x0 & Hx0 & [W1 W2 W3 W4] & _). rewrite Hx in Hx0. injection Hx0 as <-.
  pose proof (zlen_nonneg data). assert (Hc : cap x <= 2048) by (unfold cap, NET_BUF_DATA_SIZE, EXT_BUF_SIZE; destruct (_ =? _); lia).
  destruct (read_at_split _ _ _ _ Hd) as (a & c & Em & Ha & Hd1). rewrite Em, !zlen_app in Hcap.
  assert (exists o c2, c = o ++ c2 /\ zlen o = zlen data) as (o & c2 & -> & Ho).
  { exists (take (length data) c), (drop (length data) c). rewrite take_drop. split; [reflexivity|]. unfold zlen in *. rewrite length_take. lia. }
  assert (Hw : write_at m (nb_off x + nb_len x) data = Done ((a ++ d) ++ data ++ c2)).
  { rewrite Em, app_assoc. apply write_at_split; [rewrite zlen_app; lia | exact Ho]. }
  unfold buf_write, get_buf. rewrite Hx. cbn. rewrite Hm. cbn. rewrite Hw. cbn.
  set (x' := mk_buf (u32 (nb_len x + zlen data)) (nb_off x) (nb_ext x) (u32 (left - zlen data))).
  assert (Ex1 : nb_len x' = nb_len x + zlen data) by (apply u32_small; lia). assert (Ex2 : nb_left x' = left - zlen data) by (apply u32_small; lia).
  assert (Wx : buf_wf x') by (constructor; rewrite ?Ex1, ?Ex2; cbn [nb_off x']; try lia; change (cap x') with (cap x); lia).
  assert (Hmb' : byte_list ((a ++ d) ++ data ++ c2)).
  { rewrite Em in Hmb. apply Forall_app in Hmb as [? Hmb]. apply Forall_app in Hmb as [? Hmb]. apply Forall_app in Hmb as [? ?].
    repeat apply Forall_app_2; auto. }
  assert (Hz : zlen ((a ++ d) ++ data ++ c2) = zlen m) by (rewrite Em, !zlen_app; lia).
  destruct (put_buf_ok _ _ _ _ _ _ _ x' _ N Hb Hx Hm Wx eq_refl Hz Hmb') as (N' & K & G).
  exists (put_buf n b x' ((a ++ d) ++ data ++ c2)). split; [reflexivity|]. split; [|split; [exact N' | split; [exact K | apply put_buf_rest]]].
  exists x'. split; [apply lookup_insert_eq|]. split; [exact Ex2|]. split; [exact Hex|].
  split; [rewrite Ex1, zlen_app; lia|]. rewrite G, Ex1. cbn [nb_off x']. rewrite <- app_assoc, (app_assoc d).
  apply read_at_app; [exact Ha | rewrite zlen_app; lia].
Qed.

Lemma append_zero_append n b len : 0 <= len -> append_zero n b len = append n b (repeat 0 (Z.to_nat len)).
Proof.
  intros Hl. unfold append_zero, append. replace (zlen (repeat 0 (Z.to_nat len))) with len by (unfold zlen; rewrite repeat_length; lia). reflexivity.
Qed.

Lemma pop_front_ok B E U n b d left ext len : net_ok B E U n -> b ∈ U -> holds n b d left ext -> 0 <= len ->
  if zlen d <? len then pop_front n b len = Done (- EINVAL, n)
  else exists n', pop_front n b len = Done (0, n') /\ holds n' b (drop (Z.to_nat len) d) left ext /\ local_step B E U b n n' /\ n_mem n' = n_mem n.
Proof.
  intros N Hb (x & Hx & Hl & Hex & Hlen & Hd) H0. unfold pop_front, get_buf. rewrite Hx. cbn. rewrite Hlen.
  destruct (zlen d <? len) eqn:Ef; tests; [reflexivity|].
  destruct (area_used _ _ _ _ _ _ N Hb Hx) as (m & Hm & Hcap & Hmb). rewrite (get_data_at _ _ _ _ Hx Hm) in Hd.
  destruct (ok_used _ _ _ _ N b Hb) as (_ & x0 & Hx0 & [W1 W2 W3 W4] & _). rewrite Hx in Hx0. injection Hx0 as <-.
  assert (Hc : cap x <= 2048) by (unfold cap, NET_BUF_DATA_SIZE, EXT_BUF_SIZE; destruct (_ =? _); lia).
  destruct (read_at_split _ _ _ _ Hd) as (a & c & Em & Ha & Hd1).
  set (x' := mk_buf (u32 (zlen d - len)) (nb_off x + len) (nb_ext x) (nb_left x)).
  assert (Ex1 : nb_len x' = zlen d - len) by (apply u32_small; lia).
  assert (Wx : buf_wf x') by (constructor; rewrite ?Ex1; cbn [nb_off nb_left x']; try lia; change (cap x') with (cap x); lia).
  destruct (put_buf_ok _ _ _ _ _ _ _ x' m N Hb Hx Hm Wx eq_refl eq_refl Hmb) as (N' & K & G).
  assert (Eq : set_bufs n (<[b:=x']> (n_bufs n)) = put_buf n b x' m).
  { unfold put_buf, set_mem, set_bufs, set_free. cbn. change (area b x') with (area b x). rewrite (insert_id _ _ _ Hm). destruct n; reflexivity. }
  eexists. split; [reflexivity|]. rewrite Eq. split; [|split; [split; [exact N' | split; [exact K | apply put_buf_rest]]|]].
  - exists x'. split; [apply lookup_insert_eq|]. split; [exact Hl|]. split; [exact Hex|]. split.
    + rewrite Ex1. unfold zlen in *. rewrite length_drop. lia.
    + rewrite G, Ex1. cbn [nb_off x']. rewrite Em.
      replace (a ++ d ++ c) with ((a ++ take (Z.to_nat len) d) ++ drop (Z.to_nat len) d ++ c)
        by (rewrite <- app_assoc, (app_assoc (take _ _)), take_drop; reflexivity).
      apply read_at_app; [rewrite zlen_app; unfold zlen in *; rewrite length_take; lia | unfold zlen in *; rewrite length_drop; lia].
  - rewrite <- Eq. reflexivity.
Qed.

(** Taking a buffer: the first free one, with the first free extension if needed. *)
Lemma alloc_ok B E U n len b fr : net_ok B E U n -> 0 <= len <= EXT_BUF_SIZE -> n_free n = b :: fr ->
  (NET_BUF_DATA_SIZE < len -> n_ext n <> []) ->
  exists n' ext, alloc_net_buffer n len = (b, n') /\ (b ∈ B) /\ (b ∉ U) /\ b <> NULL /\
    holds n' b [] (if NET_BUF_DATA_SIZE <? len then EXT_BUF_SIZE else NET_BUF_DATA_SIZE) ext /\
    net_ok B E ({[b]} ∪ U) n' /\ keeps U n n' /\ same_rest n n' /\ n_mem n' = n_mem n /\ n_free n' = fr /\
    (if NET_BUF_DATA_SIZE <? len then ext <> NULL /\ n_ext n = ext :: n_ext n' else ext = NULL /\ n_ext n' = n_ext n).
Proof.
  intros N Hl Hf He. destruct (ok_free _ _ _ _ N) as [Hnd Hin]. rewrite Hf in Hnd, Hin. destruct (Hin b ltac:(left)) as [HB HU].
  destruct (ok_layout _ _ _ _ N) as (HBE & HB0 & HE0). assert (Hb0 : b <> NULL) by (intros ->; contradiction).
  apply NoDup_cons in Hnd as [Hnb Hnd]. unfold alloc_net_buffer. rewrite Hf. replace (EXT_BUF_SIZE <? len) with false by lia.
  (* the new state, for any extension that nobody uses *)
  assert (G : forall e es, (e = NULL \/ e ∈ E) -> (e <> NULL -> e ∉ es) -> NoDup es -> (forall e', e' ∈ es -> e' ∈ n_ext n) -> (e <> NULL -> e ∈ n_ext n) ->
    let n' := net_buf_init (set_free n fr es (n_bufs n)) b e in
    holds n' b [] (if e =? NULL then NET_BUF_DATA_SIZE else EXT_BUF_SIZE) e /\ net_ok B E ({[b]} ∪ U) n' /\ keeps U n n').
  { intros e es HeE Hees Hes Hsub Hen n'.
    set (x := mk_buf 0 0 e (if e =? NULL then NET_BUF_DATA_SIZE else EXT_BUF_SIZE)).
    assert (Hx : n_bufs n' !! b = Some x) by apply lookup_insert_eq.
    assert (Wx : buf_wf x) by (constructor; cbn; try (unfold NET_BUF_DATA_SIZE, EXT_BUF_SIZE; destruct (e =? NULL); lia); unfold cap; cbn; destruct (e =? NULL); lia).
    assert (N' : net_ok B E ({[b]} ∪ U) n').
    { destruct N as [L Bm Em F X Us Ow]. destruct X as [Xn Xi]. constructor; [exact L | exact Bm | exact Em | cbn ..].
      - split; [exact Hnd|]. intros b' Hb'. destruct (Hin b' ltac:(right; exact Hb')) as [H1 H2]. split; [exact H1|].
        rewrite elem_of_union, elem_of_singleton. intros [-> | H3]; contradiction.
      - split; [exact Hes|]. intros e' He'. apply Xi, Hsub, He'.
      - intros b' Hb'. apply elem_of_union in Hb' as [Hb' | Hb'].
        + rewrite elem_of_singleton in Hb'. subst b'. split; [exact HB|]. exists x. split; [apply lookup_insert_eq|]. split; [exact Wx|].
          intros Hne. destruct HeE as [-> | HeE]; [contradiction|]. split; [exact HeE | apply Hees, Hne].
        + destruct (Us b' Hb') as (HB' & y & Hy & Wy & Ey). split; [exact HB'|]. exists y. rewrite lookup_insert_ne by (intros ->; contradiction).
          split; [exact Hy|]. split; [exact Wy|]. intros Hne. destruct (Ey Hne) as [H1 H2]. split; [exact H1|]. intros H3. apply H2, Hsub, H3.
      - assert (Q : forall b1 y1, b1 ∈ U -> n_bufs n !! b1 = Some y1 -> e <> NULL -> nb_ext y1 <> e).
        { intros b1 y1 H1 Hy1 Hne Eq. destruct (Us b1 H1) as (_ & y & Hy & _ & Ey). rewrite Hy1 in Hy. injection Hy as <-. subst e.
          destruct (Ey Hne) as [_ H2]. apply H2, Hen, Hne. }
        intros b1 b2 x1 x2 H1 H2 Hx1 Hx2 Hne Eq. apply elem_of_union in H1, H2. rewrite !elem_of_singleton in *.
        destruct H1 as [-> | H1], H2 as [-> | H2]; [reflexivity | | |].
        + rewrite lookup_insert_eq in Hx1. injection Hx1 as <-. cbn in *. rewrite lookup_insert_ne in Hx2 by (intros ->; contradiction).
          destruct (Q b2 x2 H2 Hx2 Hne). congruence.
        + rewrite lookup_insert_eq in Hx2. injection Hx2 as <-. cbn in *. rewrite lookup_insert_ne in Hx1 by (intros ->; contradiction).
          destruct (Q b1 x1 H1 Hx1 ltac:(congruence)). congruence.
        + rewrite lookup_insert_ne in Hx1, Hx2 by (intros ->; contradiction). eapply Ow; eauto. }
    split; [|split; [exact N'|]].
    - destruct (area_used _ _ _ _ _ _ N' ltac:(apply elem_of_union_l, elem_of_singleton_2; reflexivity) Hx) as (m & Hm & Hc & _).
      exists x. split; [exact Hx|]. split; [reflexivity|]. split; [reflexivity|]. split; [reflexivity|]. rewrite (get_data_at _ _ _ _ Hx Hm). cbn.
      pose proof (zlen_nonneg m). unfold read_at. replace (_ && _) with true by lia. reflexivity.
    - intros b' Hb'. cbn. assert (Hne : b <> b') by (intros ->; contradiction). split; [apply lookup_insert_ne, Hne|].
      unfold get_data, get_data_len, buf_read, get_buf. cbn. rewrite lookup_insert_ne by exact Hne. reflexivity. }
  destruct (ok_ext _ _ _ _ N) as [Xn Xi]. destruct (NET_BUF_DATA_SIZE <? len) eqn:Ee; tests.
  - unfold alloc_ext_buffer. destruct (n_ext n) as [|e es] eqn:Ex; [destruct He; [lia | reflexivity]|].
    assert (He0 : e <> NULL) by (intros ->; apply HE0, Xi; left). apply NoDup_cons in Xn as [Xne Xn].
    destruct (G e es) as (Hh & N' & K); auto.
    { right. apply Xi. left. } { intros e' He'. right. exact He'. } { intros _. left. }
    replace (e =? NULL) with false in Hh by lia. replace (e =? NULL) with false by lia. cbn [negb orb andb].
    eexists _, e. split; [reflexivity|]. repeat (split; [assumption|]). split; [repeat split|]. split; [reflexivity|]. auto.
  - destruct (G NULL (n_ext n)) as (Hh & N' & K); auto; try (intros Hn; contradiction).
    eexists _, NULL. split; [reflexivity|]. repeat (split; [assumption|]). split; [repeat split|]. auto.
Qed.

Lemma free_ok B E U n b d left ext : net_ok B E U n -> b ∈ U -> holds n b d left ext ->
  exists n', free_net_buffer n b = Done n' /\ net_ok B E (U ∖ {[b]}) n' /\ keeps (U ∖ {[b]}) n n' /\ same_rest n n' /\
    n_mem n' = n_mem n /\ n_free n' = b :: n_free n /\ n_ext n' = (if ext =? NULL then n_ext n else ext :: n_ext n).
Proof.
  intros N Hb (x & Hx & _ & He & _). destruct (ok_free _ _ _ _ N) as [Hnd Hin]. unfold free_net_buffer.
  assert (Hnb : b ∉ n_free n) by (intros H1; apply (Hin b H1), Hb). rewrite bool_decide_false by exact Hnb. unfold get_buf. rewrite Hx. cbn. rewrite He.
  destruct (ok_used _ _ _ _ N b Hb) as (HB & x0 & Hx0 & W & Ex). rewrite Hx in Hx0. injection Hx0 as <-. rewrite He in Ex.
  assert (G : forall es, NoDup es -> (forall e, e ∈ es <-> e ∈ n_ext n \/ (e = ext /\ ext <> NULL)) ->
    net_ok B E (U ∖ {[b]}) (set_free n (b :: n_free n) es (n_bufs n)) /\ keeps (U ∖ {[b]}) n (set_free n (b :: n_free n) es (n_bufs n))).
  { intros es Hes Hs. split; [|intros b' _; auto]. destruct N as [L Bm Em F X Us Ow]. destruct X as [Xn Xi]. constructor; [exact L | exact Bm | exact Em | cbn ..].
    - split; [apply NoDup_cons; auto|]. intros b' Hb'. apply elem_of_cons in Hb' as [-> | Hb']; [split; [exact HB|]; intros H1; apply elem_of_difference in H1 as [_ H1]; apply H1, elem_of_singleton_2; reflexivity|].
      destruct (Hin b' Hb') as [H1 H2]. split; [exact H1|]. intros H3. apply elem_of_difference in H3 as [H3 _]. contradiction.
    - split; [exact Hes|]. intros e He'. apply Hs in He' as [He' | [-> Hn]]; [apply Xi, He' | apply Ex, Hn].
    - intros b' Hb'. apply elem_of_difference in Hb' as [Hb' Hne]. rewrite elem_of_singleton in Hne. destruct (Us b' Hb') as (HB' & y & Hy & Wy & Ey).
      split; [exact HB'|]. exists y. split; [exact Hy|]. split; [exact Wy|]. intros Hn. destruct (Ey Hn) as [H1 H2]. split; [exact H1|].
      intros H3. apply Hs in H3 as [H3 | [H3 Hn']]; [contradiction|]. apply Hne. eapply (Ow b' b); eauto. congruence.
    - intros b1 b2 x1 x2 H1 H2. apply elem_of_difference in H1 as [H1 _], H2 as [H2 _]. apply Ow; auto. }
  destruct (ok_ext _ _ _ _ N) as [Xn Xi]. destruct (ext =? NULL) eqn:Z; tests; cbn [negb].
  - destruct (G (n_ext n)) as [N' K]; [exact Xn | intros e; split; [tauto | intros [|[]]; [assumption | contradiction]] |].
    eexists. split; [reflexivity|]. split; [exact N'|]. split; [exact K|]. split; [repeat split|]. auto.
  - destruct (G (ext :: n_ext n)) as [N' K].
    { apply NoDup_cons. split; [apply Ex, Z | exact Xn]. }
    { intros e. rewrite elem_of_cons. intuition. }
    eexists. split; [reflexivity|]. split; [exact N'|]. split; [exact K|]. split; [repeat split|]. auto.
Qed.

(** ** What the buffers promise

    A client that holds buffers, by position in the order it got them. *)
Inductive buf_op := OAlloc (len : Z) | OAppend (i : nat) (data : list Z) | OZero (i : nat) (len : Z) | OPop (i : nat) (len : Z) | OFree (i : nat).

Definition op_wf (op : buf_op) : Prop :=
  match op with
  | OAlloc len | OZero _ len | OPop _ len => 0 <= len
  | OAppend _ data => byte_list data
  | OFree _ => True
  end.

(** The contract: free buffers and extensions by their number, a held buffer by its
    bytes, its room and whether it is extended. *)
Record spool := mk_sp { sp_free : nat; sp_ext : nat; sp_held : list (list Z * Z * bool) }.

Definition spec_append (s : spool) (i : nat) (data : list Z) : Z * spool :=
  match sp_held s !! i with
  | Some (d, room, e) =>
      if room <? zlen data then (- ENOBUFS, s)
      else (0, mk_sp (sp_free s) (sp_ext s) (<[i := (d ++ data, room - zlen data, e)]> (sp_held s)))
  | None => (0, s)
  end.

Definition spec_op (s : spool) (op : buf_op) : Z * spool :=
  match op with
  | OAlloc len =>
      let big := NET_BUF_DATA_SIZE <? len in
      match sp_free s, (if big then sp_ext s else 1%nat) with
      | S f, S e =>
          if EXT_BUF_SIZE <? len then (0, s)
          else (1, mk_sp f (if big then e else sp_ext s) (sp_held s ++ [([], if big then EXT_BUF_SIZE else NET_BUF_DATA_SIZE, big)]))
      | _, _ => (0, s)
      end
  | OAppend i data => spec_append s i data
  | OZero i len => spec_append s i (repeat 0 (Z.to_nat len))
  | OPop i len =>
      match sp_held s !! i with
      | Some (d, room, e) =>
          if zlen d <? len then (- EINVAL, s)
          else (0, mk_sp (sp_free s) (sp_ext s) (<[i := (drop (Z.to_nat len) d, room, e)]> (sp_held s)))
      | None => (0, s)
      end
  | OFree i =>
      match sp_held s !! i with
      | Some (_, _, e) => (0, mk_sp (S (sp_free s)) (if e : bool then S (sp_ext s) else sp_ext s) (delete i (sp_held s)))
      | None => (0, s)
      end
  end.

(** The code, on the state and the addresses of the held buffers. *)
Definition code_op n (held : list Z) (op : buf_op) : outcome (Z * net P * list Z) :=
  match op with
  | OAlloc len => let '(b, n) := alloc_net_buffer n len in Done (if b =? NULL then (0, n, held) else (1, n, held ++ [b]))
  | OAppend i data => match held !! i with Some b => let! ' (r, n) := append n b data in Done (r, n, held) | None => Done (0, n, held) end
  | OZero i len => match held !! i with Some b => let! ' (r, n) := append_zero n b len in Done (r, n, held) | None => Done (0, n, held) end
  | OPop i len => match held !! i with Some b => let! ' (r, n) := pop_front n b len in Done (r, n, held) | None => Done (0, n, held) end
  | OFree i => match held !! i with Some b => let! n := free_net_buffer n b in Done (0, n, delete i held) | None => Done (0, n, held) end
  end.

Fixpoint spec_run (s : spool) (ops : list buf_op) : list Z * spool :=
  match ops with
  | [] => ([], s)
  | op :: ops => let '(r, s) := spec_op s op in let '(rs, s) := spec_run s ops in (r :: rs, s)
  end.

Fixpoint code_run n (held : list Z) (ops : list buf_op) : outcome (list Z * net P * list Z) :=
  match ops with
  | [] => Done ([], n, held)
  | op :: ops =>
      let! ' (r, n, held) := code_op n held op in
      let! ' (rs, n, held) := code_run n held ops in Done (r :: rs, n, held)
  end.

Record pool_rep (B E : gset Z) n (held : list Z) (s : spool) : Prop := {
  pr_ok : net_ok B E (list_to_set held) n;
  pr_nodup : NoDup held;
  pr_free : length (n_free n) = sp_free s;
  pr_exts : length (n_ext n) = sp_ext s;
  pr_len : length held = length (sp_held s);
  pr_held : forall i b d left e, held !! i = Some b -> sp_held s !! i = Some (d, left, e) ->
              exists ext, holds n b d left ext /\ e = negb (ext =? NULL)
}.

Lemma keeps_holds K n n' b d left ext : keeps K n n' -> b ∈ K -> holds n b d left ext -> holds n' b d left ext.
Proof. intros Hk Hb (x & Hx & Hl & He & Hz & Hd). destruct (Hk b Hb) as [E1 E2]. exists x. rewrite E1, E2. auto. Qed.

Lemma held_in held i (b : Z) : held !! i = Some b -> b ∈ (list_to_set held : gset Z).
Proof. intros Hi. apply elem_of_list_to_set. eapply list_elem_of_lookup_2, Hi. Qed.

Lemma held_other held i j (b c : Z) : NoDup held -> held !! i = Some b -> held !! j = Some c -> i <> j -> c ∈ (list_to_set held : gset Z) ∖ {[b]}.
Proof.
  intros Hn Hi Hj Hne. apply elem_of_difference. split; [eapply held_in, Hj|]. rewrite elem_of_singleton. intros ->.
  apply Hne. eapply (NoDup_lookup held); eauto.
Qed.

(** A step on one held buffer. *)
Lemma pool_rep_step B E n n' held s i b d left ext e d' left' :
  pool_rep B E n held s -> held !! i = Some b -> sp_held s !! i = Some (d, left, e) -> e = negb (ext =? NULL) ->
  local_step B E (list_to_set held) b n n' -> n_free n' = n_free n -> n_ext n' = n_ext n -> holds n' b d' left' ext ->
  pool_rep B E n' held (mk_sp (sp_free s) (sp_ext s) (<[i := (d', left', e)]> (sp_held s))).
Proof.
  intros [N D F X L HH] Hi Hs He (N' & K & _) Ef Ee Hh. constructor; cbn; auto; [congruence | congruence | rewrite length_insert; exact L |].
  intros j c dc lc ec Hj Hc. destruct (decide (i = j)) as [<-|Hne].
  - rewrite Hi in Hj. injection Hj as <-. rewrite list_lookup_insert_eq in Hc by (eapply lookup_lt_Some, Hs). injection Hc as <- <- <-. eauto.
  - rewrite list_lookup_insert_ne in Hc by exact Hne. destruct (HH j c dc lc ec Hj Hc) as (ec' & Hhc & Hec). exists ec'. split; [|exact Hec].
    eapply keeps_holds; [exact K | eapply held_other; eauto | exact Hhc].
Qed.

Lemma append_lists n b data r n' : append n b data = Done (r, n') -> n_free n' = n_free n /\ n_ext n' = n_ext n.
Proof.
  unfold append. intros Ha. repeat ostep. destruct (_ <? _); [injection Ha as <- <-; auto|]. ostep. injection Ha as <- <-. cbn.
  unfold buf_write in E0. repeat match goal with Hx : obind ?m _ = Done _ |- _ => destruct m; cbn in Hx; try discriminate Hx end.
  injection E0 as <-. auto.
Qed.

Lemma code_append_ok B E n held s i data : pool_rep B E n held s -> byte_list data ->
  exists n', code_op n held (OAppend i data) = Done (fst (spec_append s i data), n', held) /\ pool_rep B E n' held (snd (spec_append s i data)).
Proof.
  intros R Hd. unfold spec_append. cbn [code_op]. destruct (held !! i) as [b|] eqn:Hi.
  - destruct (sp_held s !! i) as [[[d left] e]|] eqn:Hs; [|apply lookup_lt_Some in Hi; apply lookup_ge_None in Hs; pose proof (pr_len _ _ _ _ _ R); lia].
    destruct (pr_held _ _ _ _ _ R i b d left e Hi Hs) as (ext & Hh & He).
    pose proof (append_ok B E _ n b d left ext data (pr_ok _ _ _ _ _ R) (held_in _ _ _ Hi) Hh Hd) as Ha.
    destruct (left <? zlen data); [rewrite Ha; exists n; auto|]. destruct Ha as (n' & Ha & Hh' & L). rewrite Ha. exists n'. split; [reflexivity|].
    destruct (append_lists _ _ _ _ _ Ha). cbn [snd]. eapply pool_rep_step; eauto.
  - destruct (sp_held s !! i) eqn:Hs; [apply lookup_lt_Some in Hs; apply lookup_ge_None in Hi; pose proof (pr_len _ _ _ _ _ R); lia|]. exists n. auto.
Qed.

Lemma delete_set held i (b : Z) : NoDup held -> held !! i = Some b -> list_to_set (delete i held) = (list_to_set held : gset Z) ∖ {[b]}.
Proof.
  intros Hn Hi. rewrite delete_take_drop. pose proof (take_drop_middle _ _ _ Hi) as Em. rewrite <- Em in Hn.
  apply NoDup_app in Hn as (_ & Hd & Hn2). apply NoDup_cons in Hn2 as [Hb _].
  apply set_eq. intros c. rewrite elem_of_difference, !elem_of_list_to_set, elem_of_singleton. rewrite <- Em at 3.
  rewrite !elem_of_app, elem_of_cons. split.
  - intros [Hc | Hc]; (split; [tauto|]); intros ->; [apply (Hd b Hc); left | contradiction].
  - tauto.
Qed.

Lemma code_op_ok B E n held s op : pool_rep B E n held s -> op_wf op ->
  exists n' held', code_op n held op = Done (fst (spec_op s op), n', held') /\ pool_rep B E n' held' (snd (spec_op s op)).
Proof.
  intros R Hop. destruct op as [len|i data|i len|i len|i]; cbn in Hop.
  - cbn [code_op spec_op]. pose proof (pr_free _ _ _ _ _ R) as Hf. pose proof (pr_exts _ _ _ _ _ R) as Hx.
    assert (Fail : alloc_net_buffer n len = (NULL, n) -> exists n' held', (let '(b, n0) := alloc_net_buffer n len in
      Done (if b =? NULL then (0, n0, held) else (1, n0, held ++ [b]))) = Done (0, n', held') /\ pool_rep B E n' held' s) by (intros ->; eauto).
    destruct (n_free n) as [|b fr] eqn:Efr; cbn in Hf.
    { rewrite <- Hf. apply Fail. unfold alloc_net_buffer. rewrite Efr. destruct (_ <? _); reflexivity. }
    rewrite <- Hf. destruct (EXT_BUF_SIZE <? len) eqn:Ebig.
    { destruct (if NET_BUF_DATA_SIZE <? len then sp_ext s else 1%nat); apply Fail; unfold alloc_net_buffer; rewrite Ebig; reflexivity. }
    destruct (if NET_BUF_DATA_SIZE <? len then sp_ext s else 1%nat) as [|e] eqn:Ee.
    { apply Fail. unfold alloc_net_buffer, alloc_ext_buffer. rewrite Ebig, Efr. destruct (NET_BUF_DATA_SIZE <? len); [|discriminate].
      destruct (n_ext n); [reflexivity | cbn in Hx; lia]. }
    tests. destruct (alloc_ok B E _ n len b fr (pr_ok _ _ _ _ _ R)) as (n' & ext & Ha & HB & HU & Hb0 & Hh & N' & K & _ & _ & Hfr & Hext);
      [lia | exact Efr | intros Hlt; replace (NET_BUF_DATA_SIZE <? len) with true in Ee by lia; intros Hx0; rewrite Hx0 in Hx; cbn in Hx; lia |].
    rewrite Ha. replace (b =? NULL) with false by lia. exists n', (held ++ [b]). split; [reflexivity|]. cbn [fst snd].
    destruct R as [N D F X L HH]. assert (Es : list_to_set (held ++ [b]) = ({[b]} ∪ list_to_set held : gset Z)) by (apply set_eq; intros c; rewrite elem_of_union, !elem_of_list_to_set, elem_of_app, list_elem_of_singleton, elem_of_singleton; tauto).
    constructor; cbn.
    + rewrite Es. exact N'.
    + apply NoDup_app. split; [exact D|]. split; [|apply NoDup_singleton]. intros c Hc Hcb. apply list_elem_of_singleton in Hcb. subst c. apply HU, elem_of_list_to_set, Hc.
    + rewrite Hfr. reflexivity.
    + destruct (NET_BUF_DATA_SIZE <? len); destruct Hext as [_ Hext]; [rewrite Hext in Hx; cbn in Hx; lia | congruence].
    + rewrite !length_app. cbn. lia.
    + intros i c d left e' Hi Hs. destruct (decide (i < length held)%nat) as [Hlt|Hge].
      * rewrite lookup_app_l in Hi by lia. rewrite lookup_app_l in Hs by lia. destruct (HH i c d left e' Hi Hs) as (ec & Hc & He'). exists ec. split; [|exact He'].
        eapply keeps_holds; [exact K | eapply held_in, Hi | exact Hc].
      * rewrite lookup_app_r in Hi by lia. rewrite lookup_app_r in Hs by lia. rewrite L in Hi.
        destruct (i - length (sp_held s))%nat as [|k]; [|destruct k; discriminate]. cbn in Hi, Hs. injection Hi as <-. injection Hs as <- <- <-.
        exists ext. split; [exact Hh|]. destruct (NET_BUF_DATA_SIZE <? len); destruct Hext as [Hext _]; [replace (ext =? NULL) with false by lia; reflexivity | rewrite Hext; reflexivity].
  - destruct (code_append_ok B E n held s i data R Hop) as (n' & H1 & H2). eauto.
  - destruct (code_append_ok B E n held s i (repeat 0 (Z.to_nat len)) R (byte_list_zeros _)) as (n' & H1 & H2). exists n', held. split; [|exact H2].
    cbn [code_op spec_op] in *. destruct (held !! i); [|exact H1]. rewrite append_zero_append by exact Hop. exact H1.
  - cbn [code_op spec_op]. destruct (held !! i) as [b|] eqn:Hi.
    + destruct (sp_held s !! i) as [[[d left] e]|] eqn:Hs; [|apply lookup_lt_Some in Hi; apply lookup_ge_None in Hs; pose proof (pr_len _ _ _ _ _ R); lia].
      destruct (pr_held _ _ _ _ _ R i b d left e Hi Hs) as (ext & Hh & He).
      pose proof (pop_front_ok B E _ n b d left ext len (pr_ok _ _ _ _ _ R) (held_in _ _ _ Hi) Hh Hop) as Ha.
      destruct (zlen d <? len); [rewrite Ha; exists n, held; auto|]. destruct Ha as (n' & Ha & Hh' & L & _). rewrite Ha. exists n', held. split; [reflexivity|].
      cbn [snd]. unfold pop_front in Ha. ostep. destruct (_ <? _); [discriminate|]. injection Ha as Ha. subst n'. eapply pool_rep_step; eauto.
    + destruct (sp_held s !! i) eqn:Hs; [apply lookup_lt_Some in Hs; apply lookup_ge_None in Hi; pose proof (pr_len _ _ _ _ _ R); lia|]. exists n, held. auto.
  - cbn [code_op spec_op]. destruct (held !! i) as [b|] eqn:Hi.
    + destruct (sp_held s !! i) as [[[d left] e]|] eqn:Hs; [|apply lookup_lt_Some in Hi; apply lookup_ge_None in Hs; pose proof (pr_len _ _ _ _ _ R); lia].
      destruct (pr_held _ _ _ _ _ R i b d left e Hi Hs) as (ext & Hh & He).
      destruct (free_ok B E _ n b d left ext (pr_ok _ _ _ _ _ R) (held_in _ _ _ Hi) Hh) as (n' & Ha & N' & K & _ & _ & Hfr & Hext).
      rewrite Ha. exists n', (delete i held). split; [reflexivity|]. cbn [snd]. destruct R as [N D F X L HH]. constructor; cbn.
      * rewrite (delete_set held i b D Hi). exact N'.
      * rewrite delete_take_drop. rewrite <- (take_drop_middle _ _ _ Hi) in D. apply NoDup_app in D as (D1 & D2 & D3). apply NoDup_cons in D3 as [_ D3].
        apply NoDup_app. split; [exact D1|]. split; [|exact D3]. intros c Hc Hc2. apply (D2 c Hc). right. exact Hc2.
      * rewrite Hfr. cbn. congruence.
      * rewrite Hext, He. destruct (ext =? NULL); cbn; congruence.
      * pose proof (lookup_lt_Some _ _ _ Hi). pose proof (lookup_lt_Some _ _ _ Hs). rewrite !length_delete by eauto. lia.
      * intros j c dc lc ec Hj Hc. assert (exists j', j' <> i /\ held !! j' = Some c /\ sp_held s !! j' = Some (dc, lc, ec)) as (j' & Hne & Hj' & Hc').
        { destruct (decide (j < i)%nat).
          - rewrite list_lookup_delete_lt in Hj by lia. rewrite list_lookup_delete_lt in Hc by lia. exists j. split; [lia | auto].
          - rewrite list_lookup_delete_ge in Hj by lia. rewrite list_lookup_delete_ge in Hc by lia. exists (S j). split; [lia | auto]. }
        destruct (HH j' c dc lc ec Hj' Hc') as (ec' & Hhc & Hec). exists ec'. split; [|exact Hec].
        eapply keeps_holds; [exact K | eapply held_other; eauto | exact Hhc].
    + destruct (sp_held s !! i) eqn:Hs; [apply lookup_lt_Some in Hs; apply lookup_ge_None in Hi; pose proof (pr_len _ _ _ _ _ R); lia|]. exists n, held. auto.
Qed.

Lemma code_run_ok B E ops : forall n held s, pool_rep B E n held s -> Forall op_wf ops ->
  exists n' held', code_run n held ops = Done (fst (spec_run s ops), n', held') /\ pool_rep B E n' held' (snd (spec_run s ops)).
Proof.
  induction ops as [|op ops IH]; intros n held s R Ho; cbn [code_run spec_run]; [eauto|]. apply Forall_cons in Ho as [H1 Ho].
  destruct (code_op_ok B E n held s op R H1) as (n1 & held1 & -> & R1). destruct (spec_op s op) as [r s1]. cbn [fst snd] in *. cbn [obind].
  destruct (IH n1 held1 s1 R1 Ho) as (n2 & held2 & -> & R2). destruct (spec_run s1 ops) as [rs s2]. cbn [fst snd obind] in *. eauto.
Qed.
(** ** Buffers without extensions

    Requests of at most 240 bytes never touch the list of extensions. *)
Definition small (op : buf_op) : Prop := match op with OAlloc len => len <= NET_BUF_DATA_SIZE | _ => True end.

(** The state with the extensions out of sight. *)
Definition hide n : net P := set_free n (n_free n) [] (n_bufs n).

Definition plain (s : spool) : Prop := sp_ext s = 0%nat /\ Forall (fun h => snd h = false) (sp_held s).

Lemma spec_op_plain s op : plain s -> small op -> plain (snd (spec_op s op)).
Proof.
  intros [He Hh] Ho. assert (A : forall i data, plain (snd (spec_append s i data))).
  { intros i data. unfold spec_append. destruct (sp_held s !! i) as [[[d r] e]|] eqn:E; [|split; assumption].
    destruct (_ <? _); [split; assumption|]. split; [exact He|]. apply Forall_insert; [exact Hh|]. exact (Forall_lookup_1 _ _ _ _ Hh E). }
  destruct op as [len|i data|i len|i len|i]; cbn [spec_op]; auto.
  - cbn in Ho. replace (NET_BUF_DATA_SIZE <? len) with false by lia. destruct (sp_free s); [split; assumption|].
    destruct (_ <? _); [split; assumption|]. split; [exact He|]. apply Forall_app. auto.
  - destruct (sp_held s !! i) as [[[d r] e]|] eqn:E; [|split; assumption]. destruct (_ <? _); [split; assumption|].
    split; [exact He|]. apply Forall_insert; [exact Hh|]. exact (Forall_lookup_1 _ _ _ _ Hh E).
  - destruct (sp_held s !! i) as [[[d r] e]|] eqn:E; [|split; assumption]. pose proof (Forall_lookup_1 _ _ _ _ Hh E) as Ee. cbn in Ee. subst e.
    split; [exact He|]. apply Forall_delete, Hh.
Qed.

Lemma pop_hide n b len : pop_front (hide n) b len = (let! ' (r, n) := pop_front n b len in Done (r, hide n)).
Proof. unfold pop_front. change (get_buf (hide n) b) with (get_buf n b). destruct (get_buf n b); cbn [obind]; try reflexivity. destruct (_ <? _); reflexivity. Qed.

Lemma append_hide n b data : append (hide n) b data = (let! ' (r, n) := append n b data in Done (r, hide n)).
Proof.
  unfold append, buf_write. change (get_buf (hide n) b) with (get_buf n b). change (n_mem (hide n)) with (n_mem n).
  destruct (get_buf n b) as [x| | |]; cbn [obind]; try reflexivity. destruct (_ <? _); [reflexivity|].
  destruct (deref _) as [m| | |]; cbn [obind]; try reflexivity. destruct (write_at _ _ _); reflexivity.
Qed.

Lemma append_zero_hide n b len : append_zero (hide n) b len = (let! ' (r, n) := append_zero n b len in Done (r, hide n)).
Proof.
  unfold append_zero, buf_write. change (get_buf (hide n) b) with (get_buf n b). change (n_mem (hide n)) with (n_mem n).
  destruct (get_buf n b) as [x| | |]; cbn [obind]; try reflexivity. destruct (_ <? _); [reflexivity|].
  destruct (deref _) as [m| | |]; cbn [obind]; try reflexivity. destruct (write_at _ _ _); reflexivity.
Qed.

(** A step on small requests is the step with the extensions hidden. *)
Lemma code_op_hide n held op r n0 held' : small op ->
  (forall i b, held !! i = Some b -> exists x, n_bufs n !! b = Some x /\ nb_ext x = NULL) ->
  code_op (hide n) held op = Done (r, n0, held') ->
  exists n', code_op n held op = Done (r, n', held') /\ n0 = hide n' /\ n_ext n' = n_ext n.
Proof.
  intros Ho Hx E. destruct op as [len|i data|i len|i len|i]; cbn [code_op] in *.
  - cbn in Ho. unfold alloc_net_buffer in *. change (n_free (hide n)) with (n_free n) in E. unfold EXT_BUF_SIZE, NET_BUF_DATA_SIZE in *.
    replace (2048 <? len) with false in * by lia. replace (240 <? len) with false in * by lia. cbn [negb orb] in *.
    destruct (n_free n) as [|b rest]; [injection E as <- <- <-; exists n; auto|].
    destruct (b =? NULL); injection E as <- <- <-; eexists; split; try reflexivity; split; reflexivity.
  - destruct (held !! i) as [b|]; [|injection E as <- <- <-; eauto]. rewrite append_hide in E.
    destruct (append n b data) as [[r1 n1]| | |] eqn:Ea; cbn [obind] in *; try discriminate. injection E as <- <- <-.
    exists n1. split; [reflexivity|]. split; [reflexivity|]. apply (append_lists n b data r1 n1 Ea).
  - destruct (held !! i) as [b|]; [|injection E as <- <- <-; eauto]. rewrite append_zero_hide in E.
    destruct (append_zero n b len) as [[r1 n1]| | |] eqn:Ea; cbn [obind] in *; try discriminate. injection E as <- <- <-.
    exists n1. split; [reflexivity|]. split; [reflexivity|]. revert Ea. unfold append_zero, buf_write.
    destruct (get_buf n b); cbn [obind]; try discriminate. destruct (_ <? _); [intros [= <- <-]; reflexivity|].
    destruct (deref _); cbn [obind]; try discriminate. destruct (write_at _ _ _); cbn [obind]; try discriminate. intros [= <- <-]. reflexivity.
  - destruct (held !! i) as [b|]; [|injection E as <- <- <-; eauto]. rewrite pop_hide in E.
    destruct (pop_front n b len) as [[r1 n1]| | |] eqn:Ea; cbn [obind] in *; try discriminate. injection E as <- <- <-.
    exists n1. split; [reflexivity|]. split; [reflexivity|]. revert Ea. unfold pop_front.
    destruct (get_buf n b); cbn [obind]; try discriminate. destruct (_ <? _); intros [= <- <-]; reflexivity.
  - destruct (held !! i) as [b|] eqn:Hi; [|injection E as <- <- <-; eauto]. destruct (Hx i b Hi) as (x & Hb & He).
    unfold free_net_buffer, get_buf in *. change (n_free (hide n)) with (n_free n) in E. change (n_bufs (hide n)) with (n_bufs n) in E.
    destruct (bool_decide _); [discriminate|]. rewrite Hb in *. cbn [deref obind] in *. rewrite He in *. cbn [NULL Z.eqb negb] in *.
    injection E as <- <- <-. eexists. split; [reflexivity|]. split; reflexivity.
Qed.

Lemma code_run_small B : forall ops n held s, pool_rep B ∅ (hide n) held s -> plain s -> Forall op_wf ops -> Forall small ops ->
  exists n' held', code_run n held ops = Done (fst (spec_run s ops), n', held') /\ n_ext n' = n_ext n /\
    pool_rep B ∅ (hide n') held' (snd (spec_run s ops)).
Proof.
  induction ops as [|op ops IH]; intros n held s R Hp Ho Hs; cbn [code_run spec_run]; [eauto|].
  apply Forall_cons in Ho as [H1 Ho], Hs as [H2 Hs]. destruct (code_op_ok B ∅ (hide n) held s op R H1) as (n0 & held1 & E0 & R1).
  assert (Hx : forall i b, held !! i = Some b -> exists x, n_bufs n !! b = Some x /\ nb_ext x = NULL).
  { intros i b Hi. destruct (sp_held s !! i) as [[[d left] e]|] eqn:E; [|apply lookup_lt_Some in Hi; apply lookup_ge_None in E; pose proof (pr_len _ _ _ _ _ R); lia].
    destruct (pr_held _ _ _ _ _ R i b d left e Hi E) as (ext & (x & Hb & _ & Hxe & _) & He). exists x. split; [exact Hb|].
    pose proof (Forall_lookup_1 _ _ _ _ (proj2 Hp) E) as Ee. cbn in Ee. rewrite Hxe. subst e. destruct (ext =? NULL) eqn:En; [lia | discriminate]. }
  destruct (code_op_hide n held op _ _ _ H2 Hx E0) as (n1 & -> & -> & Ex).
  pose proof (spec_op_plain s op Hp H2) as Hp1. destruct (spec_op s op) as [r s1]. cbn [fst snd] in *. cbn [obind].
  destruct (IH n1 held1 s1 R1 Hp1 Ho Hs) as (n2 & held2 & -> & Ex2 & R2). destruct (spec_run s1 ops) as [rs s2]. cbn [fst snd obind] in *.
  exists n2, held2. split; [reflexivity|]. split; [congruence | exact R2].
Qed.
End Net.

(** ** A host, for the examples *)

Definition host_bufs : list Z := [1000; 1256; 1512; 1768; 2024].
Definition host_exts : list Z := [5000; 7048; 9096].

Definition host_net (cfg : config) (cache : list (Z * list Z)) : net (object_pool * Z) :=
  mk_net host_bufs host_exts ∅
    (list_to_map ([(1000, repeat 0 240); (1256, repeat 0 240); (1512, repeat 0 240); (1768, repeat 0 240); (2024, repeat 0 240);
                   (5000, repeat 0 2048); (7048, repeat 0 2048); (9096, repeat 0 2048)]))
    cfg 0 cache [] tm_init (mk_object_pool 64 0 NULL ∅, 0) [].

Definition host_a : config := mk_cfg (make_ipaddr 192 168 1 104) (make_ipaddr 255 255 255 0) (make_ipaddr 192 168 1 1) (make_ipaddr 192 168 100 1) [2; 0; 0; 0; 0; 0xbc].
Definition host_b : config := mk_cfg (make_ipaddr 192 168 1 105) (make_ipaddr 255 255 255 0) (make_ipaddr 192 168 1 1) (make_ipaddr 192 168 100 1) [2; 0; 0; 0; 0; 0xbe].

Lemma host_net_ok cfg cache : net_ok (list_to_set host_bufs) (list_to_set host_exts) ∅ (host_net cfg cache).
Proof.
  constructor.
  - split; [|split]; [|vm_compute; intros H; inversion H..]. intros b Hb He. apply elem_of_list_to_set in Hb, He.
    repeat (apply elem_of_cons in Hb as [-> | Hb]; [vm_compute in He; repeat (apply elem_of_cons in He as [He | He]; [discriminate|]); inversion He|]). inversion Hb.
  - intros b Hb. apply elem_of_list_to_set in Hb. repeat (apply elem_of_cons in Hb as [-> | Hb]; [eexists; split; [reflexivity|]; split; [reflexivity | apply byte_list_zeros]|]). inversion Hb.
  - intros b Hb. apply elem_of_list_to_set in Hb. repeat (apply elem_of_cons in Hb as [-> | Hb]; [eexists; split; [reflexivity|]; split; [reflexivity | apply byte_list_zeros]|]). inversion Hb.
  - split; [apply (bool_decide_unpack _); vm_compute; exact I|]. intros b Hb. split; [apply elem_of_list_to_set, Hb | apply not_elem_of_empty].
  - split; [apply (bool_decide_unpack _); vm_compute; exact I|]. intros b Hb. apply elem_of_list_to_set, Hb.
  - intros b Hb. apply elem_of_empty in Hb. contradiction.
  - intros b b' x x' Hb. apply elem_of_empty in Hb. contradiction.
Qed.

Lemma host_pool_rep cfg cache : pool_rep (list_to_set host_bufs) (list_to_set host_exts) (host_net cfg cache) [] (mk_sp 5 3 []).
Proof. constructor; try reflexivity; [apply host_net_ok | constructor | discriminate]. Qed.

(** ** The buffers [net_t::init] cuts out of blocks of pages *)

Lemma push_bufs_length k a step : length (push_bufs k a step) = k.
Proof. revert a; induction k; intros; cbn; auto. Qed.

Lemma push_bufs_lookup num step : forall i a, (0 < i < num)%nat -> push_bufs num a step !! i = Some (u32 (a + step * Z.of_nat i)).
Proof.
  induction num as [|num IH]; intros i a Hi; [lia|]. destruct i as [|i]; [lia|]. cbn [push_bufs lookup list_lookup]. destruct i as [|i].
  - destruct num; [lia|]. cbn [push_bufs lookup list_lookup]. f_equal. f_equal. lia.
  - rewrite IH by lia. f_equal. unfold u32. rewrite Zplus_mod_idemp_l. f_equal. lia.
Qed.


Lemma push_bufs_in k a step b : 0 <= a -> 0 <= step -> a + step * Z.of_nat k < 2 ^ 32 -> b ∈ push_bufs k a step ->
  exists i, 0 <= i < Z.of_nat k /\ b = a + step * i.
Proof.
  intros Ha Hs Hk Hb. apply list_elem_of_lookup in Hb as [i Hi]. pose proof (lookup_lt_Some _ _ _ Hi) as Hl. rewrite push_bufs_length in Hl.
  exists (Z.of_nat i). split; [lia|]. destruct i as [|i]; [destruct k; [lia|]; injection Hi as <-; lia|].
  rewrite push_bufs_lookup in Hi by lia. injection Hi as <-. apply u32_small. nia.
Qed.

(** Areas of [step] bytes that do not overlap. *)
Definition spaced (step : Z) (l : list Z) : Prop :=
  forall i j a b, l !! i = Some a -> l !! j = Some b -> i <> j -> a + step <= b \/ b + step <= a.

Lemma push_bufs_spaced k a step : 0 <= a -> 0 < step -> a + step * Z.of_nat k < 2 ^ 32 -> spaced step (push_bufs k a step).
Proof.
  intros Ha Hs Hk.
  assert (L : forall i b, push_bufs k a step !! i = Some b -> b = a + step * Z.of_nat i).
  { intros i b Hi. pose proof (lookup_lt_Some _ _ _ Hi) as Hl. rewrite push_bufs_length in Hl.
    destruct i as [|i]; [destruct k; [lia|]; injection Hi as <-; lia|]. rewrite push_bufs_lookup in Hi by lia. injection Hi as <-. apply u32_small. nia. }
  intros i j x y Hi Hj Hne. apply L in Hi as ->, Hj as ->. nia.
Qed.

Lemma spaced_app step l1 l2 : spaced step l1 -> spaced step l2 -> (forall a b, a ∈ l1 -> b ∈ l2 -> a + step <= b \/ b + step <= a) -> spaced step (l1 ++ l2).
Proof.
  intros H1 H2 H i j a b Hi Hj Hne. apply lookup_app_Some in Hi as [Hi|[Li Hi]], Hj as [Hj|[Lj Hj]].
  - exact (H1 i j a b Hi Hj Hne).
  - apply H; eapply list_elem_of_lookup_2; eauto.
  - apply or_comm, H; eapply list_elem_of_lookup_2; eauto.
  - apply (H2 _ _ a b Hi Hj). lia.
Qed.

Lemma spaced_nodup step l : 0 < step -> spaced step l -> NoDup l.
Proof. intros Hs H. apply NoDup_alt. intros i j x Hi Hj. destruct (decide (i = j)); [assumption|]. destruct (H i j x x Hi Hj n); lia. Qed.

(** Every byte of the areas was free and is not any more. *)
Definition carved_out (step : Z) (F0 F : Z -> list Z) (l : list Z) : Prop :=
  forall b x, b ∈ l -> b <= x < b + step -> free_at F0 x /\ ~ free_at F x.

Lemma fill_blocks_ok F0 num step total : 0 < num -> 0 < step -> num * step <= bsize MAX_ORDER ->
  forall fuel n acc m F, buddy_ok m F -> (forall x, free_at F x -> free_at F0 x) -> (NULL ∉ acc -> spaced step acc /\ carved_out step F0 F acc) ->
  0 <= n -> zlen acc = n -> total <= n + num * Z.of_nat fuel ->
  exists bufs m' F', fill fuel total n num step acc m = Some (Done (bufs, m')) /\ buddy_ok m' F' /\
    zlen bufs = (if n <? total then n + (total - n + num - 1) / num * num else n) /\
    (NULL ∉ bufs -> spaced step bufs /\ carved_out step F0 F' bufs).
Proof.
  intros Hnum Hstep Hfit. induction fuel as [|fuel IH]; intros n acc m F HB Hsub Hacc Hn Hlen Hfuel; cbn [fill]; destruct (n <? total) eqn:E; tests;
    try lia; try solve [exists acc, m, F; auto].
  destruct (alloc_pages_spec m F MAX_ORDER HB ltac:(unfold MAX_ORDER; lia)) as (block & m1 & F1 & Ea & HB1 & Hs & Hc). rewrite Ea.
  assert (Hl : zlen (acc ++ push_bufs (Z.to_nat num) block step) = n + num) by (rewrite zlen_app, Hlen; unfold zlen; rewrite push_bufs_length; lia).
  assert (Hsub1 : forall x, free_at F1 x -> free_at F x).
  { destruct Hc as [(_ & -> & _)|(_ & _ & Hfree & _)]; [auto | intros x Hx; apply Hfree, Hx]. }
  destruct (IH (n + num) (acc ++ push_bufs (Z.to_nat num) block step) m1 F1 HB1) as (bufs & m' & F' & Ef & HB' & Hz & Hok); auto; try nia; cycle 1.
  { exists bufs, m', F'. split; [exact Ef|]. split; [exact HB'|]. split; [|exact Hok]. rewrite Hz.
    destruct (n + num <? total) eqn:E2; tests.
    - replace (total - n + num - 1) with (total - (n + num) + num - 1 + 1 * num) by lia. rewrite Z.div_add by lia. lia.
    - assert (Hd : (total - n + num - 1) / num = 1) by (symmetry; apply (Z.div_unique _ _ _ (total - n - 1)); lia). lia. }
  intros Hnull. apply not_elem_of_app in Hnull as [Hn1 Hn2]. destruct (Hacc Hn1) as [Hsp Hcv].
  destruct Hc as [(-> & _)|(Hb & Hin & Hfree & _)].
  { exfalso. apply Hn2. destruct (Z.to_nat num) eqn:En; [lia|]. apply list_elem_of_here. }
  pose proof (block_range m (bo_geo _ _ HB) MAX_ORDER block ltac:(unfold MAX_ORDER; lia) Hb) as [R _].
  assert (He : block + bsize MAX_ORDER < 2 ^ 32).
  { destruct (geo_end _ (bo_geo _ _ HB)) as [He _]. pose proof (proj1 (proj2 Hb)). lia. }
  assert (Hk : block + step * Z.of_nat (Z.to_nat num) < 2 ^ 32) by nia.
  assert (Hnew : forall b x, b ∈ push_bufs (Z.to_nat num) block step -> b <= x < b + step -> covers MAX_ORDER block x).
  { intros b x Hb' Hx. apply push_bufs_in in Hb' as (i & Hi & ->); try lia. unfold covers. nia. }
  split.
  - apply spaced_app; [exact Hsp | apply push_bufs_spaced; lia|]. intros a b Ha Hb'.
    destruct (Z_le_gt_dec (a + step) b) as [|H1]; [auto|]. destruct (Z_le_gt_dec (b + step) a) as [|H2]; [auto|]. exfalso.
    destruct (Hcv a (Z.max a b) Ha ltac:(lia)) as [_ Hnf]. apply Hnf, Hin, (Hnew b); [exact Hb' | lia].
  - intros b x Hb' Hx. apply elem_of_app in Hb' as [Hb'|Hb'].
    + destruct (Hcv b x Hb' Hx) as [H1 H2]. split; [exact H1|]. rewrite Hfree. tauto.
    + pose proof (Hnew b x Hb' Hx) as Hcx. split; [apply Hsub, Hin, Hcx|]. rewrite Hfree. tauto.
Qed.

(** C15: Packet buffers.  On a consistent page allocator [net_t::init] makes 16384 buffers; unless the
    allocator ran out of blocks, they are areas of 256 bytes that do not overlap, taken from free memory.
    A client that only asks for packets of at most 240 bytes then sees what the contract says, whatever
    the order in which it takes, fills, trims and gives back buffers: a buffer holds the bytes appended to
    it, a request that does not fit or finds no buffer is refused, no access leaves the 240 bytes of its buffer, no two
    holders share one, a buffer given back can be taken again, and the list of extensions is not touched.  Larger packets use
    the extensions, which init does not cut out properly ([ext_buffers_overrun]). *)
Theorem net_buffers_refine {P} `{ObjectPool P} (m : mm_t) (F : Z -> list Z) : buddy_ok m F ->
  exists bufs m1 F1, net_buffers_init m = Some (Done (bufs, m1)) /\ buddy_ok m1 F1 /\ zlen bufs = 16384 /\
    (NULL ∉ bufs -> spaced NET_BUF_SIZE bufs /\ carved_out NET_BUF_SIZE F F1 bufs /\
     forall (n : net P) ops, n_free n = bufs -> (forall b, b ∈ bufs -> bytes_of n b NET_BUF_DATA_SIZE) -> Forall op_wf ops -> Forall small ops ->
       exists n' held, code_run n [] ops = Done (fst (spec_run (mk_sp (length bufs) 0 []) ops), n', held) /\ n_ext n' = n_ext n /\
         pool_rep (list_to_set bufs) ∅ (hide n') held (snd (spec_run (mk_sp (length bufs) 0 []) ops))).
Proof.
  intros HB. unfold net_buffers_init.
  assert (Et : PAGE_SIZE * NET_BUF_PAGES / NET_BUF_SIZE = 16384) by reflexivity. assert (Eb : BUFS_PER_BLOCK = 1024) by reflexivity. rewrite Et, Eb.
  destruct (fill_blocks_ok F 1024 NET_BUF_SIZE 16384 ltac:(lia) ltac:(reflexivity) ltac:(vm_compute; discriminate) FILL_FUEL 0 [] m F HB (fun x H => H))
    as (bufs & m1 & F1 & E & HB1 & Hl & Hok); [|lia | reflexivity | vm_compute; discriminate |].
  { intros _. split; [intros i j a b Hi; discriminate | intros b x Hb; apply elem_of_nil in Hb as []]. }
  exists bufs, m1, F1. split; [exact E|]. split; [exact HB1|]. split; [exact Hl|]. intros Hn. destruct (Hok Hn) as [Hsp Hcv].
  split; [exact Hsp|]. split; [exact Hcv|]. intros n ops En Hm Hw Hs.
  apply (code_run_small (list_to_set bufs) ops n [] (mk_sp (length bufs) 0 [])); [|split; [reflexivity | constructor] | exact Hw | exact Hs].
  constructor; [|constructor | cbn [hide set_free n_free sp_free]; rewrite En; reflexivity | reflexivity | reflexivity | discriminate]. clear E HB1 Hl. constructor.
  - split; [set_solver|]. split; [rewrite elem_of_list_to_set; exact Hn | set_solver].
  - intros b Hb. apply elem_of_list_to_set in Hb. exact (Hm b Hb).
  - intros e He. set_solver.
  - cbn. rewrite En. split; [apply (spaced_nodup NET_BUF_SIZE); [reflexivity | exact Hsp]|]. intros b Hb. rewrite elem_of_list_to_set. set_solver.
  - split; [constructor | set_solver].
  - intros b Hb. set_solver.
  - intros b b' x x' Hb. set_solver.
Qed.

(** The booted machine has memory for them. *)
Definition bufs_check (r : option (outcome (list Z * mm_t))) : bool :=
  match r with Some (Done (bufs, _)) => forallb (fun b => negb (b =? NULL)) bufs | _ => false end.

Definition boot_bufs_check (r : outcome mm_t) : bool :=
  match r with Done m => bufs_check (net_buffers_init m) | _ => false end.

Lemma boot_bufs_ok : boot_bufs_check (init_free_area boot_mm) = true.
Proof. vm_compute. reflexivity. Qed.

Lemma boot_bufs_null m bufs m1 : init_free_area boot_mm = Done m -> net_buffers_init m = Some (Done (bufs, m1)) -> NULL ∉ bufs.
Proof.
  intros Em Eb Hin. pose proof boot_bufs_ok as C. rewrite Em in C. cbn [boot_bufs_check] in C. rewrite Eb in C. cbn [bufs_check] in C.
  apply list_elem_of_In in Hin. apply (proj1 (forallb_forall _ _) C) in Hin. discriminate.
Qed.

Definition demo_bufs : list buf_op := [OAlloc 200; OAppend 0 [1; 2; 3]; OPop 0 1; OAlloc 10; OZero 1 241; OFree 0].

Lemma demo_bufs_wf : Forall op_wf demo_bufs /\ Forall small demo_bufs.
Proof. split; repeat constructor; cbn; try lia; vm_compute; discriminate. Qed.

Lemma demo_bufs_spec f : (2 <= f)%nat ->
  fst (spec_run (mk_sp f 0 []) demo_bufs) = [1; 0; 0; 1; -105; 0] /\ sp_free (snd (spec_run (mk_sp f 0 []) demo_bufs)) = (f - 1)%nat.
Proof. intros H. destruct f as [|[|f]]; [lia | lia | split; reflexivity]. Qed.

Lemma demo_mem (bufs : list Z) b : b ∈ bufs -> exists m, (gset_to_gmap (repeat 0 240) (list_to_set bufs : gset Z) : gmap Z (list Z)) !! b = Some m /\ zlen m = NET_BUF_DATA_SIZE /\ byte_list m.
Proof.
  intros Hb. exists (repeat 0 240). split; [apply lookup_gset_to_gmap_Some; split; [apply elem_of_list_to_set, Hb | reflexivity]|].
  split; [reflexivity | apply byte_list_zeros].
Qed.

Lemma net_buffers_refine_witness : exists m bufs m1,
  init_free_area boot_mm = Done m /\ net_buffers_init m = Some (Done (bufs, m1)) /\ spaced NET_BUF_SIZE bufs /\
  let n := mk_net bufs [] ∅ (gset_to_gmap (repeat 0 240) (list_to_set bufs)) host_a 0 [] [] tm_init (mk_object_pool 64 0 NULL ∅, 0) [] in
  exists n' held, code_run n [] demo_bufs = Done ([1; 0; 0; 1; -105; 0], n', held) /\ zlen (n_free n') = 16383.
Proof.
  destruct (init_free_area_spec boot_mm boot_mm_ok) as (m & F & Em & HB & _). exists m.
  destruct (net_buffers_refine (P := object_pool * Z) m F HB) as (bufs & m1 & F1 & Eb & _ & Hl & Hok). exists bufs, m1.
  destruct (Hok (boot_bufs_null m bufs m1 Em Eb)) as (Hsp & _ & Hrun).
  split; [exact Em|]. split; [exact Eb|]. split; [exact Hsp|]. intros n.
  destruct (Hrun n demo_bufs eq_refl (demo_mem bufs) (proj1 demo_bufs_wf) (proj2 demo_bufs_wf)) as (n' & held & E & _ & R).
  destruct (demo_bufs_spec (length bufs)) as [S1 S2]; [unfold zlen in Hl; lia|]. rewrite S1 in E.
  exists n', held. split; [exact E|]. pose proof (pr_free _ _ _ _ _ R) as Hfree. rewrite S2 in Hfree. unfold zlen in *.
  change (n_free (hide n')) with (n_free n') in Hfree. lia.
Defined.

(** The extensions of [net_t::init]: 1024 of 2048 bytes are cut out of each block of
    64 pages, so that the 129th begins where the block ends. *)
Theorem ext_buffers_overrun m bufs m' : ext_buffers_init m = Some (Done (bufs, m')) ->
  exists block m1, alloc_pages m MAX_ORDER = Done (block, m1) /\ bufs !! 128%nat = Some (u32 (block + PAGE_SIZE * 2 ^ MAX_ORDER)).
Proof.
  unfold ext_buffers_init. assert (Et : PAGE_SIZE * EXT_BUF_PAGES / EXT_BUF_SIZE = 2048) by reflexivity. rewrite Et. clear Et.
  assert (En : BUFS_PER_BLOCK = 1024) by reflexivity. rewrite En. clear En. change FILL_FUEL with (S (S 14)). cbn [fill].
  destruct (alloc_pages m MAX_ORDER) as [[block m1]| | |] eqn:Ea; try discriminate. intros Hf. exists block, m1. split; [reflexivity|].
  destruct (alloc_pages m1 MAX_ORDER) as [[block2 m2]| | |]; try discriminate.
  assert (Hd : exists r, bufs = push_bufs (Z.to_nat 1024) block EXT_BUF_SIZE ++ r).
  { exists (push_bufs (Z.to_nat 1024) block2 EXT_BUF_SIZE). destruct (0 + 1024 + 1024 <? 2048) eqn:E2 in Hf; [discriminate E2|]. cbn iota in Hf.
    injection Hf as <- _. reflexivity. }
  destruct Hd as [r ->]. rewrite lookup_app_l by (rewrite push_bufs_length; lia). rewrite push_bufs_lookup by lia. reflexivity.
Qed.
