(* ===== verification/Ip.v ===== *)
(** * IP, ICMP, UDP and TCP packets (src/src/ip.cc, icmp.cc, udp.cc, tcp.cc, ethernet.cc)

    The headers as the bytes the structures have in memory, the functions that send a
    packet and the ones that take a received frame apart.  The sockets a packet ends
    in are a component of their own: the functions of the receiving side take them as
    parameters. *)
From Stdlib Require Import ZArith ZifyBool Lia.
From stdpp Require Import base option list gmap.
From S2P Require Import Prelude Interfaces Pool Timer Checksum Net.

Definition IP_HDR_LEN : Z := 20.
Definition PROTO_ICMP : Z := 1.
Definition PROTO_TCP : Z := 6.
Definition PROTO_UDP : Z := 17.
Definition PROTO_RAW : Z := 0xff.
Definition ECHO_REPLY : Z := 0.
Definition ECHO_REQUEST : Z := 8.
Definition ICMP_HDR_LEN : Z := 8.
Definition UDP_HDR_LEN : Z := 8.
Definition TCP_HDR_LEN : Z := 20.
Definition PSEUDO_HDR_LEN : Z := 12.
Definition c_min_length_tcp_data : Z := 26.

(** [ip_hdr_t]: the two halves of the first byte are bit fields. *)
Definition ip_hdr (hdr_len ver tos total_len id offset ttl proto check_sum src_ip dst_ip : Z) : list Z :=
  [hdr_len + 16 * ver; tos] ++ le_bytes 2 total_len ++ le_bytes 2 id ++ le_bytes 2 offset ++ [ttl; proto] ++
  le_bytes 2 check_sum ++ le_bytes 4 src_ip ++ le_bytes 4 dst_ip.

Definition icmp_echo_hdr (type code check_sum id seq : Z) : list Z :=
  [type; code] ++ le_bytes 2 check_sum ++ le_bytes 2 id ++ le_bytes 2 seq.

(** [udp_pseudo_hdr_t] and [tcp_pseudo_hdr_t]. *)
Definition pseudo_hdr (src_ip dst_ip protocol len : Z) : list Z :=
  le_bytes 4 src_ip ++ le_bytes 4 dst_ip ++ [0; protocol] ++ le_bytes 2 len.

Definition udp_hdr (src dest len checksum : Z) : list Z :=
  le_bytes 2 src ++ le_bytes 2 dest ++ le_bytes 2 len ++ le_bytes 2 checksum.

(** [tcp_hdr_flag_t]; the flags that are never set are left out. *)
Record tcp_flags := mk_flags { f_fin : bool; f_syn : bool; f_ack : bool }.

Definition flags_val (f : tcp_flags) : Z := Z.b2z (f_fin f) + 2 * Z.b2z (f_syn f) + 16 * Z.b2z (f_ack f).

Definition tcp_hdr (src_port dst_port seq_no ack_no hdr_len : Z) (flags : tcp_flags) (window check_sum urg_pointer : Z) : list Z :=
  le_bytes 2 src_port ++ le_bytes 2 dst_port ++ le_bytes 4 seq_no ++ le_bytes 4 ack_no ++ [16 * hdr_len; flags_val flags] ++
  le_bytes 2 window ++ le_bytes 2 check_sum ++ le_bytes 2 urg_pointer.

Section Transmit.
Context {P : Type} `{ObjectPool P}.
Implicit Types (n : net P) (buf ip : Z).

Definition is_broadcast n ip : bool :=
  if (ip =? 0xffffffff) || (ip =? 0) then true
  else
    let mask := c_subnet_mask (n_cfg n) in
    Z.land ip (not32 mask) =? Z.land 0xffffffff (not32 mask).

Definition check_ip n ip : bool :=
  if is_broadcast n ip then false else if ip =? c_ipaddr (n_cfg n) then false else true.

Definition is_same_subnet (ip1 ip2 mask : Z) : bool := Z.land ip1 mask =? Z.land ip2 mask.

Definition ip_transmit n ip (data : list Z) (protocol : Z) : outcome (net P) :=
  if negb (check_ip n ip) then Done n
  else
    let dst_ip := if negb (is_same_subnet ip (c_ipaddr (n_cfg n)) (c_subnet_mask (n_cfg n))) then c_gateway (n_cfg n) else ip in
    let total := u32 (zlen data + IP_HDR_LEN) in
    let '(buffer, n) := alloc_net_buffer n total in
    if buffer =? NULL then Done n
    else
      let hdr sum := ip_hdr (IP_HDR_LEN / 4) 4 0 (htons (u16 total)) (htons (n_next_id n)) (htons 0) 32 protocol sum
                       (htonl (c_ipaddr (n_cfg n))) (htonl ip) in
      let sum := check_sum (hdr 0) in
      let n := set_next_id n (u16 (n_next_id n + 1)) in
      let! ' (_, n) := append n buffer (hdr sum) in
      let! ' (_, n) := append n buffer data in
      match lookup_cache n dst_ip with
      | Some eth_addr =>
          let! bytes := get_data n buffer in
          let! n := ethernet_transmit n eth_addr PROTO_IP bytes in
          free_net_buffer n buffer
      | None => add_to_wait_queue n dst_ip buffer
      end.

(** [icmp_t::echo_request] and [echo_reply]: the checksum is taken of the header alone. *)
Definition echo n (type ip id seq : Z) (data : list Z) : outcome (bool * net P) :=
  let total := u32 (zlen data + ICMP_HDR_LEN) in
  let '(buffer, n) := alloc_net_buffer n total in
  if buffer =? NULL then Done (false, n)
  else
    let sum := check_sum (icmp_echo_hdr type 0 0 (htons id) (htons seq)) in
    let! ' (_, n) := append n buffer (icmp_echo_hdr type 0 sum (htons id) (htons seq)) in
    let! ' (_, n) := (if zlen data =? 0 then Done (0, n) else append n buffer data) in
    let! bytes := buf_read n buffer 0 total in
    let! n := ip_transmit n ip bytes PROTO_ICMP in
    let! n := free_net_buffer n buffer in
    Done (true, n).

Definition echo_request n ip id seq data := echo n ECHO_REQUEST ip id seq data.
Definition echo_reply n ip id seq data := echo n ECHO_REPLY ip id seq data.

(** The buffer is not given back. *)
Definition udp_transmit n (dst_ip src_port dst_port : Z) (data : list Z) : outcome (Z * net P) :=
  let total := u16 (zlen data + UDP_HDR_LEN) in
  let pseudo := pseudo_hdr (htonl (c_ipaddr (n_cfg n))) (htonl dst_ip) PROTO_UDP (htons total) in
  let hdr := udp_hdr (htons src_port) (htons dst_port) (htons total) 0 in
  let '(buffer, n) := alloc_net_buffer n (total + PSEUDO_HDR_LEN) in
  if buffer =? NULL then Done (-1, n)
  else
    let! ' (_, n) := append n buffer pseudo in
    let! ' (_, n) := append n buffer hdr in
    let! ' (_, n) := append n buffer data in
    let! bytes := get_data n buffer in
    let! n := buf_write n buffer (PSEUDO_HDR_LEN + 6) (le_bytes 2 (check_sum bytes)) in
    let! ' (_, n) := pop_front n buffer PSEUDO_HDR_LEN in
    let! bytes := get_data n buffer in
    let! n := ip_transmit n dst_ip bytes PROTO_UDP in
    Done (0, n).

Definition tcp_transmit n (dst_ip src_port dst_port seq_no ack_no : Z) (flag : tcp_flags) (data : list Z) : outcome (Z * net P) :=
  let tcp_len := u16 (zlen data + TCP_HDR_LEN) in
  let total := if tcp_len <? c_min_length_tcp_data then c_min_length_tcp_data else tcp_len in
  let pseudo := pseudo_hdr (htonl (c_ipaddr (n_cfg n))) (htonl dst_ip) PROTO_TCP (htons total) in
  let hdr := tcp_hdr (htons src_port) (htons dst_port) (htonl seq_no) (htonl ack_no) (TCP_HDR_LEN / 4) flag (htons 1) 0 0 in
  let '(buffer, n) := alloc_net_buffer n (total + PSEUDO_HDR_LEN) in
  if buffer =? NULL then Done (-1, n)
  else
    let! ' (_, n) := append n buffer pseudo in
    let! ' (_, n) := append n buffer hdr in
    let! ' (_, n) := (if zlen data =? 0 then Done (0, n) else append n buffer data) in
    let! ' (_, n) := (if tcp_len <? total then append_zero n buffer (total - tcp_len) else Done (0, n)) in
    let! bytes := get_data n buffer in
    let! n := buf_write n buffer (PSEUDO_HDR_LEN + 16) (le_bytes 2 (check_sum bytes)) in
    let! ' (_, n) := pop_front n buffer PSEUDO_HDR_LEN in
    let! bytes := get_data n buffer in
    let! n := ip_transmit n dst_ip bytes PROTO_TCP in
    Done (0, n).

(** ** The receiving side *)

Definition echo_request_receive n buf ip : outcome (net P) :=
  let! bytes := get_data n buf in
  if negb (check_sum bytes =? 0) then Done n
  else
    let! id := buf_read n buf 4 2 in
    let! seq := buf_read n buf 6 2 in
    let! ' (_, n) := echo_reply n ip (ntohs (le_value id)) (ntohs (le_value seq)) [] in Done n.

Definition echo_reply_receive n buf ip : outcome (net P) :=
  let! bytes := get_data n buf in if negb (check_sum bytes =? 0) then Done n else Done n.

Definition icmp_receive n buf ip : outcome (net P) :=
  let! type := buf_read n buf 0 1 in
  if le_value type =? ECHO_REQUEST then echo_request_receive n buf ip
  else if le_value type =? ECHO_REPLY then echo_reply_receive n buf ip
  else Done n.

Section Receive.
(** The sockets: what became of the buffer, as the functions return it. *)
Context {S : Type}.
Context (raw_net_receive : net P -> S -> Z -> Z -> Z -> outcome (Z * net P * S)).
Context (dgram_net_receive : net P -> S -> Z -> Z -> Z -> Z -> Z -> outcome (Z * net P * S)).
Context (stream_net_receive : net P -> S -> list Z -> Z -> Z -> Z -> outcome (Z * net P * S)).

Definition udp_receive n (s : S) buf ip : outcome (Z * net P * S) :=
  let! hdr := buf_read n buf 0 UDP_HDR_LEN in
  let total := ntohs (le_value (take 2 (drop 4 hdr))) in
  let pseudo := pseudo_hdr (htonl ip) (htonl (c_ipaddr (n_cfg n))) PROTO_UDP (htons total) in
  let! len := get_data_len n buf in
  let '(buffer, n) := alloc_net_buffer n (u32 (PSEUDO_HDR_LEN + len)) in
  if buffer =? NULL then Done (-1, n, s)
  else
    let! ' (_, n) := append n buffer pseudo in
    let! x := get_buf n buffer in
    let! ' (_, n) := (if nb_left x <? total then Done (- ENOBUFS, n) else let! data := buf_read n buf 0 total in append n buffer data) in
    let! bytes := get_data n buffer in
    let sum := check_sum bytes in
    let! n := free_net_buffer n buffer in
    if negb (sum =? 0) then Done (-1, n, s)
    else
      let! ' (_, n) := pop_front n buf UDP_HDR_LEN in
      dgram_net_receive n s buf ip (ntohs (le_value (take 2 hdr))) (c_ipaddr (n_cfg n)) (ntohs (le_value (take 2 (drop 2 hdr)))).

Definition tcp_receive n (s : S) buf ip : outcome (Z * net P * S) :=
  let! len := get_data_len n buf in
  let total := u16 len in
  let pseudo := pseudo_hdr (htonl ip) (htonl (c_ipaddr (n_cfg n))) PROTO_TCP (htons total) in
  let '(buffer, n) := alloc_net_buffer n (u32 (PSEUDO_HDR_LEN + len)) in
  if buffer =? NULL then Done (-1, n, s)
  else
    let! ' (_, n) := append n buffer pseudo in
    let! data := buf_read n buf 0 total in
    let! ' (_, n) := append n buffer data in
    let! bytes := get_data n buffer in
    let sum := check_sum bytes in
    let! n := free_net_buffer n buffer in
    if negb (sum =? 0) then Done (-1, n, s)
    else
      let! hdr := buf_read n buf 0 TCP_HDR_LEN in
      let! ' (_, n) := pop_front n buf TCP_HDR_LEN in
      stream_net_receive n s hdr buf ip (c_ipaddr (n_cfg n)).

(** [if (!receive(...)) free]: the buffer is freed when the handler took it. *)
Definition free_if_zero n (r : Z) buf : outcome (net P) := if r =? 0 then free_net_buffer n buf else Done n.

(** The [switch] of [ip_t::receive]. *)
Definition ip_dispatch n (s : S) buf (protocol src_ip : Z) : outcome (net P * S) :=
  if protocol =? PROTO_RAW then let! n := free_net_buffer n buf in Done (n, s)
  else if protocol =? PROTO_ICMP then
    let! n := icmp_receive n buf src_ip in
    let! n := free_net_buffer n buf in Done (n, s)
  else if protocol =? PROTO_UDP then
    let! ' (r, n, s) := udp_receive n s buf src_ip in
    let! n := free_if_zero n r buf in Done (n, s)
  else if protocol =? PROTO_TCP then
    let! ' (r, n, s) := tcp_receive n s buf src_ip in
    let! n := free_if_zero n r buf in Done (n, s)
  else let! n := free_net_buffer n buf in Done (n, s).

Definition ip_receive n (s : S) buf : outcome (net P * S) :=
  let! hdr := buf_read n buf 0 IP_HDR_LEN in
  let! ' (_, n) := pop_front n buf IP_HDR_LEN in
  if negb (check_sum hdr =? 0) then Done (n, s)
  else
    let! protocol := deref (zget hdr 9) in
    let src_ip := ntohl (le_value (take 4 (drop 12 hdr))) in
    let! ' (_, n, s) := raw_net_receive n s buf protocol src_ip in
    ip_dispatch n s buf protocol src_ip.

Definition ethernet_receive n (s : S) (data : list Z) : outcome (net P * S) :=
  let '(buf, n) := alloc_net_buffer n (zlen data) in
  if negb (buf =? NULL) then
    let! ' (_, n) := append n buf data in
    let! hdr := buf_read n buf 0 ETH_HDR_LEN in
    let proto := htons (le_value (drop 12 hdr)) in
    if proto =? PROTO_ARP then
      let! ' (_, n) := pop_front n buf ETH_HDR_LEN in
      let! n := arp_receive n (take 6 (drop 6 hdr)) buf in
      let! n := free_net_buffer n buf in Done (n, s)
    else if proto =? PROTO_IP then
      let! ' (_, n) := pop_front n buf ETH_HDR_LEN in
      ip_receive n s buf
    else let! n := free_net_buffer n buf in Done (n, s)
  else Done (n, s).
End Receive.

(** ** What goes out *)

(** Two states that differ in the frames sent only. *)
Definition same_but_sent n n' : Prop :=
  n_cfg n' = n_cfg n /\ n_next_id n' = n_next_id n /\ n_cache n' = n_cache n /\ n_queue n' = n_queue n /\
  n_timers n' = n_timers n /\ n_pool n' = n_pool n.

Definition same_lists n n' : Prop := n_free n' = n_free n /\ n_ext n' = n_ext n.

Lemma append_fits B E U n b d left ext data : net_ok B E U n -> b ∈ U -> holds n b d left ext -> byte_list data -> zlen data <= left ->
  exists n', append n b data = Done (0, n') /\ holds n' b (d ++ data) (left - zlen data) ext /\ local_step B E U b n n' /\ same_lists n n'.
Proof.
  intros N Hb Hh Hd Hl. pose proof (append_ok B E U n b d left ext data N Hb Hh Hd) as Ha. replace (left <? zlen data) with false in Ha by lia.
  destruct Ha as (n' & Ha & Hh' & L). exists n'. destruct (append_lists _ _ _ _ _ Ha). unfold same_lists. auto.
Qed.

(** A frame: the header, the data, and zeros up to 46 bytes of it. *)
Definition eth_frame (dst src : list Z) (proto : Z) (data : list Z) : list Z :=
  eth_header dst src (ntohs proto) ++ data ++ repeat 0 (Z.to_nat (46 - zlen data)).

Definition mac_wf (a : list Z) : Prop := length a = 6%nat /\ byte_list a.

Lemma eth_transmit_ok B E U n mac proto data : net_ok B E U n -> mac_wf mac -> mac_wf (c_eth_addr (n_cfg n)) -> mac <> c_eth_addr (n_cfg n) ->
  byte_list data -> zlen data <= EXT_BUF_SIZE - ETH_HDR_LEN -> n_free n <> [] -> (NET_BUF_DATA_SIZE - ETH_HDR_LEN < zlen data -> n_ext n <> []) ->
  exists n', ethernet_transmit n mac proto data = Done n' /\ n_sent n' = n_sent n ++ [eth_frame mac (c_eth_addr (n_cfg n)) proto data] /\
    net_ok B E U n' /\ keeps U n n' /\ same_but_sent n n' /\ same_lists n n'.
Proof.
  intros N [Hm1 Hm2] [Ho1 Ho2] Hne Hd Hl Hf He. unfold ETH_HDR_LEN, EXT_BUF_SIZE, NET_BUF_DATA_SIZE in *. pose proof (zlen_nonneg data).
  destruct (n_free n) as [|b fr] eqn:Ef; [congruence|]. unfold ethernet_transmit. rewrite bool_decide_false by exact Hne.
  set (len := zlen data) in *. set (L := if len <? 46 then 46 else len). assert (HL : 46 <= L /\ len <= L /\ (L = 46 \/ L = len) /\ L - len = Z.max 0 (46 - len)) by (unfold L; destruct (len <? 46) eqn:?; tests; lia). clearbody L.
  unfold ETH_HDR_LEN. rewrite u32_small by lia.
  destruct (alloc_ok B E U n (L + 14) b fr N) as (n1 & ext & Ea & HB & HU & Hb0 & Hh1 & N1 & K1 & R1 & M1 & F1 & X1);
    [unfold EXT_BUF_SIZE; lia | exact Ef | unfold NET_BUF_DATA_SIZE; intros; apply He; lia |].
  rewrite Ea. replace (b =? NULL) with false by lia. cbn [negb]. assert (HbU : b ∈ {[b]} ∪ U) by (apply elem_of_union_l, elem_of_singleton_2; reflexivity).
  set (room := if NET_BUF_DATA_SIZE <? L + 14 then EXT_BUF_SIZE else NET_BUF_DATA_SIZE) in *.
  assert (Hroom : L + 14 <= room) by (unfold room, NET_BUF_DATA_SIZE, EXT_BUF_SIZE; destruct (240 <? L + 14) eqn:?; tests; lia). clearbody room.
  assert (Ecfg : n_cfg n1 = n_cfg n) by apply R1. rewrite Ecfg. set (own := c_eth_addr (n_cfg n)) in *.
  set (h := eth_header mac own (ntohs proto)). assert (Hhl : zlen h = 14) by (unfold h, eth_header, zlen; rewrite !length_app, Hm1, Ho1, le_bytes_length; reflexivity).
  assert (Hhb : byte_list h) by (unfold h, eth_header; bytes).
  destruct (append_fits _ _ _ _ _ _ _ _ h N1 HbU Hh1 Hhb ltac:(lia)) as (n2 & E2 & Hh2 & (N2 & K2 & R2) & [F2 X2]). rewrite E2. cbn [obind].
  destruct (append_fits _ _ _ _ _ _ _ _ data N2 HbU Hh2 Hd ltac:(fold len; lia)) as (n3 & E3 & Hh3 & (N3 & K3 & R3) & [F3 X3]). rewrite E3. cbn [obind].
  fold len in Hh3.
  assert (exists n4, (if len <? L then let! ' (_, n0) := append_zero n3 b (L - len) in Done n0 else Done n3) = Done n4 /\
            holds n4 b ((([] ++ h) ++ data) ++ repeat 0 (Z.to_nat (46 - len))) (room - zlen h - len - (L - len)) ext /\
            local_step B E ({[b]} ∪ U) b n3 n4 /\ same_lists n3 n4) as (n4 & E4 & Hh4 & (N4 & K4 & R4) & [F4 X4]).
  { destruct (len <? L) eqn:Elt; tests.
    - assert (Hz : zlen (repeat 0 (Z.to_nat (L - len))) = L - len) by (unfold zlen; rewrite repeat_length; lia).
      rewrite append_zero_append by lia. destruct (append_fits _ _ _ _ _ _ _ _ _ N3 HbU Hh3 (byte_list_zeros (Z.to_nat (L - len))) ltac:(lia)) as (n4 & E4 & Hh4 & Ls & Sl).
      rewrite E4. cbn [obind]. exists n4. split; [reflexivity|]. rewrite Hz in Hh4. replace (46 - len) with (L - len) by lia. auto.
    - exists n3. split; [reflexivity|]. replace (Z.to_nat (46 - len)) with 0%nat by lia. cbn [repeat]. rewrite app_nil_r.
      replace (room - zlen h - len - (L - len)) with (room - zlen h - len) by lia. split; [exact Hh3|]. split; [|split; reflexivity].
      split; [exact N3|]. split; [intros c Hc; auto | apply same_rest_refl]. }
  rewrite E4. cbn [obind]. rewrite app_nil_l, <- !app_assoc in Hh4. fold len in Hh4. change (h ++ data ++ repeat 0 (Z.to_nat (46 - len))) with (eth_frame mac own proto data) in Hh4.
  pose proof Hh4 as (x & _ & _ & _ & _ & Hg). rewrite Hg. cbn [obind].
  set (n5 := card_transmit n4 (eth_frame mac own proto data)).
  assert (N5 : net_ok B E ({[b]} ∪ U) n5) by (destruct N4; constructor; auto).
  destruct (free_ok B E _ n5 b _ _ _ N5 HbU Hh4) as (n6 & E6 & N6 & K6 & R6 & M6 & F6 & X6). rewrite E6.
  assert (EU : ({[b]} ∪ U) ∖ {[b]} = U) by (apply set_eq; intros c; rewrite elem_of_difference, elem_of_union, elem_of_singleton; split; [tauto | intros Hc; split; [tauto | intros ->; contradiction]]).
  rewrite EU in *. exists n6. split; [reflexivity|].
  assert (Rall : same_rest n n4) by (repeat (eapply same_rest_trans; [eassumption|]); apply same_rest_refl).
  destruct Rall as (Q1 & Q2 & Q3 & Q4 & Q5 & Q6 & Q7). destruct R6 as (T1 & T2 & T3 & T4 & T5 & T6 & T7).
  split; [rewrite T7; cbn; rewrite Q7; reflexivity|]. split; [exact N6|]. split; [|split].
  - intros c Hc. destruct (K1 c Hc) as [P1 P2]. destruct (K2 c Hc) as [P3 P4]. destruct (K3 c Hc) as [P5 P6]. destruct (K4 c Hc) as [P7 P8]. destruct (K6 c Hc) as [P9 P10].
    split; [rewrite P9; cbn; congruence | rewrite P10; change (get_data n5 c) with (get_data n4 c); congruence].
  - repeat split; cbn in *; congruence.
  - split; [rewrite F6; cbn; congruence|]. rewrite X6. cbn. rewrite X4, X3, X2. destruct (NET_BUF_DATA_SIZE <? L + 14); destruct X1 as [X0 X1].
    + replace (ext =? NULL) with false by lia. congruence.
    + rewrite X0. cbn. exact X1.
Qed.

(** The packet [ip_t::transmit] builds. *)
Definition ip_header_of (cfg : config) (id ip protocol len sum : Z) : list Z :=
  ip_hdr (IP_HDR_LEN / 4) 4 0 (htons (u16 (len + IP_HDR_LEN))) (htons id) (htons 0) 32 protocol sum (htonl (c_ipaddr cfg)) (htonl ip).

Definition ip_packet (cfg : config) (id ip protocol : Z) (data : list Z) : list Z :=
  ip_header_of cfg id ip protocol (zlen data) (check_sum (ip_header_of cfg id ip protocol (zlen data) 0)) ++ data.

Lemma ip_header_length cfg id ip protocol len sum : zlen (ip_header_of cfg id ip protocol len sum) = 20.
Proof. reflexivity. Qed.

Lemma ip_header_bytes cfg id ip protocol len sum : 0 <= protocol < 256 -> byte_list (ip_header_of cfg id ip protocol len sum).
Proof. intros Hp. unfold ip_header_of, ip_hdr. change (IP_HDR_LEN / 4 + 16 * 4) with 69. bytes. Qed.

Lemma ip_packet_length cfg id ip protocol data : zlen (ip_packet cfg id ip protocol data) = 20 + zlen data.
Proof. unfold ip_packet. rewrite zlen_app. reflexivity. Qed.

(** The states of two hosts agree but for the frames and the packet number. *)
Definition same_host n n' : Prop :=
  n_cfg n' = n_cfg n /\ n_cache n' = n_cache n /\ n_queue n' = n_queue n /\ n_timers n' = n_timers n /\ n_pool n' = n_pool n.

Lemma union_difference_new (U : gset Z) b : b ∉ U -> ({[b]} ∪ U) ∖ {[b]} = U.
Proof.
  intros Hb. apply set_eq. intros c. rewrite elem_of_difference, elem_of_union, elem_of_singleton.
  split; [tauto | intros Hc; split; [tauto | intros ->; contradiction]].
Qed.

Lemma keeps_trans K n1 n2 n3 : keeps K n1 n2 -> keeps K n2 n3 -> keeps K n1 n3.
Proof. intros H1 H2 b Hb. destruct (H1 b Hb), (H2 b Hb). split; congruence. Qed.

Lemma keeps_sub (K K' : gset Z) n1 n2 : K' ⊆ K -> keeps K n1 n2 -> keeps K' n1 n2.
Proof. intros Hs H1 b Hb. apply H1, Hs, Hb. Qed.

(** The address of the next hop. *)
Definition next_hop (cfg : config) ip : Z := if negb (is_same_subnet ip (c_ipaddr cfg) (c_subnet_mask cfg)) then c_gateway cfg else ip.

Lemma ip_transmit_ok B E U n ip data protocol mac : net_ok B E U n -> check_ip n ip = true -> lookup_cache n (next_hop (n_cfg n) ip) = Some mac ->
  mac_wf mac -> mac_wf (c_eth_addr (n_cfg n)) -> mac <> c_eth_addr (n_cfg n) -> byte_list data -> 0 <= protocol < 256 ->
  zlen data <= EXT_BUF_SIZE - ETH_HDR_LEN - IP_HDR_LEN -> (2 <= length (n_free n))%nat -> (2 <= length (n_ext n))%nat ->
  exists n', ip_transmit n ip data protocol = Done n' /\
    n_sent n' = n_sent n ++ [eth_frame mac (c_eth_addr (n_cfg n)) PROTO_IP (ip_packet (n_cfg n) (n_next_id n) ip protocol data)] /\
    net_ok B E U n' /\ keeps U n n' /\ same_host n n' /\ same_lists n n'.
Proof.
  intros N Hc Hlk Hm Ho Hne Hd Hp Hl Hf He. unfold ETH_HDR_LEN, EXT_BUF_SIZE, IP_HDR_LEN in Hl. pose proof (zlen_nonneg data).
  unfold ip_transmit. rewrite Hc. cbn [negb]. fold (next_hop (n_cfg n) ip).
  assert (Et : u32 (zlen data + IP_HDR_LEN) = zlen data + IP_HDR_LEN) by (apply u32_small; unfold IP_HDR_LEN; lia). rewrite !Et. clear Et.
  destruct (n_free n) as [|b fr] eqn:Ef; [cbn in Hf; lia|].
  destruct (alloc_ok B E U n (zlen data + IP_HDR_LEN) b fr N) as (n1 & ext & Ea & HB & HU & Hb0 & Hh1 & N1 & K1 & R1 & M1 & F1 & X1);
    [unfold EXT_BUF_SIZE, IP_HDR_LEN; lia | exact Ef | intros _ Hx; rewrite Hx in He; cbn in He; lia |].
  rewrite Ea. change (zlen data + IP_HDR_LEN) with (zlen data + 20) in X1, Hh1. replace (b =? NULL) with false by lia.
  assert (HbU : b ∈ {[b]} ∪ U) by (apply elem_of_union_l, elem_of_singleton_2; reflexivity). pose proof R1 as (C1 & I1 & A1 & Q1 & T1 & P1 & S1). rewrite C1, I1.
  set (room := if NET_BUF_DATA_SIZE <? zlen data + 20 then EXT_BUF_SIZE else NET_BUF_DATA_SIZE) in *.
  assert (Hroom : zlen data + 20 <= room) by (unfold room, NET_BUF_DATA_SIZE, EXT_BUF_SIZE; destruct (240 <? zlen data + 20) eqn:?; tests; lia). clearbody room.
  set (n2 := set_next_id n1 (u16 (n_next_id n + 1))). assert (N2 : net_ok B E ({[b]} ∪ U) n2) by (destruct N1; constructor; auto).
  set (h := ip_header_of (n_cfg n) (n_next_id n) ip protocol (zlen data) (check_sum (ip_header_of (n_cfg n) (n_next_id n) ip protocol (zlen data) 0))).
  change (ip_hdr _ _ _ _ _ _ _ _ (check_sum _) _ _) with h.
  assert (Hhb : byte_list h) by (apply ip_header_bytes; lia). assert (Hhl : zlen h = 20) by reflexivity.
  assert (Hh2 : holds n2 b [] room ext) by exact Hh1.
  destruct (append_fits _ _ _ _ _ _ _ _ h N2 HbU Hh2 Hhb ltac:(lia)) as (n3 & E3 & Hh3 & (N3 & K3 & R3) & [F3 X3]). rewrite E3. cbn [obind].
  destruct (append_fits _ _ _ _ _ _ _ _ data N3 HbU Hh3 Hd ltac:(lia)) as (n4 & E4 & Hh4 & (N4 & K4 & R4) & [F4 X4]). rewrite E4. cbn [obind].
  rewrite app_nil_l in Hh4. change (h ++ data) with (ip_packet (n_cfg n) (n_next_id n) ip protocol data) in Hh4.
  assert (R24 : same_rest n2 n4) by (eapply same_rest_trans; eauto). destruct R24 as (C4 & I4 & A4 & Q4 & T4 & P4 & S4). cbn in C4, I4, A4, Q4, T4, P4, S4.
  unfold lookup_cache in *. rewrite A4, A1, Hlk. pose proof Hh4 as (x & _ & _ & _ & _ & Hg). rewrite Hg. cbn [obind].
  set (pkt := ip_packet (n_cfg n) (n_next_id n) ip protocol data) in *. assert (Hpl : zlen pkt = 20 + zlen data) by apply ip_packet_length.
  rewrite union_difference_new in K3, K4 by exact HU.
  destruct (eth_transmit_ok B E ({[b]} ∪ U) n4 mac PROTO_IP pkt N4 Hm) as (n5 & E5 & S5 & N5 & K5 & R5 & [F5 X5]).
  { rewrite C4, C1. exact Ho. } { rewrite C4, C1. exact Hne. } { unfold pkt, ip_packet. apply byte_list_app; [exact Hhb | exact Hd]. }
  { unfold EXT_BUF_SIZE, ETH_HDR_LEN. lia. }
  { rewrite F4, F3. cbn. rewrite F1. intros ->. cbn in Hf. lia. }
  { intros _. rewrite X4, X3. cbn. intros Hx. rewrite Hx in X1. destruct (NET_BUF_DATA_SIZE <? zlen data + 20); destruct X1 as [_ X1]; rewrite X1 in He || rewrite <- X1 in He; cbn in He; lia. }
  rewrite E5. cbn [obind]. assert (Hh5 : holds n5 b pkt (room - zlen h - zlen data) ext) by (eapply keeps_holds; eauto).
  destruct (free_ok B E _ n5 b _ _ _ N5 HbU Hh5) as (n6 & E6 & N6 & K6 & R6 & M6 & F6 & X6). rewrite E6. rewrite union_difference_new in * by exact HU.
  destruct R6 as (C6 & I6 & A6 & Q6 & T6 & P6 & S6). destruct R5 as (C5 & I5 & A5 & Q5 & T5 & P5).
  exists n6. split; [reflexivity|]. split; [rewrite S6, S5, S4, S1, C4, C1; reflexivity|]. split; [exact N6|]. split; [|split].
  - apply (keeps_trans U n n5); [|exact K6]. apply (keeps_trans U n n4); [|eapply keeps_sub; [|exact K5]; apply union_subseteq_r].
    apply (keeps_trans U n n3); [|exact K4]. apply (keeps_trans U n n2); [exact K1 | exact K3].
  - repeat split; congruence.
  - split; [rewrite F6, F5, F4, F3; cbn; congruence|]. rewrite X6, X5, X4, X3. cbn. destruct (NET_BUF_DATA_SIZE <? zlen data + 20); destruct X1 as [X0 X1].
    + replace (ext =? NULL) with false by lia. congruence.
    + rewrite X0. exact X1.
Qed.

(** ** What comes in *)

Lemma buf_read_holds n b p q r left ext : holds n b (p ++ q ++ r) left ext -> buf_read n b (zlen p) (zlen q) = Done q.
Proof.
  intros (x & Hx & _ & _ & _ & Hg). unfold get_data, get_data_len, buf_read, get_buf in *. rewrite Hx in *. cbn in *.
  destruct (n_mem n !! area b x) as [m|]; cbn in *; [|discriminate]. rewrite Z.add_0_r in Hg.
  destruct (read_at_split _ _ _ _ Hg) as (a & c & -> & Ha & _). rewrite <- !app_assoc, app_assoc. apply read_at_app; [rewrite zlen_app; lia | reflexivity].
Qed.

Lemma buf_read_head n b q r left ext : holds n b (q ++ r) left ext -> buf_read n b 0 (zlen q) = Done q.
Proof. apply (buf_read_holds n b [] q r). Qed.

Lemma buf_write_holds B E U n b p q r left ext bytes : net_ok B E U n -> b ∈ U -> holds n b (p ++ q ++ r) left ext -> byte_list bytes -> zlen bytes = zlen q ->
  exists n', buf_write n b (zlen p) bytes = Done n' /\ holds n' b (p ++ bytes ++ r) left ext /\ local_step B E U b n n' /\ same_lists n n'.
Proof.
  intros N Hb (x & Hx & Hl & He & Hz & Hg) Hbytes Hlen. destruct (area_used _ _ _ _ _ _ N Hb Hx) as (m & Hm & Hcap & Hmb).
  rewrite (get_data_at _ _ _ _ Hx Hm) in Hg. destruct (read_at_split _ _ _ _ Hg) as (a & c & Em & Ha & Hd).
  destruct (ok_used _ _ _ _ N b Hb) as (_ & x0 & Hx0 & W & _). rewrite Hx in Hx0. injection Hx0 as <-.
  unfold buf_write, get_buf. rewrite Hx. cbn [deref obind]. rewrite Hm. cbn [deref obind].
  assert (Hw : write_at m (nb_off x + zlen p) bytes = Done ((a ++ p) ++ bytes ++ r ++ c)).
  { rewrite Em. replace (a ++ (p ++ q ++ r) ++ c) with ((a ++ p) ++ q ++ r ++ c) by (rewrite <- !app_assoc; reflexivity).
    apply write_at_split; [rewrite zlen_app; lia | lia]. }
  rewrite Hw. cbn [obind]. rewrite !zlen_app in Hz, Hd.
  assert (Hmb' : byte_list ((a ++ p) ++ bytes ++ r ++ c)).
  { rewrite Em in Hmb. apply Forall_app in Hmb as [? Hmb]. apply Forall_app in Hmb as [Hmb ?]. apply Forall_app in Hmb as [? Hmb]. apply Forall_app in Hmb as [? ?]. bytes. }
  destruct (put_buf_ok _ _ _ _ _ _ _ x ((a ++ p) ++ bytes ++ r ++ c) N Hb Hx Hm W eq_refl) as (N' & K & G); [rewrite Em, !zlen_app; lia | exact Hmb' |].
  assert (Eq : set_mem n (<[area b x:=(a ++ p) ++ bytes ++ r ++ c]> (n_mem n)) = put_buf n b x ((a ++ p) ++ bytes ++ r ++ c)).
  { unfold put_buf, set_mem, set_bufs, set_free. cbn. rewrite (insert_id _ _ _ Hx). reflexivity. }
  rewrite Eq. eexists. split; [reflexivity|]. split; [|split; [split; [exact N' | split; [exact K | apply put_buf_rest]] | split; reflexivity]].
  exists x. split; [apply lookup_insert_eq|]. split; [exact Hl|]. split; [exact He|]. split; [rewrite !zlen_app; lia|].
  rewrite G. replace ((a ++ p) ++ bytes ++ r ++ c) with (a ++ (p ++ bytes ++ r) ++ c) by (rewrite <- !app_assoc; reflexivity).
  apply read_at_app; [exact Ha | rewrite !zlen_app; lia].
Qed.

Lemma pop_holds B E U n b p q left ext : net_ok B E U n -> b ∈ U -> holds n b (p ++ q) left ext ->
  exists n', pop_front n b (zlen p) = Done (0, n') /\ holds n' b q left ext /\ local_step B E U b n n' /\ same_lists n n'.
Proof.
  intros N Hb Hh. pose proof (zlen_nonneg p). pose proof (pop_front_ok B E U n b (p ++ q) left ext (zlen p) N Hb Hh ltac:(lia)) as Hp.
  rewrite zlen_app in Hp. pose proof (zlen_nonneg q). replace (zlen p + zlen q <? zlen p) with false in Hp by lia. destruct Hp as (n' & Ep & Hh' & L & M).
  exists n'. split; [exact Ep|]. unfold zlen in Hh'. rewrite Nat2Z.id, drop_app_length in Hh'. split; [exact Hh'|]. split; [exact L|].
  unfold pop_front in Ep. ostep. destruct (_ <? _); [discriminate|]. injection Ep as <-. split; reflexivity.
Qed.

(** A header with its checksum in place sums to zero. *)
Lemma ip_header_checks cfg id ip protocol len : 0 <= protocol < 256 ->
  check_sum (ip_header_of cfg id ip protocol len (check_sum (ip_header_of cfg id ip protocol len 0))) = 0.
Proof.
  intros Hp. unfold ip_header_of, ip_hdr. change (IP_HDR_LEN / 4 + 16 * 4) with 69.
  set (pre := [69; 0] ++ le_bytes 2 (htons (u16 (len + IP_HDR_LEN))) ++ le_bytes 2 (htons id) ++ le_bytes 2 (htons 0) ++ [32; protocol]).
  set (post := le_bytes 4 (htonl (c_ipaddr cfg)) ++ le_bytes 4 (htonl ip)).
  apply (check_sum_stored pre post); [exists 5%nat; reflexivity | unfold pre; bytes | unfold post; bytes | discriminate].
Qed.

Section Delivery.
Context {S : Type}.
Context (raw_net_receive : net P -> S -> Z -> Z -> Z -> outcome (Z * net P * S)).
Context (dgram_net_receive : net P -> S -> Z -> Z -> Z -> Z -> Z -> outcome (Z * net P * S)).
Context (stream_net_receive : net P -> S -> list Z -> Z -> Z -> Z -> outcome (Z * net P * S)).

(** A frame that carries an IP packet of the host [cfg] reaches the sockets as a
    buffer that holds the packet's data and the padding of the frame. *)
Lemma ethernet_receive_ip B E U n (s : S) dst src cfg id ip protocol data :
  net_ok B E U n -> mac_wf dst -> mac_wf src -> byte_list data -> 0 <= protocol < 256 -> 0 <= c_ipaddr cfg < 2 ^ 32 ->
  zlen data <= EXT_BUF_SIZE - ETH_HDR_LEN - IP_HDR_LEN -> n_free n <> [] -> n_ext n <> [] ->
  exists n2 buf left ext,
    ethernet_receive raw_net_receive dgram_net_receive stream_net_receive n s (eth_frame dst src PROTO_IP (ip_packet cfg id ip protocol data)) =
      (let! ' (_, n, s) := raw_net_receive n2 s buf protocol (c_ipaddr cfg) in
       ip_dispatch dgram_net_receive stream_net_receive n s buf protocol (c_ipaddr cfg)) /\
    holds n2 buf (data ++ repeat 0 (Z.to_nat (26 - zlen data))) left ext /\ (buf ∉ U) /\ net_ok B E ({[buf]} ∪ U) n2 /\
    keeps U n n2 /\ same_rest n n2 /\ n_free n = buf :: n_free n2 /\ (n_ext n = n_ext n2 \/ exists e, n_ext n = e :: n_ext n2).
Proof.
  intros N [Hd1 Hd2] [Hs1 Hs2] Hd Hp Hcfg Hl Hf He. unfold ETH_HDR_LEN, EXT_BUF_SIZE, IP_HDR_LEN in Hl. pose proof (zlen_nonneg data).
  set (eh := eth_header dst src (ntohs PROTO_IP)). set (pad := repeat 0 (Z.to_nat (26 - zlen data))).
  set (ih := ip_header_of cfg id ip protocol (zlen data) (check_sum (ip_header_of cfg id ip protocol (zlen data) 0))).
  assert (Efr : eth_frame dst src PROTO_IP (ip_packet cfg id ip protocol data) = eh ++ ih ++ data ++ pad).
  { unfold eth_frame. rewrite ip_packet_length. unfold ip_packet. fold ih eh. rewrite <- !app_assoc. unfold pad. do 3 f_equal. f_equal. lia. }
  assert (Hel : zlen eh = 14) by (unfold eh, eth_header, zlen; rewrite !length_app, Hd1, Hs1; reflexivity).
  assert (Hil : zlen ih = 20) by reflexivity. assert (Hpl : zlen pad = Z.max 0 (26 - zlen data)) by (unfold pad, zlen; rewrite repeat_length; lia).
  assert (Hfb : byte_list (eh ++ ih ++ data ++ pad)) by (unfold pad; bytes; [unfold eh, eth_header; bytes | apply ip_header_bytes; lia]).
  assert (Hfl : zlen (eh ++ ih ++ data ++ pad) = 34 + zlen data + zlen pad) by (rewrite !zlen_app; lia).
  rewrite Efr. clear Efr. set (frame := eh ++ ih ++ data ++ pad) in *.
  destruct (n_free n) as [|b fr] eqn:Ef; [congruence|]. unfold ethernet_receive.
  destruct (alloc_ok B E U n (zlen frame) b fr N) as (n1 & ext & Ea & HB & HU & Hb0 & Hh1 & N1 & K1 & R1 & M1 & F1 & X1);
    [unfold EXT_BUF_SIZE; lia | exact Ef | intros _; exact He |].
  rewrite Ea. replace (b =? NULL) with false by lia. cbn [negb]. assert (HbU : b ∈ {[b]} ∪ U) by (apply elem_of_union_l, elem_of_singleton_2; reflexivity).
  set (room := if NET_BUF_DATA_SIZE <? zlen frame then EXT_BUF_SIZE else NET_BUF_DATA_SIZE) in *.
  assert (Hroom : zlen frame <= room) by (unfold room, NET_BUF_DATA_SIZE, EXT_BUF_SIZE; destruct (240 <? zlen frame) eqn:?; tests; lia). clearbody room.
  destruct (append_fits _ _ _ _ _ _ _ _ frame N1 HbU Hh1 Hfb Hroom) as (n2 & E2 & Hh2 & (N2 & K2 & R2) & [F2 X2]). rewrite E2. cbn [obind]. rewrite app_nil_l in Hh2.
  replace ETH_HDR_LEN with (zlen eh) by exact Hel. rewrite (buf_read_head n2 b eh (ih ++ data ++ pad) _ _ Hh2). cbn [obind].
  replace (drop 12 eh) with (le_bytes 2 (ntohs PROTO_IP))
    by (unfold eh, eth_header; rewrite app_assoc; symmetry; apply drop_app_length'; rewrite length_app, Hd1, Hs1; reflexivity).
  change (htons (le_value (le_bytes 2 (ntohs PROTO_IP))) =? PROTO_ARP) with false. change (htons (le_value (le_bytes 2 (ntohs PROTO_IP))) =? PROTO_IP) with true. cbn iota.
  destruct (pop_holds B E _ n2 b eh (ih ++ data ++ pad) _ _ N2 HbU Hh2) as (n3 & E3 & Hh3 & (N3 & K3 & R3) & [F3 X3]). rewrite E3. cbn [obind].
  unfold ip_receive. replace IP_HDR_LEN with (zlen ih) by exact Hil. rewrite (buf_read_head n3 b ih (data ++ pad) _ _ Hh3). cbn [obind].
  destruct (pop_holds B E _ n3 b ih (data ++ pad) _ _ N3 HbU Hh3) as (n4 & E4 & Hh4 & (N4 & K4 & R4) & [F4 X4]). rewrite E4. cbn [obind].
  unfold ih at 1. rewrite ip_header_checks by lia. cbn [negb Z.eqb].
  assert (Ez : zget ih 9 = Some protocol) by reflexivity. rewrite Ez. cbn [deref obind].
  assert (Es : take 4 (drop 12 ih) = le_bytes 4 (htonl (c_ipaddr cfg))) by reflexivity. rewrite Es, le_value_bytes. change (256 ^ Z.of_nat 4) with (2 ^ 32).
  rewrite (Z.mod_small (htonl _)) by (apply htonl_range; lia). rewrite htonl_involutive by lia.
  rewrite union_difference_new in * by exact HU. exists n4, b. do 2 eexists. split; [reflexivity|]. split; [exact Hh4|]. split; [exact HU|]. split; [exact N4|].
  split; [|split; [|split]].
  - apply (keeps_trans U n n1); [exact K1|]. apply (keeps_trans U n1 n2); [exact K2|]. apply (keeps_trans U n2 n3); [exact K3 | exact K4].
  - repeat (eapply same_rest_trans; [eassumption|]). apply same_rest_refl.
  - rewrite F4, F3, F2, F1. reflexivity.
  - rewrite X4, X3, X2. destruct (NET_BUF_DATA_SIZE <? zlen frame); destruct X1 as [_ X1]; [right; eauto | left; auto].
Qed.

(** ** Datagrams *)

Definition udp_pseudo (src_ip dst_ip len : Z) : list Z := pseudo_hdr (htonl src_ip) (htonl dst_ip) PROTO_UDP (htons len).

Definition udp_header_of (src_port dst_port len sum : Z) : list Z := udp_hdr (htons src_port) (htons dst_port) (htons len) sum.

Definition udp_sum (src_ip dst_ip src_port dst_port : Z) (data : list Z) : Z :=
  let len := zlen data + UDP_HDR_LEN in check_sum (udp_pseudo src_ip dst_ip len ++ udp_header_of src_port dst_port len 0 ++ data).

(** The datagram [udp_t::transmit] builds. *)
Definition udp_packet (src_ip dst_ip src_port dst_port : Z) (data : list Z) : list Z :=
  udp_header_of src_port dst_port (zlen data + UDP_HDR_LEN) (udp_sum src_ip dst_ip src_port dst_port data) ++ data.

Lemma udp_packet_length src_ip dst_ip src_port dst_port data : zlen (udp_packet src_ip dst_ip src_port dst_port data) = 8 + zlen data.
Proof. unfold udp_packet. rewrite zlen_app. reflexivity. Qed.

Lemma udp_packet_bytes src_ip dst_ip src_port dst_port data : byte_list data -> byte_list (udp_packet src_ip dst_ip src_port dst_port data).
Proof. intros Hd. unfold udp_packet, udp_header_of, udp_hdr. bytes. Qed.

Lemma udp_packet_checks src_ip dst_ip src_port dst_port data : byte_list data -> zlen data <= EXT_BUF_SIZE ->
  check_sum (udp_pseudo src_ip dst_ip (zlen data + UDP_HDR_LEN) ++ udp_packet src_ip dst_ip src_port dst_port data) = 0.
Proof.
  intros Hd Hl. unfold udp_packet, udp_sum. set (len := zlen data + UDP_HDR_LEN).
  set (pre := udp_pseudo src_ip dst_ip len ++ le_bytes 2 (htons src_port) ++ le_bytes 2 (htons dst_port) ++ le_bytes 2 (htons len)).
  assert (Eq : forall sum, udp_pseudo src_ip dst_ip len ++ udp_header_of src_port dst_port len sum ++ data = pre ++ le_bytes 2 sum ++ data).
  { intros sum. unfold pre, udp_header_of, udp_hdr. rewrite <- !app_assoc. reflexivity. }
  rewrite !Eq. change (le_bytes 2 0) with [0; 0]. apply check_sum_stored; auto.
  - exists 9%nat. reflexivity.
  - unfold pre, udp_pseudo, pseudo_hdr, PROTO_UDP. bytes.
  - change (zlen pre) with 18. unfold MAX_SUM_LEN. unfold EXT_BUF_SIZE in Hl. lia.
Qed.

(** Sending a datagram: one frame, and the buffer it was built in stays in use. *)
Lemma udp_transmit_ok B E U n ip src_port dst_port data mac : net_ok B E U n -> check_ip n ip = true -> lookup_cache n (next_hop (n_cfg n) ip) = Some mac ->
  mac_wf mac -> mac_wf (c_eth_addr (n_cfg n)) -> mac <> c_eth_addr (n_cfg n) -> byte_list data ->
  zlen data <= EXT_BUF_SIZE - ETH_HDR_LEN - IP_HDR_LEN - UDP_HDR_LEN -> (3 <= length (n_free n))%nat -> (3 <= length (n_ext n))%nat ->
  exists n' b, udp_transmit n ip src_port dst_port data = Done (0, n') /\
    n_sent n' = n_sent n ++ [eth_frame mac (c_eth_addr (n_cfg n)) PROTO_IP
      (ip_packet (n_cfg n) (n_next_id n) ip PROTO_UDP (udp_packet (c_ipaddr (n_cfg n)) ip src_port dst_port data))] /\
    (b ∉ U) /\ net_ok B E ({[b]} ∪ U) n' /\ keeps U n n' /\ same_host n n'.
Proof.
  intros N Hc Hlk Hm Ho Hne Hd Hl Hf He. unfold ETH_HDR_LEN, EXT_BUF_SIZE, IP_HDR_LEN, UDP_HDR_LEN in Hl. pose proof (zlen_nonneg data).
  unfold udp_transmit. assert (Et : u16 (zlen data + UDP_HDR_LEN) = zlen data + UDP_HDR_LEN) by (apply u16_small; unfold UDP_HDR_LEN; lia). rewrite !Et. clear Et.
  destruct (n_free n) as [|b fr] eqn:Ef; [cbn in Hf; lia|].
  destruct (alloc_ok B E U n (zlen data + UDP_HDR_LEN + PSEUDO_HDR_LEN) b fr N) as (n1 & ext & Ea & HB & HU & Hb0 & Hh1 & N1 & K1 & R1 & M1 & F1 & X1);
    [unfold EXT_BUF_SIZE, UDP_HDR_LEN, PSEUDO_HDR_LEN; lia | exact Ef | intros _ Hx; rewrite Hx in He; cbn in He; lia |].
  rewrite Ea. set (alen := zlen data + UDP_HDR_LEN + PSEUDO_HDR_LEN) in *. assert (Hal : alen = zlen data + 20) by (unfold alen, UDP_HDR_LEN, PSEUDO_HDR_LEN; lia).
  replace (b =? NULL) with false by lia. assert (HbU : b ∈ {[b]} ∪ U) by (apply elem_of_union_l, elem_of_singleton_2; reflexivity).
  set (room := if NET_BUF_DATA_SIZE <? alen then EXT_BUF_SIZE else NET_BUF_DATA_SIZE) in *.
  assert (Hroom : zlen data + 20 <= room) by (unfold room, NET_BUF_DATA_SIZE, EXT_BUF_SIZE; destruct (240 <? alen) eqn:?; tests; lia). clearbody room.
  set (len := zlen data + UDP_HDR_LEN) in *. set (own := c_ipaddr (n_cfg n)) in *.
  set (ps := pseudo_hdr _ _ _ _). set (h0 := udp_hdr _ _ _ 0).
  assert (Hps : zlen ps = 12) by reflexivity. assert (Hh0 : zlen h0 = 8) by reflexivity.
  assert (Bps : byte_list ps) by (unfold ps, pseudo_hdr, PROTO_UDP; bytes). assert (Bh0 : byte_list h0) by (unfold h0, udp_hdr; bytes).
  destruct (append_fits _ _ _ _ _ _ _ _ ps N1 HbU Hh1 Bps ltac:(lia)) as (n2 & E2 & Hh2 & (N2 & K2 & R2) & [F2 X2]). rewrite E2. cbn [obind].
  destruct (append_fits _ _ _ _ _ _ _ _ h0 N2 HbU Hh2 Bh0 ltac:(lia)) as (n3 & E3 & Hh3 & (N3 & K3 & R3) & [F3 X3]). rewrite E3. cbn [obind].
  destruct (append_fits _ _ _ _ _ _ _ _ data N3 HbU Hh3 Hd ltac:(lia)) as (n4 & E4 & Hh4 & (N4 & K4 & R4) & [F4 X4]). rewrite E4. cbn [obind].
  rewrite app_nil_l, <- app_assoc in Hh4. pose proof Hh4 as (x & _ & _ & _ & _ & Hg). rewrite Hg. cbn [obind].
  assert (Hsum : check_sum (ps ++ h0 ++ data) = udp_sum own ip src_port dst_port data) by reflexivity. rewrite Hsum. set (sum := udp_sum own ip src_port dst_port data) in *.
  set (p6 := ps ++ le_bytes 2 (htons src_port) ++ le_bytes 2 (htons dst_port) ++ le_bytes 2 (htons len)).
  assert (Hh4' : holds n4 b (p6 ++ le_bytes 2 0 ++ data) (room - zlen ps - zlen h0 - zlen data) ext) by exact Hh4.
  destruct (buf_write_holds B E _ n4 b p6 (le_bytes 2 0) data _ _ (le_bytes 2 sum) N4 HbU Hh4' (le_bytes_byte_list _ _) eq_refl) as (n5 & E5 & Hh5 & (N5 & K5 & R5) & [F5 X5]).
  change (zlen p6) with (PSEUDO_HDR_LEN + 6) in E5. rewrite E5. cbn [obind].
  set (dg := udp_packet own ip src_port dst_port data).
  assert (Hh5' : holds n5 b (ps ++ dg) (room - zlen ps - zlen h0 - zlen data) ext) by exact Hh5.
  destruct (pop_holds B E _ n5 b ps dg _ _ N5 HbU Hh5') as (n6 & E6 & Hh6 & (N6 & K6 & R6) & [F6 X6]). change (zlen ps) with PSEUDO_HDR_LEN in E6. rewrite E6. cbn [obind].
  pose proof Hh6 as (x6 & _ & _ & _ & _ & Hg6). rewrite Hg6. cbn [obind].
  assert (Rall : same_rest n n6) by (repeat (eapply same_rest_trans; [eassumption|]); apply same_rest_refl). destruct Rall as (C & I & A & Q & T & Pl & Sn).
  destruct (ip_transmit_ok B E ({[b]} ∪ U) n6 ip dg PROTO_UDP mac N6) as (n7 & E7 & S7 & N7 & K7 & H7 & L7).
  { unfold check_ip, is_broadcast in *. rewrite C. exact Hc. } { unfold lookup_cache in *. rewrite A, C. exact Hlk. } { exact Hm. } { rewrite C. exact Ho. } { rewrite C. exact Hne. }
  { apply udp_packet_bytes, Hd. } { unfold PROTO_UDP. lia. } { unfold dg. rewrite udp_packet_length. unfold EXT_BUF_SIZE, ETH_HDR_LEN, IP_HDR_LEN. lia. }
  { rewrite F6, F5, F4, F3, F2, F1. cbn in Hf. lia. }
  { rewrite X6, X5, X4, X3, X2. destruct (NET_BUF_DATA_SIZE <? alen); destruct X1 as [_ X1]; rewrite X1 in *; cbn in He; lia. }
  rewrite E7. cbn [obind]. exists n7, b. split; [reflexivity|]. rewrite S7, Sn, C, I. split; [reflexivity|]. split; [exact HU|]. split; [exact N7|].
  rewrite union_difference_new in * by exact HU. split.
  - apply (keeps_trans U n n6); [|eapply keeps_sub; [apply union_subseteq_r | exact K7]].
    apply (keeps_trans U n n1); [exact K1|]. apply (keeps_trans U n1 n2); [exact K2|]. apply (keeps_trans U n2 n3); [exact K3|].
    apply (keeps_trans U n3 n4); [exact K4|]. apply (keeps_trans U n4 n5); [exact K5 | exact K6].
  - destruct H7 as (? & ? & ? & ? & ?). repeat split; congruence.
Qed.

Lemma le_value_htons v : 0 <= v < 2 ^ 16 -> ntohs (le_value (le_bytes 2 (htons v))) = v.
Proof.
  intros Hv. rewrite le_value_bytes. change (256 ^ Z.of_nat 2) with (2 ^ 16). rewrite Z.mod_small by (apply htons_range, Hv). apply htons_involutive, Hv.
Qed.

(** A datagram for this host, with the padding of its frame behind it, is handed to
    the sockets without its header. *)
Lemma udp_receive_ok B E U n (s : S) buf src_ip src_port dst_port data pad left ext :
  net_ok B E U n -> buf ∈ U -> holds n buf (udp_packet src_ip (c_ipaddr (n_cfg n)) src_port dst_port data ++ pad) left ext ->
  byte_list data -> 0 <= src_port < 2 ^ 16 -> 0 <= dst_port < 2 ^ 16 -> zlen data + zlen pad <= EXT_BUF_SIZE - UDP_HDR_LEN - PSEUDO_HDR_LEN ->
  n_free n <> [] -> n_ext n <> [] ->
  exists n', udp_receive dgram_net_receive n s buf src_ip = dgram_net_receive n' s buf src_ip src_port (c_ipaddr (n_cfg n)) dst_port /\
    holds n' buf (data ++ pad) left ext /\ net_ok B E U n' /\ keeps (U ∖ {[buf]}) n n' /\ same_rest n n' /\ same_lists n n'.
Proof.
  intros N Hbuf Hh Hd Hsp Hdp Hl Hf He. unfold EXT_BUF_SIZE, UDP_HDR_LEN, PSEUDO_HDR_LEN in Hl. pose proof (zlen_nonneg data). pose proof (zlen_nonneg pad).
  set (own := c_ipaddr (n_cfg n)) in *. set (len := zlen data + UDP_HDR_LEN). assert (Hlen : len = zlen data + 8) by reflexivity.
  set (h := udp_header_of src_port dst_port len (udp_sum src_ip own src_port dst_port data)). assert (Hhl : zlen h = 8) by reflexivity.
  assert (Hh0 : holds n buf (h ++ data ++ pad) left ext) by (unfold udp_packet in Hh; rewrite <- app_assoc in Hh; exact Hh).
  unfold udp_receive. change UDP_HDR_LEN with (zlen h) at 1. rewrite (buf_read_head _ _ _ _ _ _ Hh0). cbn [obind].
  change (take 2 (drop 4 h)) with (le_bytes 2 (htons len)). rewrite le_value_htons by lia.
  change (take 2 h) with (le_bytes 2 (htons src_port)). change (take 2 (drop 2 h)) with (le_bytes 2 (htons dst_port)). rewrite !le_value_htons by lia.
  pose proof Hh0 as (x & Hx & _ & _ & Hz & _). unfold get_data_len, get_buf at 1. rewrite Hx. cbn [deref obind]. rewrite Hz.
  assert (Hzl : zlen (h ++ data ++ pad) = 8 + zlen data + zlen pad) by (rewrite !zlen_app; lia). rewrite Hzl. unfold PSEUDO_HDR_LEN. rewrite u32_small by lia.
  destruct (n_free n) as [|b fr] eqn:Ef; [congruence|]. set (alen := 12 + (8 + zlen data + zlen pad)).
  destruct (alloc_ok B E U n alen b fr N) as (n1 & ext1 & Ea & HB & HU & Hb0 & Hh1 & N1 & K1 & R1 & M1 & F1 & X1);
    [unfold EXT_BUF_SIZE, alen; lia | exact Ef | intros _; exact He |].
  rewrite Ea. replace (b =? NULL) with false by lia. assert (HbU : b ∈ {[b]} ∪ U) by (apply elem_of_union_l, elem_of_singleton_2; reflexivity).
  set (room := if NET_BUF_DATA_SIZE <? alen then EXT_BUF_SIZE else NET_BUF_DATA_SIZE) in *.
  assert (Hroom : zlen data + 20 <= room) by (unfold room, NET_BUF_DATA_SIZE, EXT_BUF_SIZE; destruct (240 <? alen) eqn:?; unfold alen in *; tests; lia). clearbody room.
  fold own. assert (Eps : pseudo_hdr (htonl src_ip) (htonl own) PROTO_UDP (htons len) = udp_pseudo src_ip own len) by reflexivity. rewrite Eps. clear Eps.
  set (ps := udp_pseudo src_ip own len). assert (Hps : zlen ps = 12) by reflexivity.
  assert (Bps : byte_list ps) by (unfold ps, udp_pseudo, pseudo_hdr, PROTO_UDP; bytes).
  destruct (append_fits _ _ _ _ _ _ _ _ ps N1 HbU Hh1 Bps ltac:(lia)) as (n2 & E2 & Hh2 & (N2 & K2 & R2) & [F2 X2]). rewrite E2. cbn [obind].
  pose proof Hh2 as (x2 & Hx2 & Hl2 & _). unfold get_buf at 1. rewrite Hx2. cbn [deref obind]. rewrite Hl2. replace (room - zlen ps <? len) with false by lia.
  rewrite union_difference_new in * by exact HU.
  assert (Hh2' : holds n2 buf ((h ++ data) ++ pad) left ext).
  { rewrite <- app_assoc. eapply keeps_holds; [exact K2 | exact Hbuf|]. eapply keeps_holds; [exact K1 | exact Hbuf | exact Hh0]. }
  assert (Hdg : zlen (h ++ data) = len) by (rewrite zlen_app; lia). pose proof (buf_read_head _ _ _ _ _ _ Hh2') as Hrd. rewrite Hdg in Hrd. rewrite Hrd. cbn [obind].
  assert (Bh : byte_list (h ++ data)) by (apply (udp_packet_bytes src_ip own src_port dst_port data Hd)).
  destruct (append_fits _ _ _ _ _ _ _ _ (h ++ data) N2 HbU Hh2 Bh ltac:(lia)) as (n3 & E3 & Hh3 & (N3 & K3 & R3) & [F3 X3]). rewrite E3. cbn [obind].
  rewrite app_nil_l in Hh3. pose proof Hh3 as (x3 & _ & _ & _ & _ & Hg3). rewrite Hg3. cbn [obind].
  destruct (free_ok B E _ n3 b _ _ _ N3 HbU Hh3) as (n4 & E4 & N4 & K4 & R4 & M4 & F4 & X4). rewrite E4. cbn [obind]. rewrite union_difference_new in * by exact HU.
  assert (Hck : check_sum (ps ++ h ++ data) = 0) by (apply udp_packet_checks; [exact Hd | unfold EXT_BUF_SIZE; lia]). rewrite Hck. cbn [negb Z.eqb].
  assert (Hh4 : holds n4 buf (h ++ data ++ pad) left ext).
  { rewrite app_assoc. eapply keeps_holds; [exact K4 | exact Hbuf|]. eapply keeps_holds; [exact K3 | exact Hbuf | exact Hh2']. }
  destruct (pop_holds B E U n4 buf h (data ++ pad) _ _ N4 Hbuf Hh4) as (n5 & E5 & Hh5 & (N5 & K5 & R5) & [F5 X5]). change (zlen h) with UDP_HDR_LEN in E5. rewrite E5. cbn [obind].
  assert (Rall : same_rest n n5) by (repeat (eapply same_rest_trans; [eassumption|]); apply same_rest_refl). pose proof Rall as (C & _). rewrite C.
  exists n5. split; [reflexivity|]. split; [exact Hh5|]. split; [exact N5|]. split; [|split; [exact Rall|]].
  - assert (Hsub : U ∖ {[buf]} ⊆ U) by apply subseteq_difference_l, reflexivity.
    apply (keeps_trans _ n n4); [|exact K5]. eapply keeps_sub; [exact Hsub|]. apply (keeps_trans U n n1); [exact K1|]. apply (keeps_trans U n1 n2); [exact K2|].
    apply (keeps_trans U n2 n3); [exact K3 | exact K4].
  - split; [rewrite F5, F4, F3, F2, F1; congruence|]. rewrite X5, X4, X3, X2. destruct (NET_BUF_DATA_SIZE <? alen); destruct X1 as [X0 X1].
    + replace (ext1 =? NULL) with false by lia. congruence.
    + rewrite X0. exact X1.
Qed.
End Delivery.
End Transmit.

(** ** Delivery *)

(** A host with its addresses set and buffers to spare. *)
Record ready {P} `{ObjectPool P} (B E U : gset Z) (n : net P) : Prop := {
  rd_ok : net_ok B E U n;
  rd_mac : mac_wf (c_eth_addr (n_cfg n));
  rd_ip : 0 <= c_ipaddr (n_cfg n) < 2 ^ 32;
  rd_free : (3 <= length (n_free n))%nat;
  rd_ext : (3 <= length (n_ext n))%nat
}.

(** A datagram arrives.  When [a] sends data to [b], whose link address it has in
    its ARP cache, one frame goes out; when [b] receives that frame, both checksums
    agree and its sockets get the data from [a]'s address and port for [b]'s port, with
    the zeros that filled the frame up to 46 bytes behind data of less than 18 bytes. *)
Lemma udp_delivers {P S} `{ObjectPool P} raw dgram stream B1 E1 U1 (a : net P) B2 E2 U2 (b : net P) (s : S) src_port dst_port data :
  ready B1 E1 U1 a -> ready B2 E2 U2 b -> (forall n buf ip, raw n s buf PROTO_UDP ip = Done (-1, n, s)) ->
  check_ip a (c_ipaddr (n_cfg b)) = true -> lookup_cache a (next_hop (n_cfg a) (c_ipaddr (n_cfg b))) = Some (c_eth_addr (n_cfg b)) ->
  c_eth_addr (n_cfg b) <> c_eth_addr (n_cfg a) -> byte_list data -> zlen data <= 2006 -> 0 <= src_port < 2 ^ 16 -> 0 <= dst_port < 2 ^ 16 ->
  exists a' frame b' buf left ext,
    udp_transmit a (c_ipaddr (n_cfg b)) src_port dst_port data = Done (0, a') /\ n_sent a' = n_sent a ++ [frame] /\
    ethernet_receive raw dgram stream b s frame =
      (let! ' (r, n, s) := dgram b' s buf (c_ipaddr (n_cfg a)) src_port (c_ipaddr (n_cfg b)) dst_port in
       let! n := free_if_zero n r buf in Done (n, s)) /\
    holds b' buf (data ++ repeat 0 (Z.to_nat (18 - zlen data))) left ext /\ net_ok B2 E2 ({[buf]} ∪ U2) b' /\ keeps U2 b b' /\ (buf ∉ U2).
Proof.
  intros [Na Ma Ia Fa Xa] [Nb Mb Ib Fb Xb] Hraw Hc Hlk Hne Hd Hl Hsp Hdp. set (ipb := c_ipaddr (n_cfg b)) in *.
  destruct (udp_transmit_ok B1 E1 U1 a ipb src_port dst_port data _ Na Hc Hlk Mb Ma Hne Hd) as (a' & ab & Et & Hs & _); [exact Hl | exact Fa | exact Xa |].
  set (dg := udp_packet (c_ipaddr (n_cfg a)) ipb src_port dst_port data) in *. assert (Hdl : zlen dg = 8 + zlen data) by apply udp_packet_length.
  destruct (ethernet_receive_ip raw dgram stream B2 E2 U2 b s (c_eth_addr (n_cfg b)) (c_eth_addr (n_cfg a)) (n_cfg a) (n_next_id a) ipb PROTO_UDP dg Nb Mb Ma)
    as (b2 & buf & left & ext & Er & Hh & HU & N2 & K2 & R2 & F2 & X2);
    [apply udp_packet_bytes, Hd | unfold PROTO_UDP; lia | exact Ia | rewrite Hdl; unfold EXT_BUF_SIZE, ETH_HDR_LEN, IP_HDR_LEN; lia
    | intros Hx; rewrite Hx in Fb; cbn in Fb; lia | intros Hx; rewrite Hx in Xb; cbn in Xb; lia |].
  pose proof R2 as (C2 & _). assert (Eip : c_ipaddr (n_cfg b2) = ipb) by (rewrite C2; reflexivity).
  destruct (udp_receive_ok dgram B2 E2 ({[buf]} ∪ U2) b2 s buf (c_ipaddr (n_cfg a)) src_port dst_port data (repeat 0 (Z.to_nat (26 - zlen dg))) left ext N2)
    as (b3 & Eu & Hh3 & N3 & K3 & R3 & _).
  - apply elem_of_union_l, elem_of_singleton_2. reflexivity.
  - rewrite Eip. exact Hh.
  - exact Hd.
  - exact Hsp.
  - exact Hdp.
  - unfold zlen at 2. rewrite repeat_length. unfold EXT_BUF_SIZE, UDP_HDR_LEN, PSEUDO_HDR_LEN. lia.
  - intros Hx. rewrite F2, Hx in Fb. cbn in Fb. lia.
  - intros Hx. rewrite Hx in X2. destruct X2 as [X2 | [e X2]]; rewrite X2 in Xb; cbn in Xb; lia.
  - eexists a', _, b3, buf, left, ext. split; [exact Et|]. split; [exact Hs|]. rewrite Er, Hraw. cbn [obind]. unfold ip_dispatch.
    change (PROTO_UDP =? PROTO_RAW) with false. change (PROTO_UDP =? PROTO_ICMP) with false. change (PROTO_UDP =? PROTO_UDP) with true. cbn iota.
    rewrite Eu, Eip. split; [reflexivity|]. rewrite Hdl in Hh3. replace (26 - (8 + zlen data)) with (18 - zlen data) in Hh3 by lia.
    rewrite union_difference_new in K3 by exact HU. split; [exact Hh3|]. split; [exact N3|]. split; [eapply keeps_trans; eassumption | exact HU].
Qed.

Lemma host_ready cfg cache : mac_wf (c_eth_addr cfg) -> 0 <= c_ipaddr cfg < 2 ^ 32 ->
  ready (list_to_set host_bufs) (list_to_set host_exts) ∅ (host_net cfg cache).
Proof. intros Hm Hi. constructor; [apply host_net_ok | exact Hm | exact Hi | cbn; lia | cbn; lia]. Qed.

Definition no_raw {P} (n : net P) (s : unit) (buf p ip : Z) : outcome (Z * net P * unit) := Done (-1, n, s).
Definition take_dgram {P} (n : net P) (s : unit) (buf src_ip src_port dst_ip dst_port : Z) : outcome (Z * net P * unit) := Done (-1, n, s).
Definition no_stream {P} (n : net P) (s : unit) (hdr : list Z) (buf src_ip dst_ip : Z) : outcome (Z * net P * unit) := Done (-1, n, s).

Definition sender : net (object_pool * Z) := host_net host_a [(c_ipaddr host_b, c_eth_addr host_b)].
Definition receiver : net (object_pool * Z) := host_net host_b [].
