(* ===== verification/Arp.v ===== *)
(** * Address resolution (src/src/arp.cc with timer_mgr.cc)

    Packets wait in a queue for the link address of their next hop.  The theorems
    follow a node of the queue to its two ends: the reply that sends its packets out,
    and the timeout that gives up after the last retry. *)
From Stdlib Require Import ZArith ZifyBool Lia.
From stdpp Require Import base option list gmap.
From S2P Require Import Prelude Interfaces Pool Timer Checksum Net Ip.

Section Arp.
Context {P : Type} `{ObjectPool P}.
Implicit Types (n : net P) (ip : Z).

(** [arp_timeout], called by the timer manager: the only function of a timer here. *)
Definition net_call (f data : Z) (n : net P) : outcome (net P) := if f =? arp_timeout_fn then request_timeout n data else Fault.

Definition set_timers (m : timer_mgr) n : net P := set_arp n (n_cache n) (n_queue n) m (n_pool n).

(** A clock tick. *)
Definition net_tick (fuel : nat) (n : net P) : option (outcome (net P)) := timer_mgr_update n_timers set_timers net_call fuel n.

(** [n] timeouts of the request for [ip], with no reply in between. *)
Fixpoint timeouts (k : nat) n ip : outcome (net P) :=
  match k with
  | O => Done n
  | S k => let! n := request_timeout n ip in timeouts k n ip
  end.

Definition request_frame (cfg : config) ip : list Z :=
  eth_frame broadcast_mac_addr (c_eth_addr cfg) PROTO_ARP
    (arp_header (ntohs 1) (ntohs PROTO_IP) 6 4 (ntohs ARP_OP_REQUEST) (c_eth_addr cfg) (ntohl (c_ipaddr cfg)) empty_mac_addr (ntohl ip)).

Lemma arp_header_bytes a b c d o s1 s2 t1 t2 : 0 <= c < 256 -> 0 <= d < 256 -> byte_list s1 -> byte_list t1 -> byte_list (arp_header a b c d o s1 s2 t1 t2).
Proof. intros. unfold arp_header. bytes. Qed.

Lemma arp_header_length a b c d o s1 s2 t1 t2 : length s1 = 6%nat -> length t1 = 6%nat -> zlen (arp_header a b c d o s1 s2 t1 t2) = 28.
Proof. intros H1 H2. unfold arp_header, zlen. rewrite !length_app, !le_bytes_length, H1, H2. reflexivity. Qed.

Lemma broadcast_wf : mac_wf broadcast_mac_addr.
Proof. split; [reflexivity | unfold broadcast_mac_addr; cbn [repeat]; bytes]. Qed.

Lemma arp_request_ok B E U n ip : net_ok B E U n -> mac_wf (c_eth_addr (n_cfg n)) -> broadcast_mac_addr <> c_eth_addr (n_cfg n) ->
  (2 <= length (n_free n))%nat ->
  exists n', arp_request n ip = Done n' /\ n_sent n' = n_sent n ++ [request_frame (n_cfg n) ip] /\
    net_ok B E U n' /\ keeps U n n' /\ same_but_sent n n' /\ same_lists n n'.
Proof.
  intros N Hm Hne Hf. unfold arp_request. destruct (n_free n) as [|b fr] eqn:Ef; [cbn in Hf; lia|].
  destruct (alloc_ok B E U n ARP_HDR_LEN b fr N) as (n1 & ext & Ea & HB & HU & Hb0 & Hh1 & N1 & K1 & R1 & M1 & F1 & X1);
    [unfold ARP_HDR_LEN, EXT_BUF_SIZE; lia | exact Ef | unfold NET_BUF_DATA_SIZE, ARP_HDR_LEN; lia |].
  rewrite Ea. replace (b =? NULL) with false by lia. cbn [negb]. assert (HbU : b ∈ {[b]} ∪ U) by (apply elem_of_union_l, elem_of_singleton_2; reflexivity).
  change (NET_BUF_DATA_SIZE <? ARP_HDR_LEN) with false in Hh1, X1. cbn iota in Hh1, X1. destruct X1 as [-> X1].
  set (h := arp_header _ _ _ _ _ _ _ _ _). destruct Hm as [Hm1 Hm2].
  assert (Bh : byte_list h) by (apply arp_header_bytes; [lia | lia | exact Hm2 | apply byte_list_zeros]).
  assert (Lh : zlen h = 28) by (apply arp_header_length; [exact Hm1 | reflexivity]).
  destruct (append_fits _ _ _ _ _ _ _ _ h N1 HbU Hh1 Bh ltac:(unfold NET_BUF_DATA_SIZE; lia)) as (n2 & E2 & Hh2 & (N2 & K2 & R2) & [F2 X2]). rewrite E2. cbn [obind].
  rewrite app_nil_l in Hh2. pose proof Hh2 as (x & _ & _ & _ & _ & Hg). rewrite Hg. cbn [obind].
  assert (R12 : same_rest n n2) by (eapply same_rest_trans; eauto). destruct R12 as (C & I & A & Q & T & Pl & Sn). rewrite union_difference_new in * by exact HU.
  destruct (eth_transmit_ok B E ({[b]} ∪ U) n2 broadcast_mac_addr PROTO_ARP h N2 broadcast_wf) as (n3 & E3 & S3 & N3 & K3 & R3 & [F3 X3]).
  { rewrite C. split; assumption. } { rewrite C. exact Hne. } { exact Bh. } { rewrite Lh. unfold EXT_BUF_SIZE, ETH_HDR_LEN. lia. }
  { rewrite F2, F1. intros ->. cbn in Hf. lia. } { rewrite Lh. unfold NET_BUF_DATA_SIZE, ETH_HDR_LEN. lia. }
  rewrite E3. cbn [obind]. assert (Hh3 : holds n3 b h (NET_BUF_DATA_SIZE - zlen h) NULL) by (eapply keeps_holds; eauto).
  destruct (free_ok B E _ n3 b _ _ _ N3 HbU Hh3) as (n4 & E4 & N4 & K4 & R4 & M4 & F4 & X4). rewrite E4. rewrite union_difference_new in * by exact HU.
  destruct R3 as (C3 & I3 & A3 & Q3 & T3 & P3). destruct R4 as (C4 & I4 & A4 & Q4 & T4 & P4 & S4).
  exists n4. split; [reflexivity|]. split; [rewrite S4, S3, Sn, C; reflexivity|]. split; [exact N4|]. split; [|split].
  - apply (keeps_trans U n n1); [exact K1|]. apply (keeps_trans U n1 n2); [exact K2|]. apply (keeps_trans U n2 n3); [|exact K4].
    eapply keeps_sub; [apply union_subseteq_r | exact K3].
  - repeat split; congruence.
  - split; [rewrite F4, F3, F2; congruence | rewrite X4, X3, X2; exact X1].
Qed.

(** The node for [ip] is where the loops find it. *)
Definition node_at (q a : list arp_node) (x : arp_node) (b : list arp_node) ip : Prop :=
  q = a ++ x :: b /\ an_ip x = ip /\ Forall (fun y => an_ip y <> ip) a.

Lemma queue_split_at q a x b ip : node_at q a x b ip -> queue_split ip q = Some (a, x, b).
Proof.
  intros (-> & Hx & Ha). induction Ha as [|y a Hy Ha IH]; cbn; [replace (an_ip x =? ip) with true by lia; reflexivity|].
  replace (an_ip y =? ip) with false by lia. rewrite IH. reflexivity.
Qed.

(** Giving up: every waiting buffer is freed. *)
Lemma free_waiting_ok B E bufs : forall U n, net_ok B E U n -> NoDup bufs -> (forall b, b ∈ bufs -> b ∈ U) ->
  exists n', free_waiting n bufs = Done n' /\ net_ok B E (U ∖ list_to_set bufs) n' /\ keeps (U ∖ list_to_set bufs) n n' /\ same_rest n n'.
Proof.
  induction bufs as [|b bufs IH]; intros U n N Hn Hin; cbn [free_waiting].
  - exists n. replace (U ∖ list_to_set []) with U by (apply set_eq; intros; rewrite elem_of_difference; set_solver). split; [reflexivity|].
    split; [exact N|]. split; [intros c Hc; auto | apply same_rest_refl].
  - apply NoDup_cons in Hn as [Hb Hn]. assert (HbU : b ∈ U) by (apply Hin; left). destruct (used_holds _ _ _ _ _ N HbU) as (x & d & _ & Hh).
    destruct (free_ok _ _ _ _ _ _ _ _ N HbU Hh) as (n1 & E1 & N1 & K1 & R1 & _). rewrite E1. cbn [obind].
    destruct (IH (U ∖ {[b]}) n1 N1 Hn) as (n2 & E2 & N2 & K2 & R2).
    { intros c Hc. apply elem_of_difference. split; [apply Hin; right; exact Hc | rewrite elem_of_singleton; intros ->; contradiction]. }
    assert (EU : U ∖ list_to_set (b :: bufs) = U ∖ {[b]} ∖ list_to_set bufs) by (rewrite list_to_set_cons, difference_difference_l_L; reflexivity).
    rewrite EU. exists n2. split; [exact E2|]. split; [exact N2|]. split; [|eapply same_rest_trans; eauto].
    eapply keeps_trans; [|exact K2]. eapply keeps_sub; [|exact K1]. apply subseteq_difference_l. reflexivity.
Qed.

(** A reply: every waiting packet goes out, in order, and its buffer is freed. *)
Lemma send_waiting_ok B E mac bufs : forall U n ds, net_ok B E U n -> NoDup bufs -> (forall b, b ∈ bufs -> b ∈ U) ->
  Forall2 (fun b d => exists left ext, holds n b d left ext /\ byte_list d /\ zlen d <= EXT_BUF_SIZE - ETH_HDR_LEN) bufs ds ->
  mac_wf mac -> mac_wf (c_eth_addr (n_cfg n)) -> mac <> c_eth_addr (n_cfg n) -> n_free n <> [] -> n_ext n <> [] ->
  exists n', send_waiting n mac bufs = Done n' /\ n_sent n' = n_sent n ++ (eth_frame mac (c_eth_addr (n_cfg n)) PROTO_IP <$> ds) /\
    net_ok B E (U ∖ list_to_set bufs) n' /\ keeps (U ∖ list_to_set bufs) n n' /\ same_but_sent n n'.
Proof.
  induction bufs as [|b bufs IH]; intros U n ds N Hn Hin Hds Hm Ho Hne Hf He; cbn [send_waiting].
  - apply Forall2_nil_inv_l in Hds as ->. exists n. replace (U ∖ list_to_set []) with U by (apply set_eq; intros; rewrite elem_of_difference; set_solver).
    cbn. rewrite app_nil_r. split; [reflexivity|]. split; [reflexivity|]. split; [exact N|]. split; [intros c Hc; auto | repeat split].
  - apply Forall2_cons_inv_l in Hds as (d & ds' & (left & ext & Hh & Hd & Hl) & Hds & ->). apply NoDup_cons in Hn as [Hb Hn]. assert (HbU : b ∈ U) by (apply Hin; left).
    pose proof Hh as (x & _ & _ & _ & _ & Hg). rewrite Hg. cbn [obind].
    destruct (eth_transmit_ok B E U n mac PROTO_IP d N Hm Ho Hne Hd Hl Hf) as (n1 & E1 & S1 & N1 & K1 & R1 & [F1 X1]); [auto|]. rewrite E1. cbn [obind].
    assert (Hh1 : holds n1 b d left ext) by (eapply keeps_holds; eauto).
    destruct (free_ok _ _ _ _ _ _ _ _ N1 HbU Hh1) as (n2 & E2 & N2 & K2 & R2 & _ & F2 & X2). rewrite E2. cbn [obind].
    destruct R1 as (C1 & I1 & A1 & Q1 & T1 & P1). destruct R2 as (C2 & I2 & A2 & Q2 & T2 & P2 & S2).
    assert (EU : U ∖ list_to_set (b :: bufs) = U ∖ {[b]} ∖ list_to_set bufs) by (rewrite list_to_set_cons, difference_difference_l_L; reflexivity).
    destruct (IH (U ∖ {[b]}) n2 ds' N2 Hn) as (n3 & E3 & S3 & N3 & K3 & R3).
    { intros c Hc. apply elem_of_difference. split; [apply Hin; right; exact Hc | rewrite elem_of_singleton; intros ->; contradiction]. }
    { apply Forall2_lookup. intros i. pose proof (proj1 (Forall2_lookup _ _ _) Hds i) as Hi. destruct (bufs !! i) as [c|] eqn:Ec, (ds' !! i) as [dc|]; inversion Hi; subst; constructor.
      match goal with Hq : exists left ext, _ |- _ => destruct Hq as (lc & ec & Hc & Hdc & Hlc) end. exists lc, ec. split; [|auto].
      assert (Hcin : c ∈ bufs) by (eapply list_elem_of_lookup_2, Ec). assert (c ∈ U) by (apply Hin; right; exact Hcin).
      eapply keeps_holds; [exact K2 | apply elem_of_difference; split; [assumption | rewrite elem_of_singleton; intros ->; contradiction]|].
      eapply keeps_holds; [exact K1 | assumption | exact Hc]. }
    { exact Hm. } { rewrite C2, C1. exact Ho. } { rewrite C2, C1. exact Hne. } { rewrite F2. discriminate. } { rewrite X2, X1. destruct (ext =? NULL); [exact He | discriminate]. }
    exists n3. split; [exact E3|]. split; [rewrite S3, S2, S1, C2, C1, <- app_assoc; reflexivity|]. rewrite EU. split; [exact N3|]. split.
    + eapply keeps_trans; [|exact K3]. eapply keeps_sub; [|eapply keeps_trans; [eapply keeps_sub; [|exact K1] | exact K2]];
        [apply subseteq_difference_l; reflexivity | apply subseteq_difference_l; reflexivity].
    + destruct R3 as (C3 & I3 & A3 & Q3 & T3 & P3). repeat split; congruence.
Qed.

Lemma drop_first_spec t l : NoDup l -> NoDup (drop_first t l) /\ (t ∉ drop_first t l) /\ (forall u, u ∈ drop_first t l -> u ∈ l).
Proof.
  induction l as [|x l IH]; intros Hn; cbn; [split; [constructor|]; split; [apply not_elem_of_nil | auto]|]. apply NoDup_cons in Hn as [Hx Hn].
  destruct (x =? t) eqn:Et; tests; [subst x; split; [exact Hn|]; split; [exact Hx | intros u Hu; right; exact Hu]|]. destruct (IH Hn) as (H1 & H2 & H3). split; [|split].
  - apply NoDup_cons. split; [intros Hq; apply Hx, H3, Hq | exact H1].
  - intros Hq. apply elem_of_cons in Hq as [-> | Hq]; [lia | contradiction].
  - intros u Hu. apply elem_of_cons in Hu as [-> | Hu]; [left | right; apply H3, Hu].
Qed.

(** A request that is not answered: it is repeated until the retries are used up. *)
Lemma timeouts_ok B E ip a b : forall r U n x, net_ok B E U n -> mac_wf (c_eth_addr (n_cfg n)) -> broadcast_mac_addr <> c_eth_addr (n_cfg n) ->
  (2 <= length (n_free n))%nat -> node_at (n_queue n) a x b ip -> an_retry x = Z.of_nat r -> Z.of_nat r < 2 ^ 32 ->
  NoDup (an_bufs x) -> (forall c, c ∈ an_bufs x -> c ∈ U) -> NoDup (tm_list (n_timers n)) ->
  exists n', timeouts (S r) n ip = Done n' /\ n_queue n' = a ++ b /\ n_sent n' = n_sent n ++ repeat (request_frame (n_cfg n) ip) r /\
    net_ok B E (U ∖ list_to_set (an_bufs x)) n' /\ (an_timer x ∉ tm_list (n_timers n')).
Proof.
  induction r as [|r IH]; intros U n x N Hm Hne Hf Hq Hr Hb Hn Hin Ht; cbn [timeouts].
  - unfold request_timeout at 1. rewrite (queue_split_at _ _ _ _ _ Hq), Hr. change (0 <? Z.of_nat 0) with false. cbn iota.
    set (n1 := set_arp n _ _ _ _). assert (N1 : net_ok B E U n1) by (destruct N; constructor; auto).
    destruct (free_waiting_ok B E (an_bufs x) U n1 N1 Hn Hin) as (n2 & E2 & N2 & K2 & R2). rewrite E2. cbn [obind].
    destruct R2 as (C2 & I2 & A2 & Q2 & T2 & P2 & S2).
    eexists. split; [reflexivity|]. split; [reflexivity|]. split; [cbn; rewrite S2, app_nil_r; reflexivity|]. split; [destruct N2; constructor; auto|].
    cbn. rewrite T2. cbn. apply drop_first_spec, Ht.
  - unfold request_timeout at 1. rewrite (queue_split_at _ _ _ _ _ Hq), Hr. replace (0 <? Z.of_nat (S r)) with true by lia.
    replace (u32 (Z.of_nat (S r) - 1)) with (Z.of_nat r) by (rewrite u32_small; lia).
    set (y := mk_anode (an_ip x) (Z.of_nat r) (an_timer x) (an_bufs x)). set (n1 := set_arp n _ _ _ _).
    assert (N1 : net_ok B E U n1) by (destruct N; constructor; auto).
    destruct (arp_request_ok B E U n1 ip N1 Hm Hne Hf) as (n2 & E2 & S2 & N2 & K2 & (C2 & I2 & A2 & Q2 & T2 & P2) & [F2 X2]). rewrite E2. cbn [obind].
    destruct Hq as (Eq & Hip & Hall). destruct (IH U n2 y N2) as (n3 & E3 & Q3 & S3 & N3 & T3).
    { rewrite C2. exact Hm. } { rewrite C2. exact Hne. } { rewrite F2. exact Hf. } { rewrite Q2. split; [reflexivity|]. split; [exact Hip | exact Hall]. }
    { reflexivity. } { lia. } { exact Hn. } { exact Hin. }
    { rewrite T2. cbn. destruct (drop_first_spec (an_timer x) _ Ht) as (D1 & D2 & _). apply NoDup_app. split; [exact D1|]. split; [|apply NoDup_singleton].
      intros u Hu Hu2. apply list_elem_of_singleton in Hu2. subst u. contradiction. }
    exists n3. split; [exact E3|]. split; [exact Q3|]. split; [rewrite S3, S2, C2, <- app_assoc; reflexivity|]. split; [exact N3 | exact T3].
Qed.

Lemma htonl_le_value ip : 0 <= ip < 2 ^ 32 -> htonl (le_value (le_bytes 4 (ntohl ip))) = ip.
Proof.
  intros Hi. rewrite le_value_bytes. change (256 ^ Z.of_nat 4) with (2 ^ 32). rewrite Z.mod_small by (apply htonl_range, Hi).
  change (htonl (ntohl ip)) with (ntohl (htonl ip)). apply htonl_involutive, Hi.
Qed.

(** The reply frame of the host with addresses [ip] and [mac]. *)
Definition reply_frame (cfg : config) (ip : Z) (mac : list Z) : list Z :=
  eth_frame (c_eth_addr cfg) mac PROTO_ARP
    (arp_header (ntohs 1) (ntohs PROTO_IP) 6 4 (ntohs ARP_OP_REPLY) mac (ntohl ip) (c_eth_addr cfg) (ntohl (c_ipaddr cfg))).

Section Reply.
Context {S : Type}.
Context (raw_net_receive : net P -> S -> Z -> Z -> Z -> outcome (Z * net P * S)).
Context (dgram_net_receive : net P -> S -> Z -> Z -> Z -> Z -> Z -> outcome (Z * net P * S)).
Context (stream_net_receive : net P -> S -> list Z -> Z -> Z -> Z -> outcome (Z * net P * S)).

Lemma reply_ok B E U n (s : S) ip mac a x b ds : net_ok B E U n -> mac_wf mac -> mac_wf (c_eth_addr (n_cfg n)) -> mac <> c_eth_addr (n_cfg n) ->
  0 <= ip < 2 ^ 32 -> (2 <= length (n_free n))%nat -> n_ext n <> [] -> lookup_cache n ip = None -> node_at (n_queue n) a x b ip ->
  NoDup (an_bufs x) -> (forall c, c ∈ an_bufs x -> c ∈ U) ->
  Forall2 (fun b d => exists left ext, holds n b d left ext /\ byte_list d /\ zlen d <= EXT_BUF_SIZE - ETH_HDR_LEN) (an_bufs x) ds ->
  exists n', ethernet_receive raw_net_receive dgram_net_receive stream_net_receive n s (reply_frame (n_cfg n) ip mac) = Done (n', s) /\
    lookup_cache n' ip = Some mac /\ n_queue n' = a ++ b /\
    n_sent n' = n_sent n ++ (eth_frame mac (c_eth_addr (n_cfg n)) PROTO_IP <$> ds) /\ net_ok B E (U ∖ list_to_set (an_bufs x)) n'.
Proof.
  intros N [Hm1 Hm2] [Ho1 Ho2] Hne Hip Hf He Hlk Hq Hn Hin Hds. unfold reply_frame. set (own := c_eth_addr (n_cfg n)) in *.
  set (eh := eth_header own mac (ntohs PROTO_ARP)). set (ah := arp_header _ _ _ _ _ _ _ _ _).
  assert (Hal : zlen ah = 28) by (apply arp_header_length; assumption). set (pad := repeat 0 (Z.to_nat (46 - zlen ah))).
  assert (Hpl : zlen pad = 18) by (unfold pad; rewrite Hal; reflexivity).
  assert (Hel : zlen eh = 14) by (unfold eh, eth_header, zlen; rewrite !length_app, Hm1, Ho1; reflexivity).
  assert (Hfb : byte_list (eh ++ ah ++ pad)) by (unfold pad; bytes; [unfold eh, eth_header; bytes | apply arp_header_bytes; [lia | lia | assumption | assumption]]).
  change (eth_frame own mac PROTO_ARP ah) with (eh ++ ah ++ pad). set (frame := eh ++ ah ++ pad) in *.
  assert (Hfl : zlen frame = 60) by (unfold frame; rewrite !zlen_app; lia).
  destruct (n_free n) as [|c fr] eqn:Ef; [cbn in Hf; lia|]. unfold ethernet_receive.
  destruct (alloc_ok B E U n (zlen frame) c fr N) as (n1 & ext & Ea & HB & HU & Hb0 & Hh1 & N1 & K1 & R1 & M1 & F1 & X1);
    [unfold EXT_BUF_SIZE; lia | exact Ef | unfold NET_BUF_DATA_SIZE; lia |].
  rewrite Ea. replace (c =? NULL) with false by lia. cbn [negb]. assert (HcU : c ∈ {[c]} ∪ U) by (apply elem_of_union_l, elem_of_singleton_2; reflexivity).
  replace (NET_BUF_DATA_SIZE <? zlen frame) with false in Hh1, X1 by (unfold NET_BUF_DATA_SIZE; lia). destruct X1 as [-> X1].
  destruct (append_fits _ _ _ _ _ _ _ _ frame N1 HcU Hh1 Hfb ltac:(unfold NET_BUF_DATA_SIZE; lia)) as (n2 & E2 & Hh2 & (N2 & K2 & R2) & [F2 X2]). rewrite E2. cbn [obind]. rewrite app_nil_l in Hh2.
  replace ETH_HDR_LEN with (zlen eh) by exact Hel. rewrite (buf_read_head n2 c eh (ah ++ pad) _ _ Hh2). cbn [obind].
  replace (drop 12 eh) with (le_bytes 2 (ntohs PROTO_ARP))
    by (unfold eh, eth_header; rewrite app_assoc; symmetry; apply drop_app_length'; rewrite length_app, Hm1, Ho1; reflexivity).
  change (htons (le_value (le_bytes 2 (ntohs PROTO_ARP))) =? PROTO_ARP) with true. cbn iota.
  destruct (pop_holds B E _ n2 c eh (ah ++ pad) _ _ N2 HcU Hh2) as (n3 & E3 & Hh3 & (N3 & K3 & R3) & [F3 X3]). rewrite E3. cbn [obind].
  (* the fields of the reply *)
  assert (R03 : same_rest n n3) by (repeat (eapply same_rest_trans; [eassumption|]); apply same_rest_refl). destruct R03 as (C & I & A & Q & T & Pl & Sn).
  set (p6 := le_bytes 2 (ntohs 1) ++ le_bytes 2 (ntohs PROTO_IP) ++ [6; 4]). set (tl := own ++ le_bytes 4 (ntohl (c_ipaddr (n_cfg n))) ++ pad).
  assert (Eah : ah ++ pad = p6 ++ le_bytes 2 (ntohs ARP_OP_REPLY) ++ mac ++ le_bytes 4 (ntohl ip) ++ tl) by (unfold ah, arp_header, p6, tl; rewrite <- !app_assoc; reflexivity).
  rewrite Eah in Hh3. unfold arp_receive. pose proof Hh3 as (x3 & Hx3 & _ & _ & Hz3 & _). unfold get_data_len at 1, get_buf at 1. rewrite Hx3. cbn [deref obind].
  rewrite Hz3. replace (zlen _ <? ARP_HDR_LEN) with false by (rewrite <- Eah, zlen_app; unfold ARP_HDR_LEN; lia).
  assert (Hop : buf_read n3 c 6 2 = Done (le_bytes 2 (ntohs ARP_OP_REPLY))) by (apply (buf_read_holds n3 c p6 (le_bytes 2 (ntohs ARP_OP_REPLY)) _ _ _ Hh3)).
  assert (Hmac : buf_read n3 c 8 6 = Done mac).
  { rewrite app_assoc in Hh3. pose proof (buf_read_holds n3 c (p6 ++ le_bytes 2 (ntohs ARP_OP_REPLY)) mac _ _ _ Hh3) as Hrd.
    unfold zlen in Hrd. rewrite Hm1 in Hrd. exact Hrd. }
  assert (Hsrc : buf_read n3 c 14 4 = Done (le_bytes 4 (ntohl ip))).
  { pose proof Hh3 as Hh3'. rewrite app_assoc, app_assoc in Hh3'. pose proof (buf_read_holds n3 c ((p6 ++ le_bytes 2 (ntohs ARP_OP_REPLY)) ++ mac) (le_bytes 4 (ntohl ip)) _ _ _ Hh3') as Hrd.
    unfold zlen in Hrd. rewrite length_app, Hm1 in Hrd. exact Hrd. }
  rewrite Hsrc. cbn [obind]. rewrite Hop. cbn [obind]. rewrite (htonl_le_value ip) by lia.
  change (htons (le_value (le_bytes 2 (ntohs ARP_OP_REPLY))) =? ARP_OP_REQUEST) with false. change (htons (le_value (le_bytes 2 (ntohs ARP_OP_REPLY))) =? ARP_OP_REPLY) with true. cbn iota.
  rewrite Hmac. cbn [obind].
  (* the cache, then the queue *)
  unfold add_to_cache, lookup_cache in *. rewrite A, Hlk. set (n4 := set_arp n3 _ _ _ _). assert (N4 : net_ok B E ({[c]} ∪ U) n4) by (destruct N3; constructor; auto).
  unfold process_wait_queue. change (n_queue n4) with (n_queue n3). rewrite Q, (queue_split_at _ _ _ _ _ Hq). rewrite union_difference_new in * by exact HU.
  assert (K03 : keeps U n n3) by (apply (keeps_trans U n n1); [exact K1|]; apply (keeps_trans U n1 n2); [exact K2 | exact K3]).
  destruct (send_waiting_ok B E mac (an_bufs x) ({[c]} ∪ U) n4 ds N4 Hn) as (n5 & E5 & S5 & N5 & K5 & R5).
  { intros d Hd. apply elem_of_union_r, Hin, Hd. }
  { apply Forall2_lookup. intros i. pose proof (proj1 (Forall2_lookup _ _ _) Hds i) as Hi. destruct (an_bufs x !! i) as [d|] eqn:Ed, (ds !! i) as [dd|]; inversion Hi; subst; constructor.
    match goal with Hq : exists left ext, _ |- _ => destruct Hq as (lc & ec & Hc & Hdc & Hlc) end. exists lc, ec. split; [|auto].
    change (holds n3 d dd lc ec). eapply keeps_holds; [exact K03 | apply Hin; eapply list_elem_of_lookup_2, Ed | exact Hc]. }
  { split; assumption. } { change (n_cfg n4) with (n_cfg n3). rewrite C. split; assumption. } { change (n_cfg n4) with (n_cfg n3). rewrite C. exact Hne. }
  { change (n_free n4) with (n_free n3). rewrite F3, F2, F1. intros ->. cbn in Hf. lia. } { change (n_ext n4) with (n_ext n3). rewrite X3, X2, X1. exact He. }
  rewrite E5. cbn [obind]. destruct R5 as (C5 & I5 & A5 & Q5 & T5 & P5).
  assert (HcV : c ∈ ({[c]} ∪ U) ∖ list_to_set (an_bufs x)).
  { apply elem_of_difference. split; [exact HcU|]. rewrite elem_of_list_to_set. intros Hq1. apply HU, Hin, Hq1. }
  assert (EV : (({[c]} ∪ U) ∖ list_to_set (an_bufs x)) ∖ {[c]} = U ∖ list_to_set (an_bufs x)).
  { apply set_eq. intros d. rewrite !elem_of_difference, elem_of_union, elem_of_singleton. split; [tauto|]. intros [Hd1 Hd2].
    split; [tauto | intros ->; contradiction]. }
  set (n6 := set_arp n5 _ _ _ _). assert (N6 : net_ok B E (({[c]} ∪ U) ∖ list_to_set (an_bufs x)) n6) by (destruct N5; constructor; auto).
  assert (Hh6 : holds n6 c (p6 ++ le_bytes 2 (ntohs ARP_OP_REPLY) ++ mac ++ le_bytes 4 (ntohl ip) ++ tl) (NET_BUF_DATA_SIZE - zlen frame) NULL)
    by (change n6 with n6; eapply (keeps_holds _ n4 n5); [exact K5 | exact HcV | exact Hh3]).
  destruct (free_ok _ _ _ _ _ _ _ _ N6 HcV Hh6) as (n7 & E7 & N7 & K7 & R7 & _). rewrite E7. cbn [obind]. rewrite EV in N7.
  destruct R7 as (C7 & I7 & A7 & Q7 & T7 & P7 & S7). exists n7. split; [reflexivity|]. split; [|split; [|split; [|exact N7]]].
  - rewrite A7. change (n_cache n6) with (n_cache n5). rewrite A5. cbn. rewrite Z.eqb_refl. reflexivity.
  - rewrite Q7. reflexivity.
  - rewrite S7. change (n_sent n6) with (n_sent n5). rewrite S5. change (n_sent n4) with (n_sent n3). change (n_cfg n4) with (n_cfg n3). rewrite Sn, C. reflexivity.
Qed.
End Reply.
End Arp.

(** ** A packet that waits, for the examples *)

Definition peer_ip : Z := c_ipaddr host_b.
Definition waiting_ops : list buf_op := [OAlloc 20; OAppend 0 [1; 2; 3]].
Definition waiting_node (retry : Z) : arp_node := mk_anode peer_ip retry 77 [1000].

(** [expires]: the ticks until the request times out. *)
Definition waiting_host (retry expires : Z) : net (object_pool * Z) :=
  match code_run (host_net host_a []) [] waiting_ops with
  | Done (_, n, _) => set_arp n [] [waiting_node retry] (mk_tm [77] {[77 := mk_timer expires peer_ip arp_timeout_fn]}) (n_pool n)
  | _ => host_net host_a []
  end.

Lemma waiting_ok retry expires : net_ok (list_to_set host_bufs) (list_to_set host_exts) {[1000]} (waiting_host retry expires) /\
  exists left ext, holds (waiting_host retry expires) 1000 [1; 2; 3] left ext.
Proof.
  destruct (code_run_ok (list_to_set host_bufs) (list_to_set host_exts) waiting_ops (host_net host_a []) [] (mk_sp 5 3 []) (host_pool_rep host_a []))
    as (n & held & Er & R); [repeat (apply Forall_cons_2; [first [cbn; lia | cbn; bytes]|]); apply Forall_nil_2|].
  assert (Eh : held = [1000]).
  { assert (Ev : match code_run (host_net host_a []) [] waiting_ops with Done (_, _, h) => h | _ => [] end = [1000]) by (vm_compute; reflexivity).
    rewrite Er in Ev. exact Ev. }
  subst held. unfold waiting_host. rewrite Er. destruct R as [N D F X L HH]. split.
  - replace ({[1000]} : gset Z) with (list_to_set [1000] : gset Z) by (cbn; apply union_empty_r_L). destruct N; constructor; auto.
  - destruct (HH 0%nat 1000 [1; 2; 3] 237 false eq_refl eq_refl) as (ext & Hh & _). eauto.
Qed.

Lemma waiting_node_at retry expires : node_at (n_queue (waiting_host retry expires)) [] (waiting_node retry) [] peer_ip.
Proof. split; [reflexivity|]. split; [reflexivity | constructor]. Qed.

(** The reply.  When the answer to a request arrives, its sender is entered in the
    cache and every packet that waits for it goes out to that link address, in the
    order the packets came in; their buffers are freed and the node leaves the queue. *)
Theorem arp_reply_sends_waiting {P S} `{ObjectPool P} raw dgram stream B E U (n : net P) (s : S) ip mac a x b ds :
  ready B E U n -> mac_wf mac -> mac <> c_eth_addr (n_cfg n) -> 0 <= ip < 2 ^ 32 -> lookup_cache n ip = None -> node_at (n_queue n) a x b ip ->
  NoDup (an_bufs x) -> (forall c, c ∈ an_bufs x -> c ∈ U) ->
  Forall2 (fun b d => exists left ext, holds n b d left ext /\ byte_list d /\ zlen d <= EXT_BUF_SIZE - ETH_HDR_LEN) (an_bufs x) ds ->
  exists n', ethernet_receive raw dgram stream n s (reply_frame (n_cfg n) ip mac) = Done (n', s) /\
    lookup_cache n' ip = Some mac /\ n_queue n' = a ++ b /\
    n_sent n' = n_sent n ++ (eth_frame mac (c_eth_addr (n_cfg n)) PROTO_IP <$> ds) /\ net_ok B E (U ∖ list_to_set (an_bufs x)) n'.
Proof.
  intros [N Mo Io Fo Xo] Hm Hne Hip Hlk Hq Hn Hin Hds. apply reply_ok; auto; [lia | intros Hx; rewrite Hx in Xo; cbn in Xo; lia].
Qed.

Lemma waiting_ready retry expires : ready (list_to_set host_bufs) (list_to_set host_exts) {[1000]} (waiting_host retry expires).
Proof.
  assert (Ec : n_cfg (waiting_host retry expires) = host_a) by (vm_compute; reflexivity).
  constructor; [apply waiting_ok | rewrite Ec; split; [reflexivity | cbn; bytes] | split; [discriminate | reflexivity] | vm_compute; lia | vm_compute; lia].
Qed.

Lemma arp_reply_sends_waiting_witness :
  exists n', ethernet_receive no_raw take_dgram no_stream (waiting_host 3 100) tt (reply_frame (n_cfg (waiting_host 3 100)) peer_ip (c_eth_addr host_b)) = Done (n', tt) /\
    lookup_cache n' peer_ip = Some (c_eth_addr host_b) /\ n_queue n' = [] ++ [] /\
    n_sent n' = n_sent (waiting_host 3 100) ++ (eth_frame (c_eth_addr host_b) (c_eth_addr (n_cfg (waiting_host 3 100))) PROTO_IP <$> [[1; 2; 3]]) /\
    net_ok (list_to_set host_bufs) (list_to_set host_exts) ({[1000]} ∖ list_to_set (an_bufs (waiting_node 3))) n'.
Proof.
  apply (arp_reply_sends_waiting no_raw take_dgram no_stream (list_to_set host_bufs) (list_to_set host_exts) {[1000]} (waiting_host 3 100) tt
           peer_ip (c_eth_addr host_b) [] (waiting_node 3) [] [[1; 2; 3]]).
  - apply waiting_ready.
  - split; [reflexivity | cbn; bytes].
  - discriminate.
  - split; [discriminate | reflexivity].
  - reflexivity.
  - apply waiting_node_at.
  - apply NoDup_singleton.
  - intros c Hc. apply list_elem_of_singleton in Hc. subst c. apply elem_of_singleton_2. reflexivity.
  - apply Forall2_cons. split; [|apply Forall2_nil; exact I]. destruct (waiting_ok 3 100) as [_ (left & ext & Hh)]. exists left, ext. split; [exact Hh|].
    split; [bytes | discriminate].
Defined.

(** C16: Giving up.  A request that is never answered ends: after its retries (each of
    them one more broadcast) the next timeout frees the packets that waited, removes
    the node from the queue and its timer from the list of timers. *)
Theorem arp_request_gives_up {P} `{ObjectPool P} B E U (n : net P) ip a x b r :
  ready B E U n -> broadcast_mac_addr <> c_eth_addr (n_cfg n) -> node_at (n_queue n) a x b ip -> an_retry x = Z.of_nat r -> Z.of_nat r < 2 ^ 32 ->
  NoDup (an_bufs x) -> (forall c, c ∈ an_bufs x -> c ∈ U) -> NoDup (tm_list (n_timers n)) ->
  exists n', timeouts (S r) n ip = Done n' /\ n_queue n' = a ++ b /\ n_sent n' = n_sent n ++ repeat (request_frame (n_cfg n) ip) r /\
    net_ok B E (U ∖ list_to_set (an_bufs x)) n' /\ (an_timer x ∉ tm_list (n_timers n')).
Proof. intros [N Mo Io Fo Xo] Hne Hq Hr Hlt Hn Hin Ht. apply timeouts_ok; auto. lia. Qed.

Lemma arp_request_gives_up_witness :
  exists n', timeouts 4 (waiting_host 3 100) peer_ip = Done n' /\ n_queue n' = [] ++ [] /\
    n_sent n' = n_sent (waiting_host 3 100) ++ repeat (request_frame (n_cfg (waiting_host 3 100)) peer_ip) 3 /\
    net_ok (list_to_set host_bufs) (list_to_set host_exts) ({[1000]} ∖ list_to_set (an_bufs (waiting_node 3))) n' /\
    (an_timer (waiting_node 3) ∉ tm_list (n_timers n')).
Proof.
  apply (arp_request_gives_up (list_to_set host_bufs) (list_to_set host_exts) {[1000]} (waiting_host 3 100) peer_ip [] (waiting_node 3) [] 3).
  - apply waiting_ready.
  - discriminate.
  - apply waiting_node_at.
  - reflexivity.
  - reflexivity.
  - apply NoDup_singleton.
  - intros c Hc. apply list_elem_of_singleton in Hc. subst c. apply elem_of_singleton_2. reflexivity.
  - apply NoDup_singleton.
Defined.

(** The clock and the last timeout.  The function of the timer takes the timer out of
    the list that [timer_mgr_t::update] walks through, so the walk goes on from a list
    node that has been freed. *)
Theorem last_timeout_breaks_the_tick : net_tick 10 (waiting_host 0 1) = Some Fault.
Proof. vm_compute. reflexivity. Qed.

(** With retries left the timer goes to the end of the list instead, and the walk ends
    there: the timers that were behind it miss the tick. *)
Theorem retry_skips_later_timers :
  let n := set_timers (mk_tm [77; 88] {[77 := mk_timer 1 peer_ip arp_timeout_fn; 88 := mk_timer 5 peer_ip arp_timeout_fn]}) (waiting_host 3 1) in
  match net_tick 10 n with Some (Done n') => t_expires <$> (tm_obj (n_timers n') !! 88) | _ => None end = Some 5.
Proof. vm_compute. reflexivity. Qed.
