(* ===== verification/Stream.v ===== *)
(** * Stream sockets (src/src/socket_stream.cc, socket.cc, sock_addr.cc)

    TCP connections.  A system call that sleeps on the socket's semaphore is cut in
    two at the sleep: [connect_start] and [connect_finish], and so on; a semaphore
    appears as its count, and the second half can run when the count is positive.
    Between the halves the interrupt handler runs [stream_net_receive] on whatever
    arrives.

    The sockets are the array [s_stream_sockets]; a socket is designated by its index
    in it, and [NULL] is the index [-1].  Segments leave through an interface that
    [tcp_t::transmit] implements. *)
From Stdlib Require Import ZArith ZifyBool Lia.
From stdpp Require Import base option list gmap.
From S2P Require Import Prelude Interfaces Sync Pipe SockRing Checksum Net Ip.

Definition MAX_STREAM_SOCKET : Z := 128.
Definition AF_INET : Z := 2.
Definition EINPROGRESS : Z := 115.
Definition EISCONN : Z := 106.
Definition SF_WAITDATA : Z := 2 ^ 17.
Definition NO_SOCK : Z := -1.

Inductive tcp_state :=
| ST_CLOSED | ST_LISTEN | ST_SYN_SENT | ST_SYN_RCVD | ST_ESTABLISHED | ST_FIN_WAIT_1 | ST_FIN_WAIT_2
| ST_CLOSE_WAIT | ST_CLOSING | ST_LAST_ACK | ST_TIME_WAIT.

#[global] Instance tcp_state_eq_dec : EqDecision tcp_state.
Proof. solve_decision. Defined.

Inductive sock_state := SS_FREE | SS_UNCONNECTED | SS_CONNECTING | SS_CONNECTED | SS_DISCONNECTING.

#[global] Instance sock_state_eq_dec : EqDecision sock_state.
Proof. solve_decision. Defined.

(** [sock_addr_inet_t] *)
Record sock_addr := mk_addr { a_family : Z; a_ip : Z; a_port : Z }.

Definition addr_eqb (a b : sock_addr) : bool := (a_family a =? a_family b) && (a_ip a =? a_ip b) && (a_port a =? a_port b).

Record stream := mk_stream {
  k_flags : Z;
  k_family : Z;
  k_type : Z;
  k_protocol : Z;
  k_state : sock_state;
  k_tcp : tcp_state;
  k_ref : Z;
  k_addr : sock_addr;
  k_buffer : sock_ring;
  k_conn : list sock_addr;
  k_peer : sock_addr;
  k_sem : Z;
  k_seq : Z;
  k_ack : Z;
  k_dup : Z
}.

Definition with_flags (v : Z) (x : stream) : stream :=
  mk_stream v (k_family x) (k_type x) (k_protocol x) (k_state x) (k_tcp x) (k_ref x) (k_addr x) (k_buffer x) (k_conn x) (k_peer x) (k_sem x) (k_seq x) (k_ack x) (k_dup x).
Definition with_state (v : sock_state) (x : stream) : stream :=
  mk_stream (k_flags x) (k_family x) (k_type x) (k_protocol x) v (k_tcp x) (k_ref x) (k_addr x) (k_buffer x) (k_conn x) (k_peer x) (k_sem x) (k_seq x) (k_ack x) (k_dup x).
Definition with_tcp (v : tcp_state) (x : stream) : stream :=
  mk_stream (k_flags x) (k_family x) (k_type x) (k_protocol x) (k_state x) v (k_ref x) (k_addr x) (k_buffer x) (k_conn x) (k_peer x) (k_sem x) (k_seq x) (k_ack x) (k_dup x).
Definition with_ref (v : Z) (x : stream) : stream :=
  mk_stream (k_flags x) (k_family x) (k_type x) (k_protocol x) (k_state x) (k_tcp x) v (k_addr x) (k_buffer x) (k_conn x) (k_peer x) (k_sem x) (k_seq x) (k_ack x) (k_dup x).
Definition with_addr (v : sock_addr) (x : stream) : stream :=
  mk_stream (k_flags x) (k_family x) (k_type x) (k_protocol x) (k_state x) (k_tcp x) (k_ref x) v (k_buffer x) (k_conn x) (k_peer x) (k_sem x) (k_seq x) (k_ack x) (k_dup x).
Definition with_buffer (v : sock_ring) (x : stream) : stream :=
  mk_stream (k_flags x) (k_family x) (k_type x) (k_protocol x) (k_state x) (k_tcp x) (k_ref x) (k_addr x) v (k_conn x) (k_peer x) (k_sem x) (k_seq x) (k_ack x) (k_dup x).
Definition with_conn (v : list sock_addr) (x : stream) : stream :=
  mk_stream (k_flags x) (k_family x) (k_type x) (k_protocol x) (k_state x) (k_tcp x) (k_ref x) (k_addr x) (k_buffer x) v (k_peer x) (k_sem x) (k_seq x) (k_ack x) (k_dup x).
Definition with_peer (v : sock_addr) (x : stream) : stream :=
  mk_stream (k_flags x) (k_family x) (k_type x) (k_protocol x) (k_state x) (k_tcp x) (k_ref x) (k_addr x) (k_buffer x) (k_conn x) v (k_sem x) (k_seq x) (k_ack x) (k_dup x).
Definition with_sem (v : Z) (x : stream) : stream :=
  mk_stream (k_flags x) (k_family x) (k_type x) (k_protocol x) (k_state x) (k_tcp x) (k_ref x) (k_addr x) (k_buffer x) (k_conn x) (k_peer x) v (k_seq x) (k_ack x) (k_dup x).
Definition with_seq (v : Z) (x : stream) : stream :=
  mk_stream (k_flags x) (k_family x) (k_type x) (k_protocol x) (k_state x) (k_tcp x) (k_ref x) (k_addr x) (k_buffer x) (k_conn x) (k_peer x) (k_sem x) v (k_ack x) (k_dup x).
Definition with_ack (v : Z) (x : stream) : stream :=
  mk_stream (k_flags x) (k_family x) (k_type x) (k_protocol x) (k_state x) (k_tcp x) (k_ref x) (k_addr x) (k_buffer x) (k_conn x) (k_peer x) (k_sem x) (k_seq x) v (k_dup x).
Definition with_dup (v : Z) (x : stream) : stream :=
  mk_stream (k_flags x) (k_family x) (k_type x) (k_protocol x) (k_state x) (k_tcp x) (k_ref x) (k_addr x) (k_buffer x) (k_conn x) (k_peer x) (k_sem x) (k_seq x) (k_ack x) v.

(** What the sockets need of the network: [tcp_t::transmit] and [get_ipaddr()]. *)
Class SegmentSink (N : Type) : Type := {
  transmit : N -> Z -> Z -> Z -> Z -> Z -> tcp_flags -> list Z -> outcome (Z * N);
  ipaddr : N -> Z
}.

#[export] Instance net_sink {P} `{ObjectPool P} : SegmentSink (net P) := {
  transmit := tcp_transmit;
  ipaddr := fun n => c_ipaddr (n_cfg n)
}.

(** A segment, as the arguments of [transmit]. *)
Record segment := mk_seg { g_dst_ip : Z; g_src_port : Z; g_dst_port : Z; g_seq : Z; g_ack : Z; g_flags : tcp_flags; g_data : list Z }.

(** A network that records what it is given. *)
Record wire := mk_wire { w_ip : Z; w_sent : list segment }.

#[export] Instance wire_sink : SegmentSink wire := {
  transmit w dst_ip src_port dst_port seq ack flags data := Done (0, mk_wire (w_ip w) (w_sent w ++ [mk_seg dst_ip src_port dst_port seq ack flags data]));
  ipaddr := w_ip
}.

(** The header of a received segment: [tcp_hdr_t] as it lies in memory. *)
Record seg_hdr := mk_hdr { h_src_port : Z; h_dst_port : Z; h_seq_no : Z; h_ack_no : Z; h_fin : bool; h_syn : bool; h_ack : bool }.

Definition parse_hdr (bytes : list Z) : seg_hdr :=
  let flags := default 0 (zget bytes 13) in
  mk_hdr (le_value (take 2 bytes)) (le_value (take 2 (drop 2 bytes))) (le_value (take 4 (drop 4 bytes))) (le_value (take 4 (drop 8 bytes)))
    (Z.testbit flags 0) (Z.testbit flags 1) (Z.testbit flags 4).

Section Stream.
Context {N : Type} `{SegmentSink N}.

Record world := mk_world { socks : list stream; wnet : N }.
Implicit Types (w : world) (i : Z).

Definition get_sock w i : outcome stream := deref (zget (socks w) i).
Definition put_sock w i (x : stream) : world := mk_world (zset (socks w) i x) (wnet w).

(** ** The table of sockets *)

(** The first socket with [m_ref == 0]. *)
Fixpoint find_free (l : list stream) (i : Z) : option (Z * stream) :=
  match l with
  | [] => None
  | x :: r => if k_ref x =? 0 then Some (i, x) else find_free r (i + 1)
  end.

Definition alloc_stream_socket w : Z * world :=
  match find_free (socks w) 0 with
  | Some (i, x) => (i, put_sock w i (with_ref 1 x))
  | None => (NO_SOCK, w)
  end.

Fixpoint find_addr (l : list stream) (addr : sock_addr) (i : Z) : Z :=
  match l with
  | [] => NO_SOCK
  | x :: r => if addr_eqb (k_addr x) addr then i else find_addr r addr (i + 1)
  end.

Definition lookup_stream_socket w (addr : sock_addr) : Z := find_addr (socks w) addr 0.

Definition bind_stream_socket w i (addr : sock_addr) : outcome (Z * world) :=
  if existsb (fun s => addr_eqb (k_addr s) addr && negb (k_ref s =? 0)) (socks w) then Done (-1, w)
  else let! x := get_sock w i in Done (0, put_sock w i (with_addr addr x)).

(** The inner loop of [get_not_used_port]: [n] sockets from [s] on; the cursor [s] is
    left where the loop stopped. *)
Fixpoint port_taken (n : nat) w (s port : Z) : outcome (bool * Z) :=
  match n with
  | O => Done (false, s)
  | S k =>
      let! x := get_sock w s in
      if (0 <? k_ref x) && (a_port (k_addr x) =? htons port) then Done (true, s) else port_taken k w (s + 1) port
  end.

(** The outer loop goes on with the cursor where it is. *)
Fixpoint port_loop (fuel : nat) w (s port : Z) : outcome (option Z) :=
  match fuel with
  | O => Done None
  | S k =>
      if port <? 65535 then
        let! ' (taken, s) := port_taken (Z.to_nat MAX_STREAM_SOCKET) w s port in
        if taken : bool then port_loop k w s (port + 1) else Done (Some port)
      else Done None
  end.

Definition get_not_used_port w i : outcome world :=
  let! port := port_loop (Z.to_nat (65535 - 4096)) w 0 4096 in
  match port with
  | Some port => let! x := get_sock w i in
                 Done (put_sock w i (with_addr (mk_addr (a_family (k_addr x)) (a_ip (k_addr x)) (htons port)) x))
  | None => Done w
  end.

(** ** Segments *)

Definition no_flags : tcp_flags := mk_flags false false false.

(** [tcp_t::transmit] with the socket's next sequence number. *)
Definition send_seg w i (dst_ip src_port dst_port ack_no : Z) (flag : tcp_flags) (data : list Z) : outcome (Z * world) :=
  let! x := get_sock w i in
  let! ' (r, n) := transmit (wnet w) dst_ip src_port dst_port (k_seq x) ack_no flag data in
  Done (r, mk_world (zset (socks w) i (with_seq (u32 (k_seq x + 1)) x)) n).

Definition tcp_syn w i (dst : sock_addr) : outcome (Z * world) :=
  let! x := get_sock w i in
  send_seg w i (ntohl (a_ip dst)) (ntohs (a_port (k_addr x))) (ntohs (a_port dst)) 0 (mk_flags false true false) [].

Definition tcp_ack w i (src_ip src_port dst_ip dst_port ack_no : Z) (syn : bool) : outcome (Z * world) :=
  send_seg w i dst_ip src_port dst_port ack_no (mk_flags false syn true) [].

Definition tcp_send w i (src_ip src_port dst_ip dst_port : Z) (data : list Z) : outcome (Z * world) :=
  send_seg w i dst_ip src_port dst_port 0 no_flags data.

Definition tcp_fin w i (src_ip src_port dst_ip dst_port ack_no : Z) : outcome (Z * world) :=
  send_seg w i dst_ip src_port dst_port ack_no (mk_flags true false true) [].

(** [tcp_ack] and [tcp_fin] from the socket's own address to its peer. *)
Definition ack_peer w i (syn : bool) : outcome world :=
  let! x := get_sock w i in
  let! ' (_, w) := tcp_ack w i (ntohl (a_ip (k_addr x))) (ntohs (a_port (k_addr x))) (ntohl (a_ip (k_peer x))) (ntohs (a_port (k_peer x))) (k_ack x) syn in
  Done w.

Definition fin_peer w i : outcome world :=
  let! x := get_sock w i in
  let! ' (_, w) := tcp_fin w i (ntohl (a_ip (k_addr x))) (ntohs (a_port (k_addr x))) (ntohl (a_ip (k_peer x))) (ntohs (a_port (k_peer x))) (k_ack x) in
  Done w.

(** Assignment to a field. *)
Definition modify w i (f : stream -> stream) : outcome world := let! x := get_sock w i in Done (put_sock w i (f x)).

Definition sem_up w i : outcome world := modify w i (fun x => with_sem (up1 (k_sem x)) x).
Definition sem_down w i : outcome world := let! x := get_sock w i in let! c := down1 (k_sem x) in Done (put_sock w i (with_sem c x)).

(** ** Calls *)

(** [pages]: the receive buffer's memory. *)
Definition create w i (family type protocol : Z) (pages : list Z) : outcome world :=
  modify w i (fun x =>
    mk_stream (k_flags x) family type protocol SS_UNCONNECTED ST_CLOSED 1 (mk_addr (a_family (k_addr x)) 0 0) (sring_init pages 4) []
      (mk_addr (a_family (k_peer x)) 0 0) 0 0 0 NO_SOCK).

Definition dup w i (socket : Z) (pages : list Z) : outcome world :=
  let! s := get_sock w socket in
  let! w := create w i (k_family s) (k_type s) (k_protocol s) pages in
  let! w := modify w i (fun x => with_addr (mk_addr (a_family (k_addr x)) (htonl (ipaddr (wnet w))) (a_port (k_addr x))) x) in
  let! w := get_not_used_port w i in
  modify w socket (with_dup i).

Definition bind w i (addr : sock_addr) : outcome (Z * world) :=
  let addr := if a_ip addr =? 0 then mk_addr (a_family addr) (ipaddr (wnet w)) (a_port addr) else addr in
  bind_stream_socket w i addr.

Definition listen w i : outcome (Z * world) := let! w := modify w i (with_tcp ST_LISTEN) in Done (0, w).

(** The first wait of [accept], for a peer: [None] when the caller has to sleep. *)
Definition accept_start w (server : Z) : outcome (option Z) :=
  let! s := get_sock w server in
  if bool_decide (k_tcp s = ST_LISTEN) then Done (if bool_decide (k_conn s = []) then None else Some 0) else Done (Some (-1)).

(** [server_socket->m_sem.down()] in the loop. *)
Definition accept_wait w (server : Z) : outcome world := sem_down w server.

(** From the wake-up to the second wait, for the ACK. *)
Definition accept_peer w i (server : Z) : outcome world :=
  let! s := get_sock w server in
  let! addr := deref (head (k_conn s)) in
  let! w := modify w server (with_conn (tail (k_conn s))) in
  let! w := modify w i (fun x => with_tcp ST_SYN_RCVD (with_peer addr x)) in
  ack_peer w i true.

Definition accept_finish w i : outcome (Z * world) :=
  let! w := sem_down w i in
  let! w := modify w i (fun x => with_state SS_CONNECTED (with_tcp ST_ESTABLISHED x)) in Done (0, w).

Definition connect_start w i (server_addr : sock_addr) : outcome (Z * world) :=
  if negb (a_family server_addr =? AF_INET) then Done (- EINVAL, w)
  else
    let! x := get_sock w i in
    if bool_decide (k_state x = SS_CONNECTING) then Done (- EINPROGRESS, w)
    else if bool_decide (k_state x = SS_CONNECTED) then Done (- EISCONN, w)
    else if negb (bool_decide (k_tcp x = ST_CLOSED)) then Done (- EINPROGRESS, w)
    else
      let! w := modify w i (fun x => with_addr (mk_addr (a_family (k_addr x)) (htonl (ipaddr (wnet w))) (a_port (k_addr x))) x) in
      let! w := get_not_used_port w i in
      let! ' (_, w) := tcp_syn w i server_addr in
      let! w := modify w i (with_tcp ST_SYN_SENT) in Done (0, w).

Definition connect_finish w i : outcome (Z * world) :=
  let! w := sem_down w i in
  let! w := modify w i (fun x => with_state SS_CONNECTED (with_tcp ST_ESTABLISHED x)) in
  let! w := ack_peer w i false in Done (0, w).

Definition read w i (size : Z) : outcome (Z * list Z * world) :=
  let! x := get_sock w i in
  let! ' (r, bytes, b) := SockRing.get_data (bool_decide (k_state x = SS_CONNECTED)) (k_buffer x) size in
  Done (r, bytes, put_sock w i (with_buffer b x)).

Definition write_start w i (data : list Z) : outcome world :=
  let! x := get_sock w i in
  let! ' (_, w) := tcp_send w i (ntohl (a_ip (k_addr x))) (ntohs (a_port (k_addr x))) (ntohl (a_ip (k_peer x))) (ntohs (a_port (k_peer x))) data in
  Done w.

Definition write_finish w i (size : Z) : outcome (Z * world) := let! w := sem_down w i in Done (s32 size, w).

(** [tcp_close] up to the wait: the value when there is no need to wait. *)
Definition close_start w i : outcome (option Z * world) :=
  let! x := get_sock w i in
  if negb (bool_decide (k_tcp x = ST_ESTABLISHED)) then let! w := modify w i (with_tcp ST_CLOSED) in Done (Some (-1), w)
  else
    let! w := fin_peer w i in
    let! w := modify w i (with_tcp ST_FIN_WAIT_1) in Done (None, w).

Definition release_start w i : outcome (option Z * world) :=
  let! w := modify w i (fun x => if bool_decide (k_state x = SS_UNCONNECTED) then x else with_state SS_DISCONNECTING x) in
  close_start w i.

Definition close_finish w i : outcome (Z * world) :=
  let! w := sem_down w i in
  let! w := ack_peer w i false in
  let! w := modify w i (fun x => with_ref 0 (with_tcp ST_CLOSED x)) in Done (0, w).

(** ** Arrival of a segment *)

Definition net_receive_syn w i (hdr : seg_hdr) (src_ip src_port : Z) : outcome (Z * world) :=
  let! x := get_sock w i in
  if negb (h_ack hdr) then
    if negb (bool_decide (k_tcp x = ST_LISTEN)) then Done (-1, w)
    else
      let addr := mk_addr 0 (ntohl src_ip) (ntohs src_port) in
      let! w := modify w i (with_conn (k_conn x ++ [addr])) in
      let! w := modify w (k_dup x) (with_ack (u32 (ntohl (h_seq_no hdr) + 1))) in
      let! w := sem_up w i in Done (0, w)
  else
    if negb (bool_decide (k_tcp x = ST_SYN_SENT)) then Done (-1, w)
    else
      let! w := modify w i (fun x => with_ack (u32 (ntohl (h_seq_no hdr) + 1)) (with_peer (mk_addr (a_family (k_peer x)) (htonl src_ip) (htons src_port)) x)) in
      let! w := sem_up w i in Done (0, w).

Definition net_receive_ack w i (hdr : seg_hdr) (src_ip src_port : Z) : outcome (Z * world) :=
  let! x := get_sock w i in
  if negb (ntohl (a_ip (k_peer x)) =? src_ip) || negb (ntohs (a_port (k_peer x)) =? src_port) then Done (-1, w)
  else
    match k_tcp x with
    | ST_SYN_RCVD => let! w := sem_up w i in Done (0, w)
    | ST_ESTABLISHED => let! w := sem_up w i in Done (0, w)
    | ST_FIN_WAIT_1 => let! w := modify w i (with_tcp ST_FIN_WAIT_2) in Done (0, w)
    | ST_LAST_ACK => let! w := modify w i (with_tcp ST_CLOSED) in Done (0, w)
    | _ => Done (0, w)
    end.

Definition net_receive_data w i (hdr : seg_hdr) (data : list Z) : outcome (Z * world) :=
  let! x := get_sock w i in
  let! ' (r, b) := SockRing.put_data (bool_decide (k_state x = SS_CONNECTED)) (k_buffer x) data in
  let w := put_sock w i (with_buffer b x) in
  if r <? 0 then Done (-1, w)
  else
    let! w := modify w i (with_ack (u32 (ntohl (h_seq_no hdr) + 1))) in
    let! w := ack_peer w i false in Done (0, w).

Definition net_receive_fin w i (hdr : seg_hdr) (src_ip src_port : Z) : outcome (Z * world) :=
  let! x := get_sock w i in
  match k_tcp x with
  | ST_CLOSED => Done (0, w)
  | ST_FIN_WAIT_2 => let! w := sem_up w i in Done (0, w)
  | ST_ESTABLISHED =>
      let! w := modify w i (with_ack (u32 (ntohl (h_seq_no hdr) + 1))) in
      let! w := ack_peer w i false in
      let! w := modify w i (with_tcp ST_CLOSE_WAIT) in
      let! w := fin_peer w i in
      let! w := modify w i (with_tcp ST_LAST_ACK) in Done (0, w)
  | _ => let! w := modify w i (with_tcp ST_CLOSED) in Done (-1, w)
  end.

Definition net_receive w i (hdr : seg_hdr) (src_ip src_port : Z) (data : list Z) : outcome (Z * world) :=
  let! w := modify w i (with_ack (u32 (ntohl (h_seq_no hdr) + 1))) in
  if h_syn hdr then net_receive_syn w i hdr src_ip src_port
  else if h_fin hdr then net_receive_fin w i hdr src_ip src_port
  else if h_ack hdr then net_receive_ack w i hdr src_ip src_port
  else net_receive_data w i hdr data.

(** The loop over the table: the first socket on that port that takes the segment. *)
Fixpoint receive_loop (n : nat) (i : Z) w (hdr : seg_hdr) (data : list Z) (src_ip : Z) : outcome (Z * world) :=
  match n with
  | O => Done (-1, w)
  | S k =>
      let! x := get_sock w i in
      if k_ref x =? 0 then receive_loop k (i + 1) w hdr data src_ip
      else if a_port (k_addr x) =? h_dst_port hdr then
        let! ' (r, w) := net_receive w i hdr src_ip (ntohs (h_src_port hdr)) data in
        if r =? 0 then Done (0, w) else receive_loop k (i + 1) w hdr data src_ip
      else receive_loop k (i + 1) w hdr data src_ip
  end.

Definition stream_net_receive w (hdr : seg_hdr) (data : list Z) (src_ip : Z) : outcome (Z * world) :=
  receive_loop (Z.to_nat MAX_STREAM_SOCKET) 0 w hdr data src_ip.

(** ** Sockets by index *)

Definition sock_at w i (x : stream) : Prop := zget (socks w) i = Some x.

Lemma get_sock_at w i x : sock_at w i x -> get_sock w i = Done x.
Proof. unfold sock_at, get_sock. intros ->. reflexivity. Qed.

Lemma put_sock_eq w i x y : sock_at w i x -> sock_at (put_sock w i y) i y.
Proof. intros Hx. apply zget_zset_eq. eapply zget_Some_range, Hx. Qed.

Lemma put_sock_ne w i j x y : sock_at w j x -> i <> j -> sock_at (put_sock w i y) j x.
Proof. intros Hx Hne. unfold sock_at, put_sock. cbn. rewrite zget_zset_ne; [exact Hx | apply zget_Some_range in Hx; lia | exact Hne]. Qed.

Lemma zset_zset {A} (l : list A) i x y : zset (zset l i x) i y = zset l i y.
Proof. unfold zset. destruct (i <? 0); [reflexivity|]. apply list_insert_insert_eq. Qed.

Lemma put_put w i x y : put_sock (put_sock w i x) i y = put_sock w i y.
Proof. unfold put_sock. cbn. rewrite zset_zset. reflexivity. Qed.

Lemma modify_at w i x f : sock_at w i x -> modify w i f = Done (put_sock w i (f x)).
Proof. intros Hx. unfold modify. rewrite (get_sock_at _ _ _ Hx). reflexivity. Qed.

Lemma sem_up_at w i x : sock_at w i x -> sem_up w i = Done (put_sock w i (with_sem (up1 (k_sem x)) x)).
Proof. intros Hx. unfold sem_up. rewrite (modify_at _ _ _ _ Hx). reflexivity. Qed.

Lemma sem_down_at w i x : sock_at w i x -> 0 < k_sem x -> sem_down w i = Done (put_sock w i (with_sem (k_sem x - 1) x)).
Proof. intros Hx Hs. unfold sem_down. rewrite (get_sock_at _ _ _ Hx). cbn [obind]. unfold down1. replace (0 <? k_sem x) with true by lia. reflexivity. Qed.

(** ** What the arrival of a segment does to the states of the sockets *)

(** The segment is for the socket. *)
Definition addressed (hdr : seg_hdr) (x : stream) : Prop := k_ref x <> 0 /\ a_port (k_addr x) = h_dst_port hdr.

(** It comes from the host and port the socket is connected to. *)
Definition from_peer (hdr : seg_hdr) (src_ip : Z) (x : stream) : Prop :=
  ntohl (a_ip (k_peer x)) = src_ip /\ ntohs (a_port (k_peer x)) = ntohs (h_src_port hdr).

(** The state in which [net_receive] leaves a socket. *)
Definition next_tcp (hdr : seg_hdr) (src_ip src_port : Z) (x : stream) : tcp_state :=
  if h_syn hdr then k_tcp x
  else if h_fin hdr then
    match k_tcp x with ST_CLOSED => ST_CLOSED | ST_FIN_WAIT_2 => ST_FIN_WAIT_2 | ST_ESTABLISHED => ST_LAST_ACK | _ => ST_CLOSED end
  else if h_ack hdr then
    if negb (ntohl (a_ip (k_peer x)) =? src_ip) || negb (ntohs (a_port (k_peer x)) =? src_port) then k_tcp x
    else match k_tcp x with ST_FIN_WAIT_1 => ST_FIN_WAIT_2 | ST_LAST_ACK => ST_CLOSED | t => t end
  else k_tcp x.

(** What a socket is besides its state: never touched by an arrival. *)
Definition same_place (x x' : stream) : Prop := k_state x' = k_state x /\ k_ref x' = k_ref x /\ k_addr x' = k_addr x.

Lemma same_address_trans x y z : same_place x y -> same_place y z -> same_place x z.
Proof. unfold same_place. intuition congruence. Qed.

(** The socket [i] is now in state [t], the others kept theirs and their peers. *)
Definition arrived i (t : tcp_state) w w' : Prop :=
  length (socks w') = length (socks w) /\
  forall j x, sock_at w j x -> exists x', sock_at w' j x' /\ k_tcp x' = (if decide (j = i) then t else k_tcp x) /\ (j <> i -> k_peer x' = k_peer x) /\ same_place x x'.

(** All kept their states, and all but [i] their peers. *)
Definition quiet i w w' : Prop :=
  length (socks w') = length (socks w) /\
  forall j x, sock_at w j x -> exists x', sock_at w' j x' /\ k_tcp x' = k_tcp x /\ (j <> i -> k_peer x' = k_peer x) /\ same_place x x'.

Lemma quiet_refl i w : quiet i w w.
Proof. split; [reflexivity|]. intros j x Hx. exists x. unfold same_place. split_and!; auto. Qed.

Lemma quiet_trans i w1 w2 w3 : quiet i w1 w2 -> quiet i w2 w3 -> quiet i w1 w3.
Proof.
  intros [L1 H1] [L2 H2]. split; [congruence|]. intros j x Hx. destruct (H1 j x Hx) as (y & Hy & A1 & A2 & A3).
  destruct (H2 j y Hy) as (z & Hz & B1 & B2 & B3). exists z. split; [exact Hz|]. split; [congruence|]. split; [|eapply same_address_trans; eauto].
  intros Hne. rewrite B2, A2 by exact Hne. reflexivity.
Qed.

Lemma quiet_arrived i w1 w2 x : quiet i w1 w2 -> sock_at w1 i x -> arrived i (k_tcp x) w1 w2.
Proof.
  intros [L1 H1] Hi. split; [exact L1|]. intros j y Hy. destruct (H1 j y Hy) as (z & Hz & A1 & A2 & A3). exists z.
  split; [exact Hz|]. split; [|auto]. rewrite A1. case_decide; [|reflexivity]. unfold sock_at in *. congruence.
Qed.

Lemma quiet_then i t w1 w2 w3 : quiet i w1 w2 -> arrived i t w2 w3 -> arrived i t w1 w3.
Proof.
  intros [L1 H1] [L2 H2]. split; [congruence|]. intros j x Hx. destruct (H1 j x Hx) as (y & Hy & A1 & A2 & A3).
  destruct (H2 j y Hy) as (z & Hz & B1 & B2 & B3). exists z. split; [exact Hz|]. split; [rewrite B1, A1; reflexivity|]. split; [|eapply same_address_trans; eauto].
  intros Hne. rewrite B2, A2 by exact Hne. reflexivity.
Qed.

Lemma arrived_quiet i t w1 w2 w3 : arrived i t w1 w2 -> quiet i w2 w3 -> arrived i t w1 w3.
Proof.
  intros [L1 H1] [L2 H2]. split; [congruence|]. intros j x Hx. destruct (H1 j x Hx) as (y & Hy & A1 & A2 & A3).
  destruct (H2 j y Hy) as (z & Hz & B1 & B2 & B3). exists z. split; [exact Hz|]. split; [congruence|]. split; [|eapply same_address_trans; eauto].
  intros Hne. rewrite B2, A2 by exact Hne. reflexivity.
Qed.

(** Of two arrivals at the same socket the second decides. *)
Lemma arrived_twice i t u w1 w2 w3 : arrived i t w1 w2 -> arrived i u w2 w3 -> arrived i u w1 w3.
Proof.
  intros [L1 H1] [L2 H2]. split; [congruence|]. intros j x Hx. destruct (H1 j x Hx) as (y & Hy & A1 & A2 & A3).
  destruct (H2 j y Hy) as (z & Hz & B1 & B2 & B3). exists z. split; [exact Hz|]. split; [rewrite B1; case_decide; congruence|]. split; [|eapply same_address_trans; eauto].
  intros Hne. rewrite B2, A2 by exact Hne. reflexivity.
Qed.

Lemma put_arrived w i x y : sock_at w i x -> same_place x y -> arrived i (k_tcp y) w (put_sock w i y).
Proof.
  intros Hx Hs. split; [apply zset_length|]. intros j z Hz. destruct (decide (j = i)) as [->|Hne].
  - assert (z = x) by (unfold sock_at in *; congruence). subst z. exists y. split; [eapply put_sock_eq, Hx|]. split; [reflexivity|]. split; [congruence | exact Hs].
  - exists z. split; [apply put_sock_ne; auto|]. split; [reflexivity|]. unfold same_place. split_and!; auto.
Qed.

Lemma put_silent w i x y : sock_at w i x -> k_tcp y = k_tcp x -> same_place x y -> quiet i w (put_sock w i y).
Proof.
  intros Hx H1 Hs. destruct (put_arrived w i x y Hx Hs) as [L Hp]. split; [exact L|]. intros j z Hz. destruct (Hp j z Hz) as (z' & A1 & A2 & A3 & A4).
  exists z'. split; [exact A1|]. split; [|auto]. rewrite A2. case_decide; [unfold sock_at in *; congruence | reflexivity].
Qed.

Lemma modify_quiet w i f w' : modify w i f = Done w' -> (forall x, k_tcp (f x) = k_tcp x /\ same_place x (f x)) -> quiet i w w'.
Proof.
  unfold modify, get_sock. intros Hm Hf. destruct (zget (socks w) i) as [x|] eqn:Hx; cbn in Hm; [|discriminate]. injection Hm as <-.
  destruct (Hf x) as [A1 A2]. eapply put_silent; eauto.
Qed.

Lemma modify_quiet_other w i k f w' : modify w k f = Done w' -> (forall x, k_tcp (f x) = k_tcp x /\ k_peer (f x) = k_peer x /\ same_place x (f x)) -> quiet i w w'.
Proof.
  unfold modify, get_sock. intros Hm Hf. destruct (zget (socks w) k) as [x|] eqn:Hx; cbn in Hm; [|discriminate]. injection Hm as <-.
  destruct (Hf x) as (A1 & A2 & A3). destruct (put_silent w k x (f x) Hx A1 A3) as [L Hp]. split; [exact L|]. intros j z Hz.
  destruct (Hp j z Hz) as (z' & B1 & B2 & B3 & B4). exists z'. split; [exact B1|]. split; [exact B2|]. split; [|exact B4]. intros _.
  destruct (decide (j = k)) as [->|Hne]; [|auto]. assert (z = x) by (unfold sock_at in *; congruence). subst z.
  assert (z' = f x) by (pose proof (put_sock_eq w k x (f x) Hx); unfold sock_at in *; congruence). congruence.
Qed.

Lemma send_seg_quiet w i a b c d f g r w' : send_seg w i a b c d f g = Done (r, w') -> quiet i w w'.
Proof.
  unfold send_seg, get_sock. intros Hs. destruct (zget (socks w) i) as [x|] eqn:Hx; cbn in Hs; [|discriminate].
  destruct (transmit _ _ _ _ _ _ _ _) as [[r0 n0]| | |]; cbn in Hs; try discriminate. injection Hs as <- <-.
  assert (Hq : quiet i w (put_sock w i (with_seq (u32 (k_seq x + 1)) x))) by (eapply put_silent; [exact Hx | reflexivity | repeat split]). exact Hq.
Qed.

Lemma ack_peer_quiet w i syn w' : ack_peer w i syn = Done w' -> quiet i w w'.
Proof.
  unfold ack_peer, tcp_ack. intros Ha. destruct (get_sock w i); cbn in Ha; try discriminate. destruct (send_seg _ _ _ _ _ _ _ _) as [[r w1]| | |] eqn:E; cbn in Ha; try discriminate.
  injection Ha as <-. eapply send_seg_quiet, E.
Qed.

Lemma fin_peer_quiet w i w' : fin_peer w i = Done w' -> quiet i w w'.
Proof.
  unfold fin_peer, tcp_fin. intros Ha. destruct (get_sock w i); cbn in Ha; try discriminate. destruct (send_seg _ _ _ _ _ _ _ _) as [[r w1]| | |] eqn:E; cbn in Ha; try discriminate.
  injection Ha as <-. eapply send_seg_quiet, E.
Qed.

(** A chain of [modify]s that leave the states alone. *)
Ltac quiet_modify E := eapply modify_quiet; [exact E | intros; repeat split].

Lemma receive_syn_quiet w i hdr a b r w' : net_receive_syn w i hdr a b = Done (r, w') -> quiet i w w'.
Proof.
  unfold net_receive_syn. intros Hr. destruct (get_sock w i) as [x| | |]; cbn in Hr; try discriminate.
  destruct (negb (h_ack hdr)).
  - destruct (negb _); [injection Hr as <- <-; apply quiet_refl|].
    destruct (modify w i _) as [w1| | |] eqn:E1; cbn in Hr; try discriminate. destruct (modify w1 _ _) as [w2| | |] eqn:E2; cbn in Hr; try discriminate.
    destruct (sem_up w2 i) as [w3| | |] eqn:E3; cbn in Hr; try discriminate. injection Hr as <- <-.
    eapply quiet_trans; [quiet_modify E1|]. eapply quiet_trans; [eapply modify_quiet_other; [exact E2 | intros; repeat split] | quiet_modify E3].
  - destruct (negb _); [injection Hr as <- <-; apply quiet_refl|].
    destruct (modify w i _) as [w1| | |] eqn:E1; cbn in Hr; try discriminate. destruct (sem_up w1 i) as [w3| | |] eqn:E3; cbn in Hr; try discriminate. injection Hr as <- <-.
    eapply quiet_trans; [quiet_modify E1 | quiet_modify E3].
Qed.

Lemma receive_data_quiet w i hdr d r w' : net_receive_data w i hdr d = Done (r, w') -> quiet i w w'.
Proof.
  unfold net_receive_data, get_sock. intros Hr. destruct (zget (socks w) i) as [x|] eqn:Hx; cbn in Hr; [|discriminate].
  destruct (SockRing.put_data _ _ _) as [[r0 b0]| | |]; cbn in Hr; try discriminate.
  assert (Q : quiet i w (put_sock w i (with_buffer b0 x))) by (eapply put_silent; [exact Hx | reflexivity | repeat split]).
  destruct (r0 <? 0); [injection Hr as <- <-; exact Q|]. destruct (modify _ _ _) as [w1| | |] eqn:E1; cbn in Hr; try discriminate.
  destruct (ack_peer w1 i false) as [w2| | |] eqn:E2; cbn in Hr; try discriminate. injection Hr as <- <-.
  eapply quiet_trans; [exact Q|]. eapply quiet_trans; [quiet_modify E1 | eapply ack_peer_quiet, E2].
Qed.

Lemma modify_arrived w i t w' : modify w i (with_tcp t) = Done w' -> arrived i t w w'.
Proof.
  unfold modify, get_sock. intros Hm. destruct (zget (socks w) i) as [x|] eqn:Hx; cbn in Hm; [|discriminate]. injection Hm as <-.
  apply (put_arrived w i x (with_tcp t x) Hx). repeat split.
Qed.

Lemma receive_fin_arrived w i hdr a b r w' x : sock_at w i x -> net_receive_fin w i hdr a b = Done (r, w') ->
  arrived i (match k_tcp x with ST_CLOSED => ST_CLOSED | ST_FIN_WAIT_2 => ST_FIN_WAIT_2 | ST_ESTABLISHED => ST_LAST_ACK | _ => ST_CLOSED end) w w'.
Proof.
  intros Hx. unfold net_receive_fin. unfold get_sock at 1. rewrite Hx. cbn [deref obind]. intros Hr.
  assert (Closed : (let! w0 := modify w i (with_tcp ST_CLOSED) in Done (-1, w0)) = Done (r, w') -> arrived i ST_CLOSED w w').
  { intros E. destruct (modify w i _) as [w1| | |] eqn:E1; cbn [obind] in E; try discriminate. injection E as <- <-. apply modify_arrived, E1. }
  destruct (k_tcp x) eqn:Et; try (apply Closed, Hr).
  - injection Hr as <- <-. rewrite <- Et. apply quiet_arrived; [apply quiet_refl | exact Hx].
  - destruct (modify w i _) as [w1| | |] eqn:E1; cbn [obind] in Hr; try discriminate. destruct (ack_peer w1 i false) as [w2| | |] eqn:E2; cbn [obind] in Hr; try discriminate.
    destruct (modify w2 i _) as [w3| | |] eqn:E3; cbn [obind] in Hr; try discriminate. destruct (fin_peer w3 i) as [w4| | |] eqn:E4; cbn [obind] in Hr; try discriminate.
    destruct (modify w4 i _) as [w5| | |] eqn:E5; cbn [obind] in Hr; try discriminate. injection Hr as <- <-.
    eapply quiet_then; [eapply quiet_trans; [quiet_modify E1 | eapply ack_peer_quiet, E2]|].
    eapply arrived_twice; [eapply arrived_quiet; [eapply modify_arrived, E3 | eapply fin_peer_quiet, E4] | eapply modify_arrived, E5].
  - destruct (sem_up w i) as [w1| | |] eqn:E1; cbn [obind] in Hr; try discriminate. injection Hr as <- <-. rewrite <- Et. apply quiet_arrived; [quiet_modify E1 | exact Hx].
Qed.

Lemma receive_ack_arrived w i hdr a b r w' x : sock_at w i x -> net_receive_ack w i hdr a b = Done (r, w') ->
  arrived i (if negb (ntohl (a_ip (k_peer x)) =? a) || negb (ntohs (a_port (k_peer x)) =? b) then k_tcp x
             else match k_tcp x with ST_FIN_WAIT_1 => ST_FIN_WAIT_2 | ST_LAST_ACK => ST_CLOSED | t => t end) w w'.
Proof.
  intros Hx. unfold net_receive_ack. unfold get_sock at 1. rewrite Hx. cbn [deref obind]. intros Hr.
  assert (Q : quiet i w w' -> arrived i (k_tcp x) w w') by (intros q; apply quiet_arrived; assumption).
  destruct (_ || _); [injection Hr as <- <-; apply Q, quiet_refl|].
  destruct (k_tcp x) eqn:Et; try (injection Hr as <- <-; apply Q, quiet_refl);
    try (destruct (sem_up w i) as [w1| | |] eqn:E1; cbn [obind] in Hr; try discriminate; injection Hr as <- <-; apply Q; quiet_modify E1);
    (destruct (modify w i _) as [w1| | |] eqn:E1; cbn [obind] in Hr; try discriminate; injection Hr as <- <-; apply modify_arrived, E1).
Qed.

Lemma net_receive_arrived w i hdr a b d r w' x : sock_at w i x -> net_receive w i hdr a b d = Done (r, w') -> arrived i (next_tcp hdr a b x) w w'.
Proof.
  intros Hx. unfold net_receive. rewrite (modify_at _ _ _ _ Hx). cbn [obind]. set (x1 := with_ack _ x). intros Hr.
  assert (Hx1 : sock_at (put_sock w i x1) i x1) by (eapply put_sock_eq, Hx).
  eapply quiet_then; [apply (put_silent w i x x1 Hx); [reflexivity | repeat split]|]. unfold next_tcp.
  destruct (h_syn hdr); [apply (quiet_arrived i _ _ x1); [eapply receive_syn_quiet, Hr | exact Hx1]|].
  destruct (h_fin hdr); [exact (receive_fin_arrived _ _ _ _ _ _ _ _ Hx1 Hr)|].
  destruct (h_ack hdr); [exact (receive_ack_arrived _ _ _ _ _ _ _ _ Hx1 Hr)|].
  apply (quiet_arrived i _ _ x1); [eapply receive_data_quiet, Hr | exact Hx1].
Qed.

(** What the loop from [i] on does to socket [j]: nothing, or what [net_receive] does to a socket the segment is for; the
    first such socket it does reach. *)
Definition reached (hdr : seg_hdr) (src_ip i : Z) (n : nat) w j (x x' : stream) : Prop :=
  let t := next_tcp hdr src_ip (ntohs (h_src_port hdr)) x in
  (k_tcp x' = k_tcp x \/ (i <= j /\ addressed hdr x /\ k_tcp x' = t)) /\
  (addressed hdr x -> i <= j < i + Z.of_nat n -> (forall k y, sock_at w k y -> i <= k < j -> ~ addressed hdr y) -> k_tcp x' = t).

Lemma receive_loop_arrived hdr d a : forall n i w r w', receive_loop n i w hdr d a = Done (r, w') ->
  length (socks w') = length (socks w) /\
  forall j x, sock_at w j x -> exists x', sock_at w' j x' /\ reached hdr a i n w j x x' /\ same_place x x'.
Proof.
  induction n as [|n IH]; intros i w r w' Hr; cbn [receive_loop] in Hr.
  { injection Hr as <- <-. split; [reflexivity|]. intros j x Hx. exists x. split; [exact Hx|]. split; [split; [auto | lia] | repeat split]. }
  unfold get_sock in Hr. destruct (zget (socks w) i) as [x|] eqn:Ex; cbn [deref obind] in Hr; [|discriminate].
  assert (Skip : ~ addressed hdr x -> receive_loop n (i + 1) w hdr d a = Done (r, w') -> length (socks w') = length (socks w) /\
    forall j y, sock_at w j y -> exists y', sock_at w' j y' /\ reached hdr a i (S n) w j y y' /\ same_place y y').
  { intros Hna Hs. destruct (IH _ _ _ _ Hs) as [L Hj]. split; [exact L|]. intros j y Hy. destruct (Hj j y Hy) as (y' & H1 & (H2 & H3) & H4). exists y'.
    split; [exact H1|]. split; [|exact H4]. split; [destruct H2 as [H2|H2]; [auto | right; intuition lia]|].
    intros Ha Hr' Hfirst. apply H3; [exact Ha | | intros k z Hz Hk; apply (Hfirst k z Hz); lia].
    destruct (decide (j = i)) as [->|]; [|lia]. assert (y = x) by (unfold sock_at in *; congruence). subst y. contradiction. }
  destruct (k_ref x =? 0) eqn:Er; tests; [apply Skip; [intros [? _]; contradiction | exact Hr]|].
  destruct (a_port (k_addr x) =? h_dst_port hdr) eqn:Ep; tests; [|apply Skip; [intros [_ ?]; contradiction | exact Hr]].
  destruct (net_receive w i hdr a (ntohs (h_src_port hdr)) d) as [[r1 w1]| | |] eqn:E1; cbn [obind] in Hr; try discriminate.
  destruct (net_receive_arrived _ _ _ _ _ _ _ _ x Ex E1) as [L1 H1]. assert (Hadr : addressed hdr x) by (split; assumption).
  assert (Step : length (socks w1) = length (socks w) /\ forall j y, sock_at w j y -> exists y', sock_at w1 j y' /\ reached hdr a i (S n) w j y y' /\ same_place y y').
  { split; [exact L1|]. intros j y Hy. destruct (H1 j y Hy) as (y' & A1 & A2 & A3 & A4). exists y'. split; [exact A1|]. split; [|exact A4]. destruct (decide (j = i)) as [->|Hne].
    - assert (y = x) by (unfold sock_at in *; congruence). subst y. split; [right; split; [lia | auto] | intros; exact A2].
    - split; [auto|]. intros _ Hj Hfirst. exfalso. apply (Hfirst i x Ex); [lia | exact Hadr]. }
  destruct (r1 =? 0); [injection Hr as <- <-; exact Step|].
  destruct (IH _ _ _ _ Hr) as [L2 H2]. split; [congruence|]. intros j y Hy. destruct (H1 j y Hy) as (y1 & A1 & A2 & A3 & A4).
  destruct (H2 j y1 A1) as (y2 & B1 & (B2 & B3) & B4). exists y2. split; [exact B1|]. split; [|eapply same_address_trans; eauto].
  destruct (decide (j = i)) as [->|Hne].
  - assert (y = x) by (unfold sock_at in *; congruence). subst y. destruct B2 as [B2|[B2 _]]; [|lia].
    split; [right; split; [lia | split; [exact Hadr | congruence]] | intros; congruence].
  - assert (Hadq : addressed hdr y1 <-> addressed hdr y) by (destruct A4 as (_ & R & P); unfold addressed; rewrite R, P; tauto).
    assert (Hn : next_tcp hdr a (ntohs (h_src_port hdr)) y1 = next_tcp hdr a (ntohs (h_src_port hdr)) y) by (unfold next_tcp; rewrite A2, A3 by exact Hne; reflexivity).
    split.
    + destruct B2 as [B2|(B2 & B5 & B6)]; [left; congruence | right; split; [lia|]; split; [apply Hadq, B5 | congruence]].
    + intros _ Hj Hfirst. exfalso. apply (Hfirst i x Ex); [lia | exact Hadr].
Qed.

Lemma stream_receive_arrived w hdr d a r w' : stream_net_receive w hdr d a = Done (r, w') ->
  length (socks w') = length (socks w) /\
  forall j x, sock_at w j x -> exists x', sock_at w' j x' /\ reached hdr a 0 (Z.to_nat MAX_STREAM_SOCKET) w j x x' /\ same_place x x'.
Proof. apply receive_loop_arrived. Qed.

(** ** The dispatch *)

(** The sockets in use below [i] are on other ports than [port]. *)
Definition first_on w i port : Prop := forall j x, sock_at w j x -> j < i -> k_ref x <> 0 -> a_port (k_addr x) <> port.

Lemma receive_loop_hits hdr d a i x w w' : sock_at w i x -> k_ref x <> 0 -> a_port (k_addr x) = h_dst_port hdr -> first_on w i (h_dst_port hdr) ->
  net_receive w i hdr a (ntohs (h_src_port hdr)) d = Done (0, w') ->
  forall n j, 0 <= j <= i -> i < j + Z.of_nat n -> j + Z.of_nat n <= zlen (socks w) -> receive_loop n j w hdr d a = Done (0, w').
Proof.
  intros Hx Hr Hp Hf Hn. induction n as [|n IH]; intros j Hj Hlt Hlen; [lia|]. cbn [receive_loop].
  destruct (zget_in_range (socks w) j ltac:(lia)) as [y Hy]. rewrite (get_sock_at _ _ _ Hy). cbn [obind].
  destruct (Z.eq_dec j i) as [->|Hne].
  - assert (y = x) by (unfold sock_at in *; congruence). subst y. replace (k_ref x =? 0) with false by lia. replace (a_port (k_addr x) =? h_dst_port hdr) with true by lia.
    rewrite Hn. reflexivity.
  - assert (Hs : receive_loop n (j + 1) w hdr d a = Done (0, w')) by (apply IH; lia).
    destruct (k_ref y =? 0) eqn:Er; [exact Hs|]. tests. destruct (a_port (k_addr y) =? h_dst_port hdr) eqn:Ep; [|exact Hs]. tests.
    exfalso. apply (Hf j y Hy); [lia | exact Er | exact Ep].
Qed.

Lemma dispatch_hits hdr d a i x w w' : zlen (socks w) = MAX_STREAM_SOCKET -> sock_at w i x -> k_ref x <> 0 -> a_port (k_addr x) = h_dst_port hdr ->
  first_on w i (h_dst_port hdr) -> net_receive w i hdr a (ntohs (h_src_port hdr)) d = Done (0, w') -> stream_net_receive w hdr d a = Done (0, w').
Proof.
  intros Hl Hx Hr Hp Hf Hn. pose proof (zget_Some_range _ _ _ Hx). unfold stream_net_receive.
  eapply receive_loop_hits; eauto; unfold MAX_STREAM_SOCKET in *; lia.
Qed.

Lemma first_on_put w i j x y port : sock_at w j x -> k_ref y = k_ref x -> a_port (k_addr y) = a_port (k_addr x) -> first_on w i port -> first_on (put_sock w j y) i port.
Proof.
  intros Hx Hr Hp Hf k z Hz Hk Hz0. destruct (decide (j = k)) as [<-|Hne].
  - assert (z = y) by (pose proof (put_sock_eq _ _ _ y Hx); unfold sock_at in *; congruence). subst z. rewrite Hp. apply (Hf j x Hx Hk). congruence.
  - apply (Hf k z); auto. unfold sock_at, put_sock in *. cbn in Hz. rewrite zget_zset_ne in Hz; [exact Hz | apply zget_Some_range in Hz; lia | exact Hne].
Qed.

(** ** A free port *)

Definition free_port w (port : Z) : Prop := forall j x, sock_at w j x -> k_ref x <> 0 -> a_port (k_addr x) <> htons port.

Lemma port_taken_free w port : free_port w port -> forall n s, 0 <= s -> s + Z.of_nat n <= zlen (socks w) -> port_taken n w s port = Done (false, s + Z.of_nat n).
Proof.
  intros Hf. induction n as [|n IH]; intros s Hs Hl; cbn [port_taken]; [f_equal; f_equal; lia|].
  destruct (zget_in_range (socks w) s ltac:(lia)) as [x Hx]. rewrite (get_sock_at _ _ _ Hx). cbn [obind].
  replace ((0 <? k_ref x) && (a_port (k_addr x) =? htons port)) with false.
  - rewrite IH by lia. do 2 f_equal. lia.
  - destruct (0 <? k_ref x) eqn:E; [|reflexivity]. tests. symmetry. apply Z.eqb_neq, (Hf s x Hx). lia.
Qed.

Lemma get_port_free w i x : zlen (socks w) = MAX_STREAM_SOCKET -> sock_at w i x -> free_port w 4096 ->
  get_not_used_port w i = Done (put_sock w i (with_addr (mk_addr (a_family (k_addr x)) (a_ip (k_addr x)) (htons 4096)) x)).
Proof.
  intros Hl Hx Hf. unfold get_not_used_port. replace (Z.to_nat (65535 - 4096)) with (S (Z.to_nat 61438)) by lia. cbn [port_loop].
  replace (4096 <? 65535) with true by lia. rewrite port_taken_free by (auto; unfold MAX_STREAM_SOCKET in *; lia). cbn [obind].
  rewrite (get_sock_at _ _ _ Hx). reflexivity.
Qed.
End Stream.
Arguments world N : clear implicits.

(** ** The three-way handshake

    Two hosts on a wire. *)

(** The header a segment arrives with. *)
Definition hdr_of (g : segment) : seg_hdr :=
  mk_hdr (htons (g_src_port g)) (htons (g_dst_port g)) (htonl (g_seq g)) (htonl (g_ack g)) (f_fin (g_flags g)) (f_syn (g_flags g)) (f_ack (g_flags g)).

(** It is what [tcp_t::transmit] writes. *)
Lemma parse_tcp_hdr g window sum urg : 0 <= g_src_port g < 2 ^ 16 -> 0 <= g_dst_port g < 2 ^ 16 -> 0 <= g_seq g < 2 ^ 32 -> 0 <= g_ack g < 2 ^ 32 ->
  parse_hdr (tcp_hdr (htons (g_src_port g)) (htons (g_dst_port g)) (htonl (g_seq g)) (htonl (g_ack g)) (TCP_HDR_LEN / 4) (g_flags g) window sum urg) = hdr_of g.
Proof.
  intros H1 H2 H3 H4. destruct g as [a sp dp sq ak [f1 f2 f3] dt]. cbn [g_src_port g_dst_port g_seq g_ack g_flags] in *. unfold parse_hdr, hdr_of. cbn [g_src_port g_dst_port g_seq g_ack g_flags].
  set (h := tcp_hdr _ _ _ _ _ _ _ _ _).
  change (take 2 h) with (le_bytes 2 (htons sp)). change (take 2 (drop 2 h)) with (le_bytes 2 (htons dp)).
  change (take 4 (drop 4 h)) with (le_bytes 4 (htonl sq)). change (take 4 (drop 8 h)) with (le_bytes 4 (htonl ak)).
  change (default 0 (zget h 13)) with (flags_val (mk_flags f1 f2 f3)). rewrite !le_value_bytes. change (256 ^ Z.of_nat 2) with (2 ^ 16). change (256 ^ Z.of_nat 4) with (2 ^ 32).
  rewrite !(Z.mod_small (htons _)) by (apply htons_range; assumption). rewrite !(Z.mod_small (htonl _)) by (apply htonl_range; assumption).
  destruct f1, f2, f3; reflexivity.
Qed.

Definition deliver (w : world wire) (src_ip : Z) (g : segment) : outcome (Z * world wire) := stream_net_receive w (hdr_of g) (g_data g) src_ip.

(** The last segment a host put on the wire. *)
Definition last_sent (w : world wire) : outcome segment := deref (last (w_sent (wnet w))).

(** A client and a server up to the end of the handshake: the client's [connect] on the
    socket [i], the server's [accept] with the listening socket [l] and the new socket
    [d], and the interrupt handlers in between. *)
Definition handshake (c : world wire) (i : Z) (s : world wire) (l d : Z) (addr : sock_addr) : outcome (world wire * world wire) :=
  let! ' (_, c) := connect_start c i addr in
  let! syn := last_sent c in
  let! ' (_, s) := deliver s (ipaddr (wnet c)) syn in
  let! s := accept_wait s l in
  let! s := accept_peer s d l in
  let! synack := last_sent s in
  let! ' (_, c) := deliver c (ipaddr (wnet s)) synack in
  let! ' (_, c) := connect_finish c i in
  let! ack := last_sent c in
  let! ' (_, s) := deliver s (ipaddr (wnet c)) ack in
  let! ' (_, s) := accept_finish s d in
  Done (c, s).

(** [w'] is [w] with the socket [i] replaced by [y] and the wire [n]. *)
Definition upd_at (i : Z) (w w' : world wire) (y : stream) (n : wire) : Prop :=
  zlen (socks w') = zlen (socks w) /\ sock_at w' i y /\ (forall j, j <> i -> zget (socks w') j = zget (socks w) j) /\ wnet w' = n.

Lemma upd_trans i w1 w2 w3 y z n n' : upd_at i w1 w2 y n -> upd_at i w2 w3 z n' -> upd_at i w1 w3 z n'.
Proof.
  intros (L1 & S1 & O1 & N1) (L2 & S2 & O2 & N2). split; [congruence|]. split; [exact S2|]. split; [|exact N2]. intros j Hj. rewrite O2, O1 by exact Hj. reflexivity.
Qed.

Lemma put_upd w i x y n : sock_at w i x -> upd_at i w (mk_world (zset (socks w) i y) n) y n.
Proof.
  intros Hx. split; [unfold zlen; cbn; rewrite zset_length; reflexivity|]. split; [apply zget_zset_eq; eapply zget_Some_range, Hx|]. split; [|reflexivity].
  intros j Hj. cbn. destruct (Z.lt_ge_cases j 0); [unfold zget; replace (j <? 0) with true by lia; reflexivity | apply zget_zset_ne; lia].
Qed.

Lemma modify_upd w i x f : sock_at w i x -> exists w', modify w i f = Done w' /\ upd_at i w w' (f x) (wnet w).
Proof. intros Hx. rewrite (modify_at _ _ _ _ Hx). eexists. split; [reflexivity | eapply put_upd, Hx]. Qed.

Lemma sem_up_upd w i x : sock_at w i x -> exists w', sem_up w i = Done w' /\ upd_at i w w' (with_sem (up1 (k_sem x)) x) (wnet w).
Proof. intros Hx. rewrite (sem_up_at _ _ _ Hx). eexists. split; [reflexivity | eapply put_upd, Hx]. Qed.

Lemma sem_down_upd w i x : sock_at w i x -> 0 < k_sem x -> exists w', sem_down w i = Done w' /\ upd_at i w w' (with_sem (k_sem x - 1) x) (wnet w).
Proof. intros Hx Hs. rewrite (sem_down_at _ _ _ Hx Hs). eexists. split; [reflexivity | eapply put_upd, Hx]. Qed.

Lemma send_upd w i x a b c e f g : sock_at w i x -> exists w', send_seg w i a b c e f g = Done (0, w') /\
  upd_at i w w' (with_seq (u32 (k_seq x + 1)) x) (mk_wire (w_ip (wnet w)) (w_sent (wnet w) ++ [mk_seg a b c (k_seq x) e f g])).
Proof. intros Hx. unfold send_seg. rewrite (get_sock_at _ _ _ Hx). cbn. eexists. split; [reflexivity | eapply put_upd, Hx]. Qed.

(** The ACK a socket sends to its peer. *)
Definition ack_of (x : stream) (syn : bool) : segment :=
  mk_seg (ntohl (a_ip (k_peer x))) (ntohs (a_port (k_addr x))) (ntohs (a_port (k_peer x))) (k_seq x) (k_ack x) (mk_flags false syn true) [].

Lemma ack_peer_upd w i x syn : sock_at w i x -> exists w', ack_peer w i syn = Done w' /\
  upd_at i w w' (with_seq (u32 (k_seq x + 1)) x) (mk_wire (w_ip (wnet w)) (w_sent (wnet w) ++ [ack_of x syn])).
Proof.
  intros Hx. unfold ack_peer, tcp_ack. rewrite (get_sock_at _ _ _ Hx). cbn [obind]. edestruct (send_upd w i x) as (w' & E & U); [exact Hx|]. rewrite E. cbn [obind]. eauto.
Qed.

Lemma upd_other i w w' y n j x : upd_at i w w' y n -> j <> i -> sock_at w j x -> sock_at w' j x.
Proof. intros (_ & _ & O & _) Hj Hx. unfold sock_at. rewrite O by exact Hj. exact Hx. Qed.

Lemma first_on_upd i w w' x y n k port : upd_at i w w' y n -> sock_at w i x -> k_ref y = k_ref x -> a_port (k_addr y) = a_port (k_addr x) ->
  first_on w k port -> first_on w' k port.
Proof.
  intros (L & Sy & O & _) Hx Hr Hp Hf j z Hz Hj Hz0. destruct (decide (j = i)) as [->|Hne].
  - assert (z = y) by (unfold sock_at in *; congruence). subst z. rewrite Hp. apply (Hf i x Hx Hj). congruence.
  - apply (Hf j z); auto. unfold sock_at in *. rewrite O in Hz by exact Hne. exact Hz.
Qed.

Lemma free_first_on i w w' y n port : upd_at i w w' y n -> free_port w port -> first_on w' i (htons port).
Proof.
  intros (L & Sy & O & _) Hf j z Hz Hj Hz0. apply (Hf j z); auto. unfold sock_at in *. rewrite O in Hz by lia. exact Hz.
Qed.

Lemma free_port_upd i w w' x y n port : upd_at i w w' y n -> sock_at w i x -> k_ref y = k_ref x -> a_port (k_addr y) = a_port (k_addr x) ->
  free_port w port -> free_port w' port.
Proof.
  intros (L & Sy & O & _) Hx Hr Hp Hf j z Hz Hz0. destruct (decide (j = i)) as [->|Hne].
  - assert (z = y) by (unfold sock_at in *; congruence). subst z. rewrite Hp. apply (Hf i x Hx). congruence.
  - apply (Hf j z); auto. unfold sock_at in *. rewrite O in Hz by exact Hne. exact Hz.
Qed.

(** The client's socket after [connect] sent its SYN. *)
Definition syn_sent (ip : Z) (x : stream) : stream :=
  with_tcp ST_SYN_SENT (with_seq (u32 (k_seq x + 1)) (with_addr (mk_addr (a_family (k_addr x)) (htonl ip) (htons 4096)) x)).

Definition syn_of (x : stream) (addr : sock_addr) : segment :=
  mk_seg (ntohl (a_ip addr)) 4096 (ntohs (a_port addr)) (k_seq x) 0 (mk_flags false true false) [].

Lemma connect_start_upd w i x addr : zlen (socks w) = MAX_STREAM_SOCKET -> sock_at w i x -> k_state x = SS_UNCONNECTED -> k_tcp x = ST_CLOSED ->
  a_family addr = AF_INET -> free_port w 4096 ->
  exists w', connect_start w i addr = Done (0, w') /\
    upd_at i w w' (syn_sent (w_ip (wnet w)) x) (mk_wire (w_ip (wnet w)) (w_sent (wnet w) ++ [syn_of x addr])).
Proof.
  intros Hl Hx Hs Ht Ha Hf. unfold connect_start. rewrite Ha. change (negb (AF_INET =? AF_INET)) with false. cbn iota. rewrite (get_sock_at _ _ _ Hx). cbn [obind]. rewrite Hs, Ht.
  rewrite !bool_decide_false by discriminate. rewrite bool_decide_true by reflexivity. cbn [negb].
  edestruct (modify_upd w i x) as (w1 & E1 & U1); [exact Hx|]. rewrite E1. cbn [obind]. pose proof U1 as (L1 & S1 & O1 & N1).
  rewrite (get_port_free w1 i _ ltac:(congruence) S1) by (eapply free_port_upd; eauto). cbn [obind]. cbn [k_addr with_addr a_family a_ip].
  set (x2 := with_addr _ (with_addr _ _)). assert (U2 : upd_at i w1 (put_sock w1 i x2) x2 (wnet w1)) by (eapply put_upd, S1). pose proof U2 as (L2 & S2 & O2 & N2).
  unfold tcp_syn. rewrite (get_sock_at _ _ _ S2). cbn [obind]. edestruct (send_upd (put_sock w1 i x2) i x2) as (w3 & E3 & U3); [exact S2|]. rewrite E3. cbn [obind].
  pose proof U3 as (L3 & S3 & O3 & N3). edestruct (modify_upd w3 i) as (w4 & E4 & U4); [exact S3|]. rewrite E4. cbn [obind]. eexists. split; [reflexivity|].
  pose proof (upd_trans _ _ _ _ _ _ _ _ U1 (upd_trans _ _ _ _ _ _ _ _ U2 (upd_trans _ _ _ _ _ _ _ _ U3 U4))) as U. rewrite N3, N2, N1 in U.
  assert (Ep : ntohs (a_port (k_addr x2)) = 4096) by reflexivity. rewrite Ep in U. exact U.
Qed.

(** The listening socket and the new one after a SYN. *)
Lemma syn_arrives w l d xl xd g src_ip : zlen (socks w) = MAX_STREAM_SOCKET -> sock_at w l xl -> sock_at w d xd -> l <> d ->
  k_tcp xl = ST_LISTEN -> k_ref xl <> 0 -> k_conn xl = [] -> k_dup xl = d -> 0 <= k_sem xl < 2 ^ 32 - 1 ->
  g_flags g = mk_flags false true false -> a_port (k_addr xl) = htons (g_dst_port g) -> first_on w l (htons (g_dst_port g)) ->
  exists w' xl', deliver w src_ip g = Done (0, w') /\ zlen (socks w') = zlen (socks w) /\ wnet w' = wnet w /\
    sock_at w' l xl' /\ k_sem xl' = k_sem xl + 1 /\ k_conn xl' = [mk_addr 0 (ntohl src_ip) (ntohs (ntohs (htons (g_src_port g))))] /\
    k_ref xl' = k_ref xl /\ k_addr xl' = k_addr xl /\
    sock_at w' d (with_ack (u32 (ntohl (htonl (g_seq g)) + 1)) xd) /\ (forall j, j <> l -> j <> d -> zget (socks w') j = zget (socks w) j).
Proof.
  intros Hlen Hl Hd Hne Ht Hr Hc Hdup Hsem Hfl Hp Hf.
  edestruct (modify_upd w l xl (with_ack (u32 (ntohl (htonl (g_seq g)) + 1)))) as (w1 & E1 & U1); [exact Hl|]. pose proof U1 as (L1 & S1 & O1 & N1). set (x1 := with_ack _ xl) in *.
  edestruct (modify_upd w1 l x1 (with_conn (k_conn x1 ++ [mk_addr 0 (ntohl src_ip) (ntohs (ntohs (htons (g_src_port g))))]))) as (w2 & E2 & U2); [exact S1|]. pose proof U2 as (L2 & S2 & O2 & N2).
  assert (Sd2 : sock_at w2 d xd) by (eapply upd_other; [exact U2 | auto | eapply upd_other; [exact U1 | auto | exact Hd]]).
  edestruct (modify_upd w2 d xd (with_ack (u32 (ntohl (htonl (g_seq g)) + 1)))) as (w3 & E3 & U3); [exact Sd2|]. pose proof U3 as (L3 & S3 & O3 & N3).
  pose proof (upd_other _ _ _ _ _ _ _ U3 Hne S2) as Sl3. edestruct (sem_up_upd w3 l) as (w4 & E4 & U4); [exact Sl3|]. pose proof U4 as (L4 & S4 & O4 & N4).
  exists w4. eexists. split; [|split; [congruence | split; [congruence | split; [exact S4|]]]].
  - unfold deliver. eapply dispatch_hits; [exact Hlen | exact Hl | exact Hr | cbn [hdr_of h_dst_port]; exact Hp | cbn [hdr_of h_dst_port]; exact Hf |].
    unfold net_receive, hdr_of. cbn [h_seq_no h_syn h_src_port]. rewrite E1. cbn [obind]. rewrite Hfl. cbn [f_syn].
    unfold net_receive_syn. cbn [h_ack f_ack]. rewrite (get_sock_at _ _ _ S1). cbn [obind negb]. change (k_tcp x1) with (k_tcp xl). rewrite Ht, bool_decide_true by reflexivity. cbn [negb].
    rewrite E2. cbn [obind h_seq_no]. change (k_dup x1) with (k_dup xl). rewrite Hdup, E3. cbn [obind]. rewrite E4. reflexivity.
  - split; [change (up1 (k_sem xl) = k_sem xl + 1); unfold up1; apply u32_small; lia|].
    split; [change (k_conn xl ++ [mk_addr 0 (ntohl src_ip) (ntohs (ntohs (htons (g_src_port g))))] = [mk_addr 0 (ntohl src_ip) (ntohs (ntohs (htons (g_src_port g))))]); rewrite Hc; reflexivity|].
    split; [reflexivity|]. split; [reflexivity|].
    split; [eapply upd_other; [exact U4 | auto | exact S3]|]. intros j Hj1 Hj2. rewrite O4, O3, O2, O1 by auto. reflexivity.
Qed.

Lemma first_on_deliver w a g r w' k port : deliver w a g = Done (r, w') -> first_on w k port -> first_on w' k port.
Proof.
  unfold deliver, stream_net_receive. intros Hd Hf j z Hz Hj Hz0. destruct (receive_loop_arrived _ _ _ _ _ _ _ _ Hd) as [L HH].
  destruct (zget_in_range (socks w) j) as [x Hx]; [apply zget_Some_range in Hz; unfold zlen in *; rewrite L in Hz; exact Hz|].
  destruct (HH j x Hx) as (x' & Hx' & _ & _ & A2 & A3). assert (x' = z) by (unfold sock_at in *; congruence). subst x'. rewrite A3. apply (Hf j x Hx Hj). congruence.
Qed.

Lemma accept_peer_upd w l d xl xd addr : sock_at w l xl -> sock_at w d xd -> l <> d -> k_conn xl = [addr] ->
  let x := with_tcp ST_SYN_RCVD (with_peer addr xd) in
  exists w', accept_peer w d l = Done w' /\ zlen (socks w') = zlen (socks w) /\ sock_at w' d (with_seq (u32 (k_seq xd + 1)) x) /\
    wnet w' = mk_wire (w_ip (wnet w)) (w_sent (wnet w) ++ [ack_of x true]) /\ forall k port, first_on w k port -> first_on w' k port.
Proof.
  intros Hl Hd Hne Hc x. unfold accept_peer. rewrite (get_sock_at _ _ _ Hl). cbn [obind]. rewrite Hc. cbn [head deref obind tail].
  edestruct (modify_upd w l xl (with_conn [])) as (w1 & E1 & U1); [exact Hl|]. rewrite E1. cbn [obind]. pose proof U1 as (L1 & S1 & O1 & N1).
  pose proof (upd_other _ _ _ _ _ _ _ U1 (not_eq_sym Hne) Hd) as Sd1.
  edestruct (modify_upd w1 d xd (fun y => with_tcp ST_SYN_RCVD (with_peer addr y))) as (w2 & E2 & U2); [exact Sd1|]. rewrite E2. cbn [obind]. pose proof U2 as (L2 & S2 & O2 & N2).
  edestruct (ack_peer_upd w2 d) as (w3 & E3 & U3); [exact S2|]. rewrite E3. pose proof U3 as (L3 & S3 & O3 & N3).
  exists w3. split; [reflexivity|]. split; [congruence|]. split; [exact S3|]. split; [rewrite N3, N2, N1; reflexivity|]. intros k port Hf.
  eapply first_on_upd; [exact U3 | exact S2 | reflexivity | reflexivity|]. eapply first_on_upd; [exact U2 | exact Sd1 | reflexivity | reflexivity|].
  eapply first_on_upd; [exact U1 | exact Hl | reflexivity | reflexivity | exact Hf].
Qed.

Lemma synack_arrives w i x g src_ip : zlen (socks w) = MAX_STREAM_SOCKET -> sock_at w i x -> k_tcp x = ST_SYN_SENT -> k_ref x <> 0 ->
  g_flags g = mk_flags false true true -> a_port (k_addr x) = htons (g_dst_port g) -> first_on w i (htons (g_dst_port g)) ->
  let y := with_ack (u32 (ntohl (htonl (g_seq g)) + 1)) (with_peer (mk_addr (a_family (k_peer x)) (htonl src_ip) (htons (ntohs (htons (g_src_port g))))) x) in
  exists w', deliver w src_ip g = Done (0, w') /\ upd_at i w w' (with_sem (up1 (k_sem x)) y) (wnet w).
Proof.
  intros Hlen Hx Ht Hr Hfl Hp Hf y.
  edestruct (modify_upd w i x (with_ack (u32 (ntohl (htonl (g_seq g)) + 1)))) as (w1 & E1 & U1); [exact Hx|]. pose proof U1 as (L1 & S1 & O1 & N1). set (x1 := with_ack _ x) in *.
  edestruct (modify_upd w1 i x1 (fun x => with_ack (u32 (ntohl (htonl (g_seq g)) + 1)) (with_peer (mk_addr (a_family (k_peer x)) (htonl src_ip) (htons (ntohs (htons (g_src_port g))))) x)))
    as (w2 & E2 & U2); [exact S1|]. pose proof U2 as (L2 & S2 & O2 & N2).
  edestruct (sem_up_upd w2 i) as (w3 & E3 & U3); [exact S2|]. exists w3. split.
  - unfold deliver. eapply dispatch_hits; [exact Hlen | exact Hx | exact Hr | cbn [hdr_of h_dst_port]; exact Hp | cbn [hdr_of h_dst_port]; exact Hf |].
    unfold net_receive, hdr_of. cbn [h_seq_no h_syn h_src_port]. rewrite E1. cbn [obind]. rewrite Hfl. cbn [f_syn]. unfold net_receive_syn. cbn [h_ack f_ack].
    rewrite (get_sock_at _ _ _ S1). cbn [obind negb]. change (k_tcp x1) with (k_tcp x). rewrite Ht, bool_decide_true by reflexivity. cbn [negb h_seq_no].
    rewrite E2. cbn [obind]. rewrite E3. reflexivity.
  - pose proof (upd_trans _ _ _ _ _ _ _ _ U1 (upd_trans _ _ _ _ _ _ _ _ U2 U3)) as U. rewrite N2, N1 in U. exact U.
Qed.

Lemma connect_finish_upd w i x : sock_at w i x -> 0 < k_sem x ->
  let y := with_state SS_CONNECTED (with_tcp ST_ESTABLISHED (with_sem (k_sem x - 1) x)) in
  exists w', connect_finish w i = Done (0, w') /\
    upd_at i w w' (with_seq (u32 (k_seq x + 1)) y) (mk_wire (w_ip (wnet w)) (w_sent (wnet w) ++ [ack_of x false])).
Proof.
  intros Hx Hs y. unfold connect_finish. edestruct (sem_down_upd w i x) as (w1 & E1 & U1); [exact Hx | exact Hs|]. rewrite E1. cbn [obind]. pose proof U1 as (L1 & S1 & O1 & N1).
  edestruct (modify_upd w1 i (with_sem (k_sem x - 1) x) (fun x => with_state SS_CONNECTED (with_tcp ST_ESTABLISHED x))) as (w2 & E2 & U2); [exact S1|]. rewrite E2. cbn [obind]. pose proof U2 as (L2 & S2 & O2 & N2).
  edestruct (ack_peer_upd w2 i) as (w3 & E3 & U3); [exact S2|]. rewrite E3. cbn [obind]. eexists. split; [reflexivity|].
  pose proof (upd_trans _ _ _ _ _ _ _ _ U1 (upd_trans _ _ _ _ _ _ _ _ U2 U3)) as U. rewrite N2, N1 in U. exact U.
Qed.

Lemma ack_arrives w d x g src_ip : zlen (socks w) = MAX_STREAM_SOCKET -> sock_at w d x -> k_tcp x = ST_SYN_RCVD -> k_ref x <> 0 ->
  g_flags g = mk_flags false false true -> a_port (k_addr x) = htons (g_dst_port g) -> first_on w d (htons (g_dst_port g)) ->
  ntohl (a_ip (k_peer x)) = src_ip -> ntohs (a_port (k_peer x)) = ntohs (htons (g_src_port g)) ->
  exists w', deliver w src_ip g = Done (0, w') /\ upd_at d w w' (with_sem (up1 (k_sem x)) (with_ack (u32 (ntohl (htonl (g_seq g)) + 1)) x)) (wnet w).
Proof.
  intros Hlen Hx Ht Hr Hfl Hp Hf Hip Hport.
  edestruct (modify_upd w d x (with_ack (u32 (ntohl (htonl (g_seq g)) + 1)))) as (w1 & E1 & U1); [exact Hx|]. pose proof U1 as (L1 & S1 & O1 & N1). set (x1 := with_ack _ x) in *.
  edestruct (sem_up_upd w1 d) as (w2 & E2 & U2); [exact S1|]. exists w2. split.
  - unfold deliver. eapply dispatch_hits; [exact Hlen | exact Hx | exact Hr | cbn [hdr_of h_dst_port]; exact Hp | cbn [hdr_of h_dst_port]; exact Hf |].
    unfold net_receive, hdr_of. cbn [h_seq_no h_syn h_fin h_ack h_src_port]. rewrite E1. cbn [obind]. rewrite Hfl. cbn [f_syn f_fin f_ack]. unfold net_receive_ack.
    rewrite (get_sock_at _ _ _ S1). cbn [obind]. change (k_peer x1) with (k_peer x). rewrite Hip, Hport, !Z.eqb_refl. cbn [negb orb]. change (k_tcp x1) with (k_tcp x). rewrite Ht.
    rewrite E2. reflexivity.
  - pose proof (upd_trans _ _ _ _ _ _ _ _ U1 U2) as U. rewrite N1 in U. exact U.
Qed.

Lemma accept_finish_upd w d x : sock_at w d x -> 0 < k_sem x ->
  exists w', accept_finish w d = Done (0, w') /\ upd_at d w w' (with_state SS_CONNECTED (with_tcp ST_ESTABLISHED (with_sem (k_sem x - 1) x))) (wnet w).
Proof.
  intros Hx Hs. unfold accept_finish. edestruct (sem_down_upd w d x) as (w1 & E1 & U1); [exact Hx | exact Hs|]. rewrite E1. cbn [obind]. pose proof U1 as (L1 & S1 & O1 & N1).
  edestruct (modify_upd w1 d (with_sem (k_sem x - 1) x) (fun x => with_state SS_CONNECTED (with_tcp ST_ESTABLISHED x))) as (w2 & E2 & U2); [exact S1|]. rewrite E2. cbn [obind]. eexists. split; [reflexivity|].
  pose proof (upd_trans _ _ _ _ _ _ _ _ U1 U2) as U. rewrite N1 in U. exact U.
Qed.

(** A client that may connect, and a server that waits in [accept]. *)
Record client_ready (c : world wire) (i : Z) (x : stream) : Prop := {
  cr_len : zlen (socks c) = MAX_STREAM_SOCKET;
  cr_at : sock_at c i x;
  cr_ref : k_ref x <> 0;
  cr_state : k_state x = SS_UNCONNECTED;
  cr_tcp : k_tcp x = ST_CLOSED;
  cr_sem : 0 <= k_sem x < 2 ^ 32 - 1;
  cr_seq : 0 <= k_seq x < 2 ^ 32;
  cr_port : free_port c 4096;
  cr_ip : 0 <= w_ip (wnet c) < 2 ^ 32
}.

Record server_ready (s : world wire) (l d : Z) (xl xd : stream) (p q : Z) : Prop := {
  sv_len : zlen (socks s) = MAX_STREAM_SOCKET;
  sv_l : sock_at s l xl;
  sv_d : sock_at s d xd;
  sv_ne : l <> d;
  sv_lref : k_ref xl <> 0;
  sv_listen : k_tcp xl = ST_LISTEN;
  sv_conn : k_conn xl = [];
  sv_dup : k_dup xl = d;
  sv_lsem : 0 <= k_sem xl < 2 ^ 32 - 1;
  sv_lport : a_port (k_addr xl) = htons p /\ 0 <= p < 2 ^ 16 /\ first_on s l (htons p);
  sv_dref : k_ref xd <> 0;
  sv_dsem : 0 <= k_sem xd < 2 ^ 32 - 1;
  sv_dseq : 0 <= k_seq xd < 2 ^ 32;
  sv_dport : a_port (k_addr xd) = htons q /\ 0 <= q < 2 ^ 16 /\ first_on s d (htons q);
  sv_ip : 0 <= w_ip (wnet s) < 2 ^ 32
}.

Lemma last_sent_snoc (w : world wire) ip l g : wnet w = mk_wire ip (l ++ [g]) -> last_sent w = Done g.
Proof. intros E. unfold last_sent. rewrite E. cbn [w_sent]. rewrite last_snoc. reflexivity. Qed.


(** The sockets of the example: three in use, the others free. *)
Definition empty_sock : stream :=
  mk_stream 0 0 0 0 SS_FREE ST_CLOSED 0 (mk_addr 0 0 0) (mk_sring [] 0 0 0 0 0 0) [] (mk_addr 0 0 0) 0 0 0 NO_SOCK.
Definition live_sock (tcp : tcp_state) (port dup : Z) : stream :=
  mk_stream 0 2 1 0 SS_UNCONNECTED tcp 1 (mk_addr 2 0 (htons port)) (mk_sring [] 0 0 0 0 0 0) [] (mk_addr 0 0 0) 0 0 0 dup.

Definition demo_client : world wire := mk_world (live_sock ST_CLOSED 0 NO_SOCK :: repeat empty_sock 127) (mk_wire 3232235880 []).
Definition demo_server : world wire := mk_world (live_sock ST_LISTEN 80 1 :: live_sock ST_CLOSED 4096 NO_SOCK :: repeat empty_sock 126) (mk_wire 3232235881 []).

Lemma repeat_lookup {A} (x : A) n i y : repeat x n !! i = Some y -> y = x.
Proof. revert i; induction n as [|n IH]; intros [|i] Hl; cbn in Hl; try discriminate; [congruence | eauto]. Qed.

Lemma demo_client_ready : client_ready demo_client 0 (live_sock ST_CLOSED 0 NO_SOCK).
Proof.
  constructor; try reflexivity; try discriminate; try (split; [discriminate | reflexivity]).
  intros j x Hx Hr. unfold sock_at in Hx. apply zget_lookup in Hx as [Hx _]. unfold demo_client in Hx. destruct (Z.to_nat j) as [|k]; cbn [socks lookup list_lookup] in Hx; [injection Hx as <-; discriminate|].
  apply repeat_lookup in Hx as ->. contradiction.
Qed.

Lemma demo_server_ready : server_ready demo_server 0 1 (live_sock ST_LISTEN 80 1) (live_sock ST_CLOSED 4096 NO_SOCK) 80 4096.
Proof.
  constructor; try reflexivity; try discriminate; try (split; [discriminate | reflexivity]); (split; [reflexivity|]; split; [lia|]); intros j x Hx Hj Hr;
    pose proof (zget_Some_range _ _ _ Hx); [lia|]. replace j with 0 in Hx by lia. injection Hx as <-. discriminate.
Qed.


(** ** The state diagram of TCP

    Figure 6 of RFC 793: the edges labelled with a segment that is received, and those
    labelled with a close, which sends a FIN. *)
Inductive seg_kind := SEG_SYN | SEG_SYN_ACK | SEG_FIN | SEG_ACK | SEG_DATA.

Inductive rfc793 : seg_kind -> tcp_state -> tcp_state -> Prop :=
| R_listen_syn : rfc793 SEG_SYN ST_LISTEN ST_SYN_RCVD
| R_sent_syn : rfc793 SEG_SYN ST_SYN_SENT ST_SYN_RCVD
| R_sent_syn_ack : rfc793 SEG_SYN_ACK ST_SYN_SENT ST_ESTABLISHED
| R_rcvd_ack : rfc793 SEG_ACK ST_SYN_RCVD ST_ESTABLISHED
| R_fin : rfc793 SEG_FIN ST_ESTABLISHED ST_CLOSE_WAIT
| R_wait1_ack : rfc793 SEG_ACK ST_FIN_WAIT_1 ST_FIN_WAIT_2
| R_wait1_fin : rfc793 SEG_FIN ST_FIN_WAIT_1 ST_CLOSING
| R_wait2_fin : rfc793 SEG_FIN ST_FIN_WAIT_2 ST_TIME_WAIT
| R_closing_ack : rfc793 SEG_ACK ST_CLOSING ST_TIME_WAIT
| R_last_ack : rfc793 SEG_ACK ST_LAST_ACK ST_CLOSED.

Inductive rfc793_close : tcp_state -> tcp_state -> Prop :=
| C_rcvd : rfc793_close ST_SYN_RCVD ST_FIN_WAIT_1
| C_established : rfc793_close ST_ESTABLISHED ST_FIN_WAIT_1
| C_close_wait : rfc793_close ST_CLOSE_WAIT ST_LAST_ACK.

(** The state stays, moves along an edge for the segment, or along it and then one for a close. *)
Inductive follows (k : seg_kind) : tcp_state -> tcp_state -> Prop :=
| F_stay s : follows k s s
| F_edge s t : rfc793 k s t -> follows k s t
| F_edge_close s t u : rfc793 k s t -> rfc793_close t u -> follows k s u.

Definition kind_of (hdr : seg_hdr) : seg_kind :=
  if h_syn hdr then (if h_ack hdr then SEG_SYN_ACK else SEG_SYN) else if h_fin hdr then SEG_FIN else if h_ack hdr then SEG_ACK else SEG_DATA.

(** The states in which the code treats a FIN as the diagram does; in the others it closes the socket. *)
Definition fin_expected (s : tcp_state) : Prop := s = ST_CLOSED \/ s = ST_ESTABLISHED \/ s = ST_FIN_WAIT_2.

Lemma next_follows hdr a b x : (kind_of hdr = SEG_FIN -> fin_expected (k_tcp x)) -> follows (kind_of hdr) (k_tcp x) (next_tcp hdr a b x).
Proof.
  unfold kind_of, next_tcp, fin_expected. intros Hf. destruct (h_syn hdr); [constructor|]. destruct (h_fin hdr).
  - destruct (Hf eq_refl) as [-> | [-> | ->]]; econstructor; solve [constructor].
  - destruct (h_ack hdr); [|constructor]. destruct (_ || _); [constructor|].
    destruct (k_tcp x); first [apply F_stay | apply F_edge; constructor].
Qed.

Lemma next_moves hdr a x : next_tcp hdr a (ntohs (h_src_port hdr)) x <> k_tcp x -> kind_of hdr = SEG_ACK -> from_peer hdr a x.
Proof.
  unfold kind_of, next_tcp, from_peer. destruct (h_syn hdr); [contradiction|]. destruct (h_fin hdr); [discriminate|].
  destruct (h_ack hdr); [|contradiction]. destruct (_ || _) eqn:E; [contradiction|]. intros _ _. lia.
Qed.

Lemma next_closing hdr a x :
  (kind_of hdr = SEG_FIN -> k_tcp x = ST_ESTABLISHED -> next_tcp hdr a (ntohs (h_src_port hdr)) x = ST_LAST_ACK) /\
  (kind_of hdr = SEG_ACK -> from_peer hdr a x ->
     (k_tcp x = ST_FIN_WAIT_1 -> next_tcp hdr a (ntohs (h_src_port hdr)) x = ST_FIN_WAIT_2) /\
     (k_tcp x = ST_LAST_ACK -> next_tcp hdr a (ntohs (h_src_port hdr)) x = ST_CLOSED)).
Proof.
  unfold kind_of, next_tcp, from_peer. destruct (h_syn hdr); [destruct (h_ack hdr); split; discriminate|].
  destruct (h_fin hdr); [split; [intros _ -> | discriminate]; reflexivity|]. destruct (h_ack hdr); [|split; discriminate].
  split; [discriminate|]. intros _ [E1 E2]. replace (_ || _) with false by lia. split; intros ->; reflexivity.
Qed.

(** C18: Arriving segments and the state diagram of TCP.  Whatever arrives, a socket changes its state only when the
    segment is for its port, and then along an edge that RFC 793 labels with that kind of segment, or along it and the
    edge of a close that answers it; on an ACK only when it comes from the peer.  The first socket of the port does make
    the moves that take a connection down: an established one answers a FIN on its way to LAST_ACK, an ACK of the
    peer takes FIN_WAIT_1 to FIN_WAIT_2 and LAST_ACK to CLOSED.  No socket is freed, rebound or given another socket state.  Left
    out are sockets that get a FIN in a state where the code closes them at once instead ([fin_closes_the_listener]). *)
Theorem arrivals_follow_the_diagram {N} `{SegmentSink N} (w : world N) hdr data src_ip r w' : stream_net_receive w hdr data src_ip = Done (r, w') ->
  length (socks w') = length (socks w) /\
  forall j x, sock_at w j x -> (kind_of hdr = SEG_FIN -> fin_expected (k_tcp x)) ->
    exists x', sock_at w' j x' /\ follows (kind_of hdr) (k_tcp x) (k_tcp x') /\
      (k_tcp x' <> k_tcp x -> addressed hdr x /\ (kind_of hdr = SEG_ACK -> from_peer hdr src_ip x)) /\
      (addressed hdr x -> j < MAX_STREAM_SOCKET -> first_on w j (h_dst_port hdr) ->
         (kind_of hdr = SEG_FIN -> k_tcp x = ST_ESTABLISHED -> k_tcp x' = ST_LAST_ACK) /\
         (kind_of hdr = SEG_ACK -> from_peer hdr src_ip x ->
            (k_tcp x = ST_FIN_WAIT_1 -> k_tcp x' = ST_FIN_WAIT_2) /\ (k_tcp x = ST_LAST_ACK -> k_tcp x' = ST_CLOSED))) /\
      k_state x' = k_state x /\ k_ref x' = k_ref x /\ k_addr x' = k_addr x.
Proof.
  intros Hr. destruct (stream_receive_arrived _ _ _ _ _ _ Hr) as [L HH]. split; [exact L|]. intros j x Hx Hfin.
  destruct (HH j x Hx) as (x' & Hx' & (R1 & R2) & S). exists x'. split; [exact Hx'|]. split; [|split; [|split; [|exact S]]].
  - destruct R1 as [-> | (_ & _ & ->)]; [constructor | apply next_follows, Hfin].
  - intros Hne. destruct R1 as [E | (_ & Ha & E)]; [contradiction|]. split; [exact Ha|]. apply next_moves. rewrite <- E. exact Hne.
  - intros Ha Hj Hf. rewrite R2; [apply next_closing | exact Ha | |].
    + pose proof (zget_Some_range _ _ _ Hx). unfold MAX_STREAM_SOCKET in *. lia.
    + intros k y Hy Hk [Hy1 Hy2]. exact (Hf k y Hy ltac:(lia) Hy1 Hy2).
Qed.

Definition demo_fin : seg_hdr := mk_hdr (htons 4096) (htons 80) 0 0 true false true.
Definition demo_connected : world wire := mk_world (live_sock ST_ESTABLISHED 80 NO_SOCK :: live_sock ST_FIN_WAIT_1 4097 NO_SOCK :: repeat empty_sock 126) (mk_wire 1 []).
Definition demo_finished : world wire := match stream_net_receive demo_connected demo_fin [] 7 with Done (_, w) => w | _ => demo_connected end.

(** A FIN for an established connection: it goes to LAST_ACK, the other socket stays. *)
Lemma arrivals_follow_the_diagram_witness :
  exists x y, sock_at demo_finished 0 x /\ k_tcp x = ST_LAST_ACK /\ sock_at demo_finished 1 y /\ k_tcp y = ST_FIN_WAIT_1.
Proof.
  destruct (arrivals_follow_the_diagram demo_connected demo_fin [] 7 0 demo_finished) as [_ HH]; [vm_compute; reflexivity|].
  destruct (HH 0 (live_sock ST_ESTABLISHED 80 NO_SOCK) eq_refl) as (x & Hx & _ & _ & Hc & _); [intros _; right; left; reflexivity|].
  destruct Hc as [Hc _]; [split; [discriminate | reflexivity] | reflexivity | intros j y Hy Hj; pose proof (zget_Some_range _ _ _ Hy); lia |].
  exists x. pose proof (zget_in_range (socks demo_finished) 1 ltac:(split; vm_compute; congruence)) as [y Hy]. exists y.
  split; [exact Hx|]. split; [apply Hc; reflexivity|]. split; [exact Hy|]. vm_compute in Hy. injection Hy as <-. reflexivity.
Defined.

Definition demo_after : world wire := match stream_net_receive demo_server demo_fin [] 7 with Done (_, w) => w | _ => demo_server end.

(** A FIN for the port of a listening socket closes that socket. *)
Theorem fin_closes_the_listener : k_tcp <$> zget (socks demo_after) 0 = Some ST_CLOSED.
Proof. vm_compute. reflexivity. Qed.

(** A SYN that arrives before [accept] was called writes through the null pointer
    [m_dup_socket]. *)
Theorem syn_before_accept_faults :
  stream_net_receive (mk_world (live_sock ST_LISTEN 80 NO_SOCK :: repeat empty_sock 127) (mk_wire 1 [])) (mk_hdr (htons 4096) (htons 80) 0 0 false true false) [] 7 = Fault.
Proof. vm_compute. reflexivity. Qed.

(** With port 4096 in use by the second socket, looking for a free port runs off the
    end of the table, for the cursor is not set back. *)
Theorem port_search_overruns :
  get_not_used_port (mk_world (live_sock ST_CLOSED 1 NO_SOCK :: live_sock ST_CLOSED 4096 NO_SOCK :: repeat empty_sock 126) (mk_wire 1 [])) 0 = Fault.
Proof. vm_compute. reflexivity. Qed.
