(* ===== verification/Dns.v ===== *)
(** * Domain names (src/src/dns.cc)

    A query puts a name into a packet as labels with their lengths; a reply's names are
    read back, with the pointers that abbreviate them.  A packet is a list of bytes, a
    position in it an offset; reading behind its end is a [Fault].  [char name[512]] is
    written from its start: a name that does not fit is a [Fault] too. *)
From Stdlib Require Import ZArith ZifyBool Lia.
From stdpp Require Import base option list gmap.
From S2P Require Import Prelude Interfaces Pool Checksum Net Ip.

Definition MAX_DNS_PACKET_SIZE : Z := 512.
Definition MAX_LABEL_LEN : Z := 63.
Definition RR_TYPE_A : Z := 1.
Definition RR_TYPE_CNAME : Z := 5.
Definition DNS_HDR_LEN : Z := 12.
Definition DOT : Z := 46.

(** The inner loop of [parse_name]: the characters up to a dot or the end. *)
Fixpoint scan_label (p : list Z) : list Z * list Z :=
  match p with
  | [] => ([], [])
  | c :: r => if c =? DOT then ([], p) else let '(a, b) := scan_label r in (c :: a, b)
  end.

Section Query.
Context {P : Type} `{ObjectPool P}.
Implicit Types (n : net P) (buf : Z).

(** [None] when the fuel runs out; it does not with more fuel than characters. *)
Fixpoint parse_loop (fuel : nat) n buf (p : list Z) : option (outcome (Z * net P)) :=
  match fuel with
  | O => None
  | S k =>
      match p with
      | [] => Some (Done (0, n))
      | _ =>
          let '(label, rest) := scan_label p in
          if MAX_LABEL_LEN <? zlen label then Some (Done (-1, n))
          else
            let step := let! ' (_, n) := append n buf [zlen label] in append n buf label in
            match step with
            | Done (_, n) =>
                match rest with
                | [] => Some (let! ' (_, n) := append n buf [0] in Done (0, n))
                | _ :: p => parse_loop k n buf p
                end
            | Fault => Some Fault
            | Panic => Some Panic
            | Blocked => Some Blocked
            end
      end
  end.

Definition parse_name n buf (name : list Z) : option (outcome (Z * net P)) := parse_loop (S (length name)) n buf name.

(** [dns_hdr_t]: recursion desired is bit 8 of the flags. *)
Definition dns_hdr (id flags qd an ns ar : Z) : list Z :=
  le_bytes 2 id ++ le_bytes 2 flags ++ le_bytes 2 qd ++ le_bytes 2 an ++ le_bytes 2 ns ++ le_bytes 2 ar.

Definition query n (name : list Z) : option (outcome (Z * net P)) :=
  let hdr := dns_hdr (htons 0x7844) (htons (2 ^ 8)) (htons 1) (htons 0) (htons 0) (htons 0) in
  let '(buffer, n) := alloc_net_buffer n 512 in
  if buffer =? NULL then Some (Done (-1, n))
  else
    match append n buffer hdr with
    | Done (_, n) =>
        match parse_name n buffer name with
        | Some (Done (_, n)) =>
            Some (let! ' (_, n) := append n buffer (le_bytes 2 (htons 1)) in
                  let! ' (_, n) := append n buffer (le_bytes 2 (htons 1)) in
                  let! bytes := get_data n buffer in
                  let! ' (_, n) := udp_transmit n (c_dns_addr (n_cfg n)) 50150 53 bytes in
                  Done (0, n))
        | other => other
        end
    | _ => Some Fault
    end.
End Query.

(** ** Reading a name *)

Definition byte_at (pkt : list Z) (i : Z) : outcome Z := deref (zget pkt i).

(** [strlen] of what was written. *)
Fixpoint until_nul (s : list Z) : list Z :=
  match s with
  | [] => []
  | c :: r => if c =? 0 then [] else c :: until_nul r
  end.

(** The loop of [resolve_name]: [data] is behind the length byte [len], [name] what has
    been written from the offset [pos] of the caller's buffer on.  The result is the
    offset behind the name and the name without its final NUL. *)
Fixpoint resolve_loop (fuel : nat) (pkt : list Z) (data len pos : Z) (name : list Z) : option (outcome (Z * list Z)) :=
  match fuel with
  | O => None
  | S k =>
      if len =? 0 then Some (if pos + zlen name <? MAX_DNS_PACKET_SIZE then Done (data, name) else Fault)
      else if len <=? MAX_LABEL_LEN then
        match (let! label := read_at pkt data len in
               if pos + zlen name + len <=? MAX_DNS_PACKET_SIZE then
                 let! next := byte_at pkt (data + len) in Done (label, next)
               else Fault) with
        | Done (label, next) =>
            resolve_loop k pkt (data + len + 1) next pos (name ++ label ++ (if next =? 0 then [] else [DOT]))
        | _ => Some Fault
        end
      else
        match byte_at pkt data with
        | Done low =>
            let offset := Z.lor (Z.shiftl (Z.land len 0x3f) 8) low in
            match byte_at pkt offset with
            | Done first =>
                match resolve_loop k pkt (offset + 1) first (pos + zlen name) [] with
                | Some (Done (_, sub)) => Some (Done (data + 1, name ++ until_nul sub))
                | other => other
                end
            | _ => Some Fault
            end
        | _ => Some Fault
        end
  end.

(** The number of bytes the name takes, and the name. *)
Definition resolve_name (fuel : nat) (pkt : list Z) (start pos : Z) : option (outcome (Z * list Z)) :=
  match byte_at pkt start with
  | Done len =>
      match resolve_loop fuel pkt (start + 1) len pos [] with
      | Some (Done (data, name)) => Some (Done (data - start, name))
      | other => other
      end
  | _ => Some Fault
  end.

(** ** Reading a reply *)

Definition be16 (pkt : list Z) (i : Z) : outcome Z := let! b := read_at pkt i 2 in Done (ntohs (le_value b)).
Definition be32 (pkt : list Z) (i : Z) : outcome Z := let! b := read_at pkt i 4 in Done (ntohl (le_value b)).

(** What is printed of an answer: its name, type, class, time to live, length, and the
    address or the other name. *)
Record answer := mk_answer { an_name : list Z; an_type : Z; an_class : Z; an_ttl : Z; an_len : Z; an_addr : option Z; an_cname : option (list Z) }.

(** Fuel and failure in one. *)
Definition fbind {A B} (m : option (outcome A)) (k : A -> option (outcome B)) : option (outcome B) :=
  match m with
  | Some (Done a) => k a
  | Some Fault => Some Fault
  | Some Panic => Some Panic
  | Some Blocked => Some Blocked
  | None => None
  end.

Fixpoint read_queries (fuel count : nat) (pkt : list Z) (p : Z) : option (outcome Z) :=
  match count with
  | O => Some (Done p)
  | S c => fbind (resolve_name fuel pkt p 0) (fun '(size, _) =>
             fbind (Some (let! type := be16 pkt (p + size) in be16 pkt (p + size + 2))) (fun _ => read_queries fuel c pkt (p + size + 4)))
  end.

Fixpoint read_answers (fuel count : nat) (pkt : list Z) (p : Z) : option (outcome (list answer)) :=
  match count with
  | O => Some (Done [])
  | S c =>
      fbind (resolve_name fuel pkt p 0) (fun '(size, name) =>
      let p := p + size in
      fbind (Some (let! type := be16 pkt p in let! class := be16 pkt (p + 2) in let! ttl := be32 pkt (p + 4) in
                   let! len := be16 pkt (p + 8) in Done (type, class, ttl, len))) (fun '(type, class, ttl, len) =>
      let p := p + 10 in
      fbind (if type =? RR_TYPE_A then Some (let! ip := be32 pkt p in Done (Some ip, None))
             else if type =? RR_TYPE_CNAME then fbind (resolve_name fuel pkt p 0) (fun '(_, cname) => Some (Done (None, Some cname)))
             else Some (Done (None, None))) (fun '(ip, cname) =>
      fbind (read_answers fuel c pkt (p + len)) (fun rest => Some (Done (mk_answer name type class ttl len ip cname :: rest))))))
  end.

Definition resolve (fuel : nat) (pkt : list Z) : option (outcome (list answer)) :=
  fbind (Some (let! qd := be16 pkt 4 in let! an := be16 pkt 6 in Done (qd, an))) (fun '(qd, an) =>
  fbind (read_queries fuel (Z.to_nat qd) pkt DNS_HDR_LEN) (fun p => read_answers fuel (Z.to_nat an) pkt p)).

(** ** Names and their encoding *)

Definition label_wf (l : list Z) : Prop := 0 < zlen l <= MAX_LABEL_LEN /\ Forall (fun c => c <> DOT /\ 0 < c < 256) l.

Fixpoint dotted (ls : list (list Z)) : list Z :=
  match ls with
  | [] => []
  | [l] => l
  | l :: r => l ++ [DOT] ++ dotted r
  end.

Fixpoint encoded (ls : list (list Z)) : list Z :=
  match ls with
  | [] => [0]
  | l :: r => zlen l :: l ++ encoded r
  end.

Lemma scan_label_app l rest : Forall (fun c => c <> DOT /\ 0 < c < 256) l -> (rest = [] \/ exists r, rest = DOT :: r) -> scan_label (l ++ rest) = (l, rest).
Proof.
  intros Hl Hr. induction Hl as [|c l [Hc _] Hl IH]; cbn.
  - destruct Hr as [-> | [r ->]]; reflexivity.
  - replace (c =? DOT) with false by lia. rewrite IH. reflexivity.
Qed.

Lemma dotted_nonempty l ls : label_wf l -> dotted (l :: ls) <> [].
Proof. intros [Hz _]. destruct l as [|c l]; [change (zlen []) with 0 in Hz; lia|]. destruct ls; discriminate. Qed.

Lemma label_bytes l : label_wf l -> byte_list l.
Proof. intros [_ Hl]. eapply Forall_impl; [exact Hl|]. cbn. intros c Hc. lia. Qed.

Lemma encoded_head ls : Forall label_wf ls -> exists h t, encoded ls = h :: t /\ (h = 0 <-> ls = []) /\ 0 <= h <= MAX_LABEL_LEN.
Proof.
  intros Hw. destruct Hw as [|l ls [Hz _] Hw]; cbn; eexists _, _; (split; [reflexivity|]).
  - unfold MAX_LABEL_LEN. split; [tauto | lia].
  - split; [split; [lia | discriminate] | lia].
Qed.

Lemma dotted_length ls : Forall label_wf ls -> (length ls <= length (dotted ls))%nat.
Proof.
  induction 1 as [|l ls [Hz _] Hw IH]; [cbn; lia|]. unfold zlen in Hz. destruct ls; cbn [dotted length] in *; [lia|]. rewrite !length_app. cbn [length] in *. lia.
Qed.

(** Reading an encoded name gives the name back. *)
Lemma resolve_loop_ok pkt b pos : forall ls a name fuel h t, Forall label_wf ls -> pkt = a ++ encoded ls ++ b -> encoded ls = h :: t ->
  (length ls < fuel)%nat -> pos + zlen name + zlen (dotted ls) < MAX_DNS_PACKET_SIZE ->
  resolve_loop fuel pkt (zlen a + 1) h pos name = Some (Done (zlen a + zlen (encoded ls), name ++ dotted ls)).
Proof.
  induction ls as [|l ls IH]; intros a name fuel h t Hw Hp Hh Hf Hb; (destruct fuel as [|k]; [cbn in Hf; lia|]); cbn [encoded] in Hh; injection Hh as <- Ht; cbn [resolve_loop].
  - change (zlen (dotted [])) with 0 in Hb. change (0 =? 0) with true. cbn iota. replace (pos + zlen name <? MAX_DNS_PACKET_SIZE) with true by lia.
    cbn [dotted encoded]. rewrite app_nil_r. reflexivity.
  - apply Forall_cons in Hw as [Hl Hw]. pose proof Hl as [Hz _]. pose proof (zlen_nonneg name). pose proof (zlen_nonneg (dotted ls)).
    replace (zlen l =? 0) with false by lia. replace (zlen l <=? MAX_LABEL_LEN) with true by lia.
    destruct (encoded_head ls Hw) as (h2 & t2 & E2 & Hz2 & Hr2).
    assert (Hp2 : pkt = (a ++ [zlen l]) ++ l ++ encoded ls ++ b) by (rewrite Hp; cbn [encoded]; rewrite <- !app_assoc; cbn [app]; rewrite <- app_assoc; reflexivity).
    assert (Ha1 : zlen (a ++ [zlen l]) = zlen a + 1) by (rewrite zlen_app; reflexivity).
    assert (Hrd : read_at pkt (zlen a + 1) (zlen l) = Done l) by (rewrite Hp2; apply read_at_app; auto).
    assert (Hbt : byte_at pkt (zlen a + 1 + zlen l) = Done h2).
    { unfold byte_at. rewrite Hp2, E2, app_assoc, zget_app. rewrite decide_False by (rewrite zlen_app, Ha1; lia). rewrite zlen_app, Ha1, Z.sub_diag. reflexivity. }
    rewrite Hrd. cbn [obind].
    assert (Hnext : dotted (l :: ls) = (l ++ (if h2 =? 0 then [] else [DOT])) ++ dotted ls).
    { destruct ls as [|l2 ls]; [replace (h2 =? 0) with true by (symmetry; apply Z.eqb_eq, Hz2; reflexivity); cbn; rewrite !app_nil_r; reflexivity|].
      replace (h2 =? 0) with false by (symmetry; apply Z.eqb_neq; intros Hq; apply Hz2 in Hq; discriminate). rewrite <- app_assoc. reflexivity. }
    assert (Hdl : zlen l <= zlen (dotted (l :: ls))) by (rewrite Hnext, !zlen_app; pose proof (zlen_nonneg (if h2 =? 0 then [] else [DOT])); lia).
    replace (pos + zlen name + zlen l <=? MAX_DNS_PACKET_SIZE) with true by lia. rewrite Hbt. cbn [obind].
    specialize (IH ((a ++ [zlen l]) ++ l) (name ++ l ++ (if h2 =? 0 then [] else [DOT])) k h2 t2 Hw).
    rewrite (zlen_app (a ++ [zlen l]) l), Ha1 in IH. rewrite IH.
    + rewrite Hnext, <- !app_assoc. cbn [encoded]. rewrite zlen_cons, zlen_app. do 3 f_equal. lia.
    + rewrite <- app_assoc. exact Hp2.
    + exact E2.
    + cbn in Hf. lia.
    + rewrite Hnext, !zlen_app in Hb. rewrite !zlen_app. lia.
Qed.

Lemma resolve_name_ok ls a b pos fuel : Forall label_wf ls -> (length ls < fuel)%nat -> pos + zlen (dotted ls) < MAX_DNS_PACKET_SIZE ->
  resolve_name fuel (a ++ encoded ls ++ b) (zlen a) pos = Some (Done (zlen (encoded ls), dotted ls)).
Proof.
  intros Hw Hf Hb. destruct (encoded_head ls Hw) as (h & t & E & _ & _). unfold resolve_name, byte_at. rewrite zget_app, decide_False, Z.sub_diag by lia.
  rewrite E. change (zget ((h :: t) ++ b) 0) with (Some h). cbn [deref]. rewrite <- E.
  rewrite (resolve_loop_ok (a ++ encoded ls ++ b) b pos ls a [] fuel h t Hw eq_refl E Hf) by (change (zlen []) with 0; lia). do 3 f_equal. lia.
Qed.

(** Writing a name appends its encoding. *)
Lemma parse_loop_ok {P} `{ObjectPool P} B E U : forall ls (n : net P) buf d left ext fuel, Forall label_wf ls -> ls <> [] -> net_ok B E U n -> buf ∈ U ->
  holds n buf d left ext -> zlen (encoded ls) <= left -> (length ls <= fuel)%nat ->
  exists n', parse_loop fuel n buf (dotted ls) = Some (Done (0, n')) /\ holds n' buf (d ++ encoded ls) (left - zlen (encoded ls)) ext /\ local_step B E U buf n n'.
Proof.
  induction ls as [|l ls IH]; intros n buf d left ext fuel Hw Hne N Hbuf Hh Hroom Hf; [congruence|]. apply Forall_cons in Hw as [Hl Hw]. destruct fuel as [|k]; [cbn in Hf; lia|].
  pose proof Hl as [Hz Hc]. cbn [encoded] in Hroom. rewrite zlen_cons, zlen_app in Hroom. pose proof (zlen_nonneg (encoded ls)). unfold MAX_LABEL_LEN in Hz.
  assert (Hscan : scan_label (dotted (l :: ls)) = (l, match ls with [] => [] | _ => DOT :: dotted ls end)).
  { destruct ls as [|l2 ls]; cbn [dotted]; [rewrite <- (app_nil_r l) at 1; apply scan_label_app; auto | apply scan_label_app; [exact Hc | right; eauto]]. }
  cbn [parse_loop]. destruct (dotted (l :: ls)) as [|c0 r0] eqn:Ed; [destruct (dotted_nonempty l ls Hl Ed)|]. rewrite Hscan.
  replace (MAX_LABEL_LEN <? zlen l) with false by (unfold MAX_LABEL_LEN; lia).
  assert (B1 : byte_list [zlen l]) by bytes.
  destruct (append_fits _ _ _ _ _ _ _ _ [zlen l] N Hbuf Hh B1) as (n1 & E1 & Hh1 & (N1 & K1 & R1) & _); [change (zlen [zlen l]) with 1; lia|]. rewrite E1. cbn [obind]. change (zlen [zlen l]) with 1 in Hh1.
  destruct (append_fits _ _ _ _ _ _ _ _ l N1 Hbuf Hh1 (label_bytes l Hl)) as (n2 & E2 & Hh2 & (N2 & K2 & R2) & _); [lia|]. rewrite E2.
  assert (L12 : keeps (U ∖ {[buf]}) n n2 /\ same_rest n n2) by (split; [eapply keeps_trans; eauto | eapply same_rest_trans; eauto]). destruct L12 as [K12 R12].
  destruct ls as [|l2 ls].
  - assert (B0 : byte_list [0]) by bytes. change (zlen (encoded [])) with 1 in Hroom.
    destruct (append_fits _ _ _ _ _ _ _ _ [0] N2 Hbuf Hh2 B0) as (n3 & E3 & Hh3 & (N3 & K3 & R3) & _); [change (zlen [0]) with 1; lia|]. rewrite E3. cbn [obind].
    exists n3. split; [reflexivity|]. split; [|split; [exact N3 | split; [eapply keeps_trans; eauto | eapply same_rest_trans; eauto]]].
    rewrite <- !app_assoc in Hh3. change (zlen [0]) with 1 in Hh3. cbn [encoded]. rewrite zlen_cons, zlen_app. change (zlen [0]) with 1.
    replace (left - (zlen l + 1 + 1)) with (left - 1 - zlen l - 1) by lia. exact Hh3.
  - destruct (IH n2 buf ((d ++ [zlen l]) ++ l) (left - 1 - zlen l) ext k Hw) as (n3 & E3 & Hh3 & (N3 & K3 & R3)); [discriminate | exact N2 | exact Hbuf | exact Hh2 | lia | cbn in *; lia |].
    exists n3. split; [exact E3|]. split; [|split; [exact N3 | split; [eapply keeps_trans; eauto | eapply same_rest_trans; eauto]]].
    rewrite <- !app_assoc in Hh3. change (encoded (l :: l2 :: ls)) with (zlen l :: l ++ encoded (l2 :: ls)). rewrite zlen_cons, zlen_app.
    replace (left - (zlen l + zlen (encoded (l2 :: ls)) + 1)) with (left - 1 - zlen l - zlen (encoded (l2 :: ls))) by lia. exact Hh3.
Qed.

(** Names survive the wire.  [parse_name] appends to the packet the encoding of a
    name of labels of 1 to 63 characters, and [resolve_name] reads from any packet that
    contains this encoding the name back, with the number of bytes it takes. *)
Theorem dns_name_roundtrip {P} `{ObjectPool P} B E U (n : net P) buf d left ext ls a b : Forall label_wf ls -> ls <> [] ->
  net_ok B E U n -> buf ∈ U -> holds n buf d left ext -> zlen (encoded ls) <= left -> zlen (dotted ls) < MAX_DNS_PACKET_SIZE ->
  (exists n', parse_name n buf (dotted ls) = Some (Done (0, n')) /\ holds n' buf (d ++ encoded ls) (left - zlen (encoded ls)) ext) /\
  resolve_name (S (length ls)) (a ++ encoded ls ++ b) (zlen a) 0 = Some (Done (zlen (encoded ls), dotted ls)).
Proof.
  intros Hw Hne N Hbuf Hh Hroom Hlen. split.
  - pose proof (dotted_length ls Hw). destruct (parse_loop_ok B E U ls n buf d left ext (S (length (dotted ls))) Hw Hne N Hbuf Hh Hroom) as (n' & E1 & Hh' & _); [lia|].
    exists n'. auto.
  - apply resolve_name_ok; [exact Hw | lia | lia].
Qed.

(** A host that has a buffer for a query. *)
Definition query_host : net (object_pool * Z) := snd (alloc_net_buffer (host_net host_a []) 512).

Lemma query_host_ok : net_ok (list_to_set host_bufs) (list_to_set host_exts) ({[1000]} ∪ ∅) query_host /\ holds query_host 1000 [] 2048 5000.
Proof.
  destruct (alloc_ok _ _ _ _ 512 1000 [1256; 1512; 1768; 2024] (host_net_ok host_a [])) as (n' & ext & Ea & _ & _ & _ & Hh & N & _ & _ & _ & _ & Hx);
    [unfold EXT_BUF_SIZE; lia | reflexivity | discriminate |].
  unfold query_host. rewrite Ea. split; [exact N|]. destruct Hx as [_ Hx]. injection Hx as <- _. exact Hh.
Qed.

(** "baby.os" *)
Definition demo_labels : list (list Z) := [[98; 97; 98; 121]; [111; 115]].

Lemma dns_name_roundtrip_witness :
  (exists n', parse_name query_host 1000 (dotted demo_labels) = Some (Done (0, n')) /\
              holds n' 1000 ([] ++ encoded demo_labels) (2048 - zlen (encoded demo_labels)) 5000) /\
  resolve_name (S (length demo_labels)) ([1; 2] ++ encoded demo_labels ++ [3]) (zlen [1; 2]) 0 = Some (Done (zlen (encoded demo_labels), dotted demo_labels)).
Proof.
  apply (dns_name_roundtrip (list_to_set host_bufs) (list_to_set host_exts) ({[1000]} ∪ ∅) query_host 1000 [] 2048 5000 demo_labels [1; 2] [3]).
  - repeat (apply Forall_cons_2; [split; [split; [reflexivity | discriminate] | repeat (apply Forall_cons_2; [unfold DOT; lia|]); apply Forall_nil_2]|]). apply Forall_nil_2.
  - discriminate.
  - apply query_host_ok.
  - apply elem_of_union_l, elem_of_singleton_2. reflexivity.
  - apply query_host_ok.
  - discriminate.
  - reflexivity.
Defined.

(** A name that is a pointer to itself is never resolved: no fuel is enough. *)
Theorem pointer_loop_diverges fuel : resolve_name fuel [0xc0; 0] 0 0 = None.
Proof.
  unfold resolve_name. cbn [byte_at deref zget]. change (byte_at [0xc0; 0] 0) with (Done 0xc0). cbn iota.
  assert (Hl : forall k pos, resolve_loop k [0xc0; 0] 1 0xc0 pos [] = None).
  { induction k as [|k IH]; intros pos; [reflexivity|]. cbn [resolve_loop]. change (0xc0 =? 0) with false. change (0xc0 <=? MAX_LABEL_LEN) with false. cbn iota.
    change (byte_at [0xc0; 0] 1) with (Done 0). cbn iota. change (Z.lor (Z.shiftl (Z.land 0xc0 0x3f) 8) 0) with 0. change (byte_at [0xc0; 0] 0) with (Done 0xc0). cbn iota. change (0 + 1) with 1.
    rewrite IH. reflexivity. }
  change (0 + 1) with 1. rewrite Hl. reflexivity.
Qed.
