(* ===== verification/Dgram.v ===== *)
(** * Datagram and raw sockets (src/src/socket_dgram.cc, socket_raw.cc)

    A datagram socket keeps the buffers that arrived for its port, with the address they came
    from, and a semaphore that counts them; [recv_from] is blocked while the count is zero.
    Sockets are designated by their index in the table. *)
From Stdlib Require Import ZArith ZifyBool Lia.
From stdpp Require Import base option list gmap.
From S2P Require Import Prelude Interfaces Pool Sync Checksum Net Ip Stream.

Definition MAX_DGRAM_SOCKET : Z := 128.
Definition c_max_buffer_num : Z := 32.
Definition ENOMEM : Z := 12.

(** [dgram_buf_t] *)
Record dgram_buf := mk_db { db_from : sock_addr; db_buf : Z }.

Definition dgram_buf_init (ip port buf : Z) : dgram_buf := mk_db (mk_addr AF_INET ip port) buf.

Record dgram := mk_dgram {
  g_family : Z; g_type : Z; g_protocol : Z; g_state : sock_state;
  g_ref : Z; g_addr : sock_addr; g_buffers : list dgram_buf; g_sem : Z
}.

Record raw := mk_raw {
  r_family : Z; r_type : Z; r_protocol : Z; r_state : sock_state;
  r_ref : Z; r_remote : sock_addr; r_buffers : list Z; r_sem : Z
}.

(** The two tables. *)
Record sockets := mk_socks { d_socks : list dgram; r_socks : list raw }.

Definition dg_ref v (x : dgram) : dgram := mk_dgram (g_family x) (g_type x) (g_protocol x) (g_state x) v (g_addr x) (g_buffers x) (g_sem x).
Definition dg_addr v (x : dgram) : dgram := mk_dgram (g_family x) (g_type x) (g_protocol x) (g_state x) (g_ref x) v (g_buffers x) (g_sem x).
Definition dg_bufs v n (x : dgram) : dgram := mk_dgram (g_family x) (g_type x) (g_protocol x) (g_state x) (g_ref x) (g_addr x) v n.
Definition rw_ref v (x : raw) : raw := mk_raw (r_family x) (r_type x) (r_protocol x) (r_state x) v (r_remote x) (r_buffers x) (r_sem x).
Definition rw_bufs v n (x : raw) : raw := mk_raw (r_family x) (r_type x) (r_protocol x) (r_state x) (r_ref x) (r_remote x) v n.
Definition rw_remote v (x : raw) : raw := mk_raw (r_family x) (r_type x) (r_protocol x) (r_state x) (r_ref x) v (r_buffers x) (r_sem x).

Implicit Type s : sockets.

Definition get_dgram s i : outcome dgram := deref (zget (d_socks s) i).
Definition put_dgram s i x : sockets := mk_socks (zset (d_socks s) i x) (r_socks s).
Definition get_raw s i : outcome raw := deref (zget (r_socks s) i).
Definition put_raw s i x : sockets := mk_socks (d_socks s) (zset (r_socks s) i x).

(** The first socket of a table that is not in use. *)
Fixpoint first_free {X : Type} (ref : X -> Z) (l : list X) (i : Z) : option Z :=
  match l with
  | [] => None
  | x :: r => if ref x =? 0 then Some i else first_free ref r (i + 1)
  end.

Definition alloc_dgram_socket s : outcome (Z * sockets) :=
  match first_free g_ref (d_socks s) 0 with
  | Some i => let! x := get_dgram s i in Done (i, put_dgram s i (dg_ref 1 x))
  | None => Done (NO_SOCK, s)
  end.

Definition alloc_raw_socket s : outcome (Z * sockets) :=
  match first_free r_ref (r_socks s) 0 with
  | Some i => let! x := get_raw s i in Done (i, put_raw s i (rw_ref 1 x))
  | None => Done (NO_SOCK, s)
  end.

(** [socket_t::create], then [protocol = PROTO_UDP] of the parameter, which is not used any more. *)
Definition dgram_create s i (family type protocol : Z) : outcome (Z * sockets) :=
  let! x := get_dgram s i in
  Done (0, put_dgram s i (mk_dgram family type protocol SS_UNCONNECTED 1 (mk_addr (a_family (g_addr x)) 0 0) [] 0)).

Definition raw_create s i (family type protocol : Z) : outcome (Z * sockets) :=
  let! x := get_raw s i in
  Done (0, put_raw s i (mk_raw family type protocol SS_UNCONNECTED 1 (r_remote x) [] 0)).

(** The address is compared as the user gave it, and stored in the byte order of the host. *)
Definition bind_dgram_socket s i (addr : sock_addr) : outcome (Z * sockets) :=
  if existsb (fun x => negb (g_ref x =? 0) && addr_eqb (g_addr x) addr) (d_socks s) then Done (-1, s)
  else
    let! x := get_dgram s i in
    Done (0, put_dgram s i (dg_addr (mk_addr (a_family (g_addr x)) (ntohl (a_ip addr)) (ntohs (a_port addr))) x)).

(** Ports: as in [Stream.get_not_used_port], with the ports in the byte order of the host. *)
Fixpoint dgram_port_taken (n : nat) s (cursor port : Z) : outcome (bool * Z) :=
  match n with
  | O => Done (false, cursor)
  | S k =>
      let! x := get_dgram s cursor in
      if (0 <? g_ref x) && (a_port (g_addr x) =? port) then Done (true, cursor) else dgram_port_taken k s (cursor + 1) port
  end.

Fixpoint dgram_port_loop (fuel : nat) s (cursor port : Z) : outcome (option Z) :=
  match fuel with
  | O => Done None
  | S k =>
      if port <? 65535 then
        let! ' (taken, cursor) := dgram_port_taken (Z.to_nat MAX_DGRAM_SOCKET) s cursor port in
        if taken : bool then dgram_port_loop k s cursor (port + 1) else Done (Some port)
      else Done None
  end.

Definition dgram_unused_port s i : outcome sockets :=
  let! port := dgram_port_loop (Z.to_nat (65535 - 4096)) s 0 4096 in
  match port with
  | Some port => let! x := get_dgram s i in Done (put_dgram s i (dg_addr (mk_addr (a_family (g_addr x)) (a_ip (g_addr x)) port) x))
  | None => Done s
  end.

(** ** Arrival *)

Definition dgram_take (x : dgram) (ip port buf : Z) : Z * dgram :=
  if c_max_buffer_num <=? zlen (g_buffers x) then (- ENOMEM, x)
  else (0, dg_bufs (g_buffers x ++ [dgram_buf_init ip port buf]) (up1 (g_sem x)) x).

Definition raw_take (x : raw) (buf : Z) : Z * raw :=
  if c_max_buffer_num <=? zlen (r_buffers x) then (- ENOMEM, x)
  else (0, rw_bufs (r_buffers x ++ [buf]) (up1 (r_sem x)) x).

(** [if (socket->net_receive(...)) return 0;]: a socket that took the buffer returned 0, and the search goes on. *)
Fixpoint dgram_loop (l : list dgram) (buf src_ip src_port dst_port : Z) : Z * list dgram :=
  match l with
  | [] => (-1, [])
  | x :: r =>
      if negb (g_ref x =? 0) && (a_port (g_addr x) =? dst_port) then
        let '(ret, x) := dgram_take x src_ip src_port buf in
        if negb (ret =? 0) then (0, x :: r) else let '(ret, r) := dgram_loop r buf src_ip src_port dst_port in (ret, x :: r)
      else let '(ret, r) := dgram_loop r buf src_ip src_port dst_port in (ret, x :: r)
  end.

Fixpoint raw_loop (l : list raw) (buf protocol : Z) : Z * list raw :=
  match l with
  | [] => (-1, [])
  | x :: r =>
      if negb (r_ref x =? 0) && (r_protocol x =? protocol) then
        let '(ret, x) := raw_take x buf in
        if negb (ret =? 0) then (0, x :: r) else let '(ret, r) := raw_loop r buf protocol in (ret, x :: r)
      else let '(ret, r) := raw_loop r buf protocol in (ret, x :: r)
  end.

Section Calls.
Context {P : Type} `{ObjectPool P}.
Implicit Type n : net P.

Definition dgram_net_receive n s buf (src_ip src_port dst_ip dst_port : Z) : outcome (Z * net P * sockets) :=
  let '(ret, l) := dgram_loop (d_socks s) buf src_ip src_port dst_port in Done (ret, n, mk_socks l (r_socks s)).

Definition raw_net_receive n s buf (protocol ip : Z) : outcome (Z * net P * sockets) :=
  let '(ret, l) := raw_loop (r_socks s) buf protocol in Done (ret, n, mk_socks (d_socks s) l).

(** ** The calls *)

(** The result has the address as the call leaves it with the user. *)
Definition dgram_bind n s i (addr : sock_addr) : outcome (Z * sock_addr * sockets) :=
  let addr := if a_ip addr =? 0 then mk_addr (a_family addr) (c_ipaddr (n_cfg n)) (a_port addr) else addr in
  let! ' (r, s) := bind_dgram_socket s i addr in Done (r, addr, s).

Definition dgram_send_to n s i (data : list Z) (addr : sock_addr) : outcome (Z * net P * sockets) :=
  let! x := get_dgram s i in
  let! s :=
    if ntohs (a_port (g_addr x)) =? 0
    then dgram_unused_port (put_dgram s i (dg_addr (mk_addr (a_family (g_addr x)) (c_ipaddr (n_cfg n)) (a_port (g_addr x))) x)) i
    else Done s in
  let! x := get_dgram s i in
  let! ' (_, n) := udp_transmit n (ntohl (a_ip addr)) (a_port (g_addr x)) (ntohs (a_port addr)) data in
  Done (0, n, s).

(** The bytes that are copied to the user, and the address. *)
Definition dgram_recv_from n s i (size : Z) (addr_from : sock_addr) : outcome (Z * list Z * sock_addr * net P * sockets) :=
  let! x := get_dgram s i in
  let! sem := down1 (g_sem x) in
  match g_buffers x with
  | [] => Done (0, [], addr_from, n, put_dgram s i (dg_bufs [] sem x))
  | b :: rest =>
      let from := mk_addr (ntohs (a_family (db_from b))) (ntohl (a_ip (db_from b))) (ntohs (a_port (db_from b))) in
      let! len := get_data_len n (db_buf b) in
      let! bytes := buf_read n (db_buf b) 0 (if len <? size then len else size) in
      let! n := free_net_buffer n (db_buf b) in
      Done (0, bytes, from, n, put_dgram s i (dg_bufs rest sem x))
  end.

Fixpoint free_all n (l : list dgram_buf) : outcome (net P) :=
  match l with
  | [] => Done n
  | b :: r => let! n := free_net_buffer n (db_buf b) in free_all n r
  end.

Definition dgram_release n s i : outcome (Z * net P * sockets) :=
  let! x := get_dgram s i in
  let! n := free_all n (g_buffers x) in
  Done (0, n, put_dgram s i (dg_ref 0 (dg_bufs [] (g_sem x) x))).

Definition raw_send_to n s i (data : list Z) (addr : sock_addr) : outcome (Z * net P) :=
  let! x := get_raw s i in
  let! n := ip_transmit n (a_ip addr) data (r_protocol x) in Done (0, n).

Definition raw_recv_from n s i (size : Z) (addr_from : sock_addr) : outcome (Z * list Z * net P * sockets) :=
  let! x := get_raw s i in
  let x := rw_remote addr_from x in
  let! sem := down1 (r_sem x) in
  match r_buffers x with
  | [] => Done (0, [], n, put_raw s i (rw_bufs [] sem x))
  | b :: rest =>
      let! len := get_data_len n b in
      if len <? size then
        let! bytes := buf_read n b 0 len in Done (0, bytes, n, put_raw s i (rw_bufs rest sem x))
      else
        let! bytes := buf_read n b 0 size in
        let! ' (_, n) := pop_front n b size in Done (0, bytes, n, put_raw s i (rw_bufs (b :: rest) sem x))
  end.
End Calls.

(** ** From socket to socket *)

Definition dgram_for (port : Z) (x : dgram) : bool := negb (g_ref x =? 0) && (a_port (g_addr x) =? port).
Definition raw_for (protocol : Z) (x : raw) : bool := negb (r_ref x =? 0) && (r_protocol x =? protocol).

Lemma dgram_loop_none l buf ip port p : Forall (fun x => dgram_for p x = false) l -> dgram_loop l buf ip port p = (-1, l).
Proof.
  induction 1 as [|x l Hx Hl IH]; cbn [dgram_loop]; [reflexivity|]. unfold dgram_for in Hx. rewrite Hx, IH. reflexivity.
Qed.

Lemma raw_loop_none l buf p : Forall (fun x => raw_for p x = false) l -> raw_loop l buf p = (-1, l).
Proof.
  induction 1 as [|x l Hx Hl IH]; cbn [raw_loop]; [reflexivity|]. unfold raw_for in Hx. rewrite Hx, IH. reflexivity.
Qed.

(** One socket has the port, and takes the buffer. *)
Lemma dgram_loop_one l1 : forall x l2 buf ip port p, Forall (fun x => dgram_for p x = false) (l1 ++ l2) -> dgram_for p x = true -> zlen (g_buffers x) < c_max_buffer_num ->
  dgram_loop (l1 ++ x :: l2) buf ip port p = (-1, l1 ++ dg_bufs (g_buffers x ++ [dgram_buf_init ip port buf]) (up1 (g_sem x)) x :: l2).
Proof.
  induction l1 as [|y l1 IH]; intros x l2 buf ip port p Hn Hx Hr; cbn [app dgram_loop].
  - unfold dgram_for in Hx. rewrite Hx. unfold dgram_take. replace (c_max_buffer_num <=? zlen (g_buffers x)) with false by lia. cbn [Z.eqb negb].
    rewrite dgram_loop_none by exact Hn. reflexivity.
  - apply Forall_cons in Hn as [Hy Hn]. unfold dgram_for in Hy. rewrite Hy, IH by auto. reflexivity.
Qed.

Lemma zset_middle {A} (l1 : list A) x y l2 : zset (l1 ++ x :: l2) (zlen l1) y = l1 ++ y :: l2.
Proof.
  unfold zset, zlen. replace (Z.of_nat (length l1) <? 0) with false by lia. rewrite Nat2Z.id. replace (length l1) with (length l1 + 0)%nat by lia.
  rewrite insert_app_r. reflexivity.
Qed.

Lemma zget_middle {A} (l1 : list A) x l2 : zget (l1 ++ x :: l2) (zlen l1) = Some x.
Proof. unfold zlen. rewrite zget_of_nat. apply list_lookup_middle. reflexivity. Qed.

Section Theorems.
Context {P : Type} `{HP : ObjectPool P}.
Implicit Type n : net P.

(** A datagram that waits is what the next call gets. *)
Lemma recv_waiting B E U n s l1 x l2 b rest size addr d left ext sem : d_socks s = l1 ++ x :: l2 -> g_buffers x = b :: rest -> g_sem x = sem + 1 -> 0 <= sem ->
  net_ok B E U n -> db_buf b ∈ U -> holds n (db_buf b) d left ext -> 0 <= size ->
  exists n', dgram_recv_from n s (zlen l1) size addr =
      Done (0, take (Z.to_nat size) d, mk_addr (ntohs (a_family (db_from b))) (ntohl (a_ip (db_from b))) (ntohs (a_port (db_from b))), n',
            mk_socks (l1 ++ dg_bufs rest sem x :: l2) (r_socks s)) /\
    net_ok B E (U ∖ {[db_buf b]}) n' /\ keeps (U ∖ {[db_buf b]}) n n'.
Proof.
  intros Es Eb Em Hm N Hu Hh Hs. unfold dgram_recv_from, get_dgram. rewrite Es, zget_middle. cbn [deref obind]. unfold down1. rewrite Em. replace (0 <? sem + 1) with true by lia.
  cbn [obind]. rewrite Eb. destruct Hh as (y & Ey & El & Ee & En & Ed). unfold get_data_len, get_buf. rewrite Ey. cbn [deref obind]. rewrite En.
  assert (Hq : zlen (take (Z.to_nat size) d) = (if zlen d <? size then zlen d else size)) by (unfold zlen; rewrite length_take; destruct (_ <? _) eqn:E0; tests; lia).
  rewrite <- Hq. rewrite (buf_read_head n (db_buf b) (take (Z.to_nat size) d) (drop (Z.to_nat size) d) left ext) by (rewrite take_drop; exists y; auto).
  cbn [obind]. destruct (free_ok B E U n (db_buf b) d left ext N Hu) as (n' & Ef & N' & K' & _); [exists y; auto|]. rewrite Ef. cbn [obind].
  exists n'. split; [|auto]. unfold put_dgram. rewrite Es, zset_middle. replace (sem + 1 - 1) with sem by lia. reflexivity.
Qed.

(** C23: A datagram from socket to socket, on two hosts whose buffer pools are well formed and have buffers left, when the
    sender knows the Ethernet address of the next hop and one idle socket of the receiver has the port: [send_to] puts one
    frame on the wire; when the other host receives it and [recv_from] is called on that socket, it copies the first
    [size] bytes of the data and the sender's address and port, gives the buffer back, and leaves the receiver's sockets and
    all its other buffers as they were before.  The data has at least 18 bytes or at least as many as are asked for: Ethernet fills
    shorter packets up with zeros, which the code does not tell from data.  Nothing is said of the sender's buffers: [udp_t::transmit]
    does not give back the one it built the packet in. *)
Theorem datagram_end_to_end stream B1 E1 U1 (a : net P) B2 E2 U2 (b : net P) sa j xj sb l1 xi l2 data dst addr0 size :
  ready B1 E1 U1 a -> ready B2 E2 U2 b -> check_ip a (c_ipaddr (n_cfg b)) = true ->
  lookup_cache a (next_hop (n_cfg a) (c_ipaddr (n_cfg b))) = Some (c_eth_addr (n_cfg b)) -> c_eth_addr (n_cfg b) <> c_eth_addr (n_cfg a) ->
  zget (d_socks sa) j = Some xj -> ntohs (a_port (g_addr xj)) <> 0 -> 0 <= a_port (g_addr xj) < 2 ^ 16 ->
  ntohl (a_ip dst) = c_ipaddr (n_cfg b) -> ntohs (a_port dst) = a_port (g_addr xi) -> 0 <= a_port (g_addr xi) < 2 ^ 16 ->
  d_socks sb = l1 ++ xi :: l2 -> g_ref xi <> 0 -> g_buffers xi = [] -> g_sem xi = 0 ->
  Forall (fun x => dgram_for (a_port (g_addr xi)) x = false) (l1 ++ l2) -> Forall (fun x => raw_for PROTO_UDP x = false) (r_socks sb) ->
  byte_list data -> zlen data <= 2006 -> 0 <= size -> size <= zlen data \/ 18 <= zlen data ->
  exists a' frame b' sb' b2,
    dgram_send_to a sa j data dst = Done (0, a', sa) /\ n_sent a' = n_sent a ++ [frame] /\
    ethernet_receive raw_net_receive dgram_net_receive stream b sb frame = Done (b', sb') /\
    dgram_recv_from b' sb' (zlen l1) size addr0 =
      Done (0, take (Z.to_nat size) data,
            mk_addr (ntohs AF_INET) (ntohl (c_ipaddr (n_cfg a))) (ntohs (a_port (g_addr xj))), b2, sb) /\
    net_ok B2 E2 U2 b2 /\ keeps U2 b b2.
Proof.
  intros Ra Rb Hc Hl Hne Ej Hp Hpr Hip Hport Hpi Es Hr Hb Hsem Hother Hraw Hd Hlen Hsize Hexact.
  destruct (udp_delivers raw_net_receive dgram_net_receive stream B1 E1 U1 a B2 E2 U2 b sb (a_port (g_addr xj)) (a_port (g_addr xi)) data Ra Rb)
    as (a' & frame & b1 & buf & left & ext & Et & Hsent & Er & Hh & N & K & Hbuf); auto.
  { intros n buf ip. unfold raw_net_receive. rewrite raw_loop_none by exact Hraw. destruct sb. reflexivity. }
  set (x' := dg_bufs [dgram_buf_init (c_ipaddr (n_cfg a)) (a_port (g_addr xj)) buf] 1 xi). set (sb' := mk_socks (l1 ++ x' :: l2) (r_socks sb)).
  assert (Erx : ethernet_receive raw_net_receive dgram_net_receive stream b sb frame = Done (b1, sb')).
  { rewrite Er. unfold dgram_net_receive. rewrite Es, dgram_loop_one; [| exact Hother | unfold dgram_for; lia | rewrite Hb; reflexivity].
    cbn [obind]. rewrite Hb, Hsem. reflexivity. }
  destruct (recv_waiting B2 E2 ({[buf]} ∪ U2) b1 sb' l1 x' l2 (dgram_buf_init (c_ipaddr (n_cfg a)) (a_port (g_addr xj)) buf) [] size addr0
              (data ++ repeat 0 (Z.to_nat (18 - zlen data))) left ext 0) as (b2 & Ev & N2 & K2); try reflexivity; auto; [apply elem_of_union_l, elem_of_singleton_2; reflexivity|].
  cbn [dgram_buf_init db_buf] in N2, K2. rewrite union_difference_new in N2, K2 by exact Hbuf.
  exists a', frame, b1, sb', b2. split; [|split; [exact Hsent | split; [exact Erx | split; [|split; [exact N2 | eapply keeps_trans; eassumption]]]]].
  - unfold dgram_send_to, get_dgram. rewrite Ej. cbn [deref obind]. rewrite (proj2 (Z.eqb_neq _ _)) by exact Hp. cbn [obind]. rewrite Ej. cbn [deref obind].
    rewrite Hip, Hport, Et. reflexivity.
  - rewrite Ev. replace (take (Z.to_nat size) (data ++ repeat 0 (Z.to_nat (18 - zlen data)))) with (take (Z.to_nat size) data).
    2:{ destruct Hexact; [rewrite take_app_le by (unfold zlen in *; lia); reflexivity|].
        replace (Z.to_nat (18 - zlen data)) with 0%nat by lia. rewrite app_nil_r. reflexivity. }
    do 2 f_equal. unfold sb'. cbn [r_socks]. destruct sb as [dl rl]. cbn in Es. subst dl. f_equal. f_equal. unfold x'. destruct xi. cbn in Hb, Hsem |- *. subst. reflexivity.
Qed.
End Theorems.

Definition bound_to (port : Z) : dgram := mk_dgram AF_INET 2 0 SS_UNCONNECTED 1 (mk_addr AF_INET 0 port) [] 0.
Definition no_segments {P} (n : net P) (s : sockets) (hdr : list Z) (buf src_ip dst_ip : Z) : outcome (Z * net P * sockets) := Done (-1, n, s).

(** Two bytes from port 4096 to port 53, where the second socket of the table is. *)
Lemma datagram_end_to_end_witness :
  let sb := mk_socks [bound_to 99; bound_to 53] [] in
  exists a' frame b' sb' b2,
    dgram_send_to sender (mk_socks [bound_to 4096] []) 0 [104; 105] (mk_addr AF_INET (htonl (c_ipaddr host_b)) (htons 53)) = Done (0, a', mk_socks [bound_to 4096] []) /\
    n_sent a' = n_sent sender ++ [frame] /\
    ethernet_receive raw_net_receive dgram_net_receive no_segments receiver sb frame = Done (b', sb') /\
    dgram_recv_from b' sb' 1 2 (mk_addr 0 0 0) = Done (0, [104; 105], mk_addr 512 (ntohl (c_ipaddr host_a)) (ntohs 4096), b2, sb).
Proof.
  destruct (datagram_end_to_end no_segments (list_to_set host_bufs) (list_to_set host_exts) ∅ sender (list_to_set host_bufs) (list_to_set host_exts) ∅ receiver
              (mk_socks [bound_to 4096] []) 0 (bound_to 4096) (mk_socks [bound_to 99; bound_to 53] []) [bound_to 99] (bound_to 53) [] [104; 105]
              (mk_addr AF_INET (htonl (c_ipaddr host_b)) (htons 53)) (mk_addr 0 0 0) 2) as (a' & frame & b' & sb' & b2 & H1 & H2 & H3 & H4 & _);
    [.. | exists a', frame, b', sb', b2; auto].
  - apply host_ready; [split; [reflexivity | cbn; bytes] | split; [discriminate | reflexivity]].
  - apply host_ready; [split; [reflexivity | cbn; bytes] | split; [discriminate | reflexivity]].
  - reflexivity.
  - reflexivity.
  - discriminate.
  - reflexivity.
  - discriminate.
  - cbn. lia.
  - reflexivity.
  - reflexivity.
  - cbn. lia.
  - reflexivity.
  - discriminate.
  - reflexivity.
  - reflexivity.
  - repeat constructor.
  - constructor.
  - bytes.
  - discriminate.
  - lia.
  - left. vm_compute. discriminate.
Defined.

(** A datagram for a port that no socket has: its buffer stays in use, and nobody knows it. *)
Theorem unclaimed_datagram_leaks {P} `{ObjectPool P} stream B1 E1 U1 (a : net P) B2 E2 U2 (b : net P) sb src_port dst_port data :
  ready B1 E1 U1 a -> ready B2 E2 U2 b -> check_ip a (c_ipaddr (n_cfg b)) = true ->
  lookup_cache a (next_hop (n_cfg a) (c_ipaddr (n_cfg b))) = Some (c_eth_addr (n_cfg b)) -> c_eth_addr (n_cfg b) <> c_eth_addr (n_cfg a) ->
  Forall (fun x => dgram_for dst_port x = false) (d_socks sb) -> Forall (fun x => raw_for PROTO_UDP x = false) (r_socks sb) ->
  byte_list data -> zlen data <= 2006 -> 0 <= src_port < 2 ^ 16 -> 0 <= dst_port < 2 ^ 16 ->
  exists a' frame b' buf, udp_transmit a (c_ipaddr (n_cfg b)) src_port dst_port data = Done (0, a') /\ n_sent a' = n_sent a ++ [frame] /\
    ethernet_receive raw_net_receive dgram_net_receive stream b sb frame = Done (b', sb) /\ (buf ∉ U2) /\ net_ok B2 E2 ({[buf]} ∪ U2) b'.
Proof.
  intros Ra Rb Hc Hl Hne Hd Hr Hby Hlen Hsp Hdp.
  destruct (udp_delivers raw_net_receive dgram_net_receive stream B1 E1 U1 a B2 E2 U2 b sb src_port dst_port data Ra Rb)
    as (a' & frame & b1 & buf & left & ext & Et & Hsent & Er & Hh & N & K & Hbuf); auto.
  { intros n buf ip. unfold raw_net_receive. rewrite raw_loop_none by exact Hr. destruct sb. reflexivity. }
  exists a', frame, b1, buf. split; [exact Et|]. split; [exact Hsent|]. split; [|auto]. rewrite Er. unfold dgram_net_receive. rewrite dgram_loop_none by exact Hd.
  destruct sb. reflexivity.
Qed.

(** A raw read of exactly what the buffer holds leaves the buffer, now empty, at the head of the queue. *)
Theorem raw_read_leaves_empty_buffer {P} `{ObjectPool P} (n : net P) s i x b rest d left ext addr : zget (r_socks s) i = Some x -> r_sem x = 1 -> r_buffers x = b :: rest ->
  holds n b d left ext -> forall B E U, net_ok B E U n -> b ∈ U ->
  exists n' left', raw_recv_from n s i (zlen d) addr = Done (0, d, n', put_raw s i (rw_bufs (b :: rest) 0 (rw_remote addr x))) /\ holds n' b [] left' ext.
Proof.
  intros Ex Em Eb Hh B E U N Hu. unfold raw_recv_from, get_raw. rewrite Ex. cbn [deref obind rw_remote r_sem r_buffers]. rewrite Em, Eb. cbn [down1 obind Z.ltb Z.compare Z.sub Z.add Z.opp Z.pos_sub].
  pose proof Hh as (y & Ey & El & Ee & En & Ed). unfold get_data_len, get_buf. rewrite Ey. cbn [deref obind]. rewrite En, Z.ltb_irrefl.
  rewrite (buf_read_head n b d [] left ext) by (rewrite app_nil_r; exact Hh). cbn [obind].
  destruct (pop_holds B E U n b d [] left ext N Hu) as (n' & Ep & Hp & _); [rewrite app_nil_r; exact Hh|]. rewrite Ep. cbn [obind].
  eexists n', _. split; [reflexivity | exact Hp].
Qed.
