(* ===== verification/Local.v ===== *)
(** * Local sockets (src/src/socket_local.cc)

    Connections between processes of the same machine: each end has a ring of bytes that the
    other end writes into.  [connect] is cut where it sleeps until the server has
    accepted; sockets are designated by their index in the table, semaphores by
    their counts. *)
From Stdlib Require Import ZArith ZifyBool Lia.
From stdpp Require Import base option list gmap.
From S2P Require Import Prelude Interfaces Buddy Sync Pipe SockRing Stream.

Definition AF_LOCAL : Z := 1.
Definition SF_ACCEPTCON : Z := 2 ^ 16.
Definition EINTR : Z := 4.
Definition EACCES : Z := 13.
Definition EINVAL : Z := 22.

(** [sock_addr_local_t]: the family and the path, compared by [strcmp]. *)
Record local_addr := mk_laddr { la_family : Z; la_path : list Z }.

Definition laddr_eqb (a b : local_addr) : bool := (la_family a =? la_family b) && bool_decide (la_path a = la_path b).

Record lsock := mk_ls {
  l_flags : Z; l_family : Z; l_type : Z; l_protocol : Z; l_state : sock_state;
  l_ref : Z; l_addr : local_addr; l_ring : sock_ring;
  l_connecting : list Z; l_peer : Z; l_wait_connect : Z; l_wait_accept : Z
}.

Definition ls_flags v (x : lsock) : lsock := mk_ls v (l_family x) (l_type x) (l_protocol x) (l_state x) (l_ref x) (l_addr x) (l_ring x) (l_connecting x) (l_peer x) (l_wait_connect x) (l_wait_accept x).
Definition ls_state v (x : lsock) : lsock := mk_ls (l_flags x) (l_family x) (l_type x) (l_protocol x) v (l_ref x) (l_addr x) (l_ring x) (l_connecting x) (l_peer x) (l_wait_connect x) (l_wait_accept x).
Definition ls_ref v (x : lsock) : lsock := mk_ls (l_flags x) (l_family x) (l_type x) (l_protocol x) (l_state x) v (l_addr x) (l_ring x) (l_connecting x) (l_peer x) (l_wait_connect x) (l_wait_accept x).
Definition ls_addr v (x : lsock) : lsock := mk_ls (l_flags x) (l_family x) (l_type x) (l_protocol x) (l_state x) (l_ref x) v (l_ring x) (l_connecting x) (l_peer x) (l_wait_connect x) (l_wait_accept x).
Definition ls_ring v (x : lsock) : lsock := mk_ls (l_flags x) (l_family x) (l_type x) (l_protocol x) (l_state x) (l_ref x) (l_addr x) v (l_connecting x) (l_peer x) (l_wait_connect x) (l_wait_accept x).
Definition ls_connecting v n (x : lsock) : lsock := mk_ls (l_flags x) (l_family x) (l_type x) (l_protocol x) (l_state x) (l_ref x) (l_addr x) (l_ring x) v (l_peer x) n (l_wait_accept x).
Definition ls_peer v (x : lsock) : lsock := mk_ls (l_flags x) (l_family x) (l_type x) (l_protocol x) (l_state x) (l_ref x) (l_addr x) (l_ring x) (l_connecting x) v (l_wait_connect x) (l_wait_accept x).
Definition ls_accept v (x : lsock) : lsock := mk_ls (l_flags x) (l_family x) (l_type x) (l_protocol x) (l_state x) (l_ref x) (l_addr x) (l_ring x) (l_connecting x) (l_peer x) (l_wait_connect x) v.

Definition table : Type := list lsock.
Implicit Types (t : table) (i : Z).

Definition sock_at t i : outcome lsock := deref (zget t i).
Definition modify t i (f : lsock -> lsock) : outcome table := let! x := sock_at t i in Done (zset t i (f x)).

Fixpoint first_unused (l : list lsock) i : Z :=
  match l with
  | [] => NO_SOCK
  | x :: r => if l_ref x =? 0 then i else first_unused r (i + 1)
  end.

Definition alloc_local_socket t : outcome (Z * table) :=
  let i := first_unused t 0 in
  if i =? NO_SOCK then Done (NO_SOCK, t) else let! t := modify t i (ls_ref 1) in Done (i, t).

(** Also a socket that is not in use is found. *)
Fixpoint first_addr (l : list lsock) (addr : local_addr) i : Z :=
  match l with
  | [] => NO_SOCK
  | x :: r => if laddr_eqb (l_addr x) addr then i else first_addr r addr (i + 1)
  end.

Definition lookup_local_socket t (addr : local_addr) : Z := first_addr t addr 0.

Definition bind_local_socket t i (addr : local_addr) : outcome (Z * table) :=
  if existsb (fun s => laddr_eqb (l_addr s) addr && negb (l_ref s =? 0)) t then Done (-1, t)
  else let! t := modify t i (ls_addr addr) in Done (0, t).

(** [pages] is what [alloc_pages(1)] gave; the flags stay. *)
Definition local_create t i (family type protocol : Z) (pages : list Z) : outcome (Z * table) :=
  let! t := modify t i (fun x => mk_ls (l_flags x) family type protocol SS_UNCONNECTED 1 (mk_laddr (la_family (l_addr x)) []) (sring_init pages 1) [] NO_SOCK 0 0) in
  Done (0, t).

Definition local_dup t i orig (pages : list Z) : outcome (Z * table) :=
  let! x := sock_at t orig in local_create t i (l_family x) (l_type x) (l_protocol x) pages.

Definition local_get_addr t i : outcome (Z * local_addr) := let! x := sock_at t i in Done (0, l_addr x).

(** The loop over the sockets that wait to be accepted does not move on: with one of them it never ends. *)
Definition local_release t i : outcome (Z * table) :=
  let! x := sock_at t i in
  let old_state := l_state x in
  let! t := (if bool_decide (old_state = SS_UNCONNECTED) then Done t else modify t i (ls_state SS_DISCONNECTING)) in
  match l_connecting x with
  | _ :: _ => Blocked
  | [] =>
      let peer := l_peer x in
      let! t := (if bool_decide (old_state = SS_CONNECTED) && negb (peer =? NO_SOCK) then modify t peer (ls_state SS_DISCONNECTING) else Done t) in
      let! t := modify t i (fun x => ls_ref (u32 (l_ref x - 1)) x) in
      let! t := (if negb (peer =? NO_SOCK) then modify t peer (fun x => ls_ref (u32 (l_ref x - 1)) x) else Done t) in
      Done (0, t)
  end.

Definition local_bind t i (addr : local_addr) : outcome (Z * table) := bind_local_socket t i addr.
Definition local_listen t i (backlog : Z) : outcome (Z * table) := Done (0, t).

(** The [while] of [accept]: every round takes one from the semaphore, so that many rounds and one are enough. *)
Fixpoint accept_wait (fuel : nat) t server : outcome table :=
  match fuel with
  | O => Blocked
  | S k =>
      let! x := sock_at t server in
      match l_connecting x with
      | _ :: _ => Done t
      | [] =>
          let! sem := down1 (l_wait_connect x) in
          accept_wait k (zset t server (ls_flags (Z.land (l_flags x) (not32 SF_WAITDATA)) (ls_connecting [] sem x))) server
      end
  end.

Definition local_accept t i server : outcome (Z * table) :=
  let! x := sock_at t server in
  let! t := accept_wait (S (Z.to_nat (l_wait_connect x))) t server in
  let! x := sock_at t server in
  let! client := deref (head (l_connecting x)) in
  let! t := modify t server (fun x => ls_connecting (tail (l_connecting x)) (l_wait_connect x) x) in
  let! t := modify t client (fun x => ls_state SS_CONNECTED (ls_peer i x)) in
  let! t := modify t i (fun x => ls_ref (u32 (l_ref x + 1)) (ls_state SS_CONNECTED (ls_peer client x))) in
  let! t := modify t client (fun x => ls_accept (up1 (l_wait_accept x)) x) in
  Done (0, t).

(** Up to [m_wait_accept_sem.down()]: [Some] is the error it returns with. *)
Definition connect_start t i (addr : local_addr) : outcome (option Z * table) :=
  let! x := sock_at t i in
  if bool_decide (l_state x = SS_CONNECTING) then Done (Some (- EINPROGRESS), t)
  else if bool_decide (l_state x = SS_CONNECTED) then Done (Some (- EISCONN), t)
  else if negb (la_family addr =? AF_LOCAL) then Done (Some (- EINVAL), t)
  else
    let server := lookup_local_socket t addr in
    if server =? NO_SOCK then Done (Some (- EINVAL), t)
    else
      let! y := sock_at t server in
      if negb (bool_decide (l_state y = SS_UNCONNECTED)) then Done (Some (- EINVAL), t)
      else if Z.land (l_flags y) SF_ACCEPTCON =? 0 then Done (Some (- EINVAL), t)
      else
        let! t := modify t server (fun y => ls_connecting (l_connecting y ++ [i]) (up1 (l_wait_connect y)) y) in
        Done (None, t).

Definition connect_finish t i : outcome (Z * table) :=
  let! x := sock_at t i in
  let! sem := down1 (l_wait_accept x) in
  let t := zset t i (ls_accept sem x) in
  if negb (bool_decide (l_state x = SS_CONNECTED)) then Done (if l_peer x =? NO_SOCK then - EACCES else - EINTR, t)
  else let! t := modify t i (fun x => ls_ref (u32 (l_ref x + 1)) x) in Done (0, t).

Definition connected (x : lsock) : bool := bool_decide (l_state x = SS_CONNECTED).

Fixpoint read_loop (n : nat) t i : outcome (bool * list Z * table) :=
  match n with
  | O => Done (true, [], t)
  | S k =>
      let! x := sock_at t i in
      let! ' (r, ch, ring) := sring_get_char (connected x) (l_ring x) in
      let t := zset t i (ls_ring ring x) in
      if r <? 0 then Done (false, [], t)
      else let! ' (ok, bytes, t) := read_loop k t i in Done (ok, ch :: bytes, t)
  end.

Definition local_read t i (size : Z) : outcome (Z * list Z * table) :=
  let! ' (ok, bytes, t) := read_loop (Z.to_nat size) t i in Done (if ok : bool then size else -1, bytes, t).

(** Into the ring of the peer. *)
Fixpoint write_loop (bytes : list Z) t peer : outcome (bool * table) :=
  match bytes with
  | [] => Done (true, t)
  | ch :: rest =>
      let! y := sock_at t peer in
      let! ' (r, ring) := sring_put_char (connected y) (l_ring y) ch in
      let t := zset t peer (ls_ring ring y) in
      if r <? 0 then Done (false, t) else write_loop rest t peer
  end.

Definition local_write t i (bytes : list Z) : outcome (Z * table) :=
  let! x := sock_at t i in
  let! ' (ok, t) := write_loop bytes t (l_peer x) in Done (if ok : bool then zlen bytes else -1, t).

(** ** A connection is a pair of queues *)

(** The ring holds the bytes [q], and its semaphores count them. *)
Definition holds_bytes (x : lsock) (q : list Z) : Prop := sring_rep (l_ring x) q (zlen q).

Lemma sring_put_char_ok r q c : sring_rep r q (zlen q) -> zlen q < s_length r ->
  exists r', sring_put_char true r c = Done (0, r') /\ sring_rep r' (q ++ [c]) (zlen (q ++ [c])) /\ s_length r' = s_length r.
Proof.
  intros R Hf. pose proof (zlen_nonneg q). destruct (put_loop_ok [c] r q (zlen q) R) as (r' & E & R' & El); [lia | change (zlen [c]) with 1; lia|].
  exists r'. split; [|rewrite zlen_app; auto]. cbn [put_loop] in E. unfold sring_put_char. destruct (down1 (s_space r)) as [sp| | |]; cbn [obind] in E |- *; try discriminate.
  injection E as <-. reflexivity.
Qed.

Lemma sring_get_char_ok r c q : sring_rep r (c :: q) (zlen (c :: q)) ->
  exists r', sring_get_char true r = Done (0, c, r') /\ sring_rep r' q (zlen q) /\ s_length r' = s_length r.
Proof.
  intros [R L S I]. destruct (ring_get _ _ _ _ _ _ R) as [Hc R']. rewrite zlen_cons in *. pose proof (zlen_nonneg q). pose proof (rg_pos _ _ _ _ _ R). pose proof (rg_fit _ _ _ _ _ R) as Hf. rewrite zlen_cons in Hf.
  unfold sring_get_char, down1. rewrite I. replace (0 <? zlen q + 1) with true by lia. cbn [obind]. rewrite Hc. cbn [deref obind]. eexists. split; [reflexivity|].
  split; [|reflexivity]. constructor; cbn; [exact R' | rewrite L, u32_small by lia; lia | unfold up1; rewrite S, u32_small by lia; lia | lia].
Qed.

Definition RING_SIZE : Z := 8192.

Lemma local_ring_rep pages : zlen pages = RING_SIZE -> sring_rep (sring_init pages 1) [] 0 /\ s_length (sring_init pages 1) = RING_SIZE.
Proof.
  intros H. split; [|reflexivity]. constructor; try reflexivity. change (s_length (sring_init pages 1)) with 8192.
  constructor; [exact H | lia | change (zlen []) with 0; lia | change (0 <= 0 < 8192); lia | reflexivity |].
  intros i c Hc. apply zget_Some_range in Hc. change (zlen []) with 0 in Hc. lia.
Qed.

(** Socket [i] is connected to [j], and bytes [q] wait for it. *)
Definition end_of t i j (q : list Z) : Prop :=
  exists x, zget t i = Some x /\ l_state x = SS_CONNECTED /\ l_peer x = j /\ holds_bytes x q /\ s_length (l_ring x) = RING_SIZE.

Lemma end_of_other t i j k q x : end_of t i j q -> k <> i -> end_of (zset t k x) i j q.
Proof.
  intros (y & E & H) Hne. exists y. split; [|exact H]. pose proof (zget_Some_range _ _ _ E). rewrite zget_zset_ne by lia. exact E.
Qed.

Lemma end_of_set t i x j q : 0 <= i < zlen t -> l_state x = SS_CONNECTED -> l_peer x = j -> holds_bytes x q -> s_length (l_ring x) = RING_SIZE -> end_of (zset t i x) i j q.
Proof. intros Hi H1 H2 H3 H4. exists x. rewrite zget_zset_eq by exact Hi. auto. Qed.

Lemma send_loop_ok bytes : forall t i j q, end_of t i j q -> zlen q + zlen bytes <= RING_SIZE ->
  exists t', write_loop bytes t i = Done (true, t') /\ end_of t' i j (q ++ bytes) /\ forall k l q', k <> i -> end_of t k l q' -> end_of t' k l q'.
Proof.
  induction bytes as [|c bytes IH]; intros t i j q H Hf; cbn [write_loop].
  - exists t. rewrite app_nil_r. auto.
  - pose proof H as (x & E & Hs & Hp & Hb & Hl). rewrite zlen_cons in Hf. pose proof (zlen_nonneg bytes). unfold sock_at. rewrite E. cbn [deref obind].
    unfold connected. rewrite bool_decide_eq_true_2 by exact Hs. destruct (sring_put_char_ok (l_ring x) q c Hb) as (r' & Er & R' & El); [lia|]. rewrite Er. cbn [obind Z.ltb Z.compare].
    destruct (IH (zset t i (ls_ring r' x)) i j (q ++ [c])) as (t' & Et & H' & Ho).
    + apply end_of_set; [apply (zget_Some_range _ _ _ E) | exact Hs | exact Hp | exact R' | cbn; congruence].
    + rewrite zlen_app. change (zlen [c]) with 1. lia.
    + exists t'. rewrite <- app_assoc in H'. split; [exact Et|]. split; [exact H'|]. intros k l q' Hk Hq. apply Ho; [exact Hk|]. apply end_of_other; auto.
Qed.

Lemma recv_loop_ok n : forall t i j q, end_of t i j q -> Z.of_nat n <= zlen q ->
  exists t', read_loop n t i = Done (true, take n q, t') /\ end_of t' i j (drop n q) /\ forall k l q', k <> i -> end_of t k l q' -> end_of t' k l q'.
Proof.
  induction n as [|n IH]; intros t i j q H Hn; cbn [read_loop].
  - exists t. auto.
  - destruct q as [|c q]; [change (zlen []) with 0 in Hn; lia|]. rewrite zlen_cons in Hn. pose proof H as (x & E & Hs & Hp & Hb & Hl). unfold sock_at. rewrite E. cbn [deref obind].
    unfold connected. rewrite bool_decide_eq_true_2 by exact Hs. destruct (sring_get_char_ok (l_ring x) c q Hb) as (r' & Er & R' & El). rewrite Er. cbn [obind Z.ltb Z.compare].
    destruct (IH (zset t i (ls_ring r' x)) i j q) as (t' & Et & H' & Ho); [|lia|].
    + apply end_of_set; [apply (zget_Some_range _ _ _ E) | exact Hs | exact Hp | exact R' | cbn; congruence].
    + rewrite Et. cbn [obind]. exists t'. split; [reflexivity|]. split; [exact H'|]. intros k l q' Hk Hq. apply Ho; [exact Hk|]. apply end_of_other; auto.
Qed.

(** *** The contract: what each side wrote and the other has not read *)

Inductive stream_op := Send (side : bool) (bytes : list Z) | Receive (side : bool) (size : nat).

Definition queues : Type := list Z * list Z.

(** [true] is the first socket: its queue, what waits for it, is the first one. *)
Definition queue_of (q : queues) (side : bool) : list Z := if side then fst q else snd q.
Definition set_queue (q : queues) (side : bool) (l : list Z) : queues := if side then (l, snd q) else (fst q, l).

(** The bytes that are given back; none when the call would have to wait. *)
Definition spec_op (q : queues) (o : stream_op) : option (list Z * queues) :=
  match o with
  | Send side bytes =>
      if zlen (queue_of q (negb side)) + zlen bytes <=? RING_SIZE then Some ([], set_queue q (negb side) (queue_of q (negb side) ++ bytes)) else None
  | Receive side n => if Z.of_nat n <=? zlen (queue_of q side) then Some (take n (queue_of q side), set_queue q side (drop n (queue_of q side))) else None
  end.

Definition code_op t i j (o : stream_op) : outcome (list Z * table) :=
  match o with
  | Send side bytes => let! ' (n, t) := local_write t (if side then i else j) bytes in if n =? zlen bytes then Done ([], t) else Fault
  | Receive side n => let! ' (r, bytes, t) := local_read t (if side then i else j) (Z.of_nat n) in if r =? Z.of_nat n then Done (bytes, t) else Fault
  end.

Fixpoint spec_run (q : queues) (l : list stream_op) : option (list (list Z) * queues) :=
  match l with
  | [] => Some ([], q)
  | o :: l => match spec_op q o with
              | None => None
              | Some (r, q) => match spec_run q l with Some (rs, q) => Some (r :: rs, q) | None => None end
              end
  end.

Fixpoint code_run t i j (l : list stream_op) : outcome (list (list Z) * table) :=
  match l with
  | [] => Done ([], t)
  | o :: l => let! ' (r, t) := code_op t i j o in let! ' (rs, t) := code_run t i j l in Done (r :: rs, t)
  end.

(** The two sockets are connected to each other and hold the two queues. *)
Definition pair_rep t i j (q : queues) : Prop := i <> j /\ end_of t i j (fst q) /\ end_of t j i (snd q).

Lemma pair_flip t i j q : pair_rep t i j q -> pair_rep t j i (snd q, fst q).
Proof. intros (H1 & H2 & H3). repeat split; auto. Qed.

(** The calls of the first socket; those of the second are the same by [pair_flip]. *)
Lemma send_first t i j q bytes : pair_rep t i j q -> zlen (snd q) + zlen bytes <= RING_SIZE ->
  exists t', local_write t i bytes = Done (zlen bytes, t') /\ pair_rep t' i j (fst q, snd q ++ bytes).
Proof.
  intros (Hne & (x & Ex & Hs & Hp & Hb & Hl) & H2) Hf. destruct (send_loop_ok bytes t j i (snd q) H2 Hf) as (t' & E & H' & Ho).
  unfold local_write, sock_at. rewrite Ex. cbn [deref obind]. rewrite Hp, E. cbn [obind]. exists t'. split; [reflexivity|].
  split; [exact Hne|]. split; [|exact H']. apply Ho; [exact Hne|]. exists x. auto.
Qed.

Lemma receive_first t i j q n : pair_rep t i j q -> Z.of_nat n <= zlen (fst q) ->
  exists t', local_read t i (Z.of_nat n) = Done (Z.of_nat n, take n (fst q), t') /\ pair_rep t' i j (drop n (fst q), snd q).
Proof.
  intros (Hne & H1 & H2) Hn. destruct (recv_loop_ok n t i j (fst q) H1 Hn) as (t' & E & H' & Ho).
  unfold local_read. rewrite Nat2Z.id, E. cbn [obind]. exists t'. split; [reflexivity|]. split; [exact Hne|]. split; [exact H' | apply Ho; auto].
Qed.

Lemma code_op_local_ok t i j q o r q' : pair_rep t i j q -> spec_op q o = Some (r, q') -> exists t', code_op t i j o = Done (r, t') /\ pair_rep t' i j q'.
Proof.
  intros R. destruct o as [[] bytes | [] n]; cbn [spec_op code_op negb queue_of set_queue]; destruct (_ <=? _) eqn:E; try discriminate; tests; intros [= <- <-].
  - destruct (send_first t i j q bytes R E) as (t' & -> & R'). cbn [obind]. rewrite Z.eqb_refl. eauto.
  - destruct (send_first t j i _ bytes (pair_flip _ _ _ _ R) E) as (t' & -> & R'). cbn [obind]. rewrite Z.eqb_refl. exists t'. split; [reflexivity | exact (pair_flip _ _ _ _ R')].
  - destruct (receive_first t i j q n R E) as (t' & -> & R'). cbn [obind]. rewrite Z.eqb_refl. eauto.
  - destruct (receive_first t j i _ n (pair_flip _ _ _ _ R) E) as (t' & -> & R'). cbn [obind]. rewrite Z.eqb_refl. exists t'. split; [reflexivity | exact (pair_flip _ _ _ _ R')].
Qed.

(** Connected sockets refine a pair of byte queues: for any sequence of writes and reads of both sides that the contract can
    serve without waiting, the code returns the same bytes, and still holds the queues of the contract. *)
Theorem local_stream_refines ops : forall t i j q rs q', pair_rep t i j q -> spec_run q ops = Some (rs, q') ->
  exists t', code_run t i j ops = Done (rs, t') /\ pair_rep t' i j q'.
Proof.
  induction ops as [|o ops IH]; intros t i j q rs q' R; cbn [spec_run code_run]; [intros [= <- <-]; eauto|].
  destruct (spec_op q o) as [[r q1]|] eqn:Eo; [|discriminate]. destruct (spec_run q1 ops) as [[rs1 q2]|] eqn:Er; [|discriminate]. intros [= <- <-].
  destruct (code_op_local_ok t i j q o r q1 R Eo) as (t1 & -> & R1). cbn [obind]. destruct (IH t1 i j q1 rs1 q2 R1 Er) as (t2 & -> & R2). cbn [obind]. eauto.
Qed.

(** ** Meeting *)

(** A socket as [create] leaves it. *)
Definition fresh (x : lsock) : Prop :=
  l_state x = SS_UNCONNECTED /\ l_ref x = 1 /\ l_peer x = NO_SOCK /\ l_wait_accept x = 0 /\ holds_bytes x [] /\ s_length (l_ring x) = RING_SIZE.

Lemma create_fresh t i family type protocol pages : 0 <= i < zlen t -> zlen pages = RING_SIZE ->
  exists t' x, local_create t i family type protocol pages = Done (0, t') /\ zget t' i = Some x /\ fresh x.
Proof.
  intros Hi Hp. destruct (zget_in_range t i Hi) as (y & Ey). unfold local_create, modify, sock_at. rewrite Ey. cbn [deref obind].
  eexists _, _. split; [reflexivity|]. split; [apply zget_zset_eq, Hi|]. destruct (local_ring_rep pages Hp). split_and!; auto.
Qed.

Lemma modify_eq t i f x : zget t i = Some x -> modify t i f = Done (zset t i (f x)).
Proof. intros E. unfold modify, sock_at. rewrite E. reflexivity. Qed.

(** A client and a server meet: when the client connects to the address where a socket listens, and the server accepts with a new
    socket, the client's call returns 0; the client and the new socket are then connected to
    each other, with both queues empty and a reference more, and the listening socket is as before. *)
Theorem local_rendezvous t c n sv addr x y z : zget t c = Some x -> zget t n = Some y -> zget t sv = Some z ->
  c <> n -> c <> sv -> n <> sv -> fresh x -> fresh y -> la_family addr = AF_LOCAL -> lookup_local_socket t addr = sv ->
  l_state z = SS_UNCONNECTED -> Z.land (l_flags z) SF_ACCEPTCON <> 0 -> l_connecting z = [] -> 0 <= l_wait_connect z < 2 ^ 32 - 1 ->
  exists t1 t2 t3, connect_start t c addr = Done (None, t1) /\ local_accept t1 n sv = Done (0, t2) /\ connect_finish t2 c = Done (0, t3) /\
    pair_rep t3 c n ([], []) /\ zget t3 sv = Some (ls_connecting [] (l_wait_connect z + 1) z) /\
    (forall k, 0 <= k -> k <> c -> k <> n -> k <> sv -> zget t3 k = zget t k).
Proof.
  intros Ex Ey Ez Hcn Hcs Hns (X1 & X2 & X3 & X4 & X5 & X6) (Y1 & Y2 & Y3 & Y4 & Y5 & Y6) Hf Hl Hst Hfl Hco Hw.
  pose proof (zget_Some_range _ _ _ Ex) as Rc. pose proof (zget_Some_range _ _ _ Ey) as Rn. pose proof (zget_Some_range _ _ _ Ez) as Rs.
  assert (E1 : connect_start t c addr = Done (None, zset t sv (ls_connecting [c] (up1 (l_wait_connect z)) z))).
  { unfold connect_start, sock_at. rewrite Ex. cbn [deref obind]. rewrite X1. rewrite !bool_decide_eq_false_2 by discriminate. rewrite Hf. cbn [Z.eqb AF_LOCAL Pos.eqb negb].
    rewrite Hl. replace (sv =? NO_SOCK) with false by (unfold NO_SOCK; lia). rewrite Ez. cbn [deref obind]. rewrite bool_decide_eq_true_2 by exact Hst. cbn [negb].
    rewrite (proj2 (Z.eqb_neq _ _)) by exact Hfl. rewrite (modify_eq t sv _ z Ez), Hco. reflexivity. }
  set (z1 := ls_connecting [c] (up1 (l_wait_connect z)) z) in *. set (t1 := zset t sv z1) in *.
  assert (G1 : forall k, 0 <= k -> k <> sv -> zget t1 k = zget t k) by (intros k Hk Hne; apply zget_zset_ne; auto).
  assert (Ez1 : zget t1 sv = Some z1) by (apply zget_zset_eq, Rs).
  set (ta := zset t1 sv (ls_connecting [] (up1 (l_wait_connect z)) z1)). set (xa := ls_state SS_CONNECTED (ls_peer n x)). set (tb := zset ta c xa).
  set (ya := ls_ref (u32 (l_ref y + 1)) (ls_state SS_CONNECTED (ls_peer c y))). set (tc := zset tb n ya). set (xb := ls_accept 1 xa). set (t2 := zset tc c xb).
  assert (Lt : forall (u : table) k v, zlen (zset u k v) = zlen u) by (intros; unfold zlen; rewrite zset_length; reflexivity).
  assert (E2 : local_accept t1 n sv = Done (0, t2)).
  { assert (Es : sock_at t1 sv = Done z1) by (unfold sock_at; rewrite Ez1; reflexivity).
    unfold local_accept. rewrite Es. cbn [obind accept_wait]. rewrite Es. cbn [obind]. change (l_connecting z1) with [c]. cbn [obind]. rewrite Es. cbn [obind].
    change (l_connecting z1) with [c]. cbn [head deref obind]. rewrite (modify_eq t1 sv _ z1 Ez1). cbn [obind]. change (tail (l_connecting z1)) with (@nil Z). change (l_wait_connect z1) with (up1 (l_wait_connect z)).
    fold ta. rewrite (modify_eq ta c _ x) by (unfold ta; rewrite zget_zset_ne, G1 by lia; exact Ex). cbn [obind]. fold xa tb.
    rewrite (modify_eq tb n _ y) by (unfold tb, ta; rewrite !zget_zset_ne, G1 by lia; exact Ey). cbn [obind]. fold ya tc.
    rewrite (modify_eq tc c _ xa) by (unfold tc, tb; rewrite zget_zset_ne by lia; apply zget_zset_eq; unfold ta, t1; rewrite !Lt; exact Rc). cbn [obind].
    unfold t2, xb. cbn [xa ls_state ls_peer l_wait_accept]. rewrite X4. reflexivity. }
  set (x3 := ls_ref (u32 (l_ref x + 1)) (ls_accept 0 xb)). set (t3 := zset (zset t2 c (ls_accept 0 xb)) c x3).
  assert (Ex2 : zget t2 c = Some xb) by (apply zget_zset_eq; unfold tc, tb, ta, t1; rewrite !Lt; exact Rc).
  exists t1, t2, t3. split; [exact E1|]. split; [exact E2|]. split; [|split; [split; [exact Hcn|]; split|split]].
  - unfold connect_finish, sock_at. rewrite Ex2. cbn [deref obind xb ls_accept l_wait_accept down1 Z.ltb Z.compare Z.sub Z.add Z.opp Z.pos_sub].
    fold xb. cbn [xb ls_accept l_state xa ls_state]. rewrite bool_decide_eq_true_2 by reflexivity. cbn [negb].
    rewrite (modify_eq _ c _ (ls_accept 0 xb)) by (apply zget_zset_eq; unfold t2, tc, tb, ta, t1; rewrite !Lt; exact Rc). reflexivity.
  - apply end_of_set; [unfold t2, tc, tb, ta, t1; rewrite !Lt; exact Rc | reflexivity | reflexivity | exact X5 | exact X6].
  - unfold t3, t2. do 3 (apply end_of_other; [|exact Hcn]). apply end_of_set; [unfold tb, ta, t1; rewrite !Lt; exact Rn | reflexivity | reflexivity | exact Y5 | exact Y6].
  - unfold t3, t2, tc, tb. rewrite !zget_zset_ne by lia. unfold ta. rewrite zget_zset_eq by (unfold t1; rewrite Lt; exact Rs). cbn. unfold up1. rewrite u32_small by lia. reflexivity.
  - intros k Hk H1 H2 H3. unfold t3, t2, tc, tb, ta. rewrite !zget_zset_ne by auto. apply G1; auto.
Qed.

(** ** Concrete sockets *)

Definition two_pages : list Z := replicate 8192 0.
Definition new_sock : lsock := mk_ls 0 AF_LOCAL 1 0 SS_UNCONNECTED 1 (mk_laddr AF_LOCAL []) (sring_init two_pages 1) [] NO_SOCK 0 0.
Definition listener : lsock := ls_addr (mk_laddr AF_LOCAL [47; 115]) (ls_flags SF_ACCEPTCON new_sock).
Definition pair_sock (peer : Z) : lsock := ls_peer peer (ls_state SS_CONNECTED new_sock).

Lemma two_pages_length : zlen two_pages = RING_SIZE.
Proof. unfold zlen, two_pages. rewrite length_replicate. reflexivity. Qed.

Lemma new_sock_fresh : fresh new_sock.
Proof. destruct (local_ring_rep two_pages two_pages_length). split_and!; try reflexivity; assumption. Qed.

Lemma local_rendezvous_witness : exists t1 t2 t3,
  connect_start [listener; new_sock; new_sock] 1 (mk_laddr AF_LOCAL [47; 115]) = Done (None, t1) /\ local_accept t1 2 0 = Done (0, t2) /\ connect_finish t2 1 = Done (0, t3) /\
  pair_rep t3 1 2 ([], []).
Proof.
  destruct (local_rendezvous [listener; new_sock; new_sock] 1 2 0 (mk_laddr AF_LOCAL [47; 115]) new_sock new_sock listener) as (t1 & t2 & t3 & H1 & H2 & H3 & H4 & _);
    try reflexivity; try discriminate; try apply new_sock_fresh; try (cbn; lia). exists t1, t2, t3. auto.
Defined.

Lemma local_stream_refines_witness : exists t', code_run [pair_sock 1; pair_sock 0] 0 1 [Send true [1; 2; 3]; Send false [9]; Receive false 2; Receive true 1; Receive false 1] = Done ([[]; []; [1; 2]; [9]; [3]], t') /\
  pair_rep t' 0 1 ([], []).
Proof.
  apply (local_stream_refines [Send true [1; 2; 3]; Send false [9]; Receive false 2; Receive true 1; Receive false 1] [pair_sock 1; pair_sock 0] 0 1 ([], [])); [|reflexivity].
  destruct (local_ring_rep two_pages two_pages_length) as [R L]. split; [discriminate|]. split; eexists; (split; [reflexivity|]); split_and!; try reflexivity; exact R || exact L.
Defined.
