(* ===== verification/SysSocket.v ===== *)
(** * Socket calls on descriptors (src/src/sys_socket.cc)

    [socket] and [accept] make a socket, an open file for it and a descriptor for the file; the other
    calls find the socket behind a descriptor.  The sockets are an interface, the virtual functions of
    [socket_t] and the four tables; [Local] implements it below.  [accept] and [connect] are cut where the
    socket may put the process to sleep. *)
From Stdlib Require Import ZArith ZifyBool Lia.
From stdpp Require Import base option list gmap.
From S2P Require Import Prelude Interfaces Sync SockRing Stream Local Pool FsDisk FsDir Pipe Files.

Definition AF_LOCAL : Z := 1.
Definition AF_INET : Z := 2.
Definition AF_MAX : Z := 3.
Definition SOCK_STREAM : Z := 1.
Definition SOCK_DGRAM : Z := 2.
Definition SOCK_RAW : Z := 3.
Definition SS_UNCONNECTED : Z := 1.
Definition SS_CONNECTING : Z := 2.
Definition SS_CONNECTED : Z := 3.
Definition SF_ACCEPTCON : Z := 2 ^ 16.
Definition EBADF : Z := 9.
Definition EINVAL : Z := 22.
Definition ENOSR : Z := 63.
Definition ECONNABORTED : Z := 103.
Definition EISCONN : Z := 106.

(** The tables of sockets. *)
Inductive kind : Type := Local_sockets | Raw_sockets | Dgram_sockets | Stream_sockets.

(** The rest of [socket_t]: fields and virtual functions; [A] is an address.  [sk_connect] gives [None]
    when the process goes to sleep, and [sk_connected] is what follows the sleep. *)
Class SocketCalls (S A : Type) : Type := {
  sk_alloc : S -> kind -> outcome (option Z * S);
  sk_create : S -> Z -> Z -> Z -> Z -> outcome S;
  sk_state : S -> Z -> outcome Z;
  sk_flags : S -> Z -> outcome Z;
  sk_set_flags : S -> Z -> Z -> outcome S;
  sk_family : S -> Z -> outcome Z;
  sk_type : S -> Z -> outcome Z;
  sk_dup : S -> Z -> Z -> outcome S;
  sk_bind : S -> Z -> A -> outcome (Z * S);
  sk_listen : S -> Z -> Z -> outcome (Z * S);
  sk_accept : S -> Z -> Z -> outcome (Z * S);
  sk_get_addr : S -> Z -> outcome (Z * A);
  sk_connect : S -> Z -> A -> outcome (option Z * S);
  sk_connected : S -> Z -> outcome (Z * S)
}.

Section SocketCallsOnFiles.
Context {S P A : Type} `{SocketOps S} `{ObjectPool P} `{!SocketCalls S A}.
Implicit Types (w : world S P).

Definition alloc_socket w (family type : Z) : outcome (option Z * world S P) :=
  let from k := let! ' (o, s) := sk_alloc (w_socks w) k in Done (o, set_socks w s) in
  if family =? AF_LOCAL then from Local_sockets
  else if family =? AF_INET then
    if type =? SOCK_RAW then from Raw_sockets
    else if type =? SOCK_DGRAM then from Dgram_sockets
    else if type =? SOCK_STREAM then from Stream_sockets
    else Done (None, w)
  else Done (None, w).

Definition release_socket w (socket : option Z) : outcome (Z * world S P) :=
  match socket with
  | None => Done (0, w)
  | Some k => let! s := sk_release (w_socks w) k in Done (0, set_socks w s)
  end.

Definition look_up_socket w cur fd : outcome (option Z) :=
  if (fd <? 0) || (MAX_OPEN_FILE <=? fd) then Done None
  else
    let! f := get_file w cur fd in
    match f with
    | None => Done None
    | Some f => let! x := the_file w f in Done (l_socket x)
    end.

(** What [socket] and [accept] do with a new socket: a file and a descriptor for it, or -ENOSR. *)
Definition socket_file w cur socket : outcome (Z * world S P) :=
  let! ' (f, w) := alloc_file w in
  match f with
  | None => let! ' (_, w) := release_socket w (Some socket) in Done (- ENOSR, w)
  | Some f =>
      let w := set_file w f (file_init_socket socket) in
      let! ' (fd, w) := alloc_fd w cur f in
      if fd <? 0 then
        let! w := close_file w f in
        let! ' (_, w) := release_socket w (Some socket) in Done (- ENOSR, w)
      else Done (fd, w)
  end.

Definition socket w cur (family type protocol : Z) : outcome (Z * world S P) :=
  if AF_MAX <=? family then Done (- EINVAL, w)
  else
    let! ' (k, w) := alloc_socket w family type in
    match k with
    | None => Done (- ENOSR, w)
    | Some k => let! s := sk_create (w_socks w) k family type protocol in socket_file (set_socks w s) cur k
    end.

Definition bind w cur fd (myaddr : A) : outcome (Z * world S P) :=
  let! k := look_up_socket w cur fd in
  match k with
  | None => Done (- EBADF, w)
  | Some k => let! ' (r, s) := sk_bind (w_socks w) k myaddr in Done (r, set_socks w s)
  end.

Definition listen w cur fd (backlog : Z) : outcome (Z * world S P) :=
  let! k := look_up_socket w cur fd in
  match k with
  | None => Done (- EBADF, w)
  | Some k =>
      let! st := sk_state (w_socks w) k in
      if negb (st =? SS_UNCONNECTED) then Done (- EINVAL, w)
      else
        let! ' (_, s) := sk_listen (w_socks w) k backlog in
        let! fl := sk_flags s k in
        let! s := sk_set_flags s k (Z.lor fl SF_ACCEPTCON) in Done (0, set_socks w s)
  end.

(** [accept] up to the call of the socket's own [accept]: an error, or the new descriptor, the new socket and the one that listens. *)
Definition accept_start w cur fd : outcome ((Z + Z * Z * Z) * world S P) :=
  let! k := look_up_socket w cur fd in
  match k with
  | None => Done (inl (- EBADF), w)
  | Some k =>
      let! st := sk_state (w_socks w) k in
      if negb (st =? SS_UNCONNECTED) then Done (inl (- EINVAL), w)
      else
        let! fl := sk_flags (w_socks w) k in
        if Z.land fl SF_ACCEPTCON =? 0 then Done (inl (- EINVAL), w)
        else
          let! fa := sk_family (w_socks w) k in
          let! ty := sk_type (w_socks w) k in
          let! ' (n, w) := alloc_socket w fa ty in
          match n with
          | None => Done (inl (- ENOSR), w)
          | Some n =>
              let! s := sk_dup (w_socks w) n k in
              let! ' (new_fd, w) := socket_file (set_socks w s) cur n in
              if new_fd <? 0 then Done (inl new_fd, w) else Done (inr (new_fd, n, k), w)
          end
  end.

(** The result of [accept] is kept in an unsigned word, which is not below zero. *)
Definition accept_finish w (new_fd n k : Z) (want_addr : bool) : outcome (Z * option A * world S P) :=
  let! ' (ret, s) := sk_accept (w_socks w) n k in
  let w := set_socks w s in
  if u32 ret <? 0 then Done (u32 ret, None, w)
  else if want_addr then
    let! ' (r, a) := sk_get_addr (w_socks w) n in
    if r <? 0 then Done (- ECONNABORTED, None, w) else Done (new_fd, Some a, w)
  else Done (new_fd, None, w).

Definition accept w cur fd (want_addr : bool) : outcome (Z * option A * world S P) :=
  let! ' (r, w) := accept_start w cur fd in
  match r with
  | inl e => Done (e, None, w)
  | inr (new_fd, n, k) => accept_finish w new_fd n k want_addr
  end.

(** [None]: the process sleeps in the socket's [connect]. *)
Definition connect w cur fd (user_addr : A) : outcome (option Z * world S P) :=
  let! k := look_up_socket w cur fd in
  match k with
  | None => Done (Some (- EBADF), w)
  | Some k =>
      let! st := sk_state (w_socks w) k in
      if st =? SS_CONNECTED then Done (Some (- EISCONN), w)
      else if (st =? SS_UNCONNECTED) || (st =? SS_CONNECTING) then
        let! ' (r, s) := sk_connect (w_socks w) k user_addr in Done (r, set_socks w s)
      else Done (Some (- EINVAL), w)
  end.

Definition connect_finish w k : outcome (Z * world S P) :=
  let! ' (r, s) := sk_connected (w_socks w) k in Done (r, set_socks w s).
End SocketCallsOnFiles.

(** ** What a call that opens a socket leaves behind *)
Section Opened.
Context {S P A : Type} `{HS : SocketLaws S} `{HP : ObjectPool P} `{!SocketCalls S A}.
Implicit Types (w : world S P).

(** Files that are referred to stay as they are. *)
Definition same_open_files w w' : Prop := forall g, holders (w_procs w) g <> 0 -> zget (w_files w') g = zget (w_files w) g.

(** After an error no descriptor is taken; otherwise the result is a descriptor that was unused and refers
    to a new file for the socket [k].  Nothing else that is open changes, and references are counted. *)
Definition opened w cur (p : process) (r k : Z) w' : Prop :=
  files_inv w' /\ same_open_files w w' /\
  if r <? 0 then w_procs w' = w_procs w
  else
    0 <= r < MAX_OPEN_FILE /\ zget (q_files p) r = Some None /\
    exists f, holders (w_procs w) f = 0 /\ zget (w_files w') f = Some (file_init_socket k) /\
      w_procs w' = zset (w_procs w) cur (mk_process (q_cwd p) (zset (q_files p) r (Some f)) (q_exited p)).

Lemma opened_socks w cur p r k s w' : opened (set_socks w s) cur p r k w' -> opened w cur p r k w'.
Proof. exact (fun h => h). Qed.

Lemma error_opened w cur p e k s : files_inv w -> e < 0 -> opened w cur p e k (set_socks w s).
Proof.
  intros I He. split; [apply (inv_frame w); auto | split; [intros g _; reflexivity|]].
  replace (e <? 0) with true by lia. reflexivity.
Qed.

(** Closing the file of a new socket again. *)
Lemma close_new_socket w f x k : zget (w_files w) f = Some x ->
  close_file (set_file w f (file_init_socket k)) f =
  (let! s := sk_release (w_socks w) k in Done (set_socks (set_file w f (set_type TYPE_NONE (set_ref 0 (file_init_socket k)))) s)).
Proof.
  intros E. unfold close_file, the_file. cbn [set_file set_files w_files]. rewrite zget_zset_eq by eauto using zget_Some_range.
  cbn [deref obind file_init_socket l_ref l_type l_socket]. change (1 <? 1) with false. change (u32 (1 - 1)) with 0. cbn iota. change (0 <? 0) with false. cbn iota.
  cbn [set_file set_files w_files w_socks]. destruct (sk_release (w_socks w) k); cbn [obind]; [|reflexivity..].
  unfold set_socks, set_file, set_files. cbn. rewrite zset_twice. reflexivity.
Qed.

Lemma socket_file_opened w cur p k r w' : files_inv w -> running w cur p -> socket_file w cur k = Done (r, w') -> opened w cur p r k w'.
Proof.
  intros I R. unfold socket_file. destruct (alloc_file w) as [[f w1]| | |] eqn:Ea; cbn [obind]; try discriminate.
  pose proof (alloc_file_ok w _ _ _ (fi_table _ I) Ea) as Hf. destruct f as [f|].
  2:{ subst w1. cbn [release_socket]. destruct (sk_release (w_socks w) k) as [s| | |]; cbn [obind]; try discriminate. intros [= <- <-].
      apply error_opened; [exact I | reflexivity]. }
  destruct Hf as (x & Ef & Hf & Ht & -> & _).
  assert (Es : set_file (set_file w f (set_ref 1 x)) f (file_init_socket k) = set_file w f (file_init_socket k)) by (unfold set_file, set_files; cbn; rewrite zset_twice; reflexivity).
  rewrite Es. clear Es. pose proof (zget_Some_range _ _ _ Ef) as Rf.
  assert (T : table_ok (set_file w f (file_init_socket k)) (add_ref (holders (w_procs w)) f)) by (apply (new_file_ok w _ f x); [apply I | auto; discriminate ..]).
  destruct (alloc_fd _ cur f) as [[fd w2]| | |] eqn:Ed; cbn [obind]; try discriminate.
  destruct (alloc_fd_ok (set_file w f (file_init_socket k)) cur p f fd w2 R Ed) as [[-> ->] | (Hk & Eo & ->)].
  - change (-1 <? 0) with true. cbn iota. rewrite (close_new_socket w f x k Ef).
    destruct (sk_release (w_socks w) k) as [s| | |] eqn:Er; cbn [obind]; try discriminate. cbn [release_socket set_socks w_socks].
    destruct (sk_release s k) as [s2| | |]; cbn [obind]; try discriminate. intros [= <- <-].
    assert (T2 : table_ok (set_socks (set_file w f (set_type TYPE_NONE (set_ref 0 (file_init_socket k)))) s2) (holders (w_procs w))).
    { apply (table_frame (set_file w f (set_type TYPE_NONE (set_ref 0 (file_init_socket k))))); [reflexivity.. |].
      apply (table_set_file w (holders (w_procs w)) (holders (w_procs w)) f x _ (fi_table _ I) Ef); cbn [l_ref l_type set_type set_ref file_init_socket].
      - unfold as_pipe. rewrite Ht. reflexivity.
      - symmetry. exact Hf.
      - tauto.
      - rewrite Hf. lia.
      - reflexivity. }
    split; [apply (inv_same w); auto | split; [|reflexivity]].
    intros g Hg. cbn [set_socks set_file set_files w_files]. destruct (decide (g = f)) as [-> | Hne]; [congruence|]. destruct (decide (0 <= g)); [apply zget_zset_ne; auto|].
    unfold zget. replace (g <? 0) with true by lia. reflexivity.
  - replace (fd <? 0) with false by lia. intros [= <- <-]. split; [|split].
    + apply (inv_set_fd w _ cur p fd None (Some f) (q_cwd p)); auto.
      apply (table_frame (set_file w f (file_init_socket k))); [reflexivity.. |].
      eapply table_ok_proper; [|exact T]. intros g. rewrite has_some, has_none. unfold add_ref. lia.
    + intros g Hg. cbn [with_fd set_procs set_file set_files w_files]. destruct (decide (g = f)) as [-> | Hne]; [congruence|]. destruct (decide (0 <= g)); [apply zget_zset_ne; auto|].
      unfold zget. replace (g <? 0) with true by lia. reflexivity.
    + replace (fd <? 0) with false by lia. rewrite (files_length w cur p I R) in Hk. split; [exact Hk | split; [exact Eo|]].
      exists f. split; [exact Hf | split; [apply zget_zset_eq; exact Rf | reflexivity]].
Qed.

Lemma alloc_socket_same w family type o w' : alloc_socket w family type = Done (o, w') -> exists s, w' = set_socks w s.
Proof.
  assert (G : forall k, (let! ' (o, s) := sk_alloc (w_socks w) k in Done (o, set_socks w s)) = Done (o, w') -> exists s, w' = set_socks w s).
  { intros k. destruct (sk_alloc (w_socks w) k) as [[o' s]| | |]; cbn [obind]; try discriminate. intros [= <- <-]. eauto. }
  assert (N : Done (@None Z, w) = Done (o, w') -> exists s, w' = set_socks w s) by (intros [= <- <-]; exists (w_socks w); destruct w; reflexivity).
  unfold alloc_socket. repeat (destruct (_ =? _)); first [apply G | apply N].
Qed.

(** The state of the sockets is not what [opened] is about. *)
Lemma opened_set_socks w cur p r k w' s : opened w cur p r k w' -> opened w cur p r k (set_socks w' s).
Proof. intros (I & Sf & O). split; [apply (inv_frame w'); auto | exact (conj Sf O)]. Qed.

(** The new descriptor of [accept], or an error that leaves nothing behind. *)
Lemma accept_start_opened w cur p fd r w' : files_inv w -> running w cur p -> accept_start w cur fd = Done (r, w') ->
  match r with
  | inl e => e < 0 /\ exists k, opened w cur p e k w'
  | inr (new_fd, n, k) => look_up_socket w cur fd = Done (Some k) /\ 0 <= new_fd /\ opened w cur p new_fd n w'
  end.
Proof.
  intros I R. assert (Same : forall e, e < 0 -> opened w cur p e 0 w) by (intros e He; pose proof (error_opened w cur p e 0 (w_socks w) I He) as Q; destruct w; exact Q).
  unfold accept_start. destruct (look_up_socket w cur fd) as [[k|]| | |] eqn:El; cbn [obind]; try discriminate.
  2:{ intros [= <- <-]. split; [reflexivity|]. exists 0. apply Same. reflexivity. }
  destruct (sk_state (w_socks w) k) as [st| | |]; cbn [obind]; try discriminate.
  destruct (negb _); [intros [= <- <-]; split; [reflexivity|]; exists 0; apply Same; reflexivity|].
  destruct (sk_flags (w_socks w) k) as [fl| | |]; cbn [obind]; try discriminate.
  destruct (_ =? 0); [intros [= <- <-]; split; [reflexivity|]; exists 0; apply Same; reflexivity|].
  destruct (sk_family (w_socks w) k) as [fa| | |]; cbn [obind]; try discriminate. destruct (sk_type (w_socks w) k) as [ty| | |]; cbn [obind]; try discriminate.
  destruct (alloc_socket w fa ty) as [[n w1]| | |] eqn:Ek; cbn [obind]; try discriminate.
  destruct (alloc_socket_same _ _ _ _ _ Ek) as [s1 ->]. destruct n as [n|]; [|intros [= <- <-]; split; [reflexivity|]; exists 0; apply error_opened; [exact I | reflexivity]].
  destruct (sk_dup _ n k) as [s2| | |]; cbn [obind]; try discriminate.
  destruct (socket_file _ cur n) as [[nf w2]| | |] eqn:Es; cbn [obind]; try discriminate.
  assert (O : opened w cur p nf n w2) by (apply (opened_socks w cur p nf n s2); apply socket_file_opened; [apply (inv_frame w); auto | exact R | exact Es]).
  destruct (nf <? 0) eqn:En; tests; intros [= <- <-]; [split; [lia | exists n; exact O] | split; [reflexivity | split; [lia | exact O]]].
Qed.

Lemma socket_opened w cur p family type protocol r w' : files_inv w -> running w cur p -> socket w cur family type protocol = Done (r, w') ->
  exists k, opened w cur p r k w'.
Proof.
  intros I R. unfold socket. destruct (AF_MAX <=? family).
  { intros [= <- <-]. exists 0. pose proof (error_opened w cur p (- EINVAL) 0 (w_socks w) I eq_refl) as Q. destruct w; exact Q. }
  destruct (alloc_socket w family type) as [[k w1]| | |] eqn:Ek; cbn [obind]; try discriminate.
  destruct (alloc_socket_same _ _ _ _ _ Ek) as [s1 ->]. destruct k as [k|]; [|intros [= <- <-]; exists 0; apply error_opened; [exact I | reflexivity]].
  destruct (sk_create _ k family type protocol) as [s2| | |]; cbn [obind]; try discriminate. intros E. exists k.
  apply (opened_socks w cur p r k s2). apply socket_file_opened; [apply (inv_frame w); auto | exact R | exact E].
Qed.

(** The other calls touch the sockets alone. *)
Lemma bind_inv w cur fd (a : A) r w' : files_inv w -> bind w cur fd a = Done (r, w') -> files_inv w'.
Proof.
  intros I. unfold bind. destruct (look_up_socket w cur fd) as [[k|]| | |]; cbn [obind]; try discriminate; [|intros [= <- <-]; exact I].
  destruct (sk_bind _ k a) as [[e s]| | |]; cbn [obind]; try discriminate. intros [= <- <-]. apply (inv_frame w); auto.
Qed.

Lemma listen_inv w cur fd n r w' : files_inv w -> listen w cur fd n = Done (r, w') -> files_inv w'.
Proof.
  intros I. unfold listen. destruct (look_up_socket w cur fd) as [[k|]| | |]; cbn [obind]; try discriminate; [|intros [= <- <-]; exact I].
  destruct (sk_state _ k) as [st| | |]; cbn [obind]; try discriminate. destruct (negb _); [intros [= <- <-]; exact I|].
  destruct (sk_listen _ k n) as [[e s]| | |]; cbn [obind]; try discriminate. destruct (sk_flags s k) as [fl| | |]; cbn [obind]; try discriminate.
  destruct (sk_set_flags s k _) as [s1| | |]; cbn [obind]; try discriminate. intros [= <- <-]. apply (inv_frame w); auto.
Qed.

Lemma connect_inv w cur fd (a : A) r w' : files_inv w -> connect w cur fd a = Done (r, w') -> files_inv w'.
Proof.
  intros I. unfold connect. destruct (look_up_socket w cur fd) as [[k|]| | |]; cbn [obind]; try discriminate; [|intros [= <- <-]; exact I].
  destruct (sk_state _ k) as [st| | |]; cbn [obind]; try discriminate. destruct (_ =? _); [intros [= <- <-]; exact I|].
  destruct (_ || _); [|intros [= <- <-]; exact I]. destruct (sk_connect _ k a) as [[e s]| | |]; cbn [obind]; try discriminate.
  intros [= <- <-]. apply (inv_frame w); auto.
Qed.

End Opened.

(** ** Local sockets behind descriptors *)
Definition state_number (s : Stream.sock_state) : Z :=
  match s with
  | Stream.SS_FREE => 0
  | Stream.SS_UNCONNECTED => 1
  | Stream.SS_CONNECTING => 2
  | Stream.SS_CONNECTED => 3
  | Stream.SS_DISCONNECTING => 4
  end.

(** What [alloc_pages] gives for a ring. *)
Definition ring_pages : list Z := repeat 0 (Z.to_nat RING_SIZE).

#[export] Instance local_ops : SocketOps Local.table := {
  sk_read t k n := local_read t k n;
  sk_write t k bytes := local_write t k bytes;
  sk_send_to t _ _ _ := Done (-1, t);
  sk_recv_from t _ _ := Done (-1, [], t);
  sk_release t k := let! ' (_, t) := local_release t k in Done t
}.

#[export] Instance local_calls : SocketCalls Local.table local_addr := {
  sk_alloc t k := match k with
                  | Local_sockets => let! ' (i, t) := alloc_local_socket t in Done (if i =? NO_SOCK then None else Some i, t)
                  | _ => Done (None, t)
                  end;
  sk_create t k family type protocol := let! ' (_, t) := local_create t k family type protocol ring_pages in Done t;
  sk_state t k := let! x := Local.sock_at t k in Done (state_number (Local.l_state x));
  sk_flags t k := let! x := Local.sock_at t k in Done (Local.l_flags x);
  sk_set_flags t k v := Local.modify t k (ls_flags v);
  sk_family t k := let! x := Local.sock_at t k in Done (Local.l_family x);
  sk_type t k := let! x := Local.sock_at t k in Done (Local.l_type x);
  sk_dup t k orig := let! ' (_, t) := local_dup t k orig ring_pages in Done t;
  sk_bind t k a := local_bind t k a;
  sk_listen t k n := local_listen t k n;
  sk_accept t k srv := local_accept t k srv;
  sk_get_addr t k := local_get_addr t k;
  sk_connect t k a := Local.connect_start t k a;
  sk_connected t k := Local.connect_finish t k
}.

Lemma modify_no_panic t k f : Local.modify t k f <> Panic.
Proof. unfold Local.modify, Local.sock_at. destruct (zget t k); discriminate. Qed.

#[export] Instance local_laws : SocketLaws Local.table.
Proof.
  split. intros t k. cbn [sk_release local_ops]. unfold local_release, Local.sock_at. destruct (zget t k) as [x|]; cbn [deref obind]; [|discriminate].
  assert (G : forall (b : bool) t j f (rest : Local.table -> outcome (Z * Local.table)), (forall t, (let! ' (_, t) := rest t in Done t) <> Panic) ->
    (let! ' (_, t) := (let! t := (if b then Local.modify t j f else Done t) in rest t) in Done t) <> Panic).
  { intros b t' j f rest Hr. destruct b; cbn [obind]; [|apply Hr]. pose proof (modify_no_panic t' j f). destruct (Local.modify t' j f); cbn [obind]; [apply Hr | discriminate | congruence | discriminate]. }
  destruct (bool_decide _); cbn [obind].
  - destruct (Local.l_connecting x); [|discriminate]. apply G. intros t1. cbn zeta. apply (G true). intros t2. apply (G (negb _)). discriminate.
  - pose proof (modify_no_panic t k (ls_state Stream.SS_DISCONNECTING)). destruct (Local.modify t k _); cbn [obind]; try discriminate; [|congruence].
    destruct (Local.l_connecting x); [|discriminate]. apply G. intros t1. cbn zeta. apply (G true). intros t2. apply (G (negb _)). discriminate.
Qed.

(** Four sockets, none in use, and one process. *)
Definition unused_socket : lsock := mk_ls 0 0 0 0 Stream.SS_FREE 0 (mk_laddr 0 []) (sring_init ring_pages 1) [] NO_SOCK 0 0.
Definition socket_world : world Local.table (object_pool * Z) := file_boot root_fs (fun _ => pipe_init []) pipe_pool (repeat unused_socket 4) 0.

Lemma socket_world_inv : files_inv socket_world.
Proof. apply (file_boot_inv no_devs no_devs). exact pipe_pool_inv. Qed.

Lemma socket_world_running : running socket_world 0 (mk_process 0 (repeat None (Z.to_nat MAX_OPEN_FILE)) false).
Proof. split; reflexivity. Qed.

(** A server and a client, through descriptors: what the client writes, the server reads. *)
Definition demo_path : local_addr := mk_laddr AF_LOCAL [47; 115].

Definition demo_rendezvous : outcome (Z * list Z) :=
  let! ' (srv, w) := socket socket_world 0 AF_LOCAL 0 0 in
  let! ' (_, w) := bind w 0 srv demo_path in
  let! ' (_, w) := listen w 0 srv 1 in
  let! ' (cli, w) := socket w 0 AF_LOCAL 0 0 in
  let! ' (_, w) := connect w 0 cli demo_path in
  let! ' (fd, _, w) := accept w 0 srv true in
  let! k := look_up_socket w 0 cli in
  let! k := deref k in
  let! ' (_, w) := connect_finish w k in
  let! ' (_, w) := do_write no_devs w 0 cli [104; 105] in
  let! ' (_, bytes, w) := do_read no_devs w 0 fd 2 in Done (fd, bytes).

Example client_reaches_server : demo_rendezvous = Done (2, [104; 105]).
Proof. vm_compute. reflexivity. Qed.

(** The server of the example with its client in the queue. *)
Definition listening_run : outcome (world Local.table (object_pool * Z)) :=
  let! ' (srv, w) := socket socket_world 0 AF_LOCAL 0 0 in
  let! ' (_, w) := bind w 0 srv demo_path in
  let! ' (_, w) := listen w 0 srv 1 in Done w.

Definition listening_world : world Local.table (object_pool * Z) := match listening_run with Done w => w | _ => socket_world end.

Definition waiting_run : outcome (world Local.table (object_pool * Z)) :=
  let! ' (cli, w) := socket listening_world 0 AF_LOCAL 0 0 in
  let! ' (_, w) := connect w 0 cli demo_path in Done w.

Definition waiting_world : world Local.table (object_pool * Z) := match waiting_run with Done w => w | _ => listening_world end.

Lemma listening_world_inv : files_inv listening_world.
Proof.
  unfold listening_world, listening_run. destruct (socket socket_world 0 AF_LOCAL 0 0) as [[srv w1]| | |] eqn:E1; cbn [obind]; try exact socket_world_inv.
  destruct (socket_opened _ _ _ _ _ _ _ _ socket_world_inv socket_world_running E1) as [k (I1 & _)].
  destruct (bind w1 0 srv demo_path) as [[r2 w2]| | |] eqn:E2; cbn [obind]; try exact socket_world_inv. pose proof (bind_inv _ _ _ _ _ _ I1 E2) as I2.
  destruct (listen w2 0 srv 1) as [[r3 w3]| | |] eqn:E3; cbn [obind]; try exact socket_world_inv. exact (listen_inv _ _ _ _ _ _ I2 E3).
Qed.

Lemma waiting_world_ok : exists p, files_inv waiting_world /\ running waiting_world 0 p.
Proof.
  eexists. split; [|split; [vm_compute; reflexivity | reflexivity]]. unfold waiting_world, waiting_run.
  assert (R : exists p, running listening_world 0 p) by (eexists; split; [vm_compute; reflexivity | reflexivity]). destruct R as [p R].
  pose proof listening_world_inv as I0. destruct (socket listening_world 0 AF_LOCAL 0 0) as [[cli w1]| | |] eqn:E1; cbn [obind]; try exact I0.
  destruct (socket_opened _ _ _ _ _ _ _ _ I0 R E1) as [k (I1 & _)].
  destruct (connect w1 0 cli demo_path) as [[r2 w2]| | |] eqn:E2; cbn [obind]; try exact I0. exact (connect_inv _ _ _ _ _ _ I1 E2).
Qed.


(** ** What goes wrong *)

(** An [accept] that cannot tell the address of the client reports an error and leaves its new descriptor taken. *)
Lemma aborted_accept_keeps_descriptor {S P A} `{SocketOps S} `{ObjectPool P} `{!SocketCalls S A} (w : world S P) new_fd n k ret s r (a : A) :
  sk_accept (w_socks w) n k = Done (ret, s) -> sk_get_addr s n = Done (r, a) -> r < 0 ->
  accept_finish (A := A) w new_fd n k true = Done (- ECONNABORTED, None, set_socks w s).
Proof.
  intros E Ea Hr. unfold accept_finish. rewrite E. cbn [obind]. pose proof (u32_range ret). replace (u32 ret <? 0) with false by lia.
  cbn [set_socks w_socks]. rewrite Ea. cbn [obind]. replace (r <? 0) with true by lia. reflexivity.
Qed.

(** When the socket's own [accept] fails, the result, kept in an unsigned word, passes the test, and the
    descriptor of a socket without a connection is returned. *)
Lemma failed_accept_returns_descriptor {S P A} `{SocketOps S} `{ObjectPool P} `{!SocketCalls S A} (w : world S P) new_fd n k ret s :
  sk_accept (w_socks w) n k = Done (ret, s) -> ret < 0 -> accept_finish (A := A) w new_fd n k false = Done (new_fd, None, set_socks w s).
Proof.
  intros E Hr. unfold accept_finish. rewrite E. cbn [obind]. pose proof (u32_range ret). replace (u32 ret <? 0) with false by lia. reflexivity.
Qed.

(** Without a descriptor left, [socket] releases the socket twice: the second time it is not in use, and its count wraps around. *)
Definition full_world : world Local.table (object_pool * Z) :=
  set_procs socket_world [mk_process 0 (repeat (Some 0) (Z.to_nat MAX_OPEN_FILE)) false].

Lemma socket_is_released_twice :
  match socket full_world 0 AF_LOCAL 0 0 with
  | Done (r, w) => r = - ENOSR /\ option_map Local.l_ref (zget (w_socks w) 0) = Some (2 ^ 32 - 1)
  | _ => False
  end.
Proof. vm_compute. auto. Qed.
