(* ===== verification/Userlib.v ===== *)
(** * The user library (src/src/userlib.cc)

    What runs in the programs: printing, reading a line, and looking up the address of a host.  The
    functions on strings, memory and addresses that userlib.cc has in common with string.cc and
    net.cc, word for word, are those of [CString] and [Checksum].  System calls are an interface:
    [Syscall] shows that the stubs reach the kernel. *)
From Stdlib Require Import ZArith ZifyBool Lia.
From stdpp Require Import base option list gmap.
From S2P Require Import Prelude CString Checksum Interfaces Pool Net Ip Dns.

(** ** Strings and memory: the same text as in string.cc and net.cc *)
Definition u_memset := memset.
Definition u_memmov := memmov.
Definition u_memcpy := memcpy.
Definition u_strlen := strlen.
Definition u_strcpy := strcpy.
Definition u_strncpy := strncpy.
Definition u_strcmp := strcmp.
Definition u_strncmp := strncmp.
Definition u_strcat := strcat.
Definition u_is_digit := is_digit.
Definition u_sprint_str := sprint_str.
Definition u_htons := htons.
Definition u_ntohs := ntohs.
Definition u_htonl := htonl.
Definition u_ntohl := ntohl.
Definition u_make_ipaddr := make_ipaddr.
Definition u_check_sum := check_sum.

(** [while (s < e) { swap *s++ and *e-- }] *)
Fixpoint rev_loop (fuel : nat) (m : mem) (s e : Z) : option mem :=
  match fuel with
  | O => None
  | S k => if s <? e then rev_loop k (upd (upd m s (m e)) e (m s)) (s + 1) (e - 1) else Some m
  end.

(** As many rounds as characters are enough. *)
Definition strrev (m : mem) (str len : Z) : option (Z * mem) :=
  match rev_loop (S (Z.to_nat len)) m str (str + len - 1) with Some m => Some (str, m) | None => None end.

(** ** Printing: numbers are on the left of their field, filled with blanks *)
Definition u_int_text (n width base : Z) (sign : bool) : option (list Z) :=
  let neg := sign && (n <? 0) in
  let num := if neg then u32 (- n) else u32 n in
  match int_digits 16 num base with
  | None => None
  | Some ds =>
      let buf := if neg then ds ++ [45] else ds in
      let len := zlen buf in
      let width := if width <? len then len else width in
      Some (rev buf ++ replicate (Z.to_nat (width - len)) 32)
  end.

Definition u_sprint_int (m : mem) (buffer n width base : Z) (sign : bool) : option (Z * mem) :=
  match u_int_text n width base sign with
  | None => None
  | Some t => Some (zlen t, put_bytes m buffer t)
  end.

(** One conversion; all but the numbers are as in the kernel's [vsprintf]. *)
Definition u_vsprintf_conv (fuel : nat) (m : mem) (buffer total width c : Z) (ap : list Z) : option (Z * mem * list Z) :=
  if (c =? 100) || (c =? 117) || (c =? 120) || (c =? 112) then
    match ap with
    | [] => None
    | a :: ap' =>
        let base := if (c =? 100) || (c =? 117) then 10 else 16 in
        match u_sprint_int m (buffer + total) (s32 a) width base (c =? 100) with
        | Some (k, m') => Some (total + k, m', ap')
        | None => None
        end
    end
  else vsprintf_conv fuel m buffer total width c ap.

Fixpoint u_vsprintf_loop (fuel : nat) (m : mem) (buffer fmt i total : Z) (ap : list Z) : option (Z * mem) :=
  match fuel with
  | O => None
  | S k =>
      let c := m (fmt + i) in
      if c =? 0 then Some (total, m)
      else if negb (c =? 37) then u_vsprintf_loop k (upd m (buffer + total) c) buffer fmt (i + 1) (total + 1) ap
      else if m (fmt + (i + 1)) =? 0 then Some (total, m)
      else match scan_width k m fmt (i + 1) 0 with
           | None => None
           | Some (width, j, c') =>
               if c' =? 0 then Some (total, m)
               else match u_vsprintf_conv k m buffer total width c' ap with
                    | None => None
                    | Some (total', m', ap') => u_vsprintf_loop k m' buffer fmt (j + 1) total' ap'
                    end
           end
  end.

Definition u_vsprintf (fuel : nat) (m : mem) (buffer fmt : Z) (ap : list Z) : option (Z * mem) :=
  let m0 := upd m buffer 0 in
  if fmt =? NULL then Some (0, m0) else u_vsprintf_loop fuel m0 buffer fmt 0 0 ap.

Definition u_sprintf (fuel : nat) (m : mem) (buffer fmt : Z) (args : list Z) : option (Z * mem) := u_vsprintf fuel m buffer fmt args.

(** ** System calls that the functions below make *)
Class UserCalls (W : Type) : Type := {
  c_read : W -> Z -> (Z * Z) * W;                 (* read(fd, &c, 1): the result and the byte *)
  c_write : W -> Z -> list Z -> Z * W;            (* write(fd, buf, size) *)
  c_socket : W -> Z -> Z -> Z -> Z * W;           (* socket(domain, type, protocol) *)
  c_send_to : W -> Z -> list Z -> Z * Z -> Z * W; (* send_to(fd, buf, size, address and port) *)
  c_recv_from : W -> Z -> (Z * list Z) * W        (* recv_from(fd, buf, 512, addr): the result and the bytes *)
}.

Definition fd_stdin : Z := 0.
Definition fd_stdout : Z := 1.
Definition PRINT_SIZE : Z := 1024.

Section Calls.
Context {W : Type} `{UserCalls W}.
Implicit Types w : W.

(** [printf]: the buffer is at [buffer], filled with zeros. *)
Definition u_printf (fuel : nat) (m : mem) (buffer fmt : Z) (args : list Z) w : option (Z * mem * W) :=
  let m := snd (memset m buffer 0 PRINT_SIZE) in
  match u_vsprintf fuel m buffer fmt args with
  | None => None
  | Some (total, m) =>
      let '(_, w) := c_write w fd_stdout (map (fun i => m (buffer + Z.of_nat i)) (seq 0 (Z.to_nat total))) in
      Some (total, m, w)
  end.

(** [gets]: [buf] holds what was stored; it goes on until a newline or [max] characters, so a
    [read] that fails is repeated: [None] when the fuel runs out. *)
Fixpoint gets_loop (fuel : nat) w (max : Z) (buf : list Z) : option (list Z * W) :=
  match fuel with
  | O => None
  | S k =>
      if zlen buf <? max then
        let '((n, c), w) := c_read w fd_stdin in
        if n =? 1 then if c =? 10 then Some (buf, w) else gets_loop k w max (buf ++ [c])
        else gets_loop k w max buf
      else Some (buf, w)
  end.

(** The array of [max] bytes after [gets]. *)
Definition gets (fuel : nat) w (max : Z) : option (list Z * W) :=
  match gets_loop fuel w max [] with
  | Some (buf, w) => Some (buf ++ replicate (Z.to_nat max - length buf) 0, w)
  | None => None
  end.

Definition puts w (buf : list Z) : W := snd (c_write w fd_stdout buf).
End Calls.

(** ** Host names *)
Definition c_invalid_ip : Z := 0xffffffff.

Definition prepare_dns_hdr (id : Z) : list Z := dns_hdr (htons id) (htons (2 ^ 8)) (htons 1) (htons 0) (htons 0) (htons 0).

(** [resolve_name] of userlib.cc is the one of dns.cc. *)
Definition u_resolve_name := resolve_name.

(** The bytes of the question, or [None] for the result -1; the outer [None] is for the fuel. *)
Fixpoint question_loop (fuel : nat) (p out : list Z) : option (option (list Z)) :=
  match fuel with
  | O => None
  | S k =>
      match p with
      | [] => Some None
      | _ =>
          let '(label, rest) := scan_label p in
          if MAX_LABEL_LEN <? zlen label then Some None
          else
            let out := out ++ zlen label :: label in
            match rest with
            | [] => Some (Some (out ++ [0] ++ le_bytes 2 (htons 1) ++ le_bytes 2 (htons 1)))
            | _ :: p => question_loop k p out
            end
      end
  end.

Definition prepare_dns_query (name : list Z) : option (option (list Z)) := question_loop (S (length name)) name [].

(** The questions are skipped. *)
Fixpoint skip_queries (fuel count : nat) (pkt : list Z) (p : Z) : option (outcome Z) :=
  match count with
  | O => Some (Done p)
  | S c => fbind (u_resolve_name fuel pkt p 0) (fun '(size, _) => skip_queries fuel c pkt (p + size + 4))
  end.

(** The answers of [dns_resolve]: [dest_name] is the name that is looked for now. *)
Fixpoint find_answer (fuel count : nat) (pkt : list Z) (p : Z) (dest_name : list Z) : option (outcome Z) :=
  match count with
  | O => Some (Done c_invalid_ip)
  | S c =>
      fbind (u_resolve_name fuel pkt p 0) (fun '(size, name) =>
      let p := p + size in
      fbind (Some (let! type := be16 pkt p in let! len := be16 pkt (p + 8) in Done (type, len))) (fun '(type, len) =>
      let p := p + 10 in
      if type =? RR_TYPE_A then
        if bool_decide (until_nul dest_name = until_nul name) then Some (be32 pkt p)
        else find_answer fuel c pkt (p + len) dest_name
      else if type =? RR_TYPE_CNAME then
        fbind (u_resolve_name fuel pkt p 0) (fun '(_, cname) => find_answer fuel c pkt (p + len) (until_nul cname))
      else find_answer fuel c pkt (p + len) dest_name))
  end.

Definition dns_resolve (fuel : nat) (dest pkt : list Z) : option (outcome Z) :=
  if MAX_DNS_PACKET_SIZE <=? zlen dest then Some Fault
  else
    fbind (Some (let! qd := be16 pkt 4 in let! an := be16 pkt 6 in Done (qd, an))) (fun '(qd, an) =>
    fbind (skip_queries fuel (Z.to_nat qd) pkt DNS_HDR_LEN) (fun p => find_answer fuel (Z.to_nat an) pkt p dest)).

Definition AF_INET : Z := 2.
Definition SOCK_DGRAM : Z := 2.
Definition DNS_PACKET : Z := 512.

(** The bytes of [buffer] after [recv_from]. *)
Definition received (bytes : list Z) : list Z := bytes ++ replicate (Z.to_nat DNS_PACKET - length bytes) 0.

Section Lookup.
Context {W : Type} `{UserCalls W}.
Implicit Types w : W.

(** [addr]: 192.168.100.1, port 53, in network order. *)
Definition dns_server : Z * Z := (htonl (make_ipaddr 192 168 100 1), htons 53).

(** One round of the loop of [get_ip_by_name]; [n] rounds are left, [i] is the number of this one. *)
Fixpoint lookup_loop (n : nat) (fuel : nat) w (fd i : Z) (name : list Z) : option (outcome (Z * W)) :=
  match n with
  | O => Some (Done (c_invalid_ip, w))
  | S n =>
      match prepare_dns_query name with
      | None => None
      | Some None => Some (Done (c_invalid_ip, w))
      | Some (Some q) =>
          if DNS_PACKET <? DNS_HDR_LEN + zlen q then Some Fault
          else
            let '(ret, w) := c_send_to w fd (prepare_dns_hdr i ++ q) dns_server in
            if ret <? 0 then Some (Done (c_invalid_ip, w))
            else
              let '((ret, bytes), w) := c_recv_from w fd in
              if ret <? 0 then Some (Done (c_invalid_ip, w))
              else
                fbind (dns_resolve fuel name (received bytes)) (fun ip =>
                if negb (ip =? c_invalid_ip) then Some (Done (ip, w)) else lookup_loop n fuel w fd (i + 1) name)
      end
  end.

Definition get_ip_by_name (fuel : nat) w (name : list Z) : option (outcome (Z * W)) :=
  let '(sock_fd, w) := c_socket w AF_INET SOCK_DGRAM 0 in
  if sock_fd <? 0 then Some (Done (c_invalid_ip, w))
  else lookup_loop 5 fuel w sock_fd 0 name.
End Lookup.

(** ** Names in a packet *)

(** The name [ls] lies at [off] and takes [size] bytes there; a pointer goes to another name of the packet.
    [cost] counts its labels and pointers. *)
Inductive name_at (pkt : list Z) : Z -> list (list Z) -> Z -> nat -> Prop :=
| Name_end off : byte_at pkt off = Done 0 -> name_at pkt off [] 1 0
| Name_label off l ls size cost :
    label_wf l -> byte_at pkt off = Done (zlen l) -> read_at pkt (off + 1) (zlen l) = Done l ->
    name_at pkt (off + 1 + zlen l) ls size cost -> name_at pkt off (l :: ls) (1 + zlen l + size) (S cost)
| Name_pointer off hi lo l ls size cost :
    byte_at pkt off = Done hi -> MAX_LABEL_LEN < hi -> byte_at pkt (off + 1) = Done lo ->
    name_at pkt (Z.lor (Z.shiftl (Z.land hi 0x3f) 8) lo) (l :: ls) size cost -> name_at pkt off (l :: ls) 2 (S cost).

(** ** Records of an answer *)
Inductive record : Type :=
| Address (owner : list (list Z)) (ip : Z)
| Alias (owner target : list (list Z))
| Other (owner : list (list Z)).

(** Names have room in the arrays of 512 characters. *)
Definition name_fits (fuel : nat) (ls : list (list Z)) (cost : nat) : Prop := zlen (dotted ls) < MAX_DNS_PACKET_SIZE /\ (cost < fuel)%nat.

Definition owner (r : record) : list (list Z) := match r with Address o _ | Alias o _ | Other o => o end.

(** What follows the name of a record: type, class, time to live, length, data. *)
Definition record_body (fuel : nat) (pkt : list Z) (p : Z) (r : record) (len : Z) : Prop :=
  be16 pkt (p + 8) = Done len /\
  match r with
  | Address _ ip => be16 pkt p = Done RR_TYPE_A /\ be32 pkt (p + 10) = Done ip
  | Alias _ target => be16 pkt p = Done RR_TYPE_CNAME /\ exists size cost, name_at pkt (p + 10) target size cost /\ name_fits fuel target cost
  | Other _ => exists type, be16 pkt p = Done type /\ type <> RR_TYPE_A /\ type <> RR_TYPE_CNAME
  end.

(** The records [rs] lie one behind the other from [p] on. *)
Inductive records_at (fuel : nat) (pkt : list Z) : Z -> list record -> Prop :=
| Records_end p : records_at fuel pkt p []
| Records_next p r rs size cost len :
    name_at pkt p (owner r) size cost -> name_fits fuel (owner r) cost -> record_body fuel pkt (p + size) r len ->
    records_at fuel pkt (p + size + 10 + len) rs -> records_at fuel pkt p (r :: rs).

(** The answer to [dest]: a chain of aliases, in order, that ends with an address; other records may be among them. *)
Inductive leads_to : list (list Z) -> list record -> Z -> Prop :=
| Leads_address dest ip rs : leads_to dest (Address dest ip :: rs) ip
| Leads_alias dest target rs ip : leads_to target rs ip -> leads_to dest (Alias dest target :: rs) ip
| Leads_other dest o rs ip : leads_to dest rs ip -> leads_to dest (Other o :: rs) ip
| Leads_another dest o ip' rs ip : dotted o <> dotted dest -> leads_to dest rs ip -> leads_to dest (Address o ip' :: rs) ip.

(** A reply: a header that counts one question and the records, the question, the records. *)
Definition reply (fuel : nat) (pkt : list Z) (rs : list record) : Prop :=
  be16 pkt 4 = Done 1 /\ be16 pkt 6 = Done (zlen rs) /\
  exists q size cost, name_at pkt DNS_HDR_LEN q size cost /\ name_fits fuel q cost /\ records_at fuel pkt (DNS_HDR_LEN + size + 4) rs.

(** ** Lemmas *)
Lemma name_at_head pkt off ls size cost : name_at pkt off ls size cost ->
  exists h, byte_at pkt off = Done h /\ (h = 0 <-> ls = []).
Proof.
  intros []; eexists; (split; [eassumption|]).
  - tauto.
  - destruct H as [Hz _]. split; [lia | discriminate].
  - split; [unfold MAX_LABEL_LEN in *; lia | discriminate].
Qed.

Lemma until_nul_dotted ls : Forall label_wf ls -> until_nul (dotted ls) = dotted ls.
Proof.
  assert (A : forall s, Forall (fun c => c <> 0) s -> until_nul s = s).
  { induction 1 as [|c s Hc _ IH]; cbn; [reflexivity|]. rewrite (proj2 (Z.eqb_neq c 0) Hc), IH. reflexivity. }
  intros H. apply A. induction H as [|l ls [_ Hl] _ IH]; [constructor|].
  assert (Hl' : Forall (fun c => c <> 0) l) by (eapply Forall_impl; [exact Hl|]; cbn; lia).
  destruct ls as [|l2 ls]; [exact Hl'|]. change (dotted (l :: l2 :: ls)) with (l ++ [DOT] ++ dotted (l2 :: ls)).
  apply Forall_app_2; [exact Hl' | constructor; [unfold DOT; lia | exact IH]].
Qed.

Lemma name_at_wf pkt off ls size cost : name_at pkt off ls size cost -> Forall label_wf ls.
Proof. induction 1; auto. Qed.

(** The loop of [resolve_name] reads a name, through its pointers. *)
Lemma resolve_loop_name pkt off ls size cost : name_at pkt off ls size cost -> forall fuel pos name h,
  byte_at pkt off = Done h -> (cost < fuel)%nat -> pos + zlen name + zlen (dotted ls) < MAX_DNS_PACKET_SIZE ->
  resolve_loop fuel pkt (off + 1) h pos name = Some (Done (off + size, name ++ dotted ls)).
Proof.
  induction 1 as [off E|off l ls size cost Hl E R N IH|off hi lo l ls size cost E Hh E2 N IH]; intros fuel pos name h Eh Hf Hb;
  (destruct fuel as [|k]; [lia|]); rewrite E in Eh; injection Eh as <-; cbn [resolve_loop].
  - change (zlen (dotted [])) with 0 in Hb. cbn [Z.eqb]. replace (pos + zlen name <? MAX_DNS_PACKET_SIZE) with true by lia.
    cbn [dotted]. rewrite app_nil_r. reflexivity.
  - pose proof Hl as [Hz _]. replace (zlen l =? 0) with false by lia. replace (zlen l <=? MAX_LABEL_LEN) with true by lia.
    rewrite R. cbn [obind]. destruct (name_at_head _ _ _ _ _ N) as (h2 & E3 & H0).
    assert (Hnext : dotted (l :: ls) = (l ++ (if h2 =? 0 then [] else [DOT])) ++ dotted ls).
    { destruct ls as [|l2 ls]; [replace (h2 =? 0) with true by (symmetry; apply Z.eqb_eq, H0; reflexivity); cbn; rewrite !app_nil_r; reflexivity|].
      replace (h2 =? 0) with false by (symmetry; apply Z.eqb_neq; intros Q; apply H0 in Q; discriminate). rewrite <- app_assoc. reflexivity. }
    rewrite Hnext, !zlen_app in Hb. pose proof (zlen_nonneg (dotted ls)). pose proof (zlen_nonneg (if h2 =? 0 then [] else [DOT])).
    replace (pos + zlen name + zlen l <=? MAX_DNS_PACKET_SIZE) with true by lia. rewrite E3. cbn [obind].
    rewrite (IH k pos _ h2 E3) by (rewrite ?zlen_app; lia). rewrite Hnext, <- !app_assoc. do 3 f_equal. lia.
  - unfold MAX_LABEL_LEN in *. replace (hi =? 0) with false by lia. replace (hi <=? 63) with false by lia. rewrite E2. cbv zeta.
    destruct (name_at_head _ _ _ _ _ N) as (h2 & E3 & _). rewrite E3. rewrite (IH k _ [] h2 E3) by (change (zlen []) with 0; lia).
    cbn [app]. rewrite (until_nul_dotted _ (name_at_wf _ _ _ _ _ N)). do 3 f_equal. lia.
Qed.

Lemma resolve_name_at fuel pkt off ls size cost : name_at pkt off ls size cost -> name_fits fuel ls cost ->
  u_resolve_name fuel pkt off 0 = Some (Done (size, dotted ls)).
Proof.
  intros N [Hb Hf]. destruct (name_at_head _ _ _ _ _ N) as (h & E & _). unfold u_resolve_name, resolve_name. rewrite E.
  rewrite (resolve_loop_name _ _ _ _ _ N fuel 0 [] h E Hf) by (change (zlen []) with 0; lia). cbn [app]. do 3 f_equal. lia.
Qed.

(** [find_answer] follows the chain. *)
Lemma find_answer_leads fuel pkt rs : forall p dest ip, Forall label_wf dest -> records_at fuel pkt p rs -> leads_to dest rs ip ->
  find_answer fuel (length rs) pkt p (dotted dest) = Some (Done ip).
Proof.
  induction rs as [|r rs IH]; intros p dest ip Hd R L; [inversion L|]. inversion R as [|? ? ? size cost len N F [B1 B2] R']; subst.
  cbn [length find_answer]. rewrite (resolve_name_at _ _ _ _ _ _ N F). cbn [fbind].
  rewrite B1. rewrite !(until_nul_dotted dest) by exact Hd. rewrite (until_nul_dotted (owner r)) by exact (name_at_wf _ _ _ _ _ N).
  inversion L as [? ? ?|? ? ? ? L'|? ? ? ? L'|? ? ? ? ? Hne L']; subst; cbn [record_body owner] in *.
  - destruct B2 as [-> ->]. cbn. rewrite bool_decide_eq_true_2 by reflexivity. reflexivity.
  - destruct B2 as [-> (sz & co & N2 & F2)]. cbn [obind fbind]. change (RR_TYPE_CNAME =? RR_TYPE_A) with false. cbn iota. rewrite Z.eqb_refl.
    rewrite (resolve_name_at _ _ _ _ _ _ N2 F2). cbn [fbind]. pose proof (name_at_wf _ _ _ _ _ N2) as Hw.
    rewrite (until_nul_dotted target) by exact Hw. apply IH; assumption.
  - destruct B2 as (type & -> & T1 & T2). cbn [obind fbind]. rewrite (proj2 (Z.eqb_neq _ _) T1), (proj2 (Z.eqb_neq _ _) T2). apply IH; assumption.
  - destruct B2 as [-> _]. cbn [obind fbind]. rewrite Z.eqb_refl. rewrite bool_decide_eq_false_2 by (intros Q; apply Hne; congruence). apply IH; assumption.
Qed.

Lemma dns_resolve_reply fuel dest pkt rs ip : Forall label_wf dest -> zlen (dotted dest) < MAX_DNS_PACKET_SIZE ->
  reply fuel pkt rs -> leads_to dest rs ip -> dns_resolve fuel (dotted dest) pkt = Some (Done ip).
Proof.
  intros Hd Hl (H1 & H2 & q & size & cost & N & F & R) L. unfold dns_resolve. replace (MAX_DNS_PACKET_SIZE <=? zlen (dotted dest)) with false by lia.
  rewrite H1, H2. cbn [obind fbind]. change (Z.to_nat 1) with 1%nat. cbn [skip_queries]. rewrite (resolve_name_at _ _ _ _ _ _ N F). cbn [fbind].
  unfold zlen at 1. rewrite Nat2Z.id. apply find_answer_leads; assumption.
Qed.

(** The question for a name is its encoding with type and class. *)
Definition question (ls : list (list Z)) : list Z := encoded ls ++ le_bytes 2 (htons 1) ++ le_bytes 2 (htons 1).

Lemma question_loop_ok ls : forall fuel out, Forall label_wf ls -> ls <> [] -> (length ls <= fuel)%nat ->
  question_loop fuel (dotted ls) out = Some (Some (out ++ question ls)).
Proof.
  induction ls as [|l ls IH]; intros fuel out Hw Hne Hf; [congruence|]. apply Forall_cons in Hw as [Hl Hw]. destruct fuel as [|k]; [cbn in Hf; lia|].
  pose proof Hl as [Hz Hc].
  assert (Hscan : scan_label (dotted (l :: ls)) = (l, match ls with [] => [] | _ => DOT :: dotted ls end)).
  { destruct ls as [|l2 ls]; cbn [dotted]; [rewrite <- (app_nil_r l) at 1; apply scan_label_app; auto | apply scan_label_app; [exact Hc | right; eauto]]. }
  cbn [question_loop]. destruct (dotted (l :: ls)) as [|c0 r0] eqn:Ed; [destruct (dotted_nonempty l ls Hl Ed)|]. rewrite Hscan.
  replace (MAX_LABEL_LEN <? zlen l) with false by lia. unfold question. destruct ls as [|l2 ls].
  - cbn [encoded app]. rewrite <- !app_assoc. cbn [app]. rewrite <- ?app_assoc. reflexivity.
  - rewrite (IH k) by (cbn in *; (assumption || discriminate || lia)). unfold question. change (encoded (l :: l2 :: ls)) with (zlen l :: l ++ encoded (l2 :: ls)).
    rewrite <- !app_assoc. cbn [app]. rewrite <- !app_assoc. reflexivity.
Qed.

Lemma prepare_dns_query_ok ls : Forall label_wf ls -> ls <> [] -> prepare_dns_query (dotted ls) = Some (Some (question ls)).
Proof. intros Hw Hne. pose proof (dotted_length ls Hw). apply (question_loop_ok ls _ []); [exact Hw | exact Hne | lia]. Qed.

Section LookupSpec.
Context {W : Type} `{UserCalls W} (fuel : nat).
Implicit Types w : W.

(** In the state [w], the question number [i] for [ls] is answered with [bytes]. *)
Definition answers w (fd i : Z) (ls : list (list Z)) (bytes : list Z) (w' : W) : Prop :=
  exists ret1 w1 ret2, c_send_to w fd (prepare_dns_hdr i ++ question ls) dns_server = (ret1, w1) /\ 0 <= ret1 /\
  c_recv_from w1 fd = ((ret2, bytes), w') /\ 0 <= ret2.

(** Within [n] questions the server gives a reply that leads from [ls] to the address [ip]; replies before it are of no use. *)
Inductive served (ls : list (list Z)) (fd ip : Z) : nat -> W -> Z -> W -> Prop :=
| Served_now n w i bytes w' rs :
    answers w fd i ls bytes w' -> reply fuel (received bytes) rs -> leads_to ls rs ip -> served ls fd ip (S n) w i w'
| Served_later n w i bytes w1 w' :
    answers w fd i ls bytes w1 -> dns_resolve fuel (dotted ls) (received bytes) = Some (Done c_invalid_ip) ->
    served ls fd ip n w1 (i + 1) w' -> served ls fd ip (S n) w i w'.

Lemma lookup_loop_served ls fd ip n w i w' : Forall label_wf ls -> ls <> [] -> zlen (dotted ls) < MAX_DNS_PACKET_SIZE ->
  DNS_HDR_LEN + zlen (question ls) <= DNS_PACKET -> ip <> c_invalid_ip ->
  served ls fd ip n w i w' -> lookup_loop n fuel w fd i (dotted ls) = Some (Done (ip, w')).
Proof.
  intros Hw Hne Hl Hq Hip. induction 1 as [n w i bytes w' rs (r1 & w1 & r2 & E1 & P1 & E2 & P2) R L|n w i bytes w1 w' (r1 & wa & r2 & E1 & P1 & E2 & P2) D S IH];
  cbn [lookup_loop]; rewrite (prepare_dns_query_ok ls Hw Hne); replace (DNS_PACKET <? DNS_HDR_LEN + zlen (question ls)) with false by lia;
  rewrite E1; replace (r1 <? 0) with false by lia; rewrite E2; replace (r2 <? 0) with false by lia.
  - rewrite (dns_resolve_reply fuel ls _ rs ip Hw Hl R L). cbn [fbind]. rewrite (proj2 (Z.eqb_neq _ _) Hip). reflexivity.
  - rewrite D. cbn [fbind]. rewrite Z.eqb_refl. exact IH.
Qed.

(** looking up a host.  When the name server answers one of the first five questions, which are
    exactly the encoded name with type and class under a header with its number, with a reply
    whose records lead from the name through a chain of aliases to an address, whether the names in
    it are written out or abbreviated by pointers, then [get_ip_by_name] returns that address. *)
Theorem lookup_finds_address (ls : list (list Z)) (w w1 w' : W) (fd ip : Z)
  (Hw : Forall label_wf ls) (Hne : ls <> []) (Hl : zlen (dotted ls) < MAX_DNS_PACKET_SIZE)
  (Hq : DNS_HDR_LEN + zlen (question ls) <= DNS_PACKET) (Hip : ip <> c_invalid_ip)
  (Hs : c_socket w AF_INET SOCK_DGRAM 0 = (fd, w1)) (Hfd : 0 <= fd) (Hserved : served ls fd ip 5 w1 0 w') :
  get_ip_by_name fuel w (dotted ls) = Some (Done (ip, w')).
Proof.
  unfold get_ip_by_name. rewrite Hs. replace (fd <? 0) with false by lia.
  apply lookup_loop_served; assumption.
Qed.
End LookupSpec.

(** ** A server that answers with an alias, abbreviated names included *)

(** The question for [baby.os] comes back with an alias [os] for it, a pointer into the question, and the address 10.0.0.1 of [os]. *)
Definition demo_reply : list Z :=
  dns_hdr 0 0 (htons 1) (htons 2) 0 0 ++ question demo_labels ++
  [0xc0; 12] ++ [0; 5; 0; 1; 0; 0; 0; 0; 0; 2] ++ [0xc0; 17] ++
  [0xc0; 17] ++ [0; 1; 0; 1; 0; 0; 0; 0; 0; 4] ++ [10; 0; 0; 1].

Definition demo_records : list record := [Alias demo_labels [[111; 115]]; Address [[111; 115]] 0x0a000001].

(** The first question is lost: the state counts the questions. *)
#[local] Instance demo_calls : UserCalls Z := {
  c_read w _ := ((0, 0), w);
  c_write w _ bytes := (zlen bytes, w);
  c_socket w _ _ _ := (3, w);
  c_send_to w _ bytes _ := (0, w + 1);
  c_recv_from w _ := if w =? 1 then ((0, []), w) else ((0, demo_reply), w)
}.

Lemma demo_label_wf (l : list Z) : forallb (fun c => negb (c =? DOT) && (0 <? c) && (c <? 256)) l && (0 <? zlen l) && (zlen l <=? MAX_LABEL_LEN) = true -> label_wf l.
Proof.
  intros E. tests. split; [lia|]. apply Forall_forall. intros c Hc. apply list_elem_of_In in Hc.
  match goal with F : forallb _ _ = true |- _ => rewrite forallb_forall in F; specialize (F c Hc) end. cbn beta in *. lia.
Qed.

Lemma demo_os : name_at (received demo_reply) 17 [[111; 115]] 4 1.
Proof.
  apply (Name_label _ 17 [111; 115] [] 1 0); try (vm_compute; reflexivity); [apply demo_label_wf; reflexivity|].
  apply Name_end. vm_compute. reflexivity.
Qed.

Lemma demo_name : name_at (received demo_reply) 12 demo_labels 9 2.
Proof.
  apply (Name_label _ 12 [98; 97; 98; 121] [[111; 115]] 4 1); try (vm_compute; reflexivity); [apply demo_label_wf; reflexivity | exact demo_os].
Qed.

Lemma demo_reply_ok : reply 10 (received demo_reply) demo_records.
Proof.
  split; [vm_compute; reflexivity | split; [vm_compute; reflexivity|]].
  assert (F : forall ls c, (zlen (dotted ls) <? MAX_DNS_PACKET_SIZE) && (c <? 10)%nat = true -> name_fits 10 ls c) by (intros ls c Q; unfold name_fits; lia).
  exists demo_labels, 9, 2%nat. split; [exact demo_name | split; [apply F; reflexivity|]].
  apply (Records_next _ _ _ _ _ 2 3 2).
  - apply (Name_pointer _ _ 0xc0 12 _ _ 9 2); try (vm_compute; reflexivity). exact demo_name.
  - apply F. reflexivity.
  - split; [vm_compute; reflexivity | split; [vm_compute; reflexivity|]]. exists 2, 2%nat.
    split; [apply (Name_pointer _ _ 0xc0 17 _ _ 4 1); try (vm_compute; reflexivity); exact demo_os | apply F; reflexivity].
  - apply (Records_next _ _ _ _ _ 2 2 4).
    + apply (Name_pointer _ _ 0xc0 17 _ _ 4 1); try (vm_compute; reflexivity). exact demo_os.
    + apply F. reflexivity.
    + split; [vm_compute; reflexivity | split; vm_compute; reflexivity].
    + apply Records_end.
Qed.

Lemma lookup_finds_address_witness : get_ip_by_name 10 0 (dotted demo_labels) = Some (Done (0x0a000001, 2)).
Proof.
  assert (Hw : Forall label_wf demo_labels) by (do 2 (apply Forall_cons_2; [apply demo_label_wf; reflexivity|]); apply Forall_nil_2).
  apply (lookup_finds_address 10 demo_labels 0 0 2 3 0x0a000001 Hw); try (vm_compute; (reflexivity || discriminate)).
  apply (Served_later _ _ _ _ _ _ _ [] 1); [exists 0, 1, 0; split; [reflexivity | split; [lia | split; [reflexivity | lia]]] | vm_compute; reflexivity|].
  apply (Served_now _ _ _ _ _ _ _ demo_reply _ demo_records); [exists 0, 2, 0; split; [reflexivity | split; [lia | split; [reflexivity | lia]]] | exact demo_reply_ok|].
  apply Leads_alias, Leads_address.
Defined.

(** ** Lines and strings *)

(** Reversing a string in place turns it round and changes nothing else. *)
Lemma rev_loop_spec fuel : forall m s e, e - s < Z.of_nat fuel -> 0 < Z.of_nat fuel ->
  exists m', rev_loop fuel m s e = Some m' /\ forall x, m' x = if (s <=? x) && (x <=? e) then m (s + e - x) else m x.
Proof.
  induction fuel as [|k IH]; intros m s e Hf Hp; [lia|]. cbn [rev_loop]. destruct (s <? e) eqn:E; tests.
  - destruct (IH (upd (upd m s (m e)) e (m s)) (s + 1) (e - 1)) as (m' & E' & H'); [lia | lia |].
    exists m'. split; [exact E'|]. intros x. rewrite H'. unfold upd.
    destruct ((s + 1 <=? x) && (x <=? e - 1)) eqn:Ex; tests.
    + replace ((s <=? x) && (x <=? e)) with true by lia. replace (s + 1 + (e - 1) - x =? e) with false by lia.
      replace (s + 1 + (e - 1) - x =? s) with false by lia. f_equal. lia.
    + destruct (x =? e) eqn:E1; tests; [subst; replace ((s <=? e) && (e <=? e)) with true by lia; f_equal; lia|].
      destruct (x =? s) eqn:E2; tests; [subst; replace ((s <=? s) && (s <=? e)) with true by lia; f_equal; lia|].
      replace ((s <=? x) && (x <=? e)) with false by lia. reflexivity.
  - exists m. split; [reflexivity|]. intros x. destruct ((s <=? x) && (x <=? e)) eqn:Ex; [tests; f_equal; lia | reflexivity].
Qed.

Lemma strrev_reverses m str len : 0 <= len ->
  exists m', strrev m str len = Some (str, m') /\
  forall i, m' (str + i) = if (0 <=? i) && (i <? len) then m (str + (len - 1 - i)) else m (str + i).
Proof.
  intros Hl. unfold strrev. destruct (rev_loop_spec (S (Z.to_nat len)) m str (str + len - 1)) as (m' & -> & H'); [lia | lia |].
  exists m'. split; [reflexivity|]. intros i. rewrite H'.
  destruct ((0 <=? i) && (i <? len)) eqn:E; tests.
  - replace ((str <=? str + i) && (str + i <=? str + len - 1)) with true by lia. f_equal. lia.
  - replace ((str <=? str + i) && (str + i <=? str + len - 1)) with false by lia. reflexivity.
Qed.

Section Lines.
Context {W : Type} `{UserCalls W}.

(** The standard input delivers the characters [s]; reads that fail may come between them. *)
Inductive delivers : nat -> W -> list Z -> W -> Prop :=
| Delivers_end w : delivers 0 w [] w
| Delivers_char n w w1 w' c s : c_read w fd_stdin = ((1, c), w1) -> delivers n w1 s w' -> delivers (S n) w (c :: s) w'
| Delivers_fail n w w1 w' r c d s : c_read w fd_stdin = ((r, c), w1) -> r <> 1 -> delivers n w1 (d :: s) w' -> delivers (S n) w (d :: s) w'.

Lemma gets_loop_line max n w s w' : delivers n w s w' -> forall l buf fuel, s = l ++ [10] -> 10 ∉ l -> zlen buf + zlen l < max -> (n <= fuel)%nat ->
  gets_loop fuel w max buf = Some (buf ++ l, w').
Proof.
  induction 1 as [w|n w w1 w' c s E D IH|n w w1 w' r c d s E Hr D IH]; intros l buf fuel Es Hn Hm Hf.
  - destruct l; discriminate Es.
  - destruct fuel as [|k]; [lia|]. cbn [gets_loop]. pose proof (zlen_nonneg l). replace (zlen buf <? max) with true by lia. rewrite E. cbn [Z.eqb Pos.eqb].
    destruct l as [|d l]; cbn [app] in Es; injection Es as -> ->.
    + rewrite Z.eqb_refl, app_nil_r. inversion D; subst. reflexivity.
    + rewrite (proj2 (Z.eqb_neq d 10)) by (intros ->; apply Hn; left).
      rewrite (IH l (buf ++ [d])); [rewrite <- app_assoc; reflexivity | reflexivity | intros Q; apply Hn; right; exact Q | rewrite zlen_cons in Hm; rewrite zlen_app; change (zlen [d]) with 1; lia | lia].
  - destruct fuel as [|k]; [lia|]. cbn [gets_loop]. pose proof (zlen_nonneg l). replace (zlen buf <? max) with true by lia. rewrite E.
    rewrite (proj2 (Z.eqb_neq r 1) Hr). apply IH; auto. lia.
Qed.

(** [gets] returns the line that is typed, without its newline and followed by zeros. *)
Lemma gets_returns_line max n w l w' fuel : delivers n w (l ++ [10]) w' -> 10 ∉ l -> zlen l < max -> (n <= fuel)%nat ->
  gets fuel w max = Some (l ++ replicate (Z.to_nat max - length l) 0, w').
Proof.
  intros D Hn Hm Hf. unfold gets. rewrite (gets_loop_line max _ _ _ _ D l [] fuel eq_refl Hn); [reflexivity | exact Hm | exact Hf].
Qed.
End Lines.

(** A line of [max] characters or more is cut there, and the array then has no terminator. *)
Lemma gets_fills_the_array : gets (H := {| c_read w _ := ((1, 97), w); c_write w _ _ := (0, w); c_socket w _ _ _ := (0, w); c_send_to w _ _ _ := (0, w); c_recv_from w _ := ((0, []), w) |})
  10 tt 4 = Some ([97; 97; 97; 97], tt).
Proof. reflexivity. Qed.
