(* ===== verification/Shell.v ===== *)
(** * The shell (src/src/shell.cc)

    It reads a line, recognises the commands it does itself, and runs a program for every other line:
    the line is split into words, a child process replaces itself by the program and the shell waits
    for it.  Strings are lists of characters without their terminator; a word that does not fit its
    array is a [Fault]. *)
From Stdlib Require Import ZArith ZifyBool Lia.
From stdpp Require Import base option list gmap.
From S2P Require Import Prelude Userlib.

Definition MAX_CMD_LEN : Z := 128.
Definition MAX_ARGS : Z := 16.
Definition MAX_ARG_LEN : Z := 32.
Definition BLANK : Z := 32.
Definition SLASH : Z := 47.

(** [while ( *p != ' ' && *p != '\0') *q++ = *p++;] *)
Fixpoint take_word (p : list Z) : list Z * list Z :=
  match p with
  | [] => ([], [])
  | c :: r => if c =? BLANK then ([], p) else let '(w, q) := take_word r in (c :: w, q)
  end.

(** [while ( *p == ' ') p++;] *)
Fixpoint skip_blanks (p : list Z) : list Z :=
  match p with
  | [] => []
  | c :: r => if c =? BLANK then skip_blanks r else p
  end.

(** "/bin/" *)
Definition BIN : list Z := [47; 98; 105; 110; 47].

(** The command and the rest of the line. *)
Definition parse_cmd (cmd_line : list Z) : outcome (list Z * list Z) :=
  let prefix := match cmd_line with c :: _ => if c =? SLASH then [] else BIN | [] => BIN end in
  let '(word, p) := take_word cmd_line in
  let cmd := prefix ++ word in
  if zlen cmd <? MAX_CMD_LEN then Done (cmd, skip_blanks p) else Fault.

(** The loop over the arguments; a round takes at least one character, so a round per character is enough. *)
Fixpoint args_loop (fuel : nat) (p : list Z) (args : list (list Z)) : option (outcome (list (list Z))) :=
  match fuel with
  | O => None
  | S k =>
      if MAX_ARGS <=? zlen args then Some Fault
      else
        let '(word, p) := take_word p in
        if MAX_ARG_LEN <=? zlen word then Some Fault
        else
          let p := skip_blanks p in
          let args := args ++ [word] in
          match p with [] => Some (Done args) | _ => args_loop k p args end
  end.

(** The command and the strings of [argument_t]. *)
Definition parse_cmd_line (cmd_line : list Z) : option (outcome (list Z * list (list Z))) :=
  match parse_cmd cmd_line with
  | Done (cmd, p) =>
      if MAX_ARG_LEN <=? zlen cmd then Some Fault
      else match p with
           | [] => Some (Done (cmd, [cmd]))
           | _ => match args_loop (S (length p)) p [cmd] with
                  | Some (Done args) => Some (Done (cmd, args))
                  | Some _ => Some Fault
                  | None => None
                  end
           end
  | _ => Some Fault
  end.

(** The character that a pointer is at. *)
Definition char_at (s : list Z) : Z := match s with [] => 0 | c :: _ => s8 c end.

(** [while ( *s1 && *s2 && *s1 == *s2 && --n >= 0) s1++, s2++; return n == 0 ? 0 : *s1 - *s2;] *)
Fixpoint strncmp (s1 s2 : list Z) (n : Z) : Z :=
  match s1, s2 with
  | c :: r1, d :: r2 =>
      if c =? d then if 0 <=? n - 1 then strncmp r1 r2 (n - 1) else 0
      else if n =? 0 then 0 else s8 c - s8 d
  | _, _ => if n =? 0 then 0 else char_at s1 - char_at s2
  end.

Definition starts_with (line s : list Z) : bool := strncmp line s (zlen s) =? 0.

(** [t = t*10 + *times - '0'] over the digits. *)
Fixpoint parse_times (t : Z) (s : list Z) : Z :=
  match s with
  | [] => t
  | c :: r => if (c <? 48) || (57 <? c) then t else parse_times (s32 (t * 10 + c - 48)) r
  end.

(** What the shell does with a line. *)
Inductive action : Type :=
| Nothing
| Cd (path : list Z)
| Test_exec (times : Z)
| Test_fork (times : Z)
| Test_pipe
| Test_socket
| Udp_server
| Udp_client
| Nslookup (name : list Z)
| Tcp_server
| Tcp_client
| Run (cmd_line : list Z).

Definition dispatch (l : list Z) : action :=
  match l with
  | [] => Nothing
  | _ =>
      if starts_with l [99; 100; 32] then Cd (drop 3 l)
      else if starts_with l [116; 101; 115; 116; 32] then Test_exec (parse_times 0 (drop 5 l))
      else if starts_with l [116; 101; 115; 116; 50; 32] then Test_fork (parse_times 0 (drop 6 l))
      else if starts_with l [116; 101; 115; 116; 112; 105; 112; 101] then Test_pipe
      else if starts_with l [116; 101; 115; 116; 115; 111; 99; 107; 101; 116] then Test_socket
      else if starts_with l [116; 101; 115; 116; 117; 100; 112; 115; 101; 114; 118; 101; 114] then Udp_server
      else if starts_with l [116; 101; 115; 116; 117; 100; 112; 99; 108; 105; 101; 110; 116] then Udp_client
      else if starts_with l [110; 115; 108; 111; 111; 107; 117; 112] then Nslookup (drop 9 l)
      else if starts_with l [116; 99; 112; 115; 101; 114; 118; 101; 114] then Tcp_server
      else if starts_with l [116; 99; 112; 99; 108; 105; 101; 110; 116] then Tcp_client
      else if starts_with l [116; 115] then Tcp_server
      else if starts_with l [116; 99] then Tcp_client
      else Run l
  end.

(** ** Running a command *)
Class ShellCalls (W : Type) : Type := {
  s_fork : W -> Z * W;
  s_exec : W -> list Z -> list (list Z) -> Z * W;
  s_exit : W -> Z -> W;
  s_wait : W -> Z -> W
}.

Section Run.
Context {W : Type} `{ShellCalls W}.
Implicit Types w : W.

(** In the child, a failed [exec] ends with [exit]; [exec] that succeeds does not come back. *)
Definition do_cmd w (cmd_line : list Z) : option (outcome W) :=
  match parse_cmd_line cmd_line with
  | None => None
  | Some (Done (command, argument)) =>
      let '(pid, w) := s_fork w in
      if pid =? 0 then
        let '(ret, w) := s_exec w command argument in
        if ret <? 0 then Some (Done (s_exit w (-1))) else Some (Done (s_wait w pid))
      else Some (Done (s_wait w pid))
  | Some _ => Some Fault
  end.

Context `{UserCalls W}.

(** One round of [main]'s loop up to the choice of what to do: the characters of the line up to its terminator. *)
Definition read_command (fuel : nat) w : option (action * W) :=
  match gets fuel w MAX_CMD_LEN with
  | Some (buf, w) => Some (dispatch (Dns.until_nul buf), w)
  | None => None
  end.
End Run.

(** ** Specification: words *)

(** A line of words: each followed by its number of blanks. *)
Fixpoint line_of (ws : list (list Z * nat)) : list Z :=
  match ws with
  | [] => []
  | (w, k) :: r => w ++ replicate k BLANK ++ line_of r
  end.

Definition word (w : list Z) : Prop := w <> [] /\ Forall (fun c => c <> BLANK) w.

(** There is at least one blank between two words. *)
Fixpoint separated (ws : list (list Z * nat)) : Prop :=
  match ws with
  | [] => True
  | (w, k) :: r => word w /\ (r <> [] -> (0 < k)%nat) /\ separated r
  end.

(** The name of the program that a first word stands for. *)
Definition program (w : list Z) : list Z := match w with c :: _ => if c =? SLASH then w else BIN ++ w | [] => BIN end.

(** ** Lemmas *)
Lemma take_word_word w p : Forall (fun c => c <> BLANK) w -> (p = [] \/ exists q, p = BLANK :: q) -> take_word (w ++ p) = (w, p).
Proof.
  intros Hw Hp. induction Hw as [|c w Hc _ IH]; cbn [app take_word].
  - destruct Hp as [->|[q ->]]; [reflexivity|]. cbn. reflexivity.
  - rewrite (proj2 (Z.eqb_neq c BLANK) Hc), IH. reflexivity.
Qed.

Lemma skip_blanks_line k ws : separated ws -> skip_blanks (replicate k BLANK ++ line_of ws) = line_of ws.
Proof.
  intros S. induction k as [|k IH]; [|exact IH]. cbn [replicate app].
  destruct ws as [|[w n] ws]; [reflexivity|]. destruct S as ((Hne & Hw) & _). destruct w as [|c w]; [congruence|].
  inversion Hw as [|? ? Hc _]; subst. cbn. rewrite (proj2 (Z.eqb_neq c BLANK) Hc). reflexivity.
Qed.

(** The next word of a line, and what is left. *)
Lemma next_word w k ws : separated ((w, k) :: ws) ->
  take_word (line_of ((w, k) :: ws)) = (w, replicate k BLANK ++ line_of ws).
Proof.
  intros ((_ & Hw) & Hk & S). cbn [line_of]. apply take_word_word; [exact Hw|]. destruct k as [|k].
  - left. destruct ws; [reflexivity|]. specialize (Hk ltac:(discriminate)). lia.
  - right. eexists. reflexivity.
Qed.

Lemma line_nonempty w k ws : separated ((w, k) :: ws) -> line_of ((w, k) :: ws) <> [].
Proof. intros ((Hne & _) & _). destruct w; [congruence | discriminate]. Qed.

Lemma args_loop_words ws : forall args fuel, ws <> [] -> separated ws -> Forall (fun x => zlen (fst x) < MAX_ARG_LEN) ws ->
  zlen args + zlen ws <= MAX_ARGS -> (length ws <= fuel)%nat -> args_loop fuel (line_of ws) args = Some (Done (args ++ map fst ws)).
Proof.
  induction ws as [|[w k] ws IH]; intros args fuel Hne S F Hn Hf; [congruence|]. destruct fuel as [|n]; [cbn in Hf; lia|].
  pose proof S as (_ & _ & S'). inversion F as [|? ? F1 F2]; subst. cbn [fst] in F1. rewrite zlen_cons in Hn. pose proof (zlen_nonneg ws).
  cbn [args_loop]. replace (MAX_ARGS <=? zlen args) with false by lia. rewrite (next_word w k ws S). replace (MAX_ARG_LEN <=? zlen w) with false by lia.
  cbv zeta. rewrite (skip_blanks_line k ws S'). destruct ws as [|[w2 k2] ws]; [reflexivity|].
  destruct (line_of ((w2, k2) :: ws)) as [|c q] eqn:El; [destruct (line_nonempty w2 k2 ws S' El)|].
  rewrite IH; [rewrite <- app_assoc; reflexivity | discriminate | exact S' | exact F2 | rewrite zlen_app; change (zlen [w]) with 1; lia | cbn in *; lia].
Qed.

Lemma line_length ws : separated ws -> (length ws <= length (line_of ws))%nat.
Proof.
  induction ws as [|[w k] ws IH]; intros S; [cbn; lia|]. destruct S as ((Hne & _) & _ & S). specialize (IH S). cbn [line_of length].
  rewrite !length_app. destruct w; [congruence|]. cbn [length]. lia.
Qed.

Lemma parse_cmd_words w k ws : separated ((w, k) :: ws) -> zlen (program w) < MAX_CMD_LEN ->
  parse_cmd (line_of ((w, k) :: ws)) = Done (program w, line_of ws).
Proof.
  intros S Hl. unfold parse_cmd. rewrite (next_word w k ws S). pose proof S as ((Hne & _) & _ & S'). destruct w as [|c w]; [congruence|]. cbn [line_of app program] in *.
  rewrite (skip_blanks_line k ws S'). destruct (c =? SLASH); cbn [app] in *; replace (_ <? MAX_CMD_LEN) with true by lia; reflexivity.
Qed.

Lemma parse_words w k ws : separated ((w, k) :: ws) -> zlen (program w) < MAX_ARG_LEN -> Forall (fun x => zlen (fst x) < MAX_ARG_LEN) ws -> zlen ws < MAX_ARGS ->
  parse_cmd_line (line_of ((w, k) :: ws)) = Some (Done (program w, program w :: map fst ws)).
Proof.
  intros S Hp F Hn. unfold parse_cmd_line. rewrite (parse_cmd_words w k ws S) by (unfold MAX_ARG_LEN, MAX_CMD_LEN in *; lia).
  replace (MAX_ARG_LEN <=? zlen (program w)) with false by lia. pose proof S as (_ & _ & S'). destruct ws as [|[w2 k2] ws]; [reflexivity|].
  pose proof (line_length _ S').
  pose proof (args_loop_words ((w2, k2) :: ws) [program w] (Datatypes.S (length (line_of ((w2, k2) :: ws)))) ltac:(discriminate) S' F) as E.
  destruct (line_of ((w2, k2) :: ws)) as [|c q] eqn:El; [destruct (line_nonempty w2 k2 ws S' El)|].
  rewrite E; [reflexivity | change (zlen [program w]) with 1; lia | lia].
Qed.

Section ShellSpec.
Context {W : Type} `{ShellCalls W}.

End ShellSpec.

(** The calls are recorded. *)
Inductive made : Type := Forked | Execed (cmd : list Z) (args : list (list Z)) | Exited (v : Z) | Waited (pid : Z).

#[local] Instance demo_shell : ShellCalls (list made) := {
  s_fork w := (0, w ++ [Forked]);
  s_exec w c a := (-1, w ++ [Execed c a]);
  s_exit w v := w ++ [Exited v];
  s_wait w p := w ++ [Waited p]
}.


(** A blank in front of the command makes the directory the program: " ls" runs "/bin/". *)
Lemma leading_blank_runs_the_directory : parse_cmd_line [32; 108; 115] = Some (Done (BIN, [BIN; [108; 115]])).
Proof. reflexivity. Qed.

(** Every command whose name begins with "tc" is taken for the TCP test, "tcpdump" for example. *)
Lemma tc_prefix_hides_commands : dispatch [116; 99; 112; 100; 117; 109; 112] = Tcp_client.
Proof. reflexivity. Qed.

(** The test of [main] is whether the line begins with the word. *)
Lemma starts_with_prefix line s : byte_list line -> Forall (fun c => 0 < c < 256) s -> starts_with line s = true <-> exists r, line = s ++ r.
Proof.
  intros B1 B2. unfold starts_with. rewrite Z.eqb_eq. revert line B1. induction B2 as [|d s Bd Bs IH]; intros line B1.
  - destruct line; cbn; split; eauto.
  - rewrite zlen_cons. pose proof (zlen_nonneg s). destruct line as [|c line].
    + cbn [strncmp char_at]. rewrite (proj2 (Z.eqb_neq _ 0)) by lia. split; [|intros [r [=]]]. intros E.
      assert (Q : s8 d = s8 0) by (change (s8 0) with 0; lia). apply s8_inj in Q; lia.
    + inversion B1 as [|? ? Bc Bl]; subst. cbn [strncmp]. destruct (c =? d) eqn:E; tests.
      * subst. replace (0 <=? zlen s + 1 - 1) with true by lia. replace (zlen s + 1 - 1) with (zlen s) by lia.
        rewrite (IH line Bl). split; intros [r Hr]; exists r; [rewrite Hr; reflexivity | injection Hr as ->; reflexivity].
      * rewrite (proj2 (Z.eqb_neq _ 0)) by lia. split; [|intros [r [= -> _]]; congruence]. intros Q. exfalso. apply E, s8_inj; lia.
Qed.

(** The shell reads the line that is typed. *)
Lemma typed_command_is_read {W} `{UserCalls W} fuel n (w w' : W) l : delivers n w (l ++ [10]) w' -> 10 ∉ l -> 0 ∉ l ->
  zlen l < MAX_CMD_LEN -> (n <= fuel)%nat -> read_command fuel w = Some (dispatch l, w').
Proof.
  intros D Hn H0 Hl Hf. unfold read_command. rewrite (gets_returns_line _ _ _ _ _ _ D Hn Hl Hf). do 3 f_equal.
  assert (A : forall s k, (0 < k)%nat -> 0 ∉ s -> Dns.until_nul (s ++ replicate k 0) = s).
  { induction s as [|c s IH]; intros k Hk Hs; [destruct k; [lia | reflexivity]|]. cbn [app Dns.until_nul].
    rewrite (proj2 (Z.eqb_neq c 0)) by (intros ->; apply Hs; left). rewrite IH; [reflexivity | exact Hk | intros Q; apply Hs; right; exact Q]. }
  apply A; [unfold zlen, MAX_CMD_LEN in *; lia | exact H0].
Qed.
