(* ===== verification/Programs.v ===== *)
(** * User programs (src/src/cat.cc, cp.cc, ln.cc, ls.cc, mv.cc, rm.cc, mkdir.cc, ping.cc)

    The programs are their main functions over the system calls of [Files] and [FsDir]; [exit] closes the files of the
    process, and a message is a write to descriptor 1.  [copy_loop] is the loop that cat and cp share: read up to 512 bytes, write
    them, until nothing is read.  [None] means that it goes on after [fuel] rounds.

    [ping] reads an address from its argument.  It steps over the character behind each number, also over the zero
    that ends the string: whether the address is understood depends on the byte behind the string
    ([parse_ip_reads_on]). *)
From Stdlib Require Import ZArith ZifyBool Lia String Ascii.
From stdpp Require Import base option list gmap.
From S2P Require Import Prelude Interfaces CString Pool FsDisk FsDir Pipe Files Checksum Userlib.

(** The characters of a literal. *)
Fixpoint text (s : string) : list Z :=
  match s with
  | EmptyString => []
  | String c s => Z.of_nat (nat_of_ascii c) :: text s
  end.

(** Going on after a call that may fail in a program that may not end. *)
Definition and_then {A B : Type} (m : outcome A) (k : A -> option (outcome B)) : option (outcome B) :=
  match m with
  | Done a => k a
  | Fault => Some Fault
  | Panic => Some Panic
  | Blocked => Some Blocked
  end.

Section programs.
Context {S P : Type} `{HS : SocketOps S} `{HP : ObjectPool P}.
Context (dev_read : Z -> option (Z -> outcome (Z * list Z))) (dev_write : Z -> option (list Z -> outcome Z)).
Implicit Type w : world S P.

Definition printf w cur (s : list Z) : outcome (world S P) := let! ' (_, w) := do_write dev_write w cur 1 s in Done w.
Definition exit w cur (code : Z) : outcome (Z * world S P) := let! w := exit_files w cur in Done (code, w).
Definition say_and_exit w cur (s : list Z) (code : Z) : outcome (Z * world S P) := let! w := printf w cur s in exit w cur code.

(** A system call on paths, which start at the directory of the process. *)
Definition path_call w cur (call : fs -> Z -> outcome (Z * fs)) : outcome (Z * world S P) :=
  let! p := the_proc w cur in
  let! ' (r, s) := call (w_fs w) (q_cwd p) in
  Done (r, set_fs w s).
Definition link w cur old new := path_call w cur (fun s cwd => do_link dev_read dev_write s cwd old new).
Definition unlink w cur path := path_call w cur (fun s cwd => do_unlink dev_read dev_write s cwd path).
Definition mkdir w cur path := path_call w cur (fun s cwd => do_mkdir dev_read dev_write s cwd path).

(** The loop of cat and cp; false when a write came back short. *)
Fixpoint copy_loop (fuel : nat) w (cur fd fd2 : Z) : option (outcome (bool * world S P)) :=
  match fuel with
  | O => None
  | Datatypes.S k =>
      and_then (do_read dev_read w cur fd 512) (fun '(n, buf, w) =>
        if 0 <? n then
          and_then (do_write dev_write w cur fd2 (take (Z.to_nat n) buf)) (fun '(r, w) =>
            if negb (r =? n) then Some (Done (false, w)) else copy_loop k w cur fd fd2)
        else Some (Done (true, w)))
  end.

(** [cat] *)
Fixpoint cat_files (fuel : nat) w cur (paths : list (list Z)) : option (outcome (Z * world S P)) :=
  match paths with
  | [] => Some (exit w cur 0)
  | path :: r =>
      and_then (do_open dev_read dev_write w cur path MODE_RDONLY) (fun '(fd, w) =>
        if fd <? 0 then Some (say_and_exit w cur (text "cat: cannot open " ++ path ++ [10]) 0)
        else match copy_loop fuel w cur fd 1 with
             | None => None
             | Some o => and_then o (fun '(ok, w) =>
                 if negb ok then Some (say_and_exit w cur (text "cat: write error" ++ [10]) (-1))
                 else and_then (do_close w cur fd) (fun '(_, w) => cat_files fuel w cur r))
             end)
  end.

Definition cat_main (fuel : nat) w cur (argv : list (list Z)) : option (outcome (Z * world S P)) :=
  match argv with
  | [] | [_] => match copy_loop fuel w cur 0 1 with
                | None => None
                | Some o => and_then o (fun '(ok, w) =>
                    Some (if negb ok then say_and_exit w cur (text "cat: write error" ++ [10]) (-1) else exit w cur 0))
                end
  | _ :: paths => cat_files fuel w cur paths
  end.

(** [cp] *)
Definition cp_main (fuel : nat) w cur (argv : list (list Z)) : option (outcome (Z * world S P)) :=
  match argv with
  | _ :: from :: to :: _ =>
      and_then (do_open dev_read dev_write w cur from MODE_RDONLY) (fun '(fd, w) =>
        if fd <? 0 then Some (say_and_exit w cur (text "can't open " ++ from ++ [10]) 0)
        else and_then (do_open dev_read dev_write w cur to (Z.lor MODE_CREATE MODE_WRONLY)) (fun '(fd2, w) =>
          if fd2 <? 0 then Some (say_and_exit w cur (text "can't create " ++ to ++ [10]) 0)
          else match copy_loop fuel w cur fd fd2 with
               | None => None
               | Some o => and_then o (fun '(ok, w) =>
                   if negb ok then Some (say_and_exit w cur (text "cat: write error" ++ [10]) (-1))
                   else and_then (do_close w cur fd) (fun '(_, w) =>
                        and_then (do_close w cur fd2) (fun '(_, w) => Some (exit w cur 0))))
               end))
  | _ => Some (say_and_exit w cur (text "Usage: cp from to " ++ [10]) 0)
  end.

(** [ln], [mv], [rm], [mkdir] *)
Definition ln_main w cur (argv : list (list Z)) : outcome (Z * world S P) :=
  match argv with
  | _ :: from :: to :: _ =>
      let! ' (r, w) := link w cur from to in
      let! w := if r <? 0 then printf w cur (text "link " ++ from ++ [32] ++ to ++ text " failed" ++ [10]) else Done w in
      exit w cur 0
  | _ => say_and_exit w cur (text "Usage: ln file_from file_to" ++ [10]) 0
  end.

Definition mv_main w cur (argv : list (list Z)) : outcome (Z * world S P) :=
  match argv with
  | _ :: from :: to :: _ =>
      let! ' (r, w) := link w cur from to in
      if r <? 0 then say_and_exit w cur (text "mv failed" ++ [10]) 0
      else
        let! ' (r, w) := unlink w cur from in
        let! w := if r <? 0 then let! ' (_, w) := unlink w cur to in Done w else Done w in
        exit w cur 0
  | _ => say_and_exit w cur (text "Usage: mv from to " ++ [10]) 0
  end.

(** The loops over the arguments stop at the first failure. *)
Fixpoint for_args (call : world S P -> list Z -> outcome (Z * world S P)) (failed : list Z -> list Z) w cur (paths : list (list Z)) : outcome (world S P) :=
  match paths with
  | [] => Done w
  | path :: r => let! ' (ret, w) := call w path in if ret <? 0 then printf w cur (failed path) else for_args call failed w cur r
  end.

Definition rm_main w cur (argv : list (list Z)) : outcome (Z * world S P) :=
  match argv with
  | [] | [_] => say_and_exit w cur (text "Usage: rm files..." ++ [10]) 0
  | _ :: paths => let! w := for_args (fun w => unlink w cur) (fun p => text "rm " ++ p ++ text " failed" ++ [10]) w cur paths in exit w cur 0
  end.

Definition mkdir_main w cur (argv : list (list Z)) : outcome (Z * world S P) :=
  match argv with
  | [] | [_] => say_and_exit w cur (text "Usage: mkdir files ... " ++ [10]) 0
  | _ :: paths => let! w := for_args (fun w => mkdir w cur) (fun p => text "mkdir: " ++ p ++ text " failed" ++ [10]) w cur paths in exit w cur 0
  end.

(** [ls] *)
Definition list_file w cur (name : list Z) (size : Z) : outcome (world S P) :=
  printf w cur (name ++ replicate (20 - length name) 32 ++ [32] ++ default [] (int_text size 0 10 false) ++ [10]).

(** [userlib_t::stat]: type and size. *)
Definition stat w cur (path : list Z) : outcome (option (Z * Z) * world S P) :=
  let! ' (fd, w) := do_open dev_read dev_write w cur path MODE_RDONLY in
  if fd <? 0 then Done (None, w)
  else
    let! r := do_stat w cur fd in
    let! ' (_, w) := do_close w cur fd in
    Done (match r with Some (type, _, _, size) => Some (type, size) | None => None end, w).

(** The path that is asked about for an entry.  The test for a slash at the end of the path looks at the terminator, so one is always
    added; [.] and [..] are not put behind the path at all. *)
Definition entry_path (path name : list Z) : list Z :=
  if same_chars name DOT || same_chars name DOTDOT then name else path ++ [47] ++ name.

Fixpoint ls_loop (fuel : nat) w cur fd (path : list Z) : option (outcome (world S P)) :=
  match fuel with
  | O => None
  | Datatypes.S k =>
      and_then (do_read dev_read w cur fd DIR_SIZE) (fun '(n, de, w) =>
        if negb (n =? DIR_SIZE) then Some (Done w)
        else
          let name := FsDir.cstr (slice de 2 MAX_PATH) in
          if le_value (slice de 0 2) =? 0 then ls_loop k w cur fd path
          else and_then (stat w cur (entry_path path name)) (fun '(st, w) =>
            match st with
            | None => and_then (printf w cur (text "ls: cannot stat " ++ entry_path path name ++ [10])) (fun w => ls_loop k w cur fd path)
            | Some (_, size) => and_then (list_file w cur name size) (fun w => ls_loop k w cur fd path)
            end))
  end.

(** The name of a plain file is printed from an array that nothing fills. *)
Definition ls (fuel : nat) w cur (path : list Z) : option (outcome (world S P)) :=
  and_then (do_open dev_read dev_write w cur path MODE_RDONLY) (fun '(fd, w) =>
    if fd <? 0 then Some (printf w cur (text "ls: cannot open " ++ path ++ [10]))
    else and_then (do_stat w cur fd) (fun st =>
      match st with
      | None => Some Fault (* the descriptor is given to printf as a string *)
      | Some (type, _, _, size) =>
          match (if type =? I_TYPE_FILE then Some (list_file w cur [] size)
                 else if type =? I_TYPE_DIR then and_then (printf w cur (path ++ text ": " ++ [10])) (fun w => ls_loop fuel w cur fd path)
                 else Some (Done w)) with
          | None => None
          | Some o => and_then o (fun w => Some (let! ' (_, w) := do_close w cur fd in Done w))
          end
      end)).

Fixpoint ls_all (fuel : nat) w cur (paths : list (list Z)) : option (outcome (Z * world S P)) :=
  match paths with
  | [] => Some (exit w cur 0)
  | path :: r => match ls fuel w cur path with
                 | None => None
                 | Some o => and_then o (fun w => ls_all fuel w cur r)
                 end
  end.

Definition ls_main (fuel : nat) w cur (argv : list (list Z)) : option (outcome (Z * world S P)) :=
  match argv with
  | [] | [_] => ls_all fuel w cur [DOT]
  | _ :: paths => ls_all fuel w cur paths
  end.
End programs.

(** For [.] and [..] [ls] shows the size of those of its own directory, whatever directory it lists. *)
Lemma dot_entries_are_not_listed path : entry_path path DOT = DOT /\ entry_path path DOTDOT = DOTDOT.
Proof. split; reflexivity. Qed.

(** ** Copying a file *)

Lemma content_byte d x o : disk_ok d -> 0 <= content d x o < 256.
Proof.
  intros D. unfold content. destruct (_ =? 0); [lia|]. destruct (dk_block _ D (addr_of d x (o / BSIZE))) as [_ B].
  unfold bget. destruct (zget _ _) as [b|] eqn:E; [|cbn; lia]. apply zget_lookup in E as [E _]. exact (Forall_lookup_1 _ _ _ _ B E).
Qed.

Lemma content_bytes d x l : disk_ok d -> byte_list (content d x <$> l).
Proof. intros D. apply Forall_fmap, Forall_forall. intros o _. apply content_byte, D. Qed.

Lemma bget_fmap_seqZ (C : Z -> Z) k m o : 0 <= m -> k <= o < k + m -> bget (C <$> seqZ k m) (o - k) = C o.
Proof.
  intros Hm Ho. unfold bget. rewrite zget_nonneg by lia. rewrite list_lookup_fmap, lookup_seqZ_lt by lia. cbn. f_equal. lia.
Qed.

Section copying.
Context {S P : Type} `{HS : SocketOps S} `{HP : ObjectPool P}.
Context (dev_read : Z -> option (Z -> outcome (Z * list Z))) (dev_write : Z -> option (list Z -> outcome Z)).
Implicit Type w : world S P.

(** Descriptor [fd] of process [cur] is file [f] of the table, [fd2] is file [g]; they stand for the inodes in slots [i] and [j] of the cache. *)
Context (cur : Z) (p : process) (fd fd2 f g i j : Z).
Hypothesis fd_file : zget (q_files p) fd = Some (Some f) /\ 0 <= fd < MAX_OPEN_FILE.
Hypothesis fd2_file : zget (q_files p) fd2 = Some (Some g) /\ 0 <= fd2 < MAX_OPEN_FILE.
Hypothesis files_apart : f <> g.
Hypothesis slots_apart : i <> j.

Definition src_open w k : Prop := exists x, zget (w_files w) f = Some x /\ l_type x = TYPE_INODE /\ l_readable x = true /\ l_inode x = Some i /\ l_offset x = k.
Definition dst_open w k : Prop := exists x, zget (w_files w) g = Some x /\ l_type x = TYPE_INODE /\ l_writeable x = true /\ l_inode x = Some j /\ l_offset x = k.

(** The source has [n] bytes [C]; the target had [s0] bytes [old]; [d0] was the disk and [t0] the target's inode. *)
Context (n s0 : Z) (C old : Z -> Z) (d0 : disk) (t0 : inode).

Definition blocks_for (m : Z) : Z := (m + 511) / 512.

(** After [k] bytes have been copied. *)
Record copying w (k : Z) (y t : inode) : Prop := {
  co_run : running w cur p;
  co_src : src_open w k;
  co_dst : dst_open w k;
  co_y : zget (f_inodes (w_fs w)) i = Some y;
  co_t : zget (f_inodes (w_fs w)) j = Some t;
  co_disk : disk_ok (f_disk (w_fs w));
  co_ywf : file_wf (f_disk (w_fs w)) y;
  co_twf : file_wf (f_disk (w_fs w)) t;
  co_types : i_type y <> I_TYPE_DEV /\ i_type t <> I_TYPE_DEV;
  co_apart : disjoint_files (f_disk (w_fs w)) t y;
  co_size : i_size y = n;
  co_content : forall o, 0 <= o < n -> content (f_disk (w_fs w)) y o = C o;
  co_tsize : i_size t = Z.max s0 k;
  co_copied : forall o, 0 <= o < k -> content (f_disk (w_fs w)) t o = C o;
  co_old : forall o, k <= o < s0 -> content (f_disk (w_fs w)) t o = old o;
  co_room : blocks_for (n - k) + reserve t <= free_count (f_disk (w_fs w));
  co_place : 0 <= k <= n /\ (k mod 512 = 0 \/ k = n);
  co_others : forall z, file_wf d0 z -> disjoint_files d0 t0 z ->
    file_wf (f_disk (w_fs w)) z /\ disjoint_files (f_disk (w_fs w)) t z /\
    forall o, 0 <= o < MAX_FILE_SIZE * BSIZE -> content (f_disk (w_fs w)) z o = content d0 z o
}.

Lemma get_file_at w h a : running w cur p -> zget (q_files p) h = Some (Some a) /\ 0 <= h < MAX_OPEN_FILE -> get_file w cur h = Done (Some a).
Proof.
  intros R [E Hh]. unfold get_file, the_proc. rewrite (proj1 R). cbn [deref obind].
  replace ((h <? 0) || (MAX_OPEN_FILE <=? h)) with false by lia. rewrite E. reflexivity.
Qed.

(** What a read leaves of the world: the offset of its file. *)
Definition at_offset w a k : world S P := match zget (w_files w) a with Some x => set_file w a (set_offset k x) | None => w end.

Lemma read_chunk w k y t : copying w k y t -> let m := Z.min 512 (n - k) in
  do_read dev_read w cur fd 512 = Done (m, C <$> seqZ k m, if 0 <? m then at_offset w f (k + m) else w).
Proof.
  intros [R (x & Ex & Tx & Rx & Ix & Ox) _ Ey _ Dk Wy _ [Ty _] _ Sy Cy _ _ _ _ [Hk _] _] m.
  pose proof (fw_size _ _ Wy) as Hs. change (MAX_FILE_SIZE * BSIZE) with 71680 in Hs.
  unfold do_read. rewrite (get_file_at w fd f R fd_file). cbn [obind]. unfold the_file. rewrite Ex. cbn [deref obind]. rewrite Rx, Tx, Ix, Ox. cbn [negb deref obind].
  unfold read_slot, slot. rewrite Ey. cbn [deref obind]. rewrite read_inode_ok by (auto; lia). rewrite Sy. fold m. cbn [obind].
  rewrite (set_slot_id (with_disk (w_fs w) _) i y Ey). change (with_disk (w_fs w) (f_disk (w_fs w))) with (mk_fs (f_disk (w_fs w)) (f_inodes (w_fs w))).
  replace (mk_fs (f_disk (w_fs w)) (f_inodes (w_fs w))) with (w_fs w) by (destruct (w_fs w); reflexivity).
  replace (set_fs w (w_fs w)) with w by (destruct w; reflexivity).
  replace (content (f_disk (w_fs w)) y <$> seqZ k m) with (C <$> seqZ k m).
  - destruct (0 <? m) eqn:T; [|reflexivity]. unfold at_offset. rewrite Ex. rewrite u32_small by lia. reflexivity.
  - apply list_fmap_ext. intros q o Ho. apply lookup_seqZ in Ho as [-> Ho]. symmetry. apply Cy. lia.
Qed.

Lemma write_chunk w k y t : copying w k y t -> k < n -> let m := Z.min 512 (n - k) in
  exists w' t', do_write dev_write (at_offset w f (k + m)) cur fd2 (C <$> seqZ k m) = Done (m, w') /\ copying w' (k + m) y t'.
Proof.
  intros [R (x & Ex & Tx & Rx & Ix & Ox) (x2 & Ex2 & Tx2 & Wx2 & Ix2 & Ox2) Ey Et Dk Wy Wt [Ty Tt] Ap Sy Cy St Ct Od Rm [Hk Al] Ot] Hkn m.
  pose proof (fw_size _ _ Wy) as Hs. change (MAX_FILE_SIZE * BSIZE) with 71680 in Hs. set (d := f_disk (w_fs w)) in *. set (src := C <$> seqZ k m).
  assert (Hl : zlen src = m) by (unfold src, zlen; rewrite length_fmap, length_seqZ; lia).
  assert (Es : src = content d y <$> seqZ k m).
  { apply list_fmap_ext. intros q o Ho. apply lookup_seqZ in Ho as [-> Ho]. symmetry. apply Cy. lia. }
  assert (K0 : k mod 512 = 0) by (destruct Al; [assumption | lia]).
  assert (Tc : touched k (zlen src) = 1) by (rewrite Hl; unfold touched, BSIZE; replace (m =? 0) with false by lia; rewrite K0; divlia).
  assert (Bl : blocks_for (n - k) = 1 + blocks_for (n - (k + m))) by (unfold blocks_for, m; divlia).
  assert (Bp : 0 <= blocks_for (n - (k + m))) by (unfold blocks_for; divlia).
  destruct (write_inode_room dev_read dev_write d t src k Dk Wt Tt) as (t' & d' & Ew & (D' & W' & Sz & In & Ty' & Cn & Oth) & Rm');
    [rewrite Es; apply content_bytes, Dk | lia | rewrite Hl; change (MAX_FILE_SIZE * BSIZE) with 71680; lia | lia |].
  rewrite Hl in Sz, Cn, Ew. rewrite Tc in Rm'. destruct (Oth y Wy Ap) as (Wy' & Ap' & Cy').
  pose proof (zget_Some_range _ _ _ Ex) as Rf. pose proof (zget_Some_range _ _ _ Ex2) as Rg.
  pose proof (zget_Some_range _ _ _ Ey) as Ri. pose proof (zget_Some_range _ _ _ Et) as Rj.
  set (w1 := at_offset w f (k + m)). assert (E1 : w1 = set_file w f (set_offset (k + m) x)) by (unfold w1, at_offset; rewrite Ex; reflexivity).
  assert (G1 : zget (w_files w1) g = Some x2) by (rewrite E1; cbn; rewrite zget_zset_ne by (auto; lia); exact Ex2).
  assert (R1 : running w1 cur p) by (rewrite E1; exact R). assert (F1 : w_fs w1 = w_fs w) by (rewrite E1; reflexivity).
  exists (set_file (set_fs w1 (set_slot (with_disk (w_fs w) d') j t')) g (set_offset (k + m) x2)), t'. split.
  - unfold do_write. rewrite (get_file_at w1 fd2 g R1 fd2_file). cbn [obind]. unfold the_file. rewrite G1. cbn [deref obind]. rewrite Wx2, Tx2, Ix2, Ox2. cbn [negb deref obind].
    unfold write_slot, slot. rewrite F1, Et. cbn [deref obind]. fold d. rewrite Ew. cbn [obind]. replace (0 <? m) with true by lia. rewrite u32_small by lia. reflexivity.
  - assert (Lw : zlen (w_files w1) = zlen (w_files w)) by (rewrite E1; unfold zlen; cbn; rewrite zset_length; reflexivity).
    split; cbn [w_fs w_files w_procs set_file set_fs set_files set_slot with_disk f_disk f_inodes]; auto.
    + exists (set_offset (k + m) x). cbn [w_files set_file set_fs set_files]. split; [rewrite zget_zset_ne by (try lia; auto); rewrite E1; apply zget_zset_eq; exact Rf|]. cbn. auto.
    + exists (set_offset (k + m) x2). cbn [w_files set_file set_fs set_files]. split; [apply zget_zset_eq; lia|]. cbn. auto.
    + rewrite zget_zset_ne by (auto; lia). exact Ey.
    + apply zget_zset_eq. exact Rj.
    + split; [exact Ty | congruence].
    + intros o Ho. rewrite Cy' by (change (MAX_FILE_SIZE * BSIZE) with 71680; lia). apply Cy, Ho.
    + lia.
    + intros o Ho. rewrite Cn by (change (MAX_FILE_SIZE * BSIZE) with 71680; lia). case_decide; [unfold src; apply bget_fmap_seqZ; lia | apply Ct; lia].
    + intros o Ho. pose proof (fw_size _ _ Wt) as Hts. rewrite Cn by lia. rewrite decide_False by lia. apply Od. lia.
    + lia.
    + split; [lia|]. unfold m. destruct (decide (n - k <= 512)); [right; lia | left; divlia].
    + intros z Wz Az. destruct (Ot z Wz Az) as (Wz1 & Az1 & Cz1). destruct (Oth z Wz1 Az1) as (Wz2 & Az2 & Cz2).
      split_and!; auto. intros o Ho. rewrite Cz2 by exact Ho. apply Cz1, Ho.
Qed.

Lemma copy_loop_ok fuel : forall w k y t, copying w k y t -> blocks_for (n - k) < Z.of_nat fuel ->
  exists w' t', copy_loop dev_read dev_write fuel w cur fd fd2 = Some (Done (true, w')) /\ copying w' n y t'.
Proof.
  induction fuel as [|fuel IH]; intros w k y t Cp Hf; [exfalso; pose proof (proj1 (co_place _ _ _ _ Cp)); unfold blocks_for in Hf; divlia|].
  cbn [copy_loop]. rewrite (read_chunk w k y t Cp). cbn [and_then]. pose proof (co_place _ _ _ _ Cp) as [Hk _].
  destruct (decide (k = n)) as [-> | Hkn].
  - replace (0 <? Z.min 512 (n - n)) with false by lia. exists w, t. split; [reflexivity | exact Cp].
  - set (m := Z.min 512 (n - k)). replace (0 <? m) with true by lia.
    rewrite take_ge by (rewrite length_fmap, length_seqZ; lia). destruct (write_chunk w k y t Cp ltac:(lia)) as (w' & t' & E & Cp'). fold m in E, Cp'.
    rewrite E. cbn [and_then]. rewrite Z.eqb_refl. cbn [negb]. destruct (IH w' (k + m) y t' Cp') as (w2 & t2 & E2 & C2); [unfold blocks_for, m in *; divlia|].
    exists w2, t2. split; [exact E2 | exact C2].
Qed.
End copying.

(** C29: from a regular descriptor at its start to another one at its start, with room on the disk, the loop of cat and cp ends without an
    error; then the target holds the bytes of the source, and behind them what it held before, for it is not cut off; the source and
    all other files are as they were. *)
Theorem copy_is_exact {S P : Type} `{HS : SocketOps S} `{HP : ObjectPool P} dev_read dev_write (w : world S P) cur p fd fd2 f g i j y t fuel :
  let d := f_disk (w_fs w) in
  zget (q_files p) fd = Some (Some f) /\ 0 <= fd < MAX_OPEN_FILE -> zget (q_files p) fd2 = Some (Some g) /\ 0 <= fd2 < MAX_OPEN_FILE ->
  f <> g -> i <> j -> running w cur p -> src_open f i w 0 -> dst_open g j w 0 ->
  zget (f_inodes (w_fs w)) i = Some y -> zget (f_inodes (w_fs w)) j = Some t -> disk_ok d -> file_wf d y -> file_wf d t ->
  i_type y <> I_TYPE_DEV /\ i_type t <> I_TYPE_DEV -> disjoint_files d t y ->
  blocks_for (i_size y) + reserve t <= free_count d -> blocks_for (i_size y) < Z.of_nat fuel ->
  exists w' t', let d' := f_disk (w_fs w') in
    copy_loop dev_read dev_write fuel w cur fd fd2 = Some (Done (true, w')) /\
    zget (f_inodes (w_fs w')) j = Some t' /\ file_wf d' t' /\ i_size t' = Z.max (i_size t) (i_size y) /\
    (forall o, 0 <= o < i_size t' -> content d' t' o = if decide (o < i_size y) then content d y o else content d t o) /\
    (forall z, file_wf d z -> disjoint_files d t z -> file_wf d' z /\ disjoint_files d' t' z /\
       forall o, 0 <= o < MAX_FILE_SIZE * BSIZE -> content d' z o = content d z o).
Proof.
  intros d Hfd Hfd2 Nf Ni R So Do Ey Et Dk Wy Wt Ty Ap Rm Hfuel. pose proof (fw_size _ _ Wy) as Hs. pose proof (fw_size _ _ Wt) as Hts.
  destruct (copy_loop_ok dev_read dev_write cur p fd fd2 f g i j Hfd Hfd2 Nf Ni (i_size y) (i_size t) (content d y) (content d t) d t fuel w 0 y t)
    as (w' & t' & E & Cp).
  - split; auto; try lia; [rewrite Z.sub_0_r; exact Rm | split; [lia | left; reflexivity]].
  - rewrite Z.sub_0_r. exact Hfuel.
  - destruct Cp as [_ _ _ _ Et' _ _ Wt' _ _ _ _ Sz Cd Od _ _ Ot]. exists w', t'. split_and!; auto.
    intros o Ho. case_decide; [apply Cd; lia | apply Od; lia].
Qed.

(** ** Witness: the bytes of the root directory are copied into the file [f] *)

Definition target_inode : inode := mk_inode 1 2 1 1 1 I_TYPE_FILE 0 0 1 0 (repeat 0 13).
Definition copy_world : world unit (object_pool * Z) :=
  mk_world (mk_fs root_disk [root_inode; target_inode])
    [file_init TYPE_INODE (Some 0) NULL 0 true false; file_init TYPE_INODE (Some 1) NULL 0 false true]
    (fun _ => pipe_init []) pipe_pool tt [mk_process 0 (Some 0 :: Some 1 :: repeat None 62) false].

Lemma target_addr d k : addr_of d target_inode k = 0.
Proof. exact (test_addr d k). Qed.

Lemma target_file_wf : file_wf root_disk target_inode.
Proof.
  constructor.
  - constructor; try (intros; rewrite ?target_addr in *; congruence); try reflexivity; intros H; exfalso; apply H; reflexivity.
  - intros k Hk H. exfalso. unfold BSIZE in H. cbn in H. lia.
  - cbn. change (MAX_FILE_SIZE * BSIZE) with 71680. lia.
  - constructor; cbn; unfold I_TYPE_FILE, I_TYPE_DIR; try lia. split; [reflexivity | repeat constructor; lia].
  - vm_compute. split; [discriminate | reflexivity].
  - vm_compute. reflexivity.
Qed.

Lemma copy_is_exact_witness : exists w' t', copy_loop no_devs no_devs 3 copy_world 0 0 1 = Some (Done (true, w')) /\
  zget (f_inodes (w_fs w')) 1 = Some t' /\ i_size t' = 32 /\ content (f_disk (w_fs w')) t' 18 = 102.
Proof.
  destruct (copy_is_exact no_devs no_devs copy_world 0 (mk_process 0 (Some 0 :: Some 1 :: repeat None 62) false) 0 1 0 1 0 1 root_inode target_inode 3)
    as (w' & t' & E & Et & _ & Sz & Cn & _).
  - split; [reflexivity | unfold MAX_OPEN_FILE; lia].
  - split; [reflexivity | unfold MAX_OPEN_FILE; lia].
  - discriminate.
  - discriminate.
  - split; reflexivity.
  - eexists. split; [reflexivity|]. repeat split.
  - eexists. split; [reflexivity|]. repeat split.
  - reflexivity.
  - reflexivity.
  - apply root_disk_ok.
  - apply root_file_wf.
  - apply target_file_wf.
  - split; vm_compute; discriminate.
  - split; [vm_compute; discriminate|]. intros a _ (H0 & [H | (k & _ & H)]); [apply H0; rewrite <- H; reflexivity | rewrite target_addr in H; congruence].
  - vm_compute. discriminate.
  - vm_compute. reflexivity.
  - exists w', t'. change (Z.max _ _) with 32 in Sz. rewrite Sz in Cn. split_and!; auto. rewrite (Cn 18) by lia. vm_compute. reflexivity.
Defined.

(** ** ping: reading an address *)

(** The inner loop: the number and where it ends, or that there is a character that is not a digit or a number above 255. *)
Fixpoint number_loop (fuel : nat) (m : mem) (p tmp : Z) : option (option (Z * Z)) :=
  match fuel with
  | O => None
  | S k =>
      if (m p =? 0) || (m p =? 46) then Some (Some (tmp, p))
      else if negb (is_digit (m p)) then Some None
      else let tmp := tmp * 10 + m p - 48 in
           if 255 <? tmp then Some None else number_loop k m (p + 1) tmp
  end.

(** The outer loop; [n] numbers are more than the five after which it stops. *)
Fixpoint address_loop (n fuel : nat) (m : mem) (p ip count : Z) : option Z :=
  match n with
  | O => None
  | S k =>
      if m p =? 0 then Some ip
      else match number_loop fuel m p 0 with
           | None => None
           | Some None => Some c_invalid_ip
           | Some (Some (tmp, p)) =>
               let ip := Z.lor (u32 (Z.shiftl ip 8)) tmp in
               let count := count + 1 in
               let p := p + 1 in
               if 4 <? count then Some c_invalid_ip else address_loop k fuel m p ip count
           end
  end.

Definition parse_ip (fuel : nat) (m : mem) (str : Z) : option Z :=
  if str =? NULL then Some c_invalid_ip else address_loop 6 fuel m str 0 0.

(** The header of a request; [m_id] is 1. *)
Definition prepare_ping_data (seq : Z) : list Z :=
  let hdr sum := [8; 0] ++ le_bytes 2 sum ++ le_bytes 2 1 ++ le_bytes 2 (u_htons seq) in
  hdr (u_check_sum (hdr 0)).

(** The decimal digits of a byte, as printf writes them. *)
Definition dec (a : Z) : list Z :=
  if a <? 10 then [48 + a] else if a <? 100 then [48 + a / 10; 48 + a mod 10] else [48 + a / 100; 48 + a / 10 mod 10; 48 + a mod 10].

Lemma dec_printed a : 0 <= a < 256 -> int_text a 0 10 true = Some (dec a).
Proof.
  intros Ha. assert (C : Forall (fun a => int_text a 0 10 true = Some (dec a)) (seqZ 0 256)) by (apply (bool_decide_unpack _); vm_compute; exact I).
  rewrite Forall_forall in C. apply C, elem_of_seqZ. lia.
Qed.

(** The bytes [s] lie at [p]. *)
Definition lies (m : mem) (p : Z) (s : list Z) : Prop := forall k x, s !! k = Some x -> m (p + Z.of_nat k) = x.

Lemma lies_app m p s1 s2 : lies m p (s1 ++ s2) -> lies m p s1 /\ lies m (p + zlen s1) s2.
Proof.
  intros L. split; intros k x Hk; [apply L, lookup_app_l_Some, Hk|].
  replace (p + zlen s1 + Z.of_nat k) with (p + Z.of_nat (length s1 + k)) by (unfold zlen; lia). apply L. rewrite lookup_app_r by lia. rewrite <- Hk. f_equal. lia.
Qed.

Lemma number_loop_dec fuel m p a : 0 <= a < 256 -> (3 < fuel)%nat -> lies m p (dec a) -> m (p + zlen (dec a)) = 0 \/ m (p + zlen (dec a)) = 46 ->
  number_loop fuel m p 0 = Some (Some (a, p + zlen (dec a))).
Proof.
  intros Ha Hf L Hend. destruct fuel as [|[|[|[|fuel]]]]; try lia.
  assert (Digit : forall q v t k, m q = 48 + v -> 0 <= v < 10 -> 0 <= t -> t * 10 + v < 256 -> number_loop (S k) m q t = number_loop k m (q + 1) (t * 10 + v)).
  { intros q v t k Hq Hv Ht Hs. cbn [number_loop]. rewrite Hq. unfold is_digit. replace ((48 + v =? 0) || (48 + v =? 46)) with false by lia.
    replace (negb _) with false by lia. replace (t * 10 + (48 + v) - 48) with (t * 10 + v) by lia. replace (255 <? _) with false by lia. reflexivity. }
  assert (Stop : forall q t k, m q = 0 \/ m q = 46 -> number_loop (S k) m q t = Some (Some (t, q))) by (intros q t k [E | E]; cbn [number_loop]; rewrite E; reflexivity).
  unfold dec in *. destruct (a <? 10) eqn:T1; [|destruct (a <? 100) eqn:T2]; tests; unfold zlen in *; cbn [length Z.of_nat] in *.
  - pose proof (L 0%nat _ eq_refl) as L0. rewrite Z.add_0_r in L0. rewrite (Digit p a 0) by (auto; lia). rewrite Stop by exact Hend. do 3 f_equal; lia.
  - pose proof (L 0%nat _ eq_refl) as L0. pose proof (L 1%nat _ eq_refl) as L1. rewrite Z.add_0_r in L0. cbn in L1.
    rewrite (Digit p (a / 10) 0) by (auto; divlia). rewrite (Digit (p + 1) (a mod 10)) by (auto; divlia).
    replace (p + 1 + 1) with (p + 2) by lia. rewrite Stop by exact Hend. do 3 f_equal; divlia.
  - pose proof (L 0%nat _ eq_refl) as L0. pose proof (L 1%nat _ eq_refl) as L1. pose proof (L 2%nat _ eq_refl) as L2. rewrite Z.add_0_r in L0. cbn in L1, L2.
    rewrite (Digit p (a / 100) 0) by (auto; divlia). rewrite (Digit (p + 1) (a / 10 mod 10)) by (auto; divlia).
    replace (p + 1 + 1) with (p + 2) by lia. rewrite (Digit (p + 2) (a mod 10)) by (auto; divlia).
    replace (p + 2 + 1) with (p + 3) by lia. rewrite Stop by exact Hend. do 3 f_equal; divlia.
Qed.

(** A number and the character behind it. *)
Lemma address_step n fuel m p ip count a : 0 <= a < 256 -> (3 < fuel)%nat -> lies m p (dec a) -> m (p + zlen (dec a)) = 0 \/ m (p + zlen (dec a)) = 46 ->
  count < 4 -> 0 <= ip -> ip * 256 < 2 ^ 32 -> address_loop (S n) fuel m p ip count = address_loop n fuel m (p + zlen (dec a) + 1) (ip * 256 + a) (count + 1).
Proof.
  intros Ha Hf L He Hc Hi Hr. cbn [address_loop]. assert (N0 : m p <> 0).
  { assert (exists v r, dec a = (48 + v) :: r /\ 0 <= v) as (v & r & E & Hv)
      by (unfold dec; destruct (a <? 10); [|destruct (a <? 100)]; eexists _, _; (split; [reflexivity | divlia])).
    rewrite E in L. specialize (L 0%nat _ eq_refl). rewrite Z.add_0_r in L. lia. }
  replace (m p =? 0) with false by lia. rewrite (number_loop_dec fuel m p a) by assumption. replace (4 <? count + 1) with false by lia.
  f_equal. rewrite Z.shiftl_mul_pow2 by lia. change (2 ^ 8) with 256. rewrite u32_small by lia. change 256 with (2 ^ 8). apply lor_disjoint; lia.
Qed.

Definition dotted (a b c d : Z) : list Z := dec a ++ [46] ++ dec b ++ [46] ++ dec c ++ [46] ++ dec d.

Lemma address_numbers fuel m p a b c d : (3 < fuel)%nat -> 0 <= a < 256 -> 0 <= b < 256 -> 0 <= c < 256 -> 0 <= d < 256 -> lies m p (dotted a b c d ++ [0]) ->
  address_loop 6 fuel m p 0 0 = address_loop 2 fuel m (p + zlen (dotted a b c d) + 1) (((a * 256 + b) * 256 + c) * 256 + d) 4.
Proof.
  intros Hf Ha Hb Hc Hd L. unfold dotted in *. rewrite <- !app_assoc in L.
  assert (One : forall q x s, lies m q (x :: s) -> m q = x /\ lies m (q + 1) s).
  { intros q x s Lq. split; [specialize (Lq 0%nat x eq_refl); rewrite Z.add_0_r in Lq; exact Lq|]. change (x :: s) with ([x] ++ s) in Lq. apply (lies_app m q [x] s), Lq. }
  apply lies_app in L as [La L]. apply One in L as [Ea L]. apply lies_app in L as [Lb L]. apply One in L as [Eb L].
  apply lies_app in L as [Lc L]. apply One in L as [Ec L]. apply lies_app in L as [Ld L]. apply One in L as [Ed _].
  rewrite (address_step 5 fuel m p 0 0 a) by (auto; lia). rewrite (address_step 4 fuel m _ _ _ b) by (auto; lia).
  rewrite (address_step 3 fuel m _ _ _ c) by (auto; lia). rewrite (address_step 2 fuel m _ _ _ d) by (auto; lia).
  f_equal; try lia. rewrite !zlen_app, !zlen_cons. change (zlen (@nil Z)) with 0. lia.
Qed.

(** What ping prints of an address is read as this address, if the byte behind the end of the string is zero. *)
Theorem parse_ip_roundtrip fuel m p a b c d : (3 < fuel)%nat -> p <> NULL -> 0 <= a < 256 -> 0 <= b < 256 -> 0 <= c < 256 -> 0 <= d < 256 ->
  lies m p (dotted a b c d ++ [0]) -> m (p + zlen (dotted a b c d) + 1) = 0 ->
  parse_ip fuel m p = Some (((a * 256 + b) * 256 + c) * 256 + d).
Proof.
  intros Hf Hp Ha Hb Hc Hd L E. unfold parse_ip. replace (p =? NULL) with false by lia. rewrite (address_numbers fuel m p a b c d) by assumption.
  cbn [address_loop]. rewrite E. reflexivity.
Qed.

(** Another byte there is taken for the beginning of a fifth number. *)
Lemma parse_ip_reads_on fuel m p a b c d : (3 < fuel)%nat -> p <> NULL -> 0 <= a < 256 -> 0 <= b < 256 -> 0 <= c < 256 -> 0 <= d < 256 ->
  lies m p (dotted a b c d ++ [0]) -> let x := m (p + zlen (dotted a b c d) + 1) in x <> 0 -> x <> 46 -> is_digit x = false ->
  parse_ip fuel m p = Some c_invalid_ip.
Proof.
  intros Hf Hp Ha Hb Hc Hd L x X0 X1 X2. unfold parse_ip. replace (p =? NULL) with false by lia. rewrite (address_numbers fuel m p a b c d) by assumption.
  destruct fuel as [|fuel]; [lia|]. cbn [address_loop number_loop]. fold x. replace (x =? 0) with false by lia. replace (x =? 46) with false by lia. rewrite X2. reflexivity.
Qed.

(** The header of every request passes the check of [disp_ping_reply]. *)
Lemma ping_header_verifies seq : 0 <= seq < 2 ^ 16 -> u_check_sum (prepare_ping_data seq) = 0.
Proof.
  intros Hs. unfold prepare_ping_data. cbn zeta. unfold u_check_sum, u_htons.
  apply (check_sum_stored [8; 0] (le_bytes 2 1 ++ le_bytes 2 (htons seq))).
  - exists 1%nat. reflexivity.
  - repeat (apply byte_list_cons; [lia|]). apply Forall_nil_2.
  - bytes.
  - rewrite zlen_app. unfold zlen. rewrite !le_bytes_length. vm_compute. discriminate.
Qed.

Lemma parse_ip_roundtrip_witness : parse_ip 4 (put_bytes (fun _ => 0) 100 (dotted 192 168 1 105)) 100 = Some 0xc0a80169.
Proof.
  apply (parse_ip_roundtrip 4 (put_bytes (fun _ => 0) 100 (dotted 192 168 1 105)) 100 192 168 1 105); try lia; [discriminate | | vm_compute; reflexivity].
  intros k x Hk. assert (Hl : (k < 14)%nat) by (apply lookup_lt_Some in Hk; exact Hk).
  do 14 (destruct k as [|k]; [vm_compute in Hk |- *; congruence|]). lia.
Defined.
