(* ===== verification/Screen.v ===== *)
(** * The screen and the text console (src/src/screen.cc, color.h, console.cc)

    The screen is a frame buffer in memory; the console draws characters into it with a font of
    8x16 pixels, scrolls it and shows a cursor.  The state is the whole memory, so that the font
    and the frame buffer are two regions of it.  The specification is a sheet of text with a
    cursor; the theorem says that the pixels show it. *)
From Stdlib Require Import ZArith ZifyBool Lia.
From stdpp Require Import base option list.
From S2P Require Import Prelude CString.

(** ** Colours *)
Definition RGB (r g b : Z) : Z := Z.lor (Z.lor (Z.shiftl b 16) (Z.shiftl g 8)) r.
Definition RGB_GET_R (rgb : Z) : Z := u8 rgb.
Definition RGB_GET_G (rgb : Z) : Z := u8 (Z.shiftr (u16 rgb) 8).
Definition RGB_GET_B (rgb : Z) : Z := u8 (Z.shiftr rgb 16).

Definition WHITE : Z := RGB 255 255 255.
Definition BACKGROUND_COLOR : Z := RGB 64 0 48.
Definition CURSOR_COLOR : Z := RGB 255 255 0.

Definition ASC16_SIZE : Z := 16.
Definition ASC16_WIDTH : Z := 8.
Definition ASC16_HEIGHT : Z := 16.
Definition HZ : Z := 100.
Definition BUFFER_SIZE : Z := 1024.

(** ** The screen *)
Record screen_t : Type := mk_screen {
  m_base : Z;
  m_asc16_addr : Z;
  m_width : Z;
  m_height : Z;
  m_bytes_pp : Z;
  memory : mem
}.

Definition with_memory (s : screen_t) (m : mem) : screen_t :=
  mk_screen (m_base s) (m_asc16_addr s) (m_width s) (m_height s) (m_bytes_pp s) m.

(** [left] and [top] are [int32]s; they are only added to unsigned words, so they are kept as the
    words with the same bits. *)
Record rect_t : Type := mk_rect { left : Z; top : Z; width : Z; height : Z }.

Definition set_pixel (s : screen_t) (x y color : Z) : screen_t :=
  if (x <? m_width s) && (y <? m_height s) then
    let pvram := u32 (u32 (m_base s + u32 (m_bytes_pp s * y * m_width s)) + u32 (m_bytes_pp s * x)) in
    with_memory s
      (upd (upd (upd (memory s) pvram (RGB_GET_B color)) (u32 (pvram + 1)) (RGB_GET_G color)) (u32 (pvram + 2)) (RGB_GET_R color))
  else s.

(** The inner loop of [draw_asc16]: [n] more pixels of the row at [p_asc], from [x]. *)
Fixpoint draw_row (n : nat) (s : screen_t) (p_asc x test_bit left y color : Z) : screen_t :=
  match n with
  | O => s
  | S k =>
      let s := if negb (Z.land (memory s p_asc) test_bit =? 0) then set_pixel s (u32 (left + x)) y color else s in
      draw_row k s p_asc (x + 1) (Z.shiftr test_bit 1) left y color
  end.

Fixpoint draw_rows (n : nat) (s : screen_t) (p_asc y left top color : Z) : screen_t :=
  match n with
  | O => s
  | S k => draw_rows k (draw_row (Z.to_nat ASC16_WIDTH) s p_asc 0 128 left (u32 (top + y)) color) (p_asc + 1) (y + 1) left top color
  end.

(** [char] is signed: a character above 127 has its picture before the font. *)
Definition draw_asc16 (s : screen_t) (ch left top color : Z) : screen_t :=
  draw_rows (Z.to_nat ASC16_HEIGHT) s (m_asc16_addr s + s8 ch * ASC16_SIZE) 0 left top color.

Fixpoint fill_row (n : nat) (s : screen_t) (left x y color : Z) : screen_t :=
  match n with
  | O => s
  | S k => fill_row k (set_pixel s (u32 (left + x)) y color) left (x + 1) y color
  end.

Fixpoint fill_rows (n : nat) (s : screen_t) (r : rect_t) (y color : Z) : screen_t :=
  match n with
  | O => s
  | S k => fill_rows k (fill_row (Z.to_nat (width r)) s (left r) 0 (u32 (top r + y)) color) r (y + 1) color
  end.

Definition fill_rectangle (s : screen_t) (r : rect_t) (color : Z) : screen_t :=
  fill_rows (Z.to_nat (height r)) s r 0 color.

Definition screen_scroll (s : screen_t) : screen_t :=
  with_memory s
    (snd (memmov (memory s) (m_base s) (m_base s + m_width s * m_bytes_pp s * ASC16_HEIGHT)
            (m_width s * m_bytes_pp s * (m_height s - ASC16_HEIGHT)))).

(** ** The console *)
Record console_t : Type := mk_console {
  m_row_num : Z;
  m_col_num : Z;
  m_row : Z;
  m_col : Z;
  m_tick_to_update : Z;
  m_show_cursor : bool;
  screen : screen_t
}.

Definition with_screen (c : console_t) (s : screen_t) : console_t :=
  mk_console (m_row_num c) (m_col_num c) (m_row c) (m_col c) (m_tick_to_update c) (m_show_cursor c) s.
Definition with_pos (c : console_t) (row col : Z) : console_t :=
  mk_console (m_row_num c) (m_col_num c) row col (m_tick_to_update c) (m_show_cursor c) (screen c).
Definition with_cursor (c : console_t) (tick : Z) (show : bool) : console_t :=
  mk_console (m_row_num c) (m_col_num c) (m_row c) (m_col c) tick show (screen c).

(** [{ m_col*ASC16_WIDTH, m_row*ASC16_HEIGHT, ASC16_WIDTH, ASC16_HEIGHT }] *)
Definition cell_rect (row col : Z) : rect_t :=
  mk_rect (u32 (col * ASC16_WIDTH)) (u32 (row * ASC16_HEIGHT)) ASC16_WIDTH ASC16_HEIGHT.

Definition draw_background (c : console_t) : console_t :=
  with_screen c (fill_rectangle (screen c) (mk_rect 0 0 (m_width (screen c)) (m_height (screen c))) BACKGROUND_COLOR).

Definition draw_cursor (c : console_t) : console_t :=
  with_screen c (fill_rectangle (screen c) (cell_rect (m_row c) (m_col c))
                   (if m_show_cursor c then CURSOR_COLOR else BACKGROUND_COLOR)).

Definition console_init (s : screen_t) : console_t :=
  let c := mk_console (m_height s / ASC16_HEIGHT) (m_width s / ASC16_WIDTH) 0 0 HZ true s in
  draw_cursor (draw_background c).

Definition scroll (c : console_t) : console_t :=
  if m_row c <? m_row_num c then c
  else
    let c := with_screen c (screen_scroll (screen c)) in
    let rc := mk_rect 0 (u32 (u32 (m_row c - 1) * ASC16_HEIGHT)) (u32 (ASC16_WIDTH * m_col_num c)) ASC16_HEIGHT in
    let c := with_screen c (fill_rectangle (screen c) rc BACKGROUND_COLOR) in
    draw_cursor (with_pos c (u32 (m_row c - 1)) 0).

Definition put_char (c : console_t) (ch color : Z) : console_t :=
  let c := with_screen c (fill_rectangle (screen c) (cell_rect (m_row c) (m_col c)) BACKGROUND_COLOR) in
  let c := with_screen c (draw_asc16 (screen c) ch (u32 (m_col c * ASC16_WIDTH)) (u32 (m_row c * ASC16_HEIGHT)) color) in
  let c := with_pos c (m_row c) (u32 (m_col c + 1)) in
  let c := if m_col c =? m_col_num c then scroll (with_pos c (u32 (m_row c + 1)) 0) else c in
  draw_cursor c.

Definition unput_char (c : console_t) : console_t :=
  with_screen c (fill_rectangle (screen c) (cell_rect (m_row c) (m_col c)) BACKGROUND_COLOR).

Definition backspace (c : console_t) : console_t :=
  let c := unput_char c in
  if m_col c =? 0 then
    if m_row c =? 0 then c
    else unput_char (with_pos c (u32 (m_row c - 1)) (u32 (m_col_num c - 1)))
  else unput_char (with_pos c (m_row c) (u32 (m_col c - 1))).

(** [while (num--) put_char(' ', color);] *)
Fixpoint put_spaces (num : nat) (c : console_t) (color : Z) : console_t :=
  match num with
  | O => c
  | S k => put_spaces k (put_char c 32 color) color
  end.

Definition putc (c : console_t) (ch color : Z) : console_t :=
  let c :=
    if ch =? 10 then scroll (with_pos (unput_char c) (u32 (m_row c + 1)) 0)
    else if ch =? 9 then put_spaces (Z.to_nat (u32 (4 - m_col c mod 4))) c color
    else if ch =? 8 then backspace c
    else put_char c ch color in
  draw_cursor c.

(** [for (i = 0; i < size; i++) putc(buf[i], color);] *)
Fixpoint put_all (c : console_t) (buf : list Z) (color : Z) : console_t :=
  match buf with
  | [] => c
  | ch :: r => put_all (putc c ch color) r color
  end.

Definition console_write (c : console_t) (buf : list Z) : Z * console_t := (zlen buf, put_all c buf WHITE).

(** Digits are collected from the lowest, then written from the last one. *)
Definition print_int (c : console_t) (n base : Z) (sign : bool) (color : Z) : option console_t :=
  let neg := sign && (n <? 0) in
  let num := if neg then u32 (- n) else u32 n in
  match int_digits 16 num base with
  | None => None
  | Some buffer =>
      let buffer := if base =? 16 then buffer ++ replicate (Z.to_nat (8 - zlen buffer)) 48 ++ [120; 48] else buffer in
      let buffer := if neg then buffer ++ [45] else buffer in
      Some (put_all c (rev buffer) color)
  end.

(** [for (i = 0; i < total; i++) putc(buffer[i], color);] *)
Fixpoint put_from (n : nat) (c : console_t) (buffer i color : Z) : console_t :=
  match n with
  | O => c
  | S k => put_from k (putc c (memory (screen c) (buffer + i)) color) buffer (i + 1) color
  end.

(** The static buffer of [kprintf] is at [buffer]; [fuel] is for [vsprintf]. *)
Definition kprintf (fuel : nat) (c : console_t) (buffer color fmt : Z) (ap : list Z) : option console_t :=
  if fmt =? NULL then Some c
  else
    let m := snd (memset (memory (screen c)) buffer 0 BUFFER_SIZE) in
    match vsprintf fuel m buffer fmt ap with
    | None => None
    | Some (total, m) =>
        let c := with_screen c (with_memory (screen c) m) in
        Some (put_from (Z.to_nat total) c buffer 0 color)
    end.

Definition update (c : console_t) : console_t :=
  let tick := u32 (m_tick_to_update c - 1) in
  if negb (tick =? 0) then with_cursor c tick (m_show_cursor c)
  else draw_cursor (with_cursor c HZ (negb (m_show_cursor c))).

(** ** Specification: a sheet of text with a cursor *)

(** What is in a cell: nothing, or a character and its colour. *)
Record text : Type := mk_text { t_row : Z; t_col : Z; t_cell : Z -> Z -> option (Z * Z) }.

Definition set_cell (f : Z -> Z -> option (Z * Z)) (r c : Z) (v : option (Z * Z)) : Z -> Z -> option (Z * Z) :=
  fun r' c' => if (r' =? r) && (c' =? c) then v else f r' c'.

(** The cursor moves onto a cell and erases what is in it. *)
Definition goto (t : text) (r c : Z) : text := mk_text r c (set_cell (t_cell t) r c None).

(** The start of the next line; at the last line, everything moves up one line. *)
Definition next_line (rows : Z) (t : text) : text :=
  if t_row t + 1 <? rows then goto t (t_row t + 1) 0
  else mk_text (t_row t) 0 (fun r c => if r =? t_row t then None else t_cell t (r + 1) c).

Definition type_glyph (rows cols : Z) (t : text) (ch color : Z) : text :=
  let t := mk_text (t_row t) (t_col t) (set_cell (t_cell t) (t_row t) (t_col t) (Some (ch, color))) in
  if t_col t + 1 =? cols then next_line rows t else goto t (t_row t) (t_col t + 1).

Definition rub_out (cols : Z) (t : text) : text :=
  if t_col t =? 0 then if t_row t =? 0 then t else goto t (t_row t - 1) (cols - 1)
  else goto t (t_row t) (t_col t - 1).

Definition type_char (rows cols : Z) (color : Z) (t : text) (ch : Z) : text :=
  if ch =? 10 then next_line rows t
  else if ch =? 9 then Nat.iter (Z.to_nat (4 - t_col t mod 4)) (fun t => type_glyph rows cols t 32 color) t
  else if ch =? 8 then rub_out cols t
  else type_glyph rows cols t ch color.

(** The colour of a pixel, as it is stored. *)
Definition rgb (color : Z) : Z * Z * Z := (RGB_GET_B color, RGB_GET_G color, RGB_GET_R color).

(** What is not to change: the pictures of the characters, the place of the frame buffer and the
    memory outside it. *)
Record surroundings : Type := mk_surroundings { font : Z -> Z -> Z; rest : mem; vram : Z * Z }.

(** The pixels of a character: the bits of the sixteen bytes of its picture, the highest bit on the left. *)
Definition glyph_bit (w : surroundings) (ch dx dy : Z) : bool := Z.testbit (font w ch dy) (7 - dx).

(** What a cell looks like: blank, all in one colour, or a character. *)
Inductive look : Type :=
| Solid (color : Z)
| Char (ch color : Z).

Definition look_pixel (w : surroundings) (l : look) (dx dy : Z) : Z * Z * Z :=
  match l with
  | Solid c => rgb c
  | Char ch c => if glyph_bit w ch dx dy then rgb c else rgb BACKGROUND_COLOR
  end.

(** The text with its cursor, as it is to be seen. *)
Definition display (t : text) (cursor : bool) (r c : Z) : look :=
  if (r =? t_row t) && (c =? t_col t) then Solid (if cursor then CURSOR_COLOR else BACKGROUND_COLOR)
  else match t_cell t r c with None => Solid BACKGROUND_COLOR | Some (ch, color) => Char ch color end.

(** The pixel at [x], [y] as it is in memory. *)
Definition pixel (s : screen_t) (x y : Z) : Z * Z * Z :=
  let a := m_base s + m_bytes_pp s * (y * m_width s + x) in
  (memory s a, memory s (a + 1), memory s (a + 2)).

Definition vram_end (s : screen_t) : Z := m_base s + m_bytes_pp s * (m_height s * m_width s).

(** A mode of three bytes or more per pixel, the frame buffer within the address space, and the
    font, the part before it that negative characters reach included, outside the frame buffer. *)
Record screen_ok (w : surroundings) (s : screen_t) : Prop := {
  so_bpp : 3 <= m_bytes_pp s;
  so_width : 8 <= m_width s < 2 ^ 16;
  so_height : 16 <= m_height s < 2 ^ 16;
  so_base : 0 <= m_base s;
  so_end : vram_end s <= 2 ^ 32;
  so_font : forall ch dy, 0 <= dy < 16 -> memory s (m_asc16_addr s + s8 ch * 16 + dy) = font w ch dy;
  so_vram : vram w = (m_base s, vram_end s);
  so_rest : forall a, a < m_base s \/ vram_end s <= a -> memory s a = rest w a;
  so_apart : m_asc16_addr s + 2048 <= m_base s \/ vram_end s <= m_asc16_addr s - 2048
}.

(** The pixels of every cell of [rows] lines of [cols] columns show [g]. *)
Definition shows (w : surroundings) (s : screen_t) (rows cols : Z) (g : Z -> Z -> look) : Prop :=
  forall r c dx dy, 0 <= r < rows -> 0 <= c < cols -> 0 <= dx < 8 -> 0 <= dy < 16 ->
  pixel s (c * 8 + dx) (r * 16 + dy) = look_pixel w (g r c) dx dy.

(** ** Painting pixels *)

(** [s'] is [s] with the pixels that [f] gives a colour painted. *)
Record paints (w : surroundings) (s s' : screen_t) (f : Z -> Z -> option (Z * Z * Z)) : Prop := {
  pa_mode : m_base s' = m_base s /\ m_asc16_addr s' = m_asc16_addr s /\ m_width s' = m_width s /\
            m_height s' = m_height s /\ m_bytes_pp s' = m_bytes_pp s;
  pa_ok : screen_ok w s';
  pa_pixel : forall x y, 0 <= x < m_width s -> 0 <= y < m_height s ->
             pixel s' x y = match f x y with Some v => v | None => pixel s x y end
}.

Section Painting.
Context (w : surroundings).
Implicit Types s : screen_t.

Lemma s8_range z : - 128 <= s8 z <= 127.
Proof. unfold s8. pose proof (Z.mod_pos_bound z (2 ^ 8) eq_refl). destruct (_ <? _) eqn:Q; tests; lia. Qed.

Lemma paints_none s : screen_ok w s -> paints w s s (fun _ _ => None).
Proof. intros O. split; auto. Qed.

Lemma paints_ext s s' f g :
  (forall x y, 0 <= x < m_width s -> 0 <= y < m_height s -> f x y = g x y) -> paints w s s' f -> paints w s s' g.
Proof. intros E [M O P]. split; auto. intros x y Hx Hy. rewrite P, E by assumption. reflexivity. Qed.

Lemma paints_trans s s1 s2 f g : paints w s s1 f -> paints w s1 s2 g ->
  paints w s s2 (fun x y => match g x y with Some v => Some v | None => f x y end).
Proof.
  intros [(M1 & M2 & M3 & M4 & M5) O1 P1] [(N1 & N2 & N3 & N4 & N5) O2 P2]. split.
  - repeat split; congruence.
  - exact O2.
  - intros x y Hx Hy. rewrite P2 by (rewrite ?M3, ?M4; assumption). destruct (g x y); [reflexivity|]. apply P1; assumption.
Qed.

(** The place of a pixel within the frame buffer. *)
Lemma pixel_place s x y : screen_ok w s -> 0 <= x < m_width s -> 0 <= y < m_height s ->
  0 <= m_base s + m_bytes_pp s * (y * m_width s + x) /\
  m_base s + m_bytes_pp s * (y * m_width s + x) + m_bytes_pp s <= vram_end s.
Proof.
  intros [B W H Ba E _ _ _ _] Hx Hy. unfold vram_end in *.
  assert (y * m_width s + x + 1 <= m_height s * m_width s) by nia. nia.
Qed.

Lemma place_apart n b x y x' y' : 0 < b -> 0 <= x < n -> 0 <= x' < n -> (x', y') <> (x, y) ->
  b * (y' * n + x') + b <= b * (y * n + x) \/ b * (y * n + x) + b <= b * (y' * n + x').
Proof.
  intros Hb Hx Hx' N.
  assert (y' * n + x' <> y * n + x).
  { intros E. apply N. assert (y = y') by nia. f_equal; nia. }
  destruct (Z_lt_le_dec (y' * n + x') (y * n + x)); [left | right]; nia.
Qed.

Lemma set_pixel_paints s x y color : screen_ok w s -> 0 <= x -> 0 <= y ->
  paints w s (set_pixel s x y color) (fun x' y' => if (x' =? x) && (y' =? y) then Some (rgb color) else None).
Proof.
  intros O Hx Hy. unfold set_pixel. destruct ((x <? m_width s) && (y <? m_height s)) eqn:E.
  2:{ apply paints_ext with (fun _ _ => None); [|apply paints_none, O]. intros x' y' Hx' Hy'.
      replace ((x' =? x) && (y' =? y)) with false by lia. reflexivity. }
  tests. pose proof (pixel_place s x y O ltac:(lia) ltac:(lia)) as [P1 P2].
  pose proof (so_end _ _ O). pose proof (so_bpp _ _ O) as B. pose proof (so_base _ _ O). set (a := m_base s + m_bytes_pp s * (y * m_width s + x)) in *.
  assert (Ea : u32 (u32 (m_base s + u32 (m_bytes_pp s * y * m_width s)) + u32 (m_bytes_pp s * x)) = a).
  { assert (Ed : a = m_base s + m_bytes_pp s * y * m_width s + m_bytes_pp s * x) by (unfold a; ring).
    assert (0 <= m_bytes_pp s * y * m_width s) by (repeat apply Z.mul_nonneg_nonneg; lia). assert (0 <= m_bytes_pp s * x) by nia.
    rewrite (u32_small (m_bytes_pp s * y * m_width s)), (u32_small (m_bytes_pp s * x)) by lia.
    rewrite (u32_small (m_base s + _)), u32_small by lia. lia. }
  rewrite Ea. cbv zeta. rewrite !(u32_small (a + _)) by lia.
  split; [cbn; auto| |].
  - destruct O as [? ? ? ? ? F Vr G A]. split; cbn; auto.
    + intros ch dy Hd. rewrite <- F by exact Hd. pose proof (s8_range ch). unfold vram_end in *. rewrite !upd_ne by lia. reflexivity.
    + intros b Hb. unfold vram_end in *. cbn in Hb. rewrite !upd_ne by lia. apply G. exact Hb.
  - intros x' y' Hx' Hy'. unfold pixel. cbn [m_base m_bytes_pp m_width memory with_memory].
    destruct ((x' =? x) && (y' =? y)) eqn:Q.
    + tests. subst. fold a. cbn zeta. rewrite upd_eq, (upd_ne _ (a + 2) _ (a + 1)), upd_eq by lia.
      rewrite !upd_ne by lia. rewrite upd_eq. reflexivity.
    + pose proof (place_apart (m_width s) (m_bytes_pp s) x y x' y' ltac:(lia) ltac:(lia) ltac:(lia)) as Ap.
      assert ((x', y') <> (x, y)) as N by (intros [= -> ->]; lia). specialize (Ap N). cbn zeta. unfold a in *.
      rewrite !upd_ne by lia. reflexivity.
Qed.

Lemma fill_row_paints y color left n : forall s x, screen_ok w s -> 0 <= y -> 0 <= left -> 0 <= x -> left + x + Z.of_nat n <= 2 ^ 32 ->
  paints w s (fill_row n s left x y color)
    (fun x' y' => if (y' =? y) && (left + x <=? x') && (x' <? left + x + Z.of_nat n) then Some (rgb color) else None).
Proof.
  induction n as [|n IH]; intros s x O Hy Hl Hx Hb; cbn [fill_row].
  - eapply paints_ext; [|apply paints_none, O]. intros x' y' _ _. cbn beta. rewrite andb_comm. replace (_ && _) with false by lia. reflexivity.
  - rewrite u32_small by lia. pose proof (set_pixel_paints s (left + x) y color O ltac:(lia) Hy) as P.
    eapply paints_ext; [|eapply paints_trans; [exact P | apply IH; [exact (pa_ok _ _ _ _ P)|lia..]]].
    intros x' y' _ _. cbn beta.
    destruct ((y' =? y) && (left + (x + 1) <=? x') && (x' <? left + (x + 1) + Z.of_nat n)) eqn:E1.
    + replace (_ && _ && _) with true by lia. reflexivity.
    + destruct ((x' =? left + x) && (y' =? y)) eqn:E2; [replace (_ && _ && _) with true by lia; reflexivity|].
      replace ((y' =? y) && (left + x <=? x') && (x' <? left + x + Z.of_nat (S n))) with false by lia. reflexivity.
Qed.

Definition in_rect (r : rect_t) (x y : Z) : bool :=
  (left r <=? x) && (x <? left r + width r) && (top r <=? y) && (y <? top r + height r).

Definition rect_ok (r : rect_t) : Prop :=
  0 <= left r /\ 0 <= top r /\ 0 <= width r /\ 0 <= height r /\ left r + width r <= 2 ^ 32 /\ top r + height r <= 2 ^ 32.

Lemma fill_rows_paints color r : rect_ok r -> forall n s y, screen_ok w s -> 0 <= y -> y + Z.of_nat n = height r ->
  paints w s (fill_rows n s r y color)
    (fun x' y' => if in_rect (mk_rect (left r) (top r + y) (width r) (Z.of_nat n)) x' y' then Some (rgb color) else None).
Proof.
  intros R. induction n as [|n IH]; intros s y O Hy Hn; cbn [fill_rows].
  - eapply paints_ext; [|apply paints_none, O]. intros x' y' _ _. unfold in_rect; cbn [left top width height].
    replace (_ && (y' <? _)) with false by lia. reflexivity.
  - destruct R as (R1 & R2 & R3 & R4 & R5 & R6). rewrite u32_small by lia.
    pose proof (fill_row_paints (top r + y) color (left r) (Z.to_nat (width r)) s 0 O ltac:(lia) R1 ltac:(lia) ltac:(lia)) as P.
    eapply paints_ext; [|eapply paints_trans; [exact P | apply IH; [exact (pa_ok _ _ _ _ P)|lia..]]].
    intros x' y' _ _. unfold in_rect; cbn [left top width height]. rewrite Z2Nat.id by lia.
    destruct (_ && _ && _ && (y' <? top r + (y + 1) + Z.of_nat n)) eqn:E1.
    + replace (_ && (y' <? top r + y + Z.of_nat (S n))) with true by lia. reflexivity.
    + destruct ((y' =? top r + y) && _ && _) eqn:E2; [replace (_ && (y' <? top r + y + Z.of_nat (S n))) with true by lia; reflexivity|].
      replace (_ && (y' <? top r + y + Z.of_nat (S n))) with false by lia. reflexivity.
Qed.

(** [fill_rectangle] paints the part of its rectangle that is on the screen. *)
Lemma fill_rectangle_paints s r color : screen_ok w s -> rect_ok r ->
  paints w s (fill_rectangle s r color) (fun x y => if in_rect r x y then Some (rgb color) else None).
Proof.
  intros O R. pose proof R as (_ & _ & _ & R4 & _ & _). unfold fill_rectangle.
  eapply paints_ext; [|apply fill_rows_paints; [exact R | exact O | lia | lia]].
  intros x y _ _. destruct r as [l t wd h]. unfold in_rect; cbn [left top width height] in *. rewrite Z2Nat.id, Z.add_0_r by lia. reflexivity.
Qed.
Lemma land_bit a n : 0 <= n -> negb (Z.land a (2 ^ n) =? 0) = Z.testbit a n.
Proof.
  intros Hn. destruct (Z.testbit a n) eqn:E.
  - apply negb_true_iff, Z.eqb_neq. intros H. apply (f_equal (fun z => Z.testbit z n)) in H.
    rewrite Z.land_spec, E, Z.pow2_bits_true, Z.bits_0 in H by lia. discriminate H.
  - apply negb_false_iff, Z.eqb_eq. apply Z.bits_inj'. intros k Hk. rewrite Z.land_spec, Z.pow2_bits_eqb, Z.bits_0 by lia.
    destruct (Z.eqb_spec n k) as [->|]; [rewrite E; reflexivity | apply andb_false_r].
Qed.

(** The pixels of a character that its picture sets. *)
Definition glyph_paint (ch color left top x y : Z) : option (Z * Z * Z) :=
  if in_rect (mk_rect left top 8 16) x y && glyph_bit w ch (x - left) (y - top) then Some (rgb color) else None.

Lemma draw_row_paints ch color left y dy n : forall s x p, screen_ok w s -> 0 <= y -> 0 <= dy < 16 -> 0 <= left -> left + 8 <= 2 ^ 32 ->
  0 <= x -> x + Z.of_nat n = 8 -> p = m_asc16_addr s + s8 ch * 16 + dy ->
  paints w s (draw_row n s p x (2 ^ (7 - x)) left y color)
    (fun x' y' => if (y' =? y) && (left + x <=? x') && (x' <? left + 8) && glyph_bit w ch (x' - left) dy then Some (rgb color) else None).
Proof.
  induction n as [|n IH]; intros s x p O Hy Hd Hl Hb Hx Hn Hp; cbn [draw_row].
  - eapply paints_ext; [|apply paints_none, O]. intros x' y' _ _. cbn beta.
    replace ((y' =? y) && (left + x <=? x') && (x' <? left + 8)) with false by lia. reflexivity.
  - assert (Ep : memory s p = font w ch dy) by (rewrite Hp; apply (so_font _ _ O), Hd).
    rewrite Ep, land_bit, (u32_small (left + x)) by lia.
    assert (P : paints w s (if Z.testbit (font w ch dy) (7 - x) then set_pixel s (left + x) y color else s)
                  (fun x' y' => if (x' =? left + x) && (y' =? y) && glyph_bit w ch (x' - left) dy then Some (rgb color) else None)).
    { unfold glyph_bit. destruct (Z.testbit (font w ch dy) (7 - x)) eqn:Eb.
      - eapply paints_ext; [|apply set_pixel_paints; [exact O|lia..]]. intros x' y' _ _. cbn beta.
        destruct ((x' =? left + x) && (y' =? y)) eqn:E; [|reflexivity]. tests. subst. replace (left + x - left) with x by lia. rewrite Eb. reflexivity.
      - eapply paints_ext; [|apply paints_none, O]. intros x' y' _ _. cbn beta.
        destruct ((x' =? left + x) && (y' =? y)) eqn:E; [|reflexivity]. tests. subst. replace (left + x - left) with x by lia. rewrite Eb. reflexivity. }
    cbv zeta. destruct n as [|n]; [cbn [draw_row]; eapply paints_ext; [|exact P]; intros x' y' _ _; cbn beta;
      replace ((y' =? y) && (left + x <=? x') && (x' <? left + 8)) with ((x' =? left + x) && (y' =? y)) by lia; reflexivity|].
    replace (Z.shiftr (2 ^ (7 - x)) 1) with (2 ^ (7 - (x + 1))).
    2:{ rewrite Z.shiftr_div_pow2 by lia. replace (7 - x) with (7 - (x + 1) + 1) by lia. rewrite Z.pow_add_r, Z.div_mul by lia. reflexivity. }
    eapply paints_ext; [|eapply paints_trans; [exact P | apply IH; [exact (pa_ok _ _ _ _ P)|lia..|]]].
    + intros x' y' _ _. cbn beta.
      destruct ((y' =? y) && (left + (x + 1) <=? x') && (x' <? left + 8)) eqn:E1; cbn [andb].
      * replace ((y' =? y) && (left + x <=? x') && (x' <? left + 8)) with true by lia.
        replace ((x' =? left + x) && (y' =? y)) with false by lia. cbn [andb]. destruct (glyph_bit _ _ _ _); reflexivity.
      * replace ((y' =? y) && (left + x <=? x') && (x' <? left + 8)) with ((x' =? left + x) && (y' =? y)) by lia. reflexivity.
    + rewrite (proj1 (proj2 (pa_mode _ _ _ _ P))). exact Hp.
Qed.

Lemma draw_rows_paints ch color left top n : forall s y p, screen_ok w s -> 0 <= top -> top + 16 <= 2 ^ 32 -> 0 <= left -> left + 8 <= 2 ^ 32 ->
  0 <= y -> y + Z.of_nat n = 16 -> p = m_asc16_addr s + s8 ch * 16 + y ->
  paints w s (draw_rows n s p y left top color) (fun x' y' => if top + y <=? y' then glyph_paint ch color left top x' y' else None).
Proof.
  induction n as [|n IH]; intros s y p O Ht Ht' Hl Hl' Hy Hn Hp; cbn [draw_rows].
  - eapply paints_ext; [|apply paints_none, O]. intros x' y' _ _. cbn beta. unfold glyph_paint, in_rect; cbn [Screen.left Screen.top width height].
    destruct (top + y <=? y') eqn:E; [|reflexivity]. replace (_ && (y' <? top + 16)) with false by lia. reflexivity.
  - pose proof (draw_row_paints ch color left (u32 (top + y)) y (Z.to_nat ASC16_WIDTH) s 0 p O ltac:(apply u32_range) ltac:(lia) Hl Hl' ltac:(lia) eq_refl Hp) as P.
    rewrite u32_small in * by lia. change (2 ^ (7 - 0)) with 128 in P.
    eapply paints_ext; [|eapply paints_trans; [exact P | apply IH; [exact (pa_ok _ _ _ _ P)|lia..|]]].
    + intros x' y' _ _. cbn beta. unfold glyph_paint, in_rect; cbn [Screen.left Screen.top width height].
      destruct (Z_lt_le_dec y' (top + y)).
      * replace (top + (y + 1) <=? y') with false by lia. replace (top + y <=? y') with false by lia.
        replace (y' =? top + y) with false by lia. reflexivity.
      * replace (top + y <=? y') with true by lia. destruct (Z.eq_dec y' (top + y)) as [->|].
        -- replace (top + (y + 1) <=? top + y) with false by lia. replace (top + y - top) with y by lia.
           replace (left + 0) with left by lia. rewrite Z.eqb_refl. cbn [andb].
           replace ((left <=? x') && (x' <? left + 8) && (top <=? top + y) && (top + y <? top + 16)) with ((left <=? x') && (x' <? left + 8)) by lia. reflexivity.
        -- replace (top + (y + 1) <=? y') with true by lia. replace (y' =? top + y) with false by lia. cbn [andb].
           destruct (_ && _); reflexivity.
    + rewrite (proj1 (proj2 (pa_mode _ _ _ _ P))). lia.
Qed.

Lemma draw_asc16_paints s ch left top color : screen_ok w s -> 0 <= top -> top + 16 <= 2 ^ 32 -> 0 <= left -> left + 8 <= 2 ^ 32 ->
  paints w s (draw_asc16 s ch left top color) (glyph_paint ch color left top).
Proof.
  intros O Ht Ht' Hl Hl'. unfold draw_asc16.
  eapply paints_ext; [|apply (draw_rows_paints ch color left top); [exact O|lia..| |]]; [|reflexivity|unfold ASC16_SIZE; lia].
  intros x y _ _. cbn beta. unfold glyph_paint, in_rect; cbn [Screen.left Screen.top width height].
  destruct (top + 0 <=? y) eqn:E; [reflexivity|]. replace (_ && (y <? top + 16)) with false by lia. reflexivity.
Qed.

(** [screen_scroll] moves every pixel sixteen lines up; the last sixteen lines stay. *)
Lemma screen_scroll_spec s : screen_ok w s ->
  paints w s (screen_scroll s) (fun x y => if y <? m_height s - 16 then Some (pixel s x (y + 16)) else None).
Proof.
  intros O. pose proof O as [B W H Ba E F Vr G A]. unfold screen_scroll, memmov.
  replace (_ && _) with false. 2:{ symmetry. apply andb_false_intro1. apply Z.ltb_ge. unfold ASC16_HEIGHT. nia. }
  cbn [snd]. set (k := m_width s * m_bytes_pp s).
  assert (Hk : 0 < k) by (unfold k; nia).
  assert (Ev : vram_end s = m_base s + k * m_height s) by (unfold vram_end, k; ring).
  assert (Hf : forall x, copy_fwd (Z.to_nat (k * (m_height s - ASC16_HEIGHT))) (memory s) (m_base s) (m_base s + k * ASC16_HEIGHT) x =
    if (m_base s <=? x) && (x <? m_base s + k * (m_height s - 16)) then memory s (x + k * 16) else memory s x).
  { intros x. unfold ASC16_HEIGHT. rewrite copy_fwd_spec by nia. rewrite Z2Nat.id by nia.
    destruct (_ && _); [f_equal; lia | reflexivity]. }
  split; [cbn; auto| |].
  - assert (Hr : forall a, a < m_base s \/ vram_end s <= a -> copy_fwd (Z.to_nat (k * (m_height s - ASC16_HEIGHT))) (memory s) (m_base s) (m_base s + k * ASC16_HEIGHT) a = memory s a).
    { intros a Ha. rewrite Hf. replace (_ && _) with false; [reflexivity|]. symmetry. apply not_true_iff_false. intros Q. tests.
      assert (k * (m_height s - 16) <= k * m_height s) by nia. lia. }
    split; cbn; auto.
    + intros ch dy Hd. pose proof (s8_range ch). rewrite Hr, <- F by lia. reflexivity.
    + intros a Ha. rewrite Hr by exact Ha. apply G, Ha.
  - intros x y Hx Hy. unfold pixel. cbn [m_base m_bytes_pp m_width memory with_memory]. rewrite !Hf.
    set (q := m_bytes_pp s * (y * m_width s + x)).
    assert (Eq : q = k * y + m_bytes_pp s * x) by (unfold q, k; ring).
    replace (m_bytes_pp s * ((y + 16) * m_width s + x)) with (q + k * 16) by (unfold q, k; ring).
    assert (Hx1 : 0 <= m_bytes_pp s * x /\ m_bytes_pp s * x + m_bytes_pp s <= k) by (unfold k; nia).
    destruct (y <? m_height s - 16) eqn:Ey; tests.
    + assert (k * y + k <= k * (m_height s - 16)) by nia. assert (0 <= k * y) by nia.
      replace (_ && _) with true by lia. replace ((m_base s <=? m_base s + q + 1) && _) with true by lia.
      replace ((m_base s <=? m_base s + q + 2) && _) with true by lia. f_equal; [f_equal|]; f_equal; lia.
    + assert (k * (m_height s - 16) <= k * y) by nia.
      replace (_ && _) with false by lia. replace ((m_base s <=? m_base s + q + 1) && _) with false by lia.
      replace ((m_base s <=? m_base s + q + 2) && _) with false by lia. reflexivity.
Qed.
End Painting.

(** ** Cells *)
Definition set_look (g : Z -> Z -> look) (r c : Z) (l : look) : Z -> Z -> look :=
  fun r' c' => if (r' =? r) && (c' =? c) then l else g r' c'.

(** The text without its cursor. *)
Definition plain (t : text) (r c : Z) : look :=
  match t_cell t r c with None => Solid BACKGROUND_COLOR | Some (ch, color) => Char ch color end.

Definition same_look (rows cols : Z) (g h : Z -> Z -> look) : Prop :=
  forall r c, 0 <= r < rows -> 0 <= c < cols -> g r c = h r c.

(** The screen of the console shows [g]. *)
Record view (w : surroundings) (c : console_t) (g : Z -> Z -> look) : Prop := {
  vi_ok : screen_ok w (screen c);
  vi_rows : 1 <= m_row_num c /\ m_row_num c * 16 <= m_height (screen c);
  vi_cols : 1 <= m_col_num c /\ m_col_num c * 8 <= m_width (screen c);
  vi_shows : shows w (screen c) (m_row_num c) (m_col_num c) g
}.

(** The screen of the console shows the text [t], its cursor included. *)
Record on_screen (w : surroundings) (c : console_t) (t : text) : Prop := {
  os_view : view w c (display t (m_show_cursor c));
  os_row : m_row c = t_row t /\ 0 <= t_row t < m_row_num c;
  os_col : m_col c = t_col t /\ 0 <= t_col t < m_col_num c;
  os_blank : t_cell t (t_row t) (t_col t) = None
}.

Section Cells.
Context (w : surroundings).
Implicit Types (c : console_t) (g : Z -> Z -> look).

Lemma view_ext c g h : same_look (m_row_num c) (m_col_num c) g h -> view w c g -> view w c h.
Proof. intros E [O R C S]. split; auto. intros r k dx dy Hr Hk Hx Hy. rewrite S, E by assumption. reflexivity. Qed.

Lemma view_pos c g row col : view w c g -> view w (with_pos c row col) g.
Proof. intros [O R C S]. split; auto. Qed.

(** What painting does to the picture. *)
Lemma view_paints c g s' f h : view w c g -> paints w (screen c) s' f ->
  (forall r k dx dy, 0 <= r < m_row_num c -> 0 <= k < m_col_num c -> 0 <= dx < 8 -> 0 <= dy < 16 ->
   match f (k * 8 + dx) (r * 16 + dy) with Some v => v | None => look_pixel w (g r k) dx dy end = look_pixel w (h r k) dx dy) ->
  view w (with_screen c s') h.
Proof.
  intros [O R C S] [(M1 & M2 & M3 & M4 & M5) O' P] E. split; cbn [screen with_screen m_row_num m_col_num]; auto; [rewrite M4; exact R | rewrite M3; exact C|].
  intros r k dx dy Hr Hk Hx Hy. rewrite P, <- E by (assumption || lia). rewrite S by assumption. reflexivity.
Qed.

Lemma in_cell_rect r k r' k' dx dy : 0 <= dx < 8 -> 0 <= dy < 16 ->
  in_rect (mk_rect (k * 8) (r * 16) 8 16) (k' * 8 + dx) (r' * 16 + dy) = (r' =? r) && (k' =? k).
Proof. intros Hx Hy. unfold in_rect; cbn [left top width height]. lia. Qed.

Lemma cell_rect_small r k : 0 <= r < 2 ^ 16 -> 0 <= k < 2 ^ 16 -> cell_rect r k = mk_rect (k * 8) (r * 16) 8 16 /\ rect_ok (cell_rect r k).
Proof.
  intros Hr Hc. unfold cell_rect, rect_ok, ASC16_WIDTH, ASC16_HEIGHT. cbn [left top width height].
  rewrite !u32_small by lia. split; [reflexivity|lia].
Qed.

Lemma view_small c g : view w c g -> m_row_num c < 2 ^ 16 /\ m_col_num c < 2 ^ 16.
Proof. intros [O R C _]. pose proof (so_width _ _ O). pose proof (so_height _ _ O). lia. Qed.

Lemma fill_cell_view c g r k color : view w c g -> 0 <= r < m_row_num c -> 0 <= k < m_col_num c ->
  view w (with_screen c (fill_rectangle (screen c) (cell_rect r k) color)) (set_look g r k (Solid color)).
Proof.
  intros V Hr Hk. pose proof (view_small c g V). destruct (cell_rect_small r k ltac:(lia) ltac:(lia)) as [E R].
  eapply view_paints; [exact V | apply fill_rectangle_paints; [exact (vi_ok _ _ _ V) | exact R]|].
  intros r' k' dx dy _ _ Hx Hy. cbn beta. rewrite E, in_cell_rect by assumption. unfold set_look.
  destruct ((r' =? r) && (k' =? k)); reflexivity.
Qed.

Lemma draw_glyph_view c g r k ch color : view w c g -> 0 <= r < m_row_num c -> 0 <= k < m_col_num c ->
  g r k = Solid BACKGROUND_COLOR ->
  view w (with_screen c (draw_asc16 (screen c) ch (u32 (k * ASC16_WIDTH)) (u32 (r * ASC16_HEIGHT)) color)) (set_look g r k (Char ch color)).
Proof.
  intros V Hr Hk Hg. pose proof (view_small c g V). unfold ASC16_WIDTH, ASC16_HEIGHT. rewrite !u32_small by lia.
  eapply view_paints; [exact V | apply draw_asc16_paints; [exact (vi_ok _ _ _ V) | lia..]|].
  intros r' k' dx dy _ _ Hx Hy. unfold glyph_paint, set_look. rewrite in_cell_rect by assumption.
  destruct ((r' =? r) && (k' =? k)) eqn:E; [|reflexivity]. tests. subst. cbn [andb look_pixel]. rewrite Hg.
  replace (k * 8 + dx - k * 8) with dx by lia. replace (r * 16 + dy - r * 16) with dy by lia.
  destruct (glyph_bit w ch dx dy); reflexivity.
Qed.

Lemma draw_cursor_view c g : view w c g -> 0 <= m_row c < m_row_num c -> 0 <= m_col c < m_col_num c ->
  view w (draw_cursor c) (set_look g (m_row c) (m_col c) (Solid (if m_show_cursor c then CURSOR_COLOR else BACKGROUND_COLOR))).
Proof. intros V Hr Hc. apply fill_cell_view; assumption. Qed.

Lemma screen_scroll_view c g : view w c g ->
  forall r k dx dy, 0 <= r < m_row_num c - 1 -> 0 <= k < m_col_num c -> 0 <= dx < 8 -> 0 <= dy < 16 ->
  pixel (screen_scroll (screen c)) (k * 8 + dx) (r * 16 + dy) = look_pixel w (g (r + 1) k) dx dy.
Proof.
  intros [O R C S] r k dx dy Hr Hk Hx Hy.
  rewrite (pa_pixel _ _ _ _ (screen_scroll_spec w (screen c) O)) by lia. cbn beta.
  replace (r * 16 + dy <? m_height (screen c) - 16) with true by lia.
  replace (r * 16 + dy + 16) with ((r + 1) * 16 + dy) by lia. apply S; lia.
Qed.

(** At the end of the screen, [scroll] moves the lines up and blanks the last one. *)
Lemma scroll_view c g : view w c g -> m_row c = m_row_num c ->
  view w (scroll c) (set_look (fun r k => if r =? m_row_num c - 1 then Solid BACKGROUND_COLOR else g (r + 1) k) (m_row_num c - 1) 0
                          (Solid (if m_show_cursor c then CURSOR_COLOR else BACKGROUND_COLOR))) /\
  m_row (scroll c) = m_row_num c - 1 /\ m_col (scroll c) = 0 /\ m_show_cursor (scroll c) = m_show_cursor c.
Proof.
  intros V Hr. pose proof (view_small c g V) as [S1 S2]. pose proof V as [O R C S].
  unfold scroll. rewrite Hr, Z.ltb_irrefl. cbv zeta. cbn [m_row m_col_num with_screen]. rewrite Hr.
  unfold ASC16_WIDTH, ASC16_HEIGHT. rewrite (u32_small (m_row_num c - 1)), (u32_small ((m_row_num c - 1) * 16)), (u32_small (8 * m_col_num c)) by lia.
  split; [|cbn; auto].
  apply (draw_cursor_view (with_pos (with_screen c _) (m_row_num c - 1) 0)); cbn [m_row m_col m_row_num m_col_num with_pos with_screen]; [|lia..].
  pose proof (screen_scroll_spec w (screen c) O) as P. pose proof (pa_mode _ _ _ _ P) as (M1 & M2 & M3 & M4 & M5).
  set (rc := mk_rect 0 ((m_row_num c - 1) * 16) (8 * m_col_num c) 16).
  assert (Rk : rect_ok rc) by (unfold rect_ok, rc; cbn [left top width height]; lia).
  pose proof (fill_rectangle_paints w (screen_scroll (screen c)) rc BACKGROUND_COLOR (pa_ok _ _ _ _ P) Rk) as Q.
  pose proof (pa_mode _ _ _ _ Q) as (N1 & N2 & N3 & N4 & N5).
  split; cbn [screen with_screen with_pos m_row_num m_col_num]; [exact (pa_ok _ _ _ _ Q) | lia | lia|].
  intros r k dx dy Hr' Hk Hx Hy. rewrite (pa_pixel _ _ _ _ Q) by lia. cbn beta.
  destruct (r =? m_row_num c - 1) eqn:E; tests.
  - replace (in_rect rc _ _) with true; [reflexivity|]. unfold in_rect, rc; cbn [left top width height]. lia.
  - replace (in_rect rc _ _) with false by (unfold in_rect, rc; cbn [left top width height]; lia).
    apply (screen_scroll_view c g V); auto. lia.
Qed.

(** ** The text on the screen *)

(** Case analysis on the tests that say which cell is meant. *)
Ltac cells :=
  repeat match goal with
  | |- context [?a =? ?b] => destruct (Z.eqb_spec a b)
  end; cbn [andb]; try reflexivity; try lia; subst; try congruence.

Lemma on_screen_ext c t t' : t_row t' = t_row t -> t_col t' = t_col t ->
  (forall r k, t_cell t' r k = t_cell t r k) -> on_screen w c t -> on_screen w c t'.
Proof.
  intros Er Ec Et [V R C B]. split; rewrite ?Er, ?Ec, ?Et; auto.
  eapply view_ext; [|exact V]. intros r k _ _. unfold display. rewrite Er, Ec, Et. reflexivity.
Qed.

(** Clearing the cell of the cursor leaves the plain text. *)
Lemma unput_char_view c t : on_screen w c t -> view w (unput_char c) (plain t).
Proof.
  intros [V [R1 R2] [C1 C2] B]. unfold unput_char. rewrite R1, C1.
  eapply view_ext; [|apply fill_cell_view; [exact V | lia | lia]].
  intros r k _ _. unfold set_look, display, plain. cells. rewrite B. reflexivity.
Qed.

(** Drawing the cursor over a cell of the plain text. *)
Lemma draw_cursor_on_screen c t : view w c (plain t) -> 0 <= m_row c < m_row_num c -> 0 <= m_col c < m_col_num c ->
  on_screen w (draw_cursor c) (goto t (m_row c) (m_col c)).
Proof.
  intros V R C. split; cbn [t_row t_col t_cell goto]; auto.
  - eapply view_ext; [|exact (draw_cursor_view c _ V R C)]. intros r k _ _.
    unfold set_look, display, plain, goto, set_cell; cbn [t_row t_col t_cell m_show_cursor draw_cursor with_screen]. cells.
  - unfold set_cell. rewrite !Z.eqb_refl. reflexivity.
Qed.

Lemma draw_cursor_again c t : on_screen w c t -> on_screen w (draw_cursor c) t.
Proof.
  intros [V [R1 R2] [C1 C2] B]. split; auto.
  eapply view_ext; [|apply draw_cursor_view; [exact V | lia | lia]]. intros r k _ _.
  unfold set_look, display. rewrite R1, C1. cbn [m_show_cursor draw_cursor with_screen]. cells.
Qed.

Lemma line_feed_on_screen c t : view w c (plain t) -> m_row c = t_row t -> 0 <= t_row t < m_row_num c ->
  on_screen w (draw_cursor (scroll (with_pos c (u32 (m_row c + 1)) 0))) (next_line (m_row_num c) t).
Proof.
  intros V Hr R. pose proof (view_small c _ V). pose proof (vi_cols _ _ _ V). rewrite Hr, u32_small by lia. unfold next_line.
  destruct (t_row t + 1 <? m_row_num c) eqn:E; tests.
  - unfold scroll. cbn [m_row m_row_num with_pos]. replace (_ <? _) with true by lia.
    apply (draw_cursor_on_screen (with_pos c (t_row t + 1) 0) t); [apply view_pos, V | cbn; lia | cbn; lia].
  - assert (Er : t_row t + 1 = m_row_num c) by lia.
    destruct (scroll_view (with_pos c (t_row t + 1) 0) (plain t) (view_pos _ _ _ _ V) Er) as (V' & R' & C' & S').
    cbn [m_row_num m_show_cursor with_pos] in *. apply draw_cursor_again.
    assert (En : m_row_num (scroll (with_pos c (t_row t + 1) 0)) = m_row_num c) by (unfold scroll; destruct (_ <? _); reflexivity).
    assert (Ek : m_col_num (scroll (with_pos c (t_row t + 1) 0)) = m_col_num c) by (unfold scroll; destruct (_ <? _); reflexivity).
    split; cbn [t_row t_col t_cell]; rewrite ?En, ?Ek; [|lia|lia|rewrite Z.eqb_refl; reflexivity].
    eapply view_ext; [|exact V']. intros r k _ _. rewrite S'. unfold set_look, display, plain; cbn [t_row t_col t_cell]. cells.
Qed.

(** What drawing does not touch. *)
Definition same_frame (d c : console_t) : Prop :=
  m_row_num d = m_row_num c /\ m_col_num d = m_col_num c /\ m_show_cursor d = m_show_cursor c /\ m_tick_to_update d = m_tick_to_update c.

Lemma same_frame_trans c d e : same_frame e d -> same_frame d c -> same_frame e c.
Proof. unfold same_frame. intuition congruence. Qed.

Lemma draw_cursor_dims c : same_frame (draw_cursor c) c.
Proof. unfold same_frame. auto. Qed.

Lemma scroll_dims c : same_frame (scroll c) c.
Proof. unfold scroll, same_frame. destruct (_ <? _); auto. Qed.

Lemma put_char_on_screen c t ch color : on_screen w c t ->
  on_screen w (put_char c ch color) (type_glyph (m_row_num c) (m_col_num c) t ch color).
Proof.
  intros I. pose proof (unput_char_view c t I) as V. destruct I as [V0 [R1 R2] [C1 C2] B]. pose proof (view_small c _ V0).
  assert (G : view w (with_screen (unput_char c) (draw_asc16 (screen (unput_char c)) ch (u32 (m_col c * ASC16_WIDTH)) (u32 (m_row c * ASC16_HEIGHT)) color))
                (plain (mk_text (t_row t) (t_col t) (set_cell (t_cell t) (t_row t) (t_col t) (Some (ch, color)))))).
  { eapply view_ext; [|apply draw_glyph_view; [exact V | cbn; lia | cbn; lia |]].
    - intros r k _ _. rewrite R1, C1. unfold set_look, plain, set_cell; cbn [t_cell]. cells.
    - rewrite R1, C1. unfold plain. rewrite B. reflexivity. }
  set (d := with_screen (unput_char c) _) in G.
  change (put_char c ch color) with (draw_cursor (if u32 (m_col c + 1) =? m_col_num c
    then scroll (with_pos (with_pos d (m_row c) (u32 (m_col c + 1))) (u32 (m_row c + 1)) 0) else with_pos d (m_row c) (u32 (m_col c + 1)))).
  unfold type_glyph. cbn [t_row t_col]. rewrite u32_small, C1 by lia. destruct (t_col t + 1 =? m_col_num c) eqn:E; tests.
  - exact (line_feed_on_screen (with_pos d (m_row c) (t_col t + 1)) _ (view_pos _ _ _ _ G) R1 R2).
  - pose proof (draw_cursor_on_screen (with_pos d (m_row c) (t_col t + 1)) _ (view_pos _ _ _ _ G)) as J.
    cbn [m_row m_col with_pos] in J. rewrite R1 in J |- *. apply J; cbn; lia.
Qed.

Lemma put_char_dims c ch color : same_frame (put_char c ch color) c.
Proof.
  unfold put_char. cbv zeta. eapply same_frame_trans; [apply draw_cursor_dims|].
  destruct (_ =? _); [eapply same_frame_trans; [apply scroll_dims|]|]; unfold same_frame; auto.
Qed.

Lemma put_spaces_on_screen color num : forall c t, on_screen w c t ->
  on_screen w (put_spaces num c color) (Nat.iter num (fun t => type_glyph (m_row_num c) (m_col_num c) t 32 color) t).
Proof.
  induction num as [|n IH]; intros c t I; [exact I|]. cbn [put_spaces]. rewrite Nat.iter_succ_r.
  pose proof (IH _ _ (put_char_on_screen c t 32 color I)) as J. destruct (put_char_dims c 32 color) as (E1 & E2 & _ & _). rewrite E1, E2 in J. exact J.
Qed.

Lemma backspace_on_screen c t : on_screen w c t -> on_screen w (draw_cursor (backspace c)) (rub_out (m_col_num c) t).
Proof.
  intros I. pose proof (unput_char_view c t I) as V. destruct I as [V0 [R1 R2] [C1 C2] B]. pose proof (view_small c _ V0).
  assert (Step : forall r k, 0 <= r < m_row_num c -> 0 <= k < m_col_num c ->
    on_screen w (draw_cursor (unput_char (with_pos (unput_char c) r k))) (goto t r k)).
  { intros r k Hr Hk. eapply on_screen_ext; [| | |apply (draw_cursor_on_screen (unput_char (with_pos (unput_char c) r k)) (goto t r k))].
    - reflexivity.
    - reflexivity.
    - intros r' k'. unfold goto, set_cell; cbn. cells.
    - eapply view_ext; [|apply fill_cell_view; [apply view_pos, V | exact Hr | exact Hk]].
      intros r' k' _ _. unfold set_look, plain, goto, set_cell; cbn. cells.
    - exact Hr.
    - exact Hk. }
  unfold backspace, rub_out. cbn [m_col m_row m_col_num unput_char with_screen]. rewrite C1, R1.
  destruct (t_col t =? 0) eqn:Ec; tests.
  - destruct (t_row t =? 0) eqn:Er; tests.
    + eapply on_screen_ext; [| | |apply (draw_cursor_on_screen (unput_char c) t V)]; cbn [m_row m_col m_row_num m_col_num unput_char with_screen goto t_row t_col t_cell]; try lia.
      intros r k. unfold set_cell. rewrite R1, C1. cells. 
    + rewrite !u32_small by lia. fold (unput_char c). apply Step; lia.
  - rewrite !u32_small by lia. fold (unput_char c). apply Step; lia.
Qed.

(** [putc] puts on the screen what the character does to the text. *)
Lemma putc_on_screen c t ch color : on_screen w c t ->
  on_screen w (putc c ch color) (type_char (m_row_num c) (m_col_num c) color t ch).
Proof.
  intros I. pose proof I as [V0 [R1 R2] [C1 C2] B]. unfold putc, type_char.
  destruct (ch =? 10); [|destruct (ch =? 9); [|destruct (ch =? 8)]].
  - apply (line_feed_on_screen (unput_char c)); [apply unput_char_view, I | exact R1 | exact R2].
  - rewrite C1, u32_small by (pose proof (Z.mod_pos_bound (t_col t) 4 eq_refl); lia). apply draw_cursor_again, put_spaces_on_screen, I.
  - apply backspace_on_screen, I.
  - apply draw_cursor_again, put_char_on_screen, I.
Qed.

(** ** Everything that is written, and the clock *)

Lemma put_spaces_dims color n : forall c, same_frame (put_spaces n c color) c.
Proof.
  induction n as [|n IH]; intros c; [unfold same_frame; auto|]. eapply same_frame_trans; [apply IH | apply put_char_dims].
Qed.

Lemma putc_dims c ch color : same_frame (putc c ch color) c.
Proof.
  unfold putc. eapply same_frame_trans; [apply draw_cursor_dims|]. destruct (ch =? 10); [|destruct (ch =? 9); [|destruct (ch =? 8)]].
  - eapply same_frame_trans; [apply scroll_dims | unfold same_frame; auto].
  - apply put_spaces_dims.
  - unfold backspace, same_frame. cbn [m_col m_row unput_char with_screen]. destruct (m_col c =? 0); [destruct (m_row c =? 0)|]; auto.
  - apply put_char_dims.
Qed.

Lemma put_all_on_screen color buf : forall c t, on_screen w c t ->
  on_screen w (put_all c buf color) (fold_left (type_char (m_row_num c) (m_col_num c) color) buf t) /\
  same_frame (put_all c buf color) c.
Proof.
  induction buf as [|ch buf IH]; intros c t I; [unfold same_frame; auto|]. cbn [put_all fold_left].
  destruct (IH _ _ (putc_on_screen c t ch color I)) as (J & E).
  pose proof (putc_dims c ch color) as D. split; [|exact (same_frame_trans _ _ _ E D)]. destruct D as (D1 & D2 & _). rewrite D1, D2 in J. exact J.
Qed.

(** The first screen: blank, the cursor in the corner. *)
Definition blank_text : text := mk_text 0 0 (fun _ _ => None).

Lemma console_init_on_screen s : screen_ok w s -> on_screen w (console_init s) blank_text.
Proof.
  intros O. pose proof O as [_ W H _ _ _ _ _ _]. unfold console_init. cbv zeta.
  set (c0 := mk_console _ _ _ _ _ _ _).
  assert (R : 1 <= m_row_num c0 /\ m_row_num c0 * 16 <= m_height s) by (cbn [m_row_num c0]; unfold ASC16_HEIGHT; pose proof (Z.div_le_lower_bound (m_height s) 16 1); pose proof (Z.mul_div_le (m_height s) 16); lia).
  assert (C : 1 <= m_col_num c0 /\ m_col_num c0 * 8 <= m_width s) by (cbn [m_col_num c0]; unfold ASC16_WIDTH; pose proof (Z.div_le_lower_bound (m_width s) 8 1); pose proof (Z.mul_div_le (m_width s) 8); lia).
  pose proof (fill_rectangle_paints w s (mk_rect 0 0 (m_width s) (m_height s)) BACKGROUND_COLOR O ltac:(unfold rect_ok; cbn; lia)) as P.
  pose proof (pa_mode _ _ _ _ P) as (M1 & M2 & M3 & M4 & M5).
  assert (V : view w (draw_background c0) (plain blank_text)).
  { split; [exact (pa_ok _ _ _ _ P) | | |].
    - change (1 <= m_row_num c0 /\ m_row_num c0 * 16 <= m_height (fill_rectangle s (mk_rect 0 0 (m_width s) (m_height s)) BACKGROUND_COLOR)). rewrite M4. exact R.
    - change (1 <= m_col_num c0 /\ m_col_num c0 * 8 <= m_width (fill_rectangle s (mk_rect 0 0 (m_width s) (m_height s)) BACKGROUND_COLOR)). rewrite M3. exact C.
    - intros r k dx dy Hr Hk Hx Hy. change (0 <= r < m_row_num c0) in Hr. change (0 <= k < m_col_num c0) in Hk.
      change (pixel (fill_rectangle s (mk_rect 0 0 (m_width s) (m_height s)) BACKGROUND_COLOR) (k * 8 + dx) (r * 16 + dy) = rgb BACKGROUND_COLOR).
      rewrite (pa_pixel _ _ _ _ P) by lia. unfold in_rect; cbn [left top width height]. replace (_ && _) with true by lia. reflexivity. }
  apply (on_screen_ext (draw_cursor (draw_background c0)) (goto blank_text 0 0) blank_text); [reflexivity | reflexivity | |].
  - intros r k. cbn. unfold set_cell. destruct (_ && _); reflexivity.
  - apply (draw_cursor_on_screen (draw_background c0) blank_text V); [change (0 <= 0 < m_row_num c0) | change (0 <= 0 < m_col_num c0)]; lia.
Qed.
End Cells.

(** What happens to the console: text is written in a colour, the clock ticks. *)
Inductive con_event : Type :=
| Out (buf : list Z) (color : Z)
| Tick.

Definition con_step (c : console_t) (e : con_event) : console_t :=
  match e with
  | Out buf color => put_all c buf color
  | Tick => update c
  end.

(** The text that the events write, on a sheet of [rows] lines of [cols] columns. *)
Definition written (rows cols : Z) (t : text) (e : con_event) : text :=
  match e with
  | Out buf color => fold_left (type_char rows cols color) buf t
  | Tick => t
  end.

Definition ticks (evs : list con_event) : Z := zsum (fun e => match e with Tick => 1 | Out _ _ => 0 end) evs.

Section Terminal.
Context (w : surroundings).

(** [n] ticks after the start: the counter, and whether the cursor shows. *)
Definition blinks (c : console_t) (n : Z) : Prop :=
  m_tick_to_update c = HZ - n mod HZ /\ m_show_cursor c = Z.even (n / HZ).

Lemma update_on_screen c t n : 0 <= n -> on_screen w c t -> blinks c n ->
  on_screen w (update c) t /\ blinks (update c) (n + 1) /\ m_row_num (update c) = m_row_num c /\ m_col_num (update c) = m_col_num c.
Proof.
  intros Hn I [B1 B2]. unfold update, blinks, HZ in *. rewrite B1.
  pose proof (Z.mod_pos_bound n 100 eq_refl). rewrite u32_small by lia.
  destruct (100 - n mod 100 - 1 =? 0) eqn:E; tests; cbn [negb].
  - split; [|split; [|auto]].
    + destruct I as [V [R1 R2] [C1 C2] Bl]. split; auto.
      eapply view_ext; [|exact (draw_cursor_view w (with_cursor c 100 (negb (m_show_cursor c))) _ (Build_view w (with_cursor c 100 (negb (m_show_cursor c))) _ (vi_ok _ _ _ V) (vi_rows _ _ _ V) (vi_cols _ _ _ V) (vi_shows _ _ _ V)) ltac:(cbn; lia) ltac:(cbn; lia))].
      intros r k _ _. unfold set_look, display. cbn [m_row m_col m_show_cursor with_cursor draw_cursor with_screen]. rewrite R1, C1.
      destruct ((r =? t_row t) && (k =? t_col t)); reflexivity.
    + cbn [m_tick_to_update m_show_cursor draw_cursor with_screen with_cursor]. rewrite B2.
      assert (E1 : (n + 1) mod 100 = 0) by divlia. assert (E2 : (n + 1) / 100 = n / 100 + 1) by divlia.
      rewrite E1, E2, Z.add_1_r, Z.even_succ, <- Z.negb_even. auto.
  - split; [|split; [|auto]].
    + destruct I as [[O R C S] R1 C1 Bl]. split; [split|..]; auto.
    + cbn [m_tick_to_update m_show_cursor with_cursor]. assert (E1 : (n + 1) mod 100 = n mod 100 + 1) by divlia.
      assert (E2 : (n + 1) / 100 = n / 100) by divlia. rewrite E1, E2, B2. split; [lia | reflexivity].
Qed.

Lemma con_steps_on_screen evs : forall c t n, 0 <= n -> on_screen w c t -> blinks c n ->
  on_screen w (fold_left con_step evs c) (fold_left (written (m_row_num c) (m_col_num c)) evs t) /\
  blinks (fold_left con_step evs c) (n + ticks evs) /\
  m_row_num (fold_left con_step evs c) = m_row_num c /\ m_col_num (fold_left con_step evs c) = m_col_num c.
Proof.
  induction evs as [|e evs IH]; intros c t n Hn I B; cbn [fold_left].
  - split; [exact I|]. unfold ticks; cbn. rewrite Z.add_0_r. auto.
  - destruct e as [buf color|]; cbn [con_step written].
    + destruct (put_all_on_screen w color buf c t I) as (J & E1 & E2 & E3 & E4).
      destruct (IH _ _ n Hn J) as (K & L & D1 & D2); [unfold blinks; rewrite E3, E4; exact B|]. rewrite E1, E2 in *.
      split; [exact K|]. unfold ticks in *; cbn [zsum foldr]. rewrite Z.add_0_l. auto.
    + destruct (update_on_screen c t n Hn I B) as (J & B' & E1 & E2).
      destruct (IH _ _ (n + 1) ltac:(lia) J B') as (K & L & D1 & D2). rewrite E1, E2 in *.
      split; [exact K|]. unfold ticks in *; cbn [zsum foldr]. rewrite Z.add_assoc. auto.
Qed.

(** C30: whatever is written to the console and however often the clock ticks, the frame buffer
    shows, cell by cell and pixel by pixel, the sheet of text that was written: characters in
    their colours, lines wrapped at the last column, the oldest line scrolled off at the end of
    the screen, tabs and backspaces applied; the cursor is where the text goes on and changes
    between on and off every [HZ] ticks.  No byte outside the frame buffer is written. *)
Theorem terminal_shows_text (s : screen_t) (evs : list con_event) (O : screen_ok w s) :
  let rows := m_height s / 16 in
  let cols := m_width s / 8 in
  let t := fold_left (written rows cols) evs blank_text in
  let c := fold_left con_step evs (console_init s) in
  (forall r k dx dy, 0 <= r < rows -> 0 <= k < cols -> 0 <= dx < 8 -> 0 <= dy < 16 ->
   pixel (screen c) (k * 8 + dx) (r * 16 + dy) = look_pixel w (display t (Z.even (ticks evs / HZ)) r k) dx dy) /\
  m_row c = t_row t /\ m_col c = t_col t /\
  (forall a, a < m_base s \/ vram_end s <= a -> memory (screen c) a = memory s a).
Proof.
  assert (B : blinks (console_init s) 0) by (split; reflexivity).
  destruct (con_steps_on_screen evs _ _ 0 ltac:(lia) (console_init_on_screen w s O) B) as ([V R C _] & [_ L] & D1 & D2).
  cbv zeta. change (m_row_num (console_init s)) with (m_height s / 16) in *. change (m_col_num (console_init s)) with (m_width s / 8) in *.
  rewrite Z.add_0_l in L. rewrite <- L.
  split; [|split; [apply R | split; [apply C|]]].
  - intros r k dx dy Hr Hk Hx Hy. apply (vi_shows _ _ _ V); try assumption.
    all: rewrite ?D1, ?D2; assumption.
  - intros a Ha. pose proof (so_vram _ _ (vi_ok _ _ _ V)) as E. rewrite (so_vram _ _ O) in E. injection E as E1 E2.
    rewrite (so_rest _ _ (vi_ok _ _ _ V)), (so_rest _ _ O) by (rewrite <- ?E1, <- ?E2; exact Ha). reflexivity.
Qed.
End Terminal.

(** A small screen: two lines of two columns, three bytes per pixel, and a font that repeats one
    picture. *)
Definition demo_memory : mem := fun a => if a <? 100000 then 165 else 0.
Definition demo_screen : screen_t := mk_screen 1048576 65536 16 32 3 demo_memory.
Definition demo_surroundings : surroundings :=
  mk_surroundings (fun ch dy => demo_memory (65536 + s8 ch * 16 + dy)) demo_memory (1048576, 1048576 + 1536).

Lemma demo_screen_ok : screen_ok demo_surroundings demo_screen.
Proof. split; unfold vram_end; cbn; try lia; reflexivity. Qed.

Lemma terminal_shows_text_witness :
  screen_ok demo_surroundings demo_screen /\
  (let c := fold_left con_step [Out [97; 98; 99; 100] WHITE; Tick] (console_init demo_screen) in
   m_row c = 1 /\ m_col c = 0 /\ memory (screen c) 0 = 165 /\
   pixel (screen c) 1 0 = look_pixel demo_surroundings (Char 99 WHITE) 1 0).
Proof.
  split; [exact demo_screen_ok|].
  destruct (terminal_shows_text demo_surroundings demo_screen [Out [97; 98; 99; 100] WHITE; Tick] demo_screen_ok) as (P & R & C & M).
  cbv zeta. rewrite R, C. split; [reflexivity | split; [reflexivity | split]].
  - rewrite M by (left; reflexivity). reflexivity.
  - exact (P 0 0 1 0 ltac:(split; vm_compute; [discriminate | reflexivity]) ltac:(split; vm_compute; [discriminate | reflexivity]) ltac:(lia) ltac:(lia)).
Defined.
