(* ===== verification/Keyboard.v ===== *)
(** * The keyboard (src/src/keyboard.h, keyboard.cc)

    Scan codes become characters by a table with a column for shift.  The interrupt puts a scan
    code into a queue and takes one out of it; the queue is the sequence that [ListT] shows
    [list_t] to implement. *)
From Stdlib Require Import ZArith ZifyBool Lia.
From stdpp Require Import base option list.
From S2P Require Import Prelude.

(** ** Key codes *)
Definition KT_ASCII : Z := 0.
Definition KT_SPECIAL : Z := 1.
Definition KT_FUNCTION : Z := 2.
Definition KT_SHIFT : Z := 3.
Definition KT_LOCK : Z := 4.
Definition KT_CONTROL : Z := 5.
Definition KT_PAD : Z := 6.
Definition KT_APIC : Z := 7.

Definition KEY (type value : Z) : Z := Z.lor (Z.shiftl type 8) value.
Definition KEY_TYPE (x : Z) : Z := Z.shiftr x 8.

Definition K_F1 : Z := KEY KT_FUNCTION 1.
Definition K_F2 : Z := KEY KT_FUNCTION 2.
Definition K_F3 : Z := KEY KT_FUNCTION 3.
Definition K_F4 : Z := KEY KT_FUNCTION 4.
Definition K_F5 : Z := KEY KT_FUNCTION 5.
Definition K_F6 : Z := KEY KT_FUNCTION 6.
Definition K_F7 : Z := KEY KT_FUNCTION 7.
Definition K_F8 : Z := KEY KT_FUNCTION 8.
Definition K_F9 : Z := KEY KT_FUNCTION 9.
Definition K_F10 : Z := KEY KT_FUNCTION 10.
Definition K_F11 : Z := KEY KT_FUNCTION 11.
Definition K_F12 : Z := KEY KT_FUNCTION 12.
Definition K_ESC : Z := KEY KT_SPECIAL 0.
Definition K_BACKSPACE : Z := KEY KT_SPECIAL 1.
Definition K_TAB : Z := KEY KT_SPECIAL 2.
Definition K_ENTER : Z := KEY KT_SPECIAL 3.
Definition K_GUI_L : Z := KEY KT_SPECIAL 4.
Definition K_GUI_R : Z := KEY KT_SPECIAL 5.
Definition K_APPS : Z := KEY KT_SPECIAL 6.
Definition K_SHIFT_L : Z := KEY KT_SHIFT 0.
Definition K_SHIFT_R : Z := KEY KT_SHIFT 1.
Definition K_CTRL_L : Z := KEY KT_SHIFT 2.
Definition K_CTRL_R : Z := KEY KT_SHIFT 3.
Definition K_ALT_L : Z := KEY KT_SHIFT 4.
Definition K_ALT_R : Z := KEY KT_SHIFT 5.
Definition K_CAPS_LOCK : Z := KEY KT_LOCK 0.
Definition K_NUM_LOCK : Z := KEY KT_LOCK 1.
Definition K_SCROLL_LOCK : Z := KEY KT_LOCK 2.
Definition K_INSERT : Z := KEY KT_CONTROL 2.
Definition K_DELETE : Z := KEY KT_CONTROL 3.
Definition K_HOME : Z := KEY KT_CONTROL 4.
Definition K_END : Z := KEY KT_CONTROL 5.
Definition K_PAGEUP : Z := KEY KT_CONTROL 6.
Definition K_PAGEDOWN : Z := KEY KT_CONTROL 7.
Definition K_UP : Z := KEY KT_CONTROL 8.
Definition K_DOWN : Z := KEY KT_CONTROL 9.
Definition K_LEFT : Z := KEY KT_CONTROL 10.
Definition K_RIGHT : Z := KEY KT_CONTROL 11.
Definition K_PAD_0 : Z := KEY KT_PAD 0.
Definition K_PAD_1 : Z := KEY KT_PAD 1.
Definition K_PAD_2 : Z := KEY KT_PAD 2.
Definition K_PAD_3 : Z := KEY KT_PAD 3.
Definition K_PAD_4 : Z := KEY KT_PAD 4.
Definition K_PAD_5 : Z := KEY KT_PAD 5.
Definition K_PAD_6 : Z := KEY KT_PAD 6.
Definition K_PAD_7 : Z := KEY KT_PAD 7.
Definition K_PAD_8 : Z := KEY KT_PAD 8.
Definition K_PAD_9 : Z := KEY KT_PAD 9.
Definition K_PAD_SLASH : Z := KEY KT_PAD 10.
Definition K_PAD_MINUS : Z := KEY KT_PAD 12.
Definition K_PAD_PLUS : Z := KEY KT_PAD 13.
Definition K_PAD_ENTER : Z := KEY KT_PAD 14.
Definition K_PAD_DOT : Z := KEY KT_PAD 15.
Definition K_PAD_UP : Z := K_PAD_8.
Definition K_PAD_DOWN : Z := K_PAD_2.
Definition K_PAD_LEFT : Z := K_PAD_4.
Definition K_PAD_RIGHT : Z := K_PAD_6.
Definition K_PAD_HOME : Z := K_PAD_7.
Definition K_PAD_END : Z := K_PAD_1.
Definition K_PAD_PAGEUP : Z := K_PAD_9.
Definition K_PAD_PAGEDOWN : Z := K_PAD_3.
Definition K_PAD_INS : Z := K_PAD_0.
Definition K_PAD_MID : Z := K_PAD_5.

(** Columns: without shift, with shift, after the prefix 0xE0. *)
Definition keymap : list (Z * Z * Z) := [
  (0, 0, 0); (K_ESC, K_ESC, 0); (49, 33, 0); (50, 64, 0);
  (51, 35, 0); (52, 36, 0); (53, 37, 0); (54, 94, 0);
  (55, 38, 0); (56, 42, 0); (57, 40, 0); (48, 41, 0);
  (45, 95, 0); (61, 43, 0); (K_BACKSPACE, K_BACKSPACE, 0); (K_TAB, K_TAB, 0);
  (113, 81, 0); (119, 87, 0); (101, 69, 0); (114, 82, 0);
  (116, 84, 0); (121, 89, 0); (117, 85, 0); (105, 73, 0);
  (111, 79, 0); (112, 80, 0); (91, 123, 0); (93, 125, 0);
  (K_ENTER, K_ENTER, K_PAD_ENTER); (K_CTRL_L, K_CTRL_L, K_CTRL_R); (97, 65, 0); (115, 83, 0);
  (100, 68, 0); (102, 70, 0); (103, 71, 0); (104, 72, 0);
  (106, 74, 0); (107, 75, 0); (108, 76, 0); (59, 58, 0);
  (39, 34, 0); (96, 126, 0); (K_SHIFT_L, K_SHIFT_L, 0); (92, 124, 0);
  (122, 90, 0); (120, 88, 0); (99, 67, 0); (118, 86, 0);
  (98, 66, 0); (110, 78, 0); (109, 77, 0); (44, 60, 0);
  (46, 62, 0); (47, 63, K_PAD_SLASH); (K_SHIFT_R, K_SHIFT_R, 0); (42, 42, 0);
  (K_ALT_L, K_ALT_L, K_ALT_R); (32, 32, 0); (K_CAPS_LOCK, K_CAPS_LOCK, 0); (K_F1, K_F1, 0);
  (K_F2, K_F2, 0); (K_F3, K_F3, 0); (K_F4, K_F4, 0); (K_F5, K_F5, 0);
  (K_F6, K_F6, 0); (K_F7, K_F7, 0); (K_F8, K_F8, 0); (K_F9, K_F9, 0);
  (K_F10, K_F10, 0); (K_NUM_LOCK, K_NUM_LOCK, 0); (K_SCROLL_LOCK, K_SCROLL_LOCK, 0); (K_PAD_HOME, 55, K_HOME);
  (K_PAD_UP, 56, K_UP); (K_PAD_PAGEUP, 57, K_PAGEUP); (K_PAD_MINUS, 45, 0); (K_PAD_LEFT, 52, K_LEFT);
  (K_PAD_MID, 53, 0); (K_PAD_RIGHT, 54, K_RIGHT); (K_PAD_PLUS, 43, 0); (K_PAD_END, 49, K_END);
  (K_PAD_DOWN, 50, K_DOWN); (K_PAD_PAGEDOWN, 51, K_PAGEDOWN); (K_PAD_INS, 48, K_INSERT); (K_PAD_DOT, 46, K_DELETE);
  (0, 0, 0); (0, 0, 0); (0, 0, 0); (K_F11, K_F11, 0);
  (K_F12, K_F12, 0); (0, 0, 0); (0, 0, 0); (0, 0, K_GUI_L);
  (0, 0, K_GUI_R); (0, 0, K_APPS); (0, 0, 0); (0, 0, 0);
  (0, 0, 0); (0, 0, 0); (0, 0, 0); (0, 0, 0);
  (0, 0, 0); (0, 0, 0); (0, 0, 0); (0, 0, 0);
  (0, 0, 0); (0, 0, 0); (0, 0, 0); (0, 0, 0);
  (0, 0, 0); (0, 0, 0); (0, 0, 0); (0, 0, 0);
  (0, 0, 0); (0, 0, 0); (0, 0, 0); (0, 0, 0);
  (0, 0, 0); (0, 0, 0); (0, 0, 0); (0, 0, 0);
  (0, 0, 0); (0, 0, 0); (0, 0, 0); (0, 0, 0);
  (0, 0, 0); (0, 0, 0); (0, 0, 0); (0, 0, 0)
].

(** ** The keyboard *)
Record keyboard_t : Type := mk_keyboard {
  m_queue : list Z;
  m_shift_l : Z;
  m_shift_r : Z;
  m_leading_e0 : Z
}.

Definition keyboard_init : keyboard_t := mk_keyboard [] 0 0 0.

(** [keymap[code][col]]; the code is below 0x80. *)
Definition keymap_at (code col : Z) : Z :=
  match zget keymap code with
  | Some (plain, shifted, prefixed) => if col =? 0 then plain else if col =? 1 then shifted else prefixed
  | None => 0
  end.

Definition key_up (k : keyboard_t) (q : list Z) (scan_code : Z) : keyboard_t :=
  let key := keymap_at (Z.land scan_code 127) 0 in
  mk_keyboard q (if key =? K_SHIFT_L then 0 else m_shift_l k) (if key =? K_SHIFT_R then 0 else m_shift_r k) (m_leading_e0 k).

(** The last tests of [read]. *)
Definition key_char (key : Z) : Z :=
  if key =? K_ENTER then 10
  else if key =? K_TAB then 9
  else if key =? K_BACKSPACE then 8
  else if negb (KEY_TYPE key =? KT_ASCII) then 0
  else key.

Definition keyboard_read (k : keyboard_t) : Z * keyboard_t :=
  match m_queue k with
  | [] => (0, k)
  | scan_code :: q =>
      if scan_code =? 224 then (0, mk_keyboard q (m_shift_l k) (m_shift_r k) 1)
      else if negb (Z.land scan_code 128 =? 0) then (0, key_up k q scan_code)
      else
        let shift := negb (m_shift_l k =? 0) || negb (m_shift_r k =? 0) in
        let col := if negb (m_leading_e0 k =? 0) then 2 else if shift then 1 else 0 in
        let key := keymap_at (Z.land scan_code 127) col in
        let k' := mk_keyboard q (if key =? K_SHIFT_L then 1 else m_shift_l k) (if key =? K_SHIFT_R then 1 else m_shift_r k) 0 in
        (key_char key, k')
  end.

(** The first half of [do_irq]: the character that the scan code gives the console. *)
Definition keyboard_irq (k : keyboard_t) (scan_code : Z) : Z * keyboard_t :=
  keyboard_read (mk_keyboard (m_queue k ++ [scan_code]) (m_shift_l k) (m_shift_r k) (m_leading_e0 k)).

Fixpoint keyboard_irqs (k : keyboard_t) (codes : list Z) : list Z * keyboard_t :=
  match codes with
  | [] => ([], k)
  | s :: r => let '(c, k) := keyboard_irq k s in let '(cs, k) := keyboard_irqs k r in (c :: cs, k)
  end.

(** ** Specification: keys that are held down *)
Inductive key_event : Type :=
| Press (code : Z)
| Release (code : Z).

Definition scan_code (e : key_event) : Z :=
  match e with Press c => c | Release c => c + 128 end.

(** Keys of the main block: no prefix, and no release that looks like the prefix. *)
Definition main_key (e : key_event) : Prop :=
  match e with Press c => 0 <= c < 128 | Release c => 0 <= c < 128 /\ c <> 96 end.

Definition hold (held : Z -> bool) (e : key_event) : Z -> bool :=
  fun c => match e with Press d => (c =? d) || held c | Release d => negb (c =? d) && held c end.

Definition shift_held (held : Z -> bool) : bool := held 42 || held 54.

(** A key that goes down gives the character of its column; a key that goes up gives none. *)
Definition typed_char (held : Z -> bool) (e : key_event) : Z :=
  match e with
  | Press c => key_char (keymap_at c (if shift_held held then 1 else 0))
  | Release _ => 0
  end.

Fixpoint typed_chars (held : Z -> bool) (evs : list key_event) : list Z :=
  match evs with
  | [] => []
  | e :: r => typed_char held e :: typed_chars (hold held e) r
  end.

(** ** Lemmas *)

(** A property of all the codes, by trying them. *)
Lemma all_codes (P : Z -> bool) : forallb (fun n => P (Z.of_nat n)) (seq 0 128) = true -> forall c, 0 <= c < 128 -> P c = true.
Proof.
  intros H c Hc. rewrite forallb_forall in H. specialize (H (Z.to_nat c)). rewrite Z2Nat.id in H by lia.
  apply H, in_seq. lia.
Qed.

(** The shift keys are the only ones with their codes, with shift or without. *)
Lemma shift_l_key c (b : bool) : 0 <= c < 128 -> (keymap_at c (if b then 1 else 0) =? K_SHIFT_L) = (c =? 42).
Proof.
  intros Hc. apply eqb_true_iff. destruct b; revert c Hc;
  [apply (all_codes (fun c => eqb (keymap_at c 1 =? K_SHIFT_L) (c =? 42))) | apply (all_codes (fun c => eqb (keymap_at c 0 =? K_SHIFT_L) (c =? 42)))];
  vm_compute; reflexivity.
Qed.

Lemma shift_r_key c (b : bool) : 0 <= c < 128 -> (keymap_at c (if b then 1 else 0) =? K_SHIFT_R) = (c =? 54).
Proof.
  intros Hc. apply eqb_true_iff. destruct b; revert c Hc;
  [apply (all_codes (fun c => eqb (keymap_at c 1 =? K_SHIFT_R) (c =? 54))) | apply (all_codes (fun c => eqb (keymap_at c 0 =? K_SHIFT_R) (c =? 54)))];
  vm_compute; reflexivity.
Qed.

Lemma key_bits c : 0 <= c < 128 -> Z.land c 127 = c /\ Z.land c 128 = 0 /\ Z.land (c + 128) 127 = c /\ Z.land (c + 128) 128 <> 0.
Proof.
  intros Hc.
  assert (H : (Z.land c 127 =? c) && (Z.land c 128 =? 0) && (Z.land (c + 128) 127 =? c) && negb (Z.land (c + 128) 128 =? 0) = true).
  { revert c Hc. apply (all_codes (fun c => (Z.land c 127 =? c) && (Z.land c 128 =? 0) && (Z.land (c + 128) 127 =? c) && negb (Z.land (c + 128) 128 =? 0))). vm_compute. reflexivity. }
  tests. auto.
Qed.

(** The keyboard knows which shift keys are held. *)
Definition follows (k : keyboard_t) (held : Z -> bool) : Prop :=
  m_queue k = [] /\ m_shift_l k = Z.b2z (held 42) /\ m_shift_r k = Z.b2z (held 54) /\ m_leading_e0 k = 0.

Lemma b2z_test b : negb (Z.b2z b =? 0) = b.
Proof. destruct b; reflexivity. Qed.

Lemma keyboard_irq_follows k held e : follows k held -> main_key e ->
  fst (keyboard_irq k (scan_code e)) = typed_char held e /\ follows (snd (keyboard_irq k (scan_code e))) (hold held e).
Proof.
  intros (Q & L & R & E0) M. unfold keyboard_irq, keyboard_read, follows. rewrite Q, L, R, E0. cbn [app m_queue m_shift_l m_shift_r m_leading_e0]. rewrite Z.eqb_refl. cbn [negb].
  destruct e as [c|c]; cbn [scan_code typed_char hold main_key] in *.
  - destruct (key_bits c M) as (B1 & B2 & _ & _). replace (c =? 224) with false by lia. rewrite B1, B2, Z.eqb_refl. cbn [negb fst snd].
    rewrite !b2z_test. fold (shift_held held). cbn [fst snd m_queue m_shift_l m_shift_r m_leading_e0].
    rewrite shift_l_key, shift_r_key by exact M.
    split; [reflexivity | split; [reflexivity | split; [|split; [|reflexivity]]]].
    + rewrite (Z.eqb_sym 42 c). destruct (c =? 42); reflexivity.
    + rewrite (Z.eqb_sym 54 c). destruct (c =? 54); reflexivity.
  - destruct M as [M N]. destruct (key_bits c M) as (_ & _ & B3 & B4). replace (c + 128 =? 224) with false by lia.
    replace (Z.land (c + 128) 128 =? 0) with false by lia. unfold key_up. rewrite B3. cbn [negb fst snd m_queue m_shift_l m_shift_r m_leading_e0].
    rewrite (shift_l_key c false), (shift_r_key c false) by exact M.
    split; [reflexivity | split; [reflexivity | split; [|split; [|reflexivity]]]].
    + rewrite (Z.eqb_sym 42 c). destruct (c =? 42); reflexivity.
    + rewrite (Z.eqb_sym 54 c). destruct (c =? 54); reflexivity.
Qed.

Lemma keyboard_irqs_follow evs : forall k held, follows k held -> Forall main_key evs ->
  fst (keyboard_irqs k (map scan_code evs)) = typed_chars held evs.
Proof.
  induction evs as [|e evs IH]; intros k held F M; [reflexivity|]. inversion M as [|? ? M1 M2]; subst.
  cbn [map keyboard_irqs typed_chars]. destruct (keyboard_irq_follows k held e F M1) as [E G].
  destruct (keyboard_irq k (scan_code e)) as [c k']. cbn [fst snd] in E, G. specialize (IH k' _ G M2).
  destruct (keyboard_irqs k' (map scan_code evs)) as [cs k'']. cbn [fst] in *. rewrite E, IH. reflexivity.
Qed.

(** whatever keys of the main block go down and up, in any order and overlapping, each key that
    goes down gives the character of its own column of the table, the shifted one exactly while one
    of the two shift keys is held, and keys that go up give nothing. *)
Theorem keys_are_decoded (evs : list key_event) (M : Forall main_key evs) :
  fst (keyboard_irqs keyboard_init (map scan_code evs)) = typed_chars (fun _ => false) evs.
Proof. apply keyboard_irqs_follow; [repeat split | exact M]. Qed.

Lemma keys_are_decoded_witness :
  Forall main_key [Press 42; Press 30; Release 42; Press 48; Release 30; Release 48] /\
  fst (keyboard_irqs keyboard_init [42; 30; 170; 48; 158; 176]) = [0; 65; 0; 98; 0; 0].
Proof.
  assert (M : Forall main_key [Press 42; Press 30; Release 42; Press 48; Release 30; Release 48]) by (repeat constructor; lia).
  split; [exact M | exact (keys_are_decoded _ M)].
Defined.

(** A key with the prefix (here the up arrow) leaves [m_leading_e0] set when it is released: the next
    key, an [a], is looked up in the column of the prefix and gives nothing. *)
Lemma released_arrow_swallows_a_key :
  fst (keyboard_irqs keyboard_init [224; 72; 224; 200; 30; 158; 30]) = [0; 0; 0; 0; 0; 0; 97].
Proof. vm_compute. reflexivity. Qed.
