(* ===== verification/Console.v ===== *)
(** * Typing and reading lines (src/src/console.cc, keyboard.cc)

    The keyboard interrupt edits the current line in a ring of 1024 characters; a newline hands the
    line over to the process that reads.  [console_t::read] runs in that process and can be
    interrupted between any two of its steps, so it is a step function with a program counter;
    [sleep_on] is three of the steps: the process enters the wait queue, marks itself asleep, and
    goes on when it has been woken.  One process reads; others may write at any time. *)
From Stdlib Require Import ZArith ZifyBool Lia.
From stdpp Require Import base option list.
From S2P Require Import Prelude Screen Keyboard.

(** ** The state *)

(** The console with its input buffer; [queued] and [ready] are the reader's place in [m_wait_queue]
    and its process state. *)
Record tty : Type := mk_tty {
  con : console_t;
  m_read_index : Z;
  m_write_index : Z;
  m_edit_index : Z;
  m_buffer : list Z;
  queued : bool;
  ready : bool
}.

Definition tty_init (s : screen_t) : tty :=
  mk_tty (console_init s) 0 0 0 (replicate (Z.to_nat BUFFER_SIZE) 0) false true.

Definition with_con (t : tty) (c : console_t) : tty :=
  mk_tty c (m_read_index t) (m_write_index t) (m_edit_index t) (m_buffer t) (queued t) (ready t).

(** [console()->write(&ch, 1)] *)
Definition echo (t : tty) (ch : Z) : tty := with_con t (snd (console_write (con t) [ch])).

(** [m_wait_queue.wake_up()] *)
Definition wakeup_reader (t : tty) : tty :=
  mk_tty (con t) (m_read_index t) (m_write_index t) (m_edit_index t) (m_buffer t) (queued t) (if queued t then true else ready t).

(** [m_buffer[m_edit_index++ % BUFFER_SIZE] = ch] *)
Definition put_edit (t : tty) (ch : Z) : tty :=
  mk_tty (con t) (m_read_index t) (m_write_index t) (u32 (m_edit_index t + 1))
    (zset (m_buffer t) (m_edit_index t mod BUFFER_SIZE) ch) (queued t) (ready t).

Definition input (t : tty) (ch : Z) : tty :=
  if ch =? 8 then
    if m_edit_index t =? m_write_index t then t
    else echo (mk_tty (con t) (m_read_index t) (m_write_index t) (u32 (m_edit_index t - 1)) (m_buffer t) (queued t) (ready t)) ch
  else if ch =? 10 then
    let t := put_edit t ch in
    let t := mk_tty (con t) (m_read_index t) (m_edit_index t) (m_edit_index t) (m_buffer t) (queued t) (ready t) in
    echo (wakeup_reader t) ch
  else echo (put_edit t ch) ch.

(** [for (i = 0; i < (4 - m_col % 4); i++) input(' ')]: [m_col] moves with every echo.  The bound
    is at most 4, so that [i] stops at 4. *)
Fixpoint tab_loop (n : nat) (i : Z) (t : tty) : tty :=
  match n with
  | O => t
  | S k => if i <? 4 - m_col (con t) mod 4 then tab_loop k (i + 1) (input t 32) else t
  end.

Definition do_input (t : tty) (ch : Z) : tty :=
  if ch =? 0 then t
  else
    let t := with_con t (with_cursor (con t) HZ true) in
    if ch =? 9 then tab_loop 4 0 t else input t ch.

(** [keyboard_t::do_irq]: the scan code goes through the keyboard's queue to the console. *)
Definition do_irq (k : keyboard_t) (t : tty) (code : Z) : keyboard_t * tty :=
  let '(ch, k) := keyboard_irq k code in (k, do_input t (u8 ch)).

(** [read]: where the process is. *)
Inductive reading : Type :=
| RIdle
| RTest (left : Z) (got : list Z)
| RAdd (left : Z) (got : list Z)
| RMark (left : Z) (got : list Z)
| RWait (left : Z) (got : list Z)
| RTake (left : Z) (got : list Z)
| RDone (got : list Z).

Definition with_sleep (t : tty) (q r : bool) : tty :=
  mk_tty (con t) (m_read_index t) (m_write_index t) (m_edit_index t) (m_buffer t) q r.

Definition read_step (t : tty) (p : reading) : option (tty * reading) :=
  match p with
  | RTest left got =>
      if 0 <? left then
        if m_read_index t =? m_write_index t then Some (t, RAdd left got) else Some (t, RTake left got)
      else Some (t, RDone got)
  | RAdd left got => Some (with_sleep t true (ready t), RMark left got)
  | RMark left got => Some (with_sleep t (queued t) false, RWait left got)
  | RWait left got => if ready t then Some (with_sleep t false true, RTake left got) else None
  | RTake left got =>
      let c := default 0 (zget (m_buffer t) (m_read_index t mod BUFFER_SIZE)) in
      let t := mk_tty (con t) (u32 (m_read_index t + 1)) (m_write_index t) (m_edit_index t) (m_buffer t) (queued t) (ready t) in
      if c =? 10 then Some (t, RDone (got ++ [c])) else Some (t, RTest (left - 1) (got ++ [c]))
  | RIdle | RDone _ => None
  end.

(** ** Specification: editing lines

    Finished lines, and the line that is being typed. *)
Definition edit_key (e : list Z * list Z) (k : Z) : list Z * list Z :=
  let '(done, line) := e in
  if k =? 8 then (done, take (length line - 1) line)
  else if k =? 10 then (done ++ line ++ [10], [])
  else (done, line ++ [k]).

Definition edit_keys (ks : list Z) : list Z * list Z := fold_left edit_key ks ([], []).

(** How many characters are typed, and not erased, but not read. *)
Definition behind (ks read : list Z) : Z := zlen (fst (edit_keys ks)) + zlen (snd (edit_keys ks)) - zlen read.

(** ** Runs

    The keyboard, the console and the reading process, with the history that the theorem speaks of:
    the characters that were put into the line editor, the results of the finished reads, and the
    largest number of characters that the reader has been behind. *)
Record session : Type := mk_session {
  kbd : keyboard_t;
  term : tty;
  reader : reading;
  size : Z;
  keys : list Z;
  reads : list (Z * list Z);
  peak : Z
}.

(** What a read in progress has taken, and what all reads have. *)
Definition got_of (p : reading) : list Z :=
  match p with
  | RIdle => []
  | RTest _ g | RAdd _ g | RMark _ g | RWait _ g | RTake _ g | RDone g => g
  end.

Definition read_so_far (s : session) : list Z := concat (map snd (reads s)) ++ got_of (reader s).

Fixpoint tab_keys (n : nat) (i : Z) (t : tty) : list Z :=
  match n with
  | O => []
  | S k => if i <? 4 - m_col (con t) mod 4 then 32 :: tab_keys k (i + 1) (input t 32) else []
  end.

(** The characters that [do_input] passes to the line editor. *)
Definition edited (t : tty) (ch : Z) : list Z :=
  if ch =? 0 then [] else if ch =? 9 then tab_keys 4 0 (with_con t (with_cursor (con t) HZ true)) else [ch].

(** A scan code may arrive at any time, whether or not there is room in the ring: the code does not look. *)
Definition press (s : session) (code : Z) : session :=
  let '(ch, _) := keyboard_irq (kbd s) code in
  let '(k, t) := do_irq (kbd s) (term s) code in
  let ks := keys s ++ edited (term s) (u8 ch) in
  mk_session k t (reader s) (size s) ks (reads s) (Z.max (peak s) (behind ks (read_so_far s))).

Inductive session_step (s : session) : session -> Prop :=
| Step_key code : session_step s (press s code)
| Step_con e :
    session_step s (mk_session (kbd s) (with_con (term s) (con_step (con (term s)) e)) (reader s) (size s) (keys s) (reads s) (peak s))
| Step_call n :
    reader s = RIdle -> session_step s (mk_session (kbd s) (term s) (RTest n []) n (keys s) (reads s) (peak s))
| Step_reader t p :
    read_step (term s) (reader s) = Some (t, p) -> session_step s (mk_session (kbd s) t p (size s) (keys s) (reads s) (peak s))
| Step_return got :
    reader s = RDone got -> session_step s (mk_session (kbd s) (term s) RIdle (size s) (keys s) (reads s ++ [(size s, got)]) (peak s)).

Definition session_init (scr : screen_t) : session := mk_session keyboard_init (tty_init scr) RIdle 0 [] [] 0.

Inductive reachable (scr : screen_t) : session -> Prop :=
| Reach_init : reachable scr (session_init scr)
| Reach_step s s' : reachable scr s -> session_step s s' -> reachable scr s'.

(** What [read] may return: at most [size] characters, fewer only if they end with a newline, and a
    newline nowhere else. *)
Definition read_result (size : Z) (got : list Z) : Prop :=
  exists l, (10 ∉ l) /\ (got = l /\ zlen l = Z.max size 0 \/ got = l ++ [10] /\ zlen l < size).

(** ** The ring holds what is typed and not yet read *)
Record rep (t : tty) (read unread line : list Z) : Prop := {
  rp_read : m_read_index t = u32 (zlen read);
  rp_write : m_write_index t = u32 (zlen (read ++ unread));
  rp_edit : m_edit_index t = u32 (zlen (read ++ unread ++ line));
  rp_size : zlen (m_buffer t) = BUFFER_SIZE;
  rp_cells : forall i x, zlen read <= i -> zget (read ++ unread ++ line) i = Some x -> zget (m_buffer t) (i mod BUFFER_SIZE) = Some x;
  rp_room : zlen (unread ++ line) <= BUFFER_SIZE
}.

Section Ring.
Implicit Types (t : tty) (read unread line : list Z).

Lemma zlen_one {A} (x : A) : zlen [x] = 1.
Proof. reflexivity. Qed.

Lemma index_mod n : u32 n mod BUFFER_SIZE = n mod BUFFER_SIZE.
Proof. unfold u32, BUFFER_SIZE. change (2 ^ 32) with (1024 * 4194304). rewrite Z.rem_mul_r by lia. rewrite (Z.mul_comm 1024), Z.mod_add, Z.mod_mod by lia. reflexivity. Qed.

Lemma u32_diff a b : 0 <= b - a < 2 ^ 32 -> u32 (u32 b - u32 a) = b - a.
Proof. intros H. unfold u32 in *. rewrite <- Zminus_mod. apply Z.mod_small. exact H. Qed.

Lemma u32_step a k : u32 (u32 a + k) = u32 (a + k).
Proof. unfold u32. rewrite Zplus_mod_idemp_l. reflexivity. Qed.

Lemma u32_eq_iff a b : a <= b < a + 2 ^ 32 -> (u32 a =? u32 b) = (a =? b).
Proof.
  intros H. destruct (a =? b) eqn:E; tests; [subst; apply Z.eqb_refl|]. apply Z.eqb_neq. intros Q.
  pose proof (u32_diff a b ltac:(lia)) as D. rewrite Q, Z.sub_diag in D. change (u32 0) with 0 in D. lia.
Qed.

Lemma mod_apart i j : 0 <= j - i < BUFFER_SIZE -> i mod BUFFER_SIZE = j mod BUFFER_SIZE -> i = j.
Proof.
  intros H E. pose proof (Zminus_mod j i BUFFER_SIZE) as D. rewrite E, Z.sub_diag, Z.mod_small in D by exact H. change (0 mod BUFFER_SIZE) with 0 in D. lia.
Qed.

(** Two states with the same ring hold the same. *)
Lemma rep_same t t' read unread line : m_read_index t' = m_read_index t -> m_write_index t' = m_write_index t ->
  m_edit_index t' = m_edit_index t -> m_buffer t' = m_buffer t -> rep t read unread line -> rep t' read unread line.
Proof. intros E1 E2 E3 E4 [R W E S C M]. split; rewrite ?E1, ?E2, ?E3, ?E4; auto. Qed.

Lemma put_edit_rep t read unread line ch : rep t read unread line -> zlen (unread ++ line) < BUFFER_SIZE ->
  rep (put_edit t ch) read unread (line ++ [ch]).
Proof.
  intros [R W E S C M] H. split; cbn [put_edit m_read_index m_write_index m_edit_index m_buffer]; auto.
  - rewrite E, u32_step. f_equal. rewrite !zlen_app, zlen_one. lia.
  - unfold zlen in *. rewrite zset_length. exact S.
  - rewrite E, index_mod. intros i x Hi. rewrite !(app_assoc _ _ [ch]), zget_app. intros Hx.
    assert (B : 0 <= zlen (read ++ unread ++ line) mod BUFFER_SIZE < BUFFER_SIZE) by (apply Z.mod_pos_bound; reflexivity).
    case_decide as D.
    + rewrite zget_zset_ne; [apply (C i x Hi Hx) | apply Z.mod_pos_bound; reflexivity|].
      intros Q. symmetry in Q. apply mod_apart in Q; [lia|]. rewrite !zlen_app in *. pose proof (zlen_nonneg read). lia.
    + assert (i = zlen (read ++ unread ++ line)) as ->.
      { apply zget_Some_range in Hx. rewrite zlen_one in Hx. lia. }
      rewrite Z.sub_diag in Hx. injection Hx as <-. apply zget_zset_eq. rewrite S. exact B.
  - rewrite app_assoc, zlen_app, zlen_one. lia.
Qed.

(** Taking the last character of the line away. *)
Lemma shorten_rep t read unread line x : rep t read unread (line ++ [x]) ->
  rep (mk_tty (con t) (m_read_index t) (m_write_index t) (u32 (m_edit_index t - 1)) (m_buffer t) (queued t) (ready t)) read unread line.
Proof.
  intros [R W E S C M]. split; cbn [m_read_index m_write_index m_edit_index m_buffer]; auto.
  - rewrite E. rewrite <- Z.add_opp_r, u32_step. f_equal. rewrite !zlen_app, zlen_one. lia.
  - intros i y Hi Hy. apply (C i y Hi). rewrite !(app_assoc _ _ [x]), zget_app.
    rewrite decide_True; [exact Hy|]. apply zget_Some_range in Hy. lia.
  - rewrite app_assoc, zlen_app, zlen_one in M. lia.
Qed.

(** Handing the line over. *)
Lemma commit_rep t read unread line : rep t read unread line ->
  rep (mk_tty (con t) (m_read_index t) (m_edit_index t) (m_edit_index t) (m_buffer t) (queued t) (ready t)) read (unread ++ line) [].
Proof.
  intros [R W E S C M]. split; cbn [m_read_index m_write_index m_edit_index m_buffer]; rewrite ?app_nil_r; auto.
Qed.

Lemma line_empty t read unread line : rep t read unread line -> (m_edit_index t =? m_write_index t) = (zlen line =? 0).
Proof.
  intros [R W E S C M]. rewrite W, E, Z.eqb_sym, app_assoc, (zlen_app (read ++ unread)). rewrite zlen_app in M.
  pose proof (zlen_nonneg line). pose proof (zlen_nonneg unread). unfold BUFFER_SIZE in M. rewrite u32_eq_iff by lia. lia.
Qed.

(** What [input] does to the line is what the key does to it in the specification. *)
Lemma input_rep t read unread line ch : rep t read unread line -> ch = 8 \/ zlen (unread ++ line) < BUFFER_SIZE ->
  exists more line', edit_key (read ++ unread, line) ch = (read ++ (unread ++ more), line') /\ rep (input t ch) read (unread ++ more) line' /\
  (ready (input t ch) = true -> ready t = true \/ unread ++ more <> []).
Proof.
  intros I H. unfold input, edit_key. destruct (ch =? 8) eqn:E8; [|destruct (ch =? 10) eqn:E10]; tests.
  - exists []. rewrite app_nil_r, (line_empty t read unread line I). destruct (zlen line =? 0) eqn:Q; tests.
    + exists line. destruct line; [|rewrite zlen_cons in Q; pose proof (zlen_nonneg line); lia].
      rewrite !app_nil_r in *. split; [reflexivity | split; [exact I | auto]].
    + destruct line as [|x l _] using rev_ind; [change (zlen []) with 0 in Q; lia|].
      exists l. rewrite length_app. cbn [length]. replace (length l + 1 - 1)%nat with (length l) by lia.
      rewrite take_app_length. split; [reflexivity|].
      split; [eapply rep_same; [| | | |apply (shorten_rep t read unread l x I)]; reflexivity | auto].
  - subst ch. destruct H as [H|H]; [discriminate H|]. exists (line ++ [10]), []. rewrite ?app_nil_r, ?app_assoc. split; [reflexivity|].
    split.
    + pose proof (commit_rep _ _ _ _ (put_edit_rep t read unread line 10 I H)) as J. rewrite app_assoc in J.
      eapply rep_same; [| | | |exact J]; reflexivity.
    + intros _. right. rewrite <- app_assoc. destruct unread; [destruct line|]; discriminate.
  - destruct H as [H|H]; [congruence|]. exists [], (line ++ [ch]). rewrite !app_nil_r. split; [reflexivity|].
    split; [eapply rep_same; [| | | |apply (put_edit_rep t read unread line ch I H)]; reflexivity | auto].
Qed.

(** A key other than backspace adds one character. *)
Lemma edit_key_grows e k : k <> 8 -> zlen (fst (edit_key e k)) + zlen (snd (edit_key e k)) = zlen (fst e) + zlen (snd e) + 1.
Proof.
  destruct e as [d l]. intros H. unfold edit_key. replace (k =? 8) with false by lia. destruct (k =? 10); cbn [fst snd]; rewrite !zlen_app, ?zlen_one; change (zlen []) with 0; lia.
Qed.

Lemma edit_keys_grow ks : forall e, 8 ∉ ks -> zlen (fst (fold_left edit_key ks e)) + zlen (snd (fold_left edit_key ks e)) = zlen (fst e) + zlen (snd e) + zlen ks.
Proof.
  induction ks as [|k ks IH]; intros e H; cbn [fold_left]; [change (zlen []) with 0; lia|].
  apply not_elem_of_cons in H as [N H]. rewrite (IH _ H), edit_key_grows by congruence. rewrite zlen_cons. lia.
Qed.

Lemma inputs_rep ks : forall t read unread line, rep t read unread line -> ks = [8] \/ 8 ∉ ks ->
  zlen (fst (fold_left edit_key ks (read ++ unread, line))) + zlen (snd (fold_left edit_key ks (read ++ unread, line))) - zlen read <= BUFFER_SIZE ->
  exists more line', fold_left edit_key ks (read ++ unread, line) = (read ++ (unread ++ more), line') /\
  rep (fold_left input ks t) read (unread ++ more) line' /\
  (ready (fold_left input ks t) = true -> ready t = true \/ unread ++ more <> []).
Proof.
  intros t read unread line I [->|N]; [intros _; cbn [fold_left]; apply input_rep; auto|].
  revert t unread line I N. induction ks as [|k ks IH]; intros t unread line I N H.
  - cbn [fold_left]. exists [], line. rewrite app_nil_r. auto.
  - pose proof H as H0. rewrite (edit_keys_grow _ _ N) in H0. cbn [fst snd] in H0. rewrite zlen_app, zlen_cons in H0. pose proof (zlen_nonneg ks).
    cbn [fold_left] in H |- *. apply not_elem_of_cons in N as [N8 N].
    destruct (input_rep t read unread line k I) as (m1 & l1 & E1 & I1 & R1); [right; rewrite zlen_app; lia|].
    rewrite E1 in H |- *. destruct (IH _ _ _ I1 N H) as (m2 & l2 & E2 & I2 & R2).
    exists (m1 ++ m2), l2. rewrite E2, !(app_assoc unread). split; [reflexivity | split; [exact I2|]].
    intros Q. destruct (R2 Q) as [Q1|Q1]; [|right; exact Q1]. destruct (R1 Q1) as [Q2|Q2]; [left; exact Q2|].
    right. destruct (unread ++ m1); [congruence | discriminate].
Qed.

Lemma tab_keys_blank n : forall i t, Forall (eq 32) (tab_keys n i t).
Proof. induction n as [|n IH]; intros i t; cbn [tab_keys]; [constructor|]. destruct (_ <? _); constructor; [reflexivity | apply IH]. Qed.

Lemma edited_kinds t ch : edited t ch = [ch] \/ Forall (eq 32) (edited t ch).
Proof. unfold edited. destruct (ch =? 0); [right; constructor|]. destruct (ch =? 9); [right; apply tab_keys_blank | left; reflexivity]. Qed.

Lemma edited_backspace t ch : edited t ch = [8] \/ 8 ∉ edited t ch.
Proof.
  destruct (edited_kinds t ch) as [->|H].
  - destruct (decide (ch = 8)) as [->|N]; [left; reflexivity|]. right. intros Q. apply list_elem_of_singleton in Q. congruence.
  - right. intros Q. rewrite Forall_forall in H. specialize (H _ Q). discriminate H.
Qed.

Lemma input_queued t ch : queued (input t ch) = queued t.
Proof. unfold input. destruct (ch =? 8); [destruct (_ =? _)|destruct (ch =? 10)]; reflexivity. Qed.

Lemma inputs_queued ks : forall t, queued (fold_left input ks t) = queued t.
Proof. induction ks as [|k ks IH]; intros t; cbn [fold_left]; [reflexivity|]. rewrite IH. apply input_queued. Qed.

(** Blanks finish no line. *)
Lemma blanks_finish_nothing ks : forall e, Forall (eq 32) ks -> fst (fold_left edit_key ks e) = fst e.
Proof. induction ks as [|k ks IH]; intros e H; [reflexivity|]. inversion_clear H. subst. cbn [fold_left]. rewrite IH by assumption. destruct e. reflexivity. Qed.

Lemma tab_loop_inputs n : forall i t, tab_loop n i t = fold_left input (tab_keys n i t) t.
Proof. induction n as [|n IH]; intros i t; cbn [tab_loop tab_keys]; [reflexivity|]. destruct (_ <? _); [apply IH | reflexivity]. Qed.

(** [do_input] passes characters to the line editor. *)
Lemma do_input_inputs t ch : exists t0, do_input t ch = fold_left input (edited t ch) t0 /\
  m_read_index t0 = m_read_index t /\ m_write_index t0 = m_write_index t /\ m_edit_index t0 = m_edit_index t /\ m_buffer t0 = m_buffer t /\ ready t0 = ready t /\ queued t0 = queued t.
Proof.
  unfold do_input, edited. destruct (ch =? 0); [exists t; auto 10|].
  exists (with_con t (with_cursor (con t) HZ true)). cbv zeta. destruct (ch =? 9); [rewrite tab_loop_inputs|]; auto 10.
Qed.
End Ring.

(** ** The invariant of a session *)
(** A read in progress: no newline so far, and [left] characters missing. *)
Definition partial (n left : Z) (got : list Z) : Prop := (10 ∉ got) /\ zlen got + left = n /\ (got = [] \/ 0 <= left).

Definition reader_ok (n : Z) (p : reading) (t : tty) (unread : list Z) : Prop :=
  match p with
  | RIdle => True
  | RTest left got => partial n left got
  | RAdd left got => partial n left got /\ 0 < left
  | RMark left got => partial n left got /\ 0 < left /\ queued t = true
  | RWait left got => partial n left got /\ 0 < left /\ queued t = true /\ (ready t = true -> unread <> [])
  | RTake left got => partial n left got /\ 0 < left /\ unread <> []
  | RDone got => read_result n got
  end.

Definition session_ok (s : session) (unread line : list Z) : Prop :=
  rep (term s) (read_so_far s) unread line /\ edit_keys (keys s) = (read_so_far s ++ unread, line) /\
  reader_ok (size s) (reader s) (term s) unread /\ Forall (fun r => read_result (fst r) (snd r)) (reads s).

Section Session.
Implicit Types (s : session) (t : tty).

(** More to read, and no new wake-up without it, is no harm to the reader. *)
Lemma reader_ok_more n p t t' unread more : queued t' = queued t -> (ready t' = true -> ready t = true \/ unread ++ more <> []) ->
  reader_ok n p t unread -> reader_ok n p t' (unread ++ more).
Proof.
  intros Q H. assert (G : unread <> [] -> unread ++ more <> []) by (destruct unread; [congruence | discriminate]).
  destruct p; cbn [reader_ok]; rewrite ?Q; intuition.
Qed.

Lemma press_eq s code : exists ch k, press s code = mk_session k (do_input (term s) ch) (reader s) (size s) (keys s ++ edited (term s) ch) (reads s)
  (Z.max (peak s) (behind (keys s ++ edited (term s) ch) (read_so_far s))).
Proof. unfold press, do_irq. destruct (keyboard_irq (kbd s) code) as [ch k]. eauto. Qed.

Lemma key_step_ok s unread line code : session_ok s unread line -> peak (press s code) <= BUFFER_SIZE ->
  exists unread' line', session_ok (press s code) unread' line'.
Proof.
  destruct (press_eq s code) as (ch & k & ->). intros (I & E & P & F) H. cbn [peak] in H.
  assert (B : behind (keys s ++ edited (term s) ch) (read_so_far s) <= BUFFER_SIZE) by lia. unfold behind, edit_keys in B. rewrite fold_left_app in B. fold (edit_keys (keys s)) in B. rewrite E in B.
  destruct (do_input_inputs (term s) ch) as (t0 & D & E1 & E2 & E3 & E4 & E5 & E6).
  pose proof (rep_same _ t0 _ _ _ E1 E2 E3 E4 I) as I0.
  destruct (inputs_rep _ _ _ _ _ I0 (edited_backspace (term s) ch) B) as (more & line' & K & J & R). rewrite E5 in R.
  exists (unread ++ more), line'. unfold session_ok, read_so_far. cbn [kbd term reader size keys reads]. fold (read_so_far s). rewrite D.
  repeat split; try apply J; try assumption.
  - unfold edit_keys in *. rewrite fold_left_app, E. exact K.
  - eapply reader_ok_more; [rewrite inputs_queued; exact E6 | exact R | exact P].
Qed.

(** A newline wakes the reader that is in the wait queue. *)
Lemma newline_wakes s code : queued (term s) = true -> fst (edit_keys (keys (press s code))) <> fst (edit_keys (keys s)) ->
  ready (term (press s code)) = true.
Proof.
  destruct (press_eq s code) as (ch & k & ->). cbn [keys term]. intros Q. unfold edit_keys. rewrite fold_left_app. fold (edit_keys (keys s)). intros H.
  destruct (do_input_inputs (term s) ch) as (t0 & D & _ & _ & _ & _ & _ & E6). rewrite D.
  destruct (edited_kinds (term s) ch) as [K|K]; [|destruct H; apply (blanks_finish_nothing _ _ K)].
  rewrite K in H |- *. cbn [fold_left] in H |- *. destruct (edit_keys (keys s)) as [d l]. cbn [fst edit_key] in H.
  destruct (ch =? 8) eqn:E8; [destruct H; reflexivity|]. destruct (ch =? 10) eqn:E10; [|destruct H; reflexivity].
  unfold input. rewrite E8, E10. cbv zeta. cbn [echo with_con wakeup_reader put_edit ready queued]. rewrite E6, Q. reflexivity.
Qed.

Lemma elem_snoc (l : list Z) c : 10 ∉ l -> c <> 10 -> 10 ∉ l ++ [c].
Proof. intros H N Q. apply elem_of_app in Q as [Q|Q]; [auto|]. apply list_elem_of_singleton in Q. congruence. Qed.

(** Taking a character out of the ring. *)
Lemma take_rep t read c unread line : rep t read (c :: unread) line ->
  default 0 (zget (m_buffer t) (m_read_index t mod BUFFER_SIZE)) = c /\
  rep (mk_tty (con t) (u32 (m_read_index t + 1)) (m_write_index t) (m_edit_index t) (m_buffer t) (queued t) (ready t)) (read ++ [c]) unread line.
Proof.
  intros [R W E S C M].
  assert (A : (read ++ [c]) ++ unread ++ line = read ++ (c :: unread) ++ line) by (rewrite <- app_assoc; reflexivity).
  assert (A' : (read ++ [c]) ++ unread = read ++ (c :: unread)) by (rewrite <- app_assoc; reflexivity).
  split.
  - rewrite R, index_mod, (C (zlen read) c); [reflexivity | lia|].
    rewrite zget_app, decide_False by lia. rewrite Z.sub_diag. reflexivity.
  - split; cbn [m_read_index m_write_index m_edit_index m_buffer]; rewrite ?A, ?A'; auto.
    + rewrite R, u32_step, zlen_app, zlen_one. reflexivity.
    + intros i x Hi. apply C. rewrite zlen_app, zlen_one in Hi. lia.
    + change ((c :: unread) ++ line) with (c :: unread ++ line) in M. rewrite zlen_cons in M. lia.
Qed.

Lemma take_step_ok s left got unread line t p : session_ok s unread line -> reader s = RTake left got ->
  read_step (term s) (RTake left got) = Some (t, p) ->
  exists unread' line', session_ok (mk_session (kbd s) t p (size s) (keys s) (reads s) (peak s)) unread' line'.
Proof.
  intros (I & E & P & F) Hr. rewrite Hr in P. destruct P as ((P1 & P2 & P3) & P4 & P5).
  unfold read_so_far in *. rewrite Hr in *. cbn [got_of] in *.
  destruct unread as [|c unread]; [congruence|]. destruct (take_rep _ _ _ _ _ I) as [Hc J].
  cbn [read_step]. rewrite Hc. clear Hc. intros H. exists unread, line. unfold session_ok, read_so_far. cbn [kbd term reader size keys reads].
  assert (E' : edit_keys (keys s) = ((concat (map snd (reads s)) ++ got ++ [c]) ++ unread, line)).
  { rewrite E. f_equal. rewrite <- !app_assoc. reflexivity. }
  rewrite <- app_assoc in J. destruct (c =? 10) eqn:Ec; tests; injection H as <- <-; cbn [got_of reader_ok].
  - subst c. repeat split; try apply J; try assumption. exists got. split; [exact P1|]. right. split; [reflexivity | lia].
  - repeat split; try apply J; try assumption; [apply elem_snoc; assumption | rewrite zlen_app, zlen_one; lia | right; lia].
Qed.

Lemma test_empty t read unread line : rep t read unread line -> (m_read_index t =? m_write_index t) = (zlen unread =? 0).
Proof.
  intros [R W E S C M]. rewrite R, W, zlen_app. rewrite zlen_app in M.
  pose proof (zlen_nonneg line). pose proof (zlen_nonneg unread). unfold BUFFER_SIZE in M. rewrite u32_eq_iff by lia. lia.
Qed.

Lemma reader_step_ok s unread line t p : session_ok s unread line -> read_step (term s) (reader s) = Some (t, p) ->
  exists unread' line', session_ok (mk_session (kbd s) t p (size s) (keys s) (reads s) (peak s)) unread' line'.
Proof.
  intros O H. pose proof O as (I & E & P & F). destruct (reader s) as [|left got|left got|left got|left got|left got|got] eqn:Hr; try discriminate H.
  5:{ eapply take_step_ok; [exact O | exact Hr | exact H]. }
  all: unfold read_so_far in *; rewrite Hr in *; cbn [got_of read_step reader_ok] in *; exists unread, line; unfold session_ok, read_so_far; cbn [kbd term reader size keys reads].
  - destruct (0 <? left) eqn:El; tests.
    + rewrite (test_empty _ _ _ _ I) in H. destruct (zlen unread =? 0) eqn:Eu; tests; injection H as <- <-; cbn [got_of reader_ok]; repeat split; try apply I; try apply P; try assumption.
      intros ->. apply Eu. reflexivity.
    + injection H as <- <-. cbn [got_of reader_ok]. repeat split; try apply I; try assumption.
      destruct P as (P1 & P2 & P3). exists got. split; [exact P1|]. left. split; [reflexivity|]. pose proof (zlen_nonneg got). destruct P3 as [->|]; [change (zlen []) with 0 in *; lia|lia].
  - injection H as <- <-. cbn [got_of reader_ok]. repeat split; try apply I; try apply P; assumption.
  - injection H as <- <-. cbn [got_of reader_ok with_sleep ready]. repeat split; try apply I; try apply P; try assumption. discriminate.
  - destruct (ready (term s)) eqn:Er; [|discriminate H]. injection H as <- <-. cbn [got_of reader_ok].
    repeat split; try apply I; try apply P; try assumption. reflexivity.
Qed.

Lemma session_step_ok s s' unread line : session_ok s unread line -> session_step s s' -> peak s' <= BUFFER_SIZE ->
  exists unread' line', session_ok s' unread' line'.
Proof.
  intros O H B. destruct H as [code|e|n Hi|t p Hs|got Hd].
  - eapply key_step_ok; eassumption.
  - exists unread, line. destruct O as (I & E & P & F). split; [|auto].
    eapply rep_same; [| | | |exact I]; reflexivity.
  - exists unread, line. destruct O as (I & E & P & F). unfold session_ok, read_so_far in *. rewrite Hi in *. cbn [got_of reader kbd term size keys reads reader_ok] in *.
    repeat split; try apply I; try assumption; [inversion 1 | left; reflexivity].
  - eapply reader_step_ok; eassumption.
  - exists unread, line. destruct O as (I & E & P & F). unfold session_ok, read_so_far in *. rewrite Hd in *. cbn [got_of reader kbd term size keys reads reader_ok] in *.
    rewrite map_app, concat_app. cbn [map concat snd]. rewrite !app_nil_r. split; [exact I | split; [exact E | split; [exact Logic.I|]]].
    apply Forall_app. split; [exact F | constructor; [exact P | constructor]].
Qed.

Lemma session_init_ok scr : session_ok (session_init scr) [] [].
Proof.
  unfold session_ok, session_init, read_so_far. cbn. split; [|auto]. split; try reflexivity; [|vm_compute; discriminate].
  intros i x _ H. apply zget_Some_range in H. change (zlen _) with 0 in H. lia.
Qed.

Lemma peak_grows s s' : session_step s s' -> peak s <= peak s'.
Proof. intros H. destruct H; cbn [peak]; try lia. destruct (press_eq s code) as (ch & k & ->). cbn [peak]. lia. Qed.

Lemma session_reachable_ok scr s : reachable scr s -> peak s <= BUFFER_SIZE -> exists unread line, session_ok s unread line.
Proof.
  induction 1 as [|s s' _ IH St]; intros B; [exists [], []; apply session_init_ok|].
  pose proof (peak_grows _ _ St). destruct (IH ltac:(lia)) as (u & l & O). eapply session_step_ok; eassumption.
Qed.

(** A reader that has gone to sleep is woken by the step that finishes a line. *)
Lemma sleeper_is_woken s s' unread line left got : session_ok s unread line -> reader s = RWait left got -> session_step s s' ->
  fst (edit_keys (keys s')) <> fst (edit_keys (keys s)) -> ready (term s') = true.
Proof.
  intros (_ & _ & P & _) Hr. rewrite Hr in P. destruct P as (_ & _ & Q & _). intros H N.
  destruct H as [code|e|n Hi|t p Hs|g Hd]; cbn [keys] in N; try congruence. apply newline_wakes; assumption.
Qed.

(** ** Reading a line that is there *)
Fixpoint read_steps (n : nat) (t : tty) (p : reading) : option (tty * reading) :=
  match n with
  | O => Some (t, p)
  | S k => match read_step t p with Some (t, p) => read_steps k t p | None => None end
  end.

Lemma read_steps_line l : forall t read got rest line left, 10 ∉ l -> zlen l < left -> rep t read (l ++ 10 :: rest) line ->
  exists t', read_steps (2 * (length l + 1)) t (RTest left got) = Some (t', RDone (got ++ l ++ [10])).
Proof.
  induction l as [|c l IH]; intros t read got rest line left N Hl I.
  - change (zlen []) with 0 in Hl. change (2 * (length [] + 1))%nat with 2%nat. cbn [read_steps read_step app].
    replace (0 <? left) with true by lia. rewrite (test_empty _ _ _ _ I), zlen_app. cbn [app] in *.
    pose proof (zlen_nonneg rest). rewrite zlen_cons. change (zlen []) with 0. replace (0 + (zlen rest + 1) =? 0) with false by lia.
    cbn [read_step]. rewrite (proj1 (take_rep _ _ _ _ _ I)). cbn. eauto.
  - rewrite zlen_cons in Hl. pose proof (zlen_nonneg l). replace (2 * (length (c :: l) + 1))%nat with (S (S (2 * (length l + 1)))) by (cbn; lia).
    cbn [read_steps read_step]. replace (0 <? left) with true by lia.
    rewrite (test_empty _ _ _ _ I). cbn [app] in *. rewrite zlen_cons. pose proof (zlen_nonneg (l ++ 10 :: rest)). replace (_ =? 0) with false by lia.
    destruct (take_rep _ _ _ _ _ I) as [Hc J]. cbn [read_step]. rewrite Hc.
    replace (c =? 10) with false by (symmetry; apply Z.eqb_neq; intros ->; apply N; left).
    destruct (IH _ _ (got ++ [c]) _ _ (left - 1) ltac:(intros Q; apply N; right; exact Q) ltac:(lia) J) as [t' Q].
    exists t'. rewrite Q, <- app_assoc. reflexivity.
Qed.

(** C31: whatever scan codes arrive, whatever is written to the screen meanwhile and wherever the
    reading process is interrupted, as long as there have never been more than 1024 characters typed
    and not yet read (the code does not check, [typing_ahead_overwrites]): what the reads have
    returned so far is the beginning of the lines that were typed, edited with the backspace key,
    in order and without loss; the rest of them is still to be read; each finished read has
    stopped at a newline or at the size asked for; a read that begins when a complete line
    is there returns that line within as many steps as it needs to take its characters; and a reader
    that has gone to sleep is made ready by the key that finishes a line.  A newline that comes while
    the reader is on its way to sleep does not wake it ([lost_wake_up]). *)
Theorem typed_lines_are_read (scr : screen_t) (s : session) (R : reachable scr s) (B : peak s <= BUFFER_SIZE) :
  exists unread line,
    edit_keys (keys s) = ((concat (map snd (reads s)) ++ got_of (reader s)) ++ unread, line) /\
    Forall (fun r => read_result (fst r) (snd r)) (reads s) /\
    (forall n l rest, reader s = RTest n [] -> unread = l ++ 10 :: rest -> 10 ∉ l -> zlen l < n ->
     exists t, read_steps (2 * (length l + 1)) (term s) (reader s) = Some (t, RDone (l ++ [10]))) /\
    (forall left got s', reader s = RWait left got -> session_step s s' ->
     fst (edit_keys (keys s')) <> fst (edit_keys (keys s)) -> ready (term s') = true).
Proof.
  destruct (session_reachable_ok scr s R B) as (unread & line & O). pose proof O as (I & E & P & F).
  exists unread, line. split; [exact E | split; [exact F | split]].
  - intros n l rest Hr -> N Hl. rewrite Hr. apply (read_steps_line l _ _ [] rest line n N Hl I).
  - intros left got s' Hr. exact (sleeper_is_woken s s' unread line left got O Hr).
Qed.
End Session.

(** ** Sessions that are run *)

(** A step of the reader, and the beginning of a read. *)
Definition proceed (s : session) : session :=
  match read_step (term s) (reader s) with
  | Some (t, p) => mk_session (kbd s) t p (size s) (keys s) (reads s) (peak s)
  | None => s
  end.

Definition call (s : session) (n : Z) : session := mk_session (kbd s) (term s) (RTest n []) n (keys s) (reads s) (peak s).

Lemma press_reachable scr s code : reachable scr s -> reachable scr (press s code).
Proof. intros R. eapply Reach_step; [exact R | apply Step_key]. Qed.

Lemma proceed_reachable scr s : reachable scr s -> reachable scr (proceed s).
Proof.
  intros R. unfold proceed. destruct (read_step (term s) (reader s)) as [[t p]|] eqn:E; [|exact R].
  eapply Reach_step; [exact R | apply Step_reader, E].
Qed.

Lemma call_reachable scr s n : reachable scr s -> reader s = RIdle -> reachable scr (call s n).
Proof. intros R E. eapply Reach_step; [exact R | apply Step_call, E]. Qed.

Definition typed_session : session := call (fold_left press [30; 158; 48; 176; 14; 142; 46; 28] (session_init demo_screen)) 10.

Lemma typed_session_reachable : reachable demo_screen typed_session.
Proof.
  apply call_reachable; [|reflexivity]. cbn [fold_left].
  repeat apply press_reachable. constructor.
Qed.

(** The keys a, b, backspace, c, enter: the line is [ac], and the read that begins returns it. *)
Lemma typed_lines_are_read_witness :
  reachable demo_screen typed_session /\ peak typed_session = 3 /\ edit_keys (keys typed_session) = ([97; 99; 10], []) /\
  exists t, read_steps 6 (term typed_session) (reader typed_session) = Some (t, RDone [97; 99; 10]).
Proof.
  split; [exact typed_session_reachable|]. assert (B : peak typed_session = 3) by (vm_compute; reflexivity). split; [exact B|].
  assert (K : edit_keys (keys typed_session) = ([97; 99; 10], [])) by (vm_compute; reflexivity).
  split; [exact K|]. destruct (typed_lines_are_read demo_screen typed_session typed_session_reachable) as (unread & line & E & _ & P & _).
  { rewrite B. discriminate. }
  rewrite K in E. cbn [reads reader got_of map concat app call typed_session] in E.
  assert (U : unread = [97; 99] ++ 10 :: []) by (injection E as <- _; reflexivity).
  apply (P 10 [97; 99] [] eq_refl U); [|reflexivity].
  intros Q. apply list_elem_of_In in Q. cbn in Q. intuition discriminate.
Defined.

(** ** What goes wrong *)

(** The wake-up is lost when the newline comes between the test of [read] and the entry in the wait queue:
    the reader then sleeps although a line is there. *)
Lemma lost_wake_up : exists s, reachable demo_screen s /\ reader s = RWait 10 [] /\ read_step (term s) (reader s) = None /\
  edit_keys (keys s) = ([97; 10], []).
Proof.
  exists (proceed (proceed (press (press (proceed (call (session_init demo_screen) 10)) 30) 28))).
  split; [|vm_compute; auto].
  do 2 apply proceed_reachable. do 2 apply press_reachable.
  apply proceed_reachable, call_reachable; [constructor | reflexivity].
Qed.

(** A tab at the start of a line enters two blanks, because the bound of its loop is computed anew
    after each of them was echoed. *)
Lemma tab_enters_two_blanks : edited (tty_init (mk_screen 1048576 65536 128 32 3 demo_memory)) 9 = [32; 32].
Proof. vm_compute. reflexivity. Qed.

(** Without room, a character overwrites the oldest unread one. *)
Lemma typing_ahead_overwrites (t : tty) (read unread line : list Z) (ch : Z) : rep t read unread line ->
  zlen (unread ++ line) = BUFFER_SIZE ->
  zget (m_buffer (put_edit t ch)) (m_read_index (put_edit t ch) mod BUFFER_SIZE) = Some ch.
Proof.
  intros [R W E S C M] H. cbn [put_edit m_buffer m_read_index]. rewrite R, E, !index_mod, zlen_app, H.
  replace ((zlen read + BUFFER_SIZE) mod BUFFER_SIZE) with (zlen read mod BUFFER_SIZE) by (unfold BUFFER_SIZE; divlia).
  apply zget_zset_eq. rewrite S. apply Z.mod_pos_bound. reflexivity.
Qed.
