(* ===== verification/MpConfig.v ===== *)
(** * The processors of the machine (src/src/mp_config.cc, arch.cc)

    The firmware describes the processors in a table that a floating pointer structure
    designates; the structure is searched for in memory by its signature and checksum
    ([find_floating_pointer]), the table is checked ([find_config_table]) and its entries
    are read one after the other ([parse_config_entries]), those of processors going to
    [arch_t::add_processor].  Memory is by the byte, at kernel virtual addresses; the
    addresses of the two signature literals are arguments. *)
From Stdlib Require Import ZArith ZifyBool Lia.
From stdpp Require Import base option list.
From S2P Require Import Prelude CString Buddy.

Definition MAX_CPU_NUM : Z := 8.
Definition SIZEOF_FLOATING_POINTER : Z := 16.
Definition SIZEOF_HEADER : Z := 44.
Definition SIZEOF_PROCESSOR_ENTRY : Z := 20.
Definition SIZEOF_OTHER_ENTRY : Z := 8.

(** The bytes from [a] on. *)
Fixpoint bytes_from (n : nat) (m : mem) (a : Z) : list Z :=
  match n with
  | O => []
  | S k => m a :: bytes_from k m (a + 1)
  end.

Definition read16 (m : mem) (a : Z) : Z := le_value (bytes_from 2 m a).
Definition read32 (m : mem) (a : Z) : Z := le_value (bytes_from 4 m a).

(** ** Processors ([arch_t]) *)

(** [cpu_t] as far as it is filled in here. *)
Record cpu := mk_cpu { cpu_apic_id : Z; cpu_is_bsp : Z }.

Record arch := mk_arch {
  m_cpu : list cpu;              (* the first [m_cpu_num] elements *)
  m_boot_processor : option Z    (* its index in [m_cpu] *)
}.

Definition m_cpu_num (a : arch) : Z := zlen (m_cpu a).

Definition add_processor (a : arch) (id is_bsp : Z) : arch :=
  if m_cpu_num a <? MAX_CPU_NUM then
    mk_arch (m_cpu a ++ [mk_cpu id is_bsp]) (if is_bsp =? 0 then m_boot_processor a else Some (m_cpu_num a))
  else a.

Definition get_cpu (a : arch) (id : Z) : option cpu := if m_cpu_num a <=? id then None else zget (m_cpu a) id.

(** [get_current_cpu] for the processor whose local APIC answers [id]. *)
Fixpoint find_apic (l : list cpu) (id i : Z) : option Z :=
  match l with
  | [] => None
  | c :: r => if cpu_apic_id c =? id then Some i else find_apic r id (i + 1)
  end.

Definition get_current_cpu (a : arch) (id : Z) : option Z := find_apic (m_cpu a) id 0.

(** ** [mp_config_t] *)

Fixpoint check_sum_loop (n : nat) (m : mem) (p : Z) (sum : Z) : Z :=
  match n with
  | O => sum
  | S k => check_sum_loop k m (p + 1) (u8 (sum + m p))
  end.

Definition check_sum (m : mem) (addr len : Z) : Z := check_sum_loop (Z.to_nat len) m addr 0.

Section mp_config.
(** Where the literals ["_MP_"] and ["PCMP"] are. *)
Variables sig_mp sig_pcmp : Z.

(** The loop over paragraphs of sixteen bytes. *)
Fixpoint find_loop (fuel : nat) (m : mem) (p e : Z) : Z :=
  match fuel with
  | O => NULL
  | S k =>
      if p <? e then
        if negb (strncmp m p sig_mp 4 =? 0) then find_loop k m (p + SIZEOF_FLOATING_POINTER) e
        else if check_sum m p SIZEOF_FLOATING_POINTER =? 0 then p
        else find_loop k m (p + SIZEOF_FLOATING_POINTER) e
      else NULL
  end.

Definition find_floating_pointer_in (m : mem) (paddr len : Z) : Z :=
  let va := PA2VA paddr in
  find_loop (S (Z.to_nat (len / SIZEOF_FLOATING_POINTER))) m va (va + len).

Definition find_floating_pointer (m : mem) : Z :=
  let bios_data_area := PA2VA 0x400 in
  let extended_bios_data_area := Z.shiftl (read16 m (bios_data_area + 0x0e)) 4 in
  let fp := if negb (extended_bios_data_area =? 0)
            then find_floating_pointer_in m extended_bios_data_area 1024
            else find_floating_pointer_in m (read16 m (bios_data_area + 0x13) * 1024) 1024 in
  if negb (fp =? NULL) then fp else find_floating_pointer_in m 0xf0000 0x10000.

(** [m_phy_addr] is at offset 4 of the structure, [m_table_length] at offset 4 of the
    header; the comparison of [PA2VA(m_phy_addr)] with [NULL] is the code's. *)
Definition find_config_table (m : mem) : Z :=
  let fp := find_floating_pointer m in
  if fp =? NULL then NULL
  else let header := PA2VA (read32 m (fp + 4)) in
       if header =? NULL then NULL
       else if negb (strncmp m header sig_pcmp 4 =? 0) then NULL
       else if check_sum m header (read16 m (header + 4)) =? 0 then header else NULL.

(** [None]: the loop goes on after [fuel] rounds.  The default case of the [switch] does
    not move [config]. *)
Fixpoint parse_loop (fuel : nat) (m : mem) (a : arch) (config e : Z) : option arch :=
  if negb (config <? e) then Some a
  else match fuel with
       | O => None
       | S k =>
           let t := m config in
           if t =? 0 then parse_loop k m (add_processor a (m (config + 1)) (Z.land (m (config + 3)) 0x2)) (config + SIZEOF_PROCESSOR_ENTRY) e
           else if (t =? 1) || (t =? 2) || (t =? 3) || (t =? 4) then parse_loop k m a (config + SIZEOF_OTHER_ENTRY) e
           else parse_loop k m a config e
       end.

(** A table has at most 65535 bytes and an entry at least eight. *)
Definition parse_config_entries (m : mem) (a : arch) (header : Z) : option arch :=
  parse_loop (Z.to_nat 8192) m a (header + SIZEOF_HEADER) (header + read16 m (header + 4)).

(** [arch_t::init] up to [m_boot_processor->startup()], which follows a null pointer when
    there is no boot processor. *)
Definition mp_init (m : mem) (a : arch) : option arch :=
  let header := find_config_table m in
  if negb (header =? NULL) then parse_config_entries m a header else Some a.
End mp_config.

Definition arch_init (sig_mp sig_pcmp : Z) (m : mem) : option (outcome (Z * arch)) :=
  match mp_init sig_mp sig_pcmp m (mk_arch [] None) with
  | None => None
  | Some a => Some (let! b := deref (m_boot_processor a) in Done (b, a))
  end.

(** ** Finding the structure *)

Definition MP_SIGNATURE : list Z := [95; 77; 80; 95].
Definition PCMP_SIGNATURE : list Z := [80; 67; 77; 80].

Lemma bytes_from_length n m a : length (bytes_from n m a) = n.
Proof. revert a. induction n as [|n IH]; intros a; [reflexivity|]. cbn. rewrite IH. reflexivity. Qed.

Lemma bytes_from_app n k m a : bytes_from (n + k) m a = bytes_from n m a ++ bytes_from k m (a + Z.of_nat n).
Proof.
  revert a. induction n as [|n IH]; intros a; [cbn; rewrite Z.add_0_r; reflexivity|].
  cbn [Nat.add bytes_from app]. rewrite IH. do 3 f_equal. lia.
Qed.

(** [strncmp] against a literal of [n] characters compares the first [n] bytes. *)
Lemma strncmp_literal m : byte_mem m -> forall t p q, cstr m q t ->
  let '(p1, p2, n') := strncmp_loop (length t) m p q in
  (if n' =? 0 then 0 else s8 (m p1) - s8 (m p2)) = 0 <-> bytes_from (length t) m p = t.
Proof.
  intros Hm. induction t as [|d t IH]; intros p q Hq; cbn [length strncmp_loop bytes_from].
  - cbn in Hq. replace (m q =? 0) with true by lia. rewrite andb_false_r. cbn. tauto.
  - cbn in Hq. destruct Hq as (Eq & Hd & Hq). destruct (negb (m p =? 0) && negb (m q =? 0) && (m p =? m q)) eqn:E.
    + tests. specialize (IH (p + 1) (q + 1) Hq). destruct (strncmp_loop (length t) m (p + 1) (q + 1)) as [[p1 p2] n'].
      rewrite IH. split; [intros ->; congruence|congruence].
    + replace (Z.of_nat (S (length t)) =? 0) with false by lia. rewrite s8_diff_zero by apply Hm.
      split; [intros Epq; exfalso; lia|intros [= Ep _]; exfalso; lia].
Qed.

Lemma signature_test m p q t : byte_mem m -> cstr m q t ->
  (strncmp m p q (zlen t) =? 0) = bool_decide (bytes_from (length t) m p = t).
Proof.
  intros Hm Hq. pose proof (strncmp_literal m Hm t p q Hq) as H. unfold strncmp, zlen in *.
  replace (Z.of_nat (length t) <? 0) with false by lia. rewrite Nat2Z.id.
  destruct (strncmp_loop (length t) m p q) as [[p1 p2] n']. apply eq_true_iff_eq. rewrite bool_decide_eq_true, <- H. lia.
Qed.

Definition byte_sum (bs : list Z) : Z := zsum (fun b => b) bs.

Lemma check_sum_spec m addr len : 0 <= len -> check_sum m addr len = u8 (byte_sum (bytes_from (Z.to_nat len) m addr)).
Proof.
  intros Hl. unfold check_sum. remember (Z.to_nat len) as n. clear.
  assert (G : forall s, 0 <= s < 2 ^ 8 -> check_sum_loop n m addr s = u8 (s + byte_sum (bytes_from n m addr))).
  { revert addr. induction n as [|n IH]; intros addr s Hs; [cbn; rewrite Z.add_0_r, u8_small by exact Hs; reflexivity|].
    cbn [check_sum_loop bytes_from]. rewrite IH by apply u8_range. change (byte_sum (m addr :: bytes_from n m (addr + 1))) with (m addr + byte_sum (bytes_from n m (addr + 1))).
    unfold u8. rewrite Zplus_mod_idemp_l. f_equal. lia. }
  rewrite G by lia. reflexivity.
Qed.

(** A floating pointer structure. *)
Definition is_floating_pointer (m : mem) (p : Z) : Prop :=
  bytes_from 4 m p = MP_SIGNATURE /\ u8 (byte_sum (bytes_from 16 m p)) = 0.

#[export] Instance is_floating_pointer_dec m p : Decision (is_floating_pointer m p).
Proof. unfold is_floating_pointer. apply _. Defined.

Lemma find_loop_spec sig m e : byte_mem m -> cstr m sig MP_SIGNATURE -> forall fuel p k, 0 <= k -> e = p + 16 * k -> k < Z.of_nat fuel ->
  (find_loop sig fuel m p e = NULL /\ forall j, 0 <= j < k -> ~ is_floating_pointer m (p + 16 * j)) \/
  (exists j, 0 <= j < k /\ find_loop sig fuel m p e = p + 16 * j /\ is_floating_pointer m (p + 16 * j) /\
     forall i, 0 <= i < j -> ~ is_floating_pointer m (p + 16 * i)).
Proof.
  intros Hm Hs. induction fuel as [|fuel IH]; intros p k Hk He Hf; [lia|]. cbn [find_loop].
  destruct (p <? e) eqn:Ep; tests; [|left; split; [reflexivity|intros; lia]].
  pose proof (signature_test m p sig MP_SIGNATURE Hm Hs) as T. change (zlen MP_SIGNATURE) with 4 in T. rewrite T. clear T.
  rewrite check_sum_spec by (unfold SIZEOF_FLOATING_POINTER; lia). change (Z.to_nat SIZEOF_FLOATING_POINTER) with 16%nat. change (length MP_SIGNATURE) with 4%nat.
  assert (N : ~ is_floating_pointer m p ->
    (find_loop sig fuel m (p + 16) e = NULL /\ forall j, 0 <= j < k -> ~ is_floating_pointer m (p + 16 * j)) \/
    (exists j, 0 <= j < k /\ find_loop sig fuel m (p + 16) e = p + 16 * j /\ is_floating_pointer m (p + 16 * j) /\
       forall i, 0 <= i < j -> ~ is_floating_pointer m (p + 16 * i))).
  { intros D. destruct (IH (p + 16) (k - 1)) as [[E H]|(j & Hj & E & H & H')]; [lia|lia|lia|left|right].
    - split; [exact E|]. intros j Hj. destruct (Z.eq_dec j 0) as [->|]; [rewrite Z.mul_0_r, Z.add_0_r; exact D|].
      replace (p + 16 * j) with (p + 16 + 16 * (j - 1)) by lia. apply H. lia.
    - exists (j + 1). replace (p + 16 * (j + 1)) with (p + 16 + 16 * j) by lia. split_and!; auto; try lia.
      intros i Hi. destruct (Z.eq_dec i 0) as [->|]; [rewrite Z.mul_0_r, Z.add_0_r; exact D|].
      replace (p + 16 * i) with (p + 16 + 16 * (i - 1)) by lia. apply H'. lia. }
  unfold SIZEOF_FLOATING_POINTER. case_bool_decide as B1; cbn [negb].
  - destruct (u8 (byte_sum (bytes_from 16 m p)) =? 0) eqn:B2; tests.
    + right. exists 0. rewrite Z.mul_0_r, Z.add_0_r. split_and!; auto; try lia. split; assumption.
    + apply N. intros [_ H]. contradiction.
  - apply N. intros [H _]. contradiction.
Qed.

(** ** Reading the entries *)

(** An entry of the table: a processor, or one of the four kinds that are skipped. *)
Inductive mp_entry :=
| Processor (id version flags : Z) (rest : list Z)
| Skipped (type : Z) (rest : list Z).

Definition encode_entry (e : mp_entry) : list Z :=
  match e with
  | Processor id version flags rest => 0 :: id :: version :: flags :: rest
  | Skipped type rest => type :: rest
  end.

Definition entry_ok (e : mp_entry) : Prop :=
  match e with
  | Processor _ _ _ rest => length rest = 16%nat
  | Skipped type rest => 1 <= type <= 4 /\ length rest = 7%nat
  end.

(** The processors the table lists, and those among them that may be used: a processor whose EN bit
    (bit 0 of the flags) is 0 must not be accessed (mp_config.h). *)
Definition listed (es : list mp_entry) : list cpu :=
  omap (fun e => match e with Processor id _ flags _ => Some (mk_cpu id (Z.land flags 2)) | _ => None end) es.

Definition enabled (e : mp_entry) : bool := match e with Processor _ _ flags _ => Z.testbit flags 0 | _ => true end.

Definition processors (es : list mp_entry) : list cpu := listed (filter enabled es).

Lemma all_enabled es : Forall enabled es -> processors es = listed es.
Proof.
  intros H. unfold processors. f_equal. induction H as [|e es He H IH]; [reflexivity|]. rewrite filter_cons. case_decide; [f_equal; exact IH | contradiction].
Qed.

Lemma bytes_from_cons n m a b l : bytes_from n m a = b :: l -> m a = b /\ bytes_from (length l) m (a + 1) = l.
Proof. destruct n as [|n]; [discriminate|]. cbn. intros [= <- <-]. rewrite bytes_from_length. auto. Qed.

Lemma bytes_from_split n m a l1 l2 : bytes_from n m a = l1 ++ l2 ->
  bytes_from (length l1) m a = l1 /\ bytes_from (length l2) m (a + zlen l1) = l2.
Proof.
  intros H. pose proof (f_equal length H) as L. rewrite bytes_from_length, length_app in L. subst n.
  rewrite bytes_from_app in H. apply app_inj_1 in H; [exact H|]. apply bytes_from_length.
Qed.

(** The loop reads every entry and stops at the end. *)
Lemma parse_entries m : forall es a config n fuel, Forall entry_ok es -> bytes_from n m config = concat (encode_entry <$> es) ->
  (length es <= fuel)%nat ->
  parse_loop fuel m a config (config + Z.of_nat n) = Some (foldl (fun a c => add_processor a (cpu_apic_id c) (cpu_is_bsp c)) a (listed es)).
Proof.
  intros es. induction es as [|e es IH]; intros a config n fuel Ho Hb Hf.
  - cbn in Hb. destruct n; [|discriminate]. rewrite Z.add_0_r. destruct fuel; cbn [parse_loop]; replace (config <? config) with false by lia; reflexivity.
  - apply Forall_cons in Ho as [He Ho]. cbn [fmap list_fmap concat] in Hb. destruct fuel as [|fuel]; [cbn in Hf; lia|].
    pose proof (f_equal length Hb) as L. rewrite bytes_from_length, length_app in L.
    apply bytes_from_split in Hb as [Hb1 Hb2]. cbn [parse_loop]. cbn [length] in Hf.
    destruct e as [id version flags rest|type rest]; cbn [encode_entry entry_ok] in *.
    + cbn [length] in L, Hb1. apply bytes_from_cons in Hb1 as [E0 Hb1]. apply bytes_from_cons in Hb1 as [E1 Hb1]. apply bytes_from_cons in Hb1 as [_ Hb1].
      apply bytes_from_cons in Hb1 as [E3 _]. replace (config <? config + Z.of_nat n) with true by lia. cbn [negb]. rewrite E0. cbn [Z.eqb].
      rewrite E1. replace (config + 3) with (config + 1 + 1 + 1) by lia. rewrite E3. unfold SIZEOF_PROCESSOR_ENTRY.
      replace (config + Z.of_nat n) with (config + 20 + Z.of_nat (length (concat (encode_entry <$> es)))) by lia.
      rewrite (IH (add_processor a id (Z.land flags 2)) (config + 20) _ fuel Ho); [reflexivity| |lia].
      unfold zlen in Hb2. cbn [length] in Hb2. rewrite He in Hb2. exact Hb2.
    + destruct He as [Ht Hr]. cbn [length] in L, Hb1. apply bytes_from_cons in Hb1 as [E0 _].
      replace (config <? config + Z.of_nat n) with true by lia. cbn [negb]. rewrite E0. replace (type =? 0) with false by lia.
      replace ((type =? 1) || (type =? 2) || (type =? 3) || (type =? 4)) with true by lia. unfold SIZEOF_OTHER_ENTRY.
      replace (config + Z.of_nat n) with (config + 8 + Z.of_nat (length (concat (encode_entry <$> es)))) by lia.
      rewrite (IH a (config + 8) _ fuel Ho); [reflexivity| |lia].
      unfold zlen in Hb2. cbn [length] in Hb2. rewrite Hr in Hb2. exact Hb2.
Qed.

(** ** The list of processors *)

Definition add_all (a : arch) (l : list cpu) : arch := foldl (fun a c => add_processor a (cpu_apic_id c) (cpu_is_bsp c)) a l.

(** The boot processor is the last one that was marked as such. *)
Definition boot_ok (a : arch) : Prop :=
  match m_boot_processor a with
  | None => forall i c, zget (m_cpu a) i = Some c -> cpu_is_bsp c = 0
  | Some b => (exists c, zget (m_cpu a) b = Some c /\ cpu_is_bsp c <> 0) /\
              forall i c, b < i -> zget (m_cpu a) i = Some c -> cpu_is_bsp c = 0
  end.

Lemma add_processor_boot a id f : boot_ok a -> boot_ok (add_processor a id f).
Proof.
  intros H. unfold add_processor. destruct (m_cpu_num a <? MAX_CPU_NUM); [|exact H].
  assert (G : forall i c, zget (m_cpu a ++ [mk_cpu id f]) i = Some c -> (i < zlen (m_cpu a) /\ zget (m_cpu a) i = Some c) \/ (i = zlen (m_cpu a) /\ c = mk_cpu id f)).
  { intros i c Hc. pose proof (zget_Some_range _ _ _ Hc) as R. rewrite zlen_app in R. change (zlen [mk_cpu id f]) with 1 in R.
    rewrite zget_app in Hc. case_decide as D; [auto|]. right. assert (i = zlen (m_cpu a)) as -> by lia. rewrite Z.sub_diag in Hc. change (Some (mk_cpu id f) = Some c) in Hc. split; congruence. }
  unfold boot_ok, m_cpu_num in *. cbn [m_boot_processor m_cpu]. destruct (f =? 0) eqn:Ef; tests.
  - destruct (m_boot_processor a) as [b|].
    + destruct H as [(c & Hc & Hb) H]. split.
      * exists c. split; [|exact Hb]. rewrite zget_app, decide_True; [exact Hc|]. apply zget_Some_range in Hc. lia.
      * intros i d Hi Hd. apply G in Hd as [[_ Hd]|[_ ->]]; [eauto|exact Ef].
    + intros i d Hd. apply G in Hd as [[_ Hd]|[_ ->]]; [eauto|exact Ef].
  - split; [exists (mk_cpu id f); split; [|exact Ef]|].
    + rewrite zget_app, decide_False by lia. rewrite Z.sub_diag. reflexivity.
    + intros i d Hi Hd. apply G in Hd as [[Hlt _]|[-> _]]; lia.
Qed.

Lemma add_all_boot l : forall a, boot_ok a -> boot_ok (add_all a l).
Proof. induction l as [|c l IH]; intros a H; [exact H|]. apply IH, add_processor_boot, H. Qed.

Lemma add_all_cpus l : forall a, zlen (m_cpu a) <= 8 -> m_cpu (add_all a l) = take 8 (m_cpu a ++ l).
Proof.
  unfold zlen. induction l as [|c l IH]; intros a H; cbn [add_all foldl].
  - rewrite app_nil_r, take_ge by lia. reflexivity.
  - fold (add_all (add_processor a (cpu_apic_id c) (cpu_is_bsp c)) l). destruct c as [id f]. cbn [cpu_apic_id cpu_is_bsp].
    unfold add_processor, m_cpu_num, zlen, MAX_CPU_NUM. destruct (Z.of_nat (length (m_cpu a)) <? 8) eqn:E; tests.
    + rewrite IH by (cbn [m_cpu]; rewrite length_app; cbn; lia). cbn [m_cpu]. rewrite <- app_assoc. reflexivity.
    + rewrite IH by lia. rewrite !take_app_ge by lia. replace (8 - length (m_cpu a))%nat with 0%nat by lia. reflexivity.
Qed.

Lemma find_apic_spec l : forall i k c, NoDup (cpu_apic_id <$> l) -> l !! k = Some c -> find_apic l (cpu_apic_id c) i = Some (i + Z.of_nat k).
Proof.
  induction l as [|d l IH]; intros i [|k] c Hn Hk; try discriminate; cbn [find_apic].
  - injection Hk as ->. rewrite Z.eqb_refl, Z.add_0_r. reflexivity.
  - cbn in Hk. rewrite fmap_cons in Hn. apply NoDup_cons in Hn as [Hd Hn].
    destruct (cpu_apic_id d =? cpu_apic_id c) eqn:E; tests.
    + exfalso. apply Hd. rewrite E. apply list_elem_of_fmap. exists c. split; [reflexivity|]. eapply list_elem_of_lookup_2, Hk.
    + rewrite (IH (i + 1) k c Hn Hk). f_equal. lia.
Qed.

(** ** Where the code looks for the structure *)

Definition first_in (m : mem) (va k p : Z) : Prop :=
  exists j, 0 <= j < k /\ p = va + 16 * j /\ is_floating_pointer m p /\ forall i, 0 <= i < j -> ~ is_floating_pointer m (va + 16 * i).

Definition none_in (m : mem) (va k : Z) : Prop := forall j, 0 <= j < k -> ~ is_floating_pointer m (va + 16 * j).

(** The first area that is searched: the first kilobyte of the extended BIOS data area, or
    what the code takes for the last kilobyte of base memory. *)
Definition first_area (m : mem) : Z :=
  let ebda := Z.shiftl (read16 m (PA2VA 0x400 + 0x0e)) 4 in
  PA2VA (if ebda =? 0 then read16 m (PA2VA 0x400 + 0x13) * 1024 else ebda).

Definition located (m : mem) (p : Z) : Prop :=
  first_in m (first_area m) 64 p \/ (none_in m (first_area m) 64 /\ first_in m (PA2VA 0xf0000) 4096 p).

Lemma read16_range m a : byte_mem m -> 0 <= read16 m a < 65536.
Proof. intros H. unfold read16. cbn [bytes_from le_value]. pose proof (H a). pose proof (H (a + 1)). lia. Qed.

Lemma area_positive m x : byte_mem m -> x = first_area m \/ x = PA2VA 0xf0000 -> 0 < x.
Proof.
  intros Hm [->| ->]; [|reflexivity]. unfold first_area, PA2VA, KERNEL_BASE. rewrite Z.shiftl_mul_pow2 by lia.
  pose proof (read16_range m (u32 (0x400 + 3221225472) + 0x0e) Hm). pose proof (read16_range m (u32 (0x400 + 3221225472) + 0x13) Hm).
  rewrite u32_small; destruct (_ =? 0); lia.
Qed.

Lemma find_in_spec sig m paddr len : byte_mem m -> cstr m sig MP_SIGNATURE -> 0 <= len -> len mod 16 = 0 ->
  (find_floating_pointer_in sig m paddr len = NULL /\ none_in m (PA2VA paddr) (len / 16)) \/
  first_in m (PA2VA paddr) (len / 16) (find_floating_pointer_in sig m paddr len).
Proof.
  intros Hm Hs Hl Hd. unfold find_floating_pointer_in, SIZEOF_FLOATING_POINTER.
  destruct (find_loop_spec sig m (PA2VA paddr + len) Hm Hs (S (Z.to_nat (len / 16))) (PA2VA paddr) (len / 16)) as [[E H]|(j & Hj & E & H & H')];
    [divlia..|left; split; assumption|right]. exists j. rewrite E. auto.
Qed.

(** The search finds the first structure, area by area, or nothing if there is none. *)
Lemma find_floating_pointer_spec sig m : byte_mem m -> cstr m sig MP_SIGNATURE ->
  (find_floating_pointer sig m = NULL /\ none_in m (first_area m) 64 /\ none_in m (PA2VA 0xf0000) 4096) \/
  (find_floating_pointer sig m <> NULL /\ located m (find_floating_pointer sig m)).
Proof.
  intros Hm Hs. pose proof (area_positive m (first_area m) Hm (or_introl eq_refl)) as P1. pose proof (area_positive m (PA2VA 0xf0000) Hm (or_intror eq_refl)) as P2.
  unfold find_floating_pointer, located. set (ebda := Z.shiftl _ 4). set (fp := if negb (ebda =? 0) then _ else _).
  assert (F : (fp = NULL /\ none_in m (first_area m) 64) \/ first_in m (first_area m) 64 fp).
  { unfold fp, first_area. fold ebda. destruct (ebda =? 0); cbn [negb]; apply (find_in_spec sig m _ 1024); auto; lia. }
  destruct F as [[E H]|F].
  - rewrite E. cbn [negb]. change (NULL =? NULL) with true. cbn [negb].
    destruct (find_in_spec sig m 0xf0000 0x10000 Hm Hs) as [[E2 H2]|F2]; [lia|reflexivity|left; auto|right].
    split; [|right; split; [exact H|exact F2]]. destruct F2 as (j & Hj & -> & _). unfold NULL. lia.
  - right. assert (fp <> NULL) by (destruct F as (j & Hj & -> & _); unfold NULL; lia).
    replace (negb (fp =? NULL)) with true by lia. auto.
Qed.

Lemma first_in_unique m va k p q : first_in m va k p -> first_in m va k q -> p = q.
Proof.
  intros (i & Hi & -> & Hp & Bp) (j & Hj & -> & Hq & Bq). destruct (Z.lt_total i j) as [H|[->|H]]; [|reflexivity|].
  - exfalso. apply (Bq i); [lia|exact Hp].
  - exfalso. apply (Bp j); [lia|exact Hq].
Qed.

Lemma located_unique m p q : located m p -> located m q -> p = q.
Proof.
  intros [Hp|[Np Hp]] [Hq|[Nq Hq]]; try (eapply first_in_unique; eassumption); exfalso;
    [destruct Hp as (j & Hj & -> & Hf & _); apply (Nq j)|destruct Hq as (j & Hj & -> & Hf & _); apply (Np j)]; assumption.
Qed.

(** *** Where the specification says that the structure is

    In the first kilobyte of the extended BIOS data area, in the last kilobyte of base memory if there is
    no such area, or in the BIOS ROM, in this order (mp_config.h). *)
Definition ebda (m : mem) : Z := Z.shiftl (read16 m (PA2VA 0x400 + 0x0e)) 4.
Definition base_memory (m : mem) : Z := read16 m (PA2VA 0x400 + 0x13) * 1024.

Definition documented (m : mem) (p : Z) : Prop :=
  let area := PA2VA (if ebda m =? 0 then base_memory m - 1024 else ebda m) in
  first_in m area 64 p \/ (none_in m area 64 /\ first_in m (PA2VA 0xf0000) 4096 p).

(** Where the code's other kilobyte does not matter, the documented structure is found. *)
Lemma documented_located m p : documented m p ->
  (ebda m = 0 -> none_in m (PA2VA (base_memory m - 1024)) 64 /\ none_in m (PA2VA (base_memory m)) 64) -> located m p.
Proof.
  unfold documented, located, first_area. fold (ebda m). fold (base_memory m). destruct (ebda m =? 0) eqn:E; tests; cbv zeta; [|tauto].
  intros [(j & Hj & -> & Hf & _)|[_ H]] N; destruct (N E) as [N1 N2]; [destruct (N1 j Hj Hf) | right; auto].
Qed.

Lemma documented_found sm m p : byte_mem m -> cstr m sm MP_SIGNATURE -> documented m p ->
  (ebda m = 0 -> none_in m (PA2VA (base_memory m - 1024)) 64 /\ none_in m (PA2VA (base_memory m)) 64) ->
  find_floating_pointer sm m = p /\ p <> NULL.
Proof.
  intros Hm Hsm Hd Hb. pose proof (documented_located m p Hd Hb) as Hp.
  destruct (find_floating_pointer_spec sm m Hm Hsm) as [(E & H1 & H2)|[Hn H]].
  - exfalso. destruct Hp as [(j & Hj & -> & Hf & _)|[_ (j & Hj & -> & Hf & _)]]; [eapply H1|eapply H2]; eauto.
  - rewrite <- (located_unique m p (find_floating_pointer sm m) Hp H) in Hn |- *. auto.
Qed.

(** ** Theorems *)

(** A configuration table at [header], with the given entries. *)
Record config_table (m : mem) (header : Z) (es : list mp_entry) : Prop := {
  ct_nonnull : header <> NULL;
  ct_signature : bytes_from 4 m header = PCMP_SIGNATURE;
  ct_sum : u8 (byte_sum (bytes_from (Z.to_nat (read16 m (header + 4))) m header)) = 0;
  ct_length : read16 m (header + 4) = SIZEOF_HEADER + zlen (concat (encode_entry <$> es));
  ct_entries : bytes_from (length (concat (encode_entry <$> es))) m (header + SIZEOF_HEADER) = concat (encode_entry <$> es);
  ct_ok : Forall entry_ok es
}.

Lemma encoded_length es : Forall entry_ok es -> (8 * length es <= length (concat (encode_entry <$> es)))%nat.
Proof.
  intros H. induction H as [|e es He H IH]; [cbn; lia|]. cbn [fmap list_fmap concat length] in *. rewrite length_app.
  destruct e as [id v f r|t r]; cbn [encode_entry entry_ok length] in *; [|destruct He]; lia.
Qed.

Lemma arch_init_found sm sp m p header es : byte_mem m -> cstr m sm MP_SIGNATURE -> cstr m sp PCMP_SIGNATURE ->
  find_floating_pointer sm m = p -> p <> NULL -> header = PA2VA (read32 m (p + 4)) -> config_table m header es ->
  mp_init sm sp m (mk_arch [] None) = Some (add_all (mk_arch [] None) (listed es)).
Proof.
  intros Hm Hs1 Hs2 Ep Hp Eh [N S C L E O]. unfold mp_init, find_config_table. rewrite Ep.
  replace (p =? NULL) with false by lia. rewrite <- Eh. replace (header =? NULL) with false by lia.
  pose proof (signature_test m header sp PCMP_SIGNATURE Hm Hs2) as T. change (zlen PCMP_SIGNATURE) with 4 in T. change (length PCMP_SIGNATURE) with 4%nat in T.
  rewrite T, bool_decide_eq_true_2 by exact S. cbn [negb]. pose proof (read16_range m (header + 4) Hm) as R.
  rewrite check_sum_spec by lia. rewrite C. cbn [Z.eqb]. change (0 =? 0) with true. cbn iota. replace (header =? NULL) with false by lia. cbn [negb].
  unfold parse_config_entries. rewrite L, Z.add_assoc. unfold zlen. apply parse_entries; auto.
  pose proof (encoded_length es O). unfold zlen, SIZEOF_HEADER in L. lia.
Qed.

(** C36: From memory that holds a floating pointer structure where the specification says that it is
    looked for, and the configuration table it designates, in which every processor is enabled,
    [arch_t::init] comes to know the first eight processors of the table in its order, takes the
    last one that is marked as the boot processor for it, and every processor finds itself by the
    number of its APIC.  Two faults of the code bound the claim: where there is no extended BIOS data
    area there must be no structure at the end of base memory, which is not searched
    ([base_memory_not_searched]), nor in the kilobyte behind it, which is; and processors that are not enabled are taken as well
    ([disabled_processor_is_taken]). *)
Theorem processors_found (sm sp : Z) (m : mem) (p : Z) (es : list mp_entry)
  (Hm : byte_mem m) (Hsm : cstr m sm MP_SIGNATURE) (Hsp : cstr m sp PCMP_SIGNATURE)
  (Hp : documented m p) (Hbase : ebda m = 0 -> none_in m (PA2VA (base_memory m - 1024)) 64 /\ none_in m (PA2VA (base_memory m)) 64)
  (Ht : config_table m (PA2VA (read32 m (p + 4))) es) (Hen : Forall enabled es)
  (Hboot : exists c, c ∈ take 8 (processors es) /\ cpu_is_bsp c <> 0) :
  exists b a c, arch_init sm sp m = Some (Done (b, a)) /\ m_cpu a = take 8 (processors es) /\
    zget (m_cpu a) b = Some c /\ cpu_is_bsp c <> 0 /\ (forall i d, b < i -> zget (m_cpu a) i = Some d -> cpu_is_bsp d = 0) /\
    (NoDup (cpu_apic_id <$> m_cpu a) -> forall i d, zget (m_cpu a) i = Some d -> get_current_cpu a (cpu_apic_id d) = Some i).
Proof.
  destruct (documented_found sm m p Hm Hsm Hp Hbase) as [Ef Hn]. rewrite (all_enabled es Hen) in Hboot |- *.
  unfold arch_init. rewrite (arch_init_found sm sp m p _ es Hm Hsm Hsp Ef Hn eq_refl Ht).
  set (a := add_all _ _). assert (Ec : m_cpu a = take 8 (listed es)) by (unfold a; rewrite add_all_cpus by discriminate; reflexivity).
  assert (B : boot_ok a) by (apply add_all_boot; intros i c H; rewrite zget_nonneg in H by (apply zget_Some_range in H; lia); discriminate).
  destruct Hboot as (c & Hin & Hc). unfold boot_ok in B. destruct (m_boot_processor a) as [b|] eqn:Eb.
  - destruct B as [(d & Hd & Hb) B]. exists b, a, d. split; [reflexivity|]. split_and!; auto.
    intros Hnd i e He. apply zget_lookup in He as [He Hi]. unfold get_current_cpu. rewrite (find_apic_spec _ 0 _ e Hnd He). f_equal. lia.
  - exfalso. rewrite <- Ec in Hin. apply list_elem_of_lookup_1 in Hin as [k Hk]. apply Hc, (B (Z.of_nat k)). rewrite zget_of_nat. exact Hk.
Qed.

(** An entry of a type that the code does not know is never passed: the loop of
    [parse_config_entries] does not end. *)
Theorem unknown_entry_loops m a config e : config < e -> m config < 0 \/ 4 < m config -> forall fuel, parse_loop fuel m a config e = None.
Proof.
  intros H Hu fuel. induction fuel as [|fuel IH]; cbn [parse_loop]; replace (config <? e) with true by lia; cbn [negb]; [reflexivity|].
  replace (m config =? 0) with false by lia. replace ((m config =? 1) || (m config =? 2) || (m config =? 3) || (m config =? 4)) with false by lia.
  exact IH.
Qed.

(** Without a table nothing is known about the boot processor, and the kernel follows a null
    pointer. *)
Theorem no_table_faults sm sp m : byte_mem m -> cstr m sm MP_SIGNATURE ->
  none_in m (first_area m) 64 -> none_in m (PA2VA 0xf0000) 4096 -> arch_init sm sp m = Some Fault.
Proof.
  intros Hm Hs H1 H2. assert (E : find_floating_pointer sm m = NULL).
  { destruct (find_floating_pointer_spec sm m Hm Hs) as [(E & _)|[_ [(j & Hj & E & Hf & _)|[_ (j & Hj & E & Hf & _)]]]]; [exact E| |];
      exfalso; rewrite E in Hf; [eapply H1|eapply H2]; eauto. }
  unfold arch_init, mp_init, find_config_table. rewrite E. reflexivity.
Qed.

(** Witness: two processors and a bus, the structure at the start of the extended BIOS data
    area at 0x9fc00, the table at 0x9fd00. *)
Definition mp_es : list mp_entry :=
  [Processor 0 20 3 (replicate 16 0); Processor 1 20 1 (replicate 16 0); Skipped 1 [0; 73; 83; 65; 32; 32; 32]].

Definition mp_table : list Z := [80; 67; 77; 80; 92; 0; 4; 252] ++ replicate 36 0 ++ concat (encode_entry <$> mp_es).

Definition balance (bs : list Z) (i : nat) : list Z := <[i := u8 (bs !!! i - byte_sum bs)]> bs.

Definition mp_mem : mem :=
  put_bytes (put_bytes (put_bytes (put_bytes (put_bytes (fun _ => 0) 100 MP_SIGNATURE) 200 PCMP_SIGNATURE)
    (PA2VA 0x40e) [0xc0; 0x9f])
    (PA2VA 0x9fc00) (balance [95; 77; 80; 95; 0; 0xfd; 9; 0; 1; 4; 0; 0; 0; 0; 0; 0] 10))
    (PA2VA 0x9fd00) (balance mp_table 7).

Lemma mp_mem_bytes : byte_mem mp_mem.
Proof.
  repeat (apply byte_mem_put; [|apply Forall_forall; intros b Hb; apply list_elem_of_In in Hb; vm_compute in Hb; intuition lia]). intros a. lia.
Qed.

Lemma mp_documented : documented mp_mem (PA2VA 0x9fc00).
Proof. left. exists 0. split; [lia|]. split; [reflexivity|]. split; [split; vm_compute; reflexivity|intros; lia]. Qed.

Lemma mp_table_ok : config_table mp_mem (PA2VA (read32 mp_mem (PA2VA 0x9fc00 + 4))) mp_es.
Proof.
  constructor; try (vm_compute; reflexivity); [vm_compute; discriminate|].
  repeat constructor; lia.
Qed.

Lemma processors_found_witness : exists b a c, arch_init 100 200 mp_mem = Some (Done (b, a)) /\
  m_cpu a = [mk_cpu 0 2; mk_cpu 1 0] /\ zget (m_cpu a) b = Some c /\ cpu_is_bsp c <> 0.
Proof.
  destruct (processors_found 100 200 mp_mem (PA2VA 0x9fc00) mp_es mp_mem_bytes) as (b & a & c & E & Ec & Hc & Hb & _).
  - vm_compute. repeat split; discriminate.
  - vm_compute. repeat split; discriminate.
  - exact mp_documented.
  - intros E. vm_compute in E. discriminate E.
  - exact mp_table_ok.
  - repeat constructor.
  - exists (mk_cpu 0 2). split; [left|discriminate].
  - exists b, a, c. auto.
Defined.

(** With no extended BIOS data area the last kilobyte of base memory is not where the code
    looks: a structure at 639K is missed. *)
Definition base_mem : mem :=
  put_bytes (put_bytes (put_bytes (fun _ => 0) 100 MP_SIGNATURE) (PA2VA 0x413) [0x80; 2])
    (PA2VA 0x9fc00) (balance [95; 77; 80; 95; 0; 0xfd; 9; 0; 1; 4; 0; 0; 0; 0; 0; 0] 10).

Example base_memory_not_searched :
  is_floating_pointer base_mem (PA2VA (640 * 1024 - 1024)) /\ read16 base_mem (PA2VA 0x413) = 640 /\ find_floating_pointer 100 base_mem = NULL.
Proof. split; [split; vm_compute; reflexivity|]. split; vm_compute; reflexivity. Qed.

(** A processor that must not be used is taken like the others. *)
Lemma disabled_processor_is_taken m config id version rest : length rest = 16%nat -> bytes_from 20 m config = encode_entry (Processor id version 0 rest) ->
  processors [Processor id version 0 rest] = [] /\
  parse_loop 1 m (mk_arch [] None) config (config + 20) = Some (mk_arch [mk_cpu id 0] None).
Proof.
  intros Hr Hb. split; [reflexivity|].
  change (config + 20) with (config + Z.of_nat 20). rewrite (parse_entries m [Processor id version 0 rest] (mk_arch [] None) config 20 1); [reflexivity | repeat constructor; exact Hr | rewrite Hb; cbn; rewrite app_nil_r; reflexivity | cbn; lia].
Qed.
