(* ===== verification/Pci.v ===== *)
(** * The PCI bus (src/src/pci.cc)

    The configuration space is reached through two ports: [PciBus] is what they do, a
    register read or written at an address word.  [check_device] probes the base address
    registers by writing ones to them and putting the old value back; [PciLaws] says what
    the specification of the bus promises about that. *)
From Stdlib Require Import ZArith ZifyBool Lia.
From stdpp Require Import base option list.
From S2P Require Import Prelude.

Definition PCI_CONFIG_VENDOR : Z := 0x00.
Definition PCI_CONFIG_COMMAND : Z := 0x04.
Definition PCI_CONFIG_CLASS_REV : Z := 0x08.
Definition PCI_CONFIG_HDR_TYPE : Z := 0x0C.
Definition PCI_CONFIG_BASE_ADDR0 : Z := 0x10.
Definition PCI_CONFIG_INTR : Z := 0x3C.
Definition PCI_BASE_ADDR_MEM_MASK : Z := 2 ^ 32 - 2 ^ 4.
Definition PCI_BASE_ADDR_IO_MASK : Z := 2 ^ 32 - 2 ^ 2.
Definition ONES : Z := 0xffffffff.

Inductive bar_type := TYPE_INVALID | TYPE_MEM | TYPE_IO.

Record bar := mk_bar { m_type : bar_type; m_base_addr : Z; m_length : Z }.

(** [pci_device_bar_t::init] *)
Definition bar_init (addr_reg_val len_reg_val : Z) : bar :=
  let addr := if addr_reg_val =? ONES then 0 else addr_reg_val in
  if negb (Z.land addr 1 =? 0)
  then mk_bar TYPE_IO (Z.land addr PCI_BASE_ADDR_IO_MASK) (u32 (not32 (Z.land len_reg_val PCI_BASE_ADDR_IO_MASK) + 1))
  else mk_bar TYPE_MEM (Z.land addr PCI_BASE_ADDR_MEM_MASK) (u32 (not32 (Z.land len_reg_val PCI_BASE_ADDR_MEM_MASK) + 1)).

Record pci_device := mk_dev {
  m_bus : Z;
  m_dev : Z;
  m_function : Z;
  m_vendor_id : Z;
  m_device_id : Z;
  m_class_code : Z;
  m_revision : Z;
  m_multi_function : bool;
  m_bar : list bar;
  m_interrupt_line : Z;
  m_interrupt_pin : option Z       (* [None]: never written *)
}.

Fixpoint io_addr (bars : list bar) : Z :=
  match bars with
  | [] => 0
  | b :: r => match m_type b with TYPE_IO => m_base_addr b | _ => io_addr r end
  end.

Definition get_io_addr (d : pci_device) : Z := io_addr (m_bar d).
Definition get_interrupt_line (d : pci_device) : Z := m_interrupt_line d.

Definition pci_addr (bus device function addr : Z) : Z :=
  Z.lor (Z.lor (Z.lor (Z.lor 0x80000000 (u32 (Z.shiftl bus 16))) (u32 (Z.shiftl device 11))) (u32 (Z.shiftl function 8))) addr.

Class PciBus (C : Type) : Type := {
  cfg_read : C -> Z -> Z;
  cfg_write : C -> Z -> Z -> C;
  cfg_mask : C -> Z -> Z          (* what a base address register reads after ones were written to it *)
}.

Section pci.
Context {C : Type} `{PciBus C}.

Definition read (c : C) (bus device function addr : Z) : Z := cfg_read c (pci_addr bus device function addr).
Definition write (c : C) (bus device function addr val : Z) : C := cfg_write c (pci_addr bus device function addr) val.

(** The body of the loop over the base address registers; [m_type] was [TYPE_INVALID] and
    the two other members are what was in the memory of the device. *)
Definition probe_bar (c : C) (bus device function reg : Z) (old : bar) : bar * C :=
  let val := read c bus device function reg in
  let c := write c bus device function reg ONES in
  let len := read c bus device function reg in
  let c := write c bus device function reg val in
  (if negb (len =? 0) && negb (len =? ONES) then bar_init val len else old, c).

Fixpoint probe_bars (n : nat) (c : C) (bus device function reg : Z) : list bar * C :=
  match n with
  | O => ([], c)
  | S k => let '(b, c) := probe_bar c bus device function reg (mk_bar TYPE_INVALID 0 0) in
           let '(bs, c) := probe_bars k c bus device function (reg + 4) in (b :: bs, c)
  end.

(** [irq >> 8] of a byte, as the code has it. *)
Definition interrupt_of (val : Z) : Z * option Z :=
  let irq := Z.land val 0xff in
  if (0 <? irq) && (irq <? 32) then (irq, Some (Z.shiftr irq 8)) else (0xff, None).

Definition check_device (c : C) (bus device : Z) : option pci_device * C :=
  let function := 0 in
  let val := read c bus device function PCI_CONFIG_VENDOR in
  let vendor_id := Z.land val 0xffff in
  let device_id := Z.shiftr val 16 in
  if vendor_id =? 0xffff then (None, c)
  else
    let header_type := u8 (Z.shiftr (read c bus device function PCI_CONFIG_HDR_TYPE) 16) in
    let val := read c bus device function PCI_CONFIG_CLASS_REV in
    let '(bars, c) := probe_bars 6 c bus device function PCI_CONFIG_BASE_ADDR0 in
    let '(line, pin) := interrupt_of (read c bus device function PCI_CONFIG_INTR) in
    (Some (mk_dev bus device function vendor_id device_id (Z.shiftr val 8) (Z.land val 0xff)
             (negb (Z.land header_type 0x80 =? 0)) bars line pin), c).

(** The two loops of [enum_buses], [m_devices] in the order of [push_back]. *)
Fixpoint check_all (l : list (Z * Z)) (c : C) (devices : list pci_device) : list pci_device * C :=
  match l with
  | [] => (devices, c)
  | (bus, device) :: r =>
      let '(d, c) := check_device c bus device in
      check_all r c (devices ++ option_list d)
  end.

Definition slots : list (Z * Z) := bus ← seqZ 0 256; device ← seqZ 0 32; [(bus, device)].

Definition enum_buses (c : C) : list pci_device * C := check_all slots c [].

Definition get_device (devices : list pci_device) (vendor_id device_id : Z) : option pci_device :=
  snd <$> list_find (fun d => m_vendor_id d = vendor_id /\ m_device_id d = device_id) devices.

Definition enable_bus_mastering (c : C) (d : pci_device) : C :=
  let val := read c (m_bus d) (m_dev d) (m_function d) PCI_CONFIG_COMMAND in
  write c (m_bus d) (m_dev d) (m_function d) PCI_CONFIG_COMMAND (Z.lor val 4).

(** ** What the bus promises *)

(** Nothing that can be read, or probed, differs. *)
Definition same_config (c c' : C) : Prop := forall a, cfg_read c' a = cfg_read c a /\ cfg_mask c' a = cfg_mask c a.

Class PciLaws : Prop := {
  law_mask : forall c bus device i, 0 <= i < 6 ->
    let a := pci_addr bus device 0 (PCI_CONFIG_BASE_ADDR0 + 4 * i) in cfg_read (cfg_write c a ONES) a = cfg_mask c a;
  law_restore : forall c bus device i, 0 <= i < 6 ->
    let a := pci_addr bus device 0 (PCI_CONFIG_BASE_ADDR0 + 4 * i) in
    same_config c (cfg_write (cfg_write c a ONES) a (cfg_read c a))
}.

#[export] Instance same_config_equiv : Equivalence same_config.
Proof.
  split.
  - intros c a. auto.
  - intros c d H1 a. destruct (H1 a). auto.
  - intros c d e H1 H2 a. destruct (H1 a), (H2 a). split; congruence.
Qed.

(** What the registers of a slot say. *)
Definition bar_at (c : C) (bus device i : Z) : bar :=
  let a := pci_addr bus device 0 (PCI_CONFIG_BASE_ADDR0 + 4 * i) in
  if negb (cfg_mask c a =? 0) && negb (cfg_mask c a =? ONES) then bar_init (cfg_read c a) (cfg_mask c a) else mk_bar TYPE_INVALID 0 0.

Definition describe (c : C) (slot : Z * Z) : option pci_device :=
  let '(bus, device) := slot in
  let reg := fun r => cfg_read c (pci_addr bus device 0 r) in
  if Z.land (reg 0) 0xffff =? 0xffff then None
  else Some (mk_dev bus device 0 (Z.land (reg 0) 0xffff) (Z.shiftr (reg 0) 16) (Z.shiftr (reg 8) 8) (Z.land (reg 8) 0xff)
               (negb (Z.land (u8 (Z.shiftr (reg 12) 16)) 0x80 =? 0)) (bar_at c bus device <$> seqZ 0 6)
               (fst (interrupt_of (reg 0x3c))) (snd (interrupt_of (reg 0x3c)))).

#[export] Instance describe_proper : Proper (same_config ==> eq ==> eq) describe.
Proof.
  intros c c' E [bus device] ? <-. unfold describe, bar_at.
  assert (R : forall a, cfg_read c' a = cfg_read c a) by apply E. assert (M : forall a, cfg_mask c' a = cfg_mask c a) by apply E.
  rewrite !R. destruct (_ =? 0xffff); [reflexivity|]. do 2 f_equal. apply list_fmap_ext. intros _ i _. rewrite !R, !M. reflexivity.
Qed.

Context {L : PciLaws}.

Lemma probe_bars_spec n : forall c bus device i, 0 <= i -> i + Z.of_nat n <= 6 ->
  exists c', probe_bars n c bus device 0 (PCI_CONFIG_BASE_ADDR0 + 4 * i) = (bar_at c bus device <$> seqZ i (Z.of_nat n), c') /\ same_config c c'.
Proof.
  induction n as [|n IH]; intros c bus device i Hi Hn; [exists c; split; reflexivity|].
  cbn [probe_bars]. unfold probe_bar, read, write. rewrite law_mask by lia.
  set (a := pci_addr bus device 0 (PCI_CONFIG_BASE_ADDR0 + 4 * i)). set (c1 := cfg_write _ a (cfg_read c a)).
  assert (E : same_config c c1) by (apply law_restore; lia).
  replace (PCI_CONFIG_BASE_ADDR0 + 4 * i + 4) with (PCI_CONFIG_BASE_ADDR0 + 4 * (i + 1)) by lia.
  destruct (IH c1 bus device (i + 1)) as (c2 & E2 & S2); [lia..|]. rewrite E2.
  exists c2. split; [|etransitivity; eassumption]. f_equal. rewrite (seqZ_cons i) by lia. rewrite fmap_cons. f_equal.
  replace (Z.succ i) with (i + 1) by lia. replace (Z.pred (Z.of_nat (S n))) with (Z.of_nat n) by lia.
  apply list_fmap_ext. intros _ j _. unfold bar_at. rewrite (proj1 (E _)), (proj2 (E _)). reflexivity.
Qed.

Lemma check_device_spec c bus device :
  exists c', check_device c bus device = (describe c (bus, device), c') /\ same_config c c'.
Proof.
  unfold check_device, describe. fold (read c bus device 0 0). unfold PCI_CONFIG_VENDOR. unfold read at 1 2 3 4.
  destruct (_ =? 0xffff); [exists c; split; reflexivity|].
  destruct (probe_bars_spec 6 c bus device 0) as (c' & E & S); [lia..|]. rewrite Z.mul_0_r, Z.add_0_r in E. rewrite E.
  exists c'. split; [|exact S]. unfold read, PCI_CONFIG_INTR. rewrite (proj1 (S _)).
  destruct (interrupt_of _) as [line pin]. reflexivity.
Qed.

Lemma check_all_spec l : forall c ds, exists c', check_all l c ds = (ds ++ omap (describe c) l, c') /\ same_config c c'.
Proof.
  induction l as [|[bus device] l IH]; intros c ds; cbn [check_all]; [exists c; rewrite app_nil_r; split; reflexivity|].
  destruct (check_device_spec c bus device) as (c1 & E1 & S1). rewrite E1. destruct (IH c1 (ds ++ option_list (describe c (bus, device)))) as (c2 & E2 & S2).
  rewrite E2. exists c2. split; [|etransitivity; eassumption]. f_equal. rewrite <- app_assoc. f_equal. cbn [omap list_omap].
  rewrite (list_omap_ext (describe c1) (describe c) l l); [destruct (describe c (bus, device)); reflexivity|].
  apply Forall2_same_length_lookup_2; [reflexivity|]. intros i x y Hx Hy. assert (x = y) as -> by congruence. rewrite <- S1. reflexivity.
Qed.
End pci.

(** ** Sizes *)

(** The length that [bar_init] computes is the size of the region the device decodes. *)
Lemma bar_length n k f : 0 <= n <= k -> k < 32 -> 0 <= f < 2 ^ n ->
  u32 (not32 (Z.land (2 ^ 32 - 2 ^ k + f) (2 ^ 32 - 2 ^ n)) + 1) = 2 ^ k.
Proof.
  intros Hn Hk Hf. assert (P : 2 ^ k = 2 ^ (k - n) * 2 ^ n) by (rewrite <- Z.pow_add_r by lia; f_equal; lia).
  assert (Q : 2 ^ 32 = 2 ^ (32 - n) * 2 ^ n) by (rewrite <- Z.pow_add_r by lia; f_equal; lia).
  pose proof (Z.pow_pos_nonneg 2 n ltac:(lia) ltac:(lia)). pose proof (Z.pow_le_mono_r 2 n k ltac:(lia) ltac:(lia)).
  pose proof (Z.pow_lt_mono_r 2 k 32 ltac:(lia) ltac:(lia) ltac:(lia)).
  rewrite land_high_mask by lia. replace ((2 ^ 32 - 2 ^ k + f) mod 2 ^ n) with f.
  2: { apply Z.mod_unique_pos with (q := 2 ^ (32 - n) - 2 ^ (k - n)); lia. }
  unfold not32. rewrite (u32_small (2 ^ 32 - 2 ^ k + f - f)) by lia. rewrite u32_small by lia. lia.
Qed.

Lemma bar_init_io v k : v <> ONES -> Z.land v 1 = 1 -> 2 <= k < 32 ->
  m_type (bar_init v (2 ^ 32 - 2 ^ k + 1)) = TYPE_IO /\ m_length (bar_init v (2 ^ 32 - 2 ^ k + 1)) = 2 ^ k.
Proof.
  intros Hv Hi Hk. unfold bar_init. replace (v =? ONES) with false by lia. rewrite Hi. cbn [Z.eqb negb m_type m_length].
  split; [reflexivity|]. apply (bar_length 2); lia.
Qed.

Lemma bar_init_mem v k f : v <> ONES -> Z.land v 1 = 0 -> 4 <= k < 32 -> 0 <= f < 16 ->
  m_type (bar_init v (2 ^ 32 - 2 ^ k + f)) = TYPE_MEM /\ m_length (bar_init v (2 ^ 32 - 2 ^ k + f)) = 2 ^ k.
Proof.
  intros Hv Hi Hk Hf. unfold bar_init. replace (v =? ONES) with false by lia. rewrite Hi. cbn [Z.eqb negb m_type m_length].
  split; [reflexivity|]. apply (bar_length 4); lia.
Qed.

Lemma elem_of_slots bus device : (bus, device) ∈ slots <-> 0 <= bus < 256 /\ 0 <= device < 32.
Proof.
  unfold slots. rewrite list_elem_of_bind. split.
  - intros (b & Hin & Hb). apply elem_of_seqZ in Hb. apply list_elem_of_bind in Hin as (d & Hin & Hd). apply elem_of_seqZ in Hd.
    apply list_elem_of_singleton in Hin as [= <- <-]. lia.
  - intros [Hb Hd]. exists bus. split; [|apply elem_of_seqZ; lia]. apply list_elem_of_bind. exists device. split; [left|apply elem_of_seqZ; lia].
Qed.

(** ** Theorems *)

(** [enum_buses] lists the function 0 of every slot of the 256 buses that answers, each as
    its registers describe it (base addresses with their sizes included), in the order of
    the slots, and leaves the configuration space as it was; [get_device] finds a device of
    the list by its two identifiers, and only fails when no slot has one. *)
Theorem enum_buses_correct {C} `{PciBus C} {L : PciLaws} (c : C) :
  exists ds c', enum_buses c = (ds, c') /\ same_config c c' /\ ds = omap (describe c) slots /\
    (forall bus device d, 0 <= bus < 256 -> 0 <= device < 32 -> describe c (bus, device) = Some d -> d ∈ ds) /\
    (forall v i, match get_device ds v i with
                 | Some d => d ∈ ds /\ m_vendor_id d = v /\ m_device_id d = i
                 | None => forall bus device d, 0 <= bus < 256 -> 0 <= device < 32 -> describe c (bus, device) = Some d ->
                             ~ (m_vendor_id d = v /\ m_device_id d = i)
                 end).
Proof.
  unfold enum_buses. destruct (check_all_spec slots c []) as (c' & E & S). exists (omap (describe c) slots), c'.
  assert (In : forall bus device d, 0 <= bus < 256 -> 0 <= device < 32 -> describe c (bus, device) = Some d -> d ∈ omap (describe c) slots).
  { intros bus device d Hb Hd Ed. apply list_elem_of_omap. exists (bus, device). split; [apply elem_of_slots; auto|exact Ed]. }
  split; [exact E|]. split; [exact S|]. split; [reflexivity|]. split; [exact In|]. intros v i. unfold get_device.
  destruct (list_find _ (omap (describe c) slots)) as [[k d]|] eqn:F; cbn [fmap option_fmap option_map snd].
  - apply list_find_Some in F as (Hk & HP & _). split; [eapply list_elem_of_lookup_2, Hk|exact HP].
  - apply list_find_None in F. rewrite Forall_forall in F. intros bus device d Hb Hd Ed. apply F. eauto.
Qed.

(** The interrupt pin is taken from the wrong byte: it is 0 whatever the register says. *)
Theorem interrupt_pin_is_lost val p : snd (interrupt_of val) = Some p -> p = 0.
Proof.
  unfold interrupt_of. destruct ((0 <? Z.land val 255) && (Z.land val 255 <? 32)) eqn:E; [|discriminate]. cbn. intros [= <-].
  rewrite Z.shiftr_div_pow2 by lia. apply Z.div_small. change (2 ^ 8) with 256. lia.
Qed.

(** Witness: a bus with one network card, whose first base address register decodes 256
    ports at 0xc000. *)
Record toy_bus := mk_toy { t_regs : Z -> Z; t_masks : Z -> Z }.

#[export] Instance toy_pci : PciBus toy_bus := {|
  cfg_read c a := if t_regs c a =? ONES then t_masks c a else t_regs c a;
  cfg_write c a v := mk_toy (upd (t_regs c) a v) (t_masks c);
  cfg_mask c a := t_masks c a
|}.

#[export] Instance toy_laws : PciLaws (C := toy_bus).
Proof.
  split.
  - intros c bus device i Hi a. cbn. rewrite upd_eq. reflexivity.
  - intros c bus device i Hi a b. cbn. split; [|reflexivity]. unfold upd. destruct (b =? a) eqn:E; tests; [|reflexivity].
    rewrite E. destruct (t_regs c a =? ONES) eqn:E1; [|rewrite E1; reflexivity]. destruct (t_masks c a =? ONES); reflexivity.
Qed.

Definition card_slot (a : Z) : Z := pci_addr 0 3 0 a.

Definition card_bus : toy_bus :=
  mk_toy (upd (upd (upd (upd (fun _ => ONES) (card_slot 0) 0x813910ec) (card_slot 8) 0x02000020) (card_slot 16) 0xc001) (card_slot 0x3c) 0x10b)
    (upd (fun _ => ONES) (card_slot 16) 0xffffff01).

Definition card_device : pci_device :=
  mk_dev 0 3 0 0x10ec 0x8139 0x20000 0x20 true
    (mk_bar TYPE_IO 0xc000 0x100 :: replicate 5 (mk_bar TYPE_INVALID 0 0)) 11 (Some 0).

Example card_described : describe card_bus (0, 3) = Some card_device /\ get_io_addr card_device = 0xc000.
Proof. split; vm_compute; reflexivity. Qed.

Lemma enum_buses_correct_witness : exists ds c', enum_buses card_bus = (ds, c') /\ same_config card_bus c' /\ card_device ∈ ds.
Proof.
  destruct (enum_buses_correct card_bus) as (ds & c' & E & S & _ & In & _). exists ds, c'. split; [exact E|]. split; [exact S|].
  apply (In 0 3); [lia|lia|]. vm_compute. reflexivity.
Defined.
