(* ===== verification/Rtl8139.v ===== *)
(** * The network card (src/src/rtl8139.cc)

    [receive] empties the card's receive ring: it is woken by an interrupt, reads one packet
    after the other out of memory until the card says that the ring is empty, hands each
    to [net_t::receive] and tells the card how far it has read.  [transmit] copies a frame
    into one of four buffers, in turn.  The card is known through its registers ([Nic]);
    [NicLaws] states what its data sheet says of the receive ring of 32KB, in the mode
    that [init] selects: packets are laid out one after the other, each with a header of
    four bytes and padded to four, and continue at the start of the ring when they reach
    its end. *)
From Stdlib Require Import ZArith ZifyBool Lia.
From stdpp Require Import base option list.
From S2P Require Import Prelude MpConfig.

Definition RTL8139_RX_OK : Z := 0x0001.
Definition RTL8139_TX_OK : Z := 0x0004.
Definition RX_BUF_LEN : Z := 32 * 1024.
Definition NUM_TX_BUFFER : Z := 4.

(** [inb(COMMAND)], [outw(CAPR)], [inw(INTR_STATUS)], [outw(INTR_STATUS)], and the byte at an
    offset of the receive buffer, which is memory that the card writes. *)
Class Nic (C : Type) : Type := {
  nic_command : C -> Z;
  nic_write_capr : C -> Z -> C;
  nic_status : C -> Z;
  nic_ack : C -> Z -> C;
  nic_rx_buffer : C -> Z -> Z
}.

Record rtl8139 := mk_rtl {
  m_inited : bool;
  m_current_rx : Z;
  m_tx_buffers : list (list Z);      (* what was last copied into each *)
  m_current_tx : Z
}.

Inductive port_write := TxAddr (i : Z) | TxStatus (i value : Z).

(** ** Sending *)

(** The value returned, the state, and what is written to the card's ports: the address of
    buffer [i], and the length with the threshold bits. *)
Definition transmit (d : rtl8139) (data : list Z) : Z * rtl8139 * list port_write :=
  if negb (m_inited d) then (-1, d, [])
  else
    (0, mk_rtl (m_inited d) (m_current_rx d) (zset (m_tx_buffers d) (m_current_tx d) data) ((m_current_tx d + 1) mod 4),
     [TxAddr (m_current_tx d); TxStatus (m_current_tx d) (Z.lor (Z.lor (Z.shiftl 256 16) 0) (zlen data))]).

Fixpoint transmit_all (d : rtl8139) (frames : list (list Z)) : rtl8139 * list port_write :=
  match frames with
  | [] => (d, [])
  | f :: r => let '(_, d, w) := transmit d f in let '(d, ws) := transmit_all d r in (d, w ++ ws)
  end.

(** ** Receiving *)

Section receive.
Context {C : Type} `{Nic C}.

(** The loop of [receive]: the packets handed to [net_t::receive], the position reached and
    the card; [None]: not finished after [fuel] rounds. *)
Fixpoint receive_loop (fuel : nat) (c : C) (cur : Z) : option (list (list Z) * Z * C) :=
  if negb (Z.land (nic_command c) 0x01 =? 0) then Some ([], cur, c)
  else match fuel with
       | O => None
       | S k =>
           let offset := cur mod RX_BUF_LEN in
           let status := read32 (nic_rx_buffer c) offset in
           let size := Z.shiftr status 16 in
           let packet := bytes_from (Z.to_nat (u32 (size - 4))) (nic_rx_buffer c) (offset + 4) in
           let cur := Z.land (u32 (cur + size + 7)) (not32 3) in
           let c := nic_write_capr c (u16 (cur - 16)) in
           match receive_loop k c cur with
           | None => None
           | Some (ps, cur, c) => Some (packet :: ps, cur, c)
           end
       end.

Definition set_rx (d : rtl8139) (cur : Z) : rtl8139 := mk_rtl (m_inited d) cur (m_tx_buffers d) (m_current_tx d).

Definition receive (fuel : nat) (d : rtl8139) (c : C) : option (list (list Z) * rtl8139 * C) :=
  match receive_loop fuel c (m_current_rx d) with
  | None => None
  | Some (ps, cur, c) => Some (ps, set_rx d cur, c)
  end.

Definition do_irq (fuel : nat) (d : rtl8139) (c : C) : option (list (list Z) * rtl8139 * C) :=
  let status := nic_status c in
  let c := nic_ack c status in
  if negb (Z.land status RTL8139_RX_OK =? 0) then receive fuel d c
  else Some ([], d, c).

(** ** What the data sheet says *)

(** A packet in the ring: the status bits, the frame, the four bytes of its check sequence. *)
Record packet := mk_packet { p_status : Z; p_data : list Z; p_crc : list Z }.

Definition p_size (p : packet) : Z := zlen (p_data p) + 4.

(** Where the next packet begins. *)
Definition next_pos (pos : Z) (p : packet) : Z := ((pos + p_size p + 7) / 4 * 4) mod RX_BUF_LEN.

Definition packet_ok (p : packet) : Prop := 0 <= p_status p < 65536 /\ length (p_crc p) = 4%nat /\ p_size p < 8192.

(** The bytes of a packet that begins at [pos], round the end of the ring. *)
Definition laid_out (mem : Z -> Z) (pos : Z) (p : packet) : Prop :=
  forall i b, zget (le_bytes 2 (p_status p) ++ le_bytes 2 (p_size p) ++ p_data p ++ p_crc p) i = Some b -> mem ((pos + i) mod RX_BUF_LEN) = b.

Class NicLaws : Type := {
  nic_pending : C -> list packet;
  nic_pos : C -> Z;
  law_empty : forall c, Z.land (nic_command c) 0x01 = 0 <-> nic_pending c <> [];
  law_pos : forall c, 0 <= nic_pos c < RX_BUF_LEN /\ nic_pos c mod 4 = 0;
  law_packet : forall c p ps, nic_pending c = p :: ps -> packet_ok p /\ laid_out (nic_rx_buffer c) (nic_pos c) p;
  law_capr : forall c p ps v, nic_pending c = p :: ps -> (v + 16) mod RX_BUF_LEN = next_pos (nic_pos c) p ->
    nic_pending (nic_write_capr c v) = ps /\ nic_pos (nic_write_capr c v) = next_pos (nic_pos c) p;
  law_ack : forall c v, nic_pending (nic_ack c v) = nic_pending c /\ nic_pos (nic_ack c v) = nic_pos c
}.

Context {L : NicLaws}.

(** What is handed over of packets that begin at [pos]: as many frames, in order and with the right
    lengths, and the bytes of each up to the end of the ring.  A frame that ends before the ring does is
    handed over as it is. *)
Fixpoint delivered (pos : Z) (ps : list packet) (qs : list (list Z)) : Prop :=
  match ps, qs with
  | [], [] => True
  | p :: ps, q :: qs =>
      let whole := Z.to_nat (RX_BUF_LEN - (pos + 4)) in
      length q = length (p_data p) /\ take whole q = take whole (p_data p) /\
      (pos + 4 + zlen (p_data p) <= RX_BUF_LEN -> q = p_data p) /\ delivered (next_pos pos p) ps qs
  | _, _ => False
  end.

(** The driver and the card agree about where to read. *)
Definition in_step (cur : Z) (c : C) : Prop := 0 <= cur < 2 ^ 32 /\ cur mod RX_BUF_LEN = nic_pos c.

Lemma bytes_from_eq n mem a l : length l = n -> (forall i b, zget l i = Some b -> mem (a + i) = b) -> bytes_from n mem a = l.
Proof.
  revert n a. induction l as [|x l IH]; intros n a <- Hi; [reflexivity|]. cbn [length bytes_from]. f_equal.
  - specialize (Hi 0 x eq_refl). rewrite Z.add_0_r in Hi. exact Hi.
  - apply IH; [reflexivity|]. intros i b Hb. rewrite <- (Hi (i + 1) b); [f_equal; lia|].
    pose proof (zget_Some_range _ _ _ Hb). rewrite zget_cons by lia. replace (i + 1 - 1) with i by lia. exact Hb.
Qed.

(** Bytes of a packet that lie before the end of the ring. *)
Lemma laid_out_bytes mem pos p l1 l2 l3 : 0 <= pos -> laid_out mem pos p ->
  le_bytes 2 (p_status p) ++ le_bytes 2 (p_size p) ++ p_data p ++ p_crc p = l1 ++ l2 ++ l3 ->
  pos + zlen l1 + zlen l2 <= RX_BUF_LEN -> bytes_from (length l2) mem (pos + zlen l1) = l2.
Proof.
  intros Hp Hl E Hend. apply bytes_from_eq; [reflexivity|]. intros i b Hb. pose proof (zget_Some_range _ _ _ Hb) as R.
  pose proof (zlen_nonneg l1). rewrite <- (Z.mod_small (pos + zlen l1 + i) RX_BUF_LEN) by lia. rewrite <- Z.add_assoc. apply Hl. rewrite E.
  rewrite zget_app, decide_False by lia. replace (zlen l1 + i - zlen l1) with i by lia.
  rewrite zget_app, decide_True by lia. exact Hb.
Qed.

(** The header: status in the low half, size in the high half of the word. *)
Lemma header_size mem pos p : 0 <= pos -> pos mod 4 = 0 -> pos < RX_BUF_LEN -> packet_ok p -> laid_out mem pos p ->
  Z.shiftr (read32 mem pos) 16 = p_size p.
Proof.
  intros Hp Hm Hlt (Hs & _ & Hz) Hl. unfold read32. pose proof (zlen_nonneg (p_data p)). unfold p_size in *.
  pose proof (laid_out_bytes mem pos p [] (le_bytes 2 (p_status p) ++ le_bytes 2 (zlen (p_data p) + 4)) (p_data p ++ p_crc p) Hp Hl) as E.
  rewrite length_app, !le_bytes_length in E. change (zlen (@nil Z)) with 0 in E. rewrite Z.add_0_r in E. cbn [Nat.add] in E.
  rewrite E; [|rewrite <- app_assoc; reflexivity|unfold zlen; rewrite length_app, !le_bytes_length; unfold RX_BUF_LEN in *; divlia].
  assert (LV : forall a b, le_value (a ++ b) = le_value a + 256 ^ Z.of_nat (length a) * le_value b).
  { clear. intros a b. induction a as [|x a IH]; [cbn; destruct (le_value b); reflexivity|]. cbn [app le_value length].
    rewrite IH, Nat2Z.inj_succ, Z.pow_succ_r by lia. lia. }
  rewrite LV, !le_value_bytes, le_bytes_length. change (256 ^ Z.of_nat 2) with 65536.
  rewrite !Z.mod_small by lia. rewrite Z.shiftr_div_pow2 by lia. change (2 ^ 16) with 65536. divlia.
Qed.

(** The frame as it is read: right up to the end of the ring. *)
Lemma frame_bytes mem pos p : 0 <= pos -> pos + 4 <= RX_BUF_LEN -> laid_out mem pos p ->
  let whole := Z.to_nat (RX_BUF_LEN - (pos + 4)) in
  let q := bytes_from (Z.to_nat (zlen (p_data p))) mem (pos + 4) in
  length q = length (p_data p) /\ take whole q = take whole (p_data p).
Proof.
  intros Hp Hr Hl whole q. unfold q. clear q. unfold zlen. rewrite Nat2Z.id, bytes_from_length. split; [reflexivity|].
  set (k := Nat.min whole (length (p_data p))). replace (length (p_data p)) with (k + (length (p_data p) - k))%nat by lia.
  rewrite bytes_from_app, take_app. rewrite bytes_from_length.
  assert (T : take whole (p_data p) = take k (p_data p)).
  { unfold k. destruct (Nat.min_spec whole (length (p_data p))) as [[_ ->]|[Lk ->]]; [reflexivity|]. rewrite !take_ge by lia. reflexivity. }
  assert (B : bytes_from k mem (pos + 4) = take k (p_data p)).
  { pose proof (laid_out_bytes mem pos p (le_bytes 2 (p_status p) ++ le_bytes 2 (p_size p)) (take k (p_data p)) (drop k (p_data p) ++ p_crc p) Hp Hl) as E.
    assert (Z4 : zlen (le_bytes 2 (p_status p) ++ le_bytes 2 (p_size p)) = 4) by (unfold zlen; rewrite length_app, !le_bytes_length; reflexivity).
    assert (Lk : length (take k (p_data p)) = k) by (rewrite length_take; lia).
    rewrite Z4, Lk in E. apply E; [rewrite <- app_assoc, (app_assoc (take k _)), take_drop; reflexivity|]. unfold zlen. rewrite Lk. lia. }
  rewrite B, T, take_ge by (rewrite length_take; lia). replace (whole - k)%nat with (if decide (whole <= length (p_data p))%nat then 0 else (whole - k))%nat by (case_decide; lia).
  case_decide; [rewrite take_0; apply app_nil_r|]. replace (length (p_data p) - k)%nat with 0%nat by lia. cbn [bytes_from]. rewrite take_nil. apply app_nil_r.
Qed.

(** The new position of the driver, and what it tells the card. *)
Lemma advance cur pos p : 0 <= cur < 2 ^ 32 -> cur mod RX_BUF_LEN = pos -> 4 <= p_size p < 8192 ->
  let cur' := Z.land (u32 (cur + p_size p + 7)) (not32 3) in
  0 <= cur' < 2 ^ 32 /\ cur' mod RX_BUF_LEN = next_pos pos p /\ (u16 (cur' - 16) + 16) mod RX_BUF_LEN = next_pos pos p.
Proof.
  intros Hc Hp Hs cur'. change (not32 3) with (2 ^ 32 - 2 ^ 2) in cur'. pose proof (u32_range (cur + p_size p + 7)) as R.
  unfold cur'. rewrite land_high_mask by lia. change (2 ^ 2) with 4.
  assert (E : (u32 (cur + p_size p + 7) - u32 (cur + p_size p + 7) mod 4) mod RX_BUF_LEN = next_pos pos p).
  { unfold next_pos, RX_BUF_LEN, u32 in *. divlia. }
  split; [divlia|]. split; [exact E|]. unfold next_pos, u16, u32, RX_BUF_LEN in *. divlia.
Qed.

(** The loop hands over the packets that are pending, and stops. *)
Lemma receive_loop_spec ps : forall fuel c cur, nic_pending c = ps -> in_step cur c -> (length ps <= fuel)%nat ->
  exists qs cur' c', receive_loop fuel c cur = Some (qs, cur', c') /\ delivered (nic_pos c) ps qs /\ nic_pending c' = [] /\ in_step cur' c'.
Proof.
  induction ps as [|p ps IH]; intros fuel c cur Hp [Hc Hs] Hf.
  - exists [], cur, c. split; [|split; [exact I | split; [exact Hp|split; assumption]]].
    assert (Z.land (nic_command c) 0x01 <> 0) by (intros E; apply law_empty in E; contradiction).
    destruct fuel; cbn [receive_loop]; replace (Z.land (nic_command c) 1 =? 0) with false by lia; reflexivity.
  - destruct fuel as [|fuel]; [cbn in Hf; lia|]. cbn [receive_loop].
    assert (E0 : Z.land (nic_command c) 0x01 = 0) by (apply law_empty; congruence). rewrite E0. cbn [Z.eqb negb].
    destruct (law_packet c p ps Hp) as [Ho Hl]. destruct (law_pos c) as [Hr Hm]. rewrite Hs.
    rewrite (header_size _ _ p) by (assumption || lia). pose proof (zlen_nonneg (p_data p)). destruct Ho as (Hst & Hcrc & Hz).
    assert (Hsz : 4 <= p_size p < 8192) by (unfold p_size in *; lia).
    destruct (advance cur (nic_pos c) p Hc Hs Hsz) as (Hc' & Hs' & Hv). set (cur' := Z.land (u32 _) _) in *.
    destruct (law_capr c p ps (u16 (cur' - 16)) Hp Hv) as [Hp' Hpos]. set (c' := nic_write_capr _ _) in *.
    destruct (IH fuel c' cur') as (qs & cur2 & c2 & E2 & D2 & Hp2 & Hs2); [exact Hp'|split; [exact Hc'|congruence]|cbn in Hf; lia|].
    rewrite E2. rewrite Hpos in D2. eexists _, cur2, c2. split; [reflexivity|]. split; [|auto].
    replace (u32 (p_size p - 4)) with (zlen (p_data p)) by (rewrite u32_small; unfold p_size in *; lia).
    destruct (frame_bytes (nic_rx_buffer c) (nic_pos c) p) as [F1 F2]; [lia | unfold RX_BUF_LEN in *; divlia | assumption|].
    cbn [delivered]. split; [exact F1 | split; [exact F2 | split; [|exact D2]]].
    intros Hend. unfold zlen in Hend. rewrite !take_ge in F2 by lia. exact F2.
Qed.

(** Where every frame ends before the ring does, the frames are handed over as they are. *)
Lemma delivered_whole ps : forall pos qs, delivered pos ps qs ->
  (forall ps1 p ps2, ps = ps1 ++ p :: ps2 -> fold_left next_pos ps1 pos + 4 + zlen (p_data p) <= RX_BUF_LEN) -> qs = p_data <$> ps.
Proof.
  induction ps as [|p ps IH]; intros pos [|q qs] D U; cbn [delivered] in D; try contradiction; [reflexivity|].
  destruct D as (_ & _ & D1 & D2). rewrite fmap_cons. f_equal; [apply D1; exact (U [] p ps eq_refl)|].
  apply (IH _ _ D2). intros ps1 p' ps2 ->. exact (U (p :: ps1) p' ps2 eq_refl).
Qed.
End receive.

Arguments NicLaws C {_}.

(** ** Sending *)

(** The first frame of the last four is still where it was put. *)
Record tx_ok (d : rtl8139) (sent : list (list Z)) : Prop := {
  tx_inited : m_inited d = true;
  tx_buffers : zlen (m_tx_buffers d) = NUM_TX_BUFFER;
  tx_current : m_current_tx d = zlen sent mod 4;
  tx_kept : forall k f, zget sent k = Some f -> zlen sent - 4 <= k -> zget (m_tx_buffers d) (k mod 4) = Some f
}.

Lemma transmit_ok d sent f : tx_ok d sent ->
  exists d', transmit d f = (0, d', [TxAddr (zlen sent mod 4); TxStatus (zlen sent mod 4) (Z.lor 0x1000000 (zlen f))]) /\ tx_ok d' (sent ++ [f]).
Proof.
  intros [I B C K]. unfold transmit. rewrite I. cbn [negb]. eexists. split; [rewrite C; reflexivity|].
  pose proof (zlen_nonneg sent). constructor; cbn [m_inited m_tx_buffers m_current_tx].
  - reflexivity.
  - unfold zlen in *. rewrite zset_length. exact B.
  - rewrite zlen_app. change (zlen [f]) with 1. divlia.
  - rewrite zlen_app. change (zlen [f]) with 1. intros k g Hg Hk.  pose proof (zget_Some_range _ _ _ Hg) as R.
    rewrite zlen_app in R. change (zlen [f]) with 1 in R. rewrite zget_app in Hg. destruct (decide (k < zlen sent)).
    + rewrite zget_zset_ne by divlia. apply K; [exact Hg|lia].
    + assert (k = zlen sent) as -> by lia. rewrite Z.sub_diag in Hg. change (Some f = Some g) in Hg. injection Hg as <-.
      apply zget_zset_eq. unfold NUM_TX_BUFFER in B. divlia.
Qed.

Lemma transmit_all_ok fs : forall d sent, tx_ok d sent ->
  exists d' w, transmit_all d fs = (d', w) /\ tx_ok d' (sent ++ fs) /\
    w = concat (imap (fun i f => [TxAddr ((zlen sent + Z.of_nat i) mod 4); TxStatus ((zlen sent + Z.of_nat i) mod 4) (Z.lor 0x1000000 (zlen f))]) fs).
Proof.
  induction fs as [|f fs IH]; intros d sent H; cbn [transmit_all]; [exists d, []; rewrite app_nil_r; auto|].
  destruct (transmit_ok d sent f H) as (d1 & E1 & H1). rewrite E1. destruct (IH d1 (sent ++ [f]) H1) as (d2 & w & E2 & H2 & Ew).
  rewrite E2. eexists d2, _. split; [reflexivity|]. rewrite <- app_assoc in H2. split; [exact H2|]. rewrite imap_cons. cbn [concat].
  rewrite Z.add_0_r. f_equal. rewrite Ew. f_equal. apply imap_ext. intros i x Hx. cbn. rewrite zlen_app. change (zlen [f]) with 1.
  do 2 f_equal; [|f_equal]; f_equal; lia.
Qed.

(** ** Theorems *)

(** C37: An interrupt of the card is served: with the ring as the data sheet says, [do_irq] returns,
    having handed one packet to the network for every frame that was pending, in order, with the right length and without
    its check sequence; the ring is empty afterwards, and driver and card agree where to read next.
    Each packet has the bytes of its frame up to the end of the ring, so that a frame that ends
    before the ring does is handed over exactly.  The rest of a frame that goes on at the start of
    the ring is not read ([broken_frame_is_misread]). *)
Theorem frames_are_received {C} `{Nic C} (L : NicLaws C) (d : rtl8139) (c : C) (fuel : nat)
  (Hstep : in_step (m_current_rx d) c) (Hfuel : (length (nic_pending c) <= fuel)%nat)
  (Hok : Z.land (nic_status c) RTL8139_RX_OK <> 0) :
  exists qs d' c', do_irq fuel d c = Some (qs, d', c') /\ delivered (nic_pos c) (nic_pending c) qs /\
    nic_pending c' = [] /\ in_step (m_current_rx d') c' /\
    m_tx_buffers d' = m_tx_buffers d /\ m_current_tx d' = m_current_tx d.
Proof.
  unfold do_irq, receive. replace (Z.land (nic_status c) RTL8139_RX_OK =? 0) with false by lia. cbn [negb].
  destruct (law_ack c (nic_status c)) as [Ep Eq]. set (c0 := nic_ack c _) in *.
  destruct (receive_loop_spec (nic_pending c) fuel c0 (m_current_rx d)) as (qs & cur & c' & E & D & H1 & H2);
    [exact Ep|unfold in_step in *; rewrite Eq; exact Hstep|exact Hfuel|].
  rewrite Eq in D. rewrite E. exists qs, (set_rx d cur), c'. auto 10.
Qed.

(** Frames go out through the four buffers in turn: after any number of calls of [transmit]
    the registers of each were written with its buffer and its length, and the last four
    frames are still in their buffers. *)
Theorem frames_are_sent (d : rtl8139) (frames : list (list Z)) (Hok : tx_ok d []) :
  exists d' w, transmit_all d frames = (d', w) /\
    w = concat (imap (fun i f => [TxAddr (Z.of_nat i mod 4); TxStatus (Z.of_nat i mod 4) (Z.lor 0x1000000 (zlen f))]) frames) /\
    (forall k f, zget frames k = Some f -> zlen frames - 4 <= k -> zget (m_tx_buffers d') (k mod 4) = Some f).
Proof.
  destruct (transmit_all_ok frames d [] Hok) as (d' & w & E & [_ _ _ K] & Ew). exists d', w. split; [exact E|]. split; [exact Ew|]. exact K.
Qed.

(** ** A card

    The ring, the packets that are pending and where the first one begins. *)
Fixpoint all_laid (mem : Z -> Z) (pos : Z) (ps : list packet) : Prop :=
  match ps with
  | [] => True
  | p :: r => packet_ok p /\ laid_out mem pos p /\ all_laid mem (next_pos pos p) r
  end.

Record card := mk_card {
  k_mem : Z -> Z;
  k_pos : Z;
  k_pending : list packet;
  k_range : 0 <= k_pos < RX_BUF_LEN /\ k_pos mod 4 = 0;
  k_laid : all_laid k_mem k_pos k_pending
}.

Lemma next_pos_range pos p : 0 <= next_pos pos p < RX_BUF_LEN /\ next_pos pos p mod 4 = 0.
Proof. unfold next_pos, RX_BUF_LEN. split; divlia. Qed.

Definition consume (c : card) (v : Z) : card :=
  match k_pending c as ps return all_laid (k_mem c) (k_pos c) ps -> card with
  | [] => fun _ => c
  | p :: r => fun H => if (v + 16) mod RX_BUF_LEN =? next_pos (k_pos c) p
                       then mk_card (k_mem c) (next_pos (k_pos c) p) r (next_pos_range (k_pos c) p) (proj2 (proj2 H)) else c
  end (k_laid c).

#[export] Instance card_nic : Nic card := {|
  nic_command c := match k_pending c with [] => 1 | _ => 0 end;
  nic_write_capr := consume;
  nic_status c := match k_pending c with [] => 0 | _ => RTL8139_RX_OK end;
  nic_ack c _ := c;
  nic_rx_buffer := k_mem
|}.

#[export] Instance card_laws : NicLaws card.
Proof.
  refine {| nic_pending := k_pending; nic_pos := k_pos |}.
  - intros c. cbn. destruct (k_pending c); (split; [|intros Hn]); [discriminate|congruence|discriminate|reflexivity].
  - apply k_range.
  - intros c p ps E. pose proof (k_laid c) as H. rewrite E in H. destruct H as (H1 & H2 & _). auto.
  - intros [mem pos pend R Hl] p ps v E Hv. cbn in *. subst pend. unfold consume. cbn. rewrite Hv, Z.eqb_refl. auto.
  - intros c v. auto.
Defined.

Definition ring_of (pos : Z) (bytes : list Z) : Z -> Z := fun a =>
  if (0 <=? a) && (a <? RX_BUF_LEN) then default 0 (zget bytes ((a - pos) mod RX_BUF_LEN)) else 0.

Definition packet_bytes (p : packet) : list Z := le_bytes 2 (p_status p) ++ le_bytes 2 (p_size p) ++ p_data p ++ p_crc p.

Lemma ring_of_laid pos p : 0 <= pos < RX_BUF_LEN -> zlen (packet_bytes p) <= RX_BUF_LEN -> laid_out (ring_of pos (packet_bytes p)) pos p.
Proof.
  intros Hp Hl i b Hb. pose proof (zget_Some_range _ _ _ Hb) as R. fold (packet_bytes p) in Hb, R. unfold ring_of.
  pose proof (Z.mod_pos_bound (pos + i) RX_BUF_LEN ltac:(reflexivity)).
  replace ((0 <=? (pos + i) mod RX_BUF_LEN) && ((pos + i) mod RX_BUF_LEN <? RX_BUF_LEN)) with true by lia.
  replace (((pos + i) mod RX_BUF_LEN - pos) mod RX_BUF_LEN) with i; [rewrite Hb; reflexivity|].
  unfold RX_BUF_LEN in *. divlia.
Qed.

Definition hello : packet := mk_packet 1 [104; 101; 108; 108; 111] [1; 2; 3; 4].

Lemma hello_laid pos : 0 <= pos < RX_BUF_LEN -> all_laid (ring_of pos (packet_bytes hello)) pos [hello].
Proof.
  intros H. split; [|split; [|exact I]].
  - split; [cbn; lia|]. split; reflexivity.
  - apply ring_of_laid; [exact H|discriminate].
Qed.

Definition card_at (pos : Z) (H : 0 <= pos < RX_BUF_LEN /\ pos mod 4 = 0) : card :=
  mk_card (ring_of pos (packet_bytes hello)) pos [hello] H (hello_laid pos (proj1 H)).

(** Witnesses *)
Lemma pos64 : 0 <= 64 < RX_BUF_LEN /\ 64 mod 4 = 0.
Proof. split; [split; [discriminate|reflexivity]|reflexivity]. Qed.

Definition card0 : card := card_at 64 pos64.
Definition driver0 (cur : Z) : rtl8139 := mk_rtl true cur (replicate 4 []) 0.

Lemma driver0_tx : tx_ok (driver0 0) [].
Proof. split; try reflexivity. intros k f Hk. apply zget_Some_range in Hk. change (zlen (@nil (list Z))) with 0 in Hk. lia. Qed.

Lemma frames_are_sent_witness : exists d' w, transmit_all (driver0 0) [[1]; [2; 3]] = (d', w) /\ zget (m_tx_buffers d') 1 = Some [2; 3].
Proof.
  destruct (frames_are_sent (driver0 0) [[1]; [2; 3]] driver0_tx) as (d' & w & E & _ & K). exists d', w. split; [exact E|].
  apply (K 1 [2; 3]); [reflexivity|discriminate].
Defined.

(** A frame that reaches the end of the ring continues at its start; the driver reads on
    behind the end instead, and hands over what that memory holds. *)
Lemma pos_end : 0 <= RX_BUF_LEN - 8 < RX_BUF_LEN /\ (RX_BUF_LEN - 8) mod 4 = 0.
Proof. split; [split; [discriminate|reflexivity]|reflexivity]. Qed.

Definition card_end : card := card_at (RX_BUF_LEN - 8) pos_end.

(** One frame in the middle of the ring, and one that is broken by its end: the first is handed over
    as it is, of the second the four bytes in front of the end. *)
Lemma frames_are_received_witness :
  (exists d' c', do_irq 1 (driver0 (32768 + 64)) card0 = Some ([[104; 101; 108; 108; 111]], d', c') /\ k_pending c' = []) /\
  (exists q d' c', do_irq 1 (driver0 (RX_BUF_LEN - 8)) card_end = Some ([q], d', c') /\ length q = 5%nat /\ take 4 q = [104; 101; 108; 108] /\ k_pending c' = []).
Proof.
  split.
  - destruct (frames_are_received card_laws (driver0 (32768 + 64)) card0 1) as (qs & d' & c' & E & D & H & _).
    + split; [split; [discriminate|reflexivity]|reflexivity].
    + apply le_n.
    + discriminate.
    + exists d', c'. split; [|exact H]. destruct qs as [|q [|q2 qs]]; [destruct D | | destruct D as (_ & _ & _ & D); destruct D]. destruct D as (_ & _ & D1 & _).
      rewrite E, D1 by discriminate. reflexivity.
  - destruct (frames_are_received card_laws (driver0 (RX_BUF_LEN - 8)) card_end 1) as (qs & d' & c' & E & D & H & _).
    + split; [split; [discriminate|reflexivity]|reflexivity].
    + apply le_n.
    + discriminate.
    + destruct qs as [|q [|q2 qs]]; [destruct D | | destruct D as (_ & _ & _ & D); destruct D]. destruct D as (D1 & D2 & _).
      exists q, d', c'. split; [exact E | split; [exact D1 | split; [exact D2 | exact H]]].
Defined.

Example broken_frame_is_misread : (fun r => fst (fst r)) <$> receive_loop 1 card_end (RX_BUF_LEN - 8) = Some [[104; 101; 108; 108; 0]].
Proof. vm_compute. reflexivity. Qed.
