(* ===== verification/Loader.v ===== *)
(** * The boot loader (src/src/loadmain.cc)

    [loadmain] runs before there is a kernel: it polls the disk for the first sector of the kernel's ELF
    file, copies the segments to their physical addresses, clears what the file does not fill, copies the
    font and jumps to the entry.  Its buffer is on the stack, in the same memory as everything it loads:
    the headers are read from there again for every segment.

    The disk is the [Controller] of [BlockDev]; polling its status is the wait for the completion of the
    command.  [read_segment] computes the end of the destination after it has moved the start down to
    a sector: for a segment that does not start at a sector boundary of the file the last bytes can be missing
    ([unaligned_tail_is_missing]). *)
From Stdlib Require Import ZArith ZifyBool Lia.
From stdpp Require Import base option list gmap.
From S2P Require Import Prelude CString BlockDev Trap Elf.

Definition KERNEL_ELF_LBA : Z := 3.
Definition FONT_ASC16_ADDR : Z := 0x10000.
Definition FONT_ASC16_LBA : Z := 2040.
Definition FONT_ASC16_SECT_NUM : Z := 8.

(** [rep stosb] *)
Definition stosb (m : mem) (addr data cnt : Z) : mem := memset_loop (Z.to_nat (u32 cnt)) m addr data.

(** Where control goes at the end. *)
Inductive boot_result := Returned | Entered (entry : Z).

Section loader.
Context {D : Type} `{Controller D}.
Implicit Types (c : D) (m : mem).

(** [0xe0 | ((lba >> 24) & 0xff)] is the register [task_of] computes for drive 0. *)
Definition read_sector c m buf lba : mem * D :=
  let c := issue_read c (task_of 0 lba) in
  let '(data, c) := finish c in
  (put_bytes m buf data, c).

(** [for (; p < end; p += SECT_SIZE, lba++)] *)
Fixpoint segment_loop (fuel : nat) c m p lba end_ : option (mem * D) :=
  if p <? end_ then
    match fuel with
    | O => None
    | S k => let '(m, c) := read_sector c m p lba in segment_loop k c m (u32 (p + SECT_SIZE)) (u32 (lba + 1)) end_
    end
  else Some (m, c).

Definition read_segment c m pa offset size : option (mem * D) :=
  let p := u32 (pa - offset mod SECT_SIZE) in
  let lba := offset / SECT_SIZE in
  let end_ := u32 (p + size) in
  segment_loop (Z.to_nat (end_ / SECT_SIZE + 1)) c m p lba end_.

(** [*elf] and [*ph], read from the memory where they lie. *)
Definition elf_at m buf : elf_hdr := elf_of (get_bytes m buf 52).
Definition ph_at m ph : prog_hdr := ph_of (get_bytes m ph 32).

Definition load_ph c m elf_offset (ph : prog_hdr) : option (mem * D) :=
  match read_segment c m (ph_paddr ph) (u32 (elf_offset + ph_off ph)) (ph_filesz ph) with
  | None => None
  | Some (m, c) =>
      Some (if ph_filesz ph <? ph_memsz ph
            then stosb m (u32 (ph_paddr ph + ph_filesz ph)) 0 (ph_memsz ph - ph_filesz ph) else m, c)
  end.

(** The loop over the headers; it reads [elf->phnum] again every time. *)
Fixpoint headers_loop (fuel : nat) c m elf elf_offset i ph : option (mem * D) :=
  if i <? eh_phnum (elf_at m elf) then
    match fuel with
    | O => None
    | S k =>
        match load_ph c m elf_offset (ph_at m ph) with
        | None => None
        | Some (m, c) => headers_loop k c m elf elf_offset (i + 1) (u32 (ph + PROG_HDR_SIZE))
        end
    end
  else Some (m, c).

(** [uint16 phnum]: at most 65535 headers. *)
Definition PHNUM_FUEL : nat := Z.to_nat 65536.

Fixpoint font_loop (n : nat) c m font_addr font_lba : mem * D :=
  match n with
  | O => (m, c)
  | S k => let '(m, c) := read_sector c m font_addr font_lba in font_loop k c m (font_addr + SECT_SIZE) (font_lba + 1)
  end.

(** [elf] is the address of the buffer. *)
Definition loadmain c m elf : option (boot_result * mem * D) :=
  let m := memset_loop 512 m elf 0 in
  let '(m, c) := read_sector c m elf KERNEL_ELF_LBA in
  if negb (eh_magic (elf_at m elf) =? ELF_MAGIC) then Some (Returned, m, c)
  else
    let elf_offset := SECT_SIZE * KERNEL_ELF_LBA in
    match headers_loop PHNUM_FUEL c m elf elf_offset 0 (u32 (elf + eh_phoff (elf_at m elf))) with
    | None => None
    | Some (m, c) =>
        let '(m, c) := font_loop (Z.to_nat FONT_ASC16_SECT_NUM) c m FONT_ASC16_ADDR FONT_ASC16_LBA in
        Some (Entered (eh_entry (elf_at m elf)), m, c)
    end.
End loader.

(** ** What is loaded *)

Section correct.
Context {D : Type} `{ControllerLaws D}.
Implicit Types (c : D) (m : mem).

(** Byte [k] of the boot disk. *)
Definition disk_byte c k : Z := nth (Z.to_nat (k mod SECT_SIZE)) (sector c 0 (k / SECT_SIZE)) 0.

Definition same_disk c c' : Prop := forall v a, sector c' v a = sector c v a.
Definition full_sectors c : Prop := forall a, length (sector c 0 a) = 512%nat /\ byte_list (sector c 0 a).

Lemma same_disk_byte c c' k : same_disk c c' -> disk_byte c' k = disk_byte c k.
Proof. intros E. unfold disk_byte. rewrite E. reflexivity. Qed.

Lemma same_disk_full c c' : same_disk c c' -> full_sectors c -> full_sectors c'.
Proof. intros E F a. rewrite E. apply F. Qed.

(** [m'] is [m] with the bytes of the disk from [off] on at [lo], up to [hi]. *)
Definition filled c m m' lo hi off : Prop :=
  forall x, m' x = if (lo <=? x) && (x <? hi) then disk_byte c (off + (x - lo)) else m x.

Lemma read_sector_ok c m buf lba : full_sectors c -> 0 <= lba < 2 ^ 28 ->
  exists m' c', read_sector c m buf lba = (m', c') /\ same_disk c c' /\ filled c m m' buf (buf + 512) (512 * lba).
Proof.
  intros F L. unfold read_sector. destruct (finish_read c (task_of 0 lba)) as (c' & E & Sd). rewrite E.
  destruct (task_of_low 0 lba L) as [-> ->]. change (0 mod 2) with 0. eexists _, c'. split; [reflexivity|]. split; [exact Sd|].
  intros x. destruct (F lba) as [Fl _]. destruct ((buf <=? x) && (x <? buf + 512)) eqn:T.
  - tests. destruct (lookup_lt_is_Some_2 (sector c 0 lba) (Z.to_nat (x - buf)) ltac:(lia)) as [b Eb].
    replace x with (buf + Z.of_nat (Z.to_nat (x - buf))) at 1 by lia. rewrite (put_bytes_at _ _ _ _ _ Eb).
    unfold disk_byte, SECT_SIZE. replace ((512 * lba + (x - buf)) mod 512) with (x - buf) by divlia.
    replace ((512 * lba + (x - buf)) / 512) with lba by divlia. symmetry. apply nth_lookup_Some, Eb.
  - apply put_bytes_frame. unfold zlen. lia.
Qed.

(** A sector, and then the others. *)
Lemma filled_next c c1 m m1 m' p hi lba : same_disk c c1 -> filled c m m1 p (p + 512) (512 * lba) -> p + 512 <= hi ->
  filled c1 m1 m' (p + 512) hi (512 * (lba + 1)) -> filled c m m' p hi (512 * lba).
Proof.
  intros Sd F1 Hh F2 x. rewrite F2, F1, (same_disk_byte c c1) by assumption.
  destruct (decide (p <= x < p + 512)); [|destruct (decide (p + 512 <= x < hi))].
  - replace ((p + 512 <=? x) && _) with false by lia. replace ((p <=? x) && (x <? p + 512)) with true by lia.
    replace ((p <=? x) && _) with true by lia. reflexivity.
  - replace ((p + 512 <=? x) && _) with true by lia. replace ((p <=? x) && _) with true by lia. f_equal. lia.
  - replace ((p + 512 <=? x) && _) with false by lia. replace ((p <=? x) && (x <? p + 512)) with false by lia.
    replace ((p <=? x) && _) with false by lia. reflexivity.
Qed.

(** Sectors to come. *)
Definition sectors_for size : Z := (size + 511) / 512.

Lemma segment_loop_ok n : forall fuel c m p lba end_, full_sectors c -> 0 <= p -> p + 512 * Z.of_nat n < 2 ^ 32 ->
  0 <= lba -> lba + Z.of_nat n <= 2 ^ 28 -> (n <= fuel)%nat ->
  end_ <= p + 512 * Z.of_nat n < end_ + 512 -> 
  exists m' c', segment_loop fuel c m p lba end_ = Some (m', c') /\ same_disk c c' /\ filled c m m' p (p + 512 * Z.of_nat n) (512 * lba).
Proof.
  induction n as [|n IH]; intros fuel c m p lba end_ F P B L L' Hf He.
  - exists m, c. split; [destruct fuel; cbn; replace (p <? end_) with false by lia; reflexivity|].
    split; [intros v a; reflexivity|]. intros x. replace ((p <=? x) && (x <? p + 512 * Z.of_nat 0)) with false by lia. reflexivity.
  - destruct fuel as [|fuel]; [lia|]. cbn [segment_loop]. replace (p <? end_) with true by lia.
    destruct (read_sector_ok c m p lba F ltac:(lia)) as (m1 & c1 & -> & S1 & F1).
    unfold SECT_SIZE. rewrite !u32_small by lia.
    destruct (IH fuel c1 m1 (p + 512) (lba + 1) end_) as (m' & c' & E & S2 & F2); try lia; [apply (same_disk_full c); assumption|].
    exists m', c'. split; [exact E|]. split; [intros v a; rewrite S2; apply S1|].
    replace (p + 512 * Z.of_nat (S n)) with (p + 512 + 512 * Z.of_nat n) by lia. apply (filled_next c c1 m m1); auto; lia.
Qed.

(** Whole sectors, from the sector that holds the first byte on, as many as [size] bytes need. *)
Lemma read_segment_ok c m pa offset size : full_sectors c -> 0 <= offset -> 0 <= size -> offset mod 512 <= pa ->
  pa - offset mod 512 + 512 * sectors_for size < 2 ^ 32 -> offset / 512 + sectors_for size <= 2 ^ 28 ->
  exists m' c', read_segment c m pa offset size = Some (m', c') /\ same_disk c c' /\
    filled c m m' (pa - offset mod 512) (pa - offset mod 512 + 512 * sectors_for size) (offset - offset mod 512).
Proof.
  intros F O Sz P B L. unfold read_segment, SECT_SIZE. assert (Hs : size <= 512 * sectors_for size < size + 512) by (unfold sectors_for; divlia).
  pose proof (Z.mod_pos_bound offset 512 ltac:(lia)). rewrite (u32_small (pa - _)) by lia. rewrite u32_small by lia.
  destruct (segment_loop_ok (Z.to_nat (sectors_for size)) (Z.to_nat ((pa - offset mod 512 + size) / 512 + 1)) c m (pa - offset mod 512) (offset / 512) (pa - offset mod 512 + size))
    as (m' & c' & E & S' & F'); auto; try lia; try divlia.
  exists m', c'. rewrite Z2Nat.id in F' by lia. split_and!; auto. replace (offset - offset mod 512) with (512 * (offset / 512)) by divlia. exact F'.
Qed.

(** ** A segment *)

Definition ELF_OFFSET : Z := SECT_SIZE * KERNEL_ELF_LBA.

(** The memory that loading a segment writes: whole sectors, and what is cleared. *)
Definition seg_room (ph : prog_hdr) : Z := Z.max (ph_memsz ph) (512 * sectors_for (ph_filesz ph)).
Definition in_room (ph : prog_hdr) (x : Z) : bool := (ph_paddr ph <=? x) && (x <? ph_paddr ph + seg_room ph).
Definition seg_value c (ph : prog_hdr) (x : Z) : Z :=
  let k := x - ph_paddr ph in
  if (ph_filesz ph <=? k) && (k <? ph_memsz ph) then 0 else disk_byte c (ELF_OFFSET + ph_off ph + k).

(** The bytes of a segment, and the bytes behind it up to the end of the last sector that is read,
    which are overwritten as well. *)
Definition in_segment (ph : prog_hdr) (x : Z) : bool :=
  (ph_paddr ph <=? x) && (x <? ph_paddr ph + Z.max (ph_filesz ph) (ph_memsz ph)).
Definition in_slack (ph : prog_hdr) (x : Z) : bool :=
  (ph_paddr ph + Z.max (ph_filesz ph) (ph_memsz ph) <=? x) && (x <? ph_paddr ph + 512 * ((ph_filesz ph + 511) / 512)).

Lemma room_split ph x : 0 <= ph_filesz ph -> in_room ph x = in_segment ph x || in_slack ph x.
Proof.
  intros Hsz. unfold in_room, in_segment, in_slack, seg_room, sectors_for.
  assert (ph_filesz ph <= 512 * ((ph_filesz ph + 511) / 512)) by divlia. lia.
Qed.

(** A segment starts on a sector of the file and lies within memory and disk. *)
Record seg_fits (ph : prog_hdr) : Prop := {
  sf_off : 0 <= ph_off ph;
  sf_aligned : ph_off ph mod 512 = 0;
  sf_paddr : 0 <= ph_paddr ph;
  sf_filesz : 0 <= ph_filesz ph;
  sf_memsz : 0 <= ph_memsz ph;
  sf_end : ph_paddr ph + seg_room ph < 2 ^ 32;
  sf_disk : (ELF_OFFSET + ph_off ph) / 512 + sectors_for (ph_filesz ph) < 2 ^ 23
}.

Lemma load_ph_ok c m ph : full_sectors c -> seg_fits ph ->
  exists m' c', load_ph c m ELF_OFFSET ph = Some (m', c') /\ same_disk c c' /\
    forall x, m' x = if in_room ph x then seg_value c ph x else m x.
Proof.
  intros F [O A P Sz Ms E L]. unfold load_ph, ELF_OFFSET, SECT_SIZE, KERNEL_ELF_LBA in *. change (512 * 3) with 1536 in *. unfold seg_room in E.
  assert (Hs : ph_filesz ph <= 512 * sectors_for (ph_filesz ph) /\ 0 <= sectors_for (ph_filesz ph)) by (unfold sectors_for; divlia).
  assert (A' : (1536 + ph_off ph) mod 512 = 0) by divlia. rewrite u32_small by divlia.
  destruct (read_segment_ok c m (ph_paddr ph) (1536 + ph_off ph) (ph_filesz ph)) as (m1 & c1 & -> & S1 & F1); auto; try lia.
  rewrite A', !Z.sub_0_r in F1. eexists _, c1. split; [reflexivity|]. split; [exact S1|]. intros x.
  unfold in_room, seg_room, seg_value, ELF_OFFSET, SECT_SIZE, KERNEL_ELF_LBA. change (512 * 3) with 1536. destruct (ph_filesz ph <? ph_memsz ph) eqn:T; tests.
  - unfold stosb. rewrite memset_loop_spec, F1, !u32_small by lia. rewrite Z2Nat.id by lia.
    destruct (decide (ph_paddr ph + ph_filesz ph <= x < ph_paddr ph + ph_memsz ph)) as [In | Out].
    + replace ((_ <=? x) && (x <? _ + (_ - _))) with true by lia. replace ((ph_paddr ph <=? x) && _) with true by lia.
      replace ((ph_filesz ph <=? _) && _) with true by lia. reflexivity.
    + replace ((_ + _ <=? x) && (x <? _ + (_ - _))) with false by lia. replace ((ph_filesz ph <=? _) && _) with false by lia.
      replace ((ph_paddr ph <=? x) && (x <? ph_paddr ph + Z.max _ _)) with ((ph_paddr ph <=? x) && (x <? ph_paddr ph + 512 * sectors_for (ph_filesz ph))) by lia.
      reflexivity.
  - rewrite F1. replace ((ph_filesz ph <=? _) && _) with false by lia. replace (Z.max _ _) with (512 * sectors_for (ph_filesz ph)) by lia. reflexivity.
Qed.

(** ** All segments *)

(** The memory after the segments, as a specification: each writes its room. *)
Definition image c (phs : list prog_hdr) m : mem :=
  foldl (fun m ph x => if in_room ph x then seg_value c ph x else m x) m phs.

Definition outside (phs : list prog_hdr) (x : Z) : Prop := forall ph, ph ∈ phs -> in_room ph x = false.

Lemma image_outside c phs : forall m x, outside phs x -> image c phs m x = m x.
Proof.
  induction phs as [|ph phs IH]; intros m x O; [reflexivity|]. cbn. unfold image in IH. rewrite IH by (intros q Hq; apply O; right; exact Hq).
  rewrite (O ph) by left. reflexivity.
Qed.

Lemma image_ext c phs : forall m m' x, m x = m' x -> image c phs m x = image c phs m' x.
Proof.
  induction phs as [|ph phs IH]; intros m m' x E; [exact E|]. cbn. unfold image in IH. apply IH. rewrite E. reflexivity.
Qed.

(** The last of the segments that write a byte gives it its value. *)
Lemma image_at c phs m i ph x : phs !! i = Some ph -> in_room ph x = true ->
  (forall j q, (i < j)%nat -> phs !! j = Some q -> in_room q x = false) -> image c phs m x = seg_value c ph x.
Proof.
  intros E R L. pose proof (take_drop_middle _ _ _ E) as <-. unfold image. rewrite foldl_app. cbn.
  etransitivity; [apply (image_outside c (drop (S i) phs)) | cbn; rewrite R; reflexivity].
  intros q Hq. apply list_elem_of_lookup in Hq as [k Hk]. rewrite lookup_drop in Hk. apply (L (S i + k)%nat); [lia | exact Hk].
Qed.

(** Bytes of the buffer, as long as they are those of the sector. *)
Lemma buffer_bytes c m m1 elf lba m' o n : filled c m m1 elf (elf + 512) (512 * lba) -> full_sectors c ->
  (forall x, elf <= x < elf + 512 -> m' x = m1 x) -> 0 <= o -> o + Z.of_nat n <= 512 ->
  get_bytes m' (elf + o) n = take n (drop (Z.to_nat o) (sector c 0 lba)).
Proof.
  intros F Fs Ag Ho Hn. destruct (Fs lba) as [Fl _]. apply list_eq_same_length with (n := n).
  - rewrite length_take, length_drop. lia.
  - apply get_bytes_length.
  - intros i a b Hi Ha Hb. unfold get_bytes in Ha. apply list_lookup_fmap_Some in Ha as (j & -> & Hj). apply lookup_seq in Hj as [-> Hj].
    rewrite lookup_take_lt, lookup_drop in Hb by lia. rewrite Ag, F by lia. replace ((elf <=? _) && _) with true by lia.
    unfold disk_byte, SECT_SIZE. replace ((512 * lba + _) mod 512) with (o + Z.of_nat i) by divlia.
    replace ((512 * lba + _) / 512) with lba by divlia. apply nth_lookup_Some. rewrite <- Hb. f_equal. lia.
Qed.

Lemma decode_range sizes : forall bs i, byte_list bs -> 0 <= nth i (decode sizes bs) 0 < 256 ^ Z.of_nat (nth i sizes 0%nat).
Proof.
  induction sizes as [|n sizes IH]; intros bs i B; destruct i; cbn [decode nth]; try lia.
  - apply le_value_range; [apply Forall_take, B | rewrite length_take; lia].
  - apply IH, Forall_drop, B.
Qed.

(** The headers in the first sector of the kernel. *)
Definition boot_elf c : elf_hdr := elf_of (take 52 (sector c 0 KERNEL_ELF_LBA)).
Definition boot_ph c i : prog_hdr :=
  ph_of (take 32 (drop (Z.to_nat (eh_phoff (boot_elf c) + 32 * i)) (sector c 0 KERNEL_ELF_LBA))).

Lemma boot_elf_range c : full_sectors c -> 0 <= eh_phoff (boot_elf c) < 2 ^ 32 /\ 0 <= eh_phnum (boot_elf c) < 2 ^ 16.
Proof.
  intros F. destruct (F KERNEL_ELF_LBA) as [_ B]. apply (Forall_take _ 52) in B. unfold boot_elf, elf_of. cbn [eh_phoff eh_phnum].
  set (sz := [4; 12; 2; 2; 4; 4; 4; 4; 4; 2; 2; 2; 2; 2; 2]%nat).
  split; [exact (decode_range sz _ 6 B) | exact (decode_range sz _ 11 B)].
Qed.

Section buffer.
Context (c0 : D) (m0 m1 : mem) (elf : Z).
Hypothesis F0 : full_sectors c0.
Hypothesis B1 : filled c0 m0 m1 elf (elf + 512) (512 * KERNEL_ELF_LBA).

Definition keeps_buffer m : Prop := forall x, elf <= x < elf + 512 -> m x = m1 x.

Lemma elf_at_ok m : keeps_buffer m -> elf_at m elf = boot_elf c0.
Proof.
  intros K. unfold elf_at, boot_elf. rewrite <- (Z.add_0_r elf) at 1. rewrite (buffer_bytes c0 m0 m1 elf _ m 0 52 B1) by (auto; lia). reflexivity.
Qed.

Lemma ph_at_ok m i : keeps_buffer m -> 0 <= i -> eh_phoff (boot_elf c0) + 32 * (i + 1) <= 512 ->
  ph_at m (elf + (eh_phoff (boot_elf c0) + 32 * i)) = boot_ph c0 i.
Proof.
  intros K I Le. pose proof (boot_elf_range c0 F0). unfold ph_at, boot_ph. rewrite (buffer_bytes c0 m0 m1 elf _ m _ 32 B1) by (auto; lia). reflexivity.
Qed.

Hypothesis Elf : 0 <= elf /\ elf + 512 < 2 ^ 32.
Hypothesis Hdr : eh_phoff (boot_elf c0) + 32 * eh_phnum (boot_elf c0) <= 512.
Hypothesis Fits : forall i, 0 <= i < eh_phnum (boot_elf c0) -> seg_fits (boot_ph c0 i).
Hypothesis Apart : forall i x, 0 <= i < eh_phnum (boot_elf c0) -> elf <= x < elf + 512 -> in_room (boot_ph c0 i) x = false.

Lemma headers_loop_ok n : forall fuel c m i, same_disk c0 c -> keeps_buffer m -> 0 <= i -> i + Z.of_nat n = eh_phnum (boot_elf c0) -> (n <= fuel)%nat ->
  exists m' c', headers_loop fuel c m elf ELF_OFFSET i (elf + (eh_phoff (boot_elf c0) + 32 * i)) = Some (m', c') /\ same_disk c0 c' /\
    keeps_buffer m' /\ forall x, m' x = image c0 (boot_ph c0 <$> seqZ i (Z.of_nat n)) m x.
Proof.
  induction n as [|n IH]; intros fuel c m i Sd K I En Hf.
  - exists m, c. split; [destruct fuel; cbn [headers_loop]; rewrite (elf_at_ok m K); replace (i <? _) with false by lia; reflexivity|].
    split_and!; auto.
  - destruct fuel as [|fuel]; [lia|]. cbn [headers_loop]. rewrite (elf_at_ok m K). replace (i <? _) with true by lia.
    rewrite ph_at_ok by (auto; lia). destruct (load_ph_ok c m (boot_ph c0 i)) as (m2 & c2 & -> & S2 & F2); [apply (same_disk_full c0); auto | apply Fits; lia|].
    assert (Sd2 : same_disk c0 c2) by (intros v a; rewrite S2; apply Sd).
    assert (K2 : keeps_buffer m2) by (intros x Hx; rewrite F2, Apart by lia; apply K, Hx).
    pose proof (boot_elf_range c0 F0). unfold PROG_HDR_SIZE. rewrite u32_small by lia.
    replace (elf + _ + 32) with (elf + (eh_phoff (boot_elf c0) + 32 * (i + 1))) by lia.
    destruct (IH fuel c2 m2 (i + 1) Sd2 K2) as (m' & c' & E & S' & K' & F'); try lia.
    exists m', c'. split_and!; auto. intros x. rewrite F'. rewrite (seqZ_cons i) by lia. replace (Z.pred (Z.of_nat (S n))) with (Z.of_nat n) by lia.
    cbn. apply image_ext. rewrite F2. unfold seg_value. rewrite (same_disk_byte c0 c) by exact Sd. reflexivity.
Qed.
End buffer.

Lemma font_loop_ok n : forall c m addr lba, full_sectors c -> 0 <= lba -> lba + Z.of_nat n <= 2 ^ 28 ->
  exists m' c', font_loop n c m addr lba = (m', c') /\ same_disk c c' /\ filled c m m' addr (addr + 512 * Z.of_nat n) (512 * lba).
Proof.
  induction n as [|n IH]; intros c m addr lba F L L'.
  - exists m, c. split; [reflexivity|]. split; [intros v a; reflexivity|]. intros x. replace (_ && _) with false by lia. reflexivity.
  - cbn [font_loop]. destruct (read_sector_ok c m addr lba F ltac:(lia)) as (m1 & c1 & -> & S1 & F1). unfold SECT_SIZE.
    destruct (IH c1 m1 (addr + 512) (lba + 1)) as (m' & c' & E & S2 & F2); try lia; [apply (same_disk_full c); assumption|].
    exists m', c'. split; [exact E|]. split; [intros v a; rewrite S2; apply S1|].
    replace (addr + 512 * Z.of_nat (S n)) with (addr + 512 + 512 * Z.of_nat n) by lia. apply (filled_next c c1 m m1); auto; lia.
Qed.

(** A disk with a kernel that the loader can load with its buffer at [elf]: the headers are in the first
    sector, the segments start on sectors of the file and are loaded above the font, and no segment
    runs, with its last sector, into one that was loaded before it. *)
Record bootable c elf : Prop := {
  bt_sectors : full_sectors c;
  bt_magic : eh_magic (boot_elf c) = ELF_MAGIC;
  bt_headers : eh_phoff (boot_elf c) + 32 * eh_phnum (boot_elf c) <= 512;
  bt_buffer : 0 <= elf /\ elf + 512 <= FONT_ASC16_ADDR;
  bt_fits : forall i, 0 <= i < eh_phnum (boot_elf c) -> seg_fits (boot_ph c i);
  bt_above : forall i, 0 <= i < eh_phnum (boot_elf c) -> FONT_ASC16_ADDR + 512 * FONT_ASC16_SECT_NUM <= ph_paddr (boot_ph c i);
  bt_apart : forall i j x, 0 <= i < j -> j < eh_phnum (boot_elf c) ->
    in_segment (boot_ph c i) x = true -> in_segment (boot_ph c j) x = false /\ in_slack (boot_ph c j) x = false
}.

Lemma bootable_above c elf i x : bootable c elf -> 0 <= i < eh_phnum (boot_elf c) -> x < FONT_ASC16_ADDR + 512 * FONT_ASC16_SECT_NUM -> in_room (boot_ph c i) x = false.
Proof. intros B Hi Hx. pose proof (bt_above _ _ B i Hi). unfold in_room. lia. Qed.

(** Memory after the loader: the image of the segments over the buffer, and the font. *)
Lemma loadmain_memory c m elf : bootable c elf -> exists m1 m' c', loadmain c m elf = Some (Entered (eh_entry (boot_elf c)), m', c') /\ same_disk c c' /\
  (forall x, ~ elf <= x < elf + 512 -> m1 x = m x) /\
  filled c (image c (boot_ph c <$> seqZ 0 (eh_phnum (boot_elf c))) m1) m' FONT_ASC16_ADDR (FONT_ASC16_ADDR + 4096) (512 * FONT_ASC16_LBA).
Proof.
  intros B. pose proof B as [F Mg Hd [E0 E1] Ft _ _]. unfold FONT_ASC16_ADDR in *. unfold loadmain.
  destruct (read_sector_ok c (memset_loop 512 m elf 0) elf KERNEL_ELF_LBA F ltac:(unfold KERNEL_ELF_LBA; lia)) as (m1 & c1 & -> & S1 & F1).
  pose proof (elf_at_ok c _ m1 elf F F1) as EA. rewrite (EA m1) by (intros x _; reflexivity). rewrite Mg, Z.eqb_refl. cbn [negb].
  destruct (boot_elf_range c F) as [Ro Rn]. rewrite u32_small by lia.
  destruct (headers_loop_ok c _ m1 elf F F1 ltac:(lia) Hd Ft) with (n := Z.to_nat (eh_phnum (boot_elf c))) (fuel := PHNUM_FUEL) (c := c1) (m := m1) (i := 0)
    as (m2 & c2 & E2 & S2 & K2 & F2); auto; try lia.
  { intros i x Hi Hx. apply (bootable_above c elf i x B Hi). unfold FONT_ASC16_ADDR, FONT_ASC16_SECT_NUM. lia. }
  { intros x _. reflexivity. }
  { unfold PHNUM_FUEL. lia. }
  rewrite Z.mul_0_r, Z.add_0_r in E2. unfold ELF_OFFSET in E2. rewrite E2. rewrite Z2Nat.id in F2 by lia.
  destruct (font_loop_ok 8 c2 m2 FONT_ASC16_ADDR FONT_ASC16_LBA) as (m3 & c3 & E3 & S3 & F3); [apply (same_disk_full c); assumption | unfold FONT_ASC16_LBA; lia | unfold FONT_ASC16_LBA; lia |].
  change (Z.to_nat FONT_ASC16_SECT_NUM) with 8%nat. rewrite E3. exists m1, m3, c3.
  assert (K3 : keeps_buffer m1 elf m3).
  { intros x Hx. rewrite F3. replace (_ && _) with false by (unfold FONT_ASC16_ADDR; lia). apply K2, Hx. }
  rewrite (EA m3 K3). split_and!; [reflexivity | intros v a; rewrite S3; apply S2 | |].
  - intros x Hx. rewrite F1. replace (_ && _) with false by lia. rewrite memset_loop_spec. replace (_ && _) with false by lia. reflexivity.
  - intros x. rewrite F3. change (512 * Z.of_nat 8) with 4096. rewrite (same_disk_byte c c2) by exact S2. rewrite F2. reflexivity.
Qed.

(** A byte that segment [i] writes and no later one does has the value that segment [i] gives it. *)
Lemma loaded_byte c m1 m' elf i x : bootable c elf -> 0 <= i < eh_phnum (boot_elf c) ->
  filled c (image c (boot_ph c <$> seqZ 0 (eh_phnum (boot_elf c))) m1) m' FONT_ASC16_ADDR (FONT_ASC16_ADDR + 4096) (512 * FONT_ASC16_LBA) ->
  in_segment (boot_ph c i) x || in_slack (boot_ph c i) x = true ->
  (forall j, i < j < eh_phnum (boot_elf c) -> in_segment (boot_ph c j) x || in_slack (boot_ph c j) x = false) -> m' x = seg_value c (boot_ph c i) x.
Proof.
  intros B Hi Fl Hx Hj. pose proof (bt_above _ _ B i Hi) as Hab. destruct (bt_fits _ _ B i Hi) as [_ _ _ Sz _ _ _].
  rewrite <- room_split in Hx by exact Sz.
  rewrite Fl. replace (_ && _) with false by (change (512 * FONT_ASC16_SECT_NUM) with 4096 in Hab; unfold in_room in Hx; lia).
  apply (image_at c _ m1 (Z.to_nat i)); [rewrite list_lookup_fmap, lookup_seqZ_lt by lia; cbn; f_equal; f_equal; lia | exact Hx |].
  intros j q L Hq. apply list_lookup_fmap_Some in Hq as (y & -> & Hy). apply lookup_seqZ in Hy as [-> Hy].
  assert (Hn : 0 <= 0 + Z.of_nat j < eh_phnum (boot_elf c)) by lia. destruct (bt_fits _ _ B _ Hn) as [_ _ _ Sz' _ _ _].
  rewrite room_split by exact Sz'. apply Hj. lia.
Qed.

(** C38: from a disk with a loadable kernel, whose segments start on sectors of the file, [loadmain] ends by entering the
    kernel at the entry of its ELF header; then every segment is at its physical address, byte for byte as it is in the file
    and zero beyond that, and the font is at its place.  Whole sectors are read, so that the bytes behind a segment up to the
    end of its last sector, at most 511, are overwritten with what follows in the file; memory outside the segments,
    these bytes, the font and the loader's buffer is as it was. *)
Theorem kernel_is_loaded c m elf : bootable c elf -> exists m' c',
  loadmain c m elf = Some (Entered (eh_entry (boot_elf c)), m', c') /\ same_disk c c' /\
  (forall i k, 0 <= i < eh_phnum (boot_elf c) -> let ph := boot_ph c i in
    (0 <= k < ph_filesz ph -> m' (ph_paddr ph + k) = disk_byte c (ELF_OFFSET + ph_off ph + k)) /\
    (ph_filesz ph <= k < ph_memsz ph -> m' (ph_paddr ph + k) = 0)) /\
  (forall k, 0 <= k < 512 * FONT_ASC16_SECT_NUM -> m' (FONT_ASC16_ADDR + k) = disk_byte c (512 * FONT_ASC16_LBA + k)) /\
  (forall i x, 0 <= i < eh_phnum (boot_elf c) -> in_slack (boot_ph c i) x = true ->
    (forall j, i < j < eh_phnum (boot_elf c) -> in_segment (boot_ph c j) x || in_slack (boot_ph c j) x = false) ->
    x < ph_paddr (boot_ph c i) + Z.max (ph_filesz (boot_ph c i)) (ph_memsz (boot_ph c i)) + 511 /\
    m' x = disk_byte c (ELF_OFFSET + ph_off (boot_ph c i) + (x - ph_paddr (boot_ph c i)))) /\
  (forall x, ~ elf <= x < elf + 512 -> ~ FONT_ASC16_ADDR <= x < FONT_ASC16_ADDR + 512 * FONT_ASC16_SECT_NUM ->
    (forall i, 0 <= i < eh_phnum (boot_elf c) -> in_segment (boot_ph c i) x || in_slack (boot_ph c i) x = false) -> m' x = m x).
Proof.
  intros B. destruct (loadmain_memory c m elf B) as (m1 & m' & c' & E & Sd & Bf & Fl).
  destruct (boot_elf_range c (bt_sectors _ _ B)) as [_ Rn]. exists m', c'. split_and!; auto.
  - intros i k Hi ph. destruct (bt_fits _ _ B i Hi) as [_ _ _ Sz _ _ _]. fold ph in Sz.
    assert (V : 0 <= k < Z.max (ph_filesz ph) (ph_memsz ph) -> m' (ph_paddr ph + k) = seg_value c ph (ph_paddr ph + k)).
    { intros Hk. assert (Hs : in_segment ph (ph_paddr ph + k) = true) by (unfold in_segment; lia).
      apply (loaded_byte c m1 m' elf i _ B Hi Fl); [fold ph; rewrite Hs; reflexivity|].
      intros j Hj. destruct (bt_apart _ _ B i j _ ltac:(lia) ltac:(lia) Hs) as [-> ->]. reflexivity. }
    unfold seg_value in V. replace (ph_paddr ph + k - ph_paddr ph) with k in V by lia. split; intros Hk; rewrite V by lia.
    + replace (_ && _) with false by lia. reflexivity.
    + replace (_ && _) with true by lia. reflexivity.
  - change (512 * FONT_ASC16_SECT_NUM) with 4096. intros k Hk. rewrite Fl. replace (_ && _) with true by lia. f_equal. lia.
  - intros i x Hi Hx Hj. destruct (bt_fits _ _ B i Hi) as [_ _ _ Sz _ _ _]. split; [unfold in_slack in Hx; divlia|].
    rewrite (loaded_byte c m1 m' elf i x B Hi Fl) by (auto; rewrite Hx; apply orb_true_r). unfold seg_value. unfold in_slack in Hx.
    replace (_ && _) with false by lia. reflexivity.
  - change (512 * FONT_ASC16_SECT_NUM) with 4096. intros x Nb Nf Ns. rewrite Fl. replace (_ && _) with false by lia.
    rewrite image_outside; [apply Bf, Nb|]. intros ph Hp. apply list_elem_of_fmap in Hp as (i & -> & Hi). apply elem_of_seqZ in Hi.
    assert (Hn : 0 <= i < eh_phnum (boot_elf c)) by lia. destruct (bt_fits _ _ B i Hn) as [_ _ _ Sz _ _ _]. rewrite room_split by exact Sz. apply Ns, Hn.
Qed.

(** Without the magic number the loader returns, having changed only its buffer. *)
Lemma not_a_kernel c m elf : full_sectors c -> eh_magic (boot_elf c) <> ELF_MAGIC ->
  exists m' c', loadmain c m elf = Some (Returned, m', c') /\ forall x, ~ elf <= x < elf + 512 -> m' x = m x.
Proof.
  intros F Mg. unfold loadmain.
  destruct (read_sector_ok c (memset_loop 512 m elf 0) elf KERNEL_ELF_LBA F ltac:(unfold KERNEL_ELF_LBA; lia)) as (m1 & c1 & -> & S1 & F1).
  rewrite (elf_at_ok c _ m1 elf F F1) by (intros x _; reflexivity). apply Z.eqb_neq in Mg. rewrite Mg. exists m1, c1. split; [reflexivity|].
  intros x Hx. rewrite F1. replace (_ && _) with false by lia. rewrite memset_loop_spec. replace (_ && _) with false by lia. reflexivity.
Qed.

(** A segment that starts [r] bytes into a sector: the sectors that are read cover [size] bytes from the start of that sector,
    not from the start of the segment, so that its last bytes can be missing. *)
Lemma unaligned_tail_is_missing c m pa offset size : let r := offset mod 512 in
  full_sectors c -> 0 <= offset -> 0 < size -> 0 < r <= pa -> size mod 512 = 0 -> pa + size < 2 ^ 32 -> offset / 512 + sectors_for size <= 2 ^ 28 ->
  exists m' c', read_segment c m pa offset size = Some (m', c') /\
    (forall k, 0 <= k < size - r -> m' (pa + k) = disk_byte c (offset + k)) /\
    (forall k, size - r <= k < size -> m' (pa + k) = m (pa + k)).
Proof.
  intros r F O Sz R A E L. assert (Hs : 512 * sectors_for size = size) by (unfold sectors_for; divlia).
  destruct (read_segment_ok c m pa offset size) as (m' & c' & Eq & _ & Fl); auto; try (subst r; lia). exists m', c'. split; [exact Eq|]. fold r in Fl. rewrite Hs in Fl.
  split; intros k Hk; rewrite Fl.
  - destruct (decide (k < size - r)); [|lia]. replace (_ && _) with true by lia. f_equal. lia.
  - replace (_ && _) with false by lia. reflexivity.
Qed.
End correct.

(** ** Witness: a kernel of two segments *)

Definition demo_sector : list Z :=
  let hdr := encode [4; 12; 2; 2; 4; 4; 4; 4; 4; 2; 2; 2; 2; 2; 2]%nat [ELF_MAGIC; 0; 2; 3; 1; 0x100000; 52; 0; 0; 52; 32; 2; 40; 0; 0] in
  let ph off paddr filesz memsz := encode (replicate 8 4%nat) [1; off; 0xc0000000 + paddr; paddr; filesz; memsz; 5; 4096] in
  hdr ++ ph 512 0x100000 700 700 ++ ph 1536 0x101000 100 300 ++ replicate 396 0.
Definition demo_disk : ram_disk := mk_ram (fun _ a => if a =? 3 then demo_sector else replicate 512 (a mod 256)) None.

Lemma demo_bootable : bootable demo_disk 0xf000.
Proof.
  assert (E : boot_elf demo_disk = mk_elf ELF_MAGIC 0x100000 52 2) by (vm_compute; reflexivity).
  assert (P0 : boot_ph demo_disk 0 = mk_ph 1 512 0xc0100000 0x100000 700 700 5 4096) by (vm_compute; reflexivity).
  assert (P1 : boot_ph demo_disk 1 = mk_ph 1 1536 0xc0101000 0x101000 100 300 5 4096) by (vm_compute; reflexivity).
  assert (Two : forall i, 0 <= i < 2 -> i = 0 \/ i = 1) by lia.
  split; rewrite ?E; cbn [eh_phnum eh_phoff eh_magic].
  - intros a. cbn [sector demo_disk ram_controller ram_sectors]. destruct (a =? 3); [vm_compute; repeat constructor; discriminate|].
    split; [reflexivity|]. apply Forall_replicate. apply Z.mod_pos_bound. lia.
  - reflexivity.
  - lia.
  - unfold FONT_ASC16_ADDR. lia.
  - intros i [-> | ->]%Two; rewrite ?P0, ?P1; split; vm_compute; congruence.
  - intros i [-> | ->]%Two; rewrite ?P0, ?P1; vm_compute; congruence.
  - intros i j x Hi Hj. assert (i = 0) as -> by lia. assert (j = 1) as -> by lia. rewrite P0, P1. unfold in_segment, in_slack. cbn. lia.
Qed.

(** The first segment has 700 bytes: what follows up to 1024 is overwritten too. *)
Lemma kernel_is_loaded_witness : bootable demo_disk 0xf000 /\
  exists m' c', loadmain demo_disk (fun _ => 0xcc) 0xf000 = Some (Entered 0x100000, m', c') /\ m' 0x101000 = 6 /\ m' 0x1010ff = 0 /\
    m' 0x1002bc = 5 /\ m' 0x100400 = 0xcc /\ m' 0x200000 = 0xcc.
Proof.
  split; [exact demo_bootable|].
  destruct (kernel_is_loaded demo_disk (fun _ => 0xcc) 0xf000 demo_bootable) as (m' & c' & E & _ & Sg & _ & Sl & Out). exists m', c'.
  assert (P1 : boot_ph demo_disk 1 = mk_ph 1 1536 0xc0101000 0x101000 100 300 5 4096) by (vm_compute; reflexivity).
  change (eh_phnum (boot_elf demo_disk)) with 2 in *.
  split_and!; [exact E | | | | |].
  - destruct (Sg 1 0 ltac:(lia)) as [H1 _]. rewrite P1 in H1. rewrite (H1 ltac:(cbn; lia) : m' 0x101000 = _). vm_compute. reflexivity.
  - destruct (Sg 1 255 ltac:(lia)) as [_ H2]. rewrite P1 in H2. exact (H2 ltac:(cbn; lia)).
  - destruct (Sl 0 0x1002bc ltac:(lia) ltac:(vm_compute; reflexivity)) as [_ ->]; [|vm_compute; reflexivity].
    intros j Hj. assert (j = 1) as -> by lia. vm_compute. reflexivity.
  - apply Out; [lia | unfold FONT_ASC16_ADDR, FONT_ASC16_SECT_NUM; lia |]. intros i Hi.
    assert (i = 0 \/ i = 1) as [-> | ->] by lia; vm_compute; reflexivity.
  - apply Out; [lia | unfold FONT_ASC16_ADDR, FONT_ASC16_SECT_NUM; lia |]. intros i Hi.
    assert (i = 0 \/ i = 1) as [-> | ->] by lia; vm_compute; reflexivity.
Defined.
