(* ===== verification/Cpu.v ===== *)
(** * Processors: descriptor tables, interrupts, start (src/src/cpu.cc, io_apic.cc, local_apic.cc, arch.cc)

    Each processor has tables of segments and of interrupt gates and a task state segment; their
    entries are 64-bit words put together from shifted fields.  What the words mean is in
    [gate_of] and [segment_of], after the formats that the processor defines.  The I/O APIC turns a
    line into a vector ([io_apic_init], [enable_irq]), the gate of the vector leads to
    [do_common_isr], which calls the driver; [line_reaches_driver] is the composition.

    The local APIC remembers the vectors in service and accepts a vector only when its priority class, the
    upper four bits, is above theirs; [eoi] ends the last one.  [do_interrupt] sends no [eoi] for vectors
    that it does not know, among them the error vector that [local_apic_t::init] enables
    ([error_interrupt_blocks_all]), and the disk's handler sends one of its own ([disk_interrupt_ends_two]). *)
From Stdlib Require Import ZArith ZifyBool Lia.
From stdpp Require Import base option list.
From S2P Require Import Prelude CString Buddy MpConfig.

Definition SEG_NULL : Z := 0.
Definition SEG_KCODE : Z := 1.
Definition SEG_KDATA : Z := 2.
Definition SEG_UCODE : Z := 3.
Definition SEG_UDATA : Z := 4.
Definition SEG_TSS : Z := 5.
Definition GDT_LEN : Z := 6.
Definition IDT_LEN : Z := 256.

Definition IRQ_0 : Z := 0x20.
Definition IRQ_TIMER : Z := 0x00.
Definition IRQ_KEYBOARD : Z := 0x01.
Definition IRQ_HARDDISK : Z := 0x0e.
Definition VEC_LOCAL_TIMER : Z := 0xfc.
Definition VEC_ERROR : Z := 0xfe.
Definition VEC_SPURIOUS : Z := 0xff.
Definition IRQ_SYSCALL : Z := 0x80.
Definition INT_PF : Z := 14.

Definition TRAP_GATE_FLAG : Z := 0x00008f0000000000.
Definition INTERRUPT_GATE_FLAG : Z := 0x00008e0000000000.
Definition SYSTEM_GATE_FLAG : Z := 0x0000ef0000000000.

(** ** Descriptor tables *)

Definition set_gate (idt : list Z) (index addr flag : Z) : list Z :=
  let idt_item := flag in
  let idt_item := Z.lor idt_item (Z.shiftl (Z.shiftl SEG_KCODE 3) 16) in
  let idt_item := Z.lor idt_item (Z.land (u64 (Z.shiftl addr 32)) 0xffff000000000000) in
  let idt_item := Z.lor idt_item (Z.land addr 0xffff) in
  zset idt index idt_item.

Definition set_trap_gate idt index addr : list Z := set_gate idt index addr TRAP_GATE_FLAG.
Definition set_intr_gate idt index addr : list Z := set_gate idt index addr INTERRUPT_GATE_FLAG.
Definition set_system_gate idt index addr : list Z := set_gate idt index addr SYSTEM_GATE_FLAG.

(** [isr_vector] is the table of entry points in isr.S. *)
Definition init_isrs (isr_vector : Z -> Z) (idt : list Z) : list Z :=
  let idt := foldl (fun t i => set_trap_gate t i (isr_vector i)) idt (seqZ 0 IRQ_0) in
  let idt := foldl (fun t i => set_intr_gate t i (isr_vector i)) idt (seqZ IRQ_0 (256 - IRQ_0)) in
  set_system_gate idt IRQ_SYSCALL (isr_vector IRQ_SYSCALL).

Definition init_gdt (gdt : list Z) : list Z :=
  let gdt := zset gdt SEG_NULL 0x0000000000000000 in
  let gdt := zset gdt SEG_KCODE 0x00cf9a000000ffff in
  let gdt := zset gdt SEG_KDATA 0x00cf92000000ffff in
  let gdt := zset gdt SEG_UCODE 0x00cffa000000ffff in
  zset gdt SEG_UDATA 0x00cff2000000ffff.

(** The three words that [lgdt] and [lidt] load: the limit and the two halves of the base. *)
Definition table_register (table size : Z) : Z * Z * Z := (u16 (size - 1), u16 table, u16 (Z.shiftr table 16)).

Definition SIZEOF_TSS : Z := 256.
Definition INVALID_IO_BITMAP : Z := 0x8000.
Definition IO_BITMAP_SIZE : Z := 32.
Definition KSTACK_SIZE : Z := 8192.

(** The conversion of a pointer to [uint64] extends its sign. *)
Definition tss_descriptor (tss : Z) : Z :=
  let base := u64 (s32 tss) in
  let limit := SIZEOF_TSS - 1 in
  Z.lor (Z.lor (Z.lor (Z.lor (Z.lor (Z.lor
    (Z.land limit 0xffff)
    (u64 (Z.shiftl (Z.land base 0xffffff) 16)))
    (Z.shiftl 0x9 40))
    (Z.shiftl 0x8 44))
    (u64 (Z.shiftl (Z.land (Z.shiftr limit 16) 0xf) 48)))
    (Z.shiftl 0 52))
    (u64 (Z.shiftl (Z.land (Z.shiftr base 24) 0xff) 56)).

(** The fields of [m_tss], which lies at [tss]: [esp0] at 4, [ss0] at 8, [bitmap] at 102, [io_bitmap] from 104 on. *)
Definition init_tss (kernel_stack tss : Z) (m : mem) (gdt : list Z) : mem * list Z :=
  let m := snd (memset m tss 0 SIZEOF_TSS) in
  let m := put_bytes m (tss + 4) (le_bytes 4 (u32 (kernel_stack + KSTACK_SIZE))) in
  let m := put_bytes m (tss + 8) (le_bytes 2 (Z.shiftl SEG_KDATA 3)) in
  let m := put_bytes m (tss + 102) (le_bytes 2 INVALID_IO_BITMAP) in
  let m := snd (memset m (tss + 104) (2 ^ 32 - 1) (4 * (IO_BITMAP_SIZE + 1))) in
  (m, zset gdt SEG_TSS (tss_descriptor tss)).

(** [m_idle] of a processor, and the top of its stack. *)
Definition m_idle (kernel_stack apic_id : Z) : Z := u32 (kernel_stack + u32 (apic_id * KSTACK_SIZE)).
Definition get_kstack (kernel_stack apic_id : Z) : Z := u32 (m_idle kernel_stack apic_id + KSTACK_SIZE).

(** The tables that [startup] and [startup_ap] leave behind. *)
Record tables := mk_tables { t_gdt : list Z; t_idt : list Z; t_gdtr : Z * Z * Z; t_idtr : Z * Z * Z; t_tr : Z }.

Definition startup_tables (isr_vector : Z -> Z) (kernel_stack gdt_addr idt_addr tss : Z) (gdt idt : list Z) (m : mem) : mem * tables :=
  let gdt := init_gdt gdt in
  let gdtr := table_register gdt_addr (8 * GDT_LEN) in
  let idt := init_isrs isr_vector idt in
  let idtr := table_register idt_addr (8 * IDT_LEN) in
  let '(m, gdt) := init_tss kernel_stack tss m gdt in
  (m, mk_tables gdt idt gdtr idtr (Z.shiftl SEG_TSS 3)).

(** *** The processor's reading of the words *)

Record gate := mk_gate { g_offset : Z; g_selector : Z; g_type : Z; g_system : Z; g_dpl : Z; g_present : Z }.
Definition gate_of (v : Z) : gate :=
  mk_gate (v mod 2 ^ 16 + 2 ^ 16 * (v / 2 ^ 48 mod 2 ^ 16)) (v / 2 ^ 16 mod 2 ^ 16) (v / 2 ^ 40 mod 16) (v / 2 ^ 44 mod 2) (v / 2 ^ 45 mod 4) (v / 2 ^ 47 mod 2).

Record segment := mk_seg { s_base : Z; s_limit : Z; s_type : Z; s_code_data : Z; s_dpl : Z; s_present : Z; s_big : Z; s_pages : Z }.
Definition segment_of (v : Z) : segment :=
  mk_seg (v / 2 ^ 16 mod 2 ^ 24 + 2 ^ 24 * (v / 2 ^ 56 mod 2 ^ 8)) (v mod 2 ^ 16 + 2 ^ 16 * (v / 2 ^ 48 mod 16))
    (v / 2 ^ 40 mod 16) (v / 2 ^ 44 mod 2) (v / 2 ^ 45 mod 4) (v / 2 ^ 47 mod 2) (v / 2 ^ 54 mod 2) (v / 2 ^ 55 mod 2).

Definition TYPE_INTR_GATE : Z := 14.
Definition TYPE_TRAP_GATE : Z := 15.

(** *** The fields of the words do not overlap *)

Lemma land_mask_field x n k : 0 <= n -> 0 <= k -> Z.land x (Z.shiftl (Z.ones k) n) = x / 2 ^ n mod 2 ^ k * 2 ^ n.
Proof.
  intros Hn Hk. rewrite <- Z.shiftl_mul_pow2, <- Z.land_ones, <- Z.shiftr_div_pow2, Z.shiftl_land by lia.
  apply Z.bits_inj'. intros i Hi. rewrite !Z.land_spec. destruct (Z_lt_le_dec i n).
  - rewrite (Z.shiftl_spec_low (Z.ones k)), !andb_false_r by lia. reflexivity.
  - f_equal. rewrite Z.shiftl_spec, Z.shiftr_spec by lia. f_equal. lia.
Qed.

Lemma gate_word flag addr : 0 <= addr < 2 ^ 32 -> 0 <= flag < 2 ^ 8 ->
  Z.lor (Z.lor (Z.lor (flag * 2 ^ 40) (Z.shiftl (Z.shiftl SEG_KCODE 3) 16)) (Z.land (u64 (Z.shiftl addr 32)) 0xffff000000000000)) (Z.land addr 0xffff)
  = (addr / 2 ^ 16) * 2 ^ 48 + flag * 2 ^ 40 + 8 * 2 ^ 16 + addr mod 2 ^ 16.
Proof.
  intros Ha Hf. change (Z.shiftl (Z.shiftl SEG_KCODE 3) 16) with (8 * 2 ^ 16).
  assert (E1 : Z.land (u64 (Z.shiftl addr 32)) 0xffff000000000000 = addr / 2 ^ 16 * 2 ^ 48).
  { change 0xffff000000000000 with (Z.shiftl (Z.ones 16) 48). rewrite land_mask_field by lia. unfold u64. rewrite Z.shiftl_mul_pow2 by lia.
    rewrite (Z.mod_small (addr * 2 ^ 32)) by lia. change (2 ^ 48) with (2 ^ 16 * 2 ^ 32) at 1. rewrite Z.div_mul_cancel_r by lia. rewrite Z.mod_small by divlia. reflexivity. }
  rewrite E1. change 0xffff with (Z.ones 16). rewrite Z.land_ones by lia.
  rewrite (lor_disjoint flag (8 * 2 ^ 16) 40) by lia.
  rewrite (Z.lor_comm (_ + _)). rewrite (lor_disjoint _ (flag * 2 ^ 40 + 8 * 2 ^ 16) 48) by lia.
  replace (addr / 2 ^ 16 * 2 ^ 48 + (flag * 2 ^ 40 + 8 * 2 ^ 16)) with ((addr / 2 ^ 16 * 2 ^ 32 + flag * 2 ^ 24 + 8) * 2 ^ 16) by lia.
  rewrite lor_disjoint by (try lia; apply Z.mod_pos_bound; lia). lia.
Qed.

(** The word of a gate; [kind] is the byte with type, privilege and presence. *)
Definition gate_value (addr kind : Z) : Z := addr / 2 ^ 16 * 2 ^ 48 + kind * 2 ^ 40 + 8 * 2 ^ 16 + addr mod 2 ^ 16.

Lemma set_gate_value idt i addr kind : 0 <= addr < 2 ^ 32 -> 0 <= kind < 2 ^ 8 -> set_gate idt i addr (kind * 2 ^ 40) = zset idt i (gate_value addr kind).
Proof. intros Ha Hk. unfold set_gate, gate_value. rewrite gate_word by assumption. reflexivity. Qed.

Lemma gate_of_value addr kind : 0 <= addr < 2 ^ 32 -> 0 <= kind < 2 ^ 8 ->
  gate_of (gate_value addr kind) = mk_gate addr 8 (kind mod 16) (kind / 16 mod 2) (kind / 32 mod 4) (kind / 128).
Proof.
  intros Ha Hk. unfold gate_of, gate_value. set (h := addr / 2 ^ 16). set (l := addr mod 2 ^ 16).
  assert (Hl : 0 <= l < 2 ^ 16) by (apply Z.mod_pos_bound; lia). assert (Hh : 0 <= h < 2 ^ 16) by (subst h; divlia).
  assert (Ea : addr = h * 2 ^ 16 + l) by (subst h l; pose proof (Z.div_mod addr (2 ^ 16)); lia).
  f_equal; divlia.
Qed.

Lemma set_all_length (g : Z -> Z) l : forall t, length (foldl (fun t i => zset t i (g i)) t l) = length t.
Proof. induction l as [|i l IH]; intros t; [reflexivity|]. cbn. rewrite IH. apply zset_length. Qed.

Lemma set_all_get (g : Z -> Z) l j : forall t, 0 <= j < zlen t -> (forall i, i ∈ l -> 0 <= i) ->
  zget (foldl (fun t i => zset t i (g i)) t l) j = if decide (j ∈ l) then Some (g j) else zget t j.
Proof.
  induction l as [|i l IH]; intros t Hj Hl; [reflexivity|]. cbn.
  rewrite IH; [|unfold zlen in *; rewrite zset_length; exact Hj | intros k Hk; apply Hl; right; exact Hk].
  destruct (decide (j ∈ l)) as [Hin | Hin].
  - rewrite decide_True by (right; exact Hin). reflexivity.
  - destruct (decide (i = j)) as [-> | Hne].
    + rewrite zget_zset_eq by exact Hj. rewrite decide_True by left. reflexivity.
    + rewrite zget_zset_ne by (try lia; exact Hne). rewrite decide_False; [reflexivity|]. rewrite elem_of_cons. intros [E | E]; [congruence | contradiction].
Qed.

Lemma fold_gates isr_vector kind flag l : (forall i, 0 <= isr_vector i < 2 ^ 32) -> 0 <= kind < 2 ^ 8 -> flag = kind * 2 ^ 40 -> forall t,
  foldl (fun t i => set_gate t i (isr_vector i) flag) t l = foldl (fun t i => zset t i (gate_value (isr_vector i) kind)) t l.
Proof.
  intros Hv Hk ->. induction l as [|i l IH]; intros t; [reflexivity|]. cbn. rewrite set_gate_value by auto. apply IH.
Qed.

(** What the gate of a vector is to be. *)
Definition gate_kind (i : Z) : Z := if i =? IRQ_SYSCALL then 0xef else if i <? IRQ_0 then 0x8f else 0x8e.

Lemma init_isrs_get isr_vector idt i : (forall i, 0 <= isr_vector i < 2 ^ 32) -> zlen idt = IDT_LEN -> 0 <= i < IDT_LEN ->
  zget (init_isrs isr_vector idt) i = Some (gate_value (isr_vector i) (gate_kind i)).
Proof.
  intros Hv Hl Hi. unfold init_isrs, set_trap_gate, set_intr_gate, set_system_gate, IDT_LEN in *.
  rewrite (fold_gates _ 0x8f TRAP_GATE_FLAG), (fold_gates _ 0x8e INTERRUPT_GATE_FLAG) by (auto; try lia; reflexivity).
  change SYSTEM_GATE_FLAG with (0xef * 2 ^ 40). rewrite set_gate_value by (auto; lia). unfold gate_kind.
  set (t1 := foldl _ idt _). set (t2 := foldl _ t1 _).
  assert (L1 : zlen t1 = 256) by (unfold t1, zlen; rewrite set_all_length; exact Hl).
  assert (L2 : zlen t2 = 256) by (unfold t2, zlen; rewrite set_all_length; exact L1).
  destruct (i =? IRQ_SYSCALL) eqn:E; tests; [subst i; apply zget_zset_eq; lia|].
  rewrite zget_zset_ne by lia. unfold t2. rewrite set_all_get; [|lia | intros k Hk%elem_of_seqZ; unfold IRQ_0 in Hk; lia].
  destruct (decide (i ∈ seqZ IRQ_0 (256 - IRQ_0))) as [In | Out]; rewrite elem_of_seqZ in *; unfold IRQ_0 in *.
  - replace (i <? 32) with false by lia. reflexivity.
  - unfold t1. rewrite set_all_get; [|lia | intros k Hk%elem_of_seqZ; lia]. rewrite decide_True by (apply elem_of_seqZ; lia).
    replace (i <? 32) with true by lia. reflexivity.
Qed.

Lemma tss_descriptor_value tss : 0 <= tss < 2 ^ 32 ->
  tss_descriptor tss = (tss / 2 ^ 24) * 2 ^ 56 + 0x89 * 2 ^ 40 + (tss mod 2 ^ 24) * 2 ^ 16 + 255.
Proof.
  intros Ht. unfold tss_descriptor. change (Z.land (SIZEOF_TSS - 1) 0xffff) with 255.
  change (u64 (Z.shiftl (Z.land (Z.shiftr (SIZEOF_TSS - 1) 16) 0xf) 48)) with 0. change (Z.shiftl 0 52) with 0. rewrite !Z.lor_0_r.
  change (Z.shiftl 0x9 40) with (0x9 * 2 ^ 40). change (Z.shiftl 0x8 44) with (0x8 * 2 ^ 44).
  change 0xffffff with (Z.ones 24). change 0xff with (Z.ones 8). rewrite !Z.land_ones, Z.shiftr_div_pow2, !Z.shiftl_mul_pow2 by lia.
  set (b := u64 (s32 tss)).
  assert (Eb : b mod 2 ^ 32 = tss).
  { unfold b, u64. rewrite <- Znumtheory.Zmod_div_mod by (try lia; exists (2 ^ 32); reflexivity). 
    assert (s32 tss = tss \/ s32 tss = tss - 2 ^ 32) as [-> | ->] by (unfold s32; rewrite (Z.mod_small tss) by lia; destruct (tss <? 2 ^ 31); lia); divlia. }
  assert (E1 : b mod 2 ^ 24 = tss mod 2 ^ 24) by (rewrite <- Eb; rewrite <- Znumtheory.Zmod_div_mod by (try lia; exists (2 ^ 8); reflexivity); reflexivity).
  assert (E2 : b / 2 ^ 24 mod 2 ^ 8 = tss / 2 ^ 24) by (rewrite <- Eb; divlia).
  rewrite E1, E2. unfold u64. rewrite !(Z.mod_small (_ * _)) by divlia.
  assert (R1 : 0 <= tss mod 2 ^ 24 < 2 ^ 24) by (apply Z.mod_pos_bound; lia).
  rewrite (Z.lor_comm 255), (lor_disjoint _ 255 16) by lia.
  rewrite (Z.lor_comm (_ + 255)), (lor_disjoint 0x9 _ 40) by lia.
  rewrite (Z.lor_comm (_ + (_ + 255))), (lor_disjoint 0x8 _ 44) by lia.
  rewrite (Z.lor_comm (0x8 * _ + _)), (lor_disjoint _ _ 56) by lia. change (Z.ones 8) with 255. lia.
Qed.

Lemma tss_segment tss : 0 <= tss < 2 ^ 32 -> segment_of (tss_descriptor tss) = mk_seg tss 255 9 0 0 1 0 0.
Proof.
  intros Ht. rewrite tss_descriptor_value by exact Ht. unfold segment_of. set (h := tss / 2 ^ 24). set (l := tss mod 2 ^ 24).
  assert (Hl : 0 <= l < 2 ^ 24) by (apply Z.mod_pos_bound; lia). assert (Hh : 0 <= h < 2 ^ 8) by (subst h; divlia).
  assert (Ea : tss = h * 2 ^ 24 + l) by (subst h l; pose proof (Z.div_mod tss (2 ^ 24)); lia).
  f_equal; divlia.
Qed.

(** *** Reading fields back *)

Lemma bytes_from_agree n : forall m m' p, (forall x, p <= x < p + Z.of_nat n -> m' x = m x) -> bytes_from n m' p = bytes_from n m p.
Proof.
  induction n as [|n IH]; intros m m' p H; [reflexivity|]. cbn. rewrite H by lia. f_equal. apply IH. intros x Hx. apply H. lia.
Qed.

Lemma bytes_from_put bs : forall m p, bytes_from (length bs) (put_bytes m p bs) p = bs.
Proof.
  induction bs as [|b bs IH]; intros m p; [reflexivity|]. cbn. rewrite put_bytes_frame by lia. rewrite upd_eq. f_equal. apply IH.
Qed.

Lemma read32_put m m' p v : 0 <= v < 2 ^ 32 -> (forall x, p <= x < p + 4 -> m' x = put_bytes m p (le_bytes 4 v) x) -> read32 m' p = v.
Proof.
  intros Hv H. unfold read32. rewrite (bytes_from_agree 4 (put_bytes m p (le_bytes 4 v))) by exact H.
  etransitivity; [apply f_equal, (bytes_from_put (le_bytes 4 v))|]. rewrite le_value_bytes. apply Z.mod_small, Hv.
Qed.

Lemma read16_put m m' p v : 0 <= v < 2 ^ 16 -> (forall x, p <= x < p + 2 -> m' x = put_bytes m p (le_bytes 2 v) x) -> read16 m' p = v.
Proof.
  intros Hv H. unfold read16. rewrite (bytes_from_agree 2 (put_bytes m p (le_bytes 2 v))) by exact H.
  etransitivity; [apply f_equal, (bytes_from_put (le_bytes 2 v))|]. rewrite le_value_bytes. apply Z.mod_small, Hv.
Qed.

Lemma tss_fields kernel_stack tss m gdt : let m' := fst (init_tss kernel_stack tss m gdt) in
  read32 m' (tss + 4) = u32 (kernel_stack + KSTACK_SIZE) /\ read16 m' (tss + 8) = Z.shiftl SEG_KDATA 3.
Proof.
  cbn [init_tss fst]. unfold memset, IO_BITMAP_SIZE. cbn [snd]. split.
  - eapply read32_put; [apply u32_range|]. intros x Hx. rewrite memset_loop_spec. replace (_ && _) with false by lia.
    rewrite !(put_bytes_frame (le_bytes 2 _)) by (unfold zlen; rewrite le_bytes_length; lia). reflexivity.
  - eapply read16_put; [change (Z.shiftl SEG_KDATA 3) with 16; lia|]. intros x Hx. rewrite memset_loop_spec. replace (_ && _) with false by lia.
    rewrite (put_bytes_frame (le_bytes 2 INVALID_IO_BITMAP)) by (unfold zlen; rewrite le_bytes_length; lia). reflexivity.
Qed.

(** C39: the tables of a processor after its start, as the processor reads them: every vector has a present gate into the
    kernel's code segment at its entry point, exceptions and system calls without and interrupts with interrupts
    disabled, and only the system call's can be used from user mode; the segments are flat, two of the kernel
    and two of users; the task register selects the task state segment, whose kernel stack is the one given; and both table
    registers cover the whole tables. *)
Theorem descriptor_tables_correct isr_vector kernel_stack gdt_addr idt_addr tss gdt idt m :
  (forall i, 0 <= isr_vector i < 2 ^ 32) -> zlen gdt = GDT_LEN -> zlen idt = IDT_LEN ->
  0 <= tss < 2 ^ 32 -> 0 <= gdt_addr < 2 ^ 32 -> 0 <= idt_addr < 2 ^ 32 ->
  let '(m', t) := startup_tables isr_vector kernel_stack gdt_addr idt_addr tss gdt idt m in
  let seg sel := segment_of <$> zget (t_gdt t) (sel / 8) in
  (forall i, 0 <= i < IDT_LEN -> gate_of <$> zget (t_idt t) i =
     Some (mk_gate (isr_vector i) (8 * SEG_KCODE) (if (i <? IRQ_0) || (i =? IRQ_SYSCALL) then TYPE_TRAP_GATE else TYPE_INTR_GATE) 0
             (if i =? IRQ_SYSCALL then 3 else 0) 1)) /\
  seg (8 * SEG_KCODE) = Some (mk_seg 0 0xfffff 10 1 0 1 1 1) /\ seg (8 * SEG_KDATA) = Some (mk_seg 0 0xfffff 2 1 0 1 1 1) /\
  seg (8 * SEG_UCODE + 3) = Some (mk_seg 0 0xfffff 10 1 3 1 1 1) /\ seg (8 * SEG_UDATA + 3) = Some (mk_seg 0 0xfffff 2 1 3 1 1 1) /\
  seg (t_tr t) = Some (mk_seg tss 255 9 0 0 1 0 0) /\
  read32 m' (tss + 4) = u32 (kernel_stack + KSTACK_SIZE) /\ read16 m' (tss + 8) = 8 * SEG_KDATA /\
  (let '(limit, low, high) := t_gdtr t in limit + 1 = 8 * zlen (t_gdt t) /\ low + 2 ^ 16 * high = gdt_addr) /\
  (let '(limit, low, high) := t_idtr t in limit + 1 = 8 * zlen (t_idt t) /\ low + 2 ^ 16 * high = idt_addr).
Proof.
  intros Hv Hg Hi Ht Hga Hia. pose proof (tss_fields kernel_stack tss m (init_gdt gdt)) as [F1 F2].
  unfold startup_tables. destruct (init_tss kernel_stack tss m (init_gdt gdt)) as [m' g'] eqn:E. cbn [fst] in F1, F2.
  assert (Eg : g' = zset (init_gdt gdt) SEG_TSS (tss_descriptor tss)) by (unfold init_tss in E; injection E as _ <-; reflexivity).
  cbn [t_gdt t_idt t_tr t_gdtr t_idtr]. unfold table_register.
  assert (Half : forall a, 0 <= a < 2 ^ 32 -> u16 a + 2 ^ 16 * u16 (Z.shiftr a 16) = a).
  { intros a Ha. rewrite Z.shiftr_div_pow2 by lia. unfold u16. divlia. }
  assert (Li : zlen (init_isrs isr_vector idt) = IDT_LEN).
  { unfold zlen, init_isrs, set_trap_gate, set_intr_gate, set_system_gate. rewrite (fold_gates _ 0x8f TRAP_GATE_FLAG), (fold_gates _ 0x8e INTERRUPT_GATE_FLAG) by (auto; try lia; reflexivity).
    unfold set_gate. rewrite zset_length, !set_all_length. exact Hi. }
  destruct gdt as [|x0 [|x1 [|x2 [|x3 [|x4 [|x5 [|? ?]]]]]]]; try discriminate Hg; [|exfalso; unfold zlen, GDT_LEN in Hg; cbn in Hg; lia].
  subst g'. split_and!; try reflexivity; try assumption; try (apply Half; assumption).
  - intros i Hr. rewrite init_isrs_get by auto. cbn. rewrite gate_of_value by (auto; unfold gate_kind; repeat case_match; lia). f_equal.
    unfold gate_kind, IRQ_SYSCALL, IRQ_0. destruct (i =? 128) eqn:E1, (i <? 32) eqn:E2; tests; try lia; reflexivity.
  - change (Some (segment_of (tss_descriptor tss)) = Some (mk_seg tss 255 9 0 0 1 0 0)). rewrite tss_segment by exact Ht. reflexivity.
  - rewrite Li. reflexivity.
Qed.

(** ** The old interrupt controllers

    Their two mask registers, which are read back before they are changed. *)
Definition i8259a_enable_irq (master slave irq : Z) : Z * Z :=
  if irq <? 8 then (Z.land master (Z.lxor 0xff (Z.shiftl 1 irq)), slave)
  else if irq <? 16 then (Z.land master 0xfb, Z.land slave (Z.lxor 0xff (Z.shiftl 1 (irq - 8))))
  else (master, slave).

(** Exactly the line asked for is enabled, and with one of the slave's also the line of the master that the slave is on. *)
Lemma i8259a_enable_ok master slave irq i : 0 <= master < 2 ^ 8 -> 0 <= slave < 2 ^ 8 -> 0 <= irq < 16 -> 0 <= i < 16 ->
  let masked m s i := if i <? 8 then Z.testbit m i else Z.testbit s (i - 8) in
  let '(m', s') := i8259a_enable_irq master slave irq in
  masked m' s' i = negb ((i =? irq) || ((i =? 2) && (8 <=? irq))) && masked master slave i.
Proof.
  intros Hm Hs Hq Hi. cbn zeta. unfold i8259a_enable_irq.
  assert (B : forall k j, 0 <= k < 8 -> 0 <= j < 8 -> Z.testbit (Z.lxor 0xff (Z.shiftl 1 k)) j = negb (j =? k)).
  { intros k j Hk Hj. rewrite Z.lxor_spec, Z.shiftl_1_l, Z.pow2_bits_eqb by lia. change 0xff with (Z.ones 8). rewrite Z.ones_spec_low by lia.
    rewrite (Z.eqb_sym k). destruct (j =? k); reflexivity. }
  assert (B2 : forall j, 0 <= j < 8 -> Z.testbit 0xfb j = negb (j =? 2)) by (intros j Hj; exact (B 2 j ltac:(lia) Hj)).
  destruct (irq <? 8) eqn:Q; [|replace (irq <? 16) with true by lia]; tests; destruct (i <? 8) eqn:I; tests; rewrite ?Z.land_spec, ?B, ?B2 by lia.
  - replace (8 <=? irq) with false by lia. rewrite andb_false_r, orb_false_r. apply andb_comm.
  - replace (i =? irq) with false by lia. replace (i =? 2) with false by lia. reflexivity.
  - replace (i =? irq) with false by lia. replace (8 <=? irq) with true by lia. rewrite andb_true_r. apply andb_comm.
  - replace (i =? 2) with false by lia. replace (i - 8 =? irq - 8) with (i =? irq) by lia. rewrite orb_false_r. apply andb_comm.
Qed.

(** ** The I/O APIC *)

Definition IO_APIC_REG_VER : Z := 0x01.
Definition IO_APIC_REG_TABLE : Z := 0x10.
Definition INT_DISABLED : Z := 0x00010000.

(** Two words of memory: one selects a register, the other is the register selected. *)
Class IoApic (A : Type) : Type := {
  io_select : A -> Z -> A;
  io_data : A -> Z;
  io_set_data : A -> Z -> A;
  io_reg : A -> Z -> Z
}.

(** The registers of the table take what is written to them where it does not touch the read-only bits 12 and 14. *)
Class IoApicLaws (A : Type) `{IoApic A} : Prop := {
  io_select_reg a r r' : io_reg (io_select a r) r' = io_reg a r';
  io_data_reg a r : io_data (io_select a r) = io_reg a r;
  io_set_reg a r v r' : IO_APIC_REG_TABLE <= r -> Z.land v 0x5000 = 0 ->
    io_reg (io_set_data (io_select a r) v) r' = if r' =? r then v else io_reg a r'
}.

Section io_apic.
Context {A : Type} `{IoApic A}.

Definition io_read (a : A) (reg : Z) : Z * A := let a := io_select a reg in (io_data a, a).
Definition io_write (a : A) (reg data : Z) : A := io_set_data (io_select a reg) data.

(** [for (int i = 0; i <= count; i++)] *)
Fixpoint io_init_loop (n : nat) (a : A) (i : Z) : A :=
  match n with
  | O => a
  | S k =>
      let a := io_write a (IO_APIC_REG_TABLE + 2 * i) (Z.lor INT_DISABLED (IRQ_0 + i)) in
      let a := io_write a (IO_APIC_REG_TABLE + 2 * i + 1) 0 in
      io_init_loop k a (i + 1)
  end.

(** The identification that is read as well is not used. *)
Definition io_apic_init (a : A) : A :=
  let '(ver, a) := io_read a IO_APIC_REG_VER in
  let count := Z.land (Z.shiftr ver 16) 0xff in
  let '(_, a) := io_read a 0 in
  io_init_loop (Z.to_nat (count + 1)) a 0.

Definition enable_irq (a : A) (irq cpu_id : Z) : A :=
  let a := io_write a (u32 (IO_APIC_REG_TABLE + 2 * irq)) (u32 (IRQ_0 + irq)) in
  io_write a (u32 (IO_APIC_REG_TABLE + 2 * irq + 1)) (u32 (Z.shiftl cpu_id 24)).
End io_apic.

(** How the chip reads an entry of the table: vector and processor, for an entry that is not masked and in fixed and
    physical mode. *)
Definition route (lo hi : Z) : option (Z * Z) :=
  if Z.testbit lo 16 || negb (lo / 2 ^ 8 mod 2 ^ 4 =? 0) then None else Some (lo mod 2 ^ 8, hi / 2 ^ 24).
Definition line {A} `{IoApic A} (a : A) (i : Z) : option (Z * Z) :=
  route (io_reg a (IO_APIC_REG_TABLE + 2 * i)) (io_reg a (IO_APIC_REG_TABLE + 2 * i + 1)).

Section io_apic_ok.
Context {A : Type} `{IoApicLaws A}.

Lemma low_clear v : 0 <= v < 2 ^ 12 -> Z.land v 0x5000 = 0.
Proof.
  intros Hv. change 0x5000 with (Z.land (Z.shiftl (Z.ones 52) 12) 0x5000). rewrite Z.land_assoc, land_mask_field by lia.
  rewrite Z.div_small by lia. reflexivity.
Qed.

Lemma masked_clear i : 0 <= i < 224 -> Z.land (Z.lor INT_DISABLED (IRQ_0 + i)) 0x5000 = 0.
Proof. intros Hi. rewrite Z.land_lor_distr_l, (low_clear (IRQ_0 + i)) by (unfold IRQ_0; lia). reflexivity. Qed.

Lemma io_init_loop_reg n : forall (a : A) i r, 0 <= i -> i + Z.of_nat n <= 224 ->
  io_reg (io_init_loop n a i) r =
    if (IO_APIC_REG_TABLE + 2 * i <=? r) && (r <? IO_APIC_REG_TABLE + 2 * (i + Z.of_nat n)) then
      (if (r - IO_APIC_REG_TABLE) mod 2 =? 0 then Z.lor INT_DISABLED (IRQ_0 + (r - IO_APIC_REG_TABLE) / 2) else 0)
    else io_reg a r.
Proof.
  induction n as [|n IH]; intros a i r Hi Hn; [cbn; replace (_ && _) with false by lia; reflexivity|].
  cbn [io_init_loop]. rewrite IH by lia. unfold io_write. rewrite !io_set_reg by (unfold IO_APIC_REG_TABLE; try lia; try reflexivity; apply masked_clear; lia).
  unfold IO_APIC_REG_TABLE. destruct (r =? 16 + 2 * i + 1) eqn:E1; [|destruct (r =? 16 + 2 * i) eqn:E2]; tests.
  - replace ((16 + 2 * (i + 1) <=? r) && _) with false by lia. replace ((16 + 2 * i <=? r) && _) with true by lia.
    replace ((r - 16) mod 2 =? 0) with false by divlia. reflexivity.
  - replace ((16 + 2 * (i + 1) <=? r) && _) with false by lia. replace ((16 + 2 * i <=? r) && _) with true by lia.
    replace ((r - 16) mod 2 =? 0) with true by divlia. replace ((r - 16) / 2) with i by divlia. reflexivity.
  - replace ((16 + 2 * i <=? r) && (r <? 16 + 2 * (i + Z.of_nat (S n)))) with ((16 + 2 * (i + 1) <=? r) && (r <? 16 + 2 * (i + 1 + Z.of_nat n))) by lia.
    reflexivity.
Qed.

Lemma enable_irq_reg (a : A) irq cpu_id r : 0 <= irq < 224 -> 0 <= cpu_id < 256 ->
  io_reg (enable_irq a irq cpu_id) r = if r =? IO_APIC_REG_TABLE + 2 * irq + 1 then cpu_id * 2 ^ 24 else
    if r =? IO_APIC_REG_TABLE + 2 * irq then IRQ_0 + irq else io_reg a r.
Proof.
  intros Hi Hc. unfold enable_irq, io_write, IO_APIC_REG_TABLE, IRQ_0. rewrite Z.shiftl_mul_pow2 by lia. rewrite !u32_small by lia.
  assert (C1 : Z.land (32 + irq) 0x5000 = 0) by (apply low_clear; lia).
  assert (C2 : Z.land (cpu_id * 2 ^ 24) 0x5000 = 0)
    by (change 0x5000 with (Z.land (Z.ones 24) 0x5000); rewrite Z.land_assoc, Z.land_ones, Z.mod_mul by lia; reflexivity).
  rewrite !io_set_reg by (unfold IO_APIC_REG_TABLE; auto; lia). reflexivity.
Qed.

(** After [init] no line is routed; enabling one routes it to the vector at the processor, and leaves the others alone. *)
Lemma lines_after_init (a : A) i : (let count := Z.land (Z.shiftr (io_reg a IO_APIC_REG_VER) 16) 0xff in count < 224 /\ 0 <= i <= count) ->
  line (io_apic_init a) i = None.
Proof.
  intros [Hc Hi]. unfold io_apic_init, io_read. rewrite io_data_reg. set (count := Z.land _ _) in *.
  unfold line, route. rewrite !io_init_loop_reg by lia. rewrite Z2Nat.id by lia.
  replace ((_ <=? IO_APIC_REG_TABLE + 2 * i) && _) with true by (unfold IO_APIC_REG_TABLE; lia).
  replace ((IO_APIC_REG_TABLE + 2 * i - IO_APIC_REG_TABLE) mod 2 =? 0) with true by divlia.
  rewrite Z.lor_spec. reflexivity.
Qed.

Lemma line_after_enable (a : A) irq cpu_id i : 0 <= irq < 224 -> 0 <= cpu_id < 256 ->
  line (enable_irq a irq cpu_id) i = if i =? irq then Some (IRQ_0 + irq, cpu_id) else line a i.
Proof.
  intros Hi Hc. unfold line. rewrite !enable_irq_reg by assumption. destruct (i =? irq) eqn:E; tests.
  - subst i. replace (IO_APIC_REG_TABLE + 2 * irq =? IO_APIC_REG_TABLE + 2 * irq + 1) with false by lia. rewrite !Z.eqb_refl.
    unfold route, IRQ_0. assert (B : Z.testbit (32 + irq) 16 = false) by (apply Z.bits_above_log2; [lia|]; apply Z.log2_lt_pow2; lia).
    rewrite B. rewrite Z.div_small by lia. cbn [orb negb Z.eqb]. change (0 mod 2 ^ 4) with 0. cbn [Z.eqb negb]. rewrite Z.mod_small, Z.div_mul by lia. reflexivity.
  - replace (_ =? _) with false by lia. replace (IO_APIC_REG_TABLE + 2 * i =? IO_APIC_REG_TABLE + 2 * irq) with false by lia.
    replace (_ =? _) with false by lia. replace (IO_APIC_REG_TABLE + 2 * i + 1 =? IO_APIC_REG_TABLE + 2 * irq) with false by lia. reflexivity.
Qed.
End io_apic_ok.

(** ** Dispatch *)

(** What the handlers do to the rest of the kernel; [nic_get_irq] is the line that the PCI configuration gives the network card. *)
Class Devices (K : Type) : Type := {
  nic_get_irq : K -> Z;
  nic_do_irq : K -> K;
  keyboard_do_irq : K -> K;
  i8254_do_irq : K -> K;
  hd_end_request : K -> K;
  hd_do_request : K -> K;
  do_timer_irq : K -> K;
  do_page_fault : K -> K;
  do_syscall : K -> K
}.

(** A processor: the rest of the kernel, and the vectors that its local APIC has in service, the last accepted first. *)
Record cpu_state (K : Type) := mk_cs { cs_kernel : K; cs_service : list Z }.
Arguments mk_cs {K}.
Arguments cs_kernel {K}.
Arguments cs_service {K}.

(** The local APIC delivers a vector only above the priority classes in service. *)
Definition accept {K} (v : Z) (s : cpu_state K) : option (cpu_state K) :=
  if forallb (fun w => w / 16 <? v / 16) (cs_service s) then Some (mk_cs (cs_kernel s) (v :: cs_service s)) else None.

Section dispatch.
Context {K : Type} `{Devices K}.
Implicit Type s : cpu_state K.

Definition eoi s : cpu_state K := mk_cs (cs_kernel s) (tail (cs_service s)).
Definition on_kernel (f : K -> K) s : cpu_state K := mk_cs (f (cs_kernel s)) (cs_service s).

(** [hard_disk_t::end_request] with its own [eoi] before the next request. *)
Definition hd_do_irq s : cpu_state K := on_kernel hd_do_request (eoi (on_kernel hd_end_request s)).

Definition do_interrupt s (trapno : Z) : cpu_state K :=
  if trapno =? IRQ_0 + nic_get_irq (cs_kernel s) then eoi (on_kernel nic_do_irq s)
  else if trapno =? IRQ_0 + IRQ_KEYBOARD then eoi (on_kernel keyboard_do_irq s)
  else if trapno =? IRQ_0 + IRQ_TIMER then on_kernel i8254_do_irq s
  else if trapno =? IRQ_0 + IRQ_HARDDISK then eoi (hd_do_irq s)
  else if trapno =? VEC_LOCAL_TIMER then eoi (on_kernel do_timer_irq s)
  else s.

(** [while (1) halt();] with interrupts still enabled by the trap gate is [Panic]: the process does not go on. *)
Definition do_exception s (trapno : Z) : outcome (cpu_state K) :=
  if (trapno <=? 0x10) && (trapno =? INT_PF) then Done (on_kernel do_page_fault s) else Panic.

Definition do_common_isr s (trapno : Z) : outcome (cpu_state K) :=
  if trapno <? IRQ_0 then do_exception s trapno
  else if trapno =? IRQ_SYSCALL then Done (on_kernel do_syscall s)
  else Done (do_interrupt s trapno).

(** The driver of a line. *)
Definition driver (k : K) (irq : Z) : K :=
  if irq =? nic_get_irq k then nic_do_irq k
  else if irq =? IRQ_KEYBOARD then keyboard_do_irq k else hd_do_request (hd_end_request k).

Lemma accepted v s s1 : accept v s = Some s1 -> s1 = mk_cs (cs_kernel s) (v :: cs_service s).
Proof. unfold accept. case_match; congruence. Qed.

(** The disk's interrupt ends two interrupts: its own and the one that it interrupted, if any. *)
Lemma disk_interrupt_ends_two s s1 : nic_get_irq (cs_kernel s) <> IRQ_HARDDISK -> accept (IRQ_0 + IRQ_HARDDISK) s = Some s1 ->
  do_common_isr s1 (IRQ_0 + IRQ_HARDDISK) = Done (mk_cs (hd_do_request (hd_end_request (cs_kernel s))) (tail (cs_service s))).
Proof.
  intros N ->%accepted. unfold do_common_isr, do_interrupt. cbn [cs_kernel].
  replace (IRQ_0 + IRQ_HARDDISK =? IRQ_0 + nic_get_irq (cs_kernel s)) with false by lia. reflexivity.
Qed.

(** Nothing ends the error interrupt, and nothing is above its class: no interrupt is accepted any more. *)
Lemma error_interrupt_blocks_all s s1 : nic_get_irq (cs_kernel s) < 0x80 -> accept VEC_ERROR s = Some s1 ->
  do_common_isr s1 VEC_ERROR = Done s1 /\ forall v, 0 <= v < 256 -> accept v s1 = None.
Proof.
  intros N ->%accepted. split.
  - unfold do_common_isr, do_interrupt. cbn [cs_kernel]. replace (VEC_ERROR =? IRQ_0 + _) with false by (unfold VEC_ERROR, IRQ_0; lia). reflexivity.
  - intros v Hv. unfold accept. cbn [cs_service forallb]. replace (VEC_ERROR / 16 <? v / 16) with false by (change (VEC_ERROR / 16) with 15; divlia).
    reflexivity.
Qed.
End dispatch.

(** once the I/O APIC is initialised and a line with a driver is enabled, that line and no other is routed; the vector it
    is routed to has an interrupt gate at the vector's entry point; and the vector, when the local APIC accepts
    it, makes [do_common_isr] run the driver of the line and end the interrupt. *)
Theorem line_reaches_driver {A K : Type} `{IoApicLaws A} `{Devices K} (a : A) (irq cpu_id : Z) (isr_vector : Z -> Z) (idt : list Z) (s s1 : cpu_state K) :
  let count := Z.land (Z.shiftr (io_reg a IO_APIC_REG_VER) 16) 0xff in
  let a' := enable_irq (io_apic_init a) irq cpu_id in
  count < 0x40 -> 0 <= irq <= count -> 0 <= cpu_id < 256 -> irq ∈ [IRQ_KEYBOARD; IRQ_HARDDISK; nic_get_irq (cs_kernel s)] ->
  (forall i, 0 <= isr_vector i < 2 ^ 32) -> zlen idt = IDT_LEN -> accept (IRQ_0 + irq) s = Some s1 ->
  (forall i, 0 <= i <= count -> line a' i = if i =? irq then Some (IRQ_0 + irq, cpu_id) else None) /\
  gate_of <$> zget (init_isrs isr_vector idt) (IRQ_0 + irq) = Some (mk_gate (isr_vector (IRQ_0 + irq)) (8 * SEG_KCODE) TYPE_INTR_GATE 0 0 1) /\
  exists l, do_common_isr s1 (IRQ_0 + irq) = Done (mk_cs (driver (cs_kernel s) irq) l) /\ (cs_service s = [] -> l = []) /\
    (irq <> IRQ_HARDDISK -> l = cs_service s).
Proof.
  intros count a' Hc Hi Hcpu Hin Hv Hl Hacc. split_and!.
  - intros i Hr. unfold a'. rewrite line_after_enable by lia. destruct (i =? irq); [reflexivity|]. apply lines_after_init. fold count. lia.
  - unfold IDT_LEN in Hl. rewrite init_isrs_get by (unfold IRQ_0, IDT_LEN; auto; lia). cbn [fmap option_fmap option_map].
    assert (gate_kind (IRQ_0 + irq) = 0x8e) as -> by (unfold gate_kind, IRQ_SYSCALL, IRQ_0; split_tests; lia). rewrite gate_of_value by (auto; lia). reflexivity.
  - apply accepted in Hacc as ->. unfold do_common_isr. replace (IRQ_0 + irq <? IRQ_0) with false by lia.
    replace (IRQ_0 + irq =? IRQ_SYSCALL) with false by (unfold IRQ_0, IRQ_SYSCALL; lia).
    unfold do_interrupt, driver. cbn [cs_kernel]. replace (IRQ_0 + irq =? IRQ_0 + nic_get_irq (cs_kernel s)) with (irq =? nic_get_irq (cs_kernel s)) by lia.
    destruct (irq =? nic_get_irq (cs_kernel s)) eqn:E1; tests; [eexists; split; [reflexivity|]; auto|].
    rewrite !elem_of_cons in Hin. destruct Hin as [-> | [-> | [-> | Hin]]]; [| |congruence | inversion Hin].
    + eexists; split; [reflexivity|]; auto.
    + eexists; split; [reflexivity|]. cbn. split; [intros ->; reflexivity | congruence].
Qed.

(** ** Starting the other processors *)

Definition AP_PGDIR : Z := 0x8110.
Definition AP_KSTACK : Z := 0x8114.
Definition AP_MAIN : Z := 0x8118.
Definition AP_INDEX : Z := 0x811c.
Definition AP_START_ADDR : Z := 0x9000.

Definition APIC_DM_INIT : Z := 0x500.
Definition APIC_DM_STARTUP : Z := 0x600.
Definition APIC_INT_ASSERT : Z := 0x4000.
Definition APIC_INT_LEVEL_TRIG : Z := 0x8000.

(** Writing the low command register sends an interrupt to the processor in the high one. *)
Record ipi := mk_ipi { ipi_high : Z; ipi_low : Z }.

Definition put32 (m : mem) (a v : Z) : mem := put_bytes m a (le_bytes 4 v).

(** [local_apic_t::start_ap]: the warm reset vector in memory and what is sent, in order; the shutdown code goes to the CMOS, not to memory. *)
Definition lapic_start_ap (m : mem) (id addr : Z) : mem * list ipi :=
  let m := put32 m (PA2VA 0x467) (u32 (Z.shiftl (Z.shiftr addr 4) 16)) in
  let high := u32 (Z.shiftl id 24) in
  let startup := mk_ipi high (Z.lor APIC_DM_STARTUP (Z.shiftr addr 12)) in
  (m, [mk_ipi high (Z.lor (Z.lor APIC_INT_LEVEL_TRIG APIC_INT_ASSERT) APIC_DM_INIT);
       mk_ipi high (Z.lor APIC_INT_LEVEL_TRIG APIC_DM_INIT); startup; startup]).

(** What a processor finds while the boot processor waits for it. *)
Record launch := mk_launch { la_ipis : list ipi; la_mem : mem }.

Section start_ap.
Context (kernel_stack apmain pg_dir code code_size : Z).

(** The loop of [arch_t::start_ap]. *)
Fixpoint start_loop (l : list cpu) (i : Z) (m : mem) : list launch * mem :=
  match l with
  | [] => ([], m)
  | c :: r =>
      if negb (cpu_is_bsp c =? 0) then start_loop r (i + 1) m
      else
        let m := put32 m (PA2VA AP_INDEX) i in
        let m := put32 m (PA2VA AP_KSTACK) (get_kstack kernel_stack (cpu_apic_id c)) in
        let '(m, sent) := lapic_start_ap m (cpu_apic_id c) AP_START_ADDR in
        let '(ls, m') := start_loop r (i + 1) m in
        (mk_launch sent m :: ls, m')
  end.

Definition start_ap (a : arch) (m : mem) : list launch * mem :=
  let m := put32 m (PA2VA AP_MAIN) apmain in
  let m := put32 m (PA2VA AP_PGDIR) (VA2PA pg_dir) in
  let m := snd (memcpy m (PA2VA AP_START_ADDR) code code_size) in
  start_loop (m_cpu a) 0 m.

(** How a local APIC reads a command: destination, delivery mode, vector. *)
Definition ipi_read (x : ipi) : Z * Z * Z := (ipi_high x / 2 ^ 24, ipi_low x / 2 ^ 8 mod 8, ipi_low x mod 2 ^ 8).
Definition MODE_INIT : Z := 5.
Definition MODE_STARTUP : Z := 6.

(** What the code at [AP_START_ADDR] needs in memory. *)
Record ap_ready (code_bytes : list Z) (i : Z) (c : cpu) (m : mem) : Prop := {
  ar_index : read32 m (PA2VA AP_INDEX) = i;
  ar_stack : read32 m (PA2VA AP_KSTACK) = get_kstack kernel_stack (cpu_apic_id c);
  ar_main : read32 m (PA2VA AP_MAIN) = apmain;
  ar_pgdir : read32 m (PA2VA AP_PGDIR) = VA2PA pg_dir;
  ar_code : bytes_from (length code_bytes) m (PA2VA AP_START_ADDR) = code_bytes
}.

Definition common (m0 m : mem) : Prop :=
  forall x, (PA2VA AP_PGDIR <= x < PA2VA AP_PGDIR + 4 \/ PA2VA AP_MAIN <= x < PA2VA AP_MAIN + 4 \/ PA2VA AP_START_ADDR <= x) -> m x = m0 x.

Lemma put32_frame m a v x : (x < a \/ a + 4 <= x) -> put32 m a v x = m x.
Proof. intros Hx. apply put_bytes_frame. unfold zlen. rewrite le_bytes_length. lia. Qed.

Lemma read32_put32 m a v : 0 <= v < 2 ^ 32 -> read32 (put32 m a v) a = v.
Proof. intros Hv. apply (read32_put m); [exact Hv | reflexivity]. Qed.

Lemma read32_frame m a v b : (b + 4 <= a \/ a + 4 <= b) -> read32 (put32 m a v) b = read32 m b.
Proof. intros Hb. unfold read32. f_equal. apply bytes_from_agree. intros x Hx. apply put32_frame. lia. Qed.

(** The memory and the messages for one processor. *)
Definition launch_ok (i : Z) (c : cpu) (m0 : mem) (x : launch) : Prop :=
  common m0 (la_mem x) /\ read32 (la_mem x) (PA2VA AP_INDEX) = i /\ read32 (la_mem x) (PA2VA AP_KSTACK) = get_kstack kernel_stack (cpu_apic_id c) /\
  ipi_read <$> la_ipis x = [(cpu_apic_id c, MODE_INIT, 0); (cpu_apic_id c, MODE_INIT, 0);
                            (cpu_apic_id c, MODE_STARTUP, 9); (cpu_apic_id c, MODE_STARTUP, 9)].

Definition is_ap (x : Z * cpu) : Prop := cpu_is_bsp (snd x) = 0.
#[global] Instance is_ap_dec x : Decision (is_ap x).
Proof. unfold is_ap. apply _. Defined.

Lemma start_loop_ok l : forall i m0 m, common m0 m -> (forall c, c ∈ l -> 0 <= cpu_apic_id c < 256) -> 0 <= i -> i + zlen l < 2 ^ 32 ->
  Forall2 (fun ic x => launch_ok (fst ic) (snd ic) m0 x) (filter is_ap (zip (seqZ i (zlen l)) l)) (fst (start_loop l i m)).
Proof.
  induction l as [|c l IH]; intros i m0 m Cm Hid Hi Hlen; [constructor|].
  rewrite zlen_cons in *. pose proof (zlen_nonneg l). rewrite (seqZ_cons i) by lia. replace (Z.pred (zlen l + 1)) with (zlen l) by lia. cbn [zip_with].
  rewrite filter_cons. cbn [start_loop]. unfold is_ap at 1. cbn [snd].
  destruct (decide (cpu_is_bsp c = 0)) as [E | E].
  2:{ replace (negb (cpu_is_bsp c =? 0)) with true by lia. apply IH; auto; try lia. intros d Hd. apply Hid. right. exact Hd. }
  replace (negb (cpu_is_bsp c =? 0)) with false by lia. cbn [lapic_start_ap].
  set (m1 := put32 (put32 (put32 m _ _) _ _) _ _).
  assert (C1 : common m0 m1).
  { intros x Hx. rewrite <- (Cm x Hx). unfold m1. change (PA2VA 0x467) with 0xc0000467. change (PA2VA AP_PGDIR) with 0xc0008110 in Hx.
    change (PA2VA AP_MAIN) with 0xc0008118 in Hx. change (PA2VA AP_START_ADDR) with 0xc0009000 in Hx.
    change (PA2VA AP_INDEX) with 0xc000811c. change (PA2VA AP_KSTACK) with 0xc0008114. rewrite !put32_frame by lia. reflexivity. }
  specialize (IH (i + 1) m0 m1 C1). destruct (start_loop l (i + 1) m1) as [ls m']. cbn [fst] in *. constructor.
  - cbn [fst snd]. specialize (Hid c ltac:(left)). unfold launch_ok. cbn [la_mem la_ipis]. split_and!; [exact C1 | | |].
    + unfold m1. rewrite (read32_frame _ (PA2VA 0x467)), (read32_frame _ (PA2VA AP_KSTACK)) by (vm_compute; intuition congruence). apply read32_put32. lia.
    + unfold m1. rewrite (read32_frame _ (PA2VA 0x467)) by (vm_compute; intuition congruence). apply read32_put32, u32_range.
    + cbn [fmap list_fmap ipi_read ipi_high ipi_low]. unfold ipi_read. cbn [ipi_high ipi_low].
      assert (Eh : u32 (Z.shiftl (cpu_apic_id c) 24) / 2 ^ 24 = cpu_apic_id c) by (rewrite Z.shiftl_mul_pow2, u32_small, Z.div_mul by lia; reflexivity).
      rewrite !Eh. reflexivity.
  - apply IH; try lia. intros d Hd. apply Hid. right. exact Hd.
Qed.

Lemma elem_of_numbered (l : list cpu) i c : (i, c) ∈ zip (seqZ 0 (zlen l)) l -> zget l i = Some c.
Proof.
  intros [n Hn]%list_elem_of_lookup. apply lookup_zip_with_Some in Hn as (i' & c' & [= -> ->] & Hi & Hc). apply lookup_seqZ in Hi as [-> _].
  rewrite Z.add_0_l, zget_of_nat. exact Hc.
Qed.

(** The stacks of the processors with identifiers below eight lie in [kernel_stack], one after the other. *)
Lemma kstack_place id : 0 <= kernel_stack -> kernel_stack + 8 * KSTACK_SIZE < 2 ^ 32 -> 0 <= id < 8 ->
  m_idle kernel_stack id = kernel_stack + KSTACK_SIZE * id /\ get_kstack kernel_stack id = kernel_stack + KSTACK_SIZE * (id + 1).
Proof. intros Hk Hs Hi. unfold get_kstack, m_idle, KSTACK_SIZE in *. rewrite !u32_small by (rewrite ?u32_small by lia; lia). lia. Qed.

(** Those with larger ones do not: the stack of processor 8 begins where [kernel_stack] ends. *)
Lemma kstack_overruns : 0 <= kernel_stack -> kernel_stack + 9 * KSTACK_SIZE < 2 ^ 32 -> m_idle kernel_stack 8 = kernel_stack + 8 * KSTACK_SIZE.
Proof. intros Hk Hs. unfold m_idle, KSTACK_SIZE in *. rewrite !u32_small by (rewrite ?u32_small by lia; lia). lia. Qed.

Lemma common_ready (blob : list Z) m0 m i c : common m0 m -> read32 m (PA2VA AP_INDEX) = i ->
  read32 m (PA2VA AP_KSTACK) = get_kstack kernel_stack (cpu_apic_id c) ->
  read32 m0 (PA2VA AP_MAIN) = apmain -> read32 m0 (PA2VA AP_PGDIR) = VA2PA pg_dir ->
  bytes_from (length blob) m0 (PA2VA AP_START_ADDR) = blob -> ap_ready blob i c m.
Proof.
  intros Cm Ei Ek Em Ep Eb. split; auto.
  - rewrite <- Em. unfold read32. f_equal. apply bytes_from_agree. intros x Hx. apply Cm. lia.
  - rewrite <- Ep. unfold read32. f_equal. apply bytes_from_agree. intros x Hx. apply Cm. lia.
  - rewrite <- Eb at 2. apply bytes_from_agree. intros x Hx. apply Cm. lia.
Qed.

Lemma code_copied m : 0 <= code_size -> PA2VA AP_START_ADDR + code_size <= code ->
  bytes_from (Z.to_nat code_size) (snd (memcpy m (PA2VA AP_START_ADDR) code code_size)) (PA2VA AP_START_ADDR) = bytes_from (Z.to_nat code_size) m code.
Proof.
  intros Hs Hc. unfold memcpy, memmov. replace ((code <? _) && _) with false by lia. cbn [snd].
  assert (G : forall n o, 0 <= o -> o + Z.of_nat n <= code_size ->
    bytes_from n (copy_fwd (Z.to_nat code_size) m (PA2VA AP_START_ADDR) code) (PA2VA AP_START_ADDR + o) = bytes_from n m (code + o)).
  { induction n as [|n IH]; intros o Ho Hn; [reflexivity|]. cbn [bytes_from]. rewrite copy_fwd_spec by lia. replace (_ && _) with true by lia.
    f_equal; [f_equal; lia|]. rewrite <- !Z.add_assoc. apply IH; lia. }
  specialize (G (Z.to_nat code_size) 0 ltac:(lia) ltac:(lia)). rewrite !Z.add_0_r in G. exact G.
Qed.
End start_ap.

(** every processor of the configuration but the boot processor, in order, is sent the initialisation and twice the
    start-up message for the page of the start code; while the boot processor waits for it, memory holds the start code, the
    page directory, the main function, its index, under which [get_cpu] finds it, and the top of its own stack, which
    lies in [kernel_stack] and overlaps no other processor's. *)
Theorem processors_are_started kernel_stack apmain pg_dir code (blob : list Z) (a : arch) m :
  let ls := fst (start_ap kernel_stack apmain pg_dir code (zlen blob) a m) in
  let aps := filter is_ap (zip (seqZ 0 (m_cpu_num a)) (m_cpu a)) in
  0 <= kernel_stack -> kernel_stack + 8 * KSTACK_SIZE < 2 ^ 32 -> 0 <= apmain < 2 ^ 32 -> m_cpu_num a <= MAX_CPU_NUM ->
  (forall c, c ∈ m_cpu a -> 0 <= cpu_apic_id c < 8) -> NoDup (cpu_apic_id <$> m_cpu a) ->
  PA2VA AP_START_ADDR + zlen blob <= code -> bytes_from (length blob) m code = blob ->
  Forall2 (fun ic x => ap_ready kernel_stack apmain pg_dir blob (fst ic) (snd ic) (la_mem x) /\ get_cpu a (fst ic) = Some (snd ic) /\
      let id := cpu_apic_id (snd ic) in
      ipi_read <$> la_ipis x = [(id, MODE_INIT, 0); (id, MODE_INIT, 0); (id, MODE_STARTUP, AP_START_ADDR / 4096); (id, MODE_STARTUP, AP_START_ADDR / 4096)] /\
      kernel_stack <= m_idle kernel_stack id /\ get_kstack kernel_stack id = m_idle kernel_stack id + KSTACK_SIZE /\
      get_kstack kernel_stack id <= kernel_stack + 8 * KSTACK_SIZE) aps ls /\
  (forall i j c d, i <> j -> zget (m_cpu a) i = Some c -> zget (m_cpu a) j = Some d ->
    get_kstack kernel_stack (cpu_apic_id c) <= m_idle kernel_stack (cpu_apic_id d) \/ get_kstack kernel_stack (cpu_apic_id d) <= m_idle kernel_stack (cpu_apic_id c)).
Proof.
  intros ls aps Hk Hs Hm Hn Hid Nd Hcode Hblob. pose proof (zlen_nonneg blob) as Hz. split.
  - unfold ls, start_ap. set (m1 := put32 m _ _). set (m2 := put32 m1 _ _). set (m3 := snd _).
    assert (Rd : forall p, p + 4 <= PA2VA AP_START_ADDR -> read32 m3 p = read32 m2 p).
    { intros p Hp. unfold read32. f_equal. apply bytes_from_agree. intros x Hx. unfold m3, memcpy, memmov. replace ((code <? _) && _) with false by lia.
      cbn [snd]. rewrite copy_fwd_spec by lia. replace (_ && _) with false by lia. reflexivity. }
    assert (Em : read32 m3 (PA2VA AP_MAIN) = apmain).
    { rewrite Rd by (vm_compute; congruence). unfold m2. rewrite read32_frame by (vm_compute; intuition congruence). apply read32_put32, Hm. }
    assert (Ep : read32 m3 (PA2VA AP_PGDIR) = VA2PA pg_dir).
    { rewrite Rd by (vm_compute; congruence). apply read32_put32, u32_range. }
    assert (Eb : bytes_from (length blob) m3 (PA2VA AP_START_ADDR) = blob).
    { pose proof (code_copied code (zlen blob) m2 Hz Hcode) as E. unfold zlen in E at 1 3. rewrite !Nat2Z.id in E. unfold m3. rewrite E. rewrite <- Hblob at 2.
      apply bytes_from_agree. intros x Hx. unfold m2, m1. change (PA2VA AP_START_ADDR) with 0xc0009000 in Hcode. change (PA2VA AP_MAIN) with 0xc0008118.
      change (PA2VA AP_PGDIR) with 0xc0008110. rewrite !put32_frame by lia. reflexivity. }
    assert (Hi8 : m_cpu_num a <= 8) by exact Hn.
    pose proof (start_loop_ok kernel_stack (m_cpu a) 0 m3 m3 (fun x _ => eq_refl) (fun c Hc => ltac:(specialize (Hid c Hc); lia)) ltac:(lia) ltac:(unfold m_cpu_num in Hi8; lia)) as L.
    fold (m_cpu_num a) in L. fold aps in L. apply Forall2_same_length_lookup_2; [apply (Forall2_length _ _ _ L)|].
    intros n [i c] x Hic Hx. destruct (Forall2_lookup_lr _ _ _ _ _ _ L Hic Hx) as (Cm & Ei & Ek & Ex). cbn [fst snd] in *.
    assert (Hc : zget (m_cpu a) i = Some c) by (apply elem_of_numbered; eapply (list_elem_of_filter is_ap), list_elem_of_lookup_2, Hic).
    assert (In : c ∈ m_cpu a) by (eapply list_elem_of_lookup_2, zget_lookup, Hc).
    destruct (kstack_place kernel_stack (cpu_apic_id c) Hk Hs (Hid c In)) as [P1 P2]. specialize (Hid c In). unfold KSTACK_SIZE in *.
    split_and!; [apply (common_ready kernel_stack apmain pg_dir blob m3); assumption | | exact Ex | lia..].
    unfold get_cpu. replace (m_cpu_num a <=? i) with false; [exact Hc|]. apply zget_Some_range in Hc. unfold m_cpu_num. lia.
  - intros i j c d Hij Hc Hd. 
    destruct (kstack_place kernel_stack (cpu_apic_id c) Hk Hs) as [P1 P2]; [apply Hid; eapply list_elem_of_lookup_2, zget_lookup, Hc|].
    destruct (kstack_place kernel_stack (cpu_apic_id d) Hk Hs) as [Q1 Q2]; [apply Hid; eapply list_elem_of_lookup_2, zget_lookup, Hd|].
    rewrite P1, P2, Q1, Q2. assert (cpu_apic_id c <> cpu_apic_id d); [|unfold KSTACK_SIZE; lia].
    intros E. apply zget_lookup in Hc as [Hc Hc0]. apply zget_lookup in Hd as [Hd Hd0]. apply Hij.
    assert (Z.to_nat i = Z.to_nat j); [|lia]. eapply NoDup_lookup; [exact Nd | |].
    + rewrite list_lookup_fmap, Hc. reflexivity.
    + rewrite list_lookup_fmap, Hd. cbn. rewrite E. reflexivity.
Qed.

(** ** Witnesses *)

Definition demo_isr (i : Z) : Z := u32 (0xc0101000 + 16 * i).

Lemma descriptor_tables_correct_witness :
  let '(m', t) := startup_tables demo_isr 0xc0140000 0xc0150000 0xc0150030 0xc0150830 (replicate 6 0) (replicate 256 0) (fun _ => 0xcc) in
  gate_of <$> zget (t_idt t) 0x80 = Some (mk_gate 0xc0101800 8 TYPE_TRAP_GATE 0 3 1) /\
  segment_of <$> zget (t_gdt t) (t_tr t / 8) = Some (mk_seg 0xc0150830 255 9 0 0 1 0 0) /\ read32 m' 0xc0150834 = 0xc0142000.
Proof.
  assert (L : zlen (replicate 6 0) = GDT_LEN) by reflexivity. assert (L' : zlen (replicate 256 0) = IDT_LEN) by reflexivity.
  pose proof (descriptor_tables_correct demo_isr 0xc0140000 0xc0150000 0xc0150030 0xc0150830 (replicate 6 0) (replicate 256 0) (fun _ => 0xcc)
    (fun i => u32_range _) L L' ltac:(lia) ltac:(lia) ltac:(lia)) as H.
  destruct (startup_tables _ _ _ _ _ _ _ _) as [m' t]. destruct H as (Hg & _ & _ & _ & _ & Ht & He & _).
  split_and!; [apply (Hg 0x80); unfold IDT_LEN; lia | exact Ht | exact He].
Defined.

Record demo_io := mk_io { dio_sel : Z; dio_regs : Z -> Z }.
#[export] Instance demo_io_apic : IoApic demo_io := {
  io_select a r := mk_io r (dio_regs a);
  io_data a := dio_regs a (dio_sel a);
  io_set_data a v := mk_io (dio_sel a) (fun r => if r =? dio_sel a then v else dio_regs a r);
  io_reg := dio_regs
}.
#[export] Instance demo_io_laws : IoApicLaws demo_io.
Proof. split; reflexivity. Qed.

(** A kernel that records which handlers ran; the network card is on line 11. *)
#[export] Instance demo_devices : Devices (list Z) := {
  nic_get_irq _ := 11;
  nic_do_irq k := 1 :: k;
  keyboard_do_irq k := 2 :: k;
  i8254_do_irq k := 3 :: k;
  hd_end_request k := 4 :: k;
  hd_do_request k := 5 :: k;
  do_timer_irq k := 6 :: k;
  do_page_fault k := 7 :: k;
  do_syscall k := 8 :: k
}.

Lemma line_reaches_driver_witness :
  line (enable_irq (io_apic_init (mk_io 0 (fun r => if r =? 1 then 0x00170011 else 0))) 11 0) 11 = Some (0x2b, 0) /\
  do_common_isr (mk_cs [] [0x2b]) 0x2b = Done (mk_cs [1] []).
Proof.
  assert (Hl : zlen (replicate 256 0) = IDT_LEN) by reflexivity.
  assert (Hin : 11 ∈ [IRQ_KEYBOARD; IRQ_HARDDISK; nic_get_irq (cs_kernel (mk_cs (@nil Z) []))]) by (right; right; left).
  destruct (line_reaches_driver (mk_io 0 (fun r => if r =? 1 then 0x00170011 else 0)) 11 0 demo_isr (replicate 256 0) (mk_cs (@nil Z) []) (mk_cs [] [0x2b]))
    as (H1 & _ & l & H2 & H3 & _); [reflexivity | vm_compute; split; congruence | lia | exact Hin | intros i; apply u32_range | exact Hl | reflexivity |].
  split; [apply (H1 11); vm_compute; split; congruence|]. rewrite (H3 eq_refl) in H2. exact H2.
Defined.

Definition demo_arch : arch := mk_arch [mk_cpu 0 2; mk_cpu 1 0] (Some 0).
Definition demo_code : mem := put_bytes (fun _ => 0) 0xc0200000 [0xfa; 0x31; 0xc0].

Lemma processors_are_started_witness : exists x,
  fst (start_ap 0xc0140000 0xc0100100 0xc0110000 0xc0200000 3 demo_arch demo_code) = [x] /\ ap_ready 0xc0140000 0xc0100100 0xc0110000 [0xfa; 0x31; 0xc0] 1 (mk_cpu 1 0) (la_mem x).
Proof.
  destruct (processors_are_started 0xc0140000 0xc0100100 0xc0110000 0xc0200000 [0xfa; 0x31; 0xc0] demo_arch demo_code) as [H _].
  - lia.
  - unfold KSTACK_SIZE. lia.
  - lia.
  - vm_compute. congruence.
  - intros c Hc. cbn in Hc. rewrite !elem_of_cons in Hc. destruct Hc as [-> | [-> | Hc]]; [cbn; lia | cbn; lia | inversion Hc].
  - cbn. apply NoDup_cons. split; [rewrite list_elem_of_singleton; lia | apply NoDup_singleton].
  - vm_compute. congruence.
  - reflexivity.
  - change (zlen [0xfa; 0x31; 0xc0]) with 3 in H. change (filter is_ap (zip (seqZ 0 (m_cpu_num demo_arch)) (m_cpu demo_arch))) with [(1, mk_cpu 1 0)] in H.
    apply Forall2_cons_inv_l in H as (x & ls & Hx & Hn & E). apply Forall2_nil_inv_l in Hn as ->. exists x. split; [exact E | apply Hx].
Defined.
