(* ===== verification/Clock.v ===== *)
(** * Clocks: the 8254, the local APIC's timer, delays (src/src/i8254.cc, local_apic.cc, delay.cc)

    The 8254 counts down from [LATCH] once every hundredth of a second.  [calibrate_clock] watches its count for ten rounds
    and compares it with the counters of the local APIC and of the processor; the results program the
    periodic interrupt and the delays.

    Time is measured in a unit as small as one likes, of which [Q] make a tick of the 8254.  The kernel sees it only
    through readings: [clk k] is the time of the [k]-th reading of the count.  The counters of the bus and of the
    processor run at any rational rate and with any phase; a reading gives the ticks that are complete. *)
From Stdlib Require Import ZArith ZifyBool Lia.
From stdpp Require Import base option list.
From S2P Require Import Prelude Cpu.

Definition HZ : Z := 100.
Definition CLOCK_TICK_RATE : Z := 1193180.
Definition CALIBRATE_LOOP : Z := HZ / 10.

(** [val] of [i8254_t::init], and the two bytes that are written to the counter. *)
Definition LATCH : Z := CLOCK_TICK_RATE / HZ.
Definition i8254_init_bytes : list Z := [u8 (Z.land LATCH 0xff); u8 (Z.shiftr LATCH 8)].

(** [get_timer_count] from the two bytes that the latched counter gives, the low one first. *)
Definition get_timer_count (lo hi : Z) : Z := let count := lo in Z.lor count (Z.shiftl hi 8).

(** ** Delays ([delay_t]) *)

Record delay := mk_delay { s_inited : bool; s_cpu_freq : Z; s_cpu_freq_mhz : Z }.

Definition delay_init (d : delay) (freq : Z) : delay :=
  if negb (s_inited d) then mk_delay true freq (freq / 1000000) else d.

(** [rdtsc t] is the [t]-th reading of the processor's counter; the result is the number of the last reading. *)
Fixpoint rdtsc_loop (fuel : nat) (rdtsc : nat -> Z) (t : nat) (prev delta : Z) : option nat :=
  let now := rdtsc t in
  if u64 (now - prev) <? delta then
    match fuel with
    | O => None
    | S k => rdtsc_loop k rdtsc (S t) prev delta
    end
  else Some t.

Definition rdtsc_delay (fuel : nat) (rdtsc : nat -> Z) (t : nat) (delta : Z) : option nat :=
  let prev := rdtsc t in rdtsc_loop fuel rdtsc (S t) prev delta.

Definition us_delay (fuel : nat) (d : delay) (rdtsc : nat -> Z) (t : nat) (us : Z) : option nat :=
  rdtsc_delay fuel rdtsc t (u64 (us * s_cpu_freq_mhz d)).

Definition ms_delay (fuel : nat) (d : delay) (rdtsc : nat -> Z) (t : nat) (ms : Z) : option nat :=
  us_delay fuel d rdtsc t (u32 (ms * 1000)).

(** ** Calibration *)

(** [get k] is what the [k]-th call of [get_timer_count] returns; the result is the number of the next reading. *)
Fixpoint wait_loop (fuel : nat) (get : nat -> Z) (k : nat) (prev_count : Z) : option nat :=
  let current_count := get k in
  let delta := s32 (current_count - prev_count) in
  if delta <? 300 then
    match fuel with
    | O => None
    | S f => wait_loop f get (S k) current_count
    end
  else Some (S k).

Definition wait_8254_wraparound (fuel : nat) (get : nat -> Z) (k : nat) : option nat :=
  let current_count := get k in wait_loop fuel get (S k) current_count.

(** [for (int i = 0; i < CALIBRATE_LOOP; i++)] *)
Fixpoint wait_rounds (n : nat) (fuel : nat) (get : nat -> Z) (k : nat) : option nat :=
  match n with
  | O => Some k
  | S n => match wait_8254_wraparound fuel get k with None => None | Some k => wait_rounds n fuel get k end
  end.

Definition APIC_TPR : Z := 0x80.
Definition APIC_EOI : Z := 0xb0.
Definition APIC_SPIV : Z := 0xf0.
Definition APIC_LVT_TIMER : Z := 0x320.
Definition APIC_LVT_PMCR : Z := 0x340.
Definition APIC_LVT_LINT0 : Z := 0x350.
Definition APIC_LVT_LINT1 : Z := 0x360.
Definition APIC_LVT_ERROR : Z := 0x370.
Definition APIC_TIMER_ICT : Z := 0x380.
Definition APIC_TIMER_DCR : Z := 0x3e0.
Definition APIC_SOFT_ENABLE : Z := 0x100.

(** The writes to the registers of the local APIC, the last one first. *)
Definition writes : Type := list (Z * Z).
Definition apic_write (w : writes) (reg v : Z) : writes := (reg, v) :: w.

Definition setup_lvt_timer (w : writes) (clocks : Z) : writes :=
  let w := apic_write w APIC_LVT_TIMER (Z.lor (Z.shiftl 1 17) VEC_LOCAL_TIMER) in
  let w := apic_write w APIC_TIMER_DCR 0xb in
  apic_write w APIC_TIMER_ICT clocks.

(** The counters as readings of the state of the world after reading [k] of the 8254: [tsc k] and [cct k]. *)
Definition calibrate_clock (fuel : nat) (get tsc cct : nat -> Z) (k : nat) (d : delay) (w : writes) : option (Z * delay * writes * nat) :=
  let w := setup_lvt_timer w 0xffffffff in
  match wait_8254_wraparound fuel get k with
  | None => None
  | Some b =>
      let tsc_begin := tsc b in
      let apic_begin := cct b in
      match wait_rounds (Z.to_nat CALIBRATE_LOOP) fuel get b with
      | None => None
      | Some e =>
          let tsc_end := tsc e in
          let apic_end := cct e in
          let clocks := u32 (apic_begin - apic_end) in
          let tsc_delta := u32 (tsc_end - tsc_begin) in
          Some (clocks / CALIBRATE_LOOP, delay_init d (u32 (tsc_delta / CALIBRATE_LOOP * HZ)), w, e)
      end
  end.

(** [init_timer] of the boot processor. *)
Definition init_timer (fuel : nat) (get tsc cct : nat -> Z) (k : nat) (d : delay) (w : writes) : option (Z * delay * writes * nat) :=
  match calibrate_clock fuel get tsc cct k d w with
  | None => None
  | Some (m_clocks, d, w, k) => Some (m_clocks, d, setup_lvt_timer w m_clocks, k)
  end.

(** [cpuid] says in bit 9 of [edx] whether there is a local APIC. *)
Definition check (edx : Z) : Z := if Z.testbit edx 9 then 0 else -1.

(** [init] of the boot processor: the value returned, [m_clocks] and the rest. *)
Definition local_apic_init (edx : Z) (fuel : nat) (get tsc cct : nat -> Z) (k : nat) (d : delay) (m_clocks : Z) (w : writes) : option (Z * Z * delay * writes * nat) :=
  if negb (check edx =? 0) then Some (-1, m_clocks, d, w, k)
  else
    match init_timer fuel get tsc cct k d w with
    | None => None
    | Some (m_clocks, d, w, k) =>
        let w := apic_write w APIC_SPIV (Z.lor APIC_SOFT_ENABLE VEC_SPURIOUS) in
        let w := apic_write w APIC_LVT_PMCR (Z.shiftl 1 16) in
        let w := apic_write w APIC_LVT_LINT0 (Z.shiftl 1 16) in
        let w := apic_write w APIC_LVT_LINT1 (Z.shiftl 1 16) in
        let w := apic_write w APIC_LVT_ERROR VEC_ERROR in
        let w := apic_write w APIC_EOI 0 in
        let w := apic_write w APIC_TPR 0 in
        Some (0, m_clocks, d, w, k)
    end.

(** The value that a register was given last. *)
Fixpoint reg_of (w : writes) (reg : Z) : option Z :=
  match w with
  | [] => None
  | (r, v) :: w => if r =? reg then Some v else reg_of w reg
  end.

(** ** The count goes around *)

Lemma get_timer_count_ok c : 0 <= c < 2 ^ 16 -> get_timer_count (c mod 2 ^ 8) (c / 2 ^ 8) = c.
Proof.
  intros Hc. unfold get_timer_count. rewrite Z.lor_comm, Z.shiftl_mul_pow2 by lia.
  rewrite lor_disjoint by (try lia; apply Z.mod_pos_bound; lia). pose proof (Z.div_mod c (2 ^ 8)). lia.
Qed.

Section clock.
(** Readings that are at least [quick] and at most [gap] apart; [gap] is not more than half a round of the 8254, five milliseconds. *)
Context (Q : Z) (clk : nat -> Z) (quick gap : Z).
Hypothesis Q_pos : 0 < Q.
Hypothesis clk_pos : 0 <= clk 0.
Hypothesis quick_pos : 0 < quick.
Hypothesis clk_step : forall k, quick <= clk (S k) - clk k <= gap.
Hypothesis gap_half : 2 * gap <= LATCH * Q.

(** The ticks of the 8254 that are complete at reading [k], the count that is read, and the number of the round. *)
Definition ticks (k : nat) : Z := clk k / Q.
Definition get (k : nat) : Z := LATCH - ticks k mod LATCH.
Definition round (k : nat) : Z := clk k / (LATCH * Q).

Lemma latch_value : LATCH = 11931. Proof. reflexivity. Qed.

Lemma clk_nonneg k : 0 <= clk k.
Proof. induction k as [|k IH]; [exact clk_pos|]. pose proof (clk_step k). lia. Qed.

Lemma round_ticks k : round k = ticks k / LATCH.
Proof. unfold round, ticks. rewrite Z.div_div by (rewrite ?latch_value; lia). f_equal. lia. Qed.

Lemma round_bounds k : LATCH * Q * round k <= clk k < LATCH * Q * round k + LATCH * Q.
Proof.
  unfold round. assert (0 < LATCH * Q) by (rewrite latch_value; lia).
  pose proof (Z.div_mod (clk k) (LATCH * Q)). pose proof (Z.mod_pos_bound (clk k) (LATCH * Q)). lia.
Qed.

Lemma ticks_step k : 0 <= ticks k /\ 0 <= ticks (S k) - ticks k <= LATCH - 300.
Proof.
  unfold ticks. pose proof (clk_step k). pose proof (clk_nonneg k). rewrite latch_value in *.
  pose proof (Z.div_mod (clk k) Q). pose proof (Z.mod_pos_bound (clk k) Q). pose proof (Z.div_mod (clk (S k)) Q). pose proof (Z.mod_pos_bound (clk (S k)) Q).
  set (a := clk k / Q) in *. set (b := clk (S k) / Q) in *. split; [|split]; nia.
Qed.

(** A step of 300 or more upwards is exactly the start of a new round. *)
Lemma delta_detects k : (s32 (get (S k) - get k) <? 300) = (round (S k) =? round k) /\ round k <= round (S k) <= round k + 1.
Proof.
  destruct (ticks_step k) as [Nn St]. rewrite !round_ticks. unfold get. rewrite latch_value in *.
  set (q := ticks k / 11931). set (q' := ticks (S k) / 11931). set (r := ticks k mod 11931). set (r' := ticks (S k) mod 11931).
  assert (E : ticks k = 11931 * q + r /\ 0 <= r < 11931) by (subst q r; divlia).
  assert (E' : ticks (S k) = 11931 * q' + r' /\ 0 <= r' < 11931) by (subst q' r'; divlia).
  assert (C : q' = q \/ q' = q + 1) by lia.
  assert (Sd : s32 (11931 - r' - (11931 - r)) = r - r').
  { unfold s32. replace (11931 - r' - (11931 - r)) with (r - r') by lia. destruct (decide (0 <= r - r')).
    - rewrite Z.mod_small by lia. replace (_ <? _) with true by lia. reflexivity.
    - rewrite <- (Z_mod_plus_full _ 1). rewrite Z.mod_small by lia. replace (_ <? _) with false by lia. lia. }
  rewrite Sd. split; lia.
Qed.

(** A call returns after the first reading of the next round; a round has at most [LATCH * Q / quick] readings and one. *)
Lemma wait_loop_ok fuel : forall k, LATCH * Q * (round k + 1) - clk k <= quick * Z.of_nat fuel ->
  exists j, wait_loop fuel get (S k) (get k) = Some (S j) /\ round j = round k + 1 /\ clk j < LATCH * Q * round j + gap.
Proof.
  induction fuel as [|fuel IH]; intros k Hf; pose proof (round_bounds k) as Rk.
  - exfalso. lia.
  - cbn [wait_loop]. destruct (delta_detects k) as [-> R]. pose proof (clk_step k). destruct (round (S k) =? round k) eqn:E; tests.
    + destruct (IH (S k)) as (j & Ej & Rj & Cj); [rewrite E; lia|]. exists j. split; [exact Ej|]. split; [lia | exact Cj].
    + exists (S k). split; [reflexivity|]. assert (R' : round (S k) = round k + 1) by lia. split; [exact R'|]. rewrite R'. lia.
Qed.

Lemma wait_ok fuel k : LATCH * Q <= quick * Z.of_nat fuel ->
  exists j, wait_8254_wraparound fuel get k = Some (S j) /\ round j = round k + 1 /\ clk j < LATCH * Q * round j + gap.
Proof. intros Hf. apply wait_loop_ok. pose proof (round_bounds k). lia. Qed.

(** The reading behind the first one of a round is still in that round. *)
Lemma next_in_round j : clk j < LATCH * Q * round j + gap -> round (S j) = round j.
Proof.
  intros Hj. pose proof (clk_step j). pose proof (round_bounds j). pose proof (round_bounds (S j)) as B. assert (0 < LATCH * Q) by (rewrite latch_value; lia).
  assert (U : clk (S j) < LATCH * Q * (round j + 1)) by lia. assert (L : LATCH * Q * round j <= clk (S j)) by lia.
  assert (round j < round (S j) + 1) by (apply (Z.mul_lt_mono_pos_l (LATCH * Q)); lia). assert (round (S j) < round j + 1) by (apply (Z.mul_lt_mono_pos_l (LATCH * Q)); lia). lia.
Qed.

Lemma wait_rounds_ok fuel n : forall j, LATCH * Q <= quick * Z.of_nat fuel -> clk j < LATCH * Q * round j + gap ->
  exists j', wait_rounds n fuel get (S j) = Some (S j') /\ round j' = round j + Z.of_nat n /\ clk j' < LATCH * Q * round j' + gap.
Proof.
  induction n as [|n IH]; intros j Hf Hj; [exists j; split; [reflexivity|]; split; [lia | exact Hj]|].
  cbn [wait_rounds]. destruct (wait_ok fuel (S j) Hf) as (j1 & -> & R1 & C1). destruct (IH j1 Hf C1) as (j' & E & R' & C').
  exists j'. split; [exact E|]. split; [|exact C']. pose proof (next_in_round j Hj). lia.
Qed.

(** ** Programming the timer and the delays *)

(** The counters are read at [at_c k] and [at_t k], after reading [k - 1] of the 8254 and before the next; in the time of [den] units
    the bus makes [rate] ticks and the processor [speed]. *)
Context (at_c at_t : nat -> Z) (den rate speed c0 t0 : Z).
Hypothesis at_c_between : forall k, clk k <= at_c (S k) <= clk (S k).
Hypothesis at_t_between : forall k, clk k <= at_t (S k) <= clk (S k).
Hypothesis den_pos : 0 < den.
Hypothesis rate_pos : 0 <= rate.
Hypothesis speed_pos : 0 <= speed.

(** The longest time that the ten rounds can be taken to last. *)
Definition longest : Z := 10 * LATCH * Q + 2 * gap.

(** The bus does not count [2 ^ 32] ticks in this time, nor the processor a tenth of it: ten rounds are a tenth of a second, so that
    the frequency of the processor, in hertz, stays below [2 ^ 32], 4.29 GHz, by the margin of the two gaps. *)
Hypothesis rate_fits : rate * longest + den < 2 ^ 32 * den.
Hypothesis speed_fits : 10 * (speed * longest + den) < 2 ^ 32 * den.

Definition cct (k : nat) : Z := u32 (- ((rate * at_c k + c0) / den)).
Definition tsc (k : nat) : Z := u64 ((speed * at_t k + t0) / den).

Lemma counter_difference w a b : 0 < w -> 0 <= a - b < 2 ^ w -> (a mod 2 ^ w - b mod 2 ^ w) mod 2 ^ w = a - b.
Proof. intros Hw Hd. rewrite <- Zminus_mod. apply Z.mod_small, Hd. Qed.

(** The ticks that a counter has made between two readings, up to one. *)
Lemma ticks_between f o x y : 0 <= f -> x <= y ->
  let n := (f * y + o) / den - (f * x + o) / den in 0 <= n /\ f * (y - x) - den < den * n < f * (y - x) + den.
Proof.
  intros Hf Hxy n. subst n. pose proof (Z.mul_le_mono_nonneg_l x y f Hf Hxy).
  split; [pose proof (Z.div_le_mono (f * x + o) (f * y + o) den den_pos ltac:(lia)); lia|].
  pose proof (Z.div_mod (f * y + o) den). pose proof (Z.mod_pos_bound (f * y + o) den). pose proof (Z.div_mod (f * x + o) den). pose proof (Z.mod_pos_bound (f * x + o) den).
  set (a := (f * y + o) / den) in *. set (b := (f * x + o) / den) in *. rewrite !Z.mul_sub_distr_l. lia.
Qed.

Lemma cct_difference b e : at_c b <= at_c e -> rate * (at_c e - at_c b) + den < 2 ^ 32 * den ->
  let n := u32 (cct b - cct e) in 0 <= n < 2 ^ 32 /\ rate * (at_c e - at_c b) - den < den * n < rate * (at_c e - at_c b) + den.
Proof.
  intros Ho Hf n. destruct (ticks_between rate c0 (at_c b) (at_c e) rate_pos Ho) as [N B]. set (k := _ - _) in N, B.
  assert (K : k < 2 ^ 32) by (apply (Z.mul_lt_mono_pos_l den); lia).
  assert (E : n = k); [|rewrite E; split; [lia | exact B]]. subst n. unfold cct, u32. rewrite counter_difference; subst k; lia.
Qed.

Lemma tsc_difference b e : at_t b <= at_t e -> 10 * (speed * (at_t e - at_t b) + den) < 2 ^ 32 * den ->
  let n := u32 (tsc e - tsc b) in 0 <= 10 * n < 2 ^ 32 /\ speed * (at_t e - at_t b) - den < den * n < speed * (at_t e - at_t b) + den.
Proof.
  intros Ho Hf n. destruct (ticks_between speed t0 (at_t b) (at_t e) speed_pos Ho) as [N B]. set (k := _ - _) in N, B.
  assert (K : 10 * k < 2 ^ 32) by (apply (Z.mul_lt_mono_pos_l den); lia).
  assert (E : n = k); [|rewrite E; split; [lia | exact B]]. subst n. unfold tsc, u64, u32.
  rewrite Zminus_mod, <- !Znumtheory.Zmod_div_mod by (try lia; exists (2 ^ 32); reflexivity). rewrite counter_difference; subst k; lia.
Qed.

(** The time between the readings that bound the ten rounds. *)
Lemma ten_rounds (at_ : nat -> Z) b e : (forall k, clk k <= at_ (S k) <= clk (S k)) -> round e = round b + 10 ->
  clk b < LATCH * Q * round b + gap -> clk e < LATCH * Q * round e + gap ->
  10 * LATCH * Q - 2 * gap < at_ (S e) - at_ (S b) < longest /\ at_ (S b) <= at_ (S e).
Proof.
  intros A Re Cb Ce. pose proof (A b). pose proof (A e). pose proof (clk_step b). pose proof (clk_step e). pose proof (round_bounds b). pose proof (round_bounds e) as Be.
  rewrite Re in Ce, Be. unfold longest. assert (0 < LATCH * Q) by (rewrite latch_value; lia). lia.
Qed.

(** C40: provided that the frequency of the processor stays below [2 ^ 32] hertz (4.29 GHz; beyond it the measurement
    overflows, [fast_processor_overflows]) and that readings of the 8254 are at most half a round apart, [init] of the boot
    processor's local APIC returns, and the periodic interrupt [VEC_LOCAL_TIMER] is programmed with ten rounds' worth of bus
    clocks divided by ten and the delays get the frequency measured, both right up to the ticks of two gaps between readings in ten
    rounds and the rounding of the divisions; the lines of the old interrupt controller are masked.  Bus and processor run at any rational
    rates. *)
Theorem timer_is_calibrated edx fuel d m_clocks w : Z.testbit edx 9 = true -> LATCH * Q <= quick * Z.of_nat fuel -> s_inited d = false ->
  exists clocks d' w' k', local_apic_init edx fuel get tsc cct 0 d m_clocks w = Some (0, clocks, d', w', k') /\
    rate * (10 * LATCH * Q - 2 * gap) - 10 * den <= den * (10 * clocks) <= rate * (10 * LATCH * Q + 2 * gap) + den /\
    10 * speed * (10 * LATCH * Q - 2 * gap) - 100 * den <= den * s_cpu_freq d' <= 10 * speed * (10 * LATCH * Q + 2 * gap) + 10 * den /\
    s_cpu_freq_mhz d' = s_cpu_freq d' / 1000000 /\
    reg_of w' APIC_LVT_TIMER = Some (2 ^ 17 + VEC_LOCAL_TIMER) /\ reg_of w' APIC_TIMER_ICT = Some clocks /\
    reg_of w' APIC_LVT_LINT0 = Some (2 ^ 16) /\ reg_of w' APIC_LVT_LINT1 = Some (2 ^ 16) /\
    reg_of w' APIC_SPIV = Some (APIC_SOFT_ENABLE + VEC_SPURIOUS) /\ reg_of w' APIC_TPR = Some 0.
Proof.
  intros Hx Hf Hd. unfold local_apic_init, check, init_timer, calibrate_clock. rewrite Hx. cbn [Z.eqb negb].
  destruct (wait_ok fuel 0 Hf) as (b & -> & Rb & Cb). destruct (wait_rounds_ok fuel (Z.to_nat CALIBRATE_LOOP) b Hf Cb) as (e & -> & Re & Ce).
  change (Z.of_nat (Z.to_nat CALIBRATE_LOOP)) with 10 in Re. change CALIBRATE_LOOP with 10. unfold HZ.
  destruct (ten_rounds at_c b e at_c_between Re Cb Ce) as [[Lc Uc] Oc]. destruct (ten_rounds at_t b e at_t_between Re Cb Ce) as [[Lt Ut] Ot].
  pose proof (Z.mul_le_mono_nonneg_l _ _ rate rate_pos (Z.lt_le_incl _ _ Lc)). pose proof (Z.mul_le_mono_nonneg_l _ _ rate rate_pos (Z.lt_le_incl _ _ Uc)).
  pose proof (Z.mul_le_mono_nonneg_l _ _ speed speed_pos (Z.lt_le_incl _ _ Lt)). pose proof (Z.mul_le_mono_nonneg_l _ _ speed speed_pos (Z.lt_le_incl _ _ Ut)).
  destruct (cct_difference (S b) (S e) Oc ltac:(lia)) as [N1 B1]. destruct (tsc_difference (S b) (S e) Ot ltac:(lia)) as [N2 B2].
  set (dc := u32 (cct (S b) - cct (S e))) in *. set (dt := u32 (tsc (S e) - tsc (S b))) in *.
  unfold delay_init. rewrite Hd. cbn [negb]. assert (Fr : 0 <= dt / 10 * 100 < 2 ^ 32) by divlia. rewrite (u32_small _ Fr).
  eexists _, _, _, _. split; [reflexivity|]. cbn [s_cpu_freq s_cpu_freq_mhz]. fold longest.
  assert (D1 : dc - 9 <= 10 * (dc / 10) <= dc) by divlia. assert (D2 : 10 * dt - 90 <= dt / 10 * 100 <= 10 * dt) by divlia.
  pose proof (Z.mul_le_mono_nonneg_l _ _ den (Z.lt_le_incl _ _ den_pos) (proj1 D1)). pose proof (Z.mul_le_mono_nonneg_l _ _ den (Z.lt_le_incl _ _ den_pos) (proj2 D1)).
  pose proof (Z.mul_le_mono_nonneg_l _ _ den (Z.lt_le_incl _ _ den_pos) (proj1 D2)). pose proof (Z.mul_le_mono_nonneg_l _ _ den (Z.lt_le_incl _ _ den_pos) (proj2 D2)).
  split_and!; try reflexivity; lia.
Qed.
End clock.

(** ** Waiting *)

Section waiting.
(** The [t]-th reading is taken at [time t]. *)
Context (time : nat -> Z) (step : Z).
Hypothesis time_step : forall t, 0 < time (S t) - time t <= step.

Lemma rdtsc_loop_ok delta : 0 <= delta -> delta + step < 2 ^ 64 -> forall fuel t0 t, 0 <= time t - time t0 < delta + step ->
  delta - (time t - time t0) <= Z.of_nat fuel ->
  exists t', rdtsc_loop fuel (fun t => u64 (time t)) t (u64 (time t0)) delta = Some t' /\ delta <= time t' - time t0 < delta + step.
Proof.
  intros Hd Hs. induction fuel as [|fuel IH]; intros t0 t Ht Hf; cbn [rdtsc_loop];
    (assert (E : u64 (u64 (time t) - u64 (time t0)) = time t - time t0) by (unfold u64; apply counter_difference; lia)); rewrite E.
  - replace (_ <? _) with false by lia. exists t. split; [reflexivity | lia].
  - destruct (time t - time t0 <? delta) eqn:T; tests; [|exists t; split; [reflexivity | lia]].
    pose proof (time_step t). apply IH; lia.
Qed.

(** [ms_delay] returns after at least the ticks of [ms] milliseconds at the frequency in whole megahertz, and at most one reading later. *)
Lemma ms_delay_waits d t ms : let delta := ms * 1000 * s_cpu_freq_mhz d in
  0 <= ms -> ms * 1000 < 2 ^ 32 -> 0 <= s_cpu_freq_mhz d -> step < 2 ^ 62 -> delta < 2 ^ 62 ->
  exists t', ms_delay (Z.to_nat delta) d (fun t => u64 (time t)) t ms = Some t' /\ delta <= time t' - time t < delta + step + 1.
Proof.
  intros delta Hm Hu Hf Hs Hd. unfold ms_delay, us_delay, rdtsc_delay. rewrite u32_small by lia. fold delta.
  assert (D0 : 0 <= delta) by (apply Z.mul_nonneg_nonneg; lia). assert (u64 delta = delta) as -> by (apply Z.mod_small; lia).
  pose proof (time_step t) as St. destruct (decide (delta = 0)) as [Z0 | Nz].
  - exists (S t). rewrite Z0. split; [|lia]. destruct (Z.to_nat 0); cbn [rdtsc_loop];
      replace (u64 (u64 (time (S t)) - u64 (time t)) <? 0) with false by (symmetry; apply Z.ltb_ge, Z.mod_pos_bound; lia); reflexivity.
  - destruct (rdtsc_loop_ok delta D0 ltac:(lia) (Z.to_nat delta) t (S t)) as (t' & E & B); try lia. exists t'. split; [exact E | lia].
Qed.
End waiting.

(** The frequency is kept in 32 bits: a processor of 4.3 GHz is taken for one of 5 MHz, and waits too short by that factor. *)
Lemma fast_processor_overflows d : s_inited d = false -> delay_init d (u32 (430000000 / CALIBRATE_LOOP * HZ)) = mk_delay true 5032704 5.
Proof. intros Hd. unfold delay_init. rewrite Hd. reflexivity. Qed.

(** ** Witness

    Time in picoseconds, roughly: 838095 of them are a tick of the 8254; readings every 1.3 microseconds, a bus of 100 MHz and a
    processor of 2.4 GHz, neither of which is a whole multiple of the 8254. *)

Lemma timer_is_calibrated_witness : let clk k := 1300000 * Z.of_nat k + 17 in
  exists clocks d' w' k', local_apic_init 0x200 (Z.to_nat 8000) (get 838095 clk) (tsc clk 10000 24 3) (cct clk 10000 1 0) 0 (mk_delay false 0 0) 0 [] = Some (0, clocks, d', w', k') /\
    reg_of w' APIC_TIMER_ICT = Some clocks /\ 999800 < clocks < 1000100 /\ 2399000000 < s_cpu_freq d' < 2401000000.
Proof.
  intros clk. destruct (timer_is_calibrated 838095 clk 1300000 1300000 ltac:(lia) ltac:(unfold clk; lia) ltac:(lia) ltac:(intros k; unfold clk; lia) ltac:(rewrite latch_value; lia)
    clk clk 10000 1 24 0 3 ltac:(intros k; unfold clk; lia) ltac:(intros k; unfold clk; lia) ltac:(lia) ltac:(lia) ltac:(lia)
    ltac:(unfold longest; rewrite latch_value; lia) ltac:(unfold longest; rewrite latch_value; lia)
    0x200 (Z.to_nat 8000) (mk_delay false 0 0) 0 [] eq_refl ltac:(rewrite latch_value; lia) eq_refl)
    as (clocks & d' & w' & k' & E & B & F & _ & _ & R & _). exists clocks, d', w', k'. rewrite latch_value in B, F. split_and!; [exact E | exact R | lia..].
Defined.
